(* ===== verification/_CoqProject ===== *)
-Q . S2P
Prelude.v
Platform.v
Bytes.v
CStrings.v
NmbmTypes.v
NmbmChip.v
NmbmBlocks.v
NmbmTable.v
NmbmAttach.v
NmbmLogic.v
NmbmSpec.v
NmbmBlockSpec.v
NmbmWalk.v
NmbmTableSpec.v
NmbmLogicSpec.v
NmbmAttachSpec.v
NmbmFormat.v
NmbmData.v
NmbmSim.v
NmbmStored.v
NmbmSave.v
NmbmLoad.v
NmbmPersist.v
NmbmTheorems.v
NmbmWitness.v
NmbmPersistWitness.v
NmbmMtd.v
NmbmMtdSpec.v
NmbmMtdTheorems.v
NmbmMtdWitness.v
MtdSplit.v
MtdSplitParsers.v
MtdSplitSpec.v
MtdSplitTheorems.v
MtdSplitWfi.v
MtdSplitWfiSpec.v
MtdSplitWfiTheorems.v
MtdSplitWitness.v
RouterBoot.v
RouterBootSpec.v
RouterBootPart.v
RouterBootPartSpec.v
RbConfig.v
RbConfigSpec.v
NvramLib.v
NvramCli.v
NvramSpec.v
NvramFormat.v
NvramCommitSpec.v
NvramKeepSpec.v
NvramTheorems.v
NvramWitness.v
ToolCrc.v
ToolMd5.v
ToolMd5Spec.v
ToolOs.v
ToolFix.v
ToolTag.v
ToolFis.v
ToolFlags.v
ToolJffs2.v
ToolMtd.v
ToolMtdFis.v
ToolOsSpec.v
ToolWriteSpec.v
ToolFixSpec.v
ToolFlagsSpec.v
ToolTrxSpec.v
ToolCmdSpec.v
ToolKeepSpec.v
ToolTagSpec.v
ToolFisSpec.v
ToolMtdFisSpec.v
ToolJffs2Spec.v
ToolSim.v
ToolTheorems.v
ToolWitness.v
ToolFisTheorems.v
Bcm4908.v
Bcm4908Spec.v
