(* ===== verification/Prelude.v ===== *)
(** * The flash storage stack of the router firmware

    This library models and verifies the part of the repository that decides where
    data goes on a flash chip:

    - NMBM, the NAND mapped-block management (sources under
      [src/target/linux/generic/files-5.4]: [drivers/mtd/nmbm/nmbm-core.c],
      [nmbm-private.h], [include/nmbm/nmbm.h], [include/nmbm/nmbm-os.h]).  It hides
      bad blocks of a NAND chip: logic blocks are mapped to physical blocks, blocks
      that go bad are replaced by spare blocks of a management area at the end of
      the chip, and two copies of an info table on the chip hold the block states
      and the mapping;
    - the MTD driver on top of it ([drivers/mtd/nmbm/nmbm-mtd.c]), which gives NMBM
      a lower MTD device and offers the result as an MTD device;
    - the firmware splitters ([src/target/linux/generic/files/drivers/mtd/mtdsplit]),
      which cut a flash partition into a kernel and a root file system by looking at
      image headers;
    - the flash tool ([src/package/system/mtd/src]), the user-space program that
      writes firmware images to such devices, erases and verifies them, repairs
      image headers after a first boot, appends files to a JFFS2 file system, keeps the
      partition table of RedBoot and sets boot loader flags;
    - the NVRAM library and tool ([src/package/utils/nvram/src]), which keep the
      variables of Broadcom boot loaders in a hash table and in a flash partition;
    - the flash data of MikroTik boot loaders
      ([src/target/linux/generic/files/drivers/platform/mikrotik]), which two drivers show
      in sysfs and one changes, and the partition parsers of MikroTik and Cybertan devices
      ([src/target/linux/generic/files/drivers/mtd/parsers/routerbootpart.c],
      [src/target/linux/ath79/files/drivers/mtd/parsers/parser_cybertan.c]);
    - the tool for images of Broadcom BCM4908 boards
      ([src/package/utils/bcm4908img/src/bcm4908img.c]), which builds firmware images from
      files, takes them apart and renames files in their boot file system.

    The driver calls NMBM under a lock; NMBM calls back into the driver to access the
    chip; the splitters read an MTD device when its partitions are registered; the
    tool works on MTD devices through system calls; the NVRAM tool maps an MTD device, or
    the staging file a change is kept in until it is committed, into memory; the MikroTik
    drivers read the partitions [hard_config] and [soft_config] that their parser finds.
    The image tool works on files; the Broadcom parser among the splitters reads the boot
    file systems of the images it builds.

    ** How code is modelled

    C integers are [Z] with every conversion to a fixed width written out ([u32],
    [u64], [i32], [size_t]).  A C function is a state transformer [M state result]
    ([Prelude]): it returns a result and a new state, or it is [Fault] (an access
    outside an object, a null or uninitialised pointer) or [Diverge] (a loop that has
    used up its bound).  [wp m Q s] says that [m], started in [s], returns and
    satisfies [Q]: every theorem stated with it is a total correctness statement that
    excludes both.  Loops have the bounds their data gives them: the number of blocks
    or pages for walks and scans, [NMBM_TRY_COUNT] for retries, the number of good
    blocks for the update and remapping loops ([update_fuel]), erase blocks for the
    splitters ([eb_fuel]), the states of the walk over a block ([block_fuel]).  The theorems prove that these bounds suffice; where the
    code can loop for ever ([bootfs_end]) or the bound depends on the outside (the
    loops of the flash tool) the number of rounds is a parameter [fuel], and the
    theorems say how large it has to be: the size of the device and the number of
    interruptions for [mtd_write], the number of blocks for [mtd_erase], the bytes
    read for [mtd_verify] and [mtd_fixtrx], the number of blocks for
    [routerboot_find_dynparts], the number of nodes in front of a file for renaming it with
    the image tool.

    The flash tool is a process: its functions ([X K result], [ToolOs]) also end by
    calling [exit], and change global variables ([tool]) and the rest of the machine
    [K].  [xwp m E Q w] is total correctness with a postcondition for returns and one
    for exits; [keeps_flash] is a property of all runs.

    Code that is not in the repository is a parameter: the callbacks of the lower
    device (members of [nmbm_lower_device] and [mtd_info]), [mtd_read] of the MTD
    layer (member of [mtd_dev]), [crc32_le] (class [Crc32]), memory allocation and the
    device tree (fields of [probe_env], [mtd_dev], [uimage_node], [wfi_node], [wfi_mem],
    [rb_node]), and the members of [rb_env], among them the LZO decompressor.  What the theorems
    need of it are classes with instances: [read_contract] and [lower_contract] (a read
    fills the buffers it is given), [nand_content] (a chip stores pages: programming is
    idealised, a write that returns 0 stores what it was given even on a page that is not
    erased), [nand_reliable]
    (blocks that are sound erase and program without errors), [mtd_contract],
    [Crc32Laws], [mtd_laws] and [mtd_image] (a read delivers bytes of the device), and
    [soft_flash] (a partition is read and written as a whole).
    The system calls of the flash tool, the C library's [strtoul] and the MD5 of
    libubox are members of the class [Os]; [OsLaws] says what the tool relies on, in
    terms of a view of the machine with flash devices and open files: programming
    erased flash stores the bytes, a failed request changes its own range only, a
    file delivers its bytes in pieces and with interruptions.  Of the NVRAM library, the
    sign of [char] ([Char]), memory allocation and [msync] ([NvMem]) and the other system
    calls ([NvOs]) are parameters; [NvKeepLaws] says that opening and mapping a file
    privately leaves the files alone.  The streams the image tool uses are those of the
    standard library: files are bytes under names, and a list of faults says which calls
    fail; [calm] is the empty list.

    ** Files

    - [Prelude]: integers, outcomes, the monad and its notation, loops, buffers, the
      weakest precondition rules and tactics, list and byte lemmas, functions that keep a
      relation between states, hint databases.
    - [Platform]: the width of [size_t], byte order, error numbers.  [Bytes]: bits and bytes, and CRC-32
      by shift register, the reference for both the chip simulator and the tool.
      [CStrings]: C strings, [strtoul], [strncpy].
    - [NmbmTypes]: constants, on-chip structures with their bytes, the lower device, the
      instance (split into a geometry that attaching fixes and mutable fields).
    - [NmbmChip]: access to pages and blocks of the chip, with the retries.
    - [NmbmBlocks]: checksums, the block state table, block walks, verified writes.
    - [NmbmTable]: the info tables: generation, writing, rescue, update, remapping.
    - [NmbmAttach]: creation of a new management area, loading of an existing one, the
      signature, the geometry, [nmbm_attach] and [nmbm_detach].
    - [NmbmLogic]: the operations on logic addresses.
    - [NmbmSim]: a concrete chip and CRC-32, with proofs that they meet the contracts; the
      witnesses run on them.
    - [NmbmSpec], [NmbmBlockSpec], [NmbmWalk], [NmbmTableSpec], [NmbmLogicSpec],
      [NmbmAttachSpec]: invariants ([geom_ok], [st_ok], [base_ok], [tab_ok],
      [inst_ok]), the relations between states before and after an operation
      ([dev_steps], [base_rel], [op_rel]) and one specification lemma per operation.
    - [NmbmFormat]: round trips of the byte formats.  [NmbmData]: the bytes stored at
      logic addresses.
    - [NmbmStored], [NmbmSave], [NmbmLoad], [NmbmPersist]: on chips whose table blocks
      work, what an update of the tables stores, what loading reads from a chip that
      holds it, and detaching followed by attaching.
    - [NmbmTheorems], [NmbmWitness], [NmbmPersistWitness]: sequences of calls, the
      properties of NMBM and concrete uses of them.
    - [NmbmMtd], [NmbmMtdSpec], [NmbmMtdTheorems], [NmbmMtdWitness]: the MTD driver.
    - [MtdSplit], [MtdSplitParsers]: the search for a root file system and the parsers.
      [MtdSplitSpec], [MtdSplitTheorems], [MtdSplitWitness]: what they guarantee.
      [MtdSplitWfi], [MtdSplitWfiSpec], [MtdSplitWfiTheorems]: the parser for Broadcom
      whole flash images ([mtdsplit_bcm_wfi.c]), which searches JFFS2 directory entries.
    - [RouterBoot], [RouterBootSpec]: tags and run lengths of MikroTik flash data
      ([routerboot.c]).  [RouterBootPart], [RouterBootPartSpec]: the two partition parsers.
      [RbConfig], [RbConfigSpec]: the sysfs drivers ([rb_hardconfig.c],
      [rb_softconfig.c]); a commit consists of three steps ([commit_enter],
      [commit_locked], [commit_exit]), which [sys_step] interleaves.
    - [NvramLib], [NvramCli]: the table, the format and the CRC-8 ([nvram.c], [crc.c]);
      finding, opening and staging the partition, and the commands ([cli.c]).
      [NvramSpec] (the table as a finite map), [NvramFormat] (the byte format),
      [NvramCommitSpec], [NvramKeepSpec]: one specification per operation.
      [NvramTheorems], [NvramWitness]: the properties, and a machine to run the tool on.
    - [Bcm4908], [Bcm4908Spec]: the image tool, and what its commands guarantee; its table
      for CRC-32 is that of [ToolCrc].
    - [ToolOs], [ToolMtd]: the environment of the flash tool and its access to devices, its
      commands and [main] ([mtd.c]).  [ToolCrc], [ToolMd5]: [crc32.c],
      [md5.c].  [ToolFix]: [trx.c], [seama.c], [wrg.c], [wrgg.c].  [ToolFlags]:
      [linksys_bootcount.c], [tpl_ramips_recoveryflag.c].  [ToolJffs2]: [jffs2.c].
      [ToolTag]: [imagetag.c].  [ToolFis]: [fis.c].  [ToolMtdFis]: the parts of [mtd.c]
      for [FIS_SUPPORT], the option that names the new partitions.
    - [ToolOsSpec]: the view of the machine and the laws of the system calls.
      [ToolMd5Spec], [ToolWriteSpec], [ToolFixSpec], [ToolFlagsSpec], [ToolTrxSpec],
      [ToolCmdSpec], [ToolKeepSpec], [ToolJffs2Spec]: reference definitions and one
      specification per step.  [ToolSim]: a concrete machine that satisfies the laws.
      [ToolTheorems], [ToolWitness]: the properties of the tool and runs of it.
      [ToolTagSpec], [ToolFisSpec], [ToolMtdFisSpec], [ToolFisTheorems]: the same for image
      tags and FIS directories.

    ** What is shown

    - Block states and walks ([set_block_state_get], [block_walk_refines],
      [try_reserve_refines]): the bitmap stores what it is given, and the walks return
      the block a list-based reference definition selects.
    - Info tables ([info_table_roundtrip], [write_mgmt_range_confined],
      [update_info_table_spec], [rebuild_info_table_spec],
      [rescue_main_table_succeeds]): the image of a table passes the checks of the
      loader and gives back the tables; updating terminates, keeps the layout of the
      management area and writes nowhere else.
    - Mapping and data ([build_mapping_injective], [map_block_isolated],
      [map_block_shares_spare], [erase_keeps_other_data], [write_range_stores],
      [read_range_refines]): what is written is stored, what is read is what is stored,
      and erasing one block keeps the others, as long as no two logic blocks share a
      physical one, which remapping preserves unless a spare block is bad: then
      [map_block_shares_spare] shows two logic blocks mapped to one block.
    - Operations ([erase_logic_block_spec], [erase_block_range_spec],
      [check_bad_block_spec], [mark_then_check_bad], [read_only_operations],
      [calls_keep_invariant]): every branch, error codes included, and the invariant
      over arbitrary sequences of calls.
    - Attaching ([init_structure_sound], [attach_creates],
      [find_signature_terminates]); an instance that is detached and attached again
      has the mapping, the block states and the data it had ([detach_attach], for
      instances that satisfy [persistent]: two tables on sound blocks, nothing that
      looks like a table in front of them, mapped entries in the data area or above
      the spare blocks).
    - The driver ([device_lock_exclusive], [device_lock_live], [probe_discharges_contract],
      [lower_read_page_codes], [mtd_read_oob_spec], [mtd_write_oob_spec],
      [probe_balanced], [remove_keeps_node]): operations exclude each other;
      under a scheduler that is fair to threads that are not asleep some waiting thread gets
      the device again and again, because its release wakes the sleepers, and a thread that
      is not overtaken for ever gets it; the callbacks meet the contract of NMBM, requests
      stay inside their buffers.
    - The splitters ([find_rootfs_first], [fit_parse_first], [front_kernel_parsers],
      [image_parsers_layout], [header_parsers_layout], [squashfs_split_aligned],
      [cfe_bootfs_returns], and the failures [uimage_past_end], [cfe_bootfs_hangs],
      [jffs2_magic_order]): the partitions lie where the images say and inside the
      device.  The Broadcom parser finds files as a list-based reference does
      ([jffs2_find_file_first]) and divides the newer of two images
      ([wfi_split_newest], [ser_wfi_split_newest], [wfi_parse_layout]), if the entries
      fit into their blocks ([blocks_fit]); [wfi_zero_length_hangs],
      [wfi_tail_overrun] and [wfi_fallback_lost] show what happens otherwise.
    - The flash tool: an image ends up on the good blocks of the device in order
      ([mtd_write_stores] against the reference [place]); erasing spares bad blocks
      ([mtd_erase_good_blocks]); verifying compares the right bytes
      ([mtd_verify_digest]); repaired headers match their data
      ([fix_header_repairs], [fixtrx_repairs]); boot flags read back
      ([resetbc_counts_zero], [recoverflag_sets_flag]); JFFS2 nodes read back
      ([jffs2_nodes_roundtrip], [directory_found]); the checksums are the standard
      ones ([crc32_table_driven], [md5_streaming]); nothing is written before the
      image has been checked or by commands that read ([write_checked_first],
      [main_reads_only]).  An image tag is cut down to its kernel ([fixtag_repairs]), and
      the entries of a FIS directory are replaced with those in front and behind kept, and
      the new ones follow each other from the lower base of the old ones, inside their area
      if their sizes fit ([fis_remap_replaces]); [fis_remap_shrink] shows what happens with fewer entries.  With
      the option [-F] the image is written as without it, and every new partition gets the
      length and the checksum of its part ([fis_write_measures]); without the option the
      tool is the one compiled without [FIS_SUPPORT] ([fis_main_without_option]).  The
      theorems on writing are for a single device, without a part offset and without the
      options [-n], [-j] and [-t]; the definitions have these branches as well.
    - NVRAM: the hash table is a finite map ([table_refines_map]); what is committed is
      read back ([commit_reopen]) with the header the table asks for
      ([commit_info_agrees]), as long as it fits and memory is granted ([MemGranted]); commands that read leave every file as
      it is ([reading_keeps_files]).
    - MikroTik: the first tag with an identifier is found ([tag_find_first]), runs are
      decoded ([rle_decode_runs]) and calibration data is shown decoded however it is read
      ([wlan_data_read]); a setting that is stored is the one shown ([store_then_show]); a
      commit leaves the flash with the buffer and a valid checksum, or returns the error of
      the access that failed with the buffer as it was ([commit_seals]); under
      all interleavings a clean buffer is what the flash holds, or a failure is about to be
      noted ([softconfig_in_sync]).  [overlapping_commits_invalid] and
      [failed_commit_looks_clean] show what the missing lock does, [erd_overrun] and
      [long_payload_searched] what unchecked lengths do.  The partition parser ends and
      reports partitions in order inside the device ([partitions_parse_spec]), unless the
      device keeps failing ([find_dynparts_hangs]) or sums wrap around
      ([far_partition_accepted]).
    - The image tool: an image that is created can be extracted again, if the padding that
      creating leaves out of the checksum does not change it ([create_then_extract]);
      renaming a file changes the entry, its checksum and the end of the file, and leaves a
      valid checksum unless the image has the tail of Linksys ([mv_renames]); the parser
      accepts only files with the layout and the checksum of [image_ok], and all of these
      with 256 bytes behind the start of the root file system ([parse_image]).

    ** What is not modelled

    Logging and help texts (they only print), [WATCHDOG_RESET] (empty), the colour hooks of
    [nmbm-debug.h] (empty), module and parser registration, [getopt] (the options are
    given as a list).  The load path of NMBM is modelled in full, but proved only for a
    chip with two equal tables ([detach_attach]); loading from one table or from two that
    differ, and whole JFFS2 file systems ([add_file], [mtd_write_jffs2]), have definitions
    and no theorem on their composition.  Of the MikroTik drivers, memory that [kmalloc]
    grants is the same for all calls, and the size of the page that a sysfs file is printed
    to is not part of the model.  The rest of the repository (boot loaders, the raw NAND
    drivers, wireless and network packages, build system, other targets) is outside the
    storage stack: hardware registers, third-party code and its patches, or scripts. *)

From stdpp Require Import base list numbers sets relations.
From Stdlib Require Import ZArith Lia.

(** * Machine integers

    The C integer types are modelled as [Z]; each conversion to a type of
    fixed width is written out with one of the following functions. *)
Local Open Scope Z_scope.

Definition u8 (z : Z) : Z := z mod 2 ^ 8.
Definition u16 (z : Z) : Z := z mod 2 ^ 16.
Definition u32 (z : Z) : Z := z mod 2 ^ 32.
Definition u64 (z : Z) : Z := z mod 2 ^ 64.

(** Conversion to [int32_t] (two's complement). *)
Definition i32 (z : Z) : Z :=
  let m := z mod 2 ^ 32 in if m <? 2 ^ 31 then m else m - 2 ^ 32.

Create HintDb nmbm.
Create HintDb nmbm_rel.
Create HintDb cint.
Create Rewrite HintDb cint.

Lemma u32_small z : 0 <= z < 2 ^ 32 -> u32 z = z.
Proof. apply Z.mod_small. Qed.

Lemma u64_small z : 0 <= z < 2 ^ 64 -> u64 z = z.
Proof. apply Z.mod_small. Qed.

Lemma i32_small z : - 2 ^ 31 <= z < 2 ^ 31 -> i32 z = z.
Proof.
  intros Hz. unfold i32. destruct (Z_lt_le_dec z 0) as [Hn|Hp].
  - rewrite <- (Z.mod_add z 1 (2 ^ 32)) by lia.
    rewrite Z.mod_small by lia.
    destruct (Z.ltb_spec (z + 1 * 2 ^ 32) (2 ^ 31)); lia.
  - rewrite Z.mod_small by lia.
    destruct (Z.ltb_spec z (2 ^ 31)); lia.
Qed.

Lemma u32_range z : 0 <= u32 z < 2 ^ 32.
Proof. apply Z.mod_pos_bound. lia. Qed.

Lemma u64_range z : 0 <= u64 z < 2 ^ 64.
Proof. apply Z.mod_pos_bound. lia. Qed.

Lemma i32_range z : - 2 ^ 31 <= i32 z < 2 ^ 31.
Proof.
  unfold i32. pose proof (Z.mod_pos_bound z (2 ^ 32)).
  destruct (Z.ltb_spec (z mod 2 ^ 32) (2 ^ 31)); lia.
Qed.

Lemma i32_u32 z : i32 (u32 z) = i32 z.
Proof. unfold i32, u32. now rewrite Z.mod_mod by lia. Qed.

Lemma u32_i32 z : u32 (i32 z) = u32 z.
Proof.
  unfold i32, u32. destruct (z mod 2 ^ 32 <? 2 ^ 31).
  - by rewrite Z.mod_mod by lia.
  - rewrite <- (Z.mod_add _ 1) by lia.
    replace (z mod 2 ^ 32 - 2 ^ 32 + 1 * 2 ^ 32) with (z mod 2 ^ 32) by lia.
    by rewrite Z.mod_mod by lia.
Qed.

Lemma i32_i32 z : i32 (i32 z) = i32 z.
Proof. apply i32_small, i32_range. Qed.

(** The two's complement image of a non-negative [int32_t] is itself, that of
    a negative one is at least [2^31]. *)
Lemma u32_of_i32 z :
  - 2 ^ 31 <= z < 2 ^ 31 -> u32 z = if z <? 0 then z + 2 ^ 32 else z.
Proof.
  intros Hz. unfold u32. destruct (Z.ltb_spec z 0).
  - rewrite <- (Z.mod_add z 1 (2 ^ 32)) by lia. rewrite Z.mod_small; lia.
  - apply Z.mod_small. lia.
Qed.

#[export] Hint Rewrite u32_small u64_small i32_small using lia : cint.
#[export] Hint Resolve u32_range u64_range i32_range : cint.

(** * Outcomes of C code

    A C function is a state transformer.  [Fault] is an access outside an
    object or a call through a null pointer, [Diverge] a loop that has used up
    the iteration bound the model gives it.  The theorems exclude both. *)
Inductive outcome (S A : Type) : Type :=
| Ret (a : A) (s : S)
| Fault
| Diverge.
Arguments Ret {S A} _ _.
Arguments Fault {S A}.
Arguments Diverge {S A}.

Definition M (S A : Type) : Type := S -> outcome S A.

Definition ret {S A} (a : A) : M S A := fun s => Ret a s.
Definition fault {S A} : M S A := fun _ => Fault.
Definition bind {S A B} (m : M S A) (k : A -> M S B) : M S B :=
  fun s => match m s with
           | Ret a s' => k a s'
           | Fault => Fault
           | Diverge => Diverge
           end.
Definition gets {S A} (f : S -> A) : M S A := fun s => Ret (f s) s.
Definition modify {S} (f : S -> S) : M S unit := fun s => Ret tt (f s).

Declare Scope cprog_scope.
Delimit Scope cprog_scope with cprog.
Notation "'let*' x ':=' m 'in' k" := (bind m (fun x => k))
  (at level 10, x pattern, m at level 100, k at level 200,
   format "'[v' 'let*'  x  ':='  m  'in' '/' k ']'") : cprog_scope.
Notation "'do*' m 'in' k" := (bind m (fun _ => k))
  (at level 10, m at level 100, k at level 200,
   format "'[v' 'do*'  m  'in' '/' k ']'") : cprog_scope.
Local Open Scope cprog_scope.

(** A C loop.  [body] returns [inl] to go round again and [inr] to leave. *)
Fixpoint loop {S L R} (fuel : nat) (body : L -> M S (L + R)) (l : L) : M S R :=
  match fuel with
  | O => fun _ => Diverge
  | Datatypes.S n =>
      let* r := body l in
      match r with
      | inl l' => loop n body l'
      | inr r => ret r
      end
  end.

(** Array access: [a[i]] and [a[i] = v]. *)
Definition arr_get {S} (l : list Z) (i : Z) : M S Z :=
  fun s => if i <? 0 then Fault
           else match l !! Z.to_nat i with Some v => Ret v s | None => Fault end.

(** [memcpy(buf + off, src, length src)] on the buffer contents. *)
Definition blit (buf : list Z) (off : Z) (src : list Z) : list Z :=
  let o := Z.to_nat off in
  take o buf ++ src ++ drop (o + length src) buf.

(** The [len] bytes of [buf] from [off] on. *)
Definition slice (buf : list Z) (off len : Z) : list Z :=
  take (Z.to_nat len) (drop (Z.to_nat off) buf).

(** The access check of [memcpy]/[memset] on a buffer. *)
Definition in_bounds (buf : list Z) (off len : Z) : bool :=
  (0 <=? off) && (0 <=? len) && (off + len <=? Z.of_nat (length buf)).

(** * Byte images of the C structures *)

Fixpoint le_bytes (n : nat) (v : Z) : list Z :=
  match n with
  | O => []
  | Datatypes.S n => v mod 256 :: le_bytes n (v / 256)
  end.

Fixpoint le_val (l : list Z) : Z :=
  match l with
  | [] => 0
  | b :: l => b + 256 * le_val l
  end.

(** The little-endian unsigned field of [len] bytes at offset [off]. *)
Definition le_field (buf : list Z) (off len : Z) : Z := le_val (slice buf off len).

(** The big-endian field of the same bytes. *)
Definition be_field (buf : list Z) (off len : Z) : Z := le_val (reverse (slice buf off len)).

#[global] Arguments blit : simpl never.
#[global] Arguments slice : simpl never.
#[global] Arguments in_bounds : simpl never.

(** * Weakest preconditions

    [wp m Q s]: started in [s], [m] returns (no fault, no divergence) and the
    result and final state satisfy [Q]. *)
Definition wp {S A} (m : M S A) (Q : A -> S -> Prop) (s : S) : Prop :=
  match m s with
  | Ret a s' => Q a s'
  | Fault | Diverge => False
  end.

Section wp_rules.
Context {S : Type}.

Lemma wp_mono {A} (m : M S A) (Q Q' : A -> S -> Prop) s :
  wp m Q s -> (forall a s', Q a s' -> Q' a s') -> wp m Q' s.
Proof. unfold wp. destruct (m s); naive_solver. Qed.

Lemma wp_ret {A} (a : A) (Q : A -> S -> Prop) s : Q a s -> wp (ret a) Q s.
Proof. done. Qed.

Lemma wp_bind {A B} (m : M S A) (k : A -> M S B) Q s :
  wp m (fun a s' => wp (k a) Q s') s -> wp (bind m k) Q s.
Proof. unfold wp, bind. by destruct (m s). Qed.

Lemma wp_gets {A} (f : S -> A) (Q : A -> S -> Prop) s : Q (f s) s -> wp (gets f) Q s.
Proof. done. Qed.

Lemma wp_modify (f : S -> S) (Q : unit -> S -> Prop) s :
  Q tt (f s) -> wp (modify f) Q s.
Proof. done. Qed.

Lemma wp_arr_get l i (Q : Z -> S -> Prop) s :
  0 <= i < Z.of_nat (length l) ->
  (forall v, l !! Z.to_nat i = Some v -> Q v s) -> wp (arr_get l i) Q s.
Proof.
  intros Hi HQ. unfold wp, arr_get.
  destruct (Z.ltb_spec i 0); [lia|].
  destruct (l !! Z.to_nat i) as [v|] eqn:E; [by apply HQ|].
  apply lookup_ge_None in E. lia.
Qed.

(** Total correctness of a loop: an invariant and a measure bounded by the
    fuel. *)
Lemma wp_loop {L R} (I : L -> S -> Prop) (meas : L -> S -> nat)
    (body : L -> M S (L + R)) (Q : R -> S -> Prop) :
  (forall l s, I l s ->
     wp (body l) (fun r s' =>
       match r with
       | inl l' => I l' s' /\ (meas l' s' < meas l s)%nat
       | inr r => Q r s'
       end) s) ->
  forall fuel l s, I l s -> (meas l s < fuel)%nat -> wp (loop fuel body l) Q s.
Proof.
  intros Hbody fuel. induction fuel as [|n IH]; intros l s HI Hm; [lia|].
  cbn [loop]. apply wp_bind. eapply wp_mono; [by apply Hbody|].
  intros [l'|r] s'; cbn; [|done].
  intros [HI' Hm']. apply IH; [done|lia].
Qed.

Lemma wp_and {A} (m : M S A) (Q Q' : A -> S -> Prop) s :
  wp m Q s -> wp m Q' s -> wp m (fun a s' => Q a s' /\ Q' a s') s.
Proof. unfold wp. by destruct (m s). Qed.

Lemma wp_inv {A} (m : M S A) Q s :
  wp m Q s -> exists a s', m s = Ret a s' /\ Q a s'.
Proof. unfold wp. destruct (m s) eqn:E; naive_solver. Qed.

Lemma wp_intro {A} (m : M S A) Q s a s' : m s = Ret a s' -> Q a s' -> wp m Q s.
Proof. unfold wp. by intros ->. Qed.
End wp_rules.

(** [wp_step] runs the program as far as it is straight-line code;
    [wp_call L] applies the specification [L] to the call at the head. *)
Ltac wp_step :=
  match goal with
  | |- wp (bind _ _) _ _ => apply wp_bind
  | |- wp (ret _) _ _ => apply wp_ret
  | |- wp (gets _) _ _ => apply wp_gets
  | |- wp (modify _) _ _ => apply wp_modify
  end.
Ltac wp_call L := eapply wp_mono; [eapply L|cbn beta].

(** * Lists *)

Lemma length_blit buf off src :
  0 <= off -> off + Z.of_nat (length src) <= Z.of_nat (length buf) ->
  length (blit buf off src) = length buf.
Proof. intros. unfold blit. rewrite !length_app, length_take, length_drop. lia. Qed.

Lemma length_slice buf off len :
  0 <= off -> 0 <= len -> off + len <= Z.of_nat (length buf) ->
  Z.of_nat (length (slice buf off len)) = len.
Proof. intros. unfold slice. rewrite length_take, length_drop. lia. Qed.

Lemma in_bounds_true buf off len :
  0 <= off -> 0 <= len -> off + len <= Z.of_nat (length buf) ->
  in_bounds buf off len = true.
Proof. intros. unfold in_bounds. rewrite !andb_true_iff, !Z.leb_le. lia. Qed.

(** Reading back what was copied, and the bytes around it. *)
Lemma slice_blit_eq buf off src :
  0 <= off -> off + Z.of_nat (length src) <= Z.of_nat (length buf) ->
  slice (blit buf off src) off (Z.of_nat (length src)) = src.
Proof.
  intros. unfold slice, blit. rewrite drop_app_length' by (rewrite length_take; lia).
  rewrite Nat2Z.id. by rewrite take_app_length.
Qed.

Lemma slice_blit_before buf off src o l :
  0 <= o -> 0 <= l -> o + l <= off -> off + Z.of_nat (length src) <= Z.of_nat (length buf) ->
  slice (blit buf off src) o l = slice buf o l.
Proof.
  intros. unfold slice, blit.
  rewrite <- (take_drop (Z.to_nat off) buf) at 3.
  rewrite !drop_app_le by (rewrite length_take; lia).
  rewrite !take_app_le by (rewrite length_drop, length_take; lia). done.
Qed.

Lemma slice_blit_after buf off src o l :
  0 <= off -> off + Z.of_nat (length src) <= o ->
  off + Z.of_nat (length src) <= Z.of_nat (length buf) ->
  slice (blit buf off src) o l = slice buf o l.
Proof.
  intros. unfold slice, blit. rewrite app_assoc.
  rewrite drop_app_ge by (rewrite length_app, length_take; lia).
  rewrite drop_drop. do 2 f_equal.
  rewrite length_app, length_take. lia.
Qed.

(** A filter by a stronger predicate is shorter, strictly when it drops an
    element. *)
Lemma filter_length_le {A} (P Q : A -> Prop) `{!forall x, Decision (P x)}
    `{!forall x, Decision (Q x)} (l : list A) :
  (forall x, x ∈ l -> Q x -> P x) -> (length (filter Q l) <= length (filter P l))%nat.
Proof.
  induction l as [|x l IH]; intros Himp; [done|].
  rewrite !filter_cons.
  assert (length (filter Q l) <= length (filter P l))%nat by (apply IH; set_solver).
  specialize (Himp x ltac:(set_solver)).
  repeat case_decide; cbn; try lia; naive_solver.
Qed.

Lemma filter_length_lt {A} (P Q : A -> Prop) `{!forall x, Decision (P x)}
    `{!forall x, Decision (Q x)} (l : list A) y :
  (forall x, x ∈ l -> Q x -> P x) -> y ∈ l -> P y -> ~ Q y ->
  (length (filter Q l) < length (filter P l))%nat.
Proof.
  induction l as [|x l IH]; intros Himp Hy HP HQ; [set_solver|].
  rewrite !filter_cons.
  assert (length (filter Q l) <= length (filter P l))%nat
    by (apply filter_length_le; set_solver).
  pose proof (Himp x ltac:(set_solver)) as Hx.
  apply elem_of_cons in Hy as [->|Hy].
  - repeat case_decide; cbn; try lia; naive_solver.
  - assert (length (filter Q l) < length (filter P l))%nat by (apply IH; set_solver).
    repeat case_decide; cbn; try lia; naive_solver.
Qed.

(** * Fields of byte strings *)

Definition is_byte (b : Z) : Prop := 0 <= b < 256.

Lemma le_val_range l : Forall is_byte l -> 0 <= le_val l < 256 ^ Z.of_nat (length l).
Proof.
  induction 1 as [|b l Hb _ IH]; [done|]. cbn [le_val length].
  rewrite Nat2Z.inj_succ, Z.pow_succ_r by lia. unfold is_byte in Hb. lia.
Qed.

Lemma slice_bytes l off len : Forall is_byte l -> Forall is_byte (slice l off len).
Proof. intros. by apply Forall_take, Forall_drop. Qed.

Lemma length_slice_le buf off len : Z.of_nat (length (slice buf off len)) <= Z.max 0 len.
Proof. unfold slice. rewrite length_take. lia. Qed.

Lemma slice_slice l a n o k :
  0 <= a -> 0 <= o -> 0 <= k -> o + k <= n -> slice (slice l a n) o k = slice l (a + o) k.
Proof.
  intros. unfold slice. rewrite skipn_firstn_comm, drop_drop, take_take.
  f_equal; [lia|]. f_equal. lia.
Qed.

Lemma le_field_range b off len :
  Forall is_byte b -> 0 <= len -> 0 <= le_field b off len < 256 ^ len.
Proof.
  intros Hb Hlen. pose proof (le_val_range _ (slice_bytes b off len Hb)).
  assert (256 ^ Z.of_nat (length (slice b off len)) <= 256 ^ len).
  { apply Z.pow_le_mono_r; [lia|]. pose proof (length_slice_le b off len). lia. }
  unfold le_field. lia.
Qed.

Lemma be_field_range b off len :
  Forall is_byte b -> 0 <= len -> 0 <= be_field b off len < 256 ^ len.
Proof.
  intros Hb Hlen. pose proof (le_val_range (reverse (slice b off len))) as Hr.
  assert (256 ^ Z.of_nat (length (slice b off len)) <= 256 ^ len).
  { apply Z.pow_le_mono_r; [lia|]. pose proof (length_slice_le b off len). lia. }
  rewrite length_reverse in Hr. unfold be_field.
  specialize (Hr ltac:(apply Forall_reverse, slice_bytes, Hb)). lia.
Qed.

Lemma length_le_bytes n v : length (le_bytes n v) = n.
Proof. revert v. induction n; intros; cbn; congruence. Qed.

Lemma le_val_bytes n v : le_val (le_bytes n v) = v mod 256 ^ Z.of_nat n.
Proof.
  revert v. induction n as [|n IH]; intros v; [by rewrite Z.mod_1_r|].
  cbn [le_bytes le_val]. rewrite IH. rewrite Nat2Z.inj_succ, Z.pow_succ_r by lia.
  by rewrite Z.rem_mul_r by lia.
Qed.

Lemma le_field_here n v rest len :
  Z.of_nat n = len -> le_field (le_bytes n v ++ rest) 0 len = v mod 256 ^ len.
Proof.
  intros <-. unfold le_field, slice. rewrite Nat2Z.id. change (Z.to_nat 0) with O. rewrite drop_0.
  rewrite take_app_length' by by rewrite length_le_bytes. apply le_val_bytes.
Qed.

Lemma le_field_skip l rest off len :
  Z.of_nat (length l) <= off -> le_field (l ++ rest) off len = le_field rest (off - Z.of_nat (length l)) len.
Proof.
  intros H. unfold le_field, slice. rewrite drop_app_ge by lia. do 3 f_equal. lia.
Qed.

(** A field inside what a copy leaves alone. *)
Lemma le_field_blit_before buf off src o l :
  0 <= o -> 0 <= l -> o + l <= off -> off + Z.of_nat (length src) <= Z.of_nat (length buf) ->
  le_field (blit buf off src) o l = le_field buf o l.
Proof. intros. unfold le_field. by rewrite slice_blit_before. Qed.

Lemma le_field_blit_after buf off src o l :
  0 <= off -> off + Z.of_nat (length src) <= o ->
  off + Z.of_nat (length src) <= Z.of_nat (length buf) ->
  le_field (blit buf off src) o l = le_field buf o l.
Proof. intros. unfold le_field. by rewrite slice_blit_after. Qed.

Lemma le_bytes_range n v : Forall is_byte (le_bytes n v).
Proof.
  revert v. induction n as [|n IH]; intros v; [constructor|]. constructor; [|apply IH].
  apply Z.mod_pos_bound. lia.
Qed.

Lemma le_bytes_app n k v : le_bytes (n + k) v = le_bytes n v ++ le_bytes k (v / 256 ^ Z.of_nat n).
Proof.
  revert v. induction n as [|n IH]; intros v; [by rewrite Z.div_1_r|].
  cbn [le_bytes app Nat.add]. rewrite IH. do 3 f_equal.
  rewrite Nat2Z.inj_succ, Z.pow_succ_r, Z.div_div by lia. done.
Qed.

(** Disjoint bits: a word assembled with shifts is a sum. *)
Lemma lor_shiftl_add a b n : 0 <= n -> 0 <= a < 2 ^ n -> Z.lor (Z.shiftl b n) a = b * 2 ^ n + a.
Proof.
  intros Hn Ha. rewrite <- Z.shiftl_mul_pow2 by lia. rewrite <- Z.add_lor_land.
  replace (Z.land (Z.shiftl b n) a) with 0; [lia|].
  symmetry. apply Z.bits_inj_0. intros i. rewrite Z.land_spec.
  destruct (Z_lt_le_dec i 0); [by rewrite !Z.testbit_neg_r by lia|].
  destruct (Z_lt_le_dec i n); [by rewrite Z.shiftl_spec_low by lia|].
  rewrite <- (Z.mod_small a (2 ^ n)) by lia. rewrite Z.mod_pow2_bits_high by lia. apply andb_false_r.
Qed.

(** * Frame conditions

    Relations between the states before and after a program that all its runs respect,
    whether or not it comes to an end: the frame conditions of read-only programs. *)

Create HintDb within.

Definition within {S A} (R : relation S) (m : M S A) : Prop := forall s a s', m s = Ret a s' -> R s s'.

(** A run of a sequence. *)
Lemma bind_run {S A B} (m : M S A) (k : A -> M S B) s b s' :
  bind m k s = Ret b s' -> exists a s1, m s = Ret a s1 /\ k a s1 = Ret b s'.
Proof. unfold bind. destruct (m s) as [a s1| |]; intros E; try done. by exists a, s1. Qed.

Section rules.
Context {S : Type} (R : relation S) `{!PreOrder R}.

Lemma within_ret {A} (a : A) : within R (ret a).
Proof. intros s r s' E. by injection E as <- <-. Qed.
Lemma within_fault {A} : within R (fault (A := A)).
Proof. done. Qed.
Lemma within_gets {A} (f : S -> A) : within R (gets f).
Proof. intros s r s' E. by injection E as <- <-. Qed.
Lemma within_modify (f : S -> S) : (forall s, R s (f s)) -> within R (modify f).
Proof. intros Hf s r s' E. by injection E as <- <-. Qed.
Lemma within_arr_get l i : within R (arr_get l i).
Proof.
  intros s r s'. unfold arr_get. destruct (i <? 0), (l !! Z.to_nat i); try done.
  intros E. by injection E as <- <-.
Qed.

Lemma within_bind {A B} (m : M S A) (k : A -> M S B) :
  within R m -> (forall a, within R (k a)) -> within R (bind m k).
Proof.
  intros Hm Hk s b s'. unfold bind. destruct (m s) as [a s1| |] eqn:E; try done.
  intros E'. etrans; [by eapply Hm|by eapply Hk].
Qed.

Lemma within_loop {L B} fuel (body : L -> M S (L + B)) l :
  (forall l, within R (body l)) -> within R (loop fuel body l).
Proof.
  intros Hb. induction fuel as [|fuel IH] in l |- *; [done|]. cbn [loop].
  apply within_bind; [done|]. intros [l'|b]; [done|]. apply within_ret.
Qed.
End rules.

#[export] Hint Resolve within_ret within_fault within_gets within_arr_get : within.

(** Follows the control flow of a program; the calls are in the database. *)
Ltac within :=
  repeat first
    [ solve [eauto 3 with within typeclass_instances]
    | match goal with
      | |- within _ (bind _ _) => apply within_bind
      | |- within _ (loop _ _ _) => apply within_loop
      | |- within _ (if ?b then _ else _) => destruct b
      | |- within _ (match ?x with _ => _ end) => destruct x
      | |- within _ (let '_ := ?x in _) => destruct x
      | |- forall _, _ => intros ?
      end ].
