(* ===== verification/Platform.v ===== *)
(** The machine the code is compiled for: the width of [size_t], the byte order, the
    error numbers, and the bytes of words in memory. *)

From stdpp Require Import base list numbers.
From Stdlib Require Import ZArith Lia.
From S2P Require Import Prelude.
Local Open Scope Z_scope.

(** * The platform

    The firmware parsers and the flash tool are generic code: the width of [size_t]
    and [unsigned long], and the order of the bytes of a word in memory, are those of
    the target. *)
Class Arch := { long_bits : Z; big_endian : bool }.

Definition size_t `{Arch} (z : Z) : Z := z mod 2 ^ long_bits.

(** [ssize_t] and [long]. *)
Definition ssize_t `{Arch} (z : Z) : Z :=
  let m := size_t z in if m <? 2 ^ (long_bits - 1) then m else m - 2 ^ long_bits.

(** [loff_t], a signed 64-bit integer. *)
Definition loff_t (z : Z) : Z := let m := u64 z in if m <? 2 ^ 63 then m else m - 2 ^ 64.

(** A field in the byte order of the CPU, and the bytes of a value in that order. *)
Definition cpu_field `{Arch} (buf : list Z) (off len : Z) : Z :=
  if big_endian then be_field buf off len else le_field buf off len.
Definition cpu_bytes `{Arch} (n : nat) (v : Z) : list Z :=
  if big_endian then reverse (le_bytes n v) else le_bytes n v.
Definition be_bytes (n : nat) (v : Z) : list Z := reverse (le_bytes n v).

(** A word read from a buffer. *)
Definition cpu_load `{Arch} {S} (buf : list Z) (off len : Z) : M S Z :=
  if in_bounds buf off len then ret (cpu_field buf off len) else fault.

Module Errno.
Definition ENOENT : Z := 2.
Definition EINTR : Z := 4.
Definition EIO : Z := 5.
Definition EAGAIN : Z := 11.
Definition ENOMEM : Z := 12.
Definition ENODEV : Z := 19.
Definition EINVAL : Z := 22.
End Errno.
Export Errno.

(** The targets have 32-bit or wider [size_t]. *)
Class ArchLaws (A : Arch) := long_bits_32 : 32 <= long_bits.

(** The targets of the repository: 64-bit little-endian, and a 32-bit one. *)
Definition aarch64 : Arch := {| long_bits := 64; big_endian := false |}.
Definition mips32 : Arch := {| long_bits := 32; big_endian := true |}.

#[export] Instance aarch64_laws : ArchLaws aarch64.
Proof. discriminate. Qed.
#[export] Instance mips32_laws : ArchLaws mips32.
Proof. discriminate. Qed.

Section widths.
Context `{A : Arch} `{!ArchLaws A}.

Lemma size_t_range z : 0 <= size_t z.
Proof using ArchLaws0.
  pose proof (long_bits_32 : 32 <= long_bits). apply Z.mod_pos_bound. apply Z.pow_pos_nonneg; lia.
Qed.

Lemma size_t_small z : 0 <= z < 2 ^ 32 -> size_t z = z.
Proof using ArchLaws0.
  intros. pose proof (long_bits_32 : 32 <= long_bits). apply Z.mod_small.
  assert (2 ^ 32 <= 2 ^ long_bits) by (apply Z.pow_le_mono_r; lia). lia.
Qed.

Lemma ssize_t_small z : - 2 ^ 31 <= z < 2 ^ 31 -> ssize_t z = z.
Proof using ArchLaws0.
  intros Hz. pose proof (long_bits_32 : 32 <= long_bits). unfold ssize_t, size_t.
  assert (2 ^ 31 <= 2 ^ (long_bits - 1)) by (apply Z.pow_le_mono_r; lia).
  assert (2 ^ long_bits = 2 * 2 ^ (long_bits - 1)) as E.
  { rewrite <- Z.pow_succ_r by lia. f_equal. lia. }
  destruct (Z_lt_le_dec z 0).
  - rewrite <- (Z.mod_add z 1) by lia. rewrite Z.mod_small by lia.
    destruct (Z.ltb_spec (z + 1 * 2 ^ long_bits) (2 ^ (long_bits - 1))); lia.
  - rewrite Z.mod_small by lia. destruct (Z.ltb_spec z (2 ^ (long_bits - 1))); lia.
Qed.
End widths.
