(* ===== verification/Bytes.v ===== *)
(** Lemmas on the bytes of words in memory: fields of concatenations, and writing into
    the middle of a buffer; and CRC-32 by shift register. *)

From stdpp Require Import base list numbers.
From Stdlib Require Import ZArith Lia.
From S2P Require Import Prelude Platform.
Local Open Scope Z_scope.
Local Open Scope cprog_scope.

(** * Words *)

Lemma le_val_be_bytes n v : le_val (reverse (be_bytes n v)) = v mod 256 ^ Z.of_nat n.
Proof. unfold be_bytes. rewrite reverse_involutive. apply le_val_bytes. Qed.

Lemma length_be_bytes n v : length (be_bytes n v) = n.
Proof. unfold be_bytes. by rewrite length_reverse, length_le_bytes. Qed.

Lemma be_bytes_range n v : Forall is_byte (be_bytes n v).
Proof. apply Forall_reverse, le_bytes_range. Qed.

Lemma length_cpu_bytes `{Arch} n v : length (cpu_bytes n v) = n.
Proof. unfold cpu_bytes. destruct big_endian; [apply length_be_bytes|apply length_le_bytes]. Qed.

Lemma cpu_bytes_range `{Arch} n v : Forall is_byte (cpu_bytes n v).
Proof. unfold cpu_bytes. destruct big_endian; [apply be_bytes_range|apply le_bytes_range]. Qed.

(** The bytes of a word in the order of the CPU, read back. *)
Lemma cpu_field_bytes `{Arch} buf off len v n :
  slice buf off len = cpu_bytes n v -> Z.of_nat n = len -> cpu_field buf off len = v mod 256 ^ len.
Proof.
  intros Hs <-. unfold cpu_field, be_field, le_field. rewrite Hs. unfold cpu_bytes.
  destruct big_endian; [apply le_val_be_bytes|apply le_val_bytes].
Qed.

Lemma cpu_field_range `{Arch} b off len :
  Forall is_byte b -> 0 <= len -> 0 <= cpu_field b off len < 256 ^ len.
Proof. unfold cpu_field. destruct big_endian; [apply be_field_range|apply le_field_range]. Qed.

Lemma cpu_field_slice `{Arch} data o k l n :
  0 <= o -> 0 <= k -> 0 <= l -> k + l <= n ->
  cpu_field (slice data o n) k l = cpu_field data (o + k) l.
Proof. intros. unfold cpu_field, be_field, le_field. by rewrite slice_slice by lia. Qed.

(** Bit operations stay within a width. *)
Lemma log2_lt a n : 0 < n -> 0 <= a < 2 ^ n -> Z.log2 a < n.
Proof. intros Hn Ha. destruct (Z.eq_dec a 0) as [->|]; [done|]. apply Z.log2_lt_pow2; lia. Qed.

Lemma log2_range a n : 0 <= a -> Z.log2 a < n -> 0 <= a < 2 ^ n.
Proof.
  intros Ha Hl. split; [done|]. destruct (Z.eq_dec a 0) as [->|]; [|by apply Z.log2_lt_pow2; lia].
  apply Z.pow_pos_nonneg; [lia|]. cbn in Hl. lia.
Qed.

Lemma lxor_width n a b : 0 < n -> 0 <= a < 2 ^ n -> 0 <= b < 2 ^ n -> 0 <= Z.lxor a b < 2 ^ n.
Proof.
  intros Hn Ha Hb. apply log2_range; [apply Z.lxor_nonneg; lia|].
  pose proof (Z.log2_lxor a b ltac:(lia) ltac:(lia)). pose proof (log2_lt a n Hn Ha).
  pose proof (log2_lt b n Hn Hb). lia.
Qed.

Lemma lor_width n a b : 0 < n -> 0 <= a < 2 ^ n -> 0 <= b < 2 ^ n -> 0 <= Z.lor a b < 2 ^ n.
Proof.
  intros Hn Ha Hb. apply log2_range; [apply Z.lor_nonneg; lia|].
  rewrite Z.log2_lor by lia. pose proof (log2_lt a n Hn Ha). pose proof (log2_lt b n Hn Hb). lia.
Qed.

(** * Concatenations *)

Lemma slice_head (l rest : list Z) len : Z.of_nat (length l) = len -> slice (l ++ rest) 0 len = l.
Proof. intros <-. unfold slice. rewrite drop_0, Nat2Z.id. apply take_app_length. Qed.

Lemma slice_app_l (l1 l2 : list Z) o n :
  0 <= o -> 0 <= n -> o + n <= Z.of_nat (length l1) -> slice (l1 ++ l2) o n = slice l1 o n.
Proof. intros. unfold slice. rewrite drop_app_le, take_app_le by (rewrite ?length_drop; lia). done. Qed.

Lemma slice_app_r (l1 l2 : list Z) o n :
  Z.of_nat (length l1) <= o -> slice (l1 ++ l2) o n = slice l2 (o - Z.of_nat (length l1)) n.
Proof. intros. unfold slice. rewrite drop_app_ge by lia. do 2 f_equal. lia. Qed.

Lemma cpu_field_head `{Arch} n v rest len :
  Z.of_nat n = len -> 0 <= v < 256 ^ len -> cpu_field (cpu_bytes n v ++ rest) 0 len = v.
Proof.
  intros Hn Hv. rewrite (cpu_field_bytes _ 0 len v n); [by apply Z.mod_small| |done].
  apply slice_head. by rewrite length_cpu_bytes.
Qed.

Lemma cpu_field_tail `{Arch} l rest off len :
  Z.of_nat (length l) <= off -> cpu_field (l ++ rest) off len = cpu_field rest (off - Z.of_nat (length l)) len.
Proof. intros. unfold cpu_field, be_field, le_field. by rewrite slice_app_r. Qed.

Lemma slice_take (b : list Z) k off len :
  0 <= off -> 0 <= len -> off + len <= k -> slice (take (Z.to_nat k) b) off len = slice b off len.
Proof.
  intros. unfold slice. rewrite skipn_firstn_comm, take_take. f_equal. lia.
Qed.

Lemma cpu_field_take `{Arch} (b : list Z) k off len :
  0 <= off -> 0 <= len -> off + len <= k -> cpu_field (take (Z.to_nat k) b) off len = cpu_field b off len.
Proof. intros. unfold cpu_field, be_field, le_field. by rewrite slice_take by done. Qed.

(** * Writing *)

Lemma blit_bytes b off src : Forall is_byte b -> Forall is_byte src -> Forall is_byte (blit b off src).
Proof.
  intros. unfold blit. repeat apply Forall_app_2; [by apply Forall_take|done|by apply Forall_drop].
Qed.

Lemma slice_blit_len b off src len :
  0 <= off -> off + len <= Z.of_nat (length b) -> Z.of_nat (length src) = len ->
  slice (blit b off src) off len = src.
Proof. intros Ho Hin <-. by apply slice_blit_eq. Qed.

(** The bytes [old] between [l] and [r] are replaced. *)
Lemma blit_middle (l old r src : list Z) off :
  Z.of_nat (length l) = off -> length src = length old -> blit (l ++ old ++ r) off src = l ++ src ++ r.
Proof.
  intros <- Hs. unfold blit. rewrite Nat2Z.id. rewrite take_app_length. f_equal. f_equal.
  rewrite drop_app_ge by lia. rewrite drop_app_ge by lia.
  by replace (length l + length src - length l - length old)%nat with 0%nat by lia.
Qed.

(** Cutting a buffer into parts of given lengths. *)
Lemma split_at (b : list Z) (n : nat) :
  (n <= length b)%nat -> exists l r, b = l ++ r /\ length l = n.
Proof. intros. exists (take n b), (drop n b). rewrite take_drop, length_take. split; [done|lia]. Qed.

(** * CRC-32

    With the reflected polynomial, bit by bit: the reference definition the chip simulator and
    the table-driven CRC of the flash tool are measured against. *)

Definition crc_bit (crc : Z) : Z :=
  if Z.odd crc then Z.lxor (Z.shiftr crc 1) 0xedb88320 else Z.shiftr crc 1.

Definition crc_byte (crc b : Z) : Z :=
  Nat.iter 8 crc_bit (Z.lxor crc (b mod 256)).

Lemma crc_bit_range crc : 0 <= crc < 2 ^ 32 -> 0 <= crc_bit crc < 2 ^ 32.
Proof.
  intros H. assert (0 <= Z.shiftr crc 1 < 2 ^ 32).
  { rewrite Z.shiftr_div_pow2 by lia. split; [apply Z.div_pos; lia|].
    apply Z.div_lt_upper_bound; lia. }
  unfold crc_bit. destruct (Z.odd crc); [by apply (lxor_width 32)|done].
Qed.

Lemma crc_byte_range crc b : 0 <= crc < 2 ^ 32 -> 0 <= crc_byte crc b < 2 ^ 32.
Proof.
  intros H. unfold crc_byte.
  assert (0 <= Z.lxor crc (b mod 256) < 2 ^ 32) as Hx.
  { apply (lxor_width 32); [lia|done|]. pose proof (Z.mod_pos_bound b 256). lia. }
  revert Hx. generalize (Z.lxor crc (b mod 256)). intros x Hx.
  cbn. by repeat apply crc_bit_range.
Qed.

Lemma crc_bytes_range l crc : 0 <= crc < 2 ^ 32 -> 0 <= foldl crc_byte crc l < 2 ^ 32.
Proof. revert crc. induction l as [|b l IH]; intros; [done|]. apply IH, crc_byte_range. done. Qed.

(** A round of the shift register is linear: bits above those it consumes pass
    through unchanged. *)
Lemma crc_bit_linear a c : crc_bit (Z.lxor a (Z.shiftl c 1)) = Z.lxor (crc_bit a) c.
Proof.
  unfold crc_bit.
  assert (Z.odd (Z.lxor a (Z.shiftl c 1)) = Z.odd a) as ->.
  { rewrite <- !Z.bit0_odd, Z.lxor_spec, Z.shiftl_spec_low by lia. apply xorb_false_r. }
  rewrite Z.shiftr_lxor, Z.shiftr_shiftl_l, Z.shiftl_0_r by lia.
  destruct (Z.odd a); [|done]. rewrite !Z.lxor_assoc. f_equal. apply Z.lxor_comm.
Qed.

Lemma crc_bits_linear k a c :
  Nat.iter k crc_bit (Z.lxor a (Z.shiftl c (Z.of_nat k))) = Z.lxor (Nat.iter k crc_bit a) c.
Proof.
  revert a c. induction k as [|k IH]; intros a c; [by rewrite Z.shiftl_0_r|].
  rewrite Nat2Z.inj_succ, <- Z.add_1_r, Z.add_comm, <- Z.shiftl_shiftl by lia.
  rewrite !Nat.iter_succ. by rewrite IH, crc_bit_linear.
Qed.
