(* ===== verification/CStrings.v ===== *)
(** Functions of the C library on strings, as far as the user-space programs use them. *)

From stdpp Require Import base list numbers strings.
From Stdlib Require Import ZArith Lia Ascii.
From S2P Require Import Prelude Platform.
Local Open Scope Z_scope.

(** The bytes of a string literal, without the terminating zero. *)
Definition ascii_bytes (s : string) : list Z :=
  map (fun c => Z.of_N (N_of_ascii c)) (String.list_ascii_of_string s).

(** [strstr(s, p) != NULL]. *)
Fixpoint strstr (s p : string) : bool :=
  String.prefix p s || match s with EmptyString => false | String _ s => strstr s p end.

Definition is_space (c : Ascii.ascii) : bool :=
  match c with
  | " "%char | "009"%char | "010"%char | "011"%char | "012"%char | "013"%char => true
  | _ => false
  end.

Fixpoint skip_spaces (s : string) : string :=
  match s with
  | String c s' => if is_space c then skip_spaces s' else s
  | EmptyString => s
  end.

Definition digit (c : Ascii.ascii) : option Z :=
  let n := Z.of_nat (Ascii.nat_of_ascii c) in
  if (48 <=? n) && (n <=? 57) then Some (n - 48) else None.

Fixpoint scan_digits (s : string) (acc : Z) : Z :=
  match s with
  | String c s => match digit c with Some d => scan_digits s (acc * 10 + d) | None => acc end
  | EmptyString => acc
  end.

(** [%d]. *)
Definition scan_int (s : string) : option Z :=
  let '(sign, s) :=
    match s with
    | String "-" s => (-1, s)
    | String "+" s => (1, s)
    | _ => (1, s)
    end in
  match s with
  | String c _ => match digit c with Some _ => Some (sign * scan_digits s 0) | None => None end
  | EmptyString => None
  end.

(** * Strings as lists of bytes, without the terminating zero *)

Definition strlen (s : list Z) : Z := Z.of_nat (length s).

(** The string at the start of memory, if there is a zero. *)
Fixpoint c_str (l : list Z) : option (list Z) :=
  match l with
  | [] => None
  | b :: l => if b =? 0 then Some [] else cons b <$> c_str l
  end.

(** [strchr] on memory: the bytes in front of the first [c], and whether it is in front
    of the terminating zero. *)
Fixpoint strchr (c : Z) (l : list Z) : option (list Z * bool) :=
  match l with
  | [] => None
  | b :: l =>
      if b =? c then Some ([], true)
      else if b =? 0 then Some ([], false)
      else '(s, found) ← strchr c l; Some (b :: s, found)
  end.

(** The digits of [%0<n>X]. *)
Definition hex_digit (d : Z) : Z := if d <? 10 then 48 + d else 55 + d.
Fixpoint hex_digits (n : nat) (v : Z) : list Z :=
  match n with
  | O => []
  | S n => hex_digits n (v / 16) ++ [hex_digit (v mod 16)]
  end.
Definition print_hex (n : nat) (v : Z) : list Z := [48; 120] ++ hex_digits n v.

(** [strtoul(s, NULL, 0)]: white space, a sign, a prefix, digits; too large values give
    [ULONG_MAX]. *)
Definition is_white (c : Z) : bool := (c =? 32) || ((9 <=? c) && (c <=? 13)).
Fixpoint skip_white (s : list Z) : list Z :=
  match s with
  | c :: s' => if is_white c then skip_white s' else s
  | [] => []
  end.
Definition digit_val (c : Z) : Z :=
  if (48 <=? c) && (c <=? 57) then c - 48
  else if (97 <=? c) && (c <=? 122) then c - 87
  else if (65 <=? c) && (c <=? 90) then c - 55
  else 36.
Fixpoint read_digits (base acc : Z) (s : list Z) : Z :=
  match s with
  | c :: s => if digit_val c <? base then read_digits base (acc * base + digit_val c) s else acc
  | [] => acc
  end.
Definition read_number (s : list Z) : Z :=
  match s with
  | 48 :: 120 :: s | 48 :: 88 :: s => read_digits 16 0 s
  | 48 :: s => read_digits 8 0 s
  | s => read_digits 10 0 s
  end.
Definition strtoul_with `{Arch} (read : list Z -> Z) (s : list Z) : Z :=
  let ulong_max := 2 ^ long_bits - 1 in
  let clamp v := Z.min v ulong_max in
  match skip_white s with
  | 45 :: s => if ulong_max <? read s then ulong_max else size_t (- read s)
  | 43 :: s => clamp (read s)
  | s => clamp (read s)
  end.
Definition strtoul0 `{Arch} : list Z -> Z := strtoul_with read_number.
Definition strtoul10 `{Arch} : list Z -> Z := strtoul_with (read_digits 10 0).

(** The bytes of a field up to a zero, at most all of them; [strncpy] into a field of [n]
    bytes pads them with zeros. *)
Fixpoint until_zero (l : list Z) : list Z :=
  match l with
  | [] => []
  | b :: l => if b =? 0 then [] else b :: until_zero l
  end.
Definition strncpy_bytes (n : nat) (src : list Z) : list Z :=
  let s := take n (until_zero src) in s ++ replicate (n - length s) 0.
