(* ===== verification/NmbmTypes.v ===== *)
(** NMBM data: the constants and structures of [nmbm-private.h], [nmbm.h] and
    [nmbm-os.h], their byte images, the lower device interface and the state
    the operations of the following files work on. *)

From stdpp Require Import base list numbers.
From Stdlib Require Import ZArith Lia.
From S2P Require Import Prelude.
Local Open Scope Z_scope.
Local Open Scope cprog_scope.

(** * Constants *)

Definition NMBM_MAGIC_SIGNATURE : Z := 0x304d4d4e.
Definition NMBM_MAGIC_INFO_TABLE : Z := 0x314d4d4e.

Definition NMBM_VERSION_MAKE (major minor : Z) : Z :=
  Z.lor (Z.land major 0xffff) (Z.shiftl (Z.land minor 0xffff) 16).
Definition NMBM_VER : Z := NMBM_VERSION_MAKE 1 0.

Definition NMBM_BITMAP_UNIT_SIZE : Z := 4.
Definition NMBM_BITMAP_BITS_PER_BLOCK : Z := 2.
Definition NMBM_BITMAP_BITS_PER_UNIT : Z := 8 * NMBM_BITMAP_UNIT_SIZE.
Definition NMBM_BITMAP_BLOCKS_PER_UNIT : Z :=
  NMBM_BITMAP_BITS_PER_UNIT / NMBM_BITMAP_BITS_PER_BLOCK.

Definition NMBM_SPARE_BLOCK_MULTI : Z := 1.
Definition NMBM_SPARE_BLOCK_DIV : Z := 2.
Definition NMBM_SPARE_BLOCK_MIN : Z := 2.
Definition NMBM_MGMT_DIV : Z := 16.
Definition NMBM_MGMT_BLOCKS_MIN : Z := 32.
Definition NMBM_TRY_COUNT : Z := 3.

Definition BLOCK_ST_BAD : Z := 0.
Definition BLOCK_ST_NEED_REMAP : Z := 2.
Definition BLOCK_ST_GOOD : Z := 3.
Definition BLOCK_ST_MASK : Z := 3.

Definition NMBM_F_CREATE : Z := 0x01.
Definition NMBM_F_EMPTY_PAGE_ECC_OK : Z := 0x02.
Definition NMBM_F_READ_ONLY : Z := 0x04.

(** Linux error numbers used by the code. *)
Definition EIO : Z := 5.
Definition ENODEV : Z := 19.
Definition EINVAL : Z := 22.
Definition EROFS : Z := 30.
Definition EBADMSG : Z := 74.

Definition NMBM_ALIGN (v a : Z) : Z :=
  u32 (Z.land (u32 (v + a - 1)) (u32 (Z.lnot (u32 (a - 1))))).

Inductive nmbm_log_category :=
| NMBM_LOG_DEBUG | NMBM_LOG_INFO | NMBM_LOG_WARN | NMBM_LOG_ERR
| NMBM_LOG_EMERG | NMBM_LOG_MAX.

Definition NMBM_DEFAULT_LOG_LEVEL : nmbm_log_category := NMBM_LOG_INFO.

Inductive nmbm_oob_mode :=
| NMBM_MODE_PLACE_OOB | NMBM_MODE_AUTO_OOB | NMBM_MODE_RAW.

(** * The structures on the chip *)

(** [struct nmbm_header], 16 bytes. *)
Record nmbm_header := mk_nmbm_header {
  magic : Z;
  version : Z;
  hdr_size : Z;
  checksum : Z
}.

Definition sizeof_nmbm_header : Z := 16.

Definition header_bytes (h : nmbm_header) : list Z :=
  le_bytes 4 (magic h) ++ le_bytes 4 (version h) ++
  le_bytes 4 (hdr_size h) ++ le_bytes 4 (checksum h).

Definition parse_header (b : list Z) : nmbm_header :=
  mk_nmbm_header (le_field b 0 4) (le_field b 4 4) (le_field b 8 4)
    (le_field b 12 4).

(** [struct nmbm_signature]: 44 bytes of fields, 48 with the tail padding that
    the alignment of [nand_size] asks for. *)
Record nmbm_signature := mk_nmbm_signature {
  sig_header : nmbm_header;
  nand_size : Z;
  block_size : Z;
  page_size : Z;
  spare_size : Z;
  mgmt_start_pb : Z;
  max_try_count : Z
}.

Definition sizeof_nmbm_signature : Z := 48.

Definition signature_bytes (g : nmbm_signature) : list Z :=
  header_bytes (sig_header g) ++ le_bytes 8 (nand_size g) ++
  le_bytes 4 (block_size g) ++ le_bytes 4 (page_size g) ++
  le_bytes 4 (spare_size g) ++ le_bytes 4 (mgmt_start_pb g) ++
  le_bytes 1 (max_try_count g) ++ replicate 7 0.

Definition parse_signature (b : list Z) : nmbm_signature :=
  mk_nmbm_signature (parse_header b) (le_field b 16 8) (le_field b 24 4)
    (le_field b 28 4) (le_field b 32 4) (le_field b 36 4) (le_field b 40 1).

(** [struct nmbm_info_table_header], 32 bytes. *)
Record nmbm_info_table_header := mk_nmbm_info_table_header {
  ift_header : nmbm_header;
  write_count : Z;
  state_table_off : Z;
  mapping_table_off : Z;
  ift_padding : Z
}.

Definition sizeof_nmbm_info_table_header : Z := 32.

Definition info_table_header_bytes (t : nmbm_info_table_header) : list Z :=
  header_bytes (ift_header t) ++ le_bytes 4 (write_count t) ++
  le_bytes 4 (state_table_off t) ++ le_bytes 4 (mapping_table_off t) ++
  le_bytes 4 (ift_padding t).

Definition parse_info_table_header (b : list Z) : nmbm_info_table_header :=
  mk_nmbm_info_table_header (parse_header b) (le_field b 16 4)
    (le_field b 20 4) (le_field b 24 4) (le_field b 28 4).

(** The images of the [uint32_t] and [int32_t] arrays that are copied into and
    out of the info table. *)
Definition words_bytes (ws : list Z) : list Z := ws ≫= le_bytes 4.

Fixpoint bytes_words (n : nat) (b : list Z) : list Z :=
  match n with
  | O => []
  | S n => le_val (take 4 b) :: bytes_words n (drop 4 b)
  end.

#[global] Arguments header_bytes : simpl never.
#[global] Arguments info_table_header_bytes : simpl never.
#[global] Arguments signature_bytes : simpl never.
#[global] Arguments words_bytes : simpl never.

(** * The lower device

    [chip] is the state of the NAND chip and its driver.  A callback maps the
    arguments and the chip state to the return code, the new contents of the
    buffers passed to it ([None] for a null pointer) and the new chip state.
    A callback that is a null pointer is [None]. *)
Section lower.
Context {chip : Type}.

Definition read_page_fn : Type :=
  Z -> option (list Z) -> option (list Z) -> nmbm_oob_mode -> chip ->
  Z * option (list Z) * option (list Z) * chip.
Definition write_page_fn : Type :=
  Z -> option (list Z) -> option (list Z) -> nmbm_oob_mode -> chip -> Z * chip.
Definition block_fn : Type := Z -> chip -> Z * chip.

Record nmbm_lower_device := mk_nmbm_lower_device {
  max_ratio : Z;
  max_reserved_blocks : Z;
  flags : Z;
  nld_size : Z;
  erasesize : Z;
  writesize : Z;
  oobsize : Z;
  oobavail : Z;
  reset_chip : option (chip -> Z * chip);
  read_page : option read_page_fn;
  write_page : option write_page_fn;
  erase_block : option block_fn;
  is_bad_block : option block_fn;
  mark_bad_block : option block_fn
}.

Definition set_max_ratio v (d : nmbm_lower_device) : nmbm_lower_device :=
  mk_nmbm_lower_device v (max_reserved_blocks d) (flags d) (nld_size d)
    (erasesize d) (writesize d) (oobsize d) (oobavail d) (reset_chip d)
    (read_page d) (write_page d) (erase_block d) (is_bad_block d)
    (mark_bad_block d).

(** * The instance

    The members of [struct nmbm_instance] that [nmbm_init_structure] computes
    and nothing writes afterwards are grouped in [nmbm_geometry]. *)
Record nmbm_geometry := mk_nmbm_geometry {
  lower : nmbm_lower_device;
  rawpage_size : Z;
  rawblock_size : Z;
  rawchip_size : Z;
  writesize_mask : Z;
  erasesize_mask : Z;
  writesize_shift : Z;
  erasesize_shift : Z;
  info_table_size : Z;
  info_table_spare_blocks : Z;
  state_table_size : Z;
  mapping_table_size : Z;
  block_count : Z
}.

(** [block_state] holds the [nmbm_bitmap_t] words, [block_mapping] the
    [int32_t] entries; [info_table_cache] and [page_cache] are byte buffers. *)
Record nmbm_instance := mk_nmbm_instance {
  geo : nmbm_geometry;
  signature : nmbm_signature;
  info_table_cache : list Z;
  info_table : nmbm_info_table_header;
  block_state : list Z;
  block_state_changed : Z;
  block_mapping : list Z;
  block_mapping_changed : Z;
  page_cache : list Z;
  protected : Z;
  data_block_count : Z;
  mgmt_start_ba : Z;
  main_table_ba : Z;
  backup_table_ba : Z;
  mapping_blocks_ba : Z;
  mapping_blocks_top_ba : Z;
  signature_ba : Z;
  log_display_level : nmbm_log_category
}.

Definition set_geo v (n : nmbm_instance) : nmbm_instance :=
  mk_nmbm_instance v (signature n) (info_table_cache n) (info_table n)
    (block_state n) (block_state_changed n) (block_mapping n)
    (block_mapping_changed n) (page_cache n) (protected n) (data_block_count
    n) (mgmt_start_ba n) (main_table_ba n) (backup_table_ba n)
    (mapping_blocks_ba n) (mapping_blocks_top_ba n) (signature_ba n)
    (log_display_level n).
Definition set_signature v (n : nmbm_instance) : nmbm_instance :=
  mk_nmbm_instance (geo n) v (info_table_cache n) (info_table n)
    (block_state n) (block_state_changed n) (block_mapping n)
    (block_mapping_changed n) (page_cache n) (protected n) (data_block_count
    n) (mgmt_start_ba n) (main_table_ba n) (backup_table_ba n)
    (mapping_blocks_ba n) (mapping_blocks_top_ba n) (signature_ba n)
    (log_display_level n).
Definition set_info_table_cache v (n : nmbm_instance) : nmbm_instance :=
  mk_nmbm_instance (geo n) (signature n) v (info_table n) (block_state n)
    (block_state_changed n) (block_mapping n) (block_mapping_changed n)
    (page_cache n) (protected n) (data_block_count n) (mgmt_start_ba n)
    (main_table_ba n) (backup_table_ba n) (mapping_blocks_ba n)
    (mapping_blocks_top_ba n) (signature_ba n) (log_display_level n).
Definition set_info_table v (n : nmbm_instance) : nmbm_instance :=
  mk_nmbm_instance (geo n) (signature n) (info_table_cache n) v (block_state
    n) (block_state_changed n) (block_mapping n) (block_mapping_changed n)
    (page_cache n) (protected n) (data_block_count n) (mgmt_start_ba n)
    (main_table_ba n) (backup_table_ba n) (mapping_blocks_ba n)
    (mapping_blocks_top_ba n) (signature_ba n) (log_display_level n).
Definition set_block_state v (n : nmbm_instance) : nmbm_instance :=
  mk_nmbm_instance (geo n) (signature n) (info_table_cache n) (info_table n)
    v (block_state_changed n) (block_mapping n) (block_mapping_changed n)
    (page_cache n) (protected n) (data_block_count n) (mgmt_start_ba n)
    (main_table_ba n) (backup_table_ba n) (mapping_blocks_ba n)
    (mapping_blocks_top_ba n) (signature_ba n) (log_display_level n).
Definition set_block_state_changed v (n : nmbm_instance) : nmbm_instance :=
  mk_nmbm_instance (geo n) (signature n) (info_table_cache n) (info_table n)
    (block_state n) v (block_mapping n) (block_mapping_changed n)
    (page_cache n) (protected n) (data_block_count n) (mgmt_start_ba n)
    (main_table_ba n) (backup_table_ba n) (mapping_blocks_ba n)
    (mapping_blocks_top_ba n) (signature_ba n) (log_display_level n).
Definition set_block_mapping v (n : nmbm_instance) : nmbm_instance :=
  mk_nmbm_instance (geo n) (signature n) (info_table_cache n) (info_table n)
    (block_state n) (block_state_changed n) v (block_mapping_changed n)
    (page_cache n) (protected n) (data_block_count n) (mgmt_start_ba n)
    (main_table_ba n) (backup_table_ba n) (mapping_blocks_ba n)
    (mapping_blocks_top_ba n) (signature_ba n) (log_display_level n).
Definition set_block_mapping_changed v (n : nmbm_instance) : nmbm_instance :=
  mk_nmbm_instance (geo n) (signature n) (info_table_cache n) (info_table n)
    (block_state n) (block_state_changed n) (block_mapping n) v (page_cache
    n) (protected n) (data_block_count n) (mgmt_start_ba n) (main_table_ba
    n) (backup_table_ba n) (mapping_blocks_ba n) (mapping_blocks_top_ba n)
    (signature_ba n) (log_display_level n).
Definition set_page_cache v (n : nmbm_instance) : nmbm_instance :=
  mk_nmbm_instance (geo n) (signature n) (info_table_cache n) (info_table n)
    (block_state n) (block_state_changed n) (block_mapping n)
    (block_mapping_changed n) v (protected n) (data_block_count n)
    (mgmt_start_ba n) (main_table_ba n) (backup_table_ba n)
    (mapping_blocks_ba n) (mapping_blocks_top_ba n) (signature_ba n)
    (log_display_level n).
Definition set_protected v (n : nmbm_instance) : nmbm_instance :=
  mk_nmbm_instance (geo n) (signature n) (info_table_cache n) (info_table n)
    (block_state n) (block_state_changed n) (block_mapping n)
    (block_mapping_changed n) (page_cache n) v (data_block_count n)
    (mgmt_start_ba n) (main_table_ba n) (backup_table_ba n)
    (mapping_blocks_ba n) (mapping_blocks_top_ba n) (signature_ba n)
    (log_display_level n).
Definition set_data_block_count v (n : nmbm_instance) : nmbm_instance :=
  mk_nmbm_instance (geo n) (signature n) (info_table_cache n) (info_table n)
    (block_state n) (block_state_changed n) (block_mapping n)
    (block_mapping_changed n) (page_cache n) (protected n) v (mgmt_start_ba
    n) (main_table_ba n) (backup_table_ba n) (mapping_blocks_ba n)
    (mapping_blocks_top_ba n) (signature_ba n) (log_display_level n).
Definition set_mgmt_start_ba v (n : nmbm_instance) : nmbm_instance :=
  mk_nmbm_instance (geo n) (signature n) (info_table_cache n) (info_table n)
    (block_state n) (block_state_changed n) (block_mapping n)
    (block_mapping_changed n) (page_cache n) (protected n) (data_block_count
    n) v (main_table_ba n) (backup_table_ba n) (mapping_blocks_ba n)
    (mapping_blocks_top_ba n) (signature_ba n) (log_display_level n).
Definition set_main_table_ba v (n : nmbm_instance) : nmbm_instance :=
  mk_nmbm_instance (geo n) (signature n) (info_table_cache n) (info_table n)
    (block_state n) (block_state_changed n) (block_mapping n)
    (block_mapping_changed n) (page_cache n) (protected n) (data_block_count
    n) (mgmt_start_ba n) v (backup_table_ba n) (mapping_blocks_ba n)
    (mapping_blocks_top_ba n) (signature_ba n) (log_display_level n).
Definition set_backup_table_ba v (n : nmbm_instance) : nmbm_instance :=
  mk_nmbm_instance (geo n) (signature n) (info_table_cache n) (info_table n)
    (block_state n) (block_state_changed n) (block_mapping n)
    (block_mapping_changed n) (page_cache n) (protected n) (data_block_count
    n) (mgmt_start_ba n) (main_table_ba n) v (mapping_blocks_ba n)
    (mapping_blocks_top_ba n) (signature_ba n) (log_display_level n).
Definition set_mapping_blocks_ba v (n : nmbm_instance) : nmbm_instance :=
  mk_nmbm_instance (geo n) (signature n) (info_table_cache n) (info_table n)
    (block_state n) (block_state_changed n) (block_mapping n)
    (block_mapping_changed n) (page_cache n) (protected n) (data_block_count
    n) (mgmt_start_ba n) (main_table_ba n) (backup_table_ba n) v
    (mapping_blocks_top_ba n) (signature_ba n) (log_display_level n).
Definition set_mapping_blocks_top_ba v (n : nmbm_instance) : nmbm_instance :=
  mk_nmbm_instance (geo n) (signature n) (info_table_cache n) (info_table n)
    (block_state n) (block_state_changed n) (block_mapping n)
    (block_mapping_changed n) (page_cache n) (protected n) (data_block_count
    n) (mgmt_start_ba n) (main_table_ba n) (backup_table_ba n)
    (mapping_blocks_ba n) v (signature_ba n) (log_display_level n).
Definition set_signature_ba v (n : nmbm_instance) : nmbm_instance :=
  mk_nmbm_instance (geo n) (signature n) (info_table_cache n) (info_table n)
    (block_state n) (block_state_changed n) (block_mapping n)
    (block_mapping_changed n) (page_cache n) (protected n) (data_block_count
    n) (mgmt_start_ba n) (main_table_ba n) (backup_table_ba n)
    (mapping_blocks_ba n) (mapping_blocks_top_ba n) v (log_display_level n).
Definition set_log_display_level v (n : nmbm_instance) : nmbm_instance :=
  mk_nmbm_instance (geo n) (signature n) (info_table_cache n) (info_table n)
    (block_state n) (block_state_changed n) (block_mapping n)
    (block_mapping_changed n) (page_cache n) (protected n) (data_block_count
    n) (mgmt_start_ba n) (main_table_ba n) (backup_table_ba n)
    (mapping_blocks_ba n) (mapping_blocks_top_ba n) (signature_ba n) v.

(** The state an operation runs on: the instance and the chip behind it. *)
Record nst := mk_nst { ni : nmbm_instance; dev : chip }.

Definition set_ni f (s : nst) : nst := mk_nst (f (ni s)) (dev s).
Definition set_dev c (s : nst) : nst := mk_nst (ni s) c.

(** Reading and assigning members of the instance. *)
Definition ask {A} (f : nmbm_instance -> A) : M nst A := gets (fun s => f (ni s)).
Definition askg {A} (f : nmbm_geometry -> A) : M nst A :=
  gets (fun s => f (geo (ni s))).
Definition upd (f : nmbm_instance -> nmbm_instance) : M nst unit := modify (set_ni f).

(** [ni->lower.flags & f] *)
Definition flag_set (g : nmbm_geometry) (f : Z) : bool :=
  negb (Z.land (flags (lower g)) f =? 0).

End lower.

Arguments nmbm_lower_device : clear implicits.
Arguments nmbm_geometry : clear implicits.
Arguments nmbm_instance : clear implicits.
Arguments nst : clear implicits.
Arguments read_page_fn : clear implicits.
Arguments write_page_fn : clear implicits.
Arguments block_fn : clear implicits.
