(* ===== verification/NmbmChip.v ===== *)
(** NMBM address conversion and the "high level NAND chip APIs" of
    [nmbm-core.c]: page read, page write and block erase with retries, the bad
    block check and the bad block mark. *)

From stdpp Require Import base list numbers.
From Stdlib Require Import ZArith Lia.
From S2P Require Import Prelude NmbmTypes.
Local Open Scope Z_scope.
Local Open Scope cprog_scope.

Section chip_api.
Context {chip : Type}.
Abbreviation prog := (M (nst chip)).

(** * Address conversion *)

Definition addr2ba (g : nmbm_geometry chip) (addr : Z) : Z :=
  u32 (Z.shiftr addr (erasesize_shift g)).

Definition ba2addr (g : nmbm_geometry chip) (ba : Z) : Z :=
  u64 (Z.shiftl ba (erasesize_shift g)).

Definition size2blk (g : nmbm_geometry chip) (size : Z) : Z :=
  u32 (Z.shiftr (u64 (size + erasesize (lower g) - 1)) (erasesize_shift g)).

(** * Calls through the lower device *)

Definition call_read_page (addr : Z) (data oob : option (list Z))
    (mode : nmbm_oob_mode) : prog (Z * option (list Z) * option (list Z)) :=
  let* d := askg lower in
  match read_page d with
  | None => fault
  | Some f => fun s =>
      let '(r, data', oob', c) := f addr data oob mode (dev s) in
      Ret (r, data', oob') (set_dev c s)
  end.

Definition call_write_page (addr : Z) (data oob : option (list Z))
    (mode : nmbm_oob_mode) : prog Z :=
  let* d := askg lower in
  match write_page d with
  | None => fault
  | Some f => fun s =>
      let '(r, c) := f addr data oob mode (dev s) in Ret r (set_dev c s)
  end.

(** [erase_block], [is_bad_block] and [mark_bad_block] *)
Definition call_block_fn (f : block_fn chip) (addr : Z) : prog Z :=
  fun s => let '(r, c) := f addr (dev s) in Ret r (set_dev c s).

Definition nmbm_reset_chip : prog unit :=
  let* d := askg lower in
  match reset_chip d with
  | None => ret tt
  | Some f => fun s => let '(_, c) := f (dev s) in Ret tt (set_dev c s)
  end.

(** * Page and block access with retries *)

Definition nmbm_read_phys_page (addr : Z) (data oob : option (list Z))
    (mode : nmbm_oob_mode) : prog (Z * option (list Z) * option (list Z)) :=
  loop (S (Z.to_nat NMBM_TRY_COUNT))
    (fun '(tries, r, data, oob) =>
       if tries <? NMBM_TRY_COUNT then
         let* (r, data, oob) := call_read_page addr data oob mode in
         if r >=? 0 then ret (inr (r, data, oob))
         else
           do* nmbm_reset_chip in
           ret (inl (tries + 1, r, data, oob))
       else ret (inr (r, data, oob)))
    (0, 0, data, oob).

Definition nmbm_write_phys_page (addr : Z) (data oob : option (list Z))
    (mode : nmbm_oob_mode) : prog bool :=
  let* g := ask geo in
  if flag_set g NMBM_F_READ_ONLY then ret false
  else
    loop (S (Z.to_nat NMBM_TRY_COUNT))
      (fun tries =>
         if tries <? NMBM_TRY_COUNT then
           let* r := call_write_page addr data oob mode in
           if r =? 0 then ret (inr true)
           else
             do* nmbm_reset_chip in
             ret (inl (tries + 1))
         else ret (inr false))
      0.

Definition nmbm_erase_phys_block (addr : Z) : prog bool :=
  let* g := ask geo in
  if flag_set g NMBM_F_READ_ONLY then ret false
  else
    loop (S (Z.to_nat NMBM_TRY_COUNT))
      (fun tries =>
         if tries <? NMBM_TRY_COUNT then
           let* r := match erase_block (lower g) with
                     | None => fault
                     | Some f => call_block_fn f addr
                     end in
           if r =? 0 then ret (inr true)
           else
             do* nmbm_reset_chip in
             ret (inl (tries + 1))
         else ret (inr false))
      0.

(** * The page cache

    [page_cache] holds [writesize] data bytes followed by [oobsize] spare
    bytes. *)

Definition cache_put (off : Z) (bytes : list Z) : prog unit :=
  let* pc := ask page_cache in
  if in_bounds pc off (Z.of_nat (length bytes))
  then upd (set_page_cache (blit pc off bytes))
  else fault.

Definition cache_get (off len : Z) : prog (list Z) :=
  let* pc := ask page_cache in
  if in_bounds pc off len then ret (slice pc off len) else fault.

(** Read the data of a page into the start of [page_cache]. *)
Definition read_to_cache (addr : Z) (mode : nmbm_oob_mode) : prog Z :=
  let* g := ask geo in
  let* buf := cache_get 0 (writesize (lower g)) in
  let* (r, data, _) := nmbm_read_phys_page addr (Some buf) None mode in
  do* cache_put 0 (default buf data) in
  ret r.

(** * Bad block check and mark *)

Definition nmbm_check_bad_phys_block (ba : Z) : prog bool :=
  let* g := ask geo in
  let addr := ba2addr g ba in
  let ws := writesize (lower g) in
  match is_bad_block (lower g) with
  | Some f =>
      let* r := call_block_fn f addr in
      ret (negb (r =? 0))
  | None =>
      let* buf := cache_get ws (oobsize (lower g)) in
      let* (r, _, oob) := nmbm_read_phys_page addr None (Some buf) NMBM_MODE_RAW in
      do* cache_put ws (default buf oob) in
      if (r <? 0) && negb (r =? - EBADMSG) then ret true
      else
        let* pc := ask page_cache in
        let* b := arr_get pc ws in
        ret (negb (b =? 0xff))
  end.

Definition nmbm_set_log_level (level : nmbm_log_category) : prog nmbm_log_category :=
  let* old := ask log_display_level in
  do* upd (set_log_display_level level) in
  ret old.

(** The number of iterations of
    [for (off = 0; off < erasesize; off += writesize)]. *)
Definition page_fuel (g : nmbm_geometry chip) : nat :=
  S (Z.to_nat ((erasesize (lower g) + writesize (lower g) - 1) / writesize (lower g))).

Definition nmbm_mark_phys_bad_block (ba : Z) : prog Z :=
  let* g := ask geo in
  let addr := ba2addr g ba in
  let ws := writesize (lower g) in
  if flag_set g NMBM_F_READ_ONLY then ret 0
  else
    match mark_bad_block (lower g) with
    | Some f => call_block_fn f addr
    | None =>
        (* Whole page set to 0x00 *)
        do* cache_put 0 (replicate (Z.to_nat (rawpage_size g)) 0) in
        let* level := nmbm_set_log_level NMBM_LOG_MAX in
        do* loop (page_fuel g)
          (fun off =>
             if off <? erasesize (lower g) then
               let* data := cache_get 0 ws in
               let* oob := cache_get ws (oobsize (lower g)) in
               do* nmbm_write_phys_page (u64 (addr + off)) (Some data) (Some oob)
                     NMBM_MODE_RAW in
               ret (inl (u32 (off + ws)))
             else ret (inr tt))
          0 in
        do* nmbm_set_log_level level in
        ret 0
    end.

End chip_api.
