(* ===== verification/NmbmBlocks.v ===== *)
(** NMBM block level: structure checksums, the block state bitmap, walking over
    good blocks, the initial mapping table, and the erasing and verified writing
    of management blocks ([nmbm-core.c], from [nmbm_check_header] to
    [nmbm_write_mgmt_range]). *)

From stdpp Require Import base list numbers.
From Stdlib Require Import ZArith Lia.
From S2P Require Import Prelude NmbmTypes NmbmChip.
Local Open Scope Z_scope.
Local Open Scope cprog_scope.

(** * Checksums

    [crc32_le] is the kernel's function; the library relies on the laws of
    [Crc32Laws] only. *)
Class Crc32 := crc32_le : Z -> list Z -> Z.

Class Crc32Laws (C : Crc32) := {
  crc32_le_range crc l : 0 <= crc32_le crc l < 2 ^ 32;
  crc32_le_app crc l1 l2 :
    crc32_le (crc32_le crc l1) l2 = crc32_le crc (l1 ++ l2)
}.

Definition UINT_MAX : Z := 2 ^ 32 - 1.

Section checksum.
Context {C : Crc32}.

(** The loop of [nmbm_crc32]: [crc32_le] on chunks of at most [UINT_MAX]
    bytes. *)
Fixpoint nmbm_crc32_chunks (fuel : nat) (crcval : Z) (p : list Z) : Z :=
  match fuel, p with
  | O, _ | _, [] => crcval
  | S n, _ =>
      if UINT_MAX <? Z.of_nat (length p)
      then nmbm_crc32_chunks n (crc32_le crcval (take (Z.to_nat UINT_MAX) p))
             (drop (Z.to_nat UINT_MAX) p)
      else nmbm_crc32_chunks n (crc32_le crcval p) []
  end.

Definition nmbm_crc32 (crcval : Z) (buf : list Z) : Z :=
  nmbm_crc32_chunks (length buf) crcval buf.

(** The header image with a zero checksum field. *)
Definition clear_checksum (data : list Z) : list Z := blit data 12 (le_bytes 4 0).

(** [data] is the buffer of [size] bytes. *)
Definition nmbm_check_header (data : list Z) (size : Z) : bool :=
  let header := parse_header data in
  if hdr_size header >? size then false
  else
    let nhdr := clear_checksum (slice data 0 sizeof_nmbm_header) in
    let new_checksum := nmbm_crc32 0 nhdr in
    let new_checksum :=
      if hdr_size header >? sizeof_nmbm_header
      then nmbm_crc32 new_checksum
             (slice data sizeof_nmbm_header (hdr_size header - sizeof_nmbm_header))
      else new_checksum in
    checksum header =? new_checksum.

(** The structure image after [nmbm_update_checksum]. *)
Definition nmbm_update_checksum (data : list Z) : list Z :=
  let data := clear_checksum data in
  let size := hdr_size (parse_header data) in
  blit data 12 (le_bytes 4 (nmbm_crc32 0 (slice data 0 size))).

End checksum.

Definition nmbm_get_spare_block_count (block_count : Z) : Z :=
  let val := u32 (block_count + NMBM_SPARE_BLOCK_DIV / 2) / NMBM_SPARE_BLOCK_DIV in
  let val := u32 (val * NMBM_SPARE_BLOCK_MULTI) in
  if val <? NMBM_SPARE_BLOCK_MIN then NMBM_SPARE_BLOCK_MIN else val.

Section blocks.
Context {chip : Type}.
Abbreviation prog := (M (nst chip)).

(** * Block state table *)

Definition nmbm_get_block_state_raw (block_state : list Z) (ba : Z) : prog Z :=
  let unit := ba / NMBM_BITMAP_BLOCKS_PER_UNIT in
  let shift := u32 ((ba mod NMBM_BITMAP_BLOCKS_PER_UNIT) * NMBM_BITMAP_BITS_PER_BLOCK) in
  let* uv := arr_get block_state unit in
  ret (Z.land (Z.shiftr uv shift) BLOCK_ST_MASK).

Definition nmbm_get_block_state (ba : Z) : prog Z :=
  let* bs := ask block_state in
  nmbm_get_block_state_raw bs ba.

Definition nmbm_set_block_state (ba state : Z) : prog bool :=
  let unit := ba / NMBM_BITMAP_BLOCKS_PER_UNIT in
  let shift := u32 ((ba mod NMBM_BITMAP_BLOCKS_PER_UNIT) * NMBM_BITMAP_BITS_PER_BLOCK) in
  let* bs := ask block_state in
  let* w := arr_get bs unit in
  let orig := Z.land (Z.shiftr w shift) BLOCK_ST_MASK in
  let state := Z.land state BLOCK_ST_MASK in
  let uv := Z.land w (u32 (Z.lnot (u32 (Z.shiftl BLOCK_ST_MASK shift)))) in
  let uv := Z.lor uv (u32 (Z.shiftl state shift)) in
  do* upd (set_block_state (<[Z.to_nat unit := uv]> bs)) in
  if negb (orig =? state) then
    let* n := ask block_state_changed in
    do* upd (set_block_state_changed (u32 (n + 1))) in
    ret true
  else ret false.

(** * Walking over good blocks

    [None] is the return value [false], [Some nba] is [true] with [*nba]
    set. *)

Definition nmbm_block_walk_asc (ba count limit : Z) : prog (option Z) :=
  let* bc := askg block_count in
  let limit := if limit >=? bc then u32 (bc - 1) else limit in
  loop (S (Z.to_nat (limit - ba)))
    (fun '(ba, nblock) =>
       if ba <? limit then
         let* st := nmbm_get_block_state ba in
         let nblock := if st =? BLOCK_ST_GOOD then i32 (nblock - 1) else nblock in
         if nblock <? 0 then ret (inr (Some ba))
         else ret (inl (u32 (ba + 1), nblock))
       else ret (inr None))
    (ba, i32 count).

Definition nmbm_block_walk_desc (ba count limit : Z) : prog (option Z) :=
  let* bc := askg block_count in
  let limit := if limit >=? bc then u32 (bc - 1) else limit in
  loop (S (Z.to_nat (ba - limit)))
    (fun '(ba, nblock) =>
       if ba >? limit then
         let* st := nmbm_get_block_state ba in
         let nblock := if st =? BLOCK_ST_GOOD then i32 (nblock - 1) else nblock in
         if nblock <? 0 then ret (inr (Some ba))
         else ret (inl (u32 (ba - 1), nblock))
       else ret (inr None))
    (ba, i32 count).

(** [count] and [limit] are [int32_t] here and [uint32_t] in the callees. *)
Definition nmbm_block_walk (ascending : bool) (ba count limit : Z) : prog (option Z) :=
  if ascending then nmbm_block_walk_asc ba (u32 (i32 count)) (u32 (i32 limit))
  else nmbm_block_walk_desc ba (u32 (i32 count)) (u32 (i32 limit)).

Definition nmbm_scan_badblocks : prog unit :=
  let* bc := askg block_count in
  loop (S (Z.to_nat bc))
    (fun ba =>
       if ba <? bc then
         let* bad := nmbm_check_bad_phys_block ba in
         do* (if bad then nmbm_set_block_state ba BLOCK_ST_BAD else ret false) in
         ret (inl (u32 (ba + 1)))
       else ret (inr tt))
    0.

(** [ni->block_mapping[i] = v] *)
Definition set_mapping (i v : Z) : prog unit :=
  let* m := ask block_mapping in
  if (0 <=? i) && (i <? Z.of_nat (length m))
  then upd (set_block_mapping (<[Z.to_nat i := v]> m))
  else fault.

Definition nmbm_build_mapping_table : prog unit :=
  let* bc := askg block_count in
  let* mgmt := ask mgmt_start_ba in
  let* lb := loop (S (Z.to_nat mgmt))
    (fun '(pb, lb) =>
       if pb <? mgmt then
         let* st := nmbm_get_block_state pb in
         if st =? BLOCK_ST_BAD then ret (inl (u32 (pb + 1), lb))
         else
           (* Always map to the next good block *)
           do* set_mapping lb (i32 pb) in
           ret (inl (u32 (pb + 1), u32 (lb + 1)))
       else ret (inr lb))
    (0, 0) in
  do* upd (set_data_block_count lb) in
  (* Unusable/Management blocks *)
  loop (S (Z.to_nat (bc - lb)))
    (fun pb =>
       if pb <? bc then
         do* set_mapping pb (-1) in
         ret (inl (u32 (pb + 1)))
       else ret (inr tt))
    lb.

(** * Erasing *)

Definition nmbm_erase_block_and_check (ba : Z) : prog bool :=
  let* g := ask geo in
  let* success := nmbm_erase_phys_block (ba2addr g ba) in
  if negb success then ret false
  else if negb (flag_set g NMBM_F_EMPTY_PAGE_ECC_OK) then ret true
  else
    (* Check every page to make sure there aren't too many bitflips *)
    let addr := ba2addr g ba in
    loop (page_fuel g)
      (fun off =>
         if off <? erasesize (lower g) then
           let* r := read_to_cache (u64 (addr + off)) NMBM_MODE_PLACE_OOB in
           if r =? - EBADMSG then ret (inr false)
           else ret (inl (u64 (off + writesize (lower g))))
         else ret (inr true))
      0.

(** The blocks of code labelled [skip_bad_block]: mark the block bad on the
    chip and in the state table. *)
Definition skip_bad_block (ba : Z) : prog unit :=
  do* nmbm_mark_phys_bad_block ba in
  do* nmbm_set_block_state ba BLOCK_ST_BAD in
  ret tt.

Definition nmbm_erase_range (ba limit : Z) : prog unit :=
  loop (S (Z.to_nat (limit - ba)))
    (fun ba =>
       if ba <? limit then
         let next_block := inl (u32 (ba + 1)) in
         let* st := nmbm_get_block_state ba in
         if negb (st =? BLOCK_ST_GOOD) then ret next_block
         else
           (* Insurance to detect unexpected bad block marked by user *)
           let* bad := nmbm_check_bad_phys_block ba in
           if bad then
             do* nmbm_set_block_state ba BLOCK_ST_BAD in
             ret next_block
           else
             let* success := nmbm_erase_block_and_check ba in
             if success then ret next_block
             else
               do* skip_bad_block ba in
               ret next_block
       else ret (inr tt))
    ba.

(** * Verified writing *)

(** [memcmp(ni->page_cache + off, data, length data) == 0] *)
Definition cache_equal (off : Z) (data : list Z) : prog bool :=
  let* got := cache_get off (Z.of_nat (length data)) in
  ret (bool_decide (got = data)).

(** [size] is the length of [data]. *)
Definition nmbm_write_repeated_data (ba : Z) (data : list Z) : prog bool :=
  let* g := ask geo in
  let size := Z.of_nat (length data) in
  let ws := writesize (lower g) in
  if size >? ws then ret false
  else
    let addr := ba2addr g ba in
    loop (page_fuel g)
      (fun off =>
         if off <? erasesize (lower g) then
           (* Prepare page data. fill 0xff to unused region *)
           do* cache_put 0 data in
           do* cache_put size (replicate (Z.to_nat (rawpage_size g - size)) 0xff) in
           let* page := cache_get 0 ws in
           let* success := nmbm_write_phys_page (u64 (addr + off)) (Some page) None
                             NMBM_MODE_PLACE_OOB in
           if negb success then ret (inr false)
           else
             (* Verify the data just written. ECC error indicates failure *)
             let* r := read_to_cache (u64 (addr + off)) NMBM_MODE_PLACE_OOB in
             if r <? 0 then ret (inr false)
             else
               let* same := cache_equal 0 data in
               if negb same then ret (inr false)
               else ret (inl (u64 (off + ws)))
         else ret (inr true))
      0.

(** [Some signature_ba] is the return value [true]. *)
Definition nmbm_write_signature (limit : Z) (sig : list Z) : prog (option Z) :=
  let* bc := askg block_count in
  let ba := u32 (bc - 1) in
  loop (S (Z.to_nat (ba - limit)))
    (fun ba =>
       if ba >? limit then
         let next_block := inl (u32 (ba - 1)) in
         let* st := nmbm_get_block_state ba in
         if negb (st =? BLOCK_ST_GOOD) then ret next_block
         else
           let* bad := nmbm_check_bad_phys_block ba in
           if bad then
             do* nmbm_set_block_state ba BLOCK_ST_BAD in
             ret next_block
           else
             let* success := nmbm_erase_block_and_check ba in
             if negb success then
               do* skip_bad_block ba in
               ret next_block
             else
               let* success := nmbm_write_repeated_data ba sig in
               if success then ret (inr (Some ba))
               else
                 do* skip_bad_block ba in
                 ret next_block
       else ret (inr None))
    ba.

(** The chunk of the current page in [nmbn_read_data] and
    [nmbn_write_verify_data]: [leading] and [chunksize]. *)
Definition page_chunk (g : nmbm_geometry chip) (off sizeremain : Z) : Z * Z :=
  let leading := Z.land off (writesize_mask g) in
  let chunksize := u32 (writesize (lower g) - leading) in
  (leading, if chunksize >? sizeremain then sizeremain else chunksize).

(** Read [size] bytes at [addr] into the buffer whose contents are [buf] (at
    least [size] bytes); returns the code and the new contents. *)
Definition nmbn_read_data (addr : Z) (buf : list Z) (size : Z) : prog (Z * list Z) :=
  let* g := ask geo in
  loop (S (Z.to_nat size))
    (fun '(off, pos, sizeremain, buf) =>
       if sizeremain =? 0 then ret (inr (0, buf))
       else
         let '(leading, chunksize) := page_chunk g off sizeremain in
         let next buf :=
           inl (u64 (off + chunksize), pos + chunksize, u32 (sizeremain - chunksize), buf) in
         if chunksize =? writesize (lower g) then
           if negb (in_bounds buf pos chunksize) then fault
           else
             let old := slice buf pos chunksize in
             let* (r, data, _) := nmbm_read_phys_page (u64 (off - leading)) (Some old) None
                                    NMBM_MODE_PLACE_OOB in
             let buf := blit buf pos (default old data) in
             if r <? 0 then ret (inr (r, buf)) else ret (next buf)
         else
           let* r := read_to_cache (u64 (off - leading)) NMBM_MODE_PLACE_OOB in
           if r <? 0 then ret (inr (r, buf))
           else
             let* bytes := cache_get leading chunksize in
             if negb (in_bounds buf pos chunksize) then fault
             else ret (next (blit buf pos bytes)))
    (addr, 0, size, buf).

(** [data] holds the bytes at the pointer, at least [size] of them. *)
Definition nmbn_write_verify_data (addr : Z) (data : list Z) (size : Z) : prog bool :=
  let* g := ask geo in
  loop (S (Z.to_nat size))
    (fun '(off, pos, sizeremain) =>
       if sizeremain =? 0 then ret (inr true)
       else
         let '(leading, chunksize) := page_chunk g off sizeremain in
         if negb (in_bounds data pos chunksize) then fault
         else
           let chunk := slice data pos chunksize in
           (* Prepare page data. fill 0xff to unused region *)
           do* cache_put 0 (replicate (Z.to_nat (rawpage_size g)) 0xff) in
           do* cache_put leading chunk in
           let* page := cache_get 0 (writesize (lower g)) in
           let* success := nmbm_write_phys_page (u64 (off - leading)) (Some page) None
                             NMBM_MODE_PLACE_OOB in
           if negb success then ret (inr false)
           else
             (* Verify the data just written. ECC error indicates failure *)
             let* r := read_to_cache (u64 (off - leading)) NMBM_MODE_PLACE_OOB in
             if r <? 0 then ret (inr false)
             else
               let* same := cache_equal leading chunk in
               if negb same then ret (inr false)
               else ret (inl (u64 (off + chunksize), pos + chunksize,
                              u32 (sizeremain - chunksize))))
    (addr, 0, size).

(** [Some (actual_start_ba, actual_end_ba)] is the return value [true].
    [start] is [*actual_start_ba], which the caller has not initialised; the
    model starts it at [0]. *)
Definition nmbm_write_mgmt_range (ba limit : Z) (data : list Z) (size : Z) :
    prog (option (Z * Z)) :=
  let* g := ask geo in
  loop (S (Z.to_nat (limit - ba)))
    (fun '(ba, pos, sizeremain, start) =>
       if negb (sizeremain =? 0) && (ba <? limit) then
         let chunksize :=
           if sizeremain >? erasesize (lower g) then erasesize (lower g) else sizeremain in
         let next_block := inl (u32 (ba + 1), pos, sizeremain, start) in
         let* st := nmbm_get_block_state ba in
         if negb (st =? BLOCK_ST_GOOD) then ret next_block
         else
           (* Insurance to detect unexpected bad block marked by user *)
           let* bad := nmbm_check_bad_phys_block ba in
           if bad then
             do* nmbm_set_block_state ba BLOCK_ST_BAD in
             ret next_block
           else
             let* success := nmbm_erase_block_and_check ba in
             if negb success then
               do* skip_bad_block ba in
               ret next_block
             else
               let* success := nmbn_write_verify_data (ba2addr g ba)
                                 (drop (Z.to_nat pos) data) chunksize in
               if negb success then
                 do* skip_bad_block ba in
                 ret next_block
               else
                 let start := if sizeremain =? size then ba else start in
                 ret (inl (u32 (ba + 1), pos + chunksize,
                           u32 (sizeremain - chunksize), start))
       else if negb (sizeremain =? 0) then ret (inr None)
       else ret (inr (Some (start, ba))))
    (ba, 0, size, 0).

End blocks.
