(* ===== verification/NmbmTable.v ===== *)
(** NMBM info tables: generating the table image, writing the main and the
    backup copy, the rescue procedures, the update loop and the mapping of a
    logic block to a spare block ([nmbm-core.c], from
    [nmbm_generate_info_table_cache] to [nmbm_create_info_table]). *)

From stdpp Require Import base list numbers.
From Stdlib Require Import ZArith Lia.
From S2P Require Import Prelude NmbmTypes NmbmChip NmbmBlocks.
Local Open Scope Z_scope.
Local Open Scope cprog_scope.

Section table.
Context {chip : Type} {C : Crc32}.
Abbreviation prog := (M (nst chip)).

(** [memcpy(ni->info_table_cache + off, bytes, length bytes)] *)
Definition table_cache_put (off : Z) (bytes : list Z) : prog unit :=
  let* tc := ask info_table_cache in
  if in_bounds tc off (Z.of_nat (length bytes))
  then upd (set_info_table_cache (blit tc off bytes))
  else fault.

Definition nmbm_generate_info_table_cache : prog bool :=
  let* g := ask geo in
  do* table_cache_put 0 (replicate (Z.to_nat (info_table_size g)) 0xff) in
  let* it := ask info_table in
  let* bs := ask block_state in
  do* table_cache_put (state_table_off it)
        (take (Z.to_nat (state_table_size g)) (words_bytes bs)) in
  let* bm := ask block_mapping in
  do* table_cache_put (mapping_table_off it)
        (take (Z.to_nat (mapping_table_size g)) (words_bytes bm)) in
  let hdr := mk_nmbm_header NMBM_MAGIC_INFO_TABLE NMBM_VER (info_table_size g)
               (checksum (ift_header it)) in
  let* sc := ask block_state_changed in
  let* mc := ask block_mapping_changed in
  let changed := negb (sc =? 0) || negb (mc =? 0) in
  let wc := if changed then u32 (write_count it + 1) else write_count it in
  let it := mk_nmbm_info_table_header hdr wc (state_table_off it)
              (mapping_table_off it) (ift_padding it) in
  do* upd (set_info_table it) in
  do* table_cache_put 0 (info_table_header_bytes it) in
  let* tc := ask info_table_cache in
  do* upd (set_info_table_cache (nmbm_update_checksum tc)) in
  ret changed.

(** [Some (table_start_ba, table_end_ba)] is the return value [true]. *)
Definition nmbm_write_info_table (ba limit : Z) : prog (option (Z * Z)) :=
  let* tc := ask info_table_cache in
  let* size := askg info_table_size in
  nmbm_write_mgmt_range ba limit tc size.

Definition nmbm_mark_tables_clean : prog unit :=
  do* upd (set_block_state_changed 0) in
  upd (set_block_mapping_changed 0).

(** [nblocks] and [min_count] are [int32_t]. *)
Definition nmbm_try_reserve_blocks (ba count min_count limit : Z) : prog (option Z) :=
  loop (S (S (Z.to_nat (i32 count - i32 min_count))))
    (fun nblocks =>
       if nblocks >=? i32 min_count then
         let* r := nmbm_block_walk true ba nblocks (i32 limit) in
         match r with
         | Some nba => ret (inr (Some nba))
         | None => ret (inl (i32 (nblocks - 1)))
         end
       else ret (inr None))
    (i32 count).

(** [ni->mapping_blocks_top_ba - size2blk(ni, ni->info_table_size)] *)
Definition reserve_limit : prog Z :=
  let* g := ask geo in
  let* top := ask mapping_blocks_top_ba in
  ret (u32 (top - size2blk g (info_table_size g))).

Definition nmbm_rebuild_info_table : prog bool :=
  let* g := ask geo in
  (* Set initial value *)
  do* upd (set_main_table_ba 0) in
  do* upd (set_backup_table_ba 0) in
  let* top := ask mapping_blocks_top_ba in
  do* upd (set_mapping_blocks_ba top) in
  (* Write main table *)
  let* mgmt := ask mgmt_start_ba in
  let* r := nmbm_write_info_table mgmt top in
  match r with
  | None =>
      (* Failed to write main table, data will be lost *)
      do* upd (set_protected 1) in
      ret false
  | Some (table_start_ba, main_table_end_ba) =>
      do* upd (set_main_table_ba table_start_ba) in
      do* upd (set_mapping_blocks_ba main_table_end_ba) in
      do* nmbm_mark_tables_clean in
      (* Reserve spare blocks for main info table *)
      let* limit := reserve_limit in
      let* r := nmbm_try_reserve_blocks main_table_end_ba (info_table_spare_blocks g) 0
                  limit in
      match r with
      | None => ret true
      | Some next_start_ba =>
          (* Write backup info table *)
          let* r := nmbm_write_info_table next_start_ba top in
          match r with
          | None => ret true
          | Some (table_start_ba, table_end_ba) =>
              do* upd (set_backup_table_ba table_start_ba) in
              do* upd (set_mapping_blocks_ba table_end_ba) in
              (* Erase spare blocks of main table to clean possible interference data *)
              do* nmbm_erase_range main_table_end_ba table_start_ba in
              ret true
          end
      end
  end.

(** The loops [while (write_ba >= floor) { write; if (success) break;
    write_ba--; }] of the rescue procedures.  With no round at all the code
    would go on with table addresses it has not set ([Fault]). *)
Definition write_info_table_desc (write_ba floor top : Z) : prog (option (Z * Z)) :=
  loop (S (S (Z.to_nat (write_ba - floor))))
    (fun '(write_ba, tried) =>
       if write_ba >=? floor then
         let* r := nmbm_write_info_table write_ba top in
         match r with
         | Some _ => ret (inr r)
         | None => ret (inl (u32 (write_ba - 1), true))
         end
       else if tried : bool then ret (inr None) else fault)
    (write_ba, false).

Definition nmbm_rescue_single_info_table : prog bool :=
  let* g := ask geo in
  let* mgmt := ask mgmt_start_ba in
  let* main := ask main_table_ba in
  (* Try to write new info table in front of existing table *)
  let* r := nmbm_write_info_table mgmt main in
  match r with
  | Some (table_start_ba, table_end_ba) =>
      (* New table becomes the main table, existing table becomes the backup table *)
      do* upd (set_backup_table_ba main) in
      do* upd (set_main_table_ba table_start_ba) in
      do* nmbm_mark_tables_clean in
      do* nmbm_erase_range table_end_ba main in
      ret true
  | None =>
      (* Try to reserve spare blocks for existing table *)
      let* mba := ask mapping_blocks_ba in
      let* top := ask mapping_blocks_top_ba in
      let* limit := reserve_limit in
      let* r := nmbm_try_reserve_blocks mba (info_table_spare_blocks g) 0 limit in
      match r with
      | None => ret false
      | Some write_ba =>
          (* Try to write new info table next to the existing table *)
          let* r := write_info_table_desc write_ba mba top in
          match r with
          | Some (table_start_ba, table_end_ba) =>
              do* nmbm_erase_range mba table_start_ba in
              (* New table becomes the backup table *)
              do* upd (set_backup_table_ba table_start_ba) in
              do* upd (set_mapping_blocks_ba table_end_ba) in
              do* nmbm_mark_tables_clean in
              ret true
          | None => ret false
          end
      end
  end.

Definition nmbm_update_single_info_table (update_main_table : bool) : prog bool :=
  let* main := ask main_table_ba in
  let* backup := ask backup_table_ba in
  let* top := ask mapping_blocks_top_ba in
  (* Determine the write range *)
  let '(write_start_ba, write_limit) :=
    if update_main_table then (main, backup) else (backup, top) in
  let* r := nmbm_write_info_table write_start_ba write_limit in
  match r with
  | Some (table_start_ba, table_end_ba) =>
      do* (if update_main_table then upd (set_main_table_ba table_start_ba)
           else
             do* upd (set_backup_table_ba table_start_ba) in
             upd (set_mapping_blocks_ba table_end_ba)) in
      do* nmbm_mark_tables_clean in
      ret true
  | None =>
      if update_main_table then
        (* Make backup table the new main table *)
        do* upd (set_main_table_ba backup) in
        do* upd (set_backup_table_ba 0) in
        nmbm_rescue_single_info_table
      else
        (* Only one table left *)
        do* upd (set_mapping_blocks_ba backup) in
        do* upd (set_backup_table_ba 0) in
        ret false
  end.

(** The end of [nmbm_rescue_main_info_table], after the comment "Adjust
    mapping_blocks_off" that follows the check whether the temporary table has
    been overwritten. *)
Definition rescue_main_new_backup (main_table_end_ba : Z) : prog bool :=
  let* g := ask geo in
  do* upd (set_mapping_blocks_ba main_table_end_ba) in
  let* top := ask mapping_blocks_top_ba in
  let* limit := reserve_limit in
  let* r := nmbm_try_reserve_blocks main_table_end_ba (info_table_spare_blocks g) 0 limit in
  match r with
  | None =>
      do* upd (set_backup_table_ba 0) in
      ret true
  | Some write_ba =>
      let* r := write_info_table_desc write_ba main_table_end_ba top in
      match r with
      | None =>
          do* upd (set_backup_table_ba 0) in
          ret true
      | Some (tmp_table_start_ba, tmp_table_end_ba) =>
          do* upd (set_backup_table_ba tmp_table_start_ba) in
          do* upd (set_mapping_blocks_ba tmp_table_end_ba) in
          do* nmbm_erase_range main_table_end_ba tmp_table_start_ba in
          ret true
      end
  end.

Definition nmbm_rescue_main_info_table : prog bool :=
  let* g := ask geo in
  let* mba := ask mapping_blocks_ba in
  let* top := ask mapping_blocks_top_ba in
  let* backup := ask backup_table_ba in
  (* Try to reserve spare blocks for existing backup info table *)
  let* limit := reserve_limit in
  let* r := nmbm_try_reserve_blocks mba (info_table_spare_blocks g) 0 limit in
  match r with
  | None =>
      (* Backup info table becomes the main table *)
      do* upd (set_main_table_ba backup) in
      do* upd (set_backup_table_ba 0) in
      ret true
  | Some write_ba =>
      (* Try to write temporary info table into spare unmapped blocks *)
      let* r := write_info_table_desc write_ba mba top in
      match r with
      | None =>
          do* upd (set_main_table_ba backup) in
          do* upd (set_backup_table_ba 0) in
          ret true
      | Some (tmp_table_start_ba, tmp_table_end_ba) =>
          do* upd (set_mapping_blocks_ba tmp_table_end_ba) in
          (* Now write main info table at the beginning of management area *)
          let* mgmt := ask mgmt_start_ba in
          let* r := nmbm_write_info_table mgmt tmp_table_start_ba in
          match r with
          | None =>
              (* Temporary info table becomes the main table *)
              do* upd (set_main_table_ba tmp_table_start_ba) in
              do* upd (set_backup_table_ba 0) in
              do* nmbm_mark_tables_clean in
              ret true
          | Some (main_table_start_ba, main_table_end_ba) =>
              do* upd (set_main_table_ba main_table_start_ba) in
              do* nmbm_mark_tables_clean in
              (* Temporary info table becomes the new backup info table if it's
                 not overwritten *)
              if main_table_end_ba <=? tmp_table_start_ba then
                do* upd (set_backup_table_ba tmp_table_start_ba) in
                ret true
              else rescue_main_new_backup main_table_end_ba
          end
      end
  end.

(** The code from the label [write_main_table] on. *)
Definition write_main_table (main_table_limit : Z) : prog bool :=
  let* main := ask main_table_ba in
  if main =? 0 then nmbm_rebuild_info_table
  else
    (* Write main info table in its current range *)
    let* r := nmbm_write_info_table main main_table_limit in
    let* backup := ask backup_table_ba in
    match r with
    | None =>
        (* If failed to write main table, go rescue procedure *)
        if backup =? 0 then nmbm_rebuild_info_table
        else nmbm_rescue_main_info_table
    | Some (table_start_ba, table_end_ba) =>
        do* upd (set_main_table_ba table_start_ba) in
        do* (if backup =? 0 then upd (set_mapping_blocks_ba table_end_ba) else ret tt) in
        do* nmbm_mark_tables_clean in
        ret true
    end.

Definition nmbm_update_info_table_once (force : bool) : prog bool :=
  (* Do nothing if there is no change *)
  let* changed := nmbm_generate_info_table_cache in
  if negb changed && negb force then ret true
  else
    let* backup := ask backup_table_ba in
    let* top := ask mapping_blocks_top_ba in
    (* Check whether both two tables exist *)
    if backup =? 0 then write_main_table top
    else
      (* Write backup info table in its current range *)
      let* r := nmbm_write_info_table backup top in
      match r with
      | None =>
          do* upd (set_mapping_blocks_ba backup) in
          do* upd (set_backup_table_ba 0) in
          write_main_table top
      | Some (table_start_ba, table_end_ba) =>
          do* upd (set_backup_table_ba table_start_ba) in
          do* upd (set_mapping_blocks_ba table_end_ba) in
          do* nmbm_mark_tables_clean in
          write_main_table table_start_ba
      end.

(** A bound on the rounds of the update loop and of the remapping loop: every
    round but the last uses up a good block. *)
Definition update_fuel (g : nmbm_geometry chip) : nat :=
  S (S (Z.to_nat (block_count g))).

Definition nmbm_update_info_table : prog bool :=
  let* g := ask geo in
  let* p := ask protected in
  if negb (p =? 0) then ret true
  else
    loop (update_fuel g)
      (fun _ : unit =>
         let* sc := ask block_state_changed in
         let* mc := ask block_mapping_changed in
         if negb (sc =? 0) || negb (mc =? 0) then
           let* success := nmbm_update_info_table_once false in
           if negb success then ret (inr false) else ret (inl tt)
         else ret (inr true))
      tt.

Definition nmbm_map_block (lb : Z) : prog bool :=
  let* mba := ask mapping_blocks_ba in
  let* top := ask mapping_blocks_top_ba in
  if mba =? top then ret false
  else
    let* r := nmbm_block_walk false top 0 mba in
    match r with
    | None =>
        do* nmbm_update_info_table in
        let* mba := ask mapping_blocks_ba in
        do* upd (set_mapping_blocks_top_ba mba) in
        ret false
    | Some pb =>
        do* set_mapping lb (i32 pb) in
        do* upd (set_mapping_blocks_top_ba (u32 (top - 1))) in
        let* mc := ask block_mapping_changed in
        do* upd (set_block_mapping_changed (u32 (mc + 1))) in
        ret true
    end.

Definition nmbm_create_info_table : prog bool :=
  let* sba := ask signature_ba in
  let* mgmt := ask mgmt_start_ba in
  (* Set initial mapping_blocks_top_off *)
  let* r := nmbm_block_walk false sba 1 mgmt in
  match r with
  | None => ret false
  | Some top =>
      do* upd (set_mapping_blocks_top_ba top) in
      (* Generate info table cache *)
      do* nmbm_generate_info_table_cache in
      (* Write info table *)
      let* success := nmbm_rebuild_info_table in
      if negb success then ret false
      else
        (* Remap bad block(s) at end of data area *)
        let* dbc := ask data_block_count in
        do* loop (S (Z.to_nat (mgmt - dbc)))
          (fun lb =>
             if lb <? mgmt then
               let* success := nmbm_map_block lb in
               if negb success then ret (inr tt)
               else
                 let* dbc := ask data_block_count in
                 do* upd (set_data_block_count (u32 (dbc + 1))) in
                 ret (inl (u32 (lb + 1)))
             else ret (inr tt))
          dbc in
        (* If state table and/or mapping table changed, update info table *)
        nmbm_update_info_table
  end.

End table.
