(* ===== verification/NmbmAttach.v ===== *)
(** NMBM attachment: creating the management structures on a new chip, checking
    and loading existing info tables, finding the signature, initialising the
    instance, [nmbm_attach] and [nmbm_detach]. *)

From stdpp Require Import base list numbers.
From Stdlib Require Import ZArith Lia.
From S2P Require Import Prelude NmbmTypes NmbmChip NmbmBlocks NmbmTable.
Local Open Scope Z_scope.
Local Open Scope cprog_scope.

Section attach.
Context {chip : Type} {C : Crc32}.
Abbreviation prog := (M (nst chip)).

(** * Creation *)

Definition create_mgmt_start (g : nmbm_geometry chip) : Z :=
  let bc := block_count g in
  let mgmt := u32 (bc * (NMBM_MGMT_DIV - max_ratio (lower g))) / NMBM_MGMT_DIV in
  let mrb := max_reserved_blocks (lower g) in
  if negb (mrb =? 0) && (u32 (bc - mgmt) >? mrb) then u32 (bc - mrb) else mgmt.

(** The signature [nmbm_create_new] fills in, before the checksum. *)
Definition new_signature (g : nmbm_geometry chip) (mgmt : Z) : nmbm_signature :=
  mk_nmbm_signature
    (mk_nmbm_header NMBM_MAGIC_SIGNATURE NMBM_VER sizeof_nmbm_signature 0)
    (nld_size (lower g)) (erasesize (lower g)) (writesize (lower g))
    (oobsize (lower g)) mgmt NMBM_TRY_COUNT.

Definition nmbm_create_new : prog bool :=
  let* g := ask geo in
  (* Determine the boundary of management blocks *)
  let mgmt := create_mgmt_start g in
  do* upd (set_mgmt_start_ba mgmt) in
  (* Fill block state table & mapping table *)
  do* nmbm_scan_badblocks in
  do* nmbm_build_mapping_table in
  (* Write signature *)
  let sig := nmbm_update_checksum (signature_bytes (new_signature g mgmt)) in
  do* upd (set_signature (parse_signature sig)) in
  if flag_set g NMBM_F_READ_ONLY then ret true
  else
    let* r := nmbm_write_signature mgmt sig in
    match r with
    | None => ret false
    | Some sba =>
        do* upd (set_signature_ba sba) in
        (* Write info table(s) *)
        nmbm_create_info_table
    end.

(** * Loading *)

(** [h] is the header at the pointer [data]. *)
Definition nmbm_check_info_table_header (g : nmbm_geometry chip)
    (h : nmbm_info_table_header) : bool :=
  if negb (magic (ift_header h) =? NMBM_MAGIC_INFO_TABLE) then false
  else if negb (hdr_size (ift_header h) =? info_table_size g) then false
  else if u32 (mapping_table_off h - state_table_off h) <? state_table_size g then false
  else if u32 (info_table_size g - mapping_table_off h) <? mapping_table_size g then false
  else true.

(** The 32-bit word at byte [off] of the info table cache. *)
Definition table_word (off : Z) : prog Z :=
  let* tc := ask info_table_cache in
  if in_bounds tc off 4 then ret (le_field tc off 4) else fault.

(** [nmbm_get_block_state_raw] on the state table inside the cache *)
Definition table_block_state (state_off ba : Z) : prog Z :=
  let unit := ba / NMBM_BITMAP_BLOCKS_PER_UNIT in
  let shift := u32 ((ba mod NMBM_BITMAP_BLOCKS_PER_UNIT) * NMBM_BITMAP_BITS_PER_BLOCK) in
  let* uv := table_word (state_off + 4 * unit) in
  ret (Z.land (Z.shiftr uv shift) BLOCK_ST_MASK).

(** [data] is the info table cache; [Some mapping_blocks_top_ba] is the return
    value [true].  A mapping entry is compared as the [uint32_t] it converts
    to. *)
Definition nmbm_check_info_table (start_ba end_ba : Z) : prog (option Z) :=
  let* tc := ask info_table_cache in
  let h := parse_info_table_header tc in
  let* sba := ask signature_ba in
  let* dbc := ask data_block_count in
  let* r := loop (S (Z.to_nat dbc))
    (fun '(ba, minimum_mapping_pb) =>
       if ba <? dbc then
         let* m := table_word (mapping_table_off h + 4 * ba) in
         if ((m >=? dbc) && (m <? end_ba)) || (m =? sba) then ret (inr None)
         else
           let minimum :=
             if (m >=? end_ba) && (m <? minimum_mapping_pb) then m
             else minimum_mapping_pb in
           ret (inl (u32 (ba + 1), minimum))
       else ret (inr (Some minimum_mapping_pb)))
    (0, sba) in
  match r with
  | None => ret None
  | Some minimum_mapping_pb =>
      loop (S (Z.to_nat (end_ba - start_ba)))
        (fun ba =>
           if ba <? end_ba then
             let next := inl (u32 (ba + 1)) in
             let* st := nmbm_get_block_state ba in
             if negb (st =? BLOCK_ST_GOOD) then ret next
             else
               let* st := table_block_state (state_table_off h) ba in
               if negb (st =? BLOCK_ST_GOOD) then ret (inr None) else ret next
           else ret (inr (Some (u32 (minimum_mapping_pb - 1)))))
        start_ba
  end.

(** The part of [nmbm_try_load_info_table] that reads the blocks of the table
    into the info table cache: [Some (start_ba, ba)] when the whole table has
    been read. *)
Definition load_info_table_cache (ba : Z) : prog (option (Z * Z)) :=
  let* g := ask geo in
  let limit := u32 (ba + size2blk g (info_table_size g)) in
  loop (S (Z.to_nat (limit - ba)))
    (fun '(ba, off, sizeremain, start_ba, checkhdr) =>
       if negb (sizeremain =? 0) && (ba <? limit) then
         let next_block := inl (u32 (ba + 1), off, sizeremain, start_ba, checkhdr) in
         let* st := nmbm_get_block_state ba in
         if negb (st =? BLOCK_ST_GOOD) then ret next_block
         else
           let* bad := nmbm_check_bad_phys_block ba in
           if bad then
             do* nmbm_set_block_state ba BLOCK_ST_BAD in
             ret next_block
           else
             let chunksize :=
               if sizeremain >? erasesize (lower g) then erasesize (lower g)
               else sizeremain in
             (* Assume block with ECC error has no info table data *)
             let* tc := ask info_table_cache in
             if negb (in_bounds tc off chunksize) then fault
             else
               let* (r, data) := nmbn_read_data (ba2addr g ba) (slice tc off chunksize)
                                   chunksize in
               let tc := blit tc off data in
               do* upd (set_info_table_cache tc) in
               if r <? 0 then
                 (* Only mark bad in memory *)
                 do* nmbm_set_block_state ba BLOCK_ST_BAD in
                 ret next_block
               else if r >? 0 then ret (inr None)
               else
                 if checkhdr
                    && negb (nmbm_check_info_table_header g
                               (parse_info_table_header (drop (Z.to_nat off) tc)))
                 then ret (inr None)
                 else
                   ret (inl (u32 (ba + 1), off + chunksize,
                             u32 (sizeremain - chunksize),
                             (if checkhdr : bool then ba else start_ba), false))
       else if negb (sizeremain =? 0) then ret (inr None)
       else ret (inr (Some (start_ba, ba))))
    (ba, 0, info_table_size g, 0, true).

(** [Some (eba, write_count, mapping_blocks_top_ba)] is the return value
    [true]. *)
Definition nmbm_try_load_info_table (ba : Z) (table_loaded : bool) :
    prog (option (Z * Z * Z)) :=
  let* g := ask geo in
  let* r := load_info_table_cache ba in
  match r with
  | None => ret None
  | Some (start_ba, eba) =>
      let* tc := ask info_table_cache in
      if negb (nmbm_check_header tc (info_table_size g)) then ret None
      else
        let h := parse_info_table_header tc in
        let* r := nmbm_check_info_table start_ba eba in
        match r with
        | None => ret None
        | Some top =>
            let* it := ask info_table in
            do* (if negb table_loaded || (write_count h >? write_count it) then
                   if negb (in_bounds tc (state_table_off h) (state_table_size g)
                            && in_bounds tc (mapping_table_off h) (mapping_table_size g))
                   then fault
                   else
                     do* upd (set_info_table h) in
                     do* upd (set_block_state
                                (bytes_words (Z.to_nat (state_table_size g / 4))
                                   (drop (Z.to_nat (state_table_off h)) tc))) in
                     upd (set_block_mapping
                            (i32 <$> bytes_words (Z.to_nat (mapping_table_size g / 4))
                                       (drop (Z.to_nat (mapping_table_off h)) tc)))
                 else ret tt) in
            ret (Some (eba, write_count h, top))
        end
  end.

(** [Some (table_start_ba, table_end_ba, write_count, mapping_blocks_top_ba)] is
    the return value [true]. *)
Definition nmbm_search_info_table (ba limit : Z) (table_loaded : bool) :
    prog (option (Z * Z * Z * Z)) :=
  let* g := ask geo in
  let last := u32 (limit - size2blk g (info_table_size g)) in
  loop (S (Z.to_nat (last - ba)))
    (fun ba =>
       if ba <? last then
         let* r := nmbm_try_load_info_table ba table_loaded in
         match r with
         | Some (eba, wc, top) => ret (inr (Some (ba, eba, wc, top)))
         | None => ret (inl (u32 (ba + 1)))
         end
       else ret (inr None))
    ba.

(** [for (i = mgmt_start_pb; i > 0; i--) if (block_mapping[i - 1] >= 0) ...] *)
Definition load_data_block_count (mgmt : Z) : prog unit :=
  loop (S (Z.to_nat mgmt))
    (fun i =>
       if i >? 0 then
         let* bm := ask block_mapping in
         let* m := arr_get bm (i - 1) in
         if m >=? 0 then
           do* upd (set_data_block_count i) in
           ret (inr tt)
         else ret (inl (i - 1))
       else ret (inr tt))
    mgmt.

(** The end of [nmbm_load_info_table], from the comment "Regenerate the info
    table cache" on. *)
Definition load_sync_tables (main_wc backup_wc : Z) : prog bool :=
  let* g := ask geo in
  do* nmbm_generate_info_table_cache in
  if flag_set g NMBM_F_READ_ONLY then ret true
  else
    let* backup := ask backup_table_ba in
    let* success :=
      if backup =? 0 then nmbm_rescue_single_info_table
      else if negb (main_wc =? backup_wc) then
        (* Mark state & mapping tables changed *)
        do* upd (set_block_state_changed 1) in
        do* upd (set_block_mapping_changed 1) in
        nmbm_update_single_info_table (main_wc <? backup_wc)
      else ret true in
    (* If there is no spare unmapped blocks, or still only one table exists, set
       the chip to read-only *)
    let* mba := ask mapping_blocks_ba in
    let* top := ask mapping_blocks_top_ba in
    if mba =? top then
      do* upd (set_protected 1) in
      ret true
    else if negb success then
      do* upd (set_protected 1) in
      ret true
    else ret true.

(** The part of [nmbm_load_info_table] after the first table has been found.  The two
    loops marked "Debug purpose" have no effect: the colour macros are empty. *)
Definition load_second_table (main_ba main_end main_wc main_top limit : Z) : prog bool :=
  let* sig := ask signature in
  do* upd (set_main_table_ba main_ba) in
  (* Find second info table *)
  let* r := nmbm_search_info_table main_end limit true in
  let '(backup_ba, table_end, backup_wc, backup_top) :=
    match r with
    | None => (0, main_end, 0, 0)
    | Some (b, e, w, t) => (b, e, w, t)
    end in
  do* upd (set_backup_table_ba backup_ba) in
  (* Pick mapping_blocks_top_ba *)
  do* upd (set_mapping_blocks_top_ba
             (if backup_ba =? 0 then main_top
              else if main_wc >=? backup_wc then main_top else backup_top)) in
  (* Set final mapping_blocks_ba *)
  do* upd (set_mapping_blocks_ba table_end) in
  (* Set final data_block_count *)
  do* load_data_block_count (mgmt_start_pb sig) in
  load_sync_tables main_wc backup_wc.

Definition nmbm_load_info_table (ba limit : Z) : prog bool :=
  let* sba := ask signature_ba in
  let* sig := ask signature in
  (* Set initial value *)
  do* upd (set_main_table_ba 0) in
  do* upd (set_backup_table_ba 0) in
  let* it := ask info_table in
  do* upd (set_info_table
             (mk_nmbm_info_table_header (ift_header it) 0 (state_table_off it)
                (mapping_table_off it) (ift_padding it))) in
  do* upd (set_mapping_blocks_top_ba (u32 (sba - 1))) in
  do* upd (set_data_block_count (mgmt_start_pb sig)) in
  (* Find first info table *)
  let* r := nmbm_search_info_table ba limit false in
  match r with
  | None => ret false
  | Some (main_ba, main_end, main_wc, main_top) =>
      load_second_table main_ba main_end main_wc main_top limit
  end.

Definition nmbm_load_existing : prog bool :=
  let* g := ask geo in
  let* sig := ask signature in
  (* Calculate the boundary of management blocks *)
  do* upd (set_mgmt_start_ba (mgmt_start_pb sig)) in
  let* sba := ask signature_ba in
  (* Look for info table(s) *)
  let* success := nmbm_load_info_table (mgmt_start_pb sig) sba in
  if success then ret true
  else if negb (flag_set g NMBM_F_CREATE) then ret false
  else
    (* Fill block state table & mapping table *)
    do* nmbm_scan_badblocks in
    do* nmbm_build_mapping_table in
    if flag_set g NMBM_F_READ_ONLY then ret true
    else nmbm_create_info_table.

(** * Signature *)

Definition signature_limit (g : nmbm_geometry chip) (bc : Z) : Z :=
  let limit := u32 ((bc / NMBM_MGMT_DIV) * (NMBM_MGMT_DIV - max_ratio (lower g))) in
  let mrb := max_reserved_blocks (lower g) in
  if negb (mrb =? 0) && (u32 (bc - limit) >? mrb) then u32 (bc - mrb) else limit.

(** The pages of one block: the first page that holds a valid signature. *)
Definition find_signature_in_block (addr : Z) : prog (option nmbm_signature) :=
  let* g := ask geo in
  loop (page_fuel g)
    (fun off =>
       if off <? erasesize (lower g) then
         let next := inl (u64 (off + writesize (lower g))) in
         let* (r, sig) := nmbn_read_data (u64 (addr + off))
                            (replicate (Z.to_nat sizeof_nmbm_signature) 0)
                            sizeof_nmbm_signature in
         if negb (r =? 0) then ret next
         else if negb (nmbm_check_header sig sizeof_nmbm_signature) then ret next
         else
           let sig := parse_signature sig in
           if magic (sig_header sig) =? NMBM_MAGIC_SIGNATURE then ret (inr (Some sig))
           else ret next
       else ret (inr None))
    0.

(** [Some (signature, signature_ba)] is the return value [true]. *)
Definition nmbm_find_signature : prog (option (nmbm_signature * Z)) :=
  let* g := ask geo in
  (* Calculate top and bottom block address *)
  let bc := u32 (Z.shiftr (nld_size (lower g)) (erasesize_shift g)) in
  let limit := signature_limit g bc in
  loop (S (S (Z.to_nat (bc - limit))))
    (fun ba =>
       if ba >=? limit then
         let ba := u32 (ba - 1) in
         let addr := ba2addr g ba in
         let* bad := nmbm_check_bad_phys_block ba in
         if bad then ret (inl ba)
         else
           let* r := find_signature_in_block addr in
           match r with
           | Some sig => ret (inr (Some (sig, ba)))
           | None => ret (inl ba)
           end
       else ret (inr None))
    bc.

(** * Initialisation *)

Definition is_power_of_2 (n : Z) : bool := negb (n =? 0) && (Z.land n (n - 1) =? 0).

(** [None] is the return value [false]; the new lower device carries the
    default [max_ratio]. *)
Definition nmbm_check_lower_members (nld : nmbm_lower_device chip) :
    option (nmbm_lower_device chip) :=
  if (nld_size nld =? 0) || negb (is_power_of_2 (nld_size nld)) then None
  else if (erasesize nld =? 0) || negb (is_power_of_2 (erasesize nld)) then None
  else if (writesize nld =? 0) || negb (is_power_of_2 (writesize nld)) then None
  else if oobsize nld =? 0 then None
  else if match read_page nld with None => true | Some _ => false end then None
  else if (Z.land (flags nld) NMBM_F_READ_ONLY =? 0)
          && match write_page nld, erase_block nld with
             | Some _, Some _ => false
             | _, _ => true
             end then None
  else
    let nld := if max_ratio nld =? 0 then set_max_ratio 1 nld else nld in
    if max_ratio nld >=? NMBM_MGMT_DIV - 1 then None
    else if negb (max_reserved_blocks nld =? 0)
            && (max_reserved_blocks nld <? NMBM_MGMT_BLOCKS_MIN) then None
    else Some nld.

(** [ffs(x)]: one plus the index of the lowest bit set. *)
Definition ffs (z : Z) : Z := if z =? 0 then 0 else Z.log2 (Z.land z (- z)) + 1.

(** The table sizes both [nmbm_calc_structure_size] and [nmbm_init_structure]
    compute. *)
Definition calc_state_table_size (block_count : Z) : Z :=
  u32 ((u32 (block_count + NMBM_BITMAP_BLOCKS_PER_UNIT - 1) /
        NMBM_BITMAP_BLOCKS_PER_UNIT) * NMBM_BITMAP_UNIT_SIZE).
Definition calc_mapping_table_size (block_count : Z) : Z := u32 (block_count * 4).

(** [sizeof(struct nmbm_instance)] depends on the ABI. *)
Definition nmbm_calc_structure_size (sizeof_instance : Z) (nld : nmbm_lower_device chip) : Z :=
  let block_count := u32 (nld_size nld / erasesize nld) in
  let state_table_size := calc_state_table_size block_count in
  let mapping_table_size := calc_mapping_table_size block_count in
  let info_table_size := NMBM_ALIGN sizeof_nmbm_info_table_header (writesize nld) in
  let info_table_size := u32 (info_table_size + NMBM_ALIGN state_table_size (writesize nld)) in
  let info_table_size := u32 (info_table_size + NMBM_ALIGN mapping_table_size (writesize nld)) in
  u64 (u32 (info_table_size + state_table_size + mapping_table_size +
            writesize nld + oobsize nld) + sizeof_instance).

(** The constant members, and the two table offsets of [ni->info_table]. *)
Definition init_geometry (nld : nmbm_lower_device chip) : nmbm_geometry chip * Z * Z :=
  let pages_per_block := erasesize nld / writesize nld in
  let blocks_per_chip := u32 (nld_size nld / erasesize nld) in
  let rawpage := u32 (writesize nld + oobsize nld) in
  let rawblock := u32 (pages_per_block * rawpage) in
  let eshift := u16 (ffs (erasesize nld) - 1) in
  let bc := u32 (Z.shiftr (nld_size nld) eshift) in
  let sts := calc_state_table_size bc in
  let mts := calc_mapping_table_size bc in
  let state_off := NMBM_ALIGN sizeof_nmbm_info_table_header (writesize nld) in
  let mapping_off := u32 (state_off + NMBM_ALIGN sts (writesize nld)) in
  let its := u32 (mapping_off + NMBM_ALIGN mts (writesize nld)) in
  let blocks := u32 (Z.shiftr (u64 (its + erasesize nld - 1)) eshift) in
  (mk_nmbm_geometry nld rawpage rawblock (u32 (blocks_per_chip * rawblock))
     (u32 (writesize nld - 1)) (u32 (erasesize nld - 1))
     (u16 (ffs (writesize nld) - 1)) eshift
     its (nmbm_get_spare_block_count blocks) sts mts bc,
   state_off, mapping_off).

(** The buffers follow the instance in one zeroed allocation; the block state
    table is filled with [0xff]. *)
Definition nmbm_init_structure (nld : nmbm_lower_device chip) (n : nmbm_instance chip) :
    nmbm_instance chip :=
  let '(g, state_off, mapping_off) := init_geometry nld in
  let it := info_table n in
  let n := set_geo g n in
  let n := set_info_table
             (mk_nmbm_info_table_header (ift_header it) (write_count it) state_off
                mapping_off (ift_padding it)) n in
  let n := set_info_table_cache (replicate (Z.to_nat (info_table_size g)) 0) n in
  let n := set_page_cache (replicate (Z.to_nat (rawpage_size g)) 0) n in
  let n := set_block_state_changed 0 n in
  let n := set_block_state
             (replicate (Z.to_nat (state_table_size g / 4)) (2 ^ 32 - 1)) n in
  let n := set_block_mapping
             (replicate (Z.to_nat (mapping_table_size g / 4)) 0) n in
  set_block_mapping_changed 0 n.

(** [nmbm_attach] with both pointers non-null. *)
Definition nmbm_attach (nld : nmbm_lower_device chip) : prog Z :=
  (* Set default log level *)
  do* upd (set_log_display_level NMBM_DEFAULT_LOG_LEVEL) in
  (* Check lower members *)
  match nmbm_check_lower_members nld with
  | None => ret (- EINVAL)
  | Some nld =>
      (* Initialize NMBM instance *)
      do* upd (nmbm_init_structure nld) in
      let* r := nmbm_find_signature in
      match r with
      | None =>
          if Z.land (flags nld) NMBM_F_CREATE =? 0 then ret (- ENODEV)
          else
            let* success := nmbm_create_new in
            if negb success then ret (- ENODEV) else ret 0
      | Some (sig, sba) =>
          do* upd (set_signature sig) in
          do* upd (set_signature_ba sba) in
          if negb (version (sig_header sig) =? NMBM_VER) then ret (- EINVAL)
          else if negb (nand_size sig =? nld_size nld)
                  || negb (block_size sig =? erasesize nld)
                  || negb (page_size sig =? writesize nld)
                  || negb (spare_size sig =? oobsize nld) then ret (- EINVAL)
          else
            let* success := nmbm_load_existing in
            if negb success then ret (- ENODEV) else ret 0
      end
  end.

Definition nmbm_detach : prog Z :=
  let* g := ask geo in
  do* (if negb (flag_set g NMBM_F_READ_ONLY) then nmbm_update_info_table else ret true) in
  ret 0.

End attach.
