(* ===== verification/NmbmLogic.v ===== *)
(** NMBM logic block operations: erase, read, write, bad block check and mark
    on logic addresses ([nmbm-core.c], from [nmbm_erase_logic_block] on). *)

From stdpp Require Import base list numbers.
From Stdlib Require Import ZArith Lia.
From S2P Require Import Prelude NmbmTypes NmbmChip NmbmBlocks NmbmTable.
Local Open Scope Z_scope.
Local Open Scope cprog_scope.

Section logic.
Context {chip : Type} {C : Crc32}.
Abbreviation prog := (M (nst chip)).

(** [pb = ni->block_mapping[lb]] *)
Definition mapped_block (lb : Z) : prog Z :=
  let* bm := ask block_mapping in
  let* m := arr_get bm lb in
  ret (u32 m).

(** The end of a round of [nmbm_erase_logic_block], from the label
    [remap_logic_block] on: [inr] returns, [inl] goes to [retry]. *)
Definition remap_logic_block (block_addr pb : Z) : prog (unit + Z) :=
  let mark_bad :=
    let* st := nmbm_get_block_state pb in
    if negb (st =? BLOCK_ST_NEED_REMAP) then nmbm_set_block_state pb BLOCK_ST_BAD
    else ret false in
  (* Try to assign a new block *)
  let* success := nmbm_map_block block_addr in
  if negb success then
    (* Mark logic block unusable, and update info table *)
    do* set_mapping block_addr (-1) in
    do* mark_bad in
    do* nmbm_update_info_table in
    ret (inr (- EIO))
  else
    (* Update info table before erasing *)
    do* mark_bad in
    do* nmbm_update_info_table in
    ret (inl tt).

Definition erase_logic_round (block_addr : Z) : prog (unit + Z) :=
  (* Map logic block to physical block *)
  let* pb := mapped_block block_addr in
  (* Whether the logic block is good (has valid mapping) *)
  if i32 pb <? 0 then ret (inr (- EIO))
  else
    (* Remap logic block if current physical block is a bad block *)
    let* st := nmbm_get_block_state pb in
    if (st =? BLOCK_ST_BAD) || (st =? BLOCK_ST_NEED_REMAP) then
      remap_logic_block block_addr pb
    else
      (* Insurance to detect unexpected bad block marked by user *)
      let* bad := nmbm_check_bad_phys_block pb in
      if bad then
        do* nmbm_set_block_state pb BLOCK_ST_BAD in
        remap_logic_block block_addr pb
      else
        let* success := nmbm_erase_block_and_check pb in
        if success then ret (inr 0)
        else
          (* Mark bad block *)
          do* skip_bad_block pb in
          remap_logic_block block_addr pb.

Definition nmbm_erase_logic_block (block_addr : Z) : prog Z :=
  let* g := ask geo in
  loop (update_fuel g) (fun _ : unit => erase_logic_round block_addr) tt.

(** Returns the code and [*failed_addr], [None] when it is not set. *)
Definition nmbm_erase_block_range (addr size : Z) : prog (Z * option Z) :=
  let* g := ask geo in
  let* p := ask protected in
  let* dbc := ask data_block_count in
  (* Sanity check *)
  if negb (p =? 0) || flag_set g NMBM_F_READ_ONLY then ret (- EROFS, None)
  else if addr >=? ba2addr g dbc then ret (- EINVAL, None)
  else if u64 (addr + size) >? ba2addr g dbc then ret (- EINVAL, None)
  else if size =? 0 then ret (0, None)
  else
    let start_ba := addr2ba g addr in
    let end_ba := addr2ba g (u64 (addr + size - 1)) in
    loop (S (S (Z.to_nat (end_ba - start_ba))))
      (fun start_ba =>
         if start_ba <=? end_ba then
           let* r := nmbm_erase_logic_block start_ba in
           if negb (r =? 0) then ret (inr (r, Some (ba2addr g start_ba)))
           else ret (inl (u32 (start_ba + 1)))
         else ret (inr (0, None)))
      start_ba.

Definition nmbm_read_logic_page (addr : Z) (data oob : option (list Z))
    (mode : nmbm_oob_mode) : prog (Z * option (list Z) * option (list Z)) :=
  let* g := ask geo in
  (* Extract block address and in-block offset *)
  let lb := addr2ba g addr in
  let offset := Z.land addr (erasesize_mask g) in
  (* Map logic block to physical block *)
  let* pb := mapped_block lb in
  (* Whether the logic block is good (has valid mapping) *)
  if i32 pb <? 0 then ret (- EIO, data, oob)
  else
    (* Fail if physical block is marked bad *)
    let* st := nmbm_get_block_state pb in
    if st =? BLOCK_ST_BAD then ret (- EIO, data, oob)
    else
      (* Assemble new address *)
      let paddr := u64 (ba2addr g pb + offset) in
      nmbm_read_phys_page paddr data oob mode.

Definition nmbm_read_single_page (addr : Z) (data oob : option (list Z))
    (mode : nmbm_oob_mode) : prog (Z * option (list Z) * option (list Z)) :=
  let* g := ask geo in
  let* p := ask protected in
  let* dbc := ask data_block_count in
  (* Sanity check *)
  if negb (p =? 0) then ret (- EROFS, data, oob)
  else if addr >=? ba2addr g dbc then ret (- EINVAL, data, oob)
  else nmbm_read_logic_page addr data oob mode.

(** [leading] and [chunksize] of the range operations.  The code computes them in [size_t]; both
    are at most [writesize], a 32-bit number, so 64 bits and 32 bits give the same. *)
Definition range_chunk (g : nmbm_geometry chip) (off sizeremain : Z) : Z * Z :=
  let leading := Z.land off (writesize_mask g) in
  let chunksize := u64 (writesize (lower g) - leading) in
  (leading, if chunksize >? sizeremain then sizeremain else chunksize).

(** The loop of [nmbm_read_range]: returns the last [ret], [sizeremain],
    [has_ecc_err], [max_bitflips] and the buffer. *)
Definition read_range_loop (addr size : Z) (buf : list Z) (mode : nmbm_oob_mode) :
    prog (Z * Z * bool * Z * list Z) :=
  let* g := ask geo in
  loop (S (Z.to_nat size))
    (fun '(off, pos, sizeremain, has_ecc_err, max_bitflips, r, buf) =>
       if sizeremain =? 0 then ret (inr (r, sizeremain, has_ecc_err, max_bitflips, buf))
       else
         let '(leading, chunksize) := range_chunk g off sizeremain in
         let next r buf :=
           inl (u64 (off + chunksize), pos + chunksize, u64 (sizeremain - chunksize),
                has_ecc_err || (r =? - EBADMSG),
                (if r >? max_bitflips then r else max_bitflips), r, buf) in
         let failed r := (r <? 0) && negb (r =? - EBADMSG) in
         let break r buf := inr (r, sizeremain, has_ecc_err, max_bitflips, buf) in
         if negb (in_bounds buf pos chunksize) then fault
         else if chunksize =? writesize (lower g) then
           let old := slice buf pos chunksize in
           let* (r, data, _) := nmbm_read_logic_page (u64 (off - leading)) (Some old) None mode in
           let buf := blit buf pos (default old data) in
           if failed r then ret (break r buf) else ret (next r buf)
         else
           let* old := cache_get 0 (writesize (lower g)) in
           let* (r, data, _) := nmbm_read_logic_page (u64 (off - leading)) (Some old) None mode in
           do* cache_put 0 (default old data) in
           if failed r then ret (break r buf)
           else
             let* bytes := cache_get leading chunksize in
             ret (next r (blit buf pos bytes)))
    (addr, 0, size, false, 0, 0, buf).

(** Returns the code, [*retlen] ([None] when it is not set) and the buffer. *)
Definition nmbm_read_range (addr size : Z) (buf : list Z) (mode : nmbm_oob_mode) :
    prog (Z * option Z * list Z) :=
  let* g := ask geo in
  let* p := ask protected in
  let* dbc := ask data_block_count in
  (* Sanity check *)
  if negb (p =? 0) then ret (- EROFS, None, buf)
  else if addr >=? ba2addr g dbc then ret (- EINVAL, None, buf)
  else if u64 (addr + size) >? ba2addr g dbc then ret (- EINVAL, None, buf)
  else if size =? 0 then ret (0, None, buf)
  else
    let* (r, sizeremain, has_ecc_err, max_bitflips, buf) :=
      read_range_loop addr size buf mode in
    let retlen := Some (u64 (size - sizeremain)) in
    if (r <? 0) && negb (r =? - EBADMSG) then ret (r, retlen, buf)
    else if has_ecc_err : bool then ret (- EBADMSG, retlen, buf)
    else ret (max_bitflips, retlen, buf).

Definition nmbm_write_logic_page (addr : Z) (data oob : option (list Z))
    (mode : nmbm_oob_mode) : prog Z :=
  let* g := ask geo in
  (* Extract block address and in-block offset *)
  let lb := addr2ba g addr in
  let offset := Z.land addr (erasesize_mask g) in
  (* Map logic block to physical block *)
  let* pb := mapped_block lb in
  (* Whether the logic block is good (has valid mapping) *)
  if i32 pb <? 0 then ret (- EIO)
  else
    (* Fail if physical block is marked bad *)
    let* st := nmbm_get_block_state pb in
    if st =? BLOCK_ST_BAD then ret (- EIO)
    else
      (* Assemble new address *)
      let paddr := u64 (ba2addr g pb + offset) in
      let* success := nmbm_write_phys_page paddr data oob mode in
      if success then ret 0
      else
        (* Do not remap bad block here.  Remap this block on erasing. *)
        do* nmbm_set_block_state pb BLOCK_ST_NEED_REMAP in
        do* nmbm_update_info_table in
        ret (- EIO).

Definition nmbm_write_single_page (addr : Z) (data oob : option (list Z))
    (mode : nmbm_oob_mode) : prog Z :=
  let* g := ask geo in
  let* p := ask protected in
  let* dbc := ask data_block_count in
  (* Sanity check *)
  if negb (p =? 0) || flag_set g NMBM_F_READ_ONLY then ret (- EROFS)
  else if addr >=? ba2addr g dbc then ret (- EINVAL)
  else nmbm_write_logic_page addr data oob mode.

(** The loop of [nmbm_write_range]: returns the last [ret] and [sizeremain]. *)
Definition write_range_loop (addr size : Z) (data : list Z) (mode : nmbm_oob_mode) :
    prog (Z * Z) :=
  let* g := ask geo in
  loop (S (Z.to_nat size))
    (fun '(off, pos, sizeremain, r) =>
       if sizeremain =? 0 then ret (inr (r, sizeremain))
       else
         let '(leading, chunksize) := range_chunk g off sizeremain in
         if negb (in_bounds data pos chunksize) then fault
         else
           let chunk := slice data pos chunksize in
           let* page :=
             if chunksize =? writesize (lower g) then ret chunk
             else
               do* cache_put 0 (replicate (Z.to_nat leading) 0xff) in
               do* cache_put leading chunk in
               cache_get 0 (writesize (lower g)) in
           let* r := nmbm_write_logic_page (u64 (off - leading)) (Some page) None mode in
           if negb (r =? 0) then ret (inr (r, sizeremain))
           else ret (inl (u64 (off + chunksize), pos + chunksize,
                          u64 (sizeremain - chunksize), r)))
    (addr, 0, size, 0).

(** Returns the code and [*retlen] ([None] when it is not set). *)
Definition nmbm_write_range (addr size : Z) (data : list Z) (mode : nmbm_oob_mode) :
    prog (Z * option Z) :=
  let* g := ask geo in
  let* p := ask protected in
  let* dbc := ask data_block_count in
  (* Sanity check *)
  if negb (p =? 0) || flag_set g NMBM_F_READ_ONLY then ret (- EROFS, None)
  else if addr >=? ba2addr g dbc then ret (- EINVAL, None)
  else if u64 (addr + size) >? ba2addr g dbc then ret (- EINVAL, None)
  else if size =? 0 then ret (0, None)
  else
    let* (r, sizeremain) := write_range_loop addr size data mode in
    ret (r, Some (u64 (size - sizeremain))).

Definition nmbm_check_bad_block (addr : Z) : prog Z :=
  let* g := ask geo in
  let* dbc := ask data_block_count in
  if addr >=? ba2addr g dbc then ret (- EINVAL)
  else
    let lb := addr2ba g addr in
    (* Map logic block to physical block *)
    let* pb := mapped_block lb in
    if i32 pb <? 0 then ret 1
    else
      let* st := nmbm_get_block_state pb in
      if st =? BLOCK_ST_BAD then ret 1 else ret 0.

Definition nmbm_mark_bad_block (addr : Z) : prog Z :=
  let* g := ask geo in
  let* p := ask protected in
  let* dbc := ask data_block_count in
  (* Sanity check *)
  if negb (p =? 0) || flag_set g NMBM_F_READ_ONLY then ret (- EROFS)
  else if addr >=? ba2addr g dbc then ret (- EINVAL)
  else
    let lb := addr2ba g addr in
    (* Map logic block to physical block *)
    let* pb := mapped_block lb in
    if i32 pb <? 0 then ret 0
    else
      do* set_mapping lb (-1) in
      do* skip_bad_block pb in
      do* nmbm_update_info_table in
      ret 0.

Definition nmbm_get_avail_size : prog Z :=
  let* g := ask geo in
  let* dbc := ask data_block_count in
  ret (u64 (Z.shiftl dbc (erasesize_shift g))).

Definition nmbm_get_lower_device : prog (nmbm_lower_device chip) := askg lower.

End logic.
