(* ===== verification/NmbmSpec.v ===== *)
(** The vocabulary of the NMBM theorems: well-formed geometry and state, the
    contract of the lower device, the steps a chip can take, and the relations
    between the states before and after an operation. *)

From stdpp Require Import base list numbers sets relations.
From Stdlib Require Import ZArith Lia.
From S2P Require Import Prelude NmbmTypes NmbmChip NmbmBlocks.
Local Open Scope Z_scope.

(** * Block states *)

(** The state of block [ba] in a block state table. *)
Definition bstate (bs : list Z) (ba : Z) : Z :=
  Z.land (Z.shiftr (nth (Z.to_nat (ba / 16)) bs 0) (2 * (ba mod 16))) 3.

Definition good (bs : list Z) (ba : Z) : Prop := bstate bs ba = BLOCK_ST_GOOD.
#[export] Instance good_dec bs ba : Decision (good bs ba).
Proof. unfold good. apply _. Defined.

(** The number of good blocks among the first [bc]. *)
Definition good_count (bs : list Z) (bc : Z) : nat :=
  length (filter (good bs) (seqZ 0 bc)).

Lemma good_count_le bs bc : (good_count bs bc <= Z.to_nat bc)%nat.
Proof. unfold good_count. rewrite length_filter, length_seqZ. done. Qed.

Section spec.
Context {chip : Type}.

(** * Geometry

    What [nmbm_init_structure] establishes (see [init_geometry_ok]). *)
Record geom_ok (g : nmbm_geometry chip) : Prop := {
  geo_shift : 0 <= erasesize_shift g < 32;
  geo_wshift : 0 <= writesize_shift g <= erasesize_shift g;
  geo_erasesize : erasesize (lower g) = 2 ^ erasesize_shift g;
  geo_writesize : writesize (lower g) = 2 ^ writesize_shift g;
  geo_wmask : writesize_mask g = 2 ^ writesize_shift g - 1;
  geo_emask : erasesize_mask g = 2 ^ erasesize_shift g - 1;
  geo_oob : 0 < oobsize (lower g);
  geo_rawpage : rawpage_size g = writesize (lower g) + oobsize (lower g);
  geo_count : 0 < block_count g < 2 ^ 29;
  geo_chip : block_count g * erasesize (lower g) < 2 ^ 64;
  geo_state : state_table_size g = 4 * ((block_count g + 15) / 16);
  geo_mapping : mapping_table_size g = 4 * block_count g;
  geo_table : sizeof_nmbm_info_table_header <= info_table_size g < 2 ^ 31;
  geo_spare : 0 <= info_table_spare_blocks g < 2 ^ 31
}.

(** * The lower device *)

(** A buffer passed to the device stays where it is and keeps its size. *)
Definition same_shape (b b' : option (list Z)) : Prop :=
  length <$> b = length <$> b'.

(** What NMBM expects of the lower device: the callbacks it calls are there, and
    [read_page] fills the buffers it is given. *)
Class lower_contract (d : nmbm_lower_device chip) : Prop := {
  lc_read : exists f, read_page d = Some f /\
    forall addr data oob mode c r data' oob' c',
      f addr data oob mode c = (r, data', oob', c') ->
      same_shape data data' /\ same_shape oob oob';
  lc_write : Z.land (flags d) NMBM_F_READ_ONLY = 0 -> is_Some (write_page d);
  lc_erase : Z.land (flags d) NMBM_F_READ_ONLY = 0 -> is_Some (erase_block d)
}.

(** One call of a callback.  Calls that change the contents of the chip (write,
    erase, mark bad) are confined to the blocks of [B]. *)
Inductive dev_step (g : nmbm_geometry chip) (B : Z -> Prop) : chip -> chip -> Prop :=
| step_reset f c r c' :
    reset_chip (lower g) = Some f -> f c = (r, c') -> dev_step g B c c'
| step_read f addr data oob mode c r data' oob' c' :
    read_page (lower g) = Some f ->
    f addr data oob mode c = (r, data', oob', c') -> dev_step g B c c'
| step_is_bad f addr c r c' :
    is_bad_block (lower g) = Some f -> f addr c = (r, c') -> dev_step g B c c'
| step_write f addr data oob mode c r c' :
    write_page (lower g) = Some f -> B (addr / erasesize (lower g)) ->
    f addr data oob mode c = (r, c') -> dev_step g B c c'
| step_erase f addr c r c' :
    erase_block (lower g) = Some f -> B (addr / erasesize (lower g)) ->
    f addr c = (r, c') -> dev_step g B c c'
| step_mark_bad f addr c r c' :
    mark_bad_block (lower g) = Some f -> B (addr / erasesize (lower g)) ->
    f addr c = (r, c') -> dev_step g B c c'.

Definition dev_steps (g : nmbm_geometry chip) (B : Z -> Prop) : chip -> chip -> Prop :=
  rtc (dev_step g B).

Lemma dev_steps_mono g (B B' : Z -> Prop) c c' :
  (forall b, B b -> B' b) -> dev_steps g B c c' -> dev_steps g B' c c'.
Proof.
  intros HB. induction 1 as [|c1 c2 c3 Hs _ IH]; [constructor|].
  econstructor; [|exact IH]. inversion Hs; subst;
    [eapply step_reset|eapply step_read|eapply step_is_bad|eapply step_write
    |eapply step_erase|eapply step_mark_bad]; eauto.
Qed.

(** * States *)

Record bs_ok (g : nmbm_geometry chip) (bs : list Z) : Prop := {
  bs_length : Z.of_nat (length bs) = state_table_size g / 4;
  bs_words : Forall (fun w => 0 <= w < 2 ^ 32) bs
}.

(** What the chip and block level operations need. *)
Record st_ok (g : nmbm_geometry chip) (s : nst chip) : Prop := {
  st_geo : geo (ni s) = g;
  st_cache : Z.of_nat (length (page_cache (ni s))) = rawpage_size g;
  st_bs : bs_ok g (block_state (ni s));
  st_changed : 0 <= block_state_changed (ni s) < 2 ^ 32
}.

(** An operation that only talks to the chip: besides the chip only the page
    cache changes. *)
Definition chip_rel (g : nmbm_geometry chip) (B : Z -> Prop) (s s' : nst chip) : Prop :=
  dev_steps g B (dev s) (dev s') /\
  length (page_cache (ni s')) = length (page_cache (ni s)) /\
  ni s' = set_page_cache (page_cache (ni s')) (ni s).

(** A change of the block state table: blocks of [B] go from good to bad, and
    when the table or its change counter changed at all, the number of good
    blocks went down. *)
Definition bs_rel (bc : Z) (B : Z -> Prop) (bs : list Z) (sc : Z) (bs' : list Z) (sc' : Z) : Prop :=
  (forall b, 0 <= b < bc ->
     bstate bs' b = bstate bs b \/
     (B b /\ bstate bs b = BLOCK_ST_GOOD /\ bstate bs' b = BLOCK_ST_BAD)) /\
  (bs' = bs /\ sc' = sc \/ (good_count bs' bc < good_count bs bc)%nat).

(** An operation on management blocks: chip, page cache and block states
    change. *)
Record blk_rel (g : nmbm_geometry chip) (B : Z -> Prop) (s s' : nst chip) : Prop := {
  br_dev : dev_steps g B (dev s) (dev s');
  br_ok : st_ok g s';
  br_ni : ni s' = set_page_cache (page_cache (ni s'))
                    (set_block_state (block_state (ni s'))
                       (set_block_state_changed (block_state_changed (ni s')) (ni s)));
  br_bs : bs_rel (block_count g) B (block_state (ni s)) (block_state_changed (ni s))
            (block_state (ni s')) (block_state_changed (ni s'))
}.

(** The blocks from [a] on and below [b]. *)
Definition blocks_in (a b : Z) : Z -> Prop := fun x => a <= x < b.

Lemma set_page_cache_eta (n : nmbm_instance chip) : set_page_cache (page_cache n) n = n.
Proof. by destruct n. Qed.

Lemma set_bs_eta (n : nmbm_instance chip) :
  set_page_cache (page_cache n)
    (set_block_state (block_state n) (set_block_state_changed (block_state_changed n) n)) = n.
Proof. by destruct n. Qed.

Lemma chip_rel_refl g B s : chip_rel g B s s.
Proof. split_and!; [constructor|done|by rewrite set_page_cache_eta]. Qed.

Lemma chip_rel_trans g B s1 s2 s3 : chip_rel g B s1 s2 -> chip_rel g B s2 s3 -> chip_rel g B s1 s3.
Proof.
  intros (H1 & H2 & H3) (H4 & H5 & H6). split_and!.
  - by transitivity (dev s2).
  - congruence.
  - rewrite H6, H3. done.
Qed.

Lemma chip_rel_mono g (B B' : Z -> Prop) s s' :
  (forall b, B b -> B' b) -> chip_rel g B s s' -> chip_rel g B' s s'.
Proof. intros HB (H1 & H2 & H3). split_and!; eauto using dev_steps_mono. Qed.

Lemma st_ok_chip_rel g B s s' : st_ok g s -> chip_rel g B s s' -> st_ok g s'.
Proof.
  intros [H1 H2 H3 H4] (_ & H5 & H6).
  split; [|by rewrite H5|..]; rewrite H6; done.
Qed.

Lemma bs_rel_refl bc B bs sc : bs_rel bc B bs sc bs sc.
Proof. split; eauto. Qed.

Lemma bs_rel_good_le bc B bs sc bs' sc' :
  bs_rel bc B bs sc bs' sc' -> (good_count bs' bc <= good_count bs bc)%nat.
Proof. intros [_ [[-> _]|H]]; lia. Qed.

Lemma bs_rel_trans bc (B : Z -> Prop) bs1 sc1 bs2 sc2 bs3 sc3 :
  bs_rel bc B bs1 sc1 bs2 sc2 -> bs_rel bc B bs2 sc2 bs3 sc3 -> bs_rel bc B bs1 sc1 bs3 sc3.
Proof.
  intros [Ha Hb] [Hc Hd]. split.
  - intros b Hbc. specialize (Ha b Hbc). specialize (Hc b Hbc).
    destruct Ha as [Ha|(?&?&?)], Hc as [Hc|(?&?&?)]; [left; congruence|..]; right;
      split_and!; try done; congruence.
  - destruct Hb as [[-> ->]|?], Hd as [[-> ->]|?]; eauto; right; lia.
Qed.

Lemma bs_rel_mono bc (B B' : Z -> Prop) bs sc bs' sc' :
  (forall b, B b -> B' b) -> bs_rel bc B bs sc bs' sc' -> bs_rel bc B' bs sc bs' sc'.
Proof. intros HB [H1 H2]. split; [|done]. intros b Hb. destruct (H1 b Hb) as [?|(?&?&?)]; eauto. Qed.

Lemma blk_rel_refl g B s : st_ok g s -> blk_rel g B s s.
Proof.
  intros. split; [constructor|done|by rewrite set_bs_eta|apply bs_rel_refl].
Qed.

Lemma blk_rel_trans g B s1 s2 s3 : blk_rel g B s1 s2 -> blk_rel g B s2 s3 -> blk_rel g B s1 s3.
Proof.
  intros [A1 A2 A3 A4] [B1 B2 B3 B4]. split.
  - by transitivity (dev s2).
  - done.
  - rewrite B3, A3. done.
  - eauto using bs_rel_trans.
Qed.

Lemma blk_rel_mono g (B B' : Z -> Prop) s s' :
  (forall b, B b -> B' b) -> blk_rel g B s s' -> blk_rel g B' s s'.
Proof. intros HB [A1 A2 A3 A4]. split; eauto using dev_steps_mono, bs_rel_mono. Qed.

Lemma chip_blk_rel g B s s' : st_ok g s -> chip_rel g B s s' -> blk_rel g B s s'.
Proof.
  intros Hok Hrel. pose proof (st_ok_chip_rel _ _ _ _ Hok Hrel) as Hok'.
  destruct Hrel as (H1 & H2 & H3). split; [done|done|..].
  - rewrite H3. by destruct (ni s).
  - rewrite H3. apply bs_rel_refl.
Qed.

End spec.

#[export] Hint Resolve chip_rel_refl blk_rel_refl bs_rel_refl : nmbm.

(** * The block state bitmap *)

Lemma testbit_3 n : 0 <= n -> Z.testbit 3 n = (n <? 2).
Proof.
  intros. destruct (Z.ltb_spec n 2).
  - assert (n = 0 \/ n = 1) as [->| ->] by lia; done.
  - apply Z.bits_above_log2; [done|]. change (Z.log2 3) with 1. lia.
Qed.

Lemma testbit_u32 z n : 0 <= n < 32 -> Z.testbit (u32 z) n = Z.testbit z n.
Proof. intros. unfold u32. apply Z.mod_pow2_bits_low. lia. Qed.

Lemma testbit_shl_lt z sh n : n < sh -> Z.testbit (Z.shiftl z sh) n = false.
Proof. intros. apply Z.shiftl_spec_low. lia. Qed.

(** Writing the field of one block leaves those of the others alone. *)
Lemma bitmap_set_word w st j k :
  0 <= j < 16 -> 0 <= k < 16 ->
  Z.land (Z.shiftr
    (Z.lor (Z.land w (u32 (Z.lnot (u32 (Z.shiftl 3 (2 * k))))))
       (u32 (Z.shiftl (Z.land st 3) (2 * k)))) (2 * j)) 3 =
  if j =? k then Z.land st 3 else Z.land (Z.shiftr w (2 * j)) 3.
Proof.
  intros Hj Hk. apply Z.bits_inj'. intros n Hn.
  rewrite Z.land_spec, testbit_3 by done.
  destruct (Z.ltb_spec n 2) as [Hn2|Hn2].
  - rewrite andb_true_r, Z.shiftr_spec, Z.lor_spec, Z.land_spec by done.
    rewrite !testbit_u32, Z.lnot_spec, testbit_u32 by lia.
    destruct (Z.eqb_spec j k) as [->|Hjk].
    + rewrite !Z.shiftl_spec by lia. replace (n + 2 * k - 2 * k) with n by lia.
      rewrite Z.land_spec, testbit_3 by lia.
      destruct (Z.ltb_spec n 2); [|lia]. cbn. by rewrite andb_false_r.
    + rewrite Z.land_spec, Z.shiftr_spec, testbit_3 by lia.
      destruct (Z.ltb_spec n 2); [|lia]. rewrite andb_true_r.
      destruct (Z_lt_le_dec (n + 2 * j) (2 * k)).
      * rewrite !testbit_shl_lt by lia. by rewrite andb_true_r, orb_false_r.
      * rewrite !Z.shiftl_spec, Z.land_spec, testbit_3 by lia.
        destruct (Z.ltb_spec (n + 2 * j - 2 * k) 2); [lia|].
        by rewrite andb_true_r, andb_false_r, orb_false_r.
  - rewrite andb_false_r. destruct (j =? k); rewrite Z.land_spec, testbit_3 by done;
      (destruct (Z.ltb_spec n 2); [lia|]; by rewrite andb_false_r).
Qed.

Lemma lor_range a b : 0 <= a < 2 ^ 32 -> 0 <= b < 2 ^ 32 -> 0 <= Z.lor a b < 2 ^ 32.
Proof.
  intros Ha Hb. split; [apply Z.lor_nonneg; lia|].
  destruct (Z.eq_dec (Z.lor a b) 0) as [->|Hne]; [lia|].
  apply Z.log2_lt_pow2; [assert (0 <= Z.lor a b) by (apply Z.lor_nonneg; lia); lia|].
  rewrite Z.log2_lor by lia.
  destruct (Z.eq_dec a 0) as [->|], (Z.eq_dec b 0) as [->|]; cbn; try lia;
    repeat match goal with
    | H : 0 <= ?x < 2 ^ 32, Hx : ?x <> 0 |- _ =>
        assert (Z.log2 x < 32) by (apply Z.log2_lt_pow2; lia); clear H
    end; lia.
Qed.

Lemma land_u32_range a b : 0 <= a < 2 ^ 32 -> 0 <= Z.land a b < 2 ^ 32.
Proof.
  intros Ha. split; [apply Z.land_nonneg; lia|].
  rewrite <- (Z.mod_small a (2 ^ 32)) by lia.
  rewrite <- Z.land_ones, (Z.land_comm _ (Z.ones 32)), <- Z.land_assoc, Z.land_comm,
    Z.land_ones by lia.
  apply Z.mod_pos_bound. lia.
Qed.

Section bitmap.
Context {chip : Type} (g : nmbm_geometry chip) (Hg : geom_ok g).

Lemma bitmap_unit_lt bs ba :
  bs_ok g bs -> 0 <= ba < block_count g -> 0 <= ba / 16 < Z.of_nat (length bs).
Proof using Hg.
  intros [Hl _] Hba. rewrite Hl, (geo_state g Hg).
  rewrite (Z.mul_comm 4), Z.div_mul by lia.
  assert (ba / 16 <= (block_count g - 1) / 16) by (apply Z.div_le_mono; lia).
  replace (block_count g + 15) with (block_count g - 1 + 1 * 16) by lia.
  rewrite Z.div_add by lia. split; [apply Z.div_pos|]; lia.
Qed.

Lemma bitmap_shift ba :
  u32 ((ba mod NMBM_BITMAP_BLOCKS_PER_UNIT) * NMBM_BITMAP_BITS_PER_BLOCK) = 2 * (ba mod 16).
Proof.
  change NMBM_BITMAP_BLOCKS_PER_UNIT with 16. change NMBM_BITMAP_BITS_PER_BLOCK with 2.
  pose proof (Z.mod_pos_bound ba 16). rewrite u32_small; lia.
Qed.

Lemma wp_get_block_state_raw bs ba (Q : Z -> nst chip -> Prop) s :
  bs_ok g bs -> 0 <= ba < block_count g -> Q (bstate bs ba) s ->
  wp (nmbm_get_block_state_raw bs ba) Q s.
Proof using Hg.
  intros Hbs Hba HQ. unfold nmbm_get_block_state_raw. apply wp_bind.
  change (ba / NMBM_BITMAP_BLOCKS_PER_UNIT) with (ba / 16).
  apply wp_arr_get; [by apply bitmap_unit_lt|]. intros v Hv. apply wp_ret.
  unfold bstate in HQ. rewrite bitmap_shift.
  rewrite (nth_lookup_Some _ _ _ _ Hv) in HQ. done.
Qed.

Lemma wp_get_block_state ba (Q : Z -> nst chip -> Prop) s :
  st_ok g s -> 0 <= ba < block_count g -> Q (bstate (block_state (ni s)) ba) s ->
  wp (nmbm_get_block_state ba) Q s.
Proof using Hg.
  intros Hs Hba HQ. unfold nmbm_get_block_state. apply wp_bind, wp_gets.
  apply wp_get_block_state_raw; [apply Hs|done|done].
Qed.

(** The table after [nmbm_set_block_state]. *)
Definition bs_set (bs : list Z) (ba state : Z) : list Z :=
  let k := ba mod 16 in
  let w := nth (Z.to_nat (ba / 16)) bs 0 in
  <[Z.to_nat (ba / 16) :=
      Z.lor (Z.land w (u32 (Z.lnot (u32 (Z.shiftl 3 (2 * k))))))
        (u32 (Z.shiftl (Z.land state 3) (2 * k)))]> bs.

Lemma bs_set_ok bs ba state : bs_ok g bs -> bs_ok g (bs_set bs ba state).
Proof using.
  intros [Hl Hw]. unfold bs_set. split; [by rewrite length_insert|].
  apply Forall_insert; [done|]. apply lor_range; [|apply u32_range].
  apply land_u32_range.
  destruct (bs !! Z.to_nat (ba / 16)) as [v|] eqn:E.
  - rewrite (nth_lookup_Some _ _ _ _ E). by eapply Forall_lookup_1 in Hw.
  - rewrite nth_overflow; [lia|]. by apply lookup_ge_None in E.
Qed.

(** Reading a block state after writing one. *)
Lemma bstate_set bs ba state b :
  bs_ok g bs -> 0 <= ba < block_count g -> 0 <= b < block_count g ->
  bstate (bs_set bs ba state) b = if b =? ba then Z.land state 3 else bstate bs b.
Proof using Hg.
  intros Hbs Hba Hb. unfold bstate, bs_set.
  pose proof (bitmap_unit_lt bs ba Hbs Hba) as Hu.
  pose proof (Z.div_mod ba 16). pose proof (Z.div_mod b 16).
  destruct (Z.eq_dec (b / 16) (ba / 16)) as [Heq|Hne].
  - rewrite Heq. erewrite nth_lookup_Some by (apply list_lookup_insert_eq; lia).
    rewrite bitmap_set_word by (apply Z.mod_pos_bound; lia).
    destruct (Z.eqb_spec (b mod 16) (ba mod 16)), (Z.eqb_spec b ba); try done; subst; lia.
  - rewrite !nth_lookup, list_lookup_insert_ne.
    + destruct (Z.eqb_spec b ba); [subst; lia|done].
    + pose proof (bitmap_unit_lt bs b Hbs Hb). lia.
Qed.

Lemma bstate_range bs b : 0 <= bstate bs b <= 3.
Proof using.
  unfold bstate. set (x := Z.shiftr _ _).
  assert (Z.land x 3 = x mod 2 ^ 2) as -> by (apply (Z.land_ones x 2); lia).
  pose proof (Z.mod_pos_bound x (2 ^ 2)). lia.
Qed.

(** [nmbm_set_block_state] stores the state, counts a change and reports it. *)
Lemma wp_set_block_state ba state (Q : bool -> nst chip -> Prop) s :
  st_ok g s -> 0 <= ba < block_count g ->
  (let bs := block_state (ni s) in
   let sc := block_state_changed (ni s) in
   let bs' := bs_set bs ba state in
   let n := set_block_state bs' (ni s) in
   if bstate bs ba =? Z.land state 3 then Q false (mk_nst n (dev s))
   else Q true (mk_nst (set_block_state_changed (u32 (sc + 1)) n) (dev s))) ->
  wp (nmbm_set_block_state ba state) Q s.
Proof using Hg.
  intros Hs Hba HQ. unfold nmbm_set_block_state. rewrite bitmap_shift.
  apply wp_bind, wp_gets, wp_bind.
  change (ba / NMBM_BITMAP_BLOCKS_PER_UNIT) with (ba / 16).
  change BLOCK_ST_MASK with 3.
  apply wp_arr_get; [apply bitmap_unit_lt; [apply Hs|done]|]. intros v Hv.
  cbn in HQ. unfold bs_set, bstate in HQ. rewrite !(nth_lookup_Some _ _ _ _ Hv) in HQ.
  apply wp_bind, wp_modify.
  destruct (Z.land (Z.shiftr v (2 * (ba mod 16))) 3 =? Z.land state 3); cbn [negb].
  - apply wp_ret. done.
  - apply wp_bind, wp_gets, wp_bind, wp_modify, wp_ret. done.
Qed.

(** A block that is set from good to bad. *)
Lemma bs_rel_set_bad (B : Z -> Prop) bs sc sc' ba :
  bs_ok g bs -> 0 <= ba < block_count g -> B ba -> bstate bs ba = BLOCK_ST_GOOD ->
  bs_rel (block_count g) B bs sc (bs_set bs ba BLOCK_ST_BAD) sc'.
Proof using Hg.
  intros Hbs Hba HB Hgood. split.
  - intros b Hb. rewrite bstate_set by done.
    destruct (Z.eqb_spec b ba) as [->|]; [|by left]. right. done.
  - right. apply (filter_length_lt _ _ _ ba).
    + intros b Hb. apply elem_of_seqZ in Hb. unfold good. rewrite bstate_set by (done || lia).
      destruct (Z.eqb_spec b ba) as [->|]; done.
    + apply elem_of_seqZ. lia.
    + done.
    + unfold good. rewrite bstate_set, Z.eqb_refl by done. done.
Qed.

Lemma blk_rel_set_bad (B : Z -> Prop) s ba :
  st_ok g s -> 0 <= ba < block_count g -> B ba ->
  bstate (block_state (ni s)) ba = BLOCK_ST_GOOD ->
  wp (nmbm_set_block_state ba BLOCK_ST_BAD)
    (fun _ s' => blk_rel g B s s' /\ bstate (block_state (ni s')) ba = BLOCK_ST_BAD) s.
Proof using Hg.
  intros Hs Hba HB Hgood. apply wp_set_block_state; [done|done|]. cbn.
  rewrite Hgood. destruct Hs as [H1 H2 H3 H4]. cbn. split.
  - split; cbn; [constructor|split; cbn|by destruct (ni s)|by apply bs_rel_set_bad];
      try done; [by apply bs_set_ok|apply u32_range].
  - by rewrite bstate_set, Z.eqb_refl.
Qed.
End bitmap.
