(* ===== verification/NmbmBlockSpec.v ===== *)
(** Specifications of the chip and block level operations of NMBM: they return,
    stay inside the page cache and the block tables, change only the blocks
    they are meant to change, and only ever turn good blocks into bad ones. *)

From stdpp Require Import base list numbers sets relations.
From Stdlib Require Import ZArith Lia.
From S2P Require Import Prelude NmbmTypes NmbmChip NmbmBlocks NmbmSpec.
Local Open Scope Z_scope.
Local Open Scope cprog_scope.

Section block_spec.
Context {chip : Type} (g : nmbm_geometry chip).
Context (Hg : geom_ok g) `{Hl : !lower_contract (lower g)}.
Abbreviation prog := (M (nst chip)).
Abbreviation RO := (flag_set g NMBM_F_READ_ONLY).

(** * Addresses *)

Lemma pow_shift_pos : 0 < 2 ^ erasesize_shift g.
Proof using Hg. pose proof (geo_shift g Hg). apply Z.pow_pos_nonneg; lia. Qed.

Lemma writesize_pos : 0 < writesize (lower g).
Proof using Hg.
  rewrite (geo_writesize g Hg). pose proof (geo_wshift g Hg). apply Z.pow_pos_nonneg; lia.
Qed.

(** Pages per block. *)
Definition pages : Z := 2 ^ (erasesize_shift g - writesize_shift g).

Lemma pages_pos : 0 < pages.
Proof using Hg. pose proof (geo_wshift g Hg). apply Z.pow_pos_nonneg; lia. Qed.

Lemma erasesize_pages : erasesize (lower g) = pages * writesize (lower g).
Proof using Hg.
  rewrite (geo_writesize g Hg), (geo_erasesize g Hg). unfold pages.
  pose proof (geo_wshift g Hg). rewrite <- Z.pow_add_r by lia. f_equal. lia.
Qed.

Lemma erasesize_pos : 0 < erasesize (lower g).
Proof using Hg. rewrite (geo_erasesize g Hg). apply pow_shift_pos. Qed.

Lemma erasesize_lt : erasesize (lower g) < 2 ^ 32.
Proof using Hg.
  rewrite (geo_erasesize g Hg). pose proof (geo_shift g Hg). apply Z.pow_lt_mono_r; lia.
Qed.

Lemma writesize_le : writesize (lower g) <= erasesize (lower g).
Proof using Hg. rewrite erasesize_pages. pose proof pages_pos. pose proof writesize_pos. nia. Qed.

Lemma ba2addr_eq ba :
  0 <= ba < block_count g -> ba2addr g ba = ba * erasesize (lower g).
Proof using Hg.
  intros Hba. unfold ba2addr. pose proof (geo_shift g Hg).
  rewrite Z.shiftl_mul_pow2, <- (geo_erasesize g Hg) by lia.
  apply u64_small. pose proof (geo_chip g Hg). pose proof erasesize_pos. nia.
Qed.

(** A page address inside a block, and the block it lies in. *)
Lemma block_addr ba off :
  0 <= ba < block_count g -> 0 <= off < erasesize (lower g) ->
  u64 (ba2addr g ba + off) = ba * erasesize (lower g) + off.
Proof using Hg.
  intros Hba Hoff. rewrite ba2addr_eq by done. apply u64_small.
  pose proof (geo_chip g Hg). pose proof erasesize_pos. nia.
Qed.

Lemma block_addr_div ba off :
  0 <= ba < block_count g -> 0 <= off < erasesize (lower g) ->
  u64 (ba2addr g ba + off) / erasesize (lower g) = ba.
Proof using Hg.
  intros Hba Hoff. rewrite block_addr by done.
  rewrite Z.div_add_l, Z.div_small by lia. lia.
Qed.

Lemma ba2addr_div ba :
  0 <= ba < block_count g -> ba2addr g ba / erasesize (lower g) = ba.
Proof using Hg.
  intros Hba. rewrite ba2addr_eq by done. pose proof erasesize_pos.
  apply Z.div_mul. lia.
Qed.

(** * Loops over the pages of a block *)

Lemma page_fuel_eq : page_fuel g = S (Z.to_nat pages).
Proof using Hg.
  unfold page_fuel. do 2 f_equal. rewrite erasesize_pages.
  pose proof writesize_pos.
  replace (pages * writesize (lower g) + writesize (lower g) - 1)
    with (pages * writesize (lower g) + (writesize (lower g) - 1)) by lia.
  rewrite Z.div_add_l, Z.div_small by lia. lia.
Qed.

Lemma wp_page_loop {R} (I : Z -> nst chip -> Prop) (body : Z -> prog (Z + R)) Q s :
  (forall off s, 0 <= off -> off + writesize (lower g) <= erasesize (lower g) -> I off s ->
     wp (body off) (fun r s' =>
       match r with
       | inl off' => off' = off + writesize (lower g) /\ I off' s'
       | inr r => Q r s'
       end) s) ->
  (forall s, I (erasesize (lower g)) s ->
     wp (body (erasesize (lower g)))
       (fun r s' => match r with inl _ => False | inr r => Q r s' end) s) ->
  I 0 s -> wp (loop (page_fuel g) body 0) Q s.
Proof using Hg.
  intros Hbody Hend HI. rewrite page_fuel_eq. pose proof pages_pos. pose proof writesize_pos.
  set (J := fun off s => exists k, off = k * writesize (lower g) /\ 0 <= k <= pages /\ I off s).
  set (meas := fun (off : Z) (_ : nst chip) => Z.to_nat (pages - off / writesize (lower g))).
  apply (wp_loop J meas).
  - intros off s' (k & -> & Hk & HI'). destruct (Z.eq_dec k pages) as [->|Hne].
    + rewrite <- erasesize_pages in *. eapply wp_mono; [by apply Hend|].
      intros [?|?] s''; [done|done].
    + eapply wp_mono; [apply Hbody; [nia|rewrite erasesize_pages; nia|done]|].
      intros [off'|r] s''; [|done]. intros [-> HI'']. split.
      * exists (k + 1). split_and!; [lia|lia|lia|done].
      * unfold meas. replace (k * writesize (lower g) + writesize (lower g))
          with ((k + 1) * writesize (lower g)) by lia.
        rewrite !Z.div_mul by lia. lia.
  - exists 0. split_and!; [lia|lia|lia|done].
  - unfold meas. rewrite Z.div_0_l by lia. lia.
Qed.

(** * Calls of the lower device *)

Lemma same_shape_refl b : same_shape b b.
Proof. done. Qed.

Lemma chip_rel_dev B s c :
  dev_step g B (dev s) c -> chip_rel g B s (set_dev c s).
Proof.
  intros Hs. split_and!; cbn; [by apply rtc_once|done|by rewrite set_page_cache_eta].
Qed.

Lemma wp_call_read_page B addr data oob mode s :
  st_ok g s ->
  wp (call_read_page addr data oob mode)
    (fun '(_, data', oob') s' =>
       chip_rel g B s s' /\ same_shape data data' /\ same_shape oob oob') s.
Proof using Hl.
  intros Hs. unfold call_read_page. apply wp_bind, wp_gets.
  rewrite (st_geo _ _ Hs). destruct lc_read as (f & Hf & Hshape). rewrite Hf.
  unfold wp. destruct (f addr data oob mode (dev s)) as [[[r data'] oob'] c'] eqn:E.
  destruct (Hshape _ _ _ _ _ _ _ _ _ E) as [H1 H2].
  split_and!; [|done|done]. eapply chip_rel_dev, step_read; eauto.
Qed.

Lemma wp_reset_chip B s : st_ok g s -> wp nmbm_reset_chip (fun _ s' => chip_rel g B s s') s.
Proof using.
  intros Hs. unfold nmbm_reset_chip. apply wp_bind, wp_gets.
  rewrite (st_geo _ _ Hs). destruct (reset_chip (lower g)) as [f|] eqn:Hf.
  - unfold wp. destruct (f (dev s)) as [r c'] eqn:E. eapply chip_rel_dev, step_reset; eauto.
  - apply wp_ret, chip_rel_refl.
Qed.

Lemma flag_set_false f : flag_set g f = false -> Z.land (flags (lower g)) f = 0.
Proof. unfold flag_set. destruct (Z.eqb_spec (Z.land (flags (lower g)) f) 0); done. Qed.

Lemma wp_call_write_page (B : Z -> Prop) addr data oob mode s :
  st_ok g s -> RO = false -> B (addr / erasesize (lower g)) ->
  wp (call_write_page addr data oob mode) (fun _ s' => chip_rel g B s s') s.
Proof using Hl.
  intros Hs HRO HB. unfold call_write_page. apply wp_bind, wp_gets.
  rewrite (st_geo _ _ Hs). destruct (lc_write (flag_set_false _ HRO)) as [f Hf]. rewrite Hf.
  unfold wp. destruct (f addr data oob mode (dev s)) as [r c'] eqn:E.
  eapply chip_rel_dev, step_write; eauto.
Qed.

Lemma wp_nmbm_read_phys_page B addr data oob mode s :
  st_ok g s ->
  wp (nmbm_read_phys_page addr data oob mode)
    (fun '(_, data', oob') s' =>
       chip_rel g B s s' /\ same_shape data data' /\ same_shape oob oob') s.
Proof using Hl.
  intros Hs. unfold nmbm_read_phys_page.
  eapply (wp_loop
    (fun '(tries, _, data', oob') s' => 0 <= tries <= NMBM_TRY_COUNT /\
       chip_rel g B s s' /\ same_shape data data' /\ same_shape oob oob')
    (fun '(tries, _, _, _) _ => Z.to_nat (NMBM_TRY_COUNT - tries))).
  - intros [[[tries r] d] o] s' (Ht & Hrel & Hd & Ho).
    assert (st_ok g s') as Hs' by eauto using st_ok_chip_rel.
    destruct (Z.ltb_spec tries NMBM_TRY_COUNT); [|apply wp_ret; done].
    apply wp_bind. wp_call (wp_call_read_page B); [done|].
    intros [[r' d'] o'] s1 (Hrel1 & Hd1 & Ho1). 
    assert (chip_rel g B s s1) by eauto using chip_rel_trans.
    assert (same_shape data d' /\ same_shape oob o') as [? ?]
      by (unfold same_shape in *; split; congruence).
    destruct (r' >=? 0); [apply wp_ret; done|].
    apply wp_bind. wp_call (wp_reset_chip B); [eauto using st_ok_chip_rel|].
    intros _ s2 Hrel2. apply wp_ret. split; [|lia].
    split_and!; [lia|lia|eauto using chip_rel_trans|done|done].
  - split_and!; [done|done|apply chip_rel_refl|done|done].
  - cbn. lia.
Qed.

Lemma wp_nmbm_write_phys_page (B : Z -> Prop) addr data oob mode s :
  st_ok g s -> (RO = false -> B (addr / erasesize (lower g))) ->
  wp (nmbm_write_phys_page addr data oob mode) (fun _ s' => chip_rel g B s s') s.
Proof using Hl.
  intros Hs HB. unfold nmbm_write_phys_page. apply wp_bind, wp_gets.
  rewrite (st_geo _ _ Hs). destruct RO eqn:HRO; [apply wp_ret, chip_rel_refl|].
  eapply (wp_loop (fun tries s' => 0 <= tries <= NMBM_TRY_COUNT /\ chip_rel g B s s')
    (fun tries _ => Z.to_nat (NMBM_TRY_COUNT - tries))).
  - intros tries s' (Ht & Hrel).
    destruct (Z.ltb_spec tries NMBM_TRY_COUNT); [|apply wp_ret; done].
    apply wp_bind. wp_call (wp_call_write_page B); [eauto using st_ok_chip_rel|done|auto|].
    intros r s1 Hrel1. destruct (r =? 0); [apply wp_ret; eauto using chip_rel_trans|].
    apply wp_bind. wp_call (wp_reset_chip B); [eauto using st_ok_chip_rel, chip_rel_trans|].
    intros _ s2 Hrel2. apply wp_ret. split; [|lia].
    split; [lia|eauto using chip_rel_trans].
  - split; [done|apply chip_rel_refl].
  - cbn. lia.
Qed.

Lemma wp_nmbm_erase_phys_block (B : Z -> Prop) addr s :
  st_ok g s -> (RO = false -> B (addr / erasesize (lower g))) ->
  wp (nmbm_erase_phys_block addr) (fun _ s' => chip_rel g B s s') s.
Proof using Hl.
  intros Hs HB. unfold nmbm_erase_phys_block. apply wp_bind, wp_gets.
  rewrite (st_geo _ _ Hs). destruct RO eqn:HRO; [apply wp_ret, chip_rel_refl|].
  destruct (lc_erase (flag_set_false _ HRO)) as [f Hf]. rewrite Hf.
  eapply (wp_loop (fun tries s' => 0 <= tries <= NMBM_TRY_COUNT /\ chip_rel g B s s')
    (fun tries _ => Z.to_nat (NMBM_TRY_COUNT - tries))).
  - intros tries s' (Ht & Hrel).
    destruct (Z.ltb_spec tries NMBM_TRY_COUNT); [|apply wp_ret; done].
    assert (st_ok g s') by eauto using st_ok_chip_rel.
    apply wp_bind. unfold wp at 1, call_block_fn.
    destruct (f addr (dev s')) as [r c'] eqn:E.
    assert (chip_rel g B s' (set_dev c' s')) as Hrel1
      by (eapply chip_rel_dev, step_erase; eauto).
    destruct (r =? 0); [apply wp_ret; eauto using chip_rel_trans|].
    apply wp_bind. wp_call (wp_reset_chip B); [eauto using st_ok_chip_rel|].
    intros _ s2 Hrel2. apply wp_ret. split; [|lia].
    split; [lia|eauto using chip_rel_trans].
  - split; [done|apply chip_rel_refl].
  - cbn. lia.
Qed.

(** * The page cache *)

Lemma wp_cache_put (B : Z -> Prop) off bytes s :
  st_ok g s -> 0 <= off -> off + Z.of_nat (length bytes) <= rawpage_size g ->
  wp (cache_put off bytes)
    (fun _ s' => chip_rel g B s s' /\ page_cache (ni s') = blit (page_cache (ni s)) off bytes) s.
Proof using.
  intros Hs Ho Hle. unfold cache_put. apply wp_bind, wp_gets.
  pose proof (st_cache _ _ Hs).
  rewrite in_bounds_true by lia. apply wp_modify.
  split; [split_and!|]; cbn; [constructor| |done|done]. apply length_blit; lia.
Qed.

Lemma wp_cache_get off len (Q : list Z -> nst chip -> Prop) s :
  st_ok g s -> 0 <= off -> 0 <= len -> off + len <= rawpage_size g ->
  Q (slice (page_cache (ni s)) off len) s -> wp (cache_get off len) Q s.
Proof using.
  intros Hs Ho Hlen Hle HQ. unfold cache_get. apply wp_bind, wp_gets.
  pose proof (st_cache _ _ Hs). rewrite in_bounds_true by lia. by apply wp_ret.
Qed.

Lemma length_cache_slice s off len :
  st_ok g s -> 0 <= off -> 0 <= len -> off + len <= rawpage_size g ->
  Z.of_nat (length (slice (page_cache (ni s)) off len)) = len.
Proof using. intros Hs ???. pose proof (st_cache _ _ Hs). apply length_slice; lia. Qed.

Lemma length_default_shape b b' :
  same_shape (Some b) b' -> length (default b b') = length b.
Proof. unfold same_shape. destruct b' as [b'|]; cbn; congruence. Qed.

Lemma wp_read_to_cache (B : Z -> Prop) addr mode s :
  st_ok g s -> wp (read_to_cache addr mode) (fun _ s' => chip_rel g B s s') s.
Proof using Hg Hl.
  intros Hs. pose proof writesize_pos. pose proof (geo_oob g Hg). pose proof (geo_rawpage g Hg).
  unfold read_to_cache. apply wp_bind, wp_gets, wp_bind. rewrite (st_geo _ _ Hs).
  apply wp_cache_get; [done|lia..|]. apply wp_bind.
  wp_call (wp_nmbm_read_phys_page B); [done|]. intros [[r d] o] s1 (Hrel & Hd & _).
  assert (st_ok g s1) by eauto using st_ok_chip_rel.
  apply wp_bind. wp_call (wp_cache_put B); [done|lia| |].
  - rewrite (length_default_shape _ _ Hd), (length_cache_slice _ _ _ Hs); lia.
  - intros _ s2 [Hrel2 _]. apply wp_ret. eauto using chip_rel_trans.
Qed.

(** * Bad block check and mark *)

Lemma wp_nmbm_check_bad_phys_block (B : Z -> Prop) ba s :
  st_ok g s -> wp (nmbm_check_bad_phys_block ba) (fun _ s' => chip_rel g B s s') s.
Proof using Hg Hl.
  intros Hs. pose proof writesize_pos. pose proof (geo_oob g Hg). pose proof (geo_rawpage g Hg).
  unfold nmbm_check_bad_phys_block. apply wp_bind, wp_gets. rewrite (st_geo _ _ Hs).
  destruct (is_bad_block (lower g)) as [f|] eqn:Hf.
  - apply wp_bind. unfold wp at 1, call_block_fn.
    destruct (f (ba2addr g ba) (dev s)) as [r c'] eqn:E. apply wp_ret.
    eapply chip_rel_dev, step_is_bad; eauto.
  - apply wp_bind, wp_cache_get; [done|lia..|]. apply wp_bind.
    wp_call (wp_nmbm_read_phys_page B); [done|]. intros [[r d] o] s1 (Hrel & _ & Ho).
    assert (st_ok g s1) by eauto using st_ok_chip_rel.
    apply wp_bind. wp_call (wp_cache_put B); [done|lia| |].
    { rewrite (length_default_shape _ _ Ho), (length_cache_slice _ _ _ Hs); lia. }
    intros _ s2 [Hrel2 _]. assert (chip_rel g B s s2) by eauto using chip_rel_trans.
    destruct (_ && _); [by apply wp_ret|].
    apply wp_bind, wp_gets, wp_bind, wp_arr_get; [|intros; by apply wp_ret].
    assert (st_ok g s2) as Hs2 by eauto using st_ok_chip_rel.
    rewrite (st_cache _ _ Hs2). lia.
Qed.

Lemma wp_set_log_level (B : Z -> Prop) level s :
  st_ok g s ->
  wp (nmbm_set_log_level level)
    (fun old s' => old = log_display_level (ni s) /\
       s' = mk_nst (set_log_display_level level (ni s)) (dev s) /\ st_ok g s') s.
Proof using.
  intros Hs. unfold nmbm_set_log_level. apply wp_bind, wp_gets, wp_bind, wp_modify, wp_ret.
  split_and!; [done|done|]. destruct Hs. by split.
Qed.

Lemma chip_rel_log_level (B : Z -> Prop) level s s' :
  chip_rel g B (mk_nst (set_log_display_level level (ni s)) (dev s)) s' ->
  chip_rel g B s (mk_nst (set_log_display_level (log_display_level (ni s)) (ni s')) (dev s')).
Proof.
  intros (H1 & H2 & H3). split_and!; cbn in *; [done|done|].
  rewrite H3. by destruct (ni s).
Qed.

Lemma wp_nmbm_mark_phys_bad_block (B : Z -> Prop) ba s :
  st_ok g s -> 0 <= ba < block_count g -> (RO = false -> B ba) ->
  wp (nmbm_mark_phys_bad_block ba) (fun _ s' => chip_rel g B s s') s.
Proof using Hg Hl.
  intros Hs Hba HB. pose proof writesize_pos. pose proof (geo_oob g Hg).
  pose proof (geo_rawpage g Hg). pose proof erasesize_lt. pose proof writesize_le.
  unfold nmbm_mark_phys_bad_block. apply wp_bind, wp_gets. rewrite (st_geo _ _ Hs).
  destruct RO eqn:HRO; [apply wp_ret, chip_rel_refl|].
  destruct (mark_bad_block (lower g)) as [f|] eqn:Hf.
  { unfold wp at 1, call_block_fn. destruct (f (ba2addr g ba) (dev s)) as [r c'] eqn:E.
    eapply chip_rel_dev, step_mark_bad; eauto. rewrite ba2addr_div; auto. }
  apply wp_bind. wp_call (wp_cache_put B); [done|lia|rewrite length_replicate; lia|].
  intros _ s1 [Hrel1 _]. assert (st_ok g s1) by eauto using st_ok_chip_rel.
  apply wp_bind. wp_call (wp_set_log_level B); [done|]. intros old s2 (-> & Hs2 & Hok2).
  apply wp_bind. eapply wp_mono.
  - apply (wp_page_loop (fun _ s' => chip_rel g B s2 s') _ (fun _ s' => chip_rel g B s2 s')).
    + intros off s3 Hoff Hend Hrel3. assert (st_ok g s3) by eauto using st_ok_chip_rel.
      destruct (Z.ltb_spec off (erasesize (lower g))); [|lia].
      apply wp_bind, wp_cache_get; [done|lia..|].
      apply wp_bind, wp_cache_get; [done|lia..|]. apply wp_bind.
      wp_call (wp_nmbm_write_phys_page B); [done| |].
      { intros _. rewrite block_addr_div by lia. auto. }
      intros _ s4 Hrel4. apply wp_ret. split; [|eauto using chip_rel_trans].
      apply u32_small. lia.
    + intros s3 Hrel3. rewrite Z.ltb_irrefl. by apply wp_ret.
    + apply chip_rel_refl.
  - cbn beta. intros _ s3 Hrel3. apply wp_bind.
    wp_call (wp_set_log_level B); [eauto using st_ok_chip_rel|]. intros _ s4 (_ & -> & _).
    apply wp_ret. subst s2. eapply chip_rel_trans; [done|]. by eapply chip_rel_log_level.
Qed.

(** * Erasing *)

Lemma wp_nmbm_erase_block_and_check (B : Z -> Prop) ba s :
  st_ok g s -> 0 <= ba < block_count g -> (RO = false -> B ba) ->
  wp (nmbm_erase_block_and_check ba) (fun _ s' => chip_rel g B s s') s.
Proof using Hg Hl.
  intros Hs Hba HB. unfold nmbm_erase_block_and_check. apply wp_bind, wp_gets, wp_bind.
  rewrite (st_geo _ _ Hs). pose proof erasesize_lt.
  wp_call (wp_nmbm_erase_phys_block B); [done|intros; rewrite ba2addr_div; auto|].
  intros ok s1 Hrel1. destruct (negb ok); [by apply wp_ret|].
  destruct (negb _); [by apply wp_ret|].
  apply (wp_page_loop (fun _ s' => chip_rel g B s s')); [|intros s2 Hrel2|done].
  - intros off s2 Hoff Hend Hrel2. pose proof writesize_pos.
    destruct (Z.ltb_spec off (erasesize (lower g))); [|lia].
    apply wp_bind. wp_call (wp_read_to_cache B); [eauto using st_ok_chip_rel|].
    intros r s3 Hrel3. destruct (r =? _); apply wp_ret; [eauto using chip_rel_trans|].
    split; [apply u64_small; lia|eauto using chip_rel_trans].
  - rewrite Z.ltb_irrefl. by apply wp_ret.
Qed.

(** Marking a good block bad, on the chip and in the table. *)
Lemma wp_skip_bad_block (B : Z -> Prop) ba s :
  st_ok g s -> 0 <= ba < block_count g -> B ba ->
  bstate (block_state (ni s)) ba = BLOCK_ST_GOOD ->
  wp (skip_bad_block ba)
    (fun _ s' => blk_rel g B s s' /\ bstate (block_state (ni s')) ba = BLOCK_ST_BAD) s.
Proof using Hg Hl.
  intros Hs Hba HB Hgood. unfold skip_bad_block. apply wp_bind.
  wp_call (wp_nmbm_mark_phys_bad_block B); [done|done|auto|]. intros _ s1 Hrel1.
  assert (st_ok g s1) by eauto using st_ok_chip_rel.
  apply wp_bind. wp_call (blk_rel_set_bad g Hg B); [done|done|done| |].
  - destruct Hrel1 as (_ & _ & ->). done.
  - intros _ s2 [Hrel2 Hbad]. apply wp_ret. split; [|done].
    eapply blk_rel_trans; [by apply chip_blk_rel|done].
Qed.

Lemma chip_rel_bs (B : Z -> Prop) (s s' : nst chip) :
  chip_rel g B s s' -> block_state (ni s') = block_state (ni s).
Proof. intros (_ & _ & ->). done. Qed.

(** [blk_rel] steps of a loop over blocks. *)
#[local] Hint Resolve chip_blk_rel blk_rel_trans br_ok st_ok_chip_rel : nmbm_rel.

(** The round of a loop over management blocks, as far as the loops have it in
    common: blocks that are not good are passed over, a good block is checked
    and erased. *)
Lemma wp_block_round {X} (B : Z -> Prop) b (next : X) (k : bool -> prog X) Q s :
  st_ok g s -> 0 <= b < block_count g -> B b ->
  (forall s', blk_rel g B s s' -> Q next s') ->
  (forall ok s', blk_rel g B s s' -> bstate (block_state (ni s')) b = BLOCK_ST_GOOD ->
     wp (k ok) Q s') ->
  wp (let* st := nmbm_get_block_state b in
      if negb (st =? BLOCK_ST_GOOD) then ret next
      else
        let* bad := nmbm_check_bad_phys_block b in
        if bad : bool then
          do* nmbm_set_block_state b BLOCK_ST_BAD in
          ret next
        else
          let* success := nmbm_erase_block_and_check b in
          k success) Q s.
Proof using Hg Hl.
  intros Hs Hb HB Hnext Hk. apply wp_bind, (wp_get_block_state g Hg); [done|lia|].
  destruct (Z.eqb_spec (bstate (block_state (ni s)) b) BLOCK_ST_GOOD) as [Hgood|];
    cbn [negb]; [|apply wp_ret, Hnext; by apply blk_rel_refl].
  apply wp_bind. wp_call (wp_nmbm_check_bad_phys_block B); [done|]. intros bad s2 Hrel2.
  pose proof (chip_rel_bs _ _ _ Hrel2) as Hbs2. destruct bad.
  - apply wp_bind. wp_call (blk_rel_set_bad g Hg B); [eauto with nmbm_rel|lia|done|by rewrite Hbs2|].
    intros _ s3 [Hrel3 _]. apply wp_ret, Hnext. eauto with nmbm_rel.
  - apply wp_bind. wp_call (wp_nmbm_erase_block_and_check B); [eauto with nmbm_rel|lia|done|].
    intros ok s3 Hrel3. pose proof (chip_rel_bs _ _ _ Hrel3) as Hbs3.
    apply Hk; [eauto with nmbm_rel|by rewrite Hbs3, Hbs2].
Qed.

Lemma wp_nmbm_erase_range ba limit s :
  st_ok g s -> 0 <= ba -> limit <= block_count g ->
  wp (nmbm_erase_range ba limit) (fun _ s' => blk_rel g (blocks_in ba limit) s s') s.
Proof using Hg Hl.
  intros Hs Hba Hlim. unfold nmbm_erase_range. set (B := blocks_in ba limit).
  pose proof (geo_count g Hg).
  apply (wp_loop (fun b s' => ba <= b /\ blk_rel g B s s')
           (fun b _ => Z.to_nat (limit - b))); [|split; [lia|by apply blk_rel_refl]|lia].
  intros b s1 [Hb Hrel1]. pose proof (br_ok _ _ _ _ Hrel1) as Hok1.
  destruct (Z.ltb_spec b limit) as [Hlt|]; [|by apply wp_ret].
  assert (B b) as HB by (unfold B, blocks_in; lia).
  assert (forall s2, blk_rel g B s1 s2 ->
    (ba <= u32 (b + 1) /\ blk_rel g B s s2) /\
    (Z.to_nat (limit - u32 (b + 1)) < Z.to_nat (limit - b))%nat) as Hnext.
  { intros s2 Hrel2. rewrite u32_small by lia. split; [split; [lia|]|lia].
    by eapply blk_rel_trans. }
  apply (wp_block_round B b (inl (u32 (b + 1)))); [done|lia|done|done|].
  intros [] s2 Hrel2 Hgood; [by apply wp_ret, Hnext|].
  apply wp_bind. wp_call (wp_skip_bad_block B); [eauto with nmbm_rel|lia|done|done|].
  intros _ s3 [Hrel3 _]. apply wp_ret, Hnext. eauto with nmbm_rel.
Qed.

(** * Verified writing *)

Lemma wp_cache_equal off data (Q : bool -> nst chip -> Prop) s :
  st_ok g s -> 0 <= off -> off + Z.of_nat (length data) <= rawpage_size g ->
  Q (bool_decide (slice (page_cache (ni s)) off (Z.of_nat (length data)) = data)) s ->
  wp (cache_equal off data) Q s.
Proof using.
  intros Hs ???. unfold cache_equal. apply wp_bind, wp_cache_get; [done|lia..|]. by apply wp_ret.
Qed.

Lemma wp_nmbm_write_repeated_data (B : Z -> Prop) ba data s :
  st_ok g s -> 0 <= ba < block_count g -> (RO = false -> B ba) ->
  wp (nmbm_write_repeated_data ba data) (fun _ s' => chip_rel g B s s') s.
Proof using Hg Hl.
  intros Hs Hba HB. unfold nmbm_write_repeated_data. apply wp_bind, wp_gets.
  rewrite (st_geo _ _ Hs). pose proof writesize_pos. pose proof (geo_oob g Hg).
  pose proof (geo_rawpage g Hg). pose proof erasesize_lt.
  rewrite Z.gtb_ltb. destruct (Z.ltb_spec (writesize (lower g)) (Z.of_nat (length data)));
    [apply wp_ret, chip_rel_refl|].
  apply (wp_page_loop (fun _ s' => chip_rel g B s s')); [|intros s2 Hrel2|apply chip_rel_refl].
  2: { rewrite Z.ltb_irrefl. by apply wp_ret. }
  intros off s1 Hoff Hend Hrel1.
  destruct (Z.ltb_spec off (erasesize (lower g))); [|lia].
  assert (st_ok g s1) by eauto using st_ok_chip_rel.
  apply wp_bind. wp_call (wp_cache_put B); [done|lia|lia|]. intros _ s2 [Hrel2 _].
  assert (st_ok g s2) by eauto using st_ok_chip_rel.
  apply wp_bind. wp_call (wp_cache_put B); [done|lia|rewrite length_replicate; lia|].
  intros _ s3 [Hrel3 _]. assert (st_ok g s3) by eauto using st_ok_chip_rel.
  apply wp_bind, wp_cache_get; [done|lia..|].
  apply wp_bind. wp_call (wp_nmbm_write_phys_page B); [done| |].
  { intros. rewrite block_addr_div by lia. auto. }
  intros ok s4 Hrel4. assert (chip_rel g B s s4) by eauto 6 using chip_rel_trans.
  destruct (negb ok); [by apply wp_ret|].
  assert (st_ok g s4) by eauto using st_ok_chip_rel.
  apply wp_bind. wp_call (wp_read_to_cache B); [done|]. intros r s5 Hrel5.
  assert (chip_rel g B s s5) by eauto using chip_rel_trans.
  destruct (r <? 0); [by apply wp_ret|].
  apply wp_bind, wp_cache_equal; [eauto using st_ok_chip_rel|lia|lia|].
  destruct (negb _); apply wp_ret; [done|]. split; [apply u64_small; lia|done].
Qed.

Lemma wp_nmbm_write_signature limit sig s :
  st_ok g s -> 0 <= limit ->
  wp (nmbm_write_signature limit sig)
    (fun r s' => blk_rel g (blocks_in (limit + 1) (block_count g)) s s' /\
       match r with
       | None => True
       | Some sba => limit < sba < block_count g /\
                     bstate (block_state (ni s')) sba = BLOCK_ST_GOOD
       end) s.
Proof using Hg Hl.
  intros Hs Hlim. unfold nmbm_write_signature. apply wp_bind, wp_gets.
  rewrite (st_geo _ _ Hs). set (B := blocks_in (limit + 1) (block_count g)).
  pose proof (geo_count g Hg). rewrite (u32_small (block_count g - 1)) by lia.
  apply (wp_loop (fun b s' => b < block_count g /\ -1 <= b /\ blk_rel g B s s')
           (fun b _ => Z.to_nat (b - limit)));
    [|split; [lia|split; [lia|by apply blk_rel_refl]]|lia].
  intros b s1 (Hb & Hb' & Hrel1). pose proof (br_ok _ _ _ _ Hrel1) as Hok1.
  rewrite Z.gtb_ltb. destruct (Z.ltb_spec limit b) as [Hlt|]; [|by apply wp_ret].
  assert (B b) as HB by (unfold B, blocks_in; lia).
  assert (forall s2, blk_rel g B s1 s2 ->
    (u32 (b - 1) < block_count g /\ -1 <= u32 (b - 1) /\ blk_rel g B s s2) /\
    (Z.to_nat (u32 (b - 1) - limit) < Z.to_nat (b - limit))%nat) as Hnext.
  { intros s2 Hrel2. rewrite u32_small by lia. split_and!; try lia. by eapply blk_rel_trans. }
  apply (wp_block_round B b (inl (u32 (b - 1)))); [done|lia|done|done|].
  assert (forall s2, blk_rel g B s1 s2 -> bstate (block_state (ni s2)) b = BLOCK_ST_GOOD ->
    wp (do* skip_bad_block b in ret (inl (u32 (b - 1))))
      (fun r s' =>
         match r with
         | inl l' => (l' < block_count g /\ -1 <= l' /\ blk_rel g B s s') /\
                     (Z.to_nat (l' - limit) < Z.to_nat (b - limit))%nat
         | inr r => blk_rel g B s s' /\
             match r with
             | None => True
             | Some sba => limit < sba < block_count g /\
                           bstate (block_state (ni s')) sba = BLOCK_ST_GOOD
             end
         end) s2) as Hskip.
  { intros s2 Hrel2 Hgood. apply wp_bind.
    wp_call (wp_skip_bad_block B); [eauto with nmbm_rel|lia|done|done|].
    intros _ s3 [Hrel3 _]. apply wp_ret, Hnext. eauto with nmbm_rel. }
  intros [] s2 Hrel2 Hgood; [|by apply Hskip]. cbn [negb].
  apply wp_bind. wp_call (wp_nmbm_write_repeated_data B); [eauto with nmbm_rel|lia|done|].
  intros ok s3 Hrel3. pose proof (chip_rel_bs _ _ _ Hrel3) as Hbs3.
  assert (blk_rel g B s1 s3) by eauto with nmbm_rel. destruct ok.
  - apply wp_ret. split; [by eapply blk_rel_trans|]. split; [lia|by rewrite Hbs3].
  - apply Hskip; [done|by rewrite Hbs3].
Qed.

(** The chunk of a page: not empty, inside the page. *)
Lemma page_chunk_spec off sizeremain :
  0 <= off -> 0 < sizeremain -> exists leading chunksize,
    page_chunk g off sizeremain = (leading, chunksize) /\
    leading = off mod writesize (lower g) /\ 0 <= leading < writesize (lower g) /\
    chunksize = Z.min (writesize (lower g) - leading) sizeremain /\ 0 < chunksize.
Proof using Hg.
  intros Hoff Hrem. pose proof writesize_pos. pose proof writesize_le. pose proof erasesize_lt.
  unfold page_chunk. rewrite (geo_wmask g Hg).
  replace (2 ^ writesize_shift g - 1) with (Z.ones (writesize_shift g))
    by (rewrite Z.ones_equiv; lia).
  rewrite Z.land_ones, <- (geo_writesize g Hg) by (pose proof (geo_wshift g Hg); lia).
  pose proof (Z.mod_pos_bound off (writesize (lower g))).
  rewrite u32_small by lia. eexists _, _. split; [done|].
  rewrite Z.gtb_ltb. split_and!; try lia;
    destruct (Z.ltb_spec sizeremain (writesize (lower g) - off mod writesize (lower g))); lia.
Qed.

(** The page of an address inside a block lies in that block. *)
Lemma page_of_block ba pos :
  0 <= ba < block_count g -> 0 <= pos < erasesize (lower g) ->
  let off := ba2addr g ba + pos in
  u64 (off - off mod writesize (lower g)) / erasesize (lower g) = ba /\
  0 <= off < 2 ^ 64 /\ off mod writesize (lower g) <= pos.
Proof using Hg.
  intros Hba Hpos off. pose proof writesize_pos. pose proof erasesize_pos.
  pose proof (geo_chip g Hg).
  assert (off = pos + (ba * pages) * writesize (lower g)) as Hoff.
  { unfold off. rewrite ba2addr_eq, erasesize_pages by done. lia. }
  assert (off mod writesize (lower g) = pos mod writesize (lower g)) as Hmod
    by (rewrite Hoff; apply Z.mod_add; lia).
  assert (0 <= pos mod writesize (lower g) <= pos)
    by (split; [apply Z.mod_pos_bound|apply Z.mod_le]; lia).
  rewrite Hmod.
  replace (off - pos mod writesize (lower g))
    with (ba2addr g ba + (pos - pos mod writesize (lower g))) by (unfold off; lia).
  rewrite block_addr_div by lia. unfold off. rewrite ba2addr_eq by done.
  split_and!; [done|nia|nia|lia].
Qed.

Lemma wp_nmbn_read_data (B : Z -> Prop) addr buf size s :
  st_ok g s -> 0 <= addr -> addr + size < 2 ^ 64 ->
  0 <= size < 2 ^ 32 -> size <= Z.of_nat (length buf) ->
  wp (nmbn_read_data addr buf size)
    (fun '(r, buf') s' => chip_rel g B s s' /\ length buf' = length buf /\ r <= 0) s.
Proof using Hg Hl.
  intros Hs Haddr Hend Hsize Hbuf. unfold nmbn_read_data. apply wp_bind, wp_gets.
  rewrite (st_geo _ _ Hs). pose proof writesize_pos. pose proof (geo_oob g Hg).
  pose proof (geo_rawpage g Hg).
  apply (wp_loop
    (fun '(off, pos, sizeremain, b) s' =>
       off = addr + pos /\ 0 <= pos /\ 0 <= sizeremain /\ pos + sizeremain = size /\
       length b = length buf /\ chip_rel g B s s')
    (fun '(_, _, sizeremain, _) _ => Z.to_nat sizeremain));
    [|split_and!; (lia || done || apply chip_rel_refl)|cbn; lia].
  intros [[[off pos] rem] b] s1 (-> & Hpos & Hrem & Hsum & Hlen & Hrel1).
  assert (st_ok g s1) by eauto using st_ok_chip_rel.
  destruct (Z.eqb_spec rem 0); [apply wp_ret; done|].
  destruct (page_chunk_spec (addr + pos) rem) as (leading & chunk & -> & Hlead & Hlr & Hchunk & Hcp);
    [lia|lia|].
  destruct (Z.eqb_spec chunk (writesize (lower g))) as [Hfull|Hpart].
  - rewrite in_bounds_true by lia. cbn [negb].
    apply wp_bind. wp_call (wp_nmbm_read_phys_page B); [done|].
    intros [[r d] o] s2 (Hrel2 & Hd & _).
    assert (length (blit b pos (default (slice b pos chunk) d)) = length buf) as Hlen2.
    { rewrite length_blit; [done|lia|].
      rewrite (length_default_shape _ _ Hd), length_slice; lia. }
    assert (chip_rel g B s s2) by eauto using chip_rel_trans.
    destruct (Z.ltb_spec r 0); apply wp_ret; [split_and!; done || lia|].
    rewrite u64_small, u32_small by lia. split; [split_and!; done || lia|lia].
  - apply wp_bind. wp_call (wp_read_to_cache B); [done|]. intros r s2 Hrel2.
    assert (chip_rel g B s s2) by eauto using chip_rel_trans.
    assert (st_ok g s2) as Hs2 by eauto using st_ok_chip_rel.
    destruct (Z.ltb_spec r 0); [apply wp_ret; split_and!; done || lia|].
    apply wp_bind, wp_cache_get; [done|lia..|].
    rewrite in_bounds_true by lia. cbn [negb]. apply wp_ret.
    rewrite u64_small, u32_small by lia. split; [|lia].
    split_and!; try done || lia.
    rewrite length_blit; [done|lia|]. rewrite (length_cache_slice _ _ _ Hs2); lia.
Qed.

Lemma wp_nmbn_write_verify_data (B : Z -> Prop) ba data size s :
  st_ok g s -> 0 <= ba < block_count g -> (RO = false -> B ba) ->
  0 <= size <= erasesize (lower g) -> size <= Z.of_nat (length data) ->
  wp (nmbn_write_verify_data (ba2addr g ba) data size) (fun _ s' => chip_rel g B s s') s.
Proof using Hg Hl.
  intros Hs Hba HB Hsize Hdata. unfold nmbn_write_verify_data. apply wp_bind, wp_gets.
  rewrite (st_geo _ _ Hs). pose proof writesize_pos. pose proof (geo_oob g Hg).
  pose proof (geo_rawpage g Hg). pose proof erasesize_lt. pose proof (geo_chip g Hg).
  pose proof erasesize_pos.
  apply (wp_loop
    (fun '(off, pos, sizeremain) s' =>
       off = ba2addr g ba + pos /\ 0 <= pos /\ 0 <= sizeremain /\ pos + sizeremain = size /\
       chip_rel g B s s')
    (fun '(_, _, sizeremain) _ => Z.to_nat sizeremain));
    [|split_and!; (lia || done || apply chip_rel_refl)|cbn; lia].
  intros [[off pos] rem] s1 (-> & Hpos & Hrem & Hsum & Hrel1).
  assert (st_ok g s1) by eauto using st_ok_chip_rel.
  destruct (Z.eqb_spec rem 0); [apply wp_ret; done|].
  destruct (page_of_block ba pos) as (Hblk & Hoff & _); [done|lia|].
  destruct (page_chunk_spec (ba2addr g ba + pos) rem)
    as (leading & chunk & -> & Hlead & Hlr & Hchunk & Hcp); [lia|lia|].
  rewrite in_bounds_true by lia. cbn [negb].
  assert (Z.of_nat (length (slice data pos chunk)) = chunk) as Hcl by (apply length_slice; lia).
  apply wp_bind. wp_call (wp_cache_put B); [done|lia|rewrite length_replicate; lia|].
  intros _ s2 [Hrel2 _]. assert (st_ok g s2) by eauto using st_ok_chip_rel.
  apply wp_bind. wp_call (wp_cache_put B); [done|lia|lia|].
  intros _ s3 [Hrel3 _]. assert (st_ok g s3) by eauto using st_ok_chip_rel.
  apply wp_bind, wp_cache_get; [done|lia..|].
  apply wp_bind. wp_call (wp_nmbm_write_phys_page B); [done|rewrite Hlead, Hblk; auto|].
  intros ok s4 Hrel4. assert (chip_rel g B s s4) by eauto 6 using chip_rel_trans.
  destruct (negb ok); [by apply wp_ret|].
  apply wp_bind. wp_call (wp_read_to_cache B); [eauto using st_ok_chip_rel|]. intros r s5 Hrel5.
  assert (chip_rel g B s s5) by eauto using chip_rel_trans.
  destruct (r <? 0); [by apply wp_ret|].
  apply wp_bind, wp_cache_equal; [eauto using st_ok_chip_rel|lia|lia|].
  destruct (negb _); apply wp_ret; [done|].
  rewrite ba2addr_eq in * by done.
  rewrite u64_small, u32_small by nia. split; [split_and!; done || lia|lia].
Qed.

(** [nmbm_write_mgmt_range] changes blocks of the range only; on success the
    data lies between [start] and [end], both inside the range. *)
Lemma wp_nmbm_write_mgmt_range ba limit data size s :
  st_ok g s -> 0 <= ba -> limit <= block_count g ->
  0 < size < 2 ^ 32 -> size <= Z.of_nat (length data) ->
  wp (nmbm_write_mgmt_range ba limit data size)
    (fun r s' => blk_rel g (blocks_in ba limit) s s' /\
       match r with
       | None => True
       | Some (start, end_) => ba <= start < end_ /\ end_ <= limit
       end) s.
Proof using Hg Hl.
  intros Hs Hba Hlim Hsize Hdata. unfold nmbm_write_mgmt_range. apply wp_bind, wp_gets.
  rewrite (st_geo _ _ Hs). set (B := blocks_in ba limit). pose proof (geo_count g Hg).
  pose proof erasesize_pos.
  apply (wp_loop
    (fun '(b, pos, rem, start) s' =>
       ba <= b /\ (rem = size \/ ba <= start < b /\ b <= limit) /\ 0 <= pos /\ 0 <= rem /\
       pos + rem = size /\ blk_rel g B s s')
    (fun '(b, _, _, _) _ => Z.to_nat (limit - b)));
    [|split_and!; (lia || (by left) || by apply blk_rel_refl)|cbn; lia].
  intros [[[b pos] rem] start] s1 (Hb & Hstart & Hpos & Hrem & Hsum & Hrel1).
  pose proof (br_ok _ _ _ _ Hrel1) as Hok1.
  destruct (Z.eqb_spec rem 0) as [->|Hne]; cbn [negb andb].
  { apply wp_ret. split; [done|]. lia. }
  destruct (Z.ltb_spec b limit) as [Hlt|]; [|apply wp_ret; done].
  assert (B b) as HB by (unfold B, blocks_in; lia).
  assert (forall s2, blk_rel g B s1 s2 ->
    (ba <= u32 (b + 1) /\ (rem = size \/ ba <= start < u32 (b + 1) /\ u32 (b + 1) <= limit) /\
     0 <= pos /\ 0 <= rem /\ pos + rem = size /\ blk_rel g B s s2) /\
    (Z.to_nat (limit - u32 (b + 1)) < Z.to_nat (limit - b))%nat) as Hnext.
  { intros s2 Hrel2. rewrite u32_small by lia. split; [split_and!|]; try lia.
    by eapply blk_rel_trans. }
  assert (forall s2, blk_rel g B s1 s2 -> bstate (block_state (ni s2)) b = BLOCK_ST_GOOD ->
    wp (skip_bad_block b) (fun _ s3 => blk_rel g B s1 s3) s2) as Hskip.
  { intros s2 Hrel2 Hgood. wp_call (wp_skip_bad_block B); [eauto with nmbm_rel|lia|done|done|].
    intros _ s3 [Hrel3 _]. eauto with nmbm_rel. }
  apply (wp_block_round B b (inl (u32 (b + 1), pos, rem, start))); [done|lia|done|exact Hnext|].
  intros [] s2 Hrel2 Hgood; cbn [negb].
  2: { apply wp_bind. wp_call Hskip; [done|done|]. intros _ s3 Hrel3. by apply wp_ret, Hnext. }
  set (chunk := if rem >? erasesize (lower g) then _ else _).
  assert (0 < chunk <= erasesize (lower g) /\ chunk <= rem) as [Hchunk Hcr].
  { unfold chunk. rewrite Z.gtb_ltb. destruct (Z.ltb_spec (erasesize (lower g)) rem); lia. }
  apply wp_bind. wp_call (wp_nmbn_write_verify_data B);
    [eauto with nmbm_rel|lia|done|lia|rewrite length_drop; lia|].
  intros ok s3 Hrel3. assert (blk_rel g B s1 s3) by eauto with nmbm_rel.
  destruct ok; cbn [negb].
  - apply wp_ret. rewrite !u32_small by lia. split; [split_and!|]; try lia.
    + right. destruct (Z.eqb_spec rem size); lia.
    + by eapply blk_rel_trans.
  - apply wp_bind. wp_call Hskip; [done|by rewrite (chip_rel_bs _ _ _ Hrel3)|].
    intros _ s4 Hrel4. by apply wp_ret, Hnext.
Qed.
End block_spec.
