(* ===== verification/NmbmWalk.v ===== *)
(** The walks over good blocks, the reservation of spare blocks and the initial
    mapping table, proved equal to list definitions. *)

From stdpp Require Import base list numbers sets relations.
From Stdlib Require Import ZArith Lia Sorting.Sorted.
From S2P Require Import Prelude NmbmTypes NmbmChip NmbmBlocks NmbmTable NmbmSpec NmbmBlockSpec.
Local Open Scope Z_scope.
Local Open Scope cprog_scope.

(** * Reference definitions *)

(** The good blocks of [a, b) in ascending order. *)
Definition good_asc (bs : list Z) (a b : Z) : list Z := filter (good bs) (seqZ a (b - a)).

(** The good blocks of (b, a] in descending order. *)
Definition good_desc (bs : list Z) (a b : Z) : list Z :=
  filter (good bs) ((fun i => a - i) <$> seqZ 0 (a - b)).

(** The clamped limit of the walks. *)
Definition walk_limit (bc limit : Z) : Z := if limit >=? bc then bc - 1 else limit.

Lemma good_asc_step bs a b :
  a < b -> good_asc bs a b =
    if decide (good bs a) then a :: good_asc bs (a + 1) b else good_asc bs (a + 1) b.
Proof.
  intros Hab. unfold good_asc. rewrite seqZ_cons, filter_cons by lia.
  replace (Z.pred (b - a)) with (b - (a + 1)) by lia.
  replace (Z.succ a) with (a + 1) by lia. done.
Qed.

Lemma good_asc_nil bs a b : b <= a -> good_asc bs a b = [].
Proof. intros. unfold good_asc. by rewrite seqZ_nil by lia. Qed.

Lemma good_desc_step bs a b :
  b < a -> good_desc bs a b =
    if decide (good bs a) then a :: good_desc bs (a - 1) b else good_desc bs (a - 1) b.
Proof.
  intros Hab. unfold good_desc. rewrite seqZ_cons by lia. cbn [fmap list_fmap].
  rewrite filter_cons. replace (a - 0) with a by lia.
  replace (Z.pred (a - b)) with (a - 1 - b) by lia.
  assert ((λ i : Z, a - i) <$> seqZ (Z.succ 0) (a - 1 - b) =
          (λ i : Z, a - 1 - i) <$> seqZ 0 (a - 1 - b)) as ->; [|done].
  replace (Z.succ 0) with (1 + 0) by lia.
  rewrite <- fmap_add_seqZ, <- list_fmap_compose. apply list_fmap_ext.
  intros i x _. unfold compose. lia.
Qed.

Lemma good_desc_nil bs a b : a <= b -> good_desc bs a b = [].
Proof. intros. unfold good_desc. by rewrite seqZ_nil by lia. Qed.

Lemma elem_of_good_asc bs a b x : x ∈ good_asc bs a b <-> a <= x < b /\ good bs x.
Proof. unfold good_asc. rewrite list_elem_of_filter, elem_of_seqZ. split; [intros [? ?]|intros [? ?]]; (split; [lia|done]) || (split; [done|lia]). Qed.

Lemma elem_of_good_desc bs a b x : x ∈ good_desc bs a b <-> b < x <= a /\ good bs x.
Proof.
  unfold good_desc. rewrite list_elem_of_filter, list_elem_of_fmap.
  setoid_rewrite elem_of_seqZ. split.
  - intros (? & i & -> & ?). split; [lia|done].
  - intros [? ?]. split; [done|]. exists (a - x). lia.
Qed.

(** The first good block, with bad ones in front of it. *)
Lemma good_desc_first bs a b x :
  b < x <= a -> good bs x -> (forall y, x < y <= a -> ~ good bs y) -> good_desc bs a b !! 0%nat = Some x.
Proof.
  intros Hx Hg Hbad. remember (Z.to_nat (a - x)) as n eqn:En. revert a Hx Hbad En.
  induction n as [|n IH]; intros a Hx Hbad En; rewrite good_desc_step by lia.
  - assert (a = x) as -> by lia. by rewrite decide_True.
  - rewrite decide_False by (apply Hbad; lia). apply IH; [lia| |lia]. intros y Hy. apply Hbad. lia.
Qed.

(** The blocks below [mgmt] that are not bad: the initial mapping. *)
Definition usable (bs : list Z) (mgmt : Z) : list Z :=
  filter (fun b => bstate bs b <> BLOCK_ST_BAD) (seqZ 0 mgmt).

Lemma usable_succ bs pb :
  0 <= pb -> usable bs (pb + 1) =
    usable bs pb ++ (if decide (bstate bs pb = BLOCK_ST_BAD) then [] else [pb]).
Proof.
  intros. unfold usable. rewrite seqZ_app by lia. rewrite filter_app. f_equal.
  replace (0 + pb) with pb by lia. change 1 with (Z.succ 0). rewrite seqZ_cons by lia.
  rewrite seqZ_nil by lia. rewrite filter_cons, filter_nil.
  repeat case_decide; naive_solver.
Qed.

Lemma usable_length bs mgmt : 0 <= mgmt -> Z.of_nat (length (usable bs mgmt)) <= mgmt.
Proof.
  intros. unfold usable. etrans; [apply inj_le, length_filter|].
  rewrite length_seqZ. lia.
Qed.

Lemma usable_sorted bs mgmt : StronglySorted Z.lt (usable bs mgmt).
Proof.
  unfold usable. generalize 0. intros a. destruct (Z_le_gt_dec mgmt 0) as [|Hm];
    [by rewrite seqZ_nil by lia; constructor|].
  replace mgmt with (Z.of_nat (Z.to_nat mgmt)) by lia. generalize (Z.to_nat mgmt). clear.
  intros n. revert a. induction n as [|n IH]; intros a; [constructor|].
  rewrite Nat2Z.inj_succ, seqZ_cons, filter_cons by lia. rewrite Z.pred_succ.
  case_decide; [|apply IH]. constructor; [apply IH|].
  apply Forall_forall. intros x [_ Hx%elem_of_seqZ]%list_elem_of_filter. lia.
Qed.

Lemma sorted_lt_nodup l : StronglySorted Z.lt l -> NoDup l.
Proof.
  induction 1 as [|x l _ IH Hx]; constructor; [|done].
  intros Hin. rewrite Forall_forall in Hx. specialize (Hx x Hin). lia.
Qed.

(** Entries of a table that is padded with [-1]. *)
Lemma lookup_app_replicate (l : list Z) n i :
  0 <= i < Z.of_nat (length l + n) ->
  (l ++ replicate n (-1)) !! Z.to_nat i = Some (default (-1) (l !! Z.to_nat i)).
Proof.
  intros Hi. destruct (l !! Z.to_nat i) as [v|] eqn:E.
  - by rewrite lookup_app_l by by eapply lookup_lt_Some.
  - apply lookup_ge_None in E. rewrite lookup_app_r by lia. apply lookup_replicate_2. lia.
Qed.

Lemma lookup_app_nonneg (l : list Z) n i m :
  0 <= m -> (l ++ replicate n (-1)) !! i = Some m -> l !! i = Some m.
Proof.
  intros Hm [H|[_ H]]%lookup_app_Some; [done|]. apply lookup_replicate in H as [-> _]. lia.
Qed.

Lemma insert_boundary (l1 l2 : list Z) x :
  (0 < length l2)%nat -> <[length l1 := x]> (l1 ++ l2) = (l1 ++ [x]) ++ drop 1 l2.
Proof.
  intros. destruct l2 as [|y l2]; [cbn in *; lia|].
  rewrite insert_app_r_alt by lia. rewrite Nat.sub_diag. cbn. by rewrite <- app_assoc.
Qed.

Section walk.
Context {chip : Type} (g : nmbm_geometry chip) (Hg : geom_ok g).

Lemma wp_walk_asc ba count limit s :
  st_ok g s -> 0 <= ba -> 0 <= count < 2 ^ 31 -> 0 <= limit ->
  wp (nmbm_block_walk_asc ba count limit)
    (fun r s' => s' = s /\
       r = good_asc (block_state (ni s)) ba (walk_limit (block_count g) limit)
             !! Z.to_nat count) s.
Proof using Hg.
  intros Hs Hba Hcount Hlim. pose proof (geo_count g Hg).
  unfold nmbm_block_walk_asc. apply wp_bind, wp_gets. rewrite (st_geo _ _ Hs).
  rewrite (u32_small (block_count g - 1)) by lia. fold (walk_limit (block_count g) limit).
  set (lim := walk_limit _ _). set (bs := block_state (ni s)).
  assert (lim < block_count g) as Hl
    by (unfold lim, walk_limit; destruct (limit >=? block_count g) eqn:?; lia).
  rewrite i32_small by lia.
  apply (wp_loop
    (fun '(b, nb) s' => s' = s /\ ba <= b /\ 0 <= nb < 2 ^ 31 /\
       good_asc bs b lim !! Z.to_nat nb = good_asc bs ba lim !! Z.to_nat count)
    (fun '(b, _) _ => Z.to_nat (lim - b))); [|split_and!; done || lia|cbn; lia].
  intros [b nb] s' (-> & Hb & Hnb & <-).
  destruct (Z.ltb_spec b lim) as [Hlt|].
  2: { apply wp_ret. rewrite good_asc_nil by lia. done. }
  apply wp_bind, (wp_get_block_state g Hg); [done|lia|]. fold bs.
  rewrite good_asc_step by lia.
  destruct (Z.eqb_spec (bstate bs b) BLOCK_ST_GOOD) as [Hgood|Hbad].
  - rewrite decide_True by done. rewrite i32_small by lia.
    destruct (Z.ltb_spec (nb - 1) 0); apply wp_ret.
    + replace nb with 0 by lia. done.
    + rewrite u32_small by lia. split; [split_and!; try done; try lia|lia].
      replace (Z.to_nat nb) with (S (Z.to_nat (nb - 1))) by lia. done.
  - rewrite decide_False by done. destruct (Z.ltb_spec nb 0); [lia|]. apply wp_ret.
    rewrite u32_small by lia. split; [split_and!; done || lia|lia].
Qed.

Lemma wp_walk_desc ba count limit s :
  st_ok g s -> ba < block_count g -> 0 <= count < 2 ^ 31 -> 0 <= limit ->
  wp (nmbm_block_walk_desc ba count limit)
    (fun r s' => s' = s /\
       r = good_desc (block_state (ni s)) ba (walk_limit (block_count g) limit)
             !! Z.to_nat count) s.
Proof using Hg.
  intros Hs Hba Hcount Hlim. pose proof (geo_count g Hg).
  unfold nmbm_block_walk_desc. apply wp_bind, wp_gets. rewrite (st_geo _ _ Hs).
  rewrite (u32_small (block_count g - 1)) by lia. fold (walk_limit (block_count g) limit).
  set (lim := walk_limit _ _). set (bs := block_state (ni s)).
  assert (0 <= lim) as Hl
    by (unfold lim, walk_limit; destruct (limit >=? block_count g) eqn:?; lia).
  rewrite i32_small by lia.
  apply (wp_loop
    (fun '(b, nb) s' => s' = s /\ b <= ba /\ 0 <= nb < 2 ^ 31 /\
       good_desc bs b lim !! Z.to_nat nb = good_desc bs ba lim !! Z.to_nat count)
    (fun '(b, _) _ => Z.to_nat (b - lim))); [|split_and!; done || lia|cbn; lia].
  intros [b nb] s' (-> & Hb & Hnb & <-).
  rewrite Z.gtb_ltb. destruct (Z.ltb_spec lim b) as [Hlt|].
  2: { apply wp_ret. rewrite good_desc_nil by lia. done. }
  apply wp_bind, (wp_get_block_state g Hg); [done|lia|]. fold bs.
  rewrite good_desc_step by lia.
  destruct (Z.eqb_spec (bstate bs b) BLOCK_ST_GOOD) as [Hgood|Hbad].
  - rewrite decide_True by done. rewrite i32_small by lia.
    destruct (Z.ltb_spec (nb - 1) 0); apply wp_ret.
    + replace nb with 0 by lia. done.
    + rewrite u32_small by lia. split; [split_and!; try done; try lia|lia].
      replace (Z.to_nat nb) with (S (Z.to_nat (nb - 1))) by lia. done.
  - rewrite decide_False by done. destruct (Z.ltb_spec nb 0); [lia|]. apply wp_ret.
    rewrite u32_small by lia. split; [split_and!; done || lia|lia].
Qed.

(** * Reserving spare blocks *)

(** The block after [count] reserved good blocks, or after as many as there
    are. *)
Definition reserve_ref (l : list Z) (count : Z) : option Z :=
  l !! Nat.min (Z.to_nat count) (length l - 1).

Lemma wp_try_reserve_blocks ba count limit s :
  st_ok g s -> 0 <= ba -> 0 <= count < 2 ^ 31 -> 0 <= limit < 2 ^ 32 ->
  wp (nmbm_try_reserve_blocks ba count 0 limit)
    (fun r s' => s' = s /\
       r = reserve_ref (good_asc (block_state (ni s)) ba
                          (walk_limit (block_count g) limit)) count) s.
Proof using Hg.
  intros Hs Hba Hcount Hlim. unfold nmbm_try_reserve_blocks.
  set (l := good_asc _ _ _). change (i32 0) with 0. rewrite (i32_small count) by lia.
  apply (wp_loop
    (fun nb s' => s' = s /\ -1 <= nb <= count /\ (nb = count \/ (length l <= Z.to_nat (nb + 1))%nat))
    (fun nb _ => Z.to_nat (nb + 1))); [|split_and!; lia || done || (by left)|lia].
  intros nb s' (-> & Hnb & Hcov). rewrite Z.geb_leb. destruct (Z.leb_spec 0 nb) as [Hge|].
  - apply wp_bind. unfold nmbm_block_walk. rewrite i32_i32, !u32_i32, !u32_small by lia.
    wp_call wp_walk_asc; [done|lia|lia|lia|]. intros r s' [-> ->]. fold l.
    destruct (l !! Z.to_nat nb) as [x|] eqn:E; apply wp_ret.
    + split; [done|]. apply lookup_lt_Some in E as Hlt. unfold reserve_ref.
      rewrite <- E. f_equal. destruct Hcov as [->|]; lia.
    + apply lookup_ge_None in E. rewrite i32_small by lia.
      split; [split_and!; try done; try lia|lia].
  - apply wp_ret. split; [done|]. unfold reserve_ref.
    assert (length l = 0)%nat as Hl by lia. by destruct l.
Qed.

(** * Scanning and mapping *)

(** After a scan: only page cache and block states changed, no block was
    written, and every block state is what it was or bad. *)
Record scan_rel (s s' : nst chip) : Prop := {
  scan_ok : st_ok g s';
  scan_dev : dev_steps g (fun _ => False) (dev s) (dev s');
  scan_ni : ni s' = set_page_cache (page_cache (ni s'))
              (set_block_state (block_state (ni s'))
                 (set_block_state_changed (block_state_changed (ni s')) (ni s)));
  scan_bs : forall b, 0 <= b < block_count g ->
    bstate (block_state (ni s')) b = bstate (block_state (ni s)) b \/
    bstate (block_state (ni s')) b = BLOCK_ST_BAD
}.

Lemma scan_rel_chip s s1 s2 :
  scan_rel s s1 -> chip_rel g (fun _ => False) s1 s2 -> scan_rel s s2.
Proof using.
  intros [H1 H2 H3 H4] Hrel. pose proof (st_ok_chip_rel _ _ _ _ H1 Hrel).
  destruct Hrel as (H5 & _ & H6). split.
  - done.
  - by etrans.
  - rewrite H6, H3. done.
  - by rewrite H6.
Qed.

Lemma scan_rel_set s s1 ba sc :
  scan_rel s s1 -> 0 <= ba < block_count g -> 0 <= sc < 2 ^ 32 ->
  scan_rel s (mk_nst (set_block_state_changed sc
    (set_block_state (bs_set (block_state (ni s1)) ba BLOCK_ST_BAD) (ni s1))) (dev s1)).
Proof using Hg.
  intros [[H1 H2 H3 H4] H5 H6 H7] Hba Hsc. split; cbn.
  - split; cbn; [done|done|by apply bs_set_ok|done].
  - done.
  - rewrite H6. by destruct (ni s).
  - intros b Hb. rewrite (bstate_set g Hg) by done. destruct (b =? ba); [by right|]. by apply H7.
Qed.

Lemma wp_scan_badblocks `{!lower_contract (lower g)} s :
  st_ok g s -> wp nmbm_scan_badblocks (fun _ s' => scan_rel s s') s.
Proof using Hg.
  intros Hs. unfold nmbm_scan_badblocks. apply wp_bind, wp_gets. rewrite (st_geo _ _ Hs).
  pose proof (geo_count g Hg).
  apply (wp_loop (fun ba s' => 0 <= ba <= block_count g /\ scan_rel s s')
    (fun ba _ => Z.to_nat (block_count g - ba))); [|split; [lia|]|lia].
  2: { split; [done|constructor|by rewrite set_bs_eta|by left]. }
  intros ba s1 (Hba & HQ). destruct (Z.ltb_spec ba (block_count g)) as [Hlt|];
    [|by apply wp_ret].
  apply wp_bind. wp_call (wp_nmbm_check_bad_phys_block g Hg (fun _ => False)); [apply HQ|].
  intros bad s2 Hrel2. pose proof (scan_rel_chip _ _ _ HQ Hrel2) as HQ2.
  rewrite u32_small by lia. apply wp_bind.
  assert (forall s3, scan_rel s s3 ->
    wp (ret (inl (B := unit) (ba + 1)))
      (fun r s' => match r with
       | inl l' => (0 <= l' <= block_count g /\ scan_rel s s') /\
                   (Z.to_nat (block_count g - l') < Z.to_nat (block_count g - ba))%nat
       | inr _ => scan_rel s s' end : Prop) s3) as Hnext.
  { intros s3 Hs3. apply wp_ret. split; [split; [lia|done]|lia]. }
  destruct bad; [|by apply wp_ret, Hnext].
  pose proof (scan_ok _ _ HQ2) as Hok2.
  apply (wp_set_block_state g Hg); [done|lia|]. cbn.
  destruct (_ =? _); apply Hnext; [|by apply scan_rel_set; [|lia|apply u32_range]].
  destruct s2 as [n c]. pose proof (scan_rel_set _ _ ba _ HQ2 ltac:(lia) (st_changed _ _ Hok2)) as Hr.
  cbn in *. by destruct n.
Qed.

Definition mapping_rel (bm : list Z) (dbc : Z) (s s' : nst chip) : Prop :=
  s' = mk_nst (set_block_mapping bm (set_data_block_count dbc (ni s))) (dev s).

Lemma wp_set_mapping i v (Q : unit -> nst chip -> Prop) s :
  0 <= i < Z.of_nat (length (block_mapping (ni s))) ->
  Q tt (set_ni (set_block_mapping (<[Z.to_nat i := v]> (block_mapping (ni s)))) s) ->
  wp (set_mapping i v) Q s.
Proof using.
  intros Hi HQ. unfold set_mapping. apply wp_bind, wp_gets.
  destruct (Z.leb_spec 0 i), (Z.ltb_spec i (Z.of_nat (length (block_mapping (ni s)))));
    try lia. by apply wp_modify.
Qed.

(** The initial mapping: the usable blocks in order, then [-1]. *)
(** The second loop: the entries behind the mapped ones become [-1]. *)
Lemma wp_fill_unmapped (l m0 : list Z) s s2 :
  (length l <= Z.to_nat (block_count g))%nat -> Z.of_nat (length m0) = block_count g ->
  mapping_rel (l ++ drop (length l) m0) (Z.of_nat (length l)) s s2 ->
  wp (loop (S (Z.to_nat (block_count g - Z.of_nat (length l))))
        (fun pb => if pb <? block_count g then
                     do* set_mapping pb (-1) in ret (inl (u32 (pb + 1)))
                   else ret (inr tt)) (Z.of_nat (length l)))
    (fun _ s' => mapping_rel (l ++ replicate (Z.to_nat (block_count g) - length l) (-1))
       (Z.of_nat (length l)) s s') s2.
Proof using Hg.
  intros Hl Hlen Hs2. pose proof (geo_count g Hg).
  apply (wp_loop
    (fun pb s' => exists k, pb = Z.of_nat (length l + k) /\
       (length l + k <= Z.to_nat (block_count g))%nat /\
       mapping_rel ((l ++ replicate k (-1)) ++ drop (length l + k) m0) (Z.of_nat (length l)) s s')
    (fun pb _ => Z.to_nat (block_count g - pb))).
  - intros pb' s3 (k & -> & Hk & ->).
    destruct (Z.ltb_spec (Z.of_nat (length l + k)) (block_count g)) as [Hlt'|].
    + apply wp_bind, wp_set_mapping.
      { cbn. rewrite !length_app, length_replicate, length_drop. lia. }
      apply wp_ret. rewrite u32_small by lia. split; [|lia].
      exists (S k). split_and!; [lia|lia|]. unfold mapping_rel, set_ni. cbn. f_equal.
      rewrite Nat2Z.id.
      replace (length l + k)%nat with (length (l ++ replicate k (-1)))
        by (rewrite length_app, length_replicate; lia).
      rewrite insert_boundary by (rewrite length_drop, length_app, length_replicate; lia).
      rewrite drop_drop, <- (app_assoc l), <- replicate_cons_app.
      rewrite length_app, length_replicate.
      replace (length l + S k)%nat with (length l + k + 1)%nat by lia.
      by destruct (ni s).
    + apply wp_ret. unfold mapping_rel. rewrite drop_ge, app_nil_r by lia.
      replace (Z.to_nat (block_count g) - length l)%nat with k by lia. done.
  - exists 0%nat. rewrite Nat.add_0_r, app_nil_r. split_and!; [done|lia|done].
  - lia.
Qed.

Lemma wp_build_mapping_table s :
  st_ok g s -> 0 <= mgmt_start_ba (ni s) <= block_count g ->
  Z.of_nat (length (block_mapping (ni s))) = block_count g ->
  wp nmbm_build_mapping_table
    (fun _ s' =>
       let l := usable (block_state (ni s)) (mgmt_start_ba (ni s)) in
       mapping_rel (l ++ replicate (Z.to_nat (block_count g) - length l) (-1))
         (Z.of_nat (length l)) s s') s.
Proof using Hg.
  intros Hs Hm Hlen. unfold nmbm_build_mapping_table.
  apply wp_bind, wp_gets. rewrite (st_geo _ _ Hs). apply wp_bind, wp_gets.
  pose proof (geo_count g Hg). set (bs := block_state (ni s)).
  set (mgmt := mgmt_start_ba (ni s)) in *. set (m0 := block_mapping (ni s)) in *.
  apply wp_bind.
  apply (wp_loop
    (fun '(pb, lb) s' => 0 <= pb <= mgmt /\ lb = Z.of_nat (length (usable bs pb)) /\
       s' = mk_nst (set_block_mapping (usable bs pb ++ drop (length (usable bs pb)) m0) (ni s))
              (dev s))
    (fun '(pb, _) _ => Z.to_nat (mgmt - pb))).
  - intros [pb lb] s1 (Hpb & -> & ->). pose proof (usable_length bs pb ltac:(lia)).
    destruct (Z.ltb_spec pb mgmt) as [Hlt|Hge].
    + apply wp_bind, (wp_get_block_state g Hg); [destruct Hs; by split|lia|]. cbn. fold bs.
      rewrite !u32_small, i32_small by lia.
      pose proof (usable_succ bs pb ltac:(lia)) as Hsucc.
      destruct (Z.eqb_spec (bstate bs pb) BLOCK_ST_BAD) as [Hbad|Hbad].
      * rewrite decide_True, app_nil_r in Hsucc by done. apply wp_ret.
        split; [split_and!; [lia|lia|by rewrite Hsucc|by rewrite Hsucc]|lia].
      * rewrite decide_False in Hsucc by done. apply wp_bind, wp_set_mapping.
        { cbn. rewrite length_app, length_drop. lia. }
        apply wp_ret. split; [|lia]. split_and!; [lia|lia|rewrite Hsucc, length_app; cbn; lia|].
        unfold set_ni. cbn. f_equal. rewrite Nat2Z.id, insert_boundary by (rewrite length_drop; lia).
        rewrite drop_drop, Hsucc, length_app. by destruct (ni s).
    + assert (pb = mgmt) as -> by lia. apply wp_ret.
      apply wp_bind, wp_modify. apply (wp_fill_unmapped _ m0); [lia|done|].
      unfold mapping_rel, set_ni. cbn. by destruct (ni s).
  - split_and!; [lia|lia|done|]. cbn. unfold m0. rewrite drop_0. destruct s as [n c]. by destruct n.
  - cbn. lia.
Qed.
End walk.
