(* ===== verification/NmbmTableSpec.v ===== *)
(** Specifications of the info table operations of NMBM: the layout of the
    management area is an invariant, only blocks of the management area are
    changed, and the update loop terminates. *)

From stdpp Require Import base list numbers sets relations.
From Stdlib Require Import ZArith Lia.
From S2P Require Import Prelude NmbmTypes NmbmChip NmbmBlocks NmbmTable NmbmSpec NmbmBlockSpec.
From S2P Require Import NmbmWalk.
Local Open Scope Z_scope.
Local Open Scope cprog_scope.

Lemma length_words_bytes ws : length (words_bytes ws) = (4 * length ws)%nat.
Proof.
  unfold words_bytes. induction ws as [|w ws IH]; [done|].
  cbn [mbind list_bind length]. rewrite length_app, length_le_bytes, IH. lia.
Qed.

Lemma length_header_bytes h : length (header_bytes h) = 16%nat.
Proof. unfold header_bytes. rewrite !length_app, !length_le_bytes. done. Qed.

Lemma length_info_table_header_bytes t : length (info_table_header_bytes t) = 32%nat.
Proof.
  unfold info_table_header_bytes. rewrite !length_app, !length_le_bytes, length_header_bytes. done.
Qed.

Section checksum_length.
Context {C : Crc32}.

Lemma length_clear_checksum d : (16 <= length d)%nat -> length (clear_checksum d) = length d.
Proof. intros. unfold clear_checksum. rewrite length_blit; rewrite ?length_le_bytes; lia. Qed.

Lemma length_update_checksum d :
  (16 <= length d)%nat -> length (nmbm_update_checksum d) = length d.
Proof.
  intros. unfold nmbm_update_checksum. rewrite length_blit; rewrite ?length_le_bytes;
    rewrite ?length_clear_checksum; lia.
Qed.
End checksum_length.

Lemma blit_all buf src : length src = length buf -> blit buf 0 src = src.
Proof. intros H. unfold blit. cbn. rewrite drop_ge by lia. by rewrite app_nil_r. Qed.

Section table_spec.
Context {chip : Type} {C : Crc32} (g : nmbm_geometry chip).
Context (Hg : geom_ok g) `{Hl : !lower_contract (lower g)}.
Abbreviation prog := (M (nst chip)).

(** * Invariants *)

Record base_ok (s : nst chip) : Prop := {
  bo_st : st_ok g s;
  bo_cache : Z.of_nat (length (info_table_cache (ni s))) = info_table_size g;
  bo_mapping : Z.of_nat (length (block_mapping (ni s))) = block_count g;
  bo_state_off : 0 <= state_table_off (info_table (ni s)) /\
    state_table_off (info_table (ni s)) + state_table_size g <= info_table_size g;
  bo_mapping_off : 0 <= mapping_table_off (info_table (ni s)) /\
    mapping_table_off (info_table (ni s)) + mapping_table_size g <= info_table_size g;
  bo_area : 0 < mgmt_start_ba (ni s) <= mapping_blocks_top_ba (ni s) /\
    mapping_blocks_top_ba (ni s) < block_count g
}.

(** The layout of the management area: main table, backup table, spare blocks
    up to [mapping_blocks_top_ba].  An address of [0] stands for a missing
    table. *)
Record layout (n : nmbm_instance chip) : Prop := {
  lay_mapping : mgmt_start_ba n <= mapping_blocks_ba n <= mapping_blocks_top_ba n;
  lay_main : main_table_ba n = 0 \/ mgmt_start_ba n <= main_table_ba n < mapping_blocks_ba n;
  lay_backup : backup_table_ba n = 0 \/
    main_table_ba n <> 0 /\ main_table_ba n < backup_table_ba n < mapping_blocks_ba n
}.

Definition tab_ok (s : nst chip) : Prop := base_ok s /\ layout (ni s).

(** What the table operations leave alone. *)
Definition keep (n : nmbm_instance chip) :=
  (signature n, block_mapping n, data_block_count n, mgmt_start_ba n,
   mapping_blocks_top_ba n, signature_ba n, log_display_level n).

Definition counters (n : nmbm_instance chip) : Z * Z :=
  (block_state_changed n, block_mapping_changed n).

Definition goods (s : nst chip) : nat := good_count (block_state (ni s)) (block_count g).

(** The blocks the info tables may use. *)
Definition area (n : nmbm_instance chip) : Z -> Prop :=
  blocks_in (mgmt_start_ba n) (mapping_blocks_top_ba n).

Record base_rel (s s' : nst chip) : Prop := {
  rel_dev : dev_steps g (area (ni s)) (dev s) (dev s');
  rel_ok : base_ok s';
  rel_keep : keep (ni s') = keep (ni s);
  rel_bs : forall b, 0 <= b < block_count g ->
    bstate (block_state (ni s')) b = bstate (block_state (ni s)) b \/
    (area (ni s) b /\ bstate (block_state (ni s)) b = BLOCK_ST_GOOD /\
     bstate (block_state (ni s')) b = BLOCK_ST_BAD);
  rel_counters : counters (ni s') = counters (ni s) /\ goods s' = goods s \/
    counters (ni s') = (0, 0) /\ (goods s' <= goods s)%nat \/ (goods s' < goods s)%nat
}.

Lemma keep_area n n' : keep n' = keep n -> area n' = area n.
Proof. unfold keep, area. intros [=]. congruence. Qed.

Lemma base_rel_refl s : base_ok s -> base_rel s s.
Proof using. intros. split; [constructor|done|done|by left|by left]. Qed.

Lemma rel_goods s s' : base_rel s s' -> (goods s' <= goods s)%nat.
Proof using. intros []. lia. Qed.

Lemma base_rel_trans s1 s2 s3 : base_rel s1 s2 -> base_rel s2 s3 -> base_rel s1 s3.
Proof using.
  intros [A1 A2 A3 A4 A5] [B1 B2 B3 B4 B5].
  rewrite (keep_area _ _ A3) in *. split.
  - by etrans.
  - done.
  - congruence.
  - intros b Hb. specialize (A4 b Hb). specialize (B4 b Hb).
    destruct A4 as [A4|(?&?&?)], B4 as [B4|(?&?&?)]; [left; congruence|..]; right;
      split_and!; try done; congruence.
  - destruct A5 as [[A5 ?]|[[A5 ?]|A5]], B5 as [[B5 ?]|[[B5 ?]|B5]];
      try (right; right; lia); try (right; left; split; [congruence|lia]).
    left. split; [congruence|lia].
Qed.

(** An operation on management blocks inside the area. *)
Lemma blk_base_rel (B : Z -> Prop) s s' :
  base_ok s -> (forall b, B b -> area (ni s) b) -> blk_rel g B s s' -> base_rel s s'.
Proof using.
  intros [H1 H2 H3 H4 H5 H6] HB [A1 A2 A3 [A4 A5]].
  assert (keep (ni s') = keep (ni s)) as Hkeep by (rewrite A3; done).
  split.
  - eapply dev_steps_mono; [exact HB|done].
  - split; [done|rewrite A3; done..].
  - done.
  - intros b Hb. destruct (A4 b Hb) as [?|(?&?&?)]; eauto.
  - unfold goods, counters. destruct A5 as [[A5 A6]|A5]; [left|by right; right].
    rewrite A5, A6. split; [rewrite A3; done|done].
Qed.

(** Assignments to the members that record where the tables are. *)
Lemma upd_base_rel f s :
  base_ok s ->
  (forall n, geo (f n) = geo n /\ keep (f n) = keep n /\ page_cache (f n) = page_cache n /\
     block_state (f n) = block_state n /\ counters (f n) = counters n /\
     info_table (f n) = info_table n /\ info_table_cache (f n) = info_table_cache n) ->
  base_rel s (set_ni f s).
Proof using.
  intros [[H1 H1' H1'' H1'''] H2 H3 H4 H5 H6] Hf.
  destruct (Hf (ni s)) as (F1 & F2 & F3 & F4 & F5 & F6 & F7).
  split.
  - apply rtc_refl.
  - unfold keep in F2. unfold counters in F5.
    injection F2 as E1 E2 E3 E4 E5 E6 E7. injection F5 as E8 E9.
    split; cbn; rewrite ?F6, ?F7, ?E2, ?E4, ?E5; try done.
    split; cbn; rewrite ?F3, ?F4, ?E8; congruence.
  - done.
  - cbn. rewrite F4. by left.
  - left. unfold goods. cbn. by rewrite F4.
Qed.

Lemma clean_base_rel s :
  base_ok s ->
  base_rel s (mk_nst (set_block_mapping_changed 0 (set_block_state_changed 0 (ni s))) (dev s)).
Proof using.
  intros [[H1 H1' H1'' H1'''] H2 H3 H4 H5 H6].
  split; [apply rtc_refl| |done|by left|right; left; split; [done|unfold goods; cbn; lia]].
  split; try done.
Qed.

(** Where the tables are, and the write protection. *)
Definition tabs (n : nmbm_instance chip) :=
  (main_table_ba n, backup_table_ba n, mapping_blocks_ba n, protected n).

Lemma blk_tabs (B : Z -> Prop) (s s' : nst chip) :
  blk_rel g B s s' -> tabs (ni s') = tabs (ni s).
Proof using. intros [_ _ A3 _]. rewrite A3. done. Qed.

(** A table operation that leaves the record of the tables alone. *)
Definition base_rel' (s s' : nst chip) : Prop := base_rel s s' /\ tabs (ni s') = tabs (ni s).

Lemma wp_write_info_table ba limit s :
  base_ok s -> mgmt_start_ba (ni s) <= ba -> limit <= mapping_blocks_top_ba (ni s) ->
  wp (nmbm_write_info_table ba limit)
    (fun r s' => base_rel' s s' /\
       match r with
       | None => True
       | Some (start, end_) => ba <= start < end_ /\ end_ <= limit
       end) s.
Proof using Hg Hl.
  intros Hs Hba Hlim. unfold nmbm_write_info_table. apply wp_bind, wp_gets, wp_bind, wp_gets.
  pose proof (bo_area _ Hs). pose proof (geo_table g Hg) as Ht.
  unfold sizeof_nmbm_info_table_header in Ht. rewrite (st_geo _ _ (bo_st _ Hs)).
  wp_call (wp_nmbm_write_mgmt_range g Hg);
    [apply Hs|lia|lia|lia|rewrite (bo_cache _ Hs); lia|].
  intros r s' [Hrel Hr]. split; [|done]. split; [|eauto using blk_tabs].
  apply (blk_base_rel (blocks_in ba limit)); [done| |done].
  intros b. unfold area, blocks_in. lia.
Qed.

Lemma wp_erase_range ba limit s :
  base_ok s -> mgmt_start_ba (ni s) <= ba -> limit <= mapping_blocks_top_ba (ni s) ->
  wp (nmbm_erase_range ba limit) (fun _ s' => base_rel' s s') s.
Proof using Hg Hl.
  intros Hs Hba Hlim. pose proof (bo_area _ Hs).
  wp_call (wp_nmbm_erase_range g Hg); [apply Hs|lia|lia|].
  intros _ s' Hrel. split; [|eauto using blk_tabs].
  apply (blk_base_rel (blocks_in ba limit)); [done| |done].
  intros b. unfold area, blocks_in. lia.
Qed.

Lemma wp_reserve {A} ba s (k : option Z -> prog A) (Q : A -> nst chip -> Prop) :
  base_ok s -> 0 <= ba -> wp (k None) Q s ->
  (forall x, ba <= x < block_count g -> wp (k (Some x)) Q s) ->
  wp (let* limit := reserve_limit in
      let* r := nmbm_try_reserve_blocks ba (info_table_spare_blocks g) 0 limit in
      k r) Q s.
Proof using Hg.
  intros Hs Hba HN HS. apply wp_bind. unfold reserve_limit.
  apply wp_bind, wp_gets, wp_bind, wp_gets, wp_ret.
  pose proof (geo_spare g Hg). pose proof (geo_count g Hg). apply wp_bind.
  wp_call (wp_try_reserve_blocks g Hg); [apply Hs|lia|lia|apply u32_range|].
  intros r s' [-> ->]. unfold reserve_ref.
  destruct (_ !! _) as [x|] eqn:E; [|done]. apply HS.
  apply list_elem_of_lookup_2, elem_of_good_asc in E as [E _].
  unfold walk_limit in E. destruct (_ >=? _) eqn:?; lia.
Qed.

Lemma wp_write_info_table_desc write_ba floor top s :
  base_ok s -> top = mapping_blocks_top_ba (ni s) -> mgmt_start_ba (ni s) <= floor ->
  floor <= write_ba < 2 ^ 32 ->
  wp (write_info_table_desc write_ba floor top)
    (fun r s' => base_rel' s s' /\
       match r with
       | None => True
       | Some (start, end_) => floor <= start < end_ /\ end_ <= top
       end) s.
Proof using Hg Hl.
  intros Hs -> Hfl Hw. unfold write_info_table_desc. pose proof (bo_area _ Hs).
  apply (wp_loop
    (fun '(w, tried) s' => floor - 1 <= w <= write_ba /\ (tried = true \/ w = write_ba) /\
       base_rel' s s')
    (fun '(w, _) _ => Z.to_nat (w - floor + 1)));
    [|split_and!; [lia|lia|by right|by split; [apply base_rel_refl|]]|cbn; lia].
  intros [w tried] s1 (Hw1 & Htried & Hrel1 & Htabs1).
  rewrite Z.geb_leb. destruct (Z.leb_spec floor w).
  - pose proof (rel_keep _ _ Hrel1) as [=]. apply wp_bind.
    wp_call wp_write_info_table; [apply Hrel1|lia|lia|].
    intros r s2 [[Hrel2 Htabs2] Hr].
    assert (base_rel' s s2) by (split; [by eapply base_rel_trans|congruence]).
    destruct r as [[start end_]|]; apply wp_ret; [split; [done|lia]|].
    rewrite u32_small by lia. split; [split_and!; try done; lia|lia].
  - destruct tried; [by apply wp_ret|]. destruct Htried; [done|lia].
Qed.

(** * Generating the table image *)

(** The header [nmbm_generate_info_table_cache] writes. *)
Definition next_header (n : nmbm_instance chip) : nmbm_info_table_header :=
  let it := info_table n in
  let changed := negb (block_state_changed n =? 0) || negb (block_mapping_changed n =? 0) in
  mk_nmbm_info_table_header
    (mk_nmbm_header NMBM_MAGIC_INFO_TABLE NMBM_VER (info_table_size g) (checksum (ift_header it)))
    (if changed then u32 (write_count it + 1) else write_count it)
    (state_table_off it) (mapping_table_off it) (ift_padding it).

(** The table before the header is copied in. *)
Definition table_body (it : nmbm_info_table_header) (bs bm : list Z) : list Z :=
  blit (blit (replicate (Z.to_nat (info_table_size g)) 0xff) (state_table_off it)
          (take (Z.to_nat (state_table_size g)) (words_bytes bs)))
    (mapping_table_off it) (take (Z.to_nat (mapping_table_size g)) (words_bytes bm)).

Definition table_image (it : nmbm_info_table_header) (bs bm : list Z) : list Z :=
  nmbm_update_checksum (blit (table_body it bs bm) 0 (info_table_header_bytes it)).

Lemma table_sizes_nonneg : 0 <= state_table_size g /\ 0 <= mapping_table_size g.
Proof using Hg.
  rewrite (geo_state g Hg), (geo_mapping g Hg). pose proof (geo_count g Hg).
  assert (0 <= (block_count g + 15) / 16) by (apply Z.div_pos; lia). lia.
Qed.

Lemma length_table_body s :
  base_ok s ->
  Z.of_nat (length (table_body (info_table (ni s)) (block_state (ni s)) (block_mapping (ni s))))
    = info_table_size g.
Proof using Hg.
  intros Hs. pose proof (bo_state_off _ Hs). pose proof (bo_mapping_off _ Hs).
  pose proof table_sizes_nonneg.
  pose proof (geo_table g Hg) as Ht. unfold sizeof_nmbm_info_table_header in Ht.
  unfold table_body. set (inner := blit (replicate _ _) _ _).
  assert (Z.of_nat (length inner) = info_table_size g).
  { unfold inner. rewrite length_blit; rewrite ?length_replicate, ?length_take; lia. }
  rewrite length_blit; rewrite ?length_take; lia.
Qed.

Lemma wp_table_cache_put off bytes (Q : unit -> nst chip -> Prop) s :
  0 <= off -> off + Z.of_nat (length bytes) <= Z.of_nat (length (info_table_cache (ni s))) ->
  Q tt (set_ni (set_info_table_cache (blit (info_table_cache (ni s)) off bytes)) s) ->
  wp (table_cache_put off bytes) Q s.
Proof using.
  intros. unfold table_cache_put. apply wp_bind, wp_gets.
  rewrite in_bounds_true by lia. by apply wp_modify.
Qed.

Lemma wp_generate (Q : bool -> nst chip -> Prop) s :
  base_ok s ->
  (let it := next_header (ni s) in
   Q (negb (block_state_changed (ni s) =? 0) || negb (block_mapping_changed (ni s) =? 0))
     (mk_nst (set_info_table_cache (table_image it (block_state (ni s)) (block_mapping (ni s)))
                (set_info_table it (ni s))) (dev s))) ->
  wp nmbm_generate_info_table_cache Q s.
Proof using Hg.
  intros Hs HQ. pose proof (bo_state_off _ Hs). pose proof (bo_mapping_off _ Hs).
  pose proof table_sizes_nonneg.
  pose proof (bo_cache _ Hs) as Hc. pose proof (length_table_body _ Hs) as Hb.
  pose proof (geo_table g Hg) as Ht. unfold sizeof_nmbm_info_table_header in Ht.
  unfold nmbm_generate_info_table_cache.
  apply wp_bind, wp_gets. rewrite (st_geo _ _ (bo_st _ Hs)).
  apply wp_bind, wp_table_cache_put; [lia|rewrite length_replicate; lia|].
  rewrite blit_all by (rewrite length_replicate; lia).
  apply wp_bind, wp_gets, wp_bind, wp_gets, wp_bind. cbn.
  apply wp_table_cache_put; cbn; [lia|rewrite length_replicate, length_take; lia|].
  apply wp_bind, wp_gets, wp_bind. cbn.
  apply wp_table_cache_put; cbn;
    [lia|rewrite length_blit; rewrite ?length_replicate, ?length_take; lia|].
  apply wp_bind, wp_gets, wp_bind, wp_gets, wp_bind, wp_modify, wp_bind. cbn.
  apply wp_table_cache_put; cbn; [lia| |].
  { rewrite length_info_table_header_bytes. unfold table_body in Hb. lia. }
  exact HQ.
Qed.

Lemma generate_base_rel s :
  base_ok s -> let it := next_header (ni s) in
  base_rel' s (mk_nst (set_info_table_cache
                         (table_image it (block_state (ni s)) (block_mapping (ni s)))
                         (set_info_table it (ni s))) (dev s)).
Proof using Hg.
  intros Hs it. pose proof (length_table_body _ Hs) as Hb.
  pose proof (geo_table g Hg) as Ht. unfold sizeof_nmbm_info_table_header in Ht.
  destruct Hs as [[G1 G2 G3 G4] H2 H3 H4 H5 H6].
  split; [|done]. split; [apply rtc_refl| |done|by left|by left].
  split; cbn; try done.
  unfold table_image.
  change (table_body it _ _) with
    (table_body (info_table (ni s)) (block_state (ni s)) (block_mapping (ni s))).
  rewrite length_update_checksum; rewrite length_blit;
    rewrite ?length_info_table_header_bytes; lia.
Qed.

(** * Rebuilding and rescuing *)

(** The tables are clean, or fewer blocks are good than in [s]. *)
Definition settled (s s' : nst chip) : Prop :=
  counters (ni s') = (0, 0) \/ (goods s' < goods s)%nat.

Lemma settled_rel s s1 s2 : base_rel s s1 -> settled s s1 -> base_rel s1 s2 -> settled s s2.
Proof using.
  intros H1%rel_goods H2 H3. destruct H2 as [H2|H2], (rel_counters _ _ H3) as [[? ?]|[[? ?]|?]];
    try (left; congruence); right; lia.
Qed.

(** [at_tables s0 s m b mba p z]: in the course of an operation that was started
    in [s0] the state is [s], with the main table at [m], the backup table at
    [b], spare blocks from [mba] on and write protection [p]; [z] says that the
    changes of the tables have been dealt with. *)
Record at_tables (s0 s : nst chip) (m b mba p : Z) (z : bool) : Prop := {
  at_rel : base_rel s0 s;
  at_tabs : tabs (ni s) = (m, b, mba, p);
  at_settled : z = true -> settled s0 s
}.

Lemma at_tables_init s :
  base_ok s ->
  at_tables s s (main_table_ba (ni s)) (backup_table_ba (ni s)) (mapping_blocks_ba (ni s))
    (protected (ni s)) false.
Proof using. intros. split; [by apply base_rel_refl|done|done]. Qed.

Lemma at_top s0 s m b mba p z :
  at_tables s0 s m b mba p z -> mapping_blocks_top_ba (ni s) = mapping_blocks_top_ba (ni s0).
Proof using. intros [[_ _ [=] _ _] _ _]. congruence. Qed.

Lemma at_mgmt s0 s m b mba p z :
  at_tables s0 s m b mba p z -> mgmt_start_ba (ni s) = mgmt_start_ba (ni s0).
Proof using. intros [[_ _ [=] _ _] _ _]. congruence. Qed.

Lemma at_ok s0 s m b mba p z : at_tables s0 s m b mba p z -> base_ok s.
Proof using. intros [[_ H _ _ _] _ _]. done. Qed.

Lemma at_step s0 s s' m b mba p z :
  at_tables s0 s m b mba p z -> base_rel' s s' -> at_tables s0 s' m b mba p z.
Proof using.
  intros [H1 H2 H3] [H4 H5]. split; [by eapply base_rel_trans|congruence|].
  intros Hz. eapply settled_rel; [exact H1|by apply H3|done].
Qed.

Section at_rules.
Context {A : Type} (s0 s : nst chip) (m b mba p : Z) (z : bool).
Context (Hat : at_tables s0 s m b mba p z) (k : unit -> prog A) (Q : A -> nst chip -> Prop).

Lemma at_upd f m' b' mba' p' :
  (forall n, geo (f n) = geo n /\ keep (f n) = keep n /\ page_cache (f n) = page_cache n /\
     block_state (f n) = block_state n /\ counters (f n) = counters n /\
     info_table (f n) = info_table n /\ info_table_cache (f n) = info_table_cache n) ->
  (forall n, tabs n = (m, b, mba, p) -> tabs (f n) = (m', b', mba', p')) ->
  (forall s', at_tables s0 s' m' b' mba' p' z -> wp (k tt) Q s') ->
  wp (bind (upd f) k) Q s.
Proof using Hat.
  intros Hf Ht Hk. apply wp_bind, wp_modify, Hk. destruct Hat as [H1 H2 H3].
  pose proof (upd_base_rel f s (rel_ok _ _ H1) Hf) as Hu.
  split; [by eapply base_rel_trans|cbn; auto|].
  intros Hz. eapply settled_rel; [exact H1|by apply H3|done].
Qed.

Ltac solve_upd :=
  intros Hk; eapply at_upd; [| |exact Hk];
  [intros ?; split_and!; reflexivity|intros ? [=]; unfold tabs; cbn; congruence].

Lemma at_set_main v :
  (forall s', at_tables s0 s' v b mba p z -> wp (k tt) Q s') ->
  wp (bind (upd (set_main_table_ba v)) k) Q s.
Proof using Hat. solve_upd. Qed.

Lemma at_set_backup v :
  (forall s', at_tables s0 s' m v mba p z -> wp (k tt) Q s') ->
  wp (bind (upd (set_backup_table_ba v)) k) Q s.
Proof using Hat. solve_upd. Qed.

Lemma at_set_mba v :
  (forall s', at_tables s0 s' m b v p z -> wp (k tt) Q s') ->
  wp (bind (upd (set_mapping_blocks_ba v)) k) Q s.
Proof using Hat. solve_upd. Qed.

Lemma at_set_protected v :
  (forall s', at_tables s0 s' m b mba v z -> wp (k tt) Q s') ->
  wp (bind (upd (set_protected v)) k) Q s.
Proof using Hat. solve_upd. Qed.

Lemma at_clean :
  (forall s', at_tables s0 s' m b mba p true -> wp (k tt) Q s') ->
  wp (bind nmbm_mark_tables_clean k) Q s.
Proof using Hat.
  intros Hk. apply wp_bind, wp_bind, wp_modify, wp_modify, Hk. destruct Hat as [H1 H2 _].
  split; [eapply base_rel_trans; [exact H1|]; apply clean_base_rel, H1|done|by left].
Qed.

Lemma at_erase ba limit :
  mgmt_start_ba (ni s0) <= ba -> limit <= mapping_blocks_top_ba (ni s0) ->
  (forall s', at_tables s0 s' m b mba p z -> wp (k tt) Q s') ->
  wp (bind (nmbm_erase_range ba limit) k) Q s.
Proof using Hat Hg Hl.
  intros Hba Hlim Hk. pose proof (at_top _ _ _ _ _ _ _ Hat). pose proof (at_mgmt _ _ _ _ _ _ _ Hat).
  apply wp_bind. wp_call wp_erase_range; [by eapply at_ok|lia|lia|].
  intros [] s' Hrel. by eapply Hk, at_step.
Qed.
End at_rules.

Section at_rules2.
Context {A : Type} (s0 s : nst chip) (m b mba p : Z) (z : bool).
Context (Hat : at_tables s0 s m b mba p z) (Q : A -> nst chip -> Prop).

Lemma at_write ba limit (k : option (Z * Z) -> prog A) :
  mgmt_start_ba (ni s0) <= ba -> limit <= mapping_blocks_top_ba (ni s0) ->
  (forall s', at_tables s0 s' m b mba p z -> wp (k None) Q s') ->
  (forall s' start end_, at_tables s0 s' m b mba p z -> ba <= start < end_ -> end_ <= limit ->
     wp (k (Some (start, end_))) Q s') ->
  wp (bind (nmbm_write_info_table ba limit) k) Q s.
Proof using Hat Hg Hl.
  intros Hba Hlim HN HS. pose proof (at_top _ _ _ _ _ _ _ Hat).
  pose proof (at_mgmt _ _ _ _ _ _ _ Hat).
  apply wp_bind. wp_call wp_write_info_table; [by eapply at_ok|lia|lia|].
  intros r s' [Hrel Hr]. assert (at_tables s0 s' m b mba p z) by by eapply at_step.
  destruct r as [[start end_]|]; [apply HS|apply HN]; done || lia.
Qed.

Lemma at_write_desc write_ba floor (k : option (Z * Z) -> prog A) :
  mgmt_start_ba (ni s0) <= floor -> floor <= write_ba < 2 ^ 32 ->
  (forall s', at_tables s0 s' m b mba p z -> wp (k None) Q s') ->
  (forall s' start end_, at_tables s0 s' m b mba p z -> floor <= start < end_ ->
     end_ <= mapping_blocks_top_ba (ni s0) -> wp (k (Some (start, end_))) Q s') ->
  wp (bind (write_info_table_desc write_ba floor (mapping_blocks_top_ba (ni s0))) k) Q s.
Proof using Hat Hg Hl.
  intros Hfl Hw HN HS. pose proof (at_top _ _ _ _ _ _ _ Hat) as Htop.
  pose proof (at_mgmt _ _ _ _ _ _ _ Hat).
  apply wp_bind. wp_call wp_write_info_table_desc; [by eapply at_ok|done|lia|lia|].
  intros r s' [Hrel Hr]. assert (at_tables s0 s' m b mba p z) by by eapply at_step.
  destruct r as [[start end_]|]; [apply HS|apply HN]; done || lia.
Qed.
End at_rules2.

(** The final state of an operation on the tables. *)
Lemma at_layout s0 s m b mba p z :
  at_tables s0 s m b mba p z ->
  mgmt_start_ba (ni s0) <= mba <= mapping_blocks_top_ba (ni s0) ->
  m = 0 \/ mgmt_start_ba (ni s0) <= m < mba ->
  b = 0 \/ m <> 0 /\ m < b < mba ->
  base_rel s0 s /\ layout (ni s).
Proof using.
  intros Hat H1 H2 H3. pose proof (at_top _ _ _ _ _ _ _ Hat).
  pose proof (at_mgmt _ _ _ _ _ _ _ Hat). destruct Hat as [Hr [=] _].
  split; [done|]. split; lia.
Qed.

(** Read the members the operations read, in terms of the initial state. *)
Ltac at_ask H :=
  apply wp_bind, wp_gets;
  rewrite ?(at_top _ _ _ _ _ _ _ H), ?(at_mgmt _ _ _ _ _ _ _ H),
    ?(st_geo _ _ (bo_st _ (at_ok _ _ _ _ _ _ _ H))).

(** Apply the rule [L] for an assignment and go on in the new state. *)
Tactic Notation "at_next" uconstr(L) ident(s) hyp(H) :=
  eapply L; [exact H|]; clear s H; intros s H.

Lemma wp_rebuild s0 s m b mba p z :
  base_ok s0 -> at_tables s0 s m b mba p z ->
  wp nmbm_rebuild_info_table
    (fun r s' => base_rel s0 s' /\ layout (ni s') /\
       if r : bool then settled s0 s' /\ main_table_ba (ni s') <> 0 /\ protected (ni s') = p
       else protected (ni s') = 1) s.
Proof using Hg Hl.
  intros Hs0 H. pose proof (bo_area _ Hs0) as Harea. unfold nmbm_rebuild_info_table.
  at_ask H. at_next at_set_main s H.
  at_next at_set_backup s H. at_ask H.
  at_next at_set_mba s H. at_ask H.
  eapply at_write; [done|lia|lia|..]; clear s H.
  { intros s H. at_next at_set_protected s H. apply wp_ret.
    assert (base_rel s0 s /\ layout (ni s)) as [? ?] by (eapply at_layout; [done|lia..]).
    destruct H as [_ [=] _]. done. }
  intros s start end_ H Hst Hend.
  at_next at_set_main s H.
  at_next at_set_mba s H.
  at_next at_clean s H.
  assert (forall s b' mba', at_tables s0 s start b' mba' p true ->
    end_ <= mba' <= mapping_blocks_top_ba (ni s0) -> b' = 0 \/ start < b' < mba' ->
    base_rel s0 s /\ layout (ni s) /\ settled s0 s /\ main_table_ba (ni s) <> 0 /\
    protected (ni s) = p) as Hfin.
  { intros s1 b' mba' H1 Hm Hb.
    assert (base_rel s0 s1 /\ layout (ni s1)) as [? ?] by (eapply at_layout; [done|lia..]).
    destruct H1 as [_ [=] Hset]. split_and!; [done|done|by apply Hset|lia|done]. }
  apply wp_reserve; [by eapply at_ok|lia|apply wp_ret; eapply Hfin; [done|lia|by left]|].
  intros next Hnext. eapply at_write; [done|lia|lia|..]; clear s H.
  { intros s H. apply wp_ret. eapply Hfin; [done|lia|by left]. }
  intros s bstart bend H Hbst Hbend.
  at_next at_set_backup s H.
  at_next at_set_mba s H.
  eapply at_erase; [done|lia|lia|]. clear s H. intros s H.
  apply wp_ret. eapply Hfin; [done|lia|lia].
Qed.

(** One table exists, at [m]; on success there are two. *)
Lemma wp_rescue_single s0 s m mba p z :
  base_ok s0 -> at_tables s0 s m 0 mba p z ->
  mgmt_start_ba (ni s0) <= m < mba -> mba <= mapping_blocks_top_ba (ni s0) ->
  wp nmbm_rescue_single_info_table
    (fun r s' => base_rel s0 s' /\ layout (ni s') /\ protected (ni s') = p /\
       main_table_ba (ni s') <> 0 /\
       if r : bool then settled s0 s' /\ backup_table_ba (ni s') <> 0 else True) s.
Proof using Hg Hl.
  intros Hs0 H Hm Hmba. pose proof (bo_area _ Hs0) as Harea. pose proof (geo_count g Hg).
  assert (forall (r : bool) s m' b' mba', at_tables s0 s m' b' mba' p (r || z) ->
    mgmt_start_ba (ni s0) <= m' < mba' -> mba' <= mapping_blocks_top_ba (ni s0) ->
    (r = true -> m' < b' < mba') -> (r = false -> b' = 0) ->
    base_rel s0 s /\ layout (ni s) /\ protected (ni s) = p /\ main_table_ba (ni s) <> 0 /\
    (if r : bool then settled s0 s /\ backup_table_ba (ni s) <> 0 else True)) as Hfin.
  { intros r s1 m' b' mba' H1 Hm' Hmba' Hb Hb0.
    assert (base_rel s0 s1 /\ layout (ni s1)) as [? ?]
      by (eapply at_layout; [done|lia|lia|destruct r; [right|left]; [specialize (Hb eq_refl)|]; auto; lia]).
    destruct H1 as [_ [=] Hset].
    split_and!; try done; try lia. destruct r; [|done]. specialize (Hb eq_refl).
    split; [by apply Hset|lia]. }
  unfold nmbm_rescue_single_info_table. at_ask H. at_ask H. apply wp_bind, wp_gets.
  assert (main_table_ba (ni s) = m /\ mapping_blocks_ba (ni s) = mba) as [-> _]
    by (destruct H as [_ [=] _]; done).
  eapply at_write; [done|lia|lia|..]; clear s H.
  - intros s H. apply wp_bind, wp_gets.
    assert (mapping_blocks_ba (ni s) = mba) as -> by (destruct H as [_ [=] _]; done).
    at_ask H. apply wp_reserve; [by eapply at_ok|lia| |].
    { apply wp_ret. eapply (Hfin false); [by destruct z|lia..|done]. }
    intros x Hx. eapply at_write_desc; [done|lia|lia|..]; clear s H.
    + intros s H. apply wp_ret. eapply (Hfin false); [by destruct z|lia..|done].
    + intros s start end_ H Hst Hend. eapply at_erase; [done|lia|lia|]. clear s H. intros s H.
      at_next at_set_backup s H. at_next at_set_mba s H. at_next at_clean s H.
      apply wp_ret. eapply (Hfin true); [done|lia..|done].
  - intros s start end_ H Hst Hend.
    at_next at_set_backup s H. at_next at_set_main s H. at_next at_clean s H.
    eapply at_erase; [done|lia|lia|]. clear s H. intros s H.
    apply wp_ret. eapply (Hfin true); [done|lia..|done].
Qed.

Lemma wp_upd_tail f (Q : unit -> nst chip -> Prop) s : wp (bind (upd f) ret) Q s -> wp (upd f) Q s.
Proof using. done. Qed.

Lemma wp_update_single s0 s m b mba p z update_main :
  base_ok s0 -> at_tables s0 s m b mba p z ->
  mgmt_start_ba (ni s0) <= m < b -> b < mba -> mba <= mapping_blocks_top_ba (ni s0) ->
  wp (nmbm_update_single_info_table update_main)
    (fun r s' => base_rel s0 s' /\ layout (ni s') /\ protected (ni s') = p /\
       main_table_ba (ni s') <> 0 /\
       if r : bool then settled s0 s' /\ backup_table_ba (ni s') <> 0 else True) s.
Proof using Hg Hl.
  intros Hs0 H Hm Hb Hmba. pose proof (bo_area _ Hs0) as Harea.
  unfold nmbm_update_single_info_table.
  apply wp_bind, wp_gets, wp_bind, wp_gets. at_ask H.
  assert (main_table_ba (ni s) = m /\ backup_table_ba (ni s) = b) as [-> ->]
    by (destruct H as [_ [=] _]; done).
  destruct update_main.
  - eapply at_write; [done|lia|lia|..]; clear s H.
    + intros s H. at_next at_set_main s H. at_next at_set_backup s H.
      eapply wp_rescue_single; [done|done|lia|lia].
    + intros s start end_ H Hst Hend. at_next at_set_main s H. at_next at_clean s H.
      apply wp_ret.
      assert (base_rel s0 s /\ layout (ni s)) as [? ?] by (eapply at_layout; [done|lia..]).
      destruct H as [_ [=] Hset]. split_and!; try done; try lia. by apply Hset.
  - eapply at_write; [done|lia|lia|..]; clear s H.
    + intros s H. at_next at_set_mba s H. at_next at_set_backup s H. apply wp_ret.
      assert (base_rel s0 s /\ layout (ni s)) as [? ?] by (eapply at_layout; [done|lia..]).
      destruct H as [_ [=] Hset]. split_and!; try done; try lia.
    + intros s start end_ H Hst Hend. apply wp_bind.
      at_next at_set_backup s H. apply wp_upd_tail. at_next at_set_mba s H. apply wp_ret.
      at_next at_clean s H. apply wp_ret.
      assert (base_rel s0 s /\ layout (ni s)) as [? ?] by (eapply at_layout; [done|lia..]).
      destruct H as [_ [=] Hset]. split_and!; try done; try lia. by apply Hset.
Qed.
(** The outcome of writing the tables: the layout holds, and either the changes
    are dealt with and a main table exists, or the instance is write-protected. *)
Definition tables_post (s0 : nst chip) (p : Z) (r : bool) (s' : nst chip) : Prop :=
  base_rel s0 s' /\ layout (ni s') /\
  if r then settled s0 s' /\ main_table_ba (ni s') <> 0 /\ protected (ni s') = p
  else protected (ni s') = 1.

Lemma at_tables_post s0 s m b mba p :
  at_tables s0 s m b mba p true -> m <> 0 ->
  mgmt_start_ba (ni s0) <= m < mba -> mba <= mapping_blocks_top_ba (ni s0) ->
  b = 0 \/ m < b < mba -> tables_post s0 p true s.
Proof using.
  intros H Hm H1 H2 H3.
  assert (base_rel s0 s /\ layout (ni s)) as [? ?] by (eapply at_layout; [done|lia..]).
  destruct H as [_ [=] Hset]. split_and!; try done; try lia. by apply Hset.
Qed.

(** Both tables exist and the backup table has just been written.  The main
    table always ends before the temporary table, so the code that follows the
    check for an overwritten temporary table is never reached. *)
Lemma wp_rescue_main s0 s m b mba p :
  base_ok s0 -> at_tables s0 s m b mba p true ->
  mgmt_start_ba (ni s0) <= m < b -> b < mba -> mba <= mapping_blocks_top_ba (ni s0) ->
  wp nmbm_rescue_main_info_table
    (fun r s' => r = true /\ tables_post s0 p true s') s.
Proof using Hg Hl.
  intros Hs0 H Hm Hb Hmba. pose proof (bo_area _ Hs0) as Harea. pose proof (geo_count g Hg).
  unfold nmbm_rescue_main_info_table. at_ask H.
  apply wp_bind, wp_gets. at_ask H. apply wp_bind, wp_gets.
  assert (mapping_blocks_ba (ni s) = mba /\ backup_table_ba (ni s) = b) as [-> ->]
    by (destruct H as [_ [=] _]; done).
  apply wp_reserve; [by eapply at_ok|lia| |].
  { at_next at_set_main s H. at_next at_set_backup s H. apply wp_ret.
    split; [done|]. eapply at_tables_post; [done|lia..]. }
  intros x Hx. eapply at_write_desc; [done|lia|lia|..]; clear s H.
  { intros s H. at_next at_set_main s H. at_next at_set_backup s H. apply wp_ret.
    split; [done|]. eapply at_tables_post; [done|lia..]. }
  intros s ts te H Hts Hte. at_next at_set_mba s H. at_ask H.
  eapply at_write; [done|lia|lia|..]; clear s H.
  - intros s H. at_next at_set_main s H. at_next at_set_backup s H. at_next at_clean s H.
    apply wp_ret. split; [done|]. eapply at_tables_post; [done|lia..].
  - intros s ms me H Hms Hme. at_next at_set_main s H. at_next at_clean s H.
    destruct (Z.leb_spec me ts); [|lia].
    at_next at_set_backup s H. apply wp_ret. split; [done|].
    eapply at_tables_post; [done|lia..].
Qed.

Lemma wp_write_main_table s0 s m b mba p z limit :
  base_ok s0 -> at_tables s0 s m b mba p z ->
  mgmt_start_ba (ni s0) <= mba <= mapping_blocks_top_ba (ni s0) ->
  m = 0 \/ mgmt_start_ba (ni s0) <= m < mba ->
  b = 0 /\ limit = mapping_blocks_top_ba (ni s0) \/
    (m = 0 \/ m < b) /\ b < mba /\ limit = b /\ z = true ->
  wp (write_main_table limit) (tables_post s0 p) s.
Proof using Hg Hl.
  intros Hs0 H Hmba Hm Hb. pose proof (bo_area _ Hs0) as Harea.
  unfold write_main_table. apply wp_bind, wp_gets.
  assert (main_table_ba (ni s) = m) as -> by (destruct H as [_ [=] _]; done).
  destruct (Z.eqb_spec m 0) as [Hm0|Hm0]; [by eapply wp_rebuild|].
  eapply at_write; [done|lia|lia|..]; clear s H.
  - intros s H. apply wp_bind, wp_gets.
    assert (backup_table_ba (ni s) = b) as -> by (destruct H as [_ [=] _]; done).
    destruct (Z.eqb_spec b 0) as [Hb0|Hb0]; [by eapply wp_rebuild|].
    assert (z = true) as -> by (destruct Hb as [[? ?]|(_ & _ & _ & ?)]; done).
    wp_call wp_rescue_main; [done|done|lia|lia|lia|]. by intros r s' [-> ?].
  - intros s start end_ H Hst Hend. apply wp_bind, wp_gets.
    assert (backup_table_ba (ni s) = b) as -> by (destruct H as [_ [=] _]; done).
    at_next at_set_main s H. apply wp_bind.
    destruct (Z.eqb_spec b 0) as [Hb0|Hb0].
    + apply wp_upd_tail. at_next at_set_mba s H. apply wp_ret. at_next at_clean s H.
      apply wp_ret. eapply at_tables_post; [done|lia..].
    + apply wp_ret. at_next at_clean s H. apply wp_ret. eapply at_tables_post; [done|lia..].
Qed.

Lemma lay_cases n : layout n ->
  (main_table_ba n = 0 \/ mgmt_start_ba n <= main_table_ba n < mapping_blocks_ba n) /\
  (backup_table_ba n = 0 \/
   main_table_ba n <> 0 /\ main_table_ba n < backup_table_ba n < mapping_blocks_ba n).
Proof using. by intros []. Qed.

Lemma unchanged_counters n :
  negb (block_state_changed n =? 0) || negb (block_mapping_changed n =? 0) = false ->
  counters n = (0, 0).
Proof using.
  intros [E1%negb_false_iff%Z.eqb_eq E2%negb_false_iff%Z.eqb_eq]%orb_false_iff.
  unfold counters. by rewrite E1, E2.
Qed.

(** One round of the update: success leaves nothing to be written, or has cost
    a good block. *)
Lemma wp_update_once force s :
  tab_ok s ->
  wp (nmbm_update_info_table_once force)
    (fun r s' => base_rel s s' /\ layout (ni s') /\
       if r : bool then settled s s' /\ protected (ni s') = protected (ni s)
       else protected (ni s') = 1) s.
Proof using Hg Hl.
  intros [Hs Hlay]. pose proof (bo_area _ Hs) as Harea.
  pose proof (lay_mapping _ Hlay) as Hmba. pose proof (lay_cases _ Hlay) as [Hmain Hback].
  unfold nmbm_update_info_table_once. apply wp_bind, wp_generate; [done|].
  pose proof (generate_base_rel s Hs) as Hgen.
  pose proof (at_step _ _ _ _ _ _ _ _ (at_tables_init s Hs) Hgen) as H. cbn zeta in H.
  revert H. cbn zeta. set (s1 := mk_nst _ (dev s)). intros H.
  set (changed := _ || _). destruct (negb changed && negb force) eqn:E.
  { apply wp_ret. destruct Hgen as [Hgen Htabs]. split_and!; [done|..].
    - destruct Hlay. split; done.
    - left. apply andb_true_iff in E as [E%negb_true_iff _]. by apply unchanged_counters.
    - done. }
  clearbody s1. clear Hgen. apply wp_bind, wp_gets. at_ask H.
  assert (backup_table_ba (ni s1) = backup_table_ba (ni s)) as ->
    by (destruct H as [_ [=] _]; done).
  assert (forall r s', tables_post s (protected (ni s)) r s' ->
    base_rel s s' /\ layout (ni s') /\
    if r : bool then settled s s' /\ protected (ni s') = protected (ni s)
    else protected (ni s') = 1) as Hfin.
  { unfold tables_post. intros [] ?; naive_solver. }
  destruct (Z.eqb_spec (backup_table_ba (ni s)) 0) as [Hb0|Hb0].
  { wp_call wp_write_main_table; [done|done|lia|lia|lia|]. done. }
  eapply at_write; [done|lia|lia|..]; clear s1 H.
  - intros s1 H. at_next at_set_mba s1 H. at_next at_set_backup s1 H.
    wp_call wp_write_main_table; [done|done|lia|lia|lia|]. done.
  - intros s1 start end_ H Hst Hend. at_next at_set_backup s1 H.
    at_next at_set_mba s1 H. at_next at_clean s1 H.
    wp_call wp_write_main_table; [done|done|lia|lia|right; split_and!; lia || done|]. done.
Qed.

(** [nmbm_update_info_table] terminates; the tables are clean afterwards, or the
    instance is write-protected. *)
Lemma wp_update_info_table s :
  tab_ok s ->
  wp nmbm_update_info_table
    (fun r s' => base_rel s s' /\ layout (ni s') /\
       if r : bool then
         protected (ni s') = protected (ni s) /\
         (protected (ni s) = 0 -> counters (ni s') = (0, 0)) /\
         (protected (ni s) <> 0 -> s' = s)
       else protected (ni s) = 0 /\ protected (ni s') = 1) s.
Proof using Hg Hl.
  intros [Hs Hlay]. unfold nmbm_update_info_table. apply wp_bind, wp_gets, wp_bind, wp_gets.
  rewrite (st_geo _ _ (bo_st _ Hs)).
  destruct (Z.eqb_spec (protected (ni s)) 0) as [Hp|Hp]; cbn [negb].
  2:{ apply wp_ret. split_and!; [by apply base_rel_refl|done|done|done|done]. }
  apply (wp_loop
    (fun _ s' => base_rel s s' /\ layout (ni s') /\ protected (ni s') = 0)
    (fun _ s' => if decide (counters (ni s') = (0, 0)) then O else S (goods s'))).
  - intros [] s1 (Hrel & Hlay1 & Hp1). apply wp_bind, wp_gets, wp_bind, wp_gets.
    destruct (negb _ || negb _) eqn:E.
    + apply wp_bind. wp_call wp_update_once; [by split; [apply Hrel|]|].
      intros r s2 (Hrel2 & Hlay2 & Hr).
      assert (base_rel s s2) by by eapply base_rel_trans.
      destruct r; cbn [negb]; apply wp_ret; [|done].
      destruct Hr as [Hr ?]. split; [split_and!; [done|done|congruence]|].
      assert (counters (ni s1) <> (0, 0)).
      { unfold counters. intros [= E1 E2]. by rewrite E1, E2 in E. }
      rewrite (decide_False (P := counters (ni s1) = _)) by done.
      case_decide; [lia|]. destruct Hr as [?|?]; [done|lia].
    + apply wp_ret. split_and!; [done|done|congruence| |done].
      intros _. by apply unchanged_counters.
  - split_and!; [by apply base_rel_refl|done|done].
  - unfold update_fuel. pose proof (good_count_le (block_state (ni s)) (block_count g)).
    unfold goods. case_decide; lia.
Qed.
End table_spec.
