(* ===== verification/NmbmLogicSpec.v ===== *)
(** Specifications of the operations on logic blocks: the invariant of an
    attached instance, the blocks an operation may modify, and termination of
    the remapping loop. *)

From stdpp Require Import base list numbers sets relations.
From Stdlib Require Import ZArith Lia.
From S2P Require Import Prelude NmbmTypes NmbmChip NmbmBlocks NmbmTable NmbmLogic NmbmSpec.
From S2P Require Import NmbmBlockSpec NmbmWalk NmbmTableSpec.
Local Open Scope Z_scope.
Local Open Scope cprog_scope.

Section logic_spec.
Context {chip : Type} {C : Crc32} (g : nmbm_geometry chip).
Context (Hg : geom_ok g) `{Hl : !lower_contract (lower g)}.
Abbreviation prog := (M (nst chip)).

(** * The invariant of an attached instance *)

(** An entry of the mapping table: no block, or a block of the chip. *)
Definition entry_ok (m : Z) : Prop := - 2 ^ 31 <= m < 0 \/ 0 <= m < block_count g.

Record inst_ok (s : nst chip) : Prop := {
  io_tab : tab_ok g s;
  io_map : Forall entry_ok (block_mapping (ni s));
  io_dbc : 0 <= data_block_count (ni s) <= block_count g
}.

(** The management area with the top spare block. *)
Definition region (n : nmbm_instance chip) : Z -> Prop :=
  fun b => mgmt_start_ba n <= b <= mapping_blocks_top_ba n.

(** The physical block a logic block is mapped to. *)
Definition phys_of (n : nmbm_instance chip) (lb : Z) : Z -> Prop :=
  fun b => block_mapping n !! Z.to_nat lb = Some b.

(** The members no operation on logic blocks changes. *)
Definition frame (n : nmbm_instance chip) :=
  (signature n, signature_ba n, mgmt_start_ba n, data_block_count n, log_display_level n).

(** The effect of an operation: blocks outside [B] are neither written, erased
    nor marked and keep their state, the mapping of logic blocks outside [L] is
    unchanged, and a logic block is mapped to where it was, to a block of the
    management area, or not at all. *)
Record op_rel (B : Z -> Prop) (L : Z -> Prop) (s s' : nst chip) : Prop := {
  op_dev : dev_steps g B (dev s) (dev s');
  op_ok : inst_ok s';
  op_frame : frame (ni s') = frame (ni s);
  op_top : mapping_blocks_top_ba (ni s') <= mapping_blocks_top_ba (ni s);
  op_map : forall i, 0 <= i -> ~ L i ->
    block_mapping (ni s') !! Z.to_nat i = block_mapping (ni s) !! Z.to_nat i;
  op_bs : forall b, 0 <= b < block_count g ->
    bstate (block_state (ni s')) b = bstate (block_state (ni s)) b \/ B b;
  op_phys : forall lb b, 0 <= lb -> 0 <= b -> phys_of (ni s') lb b ->
    phys_of (ni s) lb b \/ region (ni s) b
}.

Lemma op_rel_refl B L s : inst_ok s -> op_rel B L s s.
Proof using. intros. split; try done; by left. Qed.

Lemma op_rel_trans B L s1 s2 s3 : op_rel B L s1 s2 -> op_rel B L s2 s3 -> op_rel B L s1 s3.
Proof using.
  intros [A1 A2 A3 A4 A5 A6 A7] [B1 B2 B3 B4 B5 B6 B7].
  split; [by etrans|done|congruence|lia|intros; rewrite B5, A5 by done; done| |].
  - intros b Hb. destruct (A6 b Hb) as [<-|]; [by apply B6|by right].
  - intros lb b Hlb Hb Hp. destruct (B7 lb b Hlb Hb Hp) as [?|Hr]; [by apply A7|right].
    injection A3 as _ _ A3 _ _. unfold region in *. lia.
Qed.

Lemma op_rel_mono (B B' L L' : Z -> Prop) s s' :
  (forall b, B b -> B' b) -> (forall i, L i -> L' i) -> op_rel B L s s' -> op_rel B' L' s s'.
Proof using.
  intros HB HL [A1 A2 A3 A4 A5 A6 A7].
  split; eauto using dev_steps_mono.
  intros b Hb. destruct (A6 b Hb); eauto.
Qed.

Lemma op_region B L s s' : op_rel B L s s' -> forall b, region (ni s') b -> region (ni s) b.
Proof using. intros [_ _ [=] A4 _ _ _] b. unfold region. lia. Qed.

(** A table operation. *)
Lemma base_op_rel (L : Z -> Prop) s s' :
  inst_ok s -> base_rel g s s' -> layout (ni s') -> op_rel (region (ni s)) L s s'.
Proof using.
  intros [[H1 H2] H3 H4] [A1 A2 [= E1 E2 E3 E4 E5 E6] A4 A5] Hlay.
  assert (forall b, area (ni s) b -> region (ni s) b) as HB
    by (unfold area, region, blocks_in; lia).
  split.
  - by eapply dev_steps_mono.
  - split; [by split|by rewrite E2|by rewrite E3].
  - unfold frame. congruence.
  - lia.
  - intros. by rewrite E2.
  - intros b Hb. destruct (A4 b Hb) as [?|(?&_)]; auto.
  - unfold phys_of. rewrite E2. by left.
Qed.

(** An operation on the chip only. *)
Lemma chip_op_rel (B L : Z -> Prop) s s' : inst_ok s -> chip_rel g B s s' -> op_rel B L s s'.
Proof using.
  intros [[[H1 A1 A2 A3 A4 A5] [B1 B2 B3]] H3 H4] Hrel.
  pose proof (st_ok_chip_rel _ _ _ _ H1 Hrel) as Hok.
  destruct Hrel as (R1 & _ & R3).
  assert (base_ok g s') by (split; [done|rewrite R3; done..]).
  assert (layout (ni s')) by (rewrite R3; by split).
  split; [done|split; [by split|by rewrite R3..]|by rewrite R3..|by rewrite R3| |];
    unfold phys_of; rewrite R3; by left.
Qed.

(** Assignments to the block state and mapping tables. *)
Lemma op_rel_set_bs (B L : Z -> Prop) s ba st sc :
  inst_ok s -> 0 <= ba < block_count g -> B ba -> 0 <= sc < 2 ^ 32 ->
  op_rel B L s (mk_nst (set_block_state_changed sc
    (set_block_state (bs_set (block_state (ni s)) ba st) (ni s))) (dev s)).
Proof using Hg.
  intros [[[[G1 G2 G3 G4] A1 A2 A3 A4 A5] [B1 B2 B3]] H3 H4] Hba HB Hsc.
  split; try done; cbn.
  - split; [|done..]. split; [|by split]. split; try done.
    split; try done; cbn. by apply bs_set_ok.
  - intros b Hb. rewrite (bstate_set g Hg) by done.
    destruct (Z.eqb_spec b ba) as [->|]; auto.
  - by left.
Qed.

Lemma op_rel_set_map (B L : Z -> Prop) s lb m :
  inst_ok s -> 0 <= lb -> L lb -> entry_ok m -> m < 0 \/ region (ni s) m ->
  op_rel B L s (set_ni (set_block_mapping (<[Z.to_nat lb := m]> (block_mapping (ni s)))) s).
Proof using.
  intros [[[[G1 G2 G3 G4] A1 A2 A3 A4 A5] [B1 B2 B3]] H3 H4] Hlb HL Hm Hr.
  split; try done; [| |by left|]; cbn.
  - split; [|by apply Forall_insert|done]. split; [|by split].
    split; try done. cbn. by rewrite length_insert.
  - intros i Hi HLi. apply list_lookup_insert_ne. intros E%Z2Nat.inj; [|lia..]. by subst.
  - intros i b Hi Hb Hp. unfold phys_of in Hp. cbn in Hp.
    apply list_lookup_insert_Some in Hp as [(_ & <- & _)|[_ Hp]]; [right; by destruct Hr; [lia|]|by left].
Qed.

Lemma wp_set_bs (B L : Z -> Prop) ba st s :
  inst_ok s -> 0 <= ba < block_count g -> B ba ->
  wp (nmbm_set_block_state ba st)
    (fun _ s' => op_rel B L s s' /\ bstate (block_state (ni s')) ba = Z.land st 3 /\
       mapping_blocks_top_ba (ni s') = mapping_blocks_top_ba (ni s) /\
       block_mapping (ni s') = block_mapping (ni s)) s.
Proof using Hg.
  intros Hs Hba HB. pose proof (bo_st _ _ (proj1 (io_tab _ Hs))) as Hst.
  apply (wp_set_block_state g Hg); [done|done|]. cbn.
  destruct (_ =? _).
  - pose proof (op_rel_set_bs B L s ba st _ Hs Hba HB (st_changed _ _ Hst)) as Hr.
    destruct s as [n c]. cbn in *. split; [by destruct n|].
    split_and!; [|done..]. rewrite (bstate_set g Hg), Z.eqb_refl by (done || apply Hst). done.
  - split; [by apply op_rel_set_bs; [..|apply u32_range]|].
    split_and!; [|done..]. cbn. rewrite (bstate_set g Hg), Z.eqb_refl by (done || apply Hst). done.
Qed.

Lemma wp_skip_bad (B L : Z -> Prop) ba s :
  inst_ok s -> 0 <= ba < block_count g -> B ba ->
  wp (skip_bad_block ba)
    (fun _ s' => op_rel B L s s' /\
       mapping_blocks_top_ba (ni s') = mapping_blocks_top_ba (ni s) /\
       block_mapping (ni s') = block_mapping (ni s)) s.
Proof using Hg Hl.
  intros Hs Hba HB. unfold skip_bad_block. apply wp_bind.
  wp_call (wp_nmbm_mark_phys_bad_block g Hg B); [apply Hs|done|auto|]. intros _ s1 Hrel1.
  pose proof (chip_op_rel B L _ _ Hs Hrel1) as Hop1. apply wp_bind.
  wp_call (wp_set_bs B L); [apply Hop1|done|done|]. intros _ s2 (Hop2 & _ & Ht & Hm).
  apply wp_ret. split; [by eapply op_rel_trans|].
  destruct Hrel1 as (_ & _ & E). rewrite Ht, Hm, E. done.
Qed.

Lemma wp_update_tables (L : Z -> Prop) s :
  inst_ok s ->
  wp nmbm_update_info_table
    (fun _ s' => op_rel (region (ni s)) L s s' /\
       mapping_blocks_top_ba (ni s') = mapping_blocks_top_ba (ni s) /\
       block_mapping (ni s') = block_mapping (ni s)) s.
Proof using Hg Hl.
  intros Hs. wp_call (wp_update_info_table g Hg); [apply Hs|].
  intros r s' (Hrel & Hlay & _). split; [by apply base_op_rel|].
  destruct Hrel as [_ _ [=] _ _]. done.
Qed.

(** * Mapping a logic block to a spare block *)

(** The block [nmbm_map_block] takes: the topmost good spare block. *)
Definition spare_top (n : nmbm_instance chip) : option Z :=
  good_desc (block_state n) (mapping_blocks_top_ba n) (mapping_blocks_ba n) !! 0%nat.

Lemma spare_top_spec n pb :
  spare_top n = Some pb ->
  mapping_blocks_ba n < pb <= mapping_blocks_top_ba n /\ good (block_state n) pb.
Proof using. intros H%list_elem_of_lookup_2%elem_of_good_desc. done. Qed.

Lemma set_top_ok (s : nst chip) v :
  inst_ok s -> mapping_blocks_ba (ni s) <= v <= mapping_blocks_top_ba (ni s) ->
  op_rel (fun _ => False) (fun _ => False) s (set_ni (set_mapping_blocks_top_ba v) s).
Proof using.
  intros [[[H1 A1 A2 A3 A4 A5] [B1 B2 B3]] H3 H4] Hv.
  split; try done; cbn; [|lia|by left..].
  split; [|done..]. split; [|split; cbn; done || lia].
  split; try done; [|cbn; lia]. destruct H1. by split.
Qed.

Lemma set_mc_ok (s : nst chip) v :
  inst_ok s -> op_rel (fun _ => False) (fun _ => False) s (set_ni (set_block_mapping_changed v) s).
Proof using.
  intros [[[H1 A1 A2 A3 A4 A5] [B1 B2 B3]] H3 H4].
  split; try done; cbn; [|by left..].
  split; [|done..]. split; [|by split]. split; try done. destruct H1. by split.
Qed.

Lemma inst_ok_protected (s : nst chip) v : inst_ok s -> inst_ok (set_ni (set_protected v) s).
Proof using.
  intros [[[[G1 G2 G3 G4] A1 A2 A3 A4 A5] [B1 B2 B3]] H3 H4].
  split; [split; [split; [by split|..]|by split]|..]; done.
Qed.

Lemma wp_map_block lb s :
  inst_ok s -> 0 <= lb < block_count g ->
  wp (nmbm_map_block lb)
    (fun r s' => op_rel (region (ni s)) (eq lb) s s' /\
       if r : bool then
         exists pb, spare_top (ni s) = Some pb /\
           block_mapping (ni s') = <[Z.to_nat lb := pb]> (block_mapping (ni s)) /\
           block_state (ni s') = block_state (ni s) /\
           mapping_blocks_ba (ni s') = mapping_blocks_ba (ni s) /\
           mapping_blocks_top_ba (ni s') = mapping_blocks_top_ba (ni s) - 1 /\
           block_mapping_changed (ni s') = u32 (block_mapping_changed (ni s) + 1) /\
           dev s' = dev s
       else spare_top (ni s) = None /\ block_mapping (ni s') = block_mapping (ni s)) s.
Proof using Hg Hl.
  intros Hs Hlb. pose proof (io_tab _ Hs) as [Hb Hlay]. pose proof (bo_area _ _ Hb).
  pose proof (lay_mapping _ Hlay). pose proof (geo_count g Hg).
  unfold nmbm_map_block. apply wp_bind, wp_gets, wp_bind, wp_gets.
  destruct (Z.eqb_spec (mapping_blocks_ba (ni s)) (mapping_blocks_top_ba (ni s))) as [E|E].
  { apply wp_ret. split; [by apply op_rel_refl|]. split; [|done].
    unfold spare_top. by rewrite good_desc_nil by lia. }
  apply wp_bind. unfold nmbm_block_walk. change (u32 (i32 0)) with 0.
  rewrite u32_i32, u32_small by lia.
  wp_call (wp_walk_desc g Hg); [apply Hb|lia|lia|lia|]. intros r s1 [-> ->].
  unfold walk_limit. destruct (Z.geb_spec (mapping_blocks_ba (ni s)) (block_count g)); [lia|].
  change (good_desc _ _ _ !! Z.to_nat 0) with (spare_top (ni s)).
  destruct (spare_top (ni s)) as [pb|] eqn:Hpb.
  - pose proof (spare_top_spec _ _ Hpb) as [Hpbr _].
    apply wp_bind, wp_set_mapping; [rewrite (bo_mapping _ _ Hb); lia|].
    rewrite i32_small by lia.
    pose proof (op_rel_set_map (region (ni s)) (eq lb) s lb pb Hs ltac:(lia) eq_refl
      ltac:(right; lia) ltac:(right; unfold region; lia)) as R1.
    revert R1. set (s1 := set_ni (set_block_mapping _) s). intros R1.
    apply wp_bind, wp_modify. rewrite (u32_small (mapping_blocks_top_ba (ni s) - 1)) by lia.
    pose proof (set_top_ok s1 (mapping_blocks_top_ba (ni s) - 1) (op_ok _ _ _ _ R1)
      ltac:(cbn; lia)) as R2.
    revert R2. set (s2 := set_ni _ s1). intros R2.
    apply wp_bind, wp_gets, wp_bind, wp_modify, wp_ret.
    pose proof (set_mc_ok s2 (u32 (block_mapping_changed (ni s2) + 1)) (op_ok _ _ _ _ R2)) as R3.
    split; [|by exists pb].
    eapply op_rel_trans; [exact R1|]. eapply op_rel_trans; (eapply op_rel_mono; [| |eassumption]); done.
  - apply wp_bind. wp_call (wp_update_tables (eq lb)); [done|]. intros _ s1 (R1 & Ht & Hm).
    pose proof (lay_mapping _ (proj2 (io_tab _ (op_ok _ _ _ _ R1)))).
    apply wp_bind, wp_gets, wp_bind, wp_modify, wp_ret.
    pose proof (set_top_ok s1 (mapping_blocks_ba (ni s1)) (op_ok _ _ _ _ R1) ltac:(lia)) as R2.
    split; [|done]. eapply op_rel_trans; [exact R1|]. eapply op_rel_mono; [| |exact R2]; done.
Qed.

(** * Erasing *)

(** What an operation on [lb] may modify. *)
Definition touch (n : nmbm_instance chip) (lb : Z) : Z -> Prop :=
  fun b => phys_of n lb b \/ region n b.

Lemma wp_mapped_block lb (Q : Z -> nst chip -> Prop) s :
  inst_ok s -> 0 <= lb < block_count g ->
  (forall m, block_mapping (ni s) !! Z.to_nat lb = Some m -> entry_ok m -> Q (u32 m) s) ->
  wp (mapped_block lb) Q s.
Proof using.
  intros Hs Hlb HQ. unfold mapped_block. apply wp_bind, wp_gets, wp_bind.
  apply wp_arr_get; [rewrite (bo_mapping _ _ (proj1 (io_tab _ Hs))); lia|].
  intros m Hm. apply wp_ret, HQ; [done|]. eapply Forall_lookup_1; [apply Hs|done].
Qed.

Lemma entry_cases m :
  entry_ok m -> (i32 (u32 m) < 0 /\ m < 0) \/
    (0 <= i32 (u32 m) /\ u32 m = m /\ 0 <= m < block_count g).
Proof using Hg.
  intros Hm. pose proof (geo_count g Hg). rewrite i32_u32, i32_small by (destruct Hm; lia).
  destruct Hm; [left; lia|right]. rewrite u32_small by lia. lia.
Qed.

(** The postcondition of one round: [inl] has used up a spare block. *)
Definition round_post lb s (r : unit + Z) (s' : nst chip) : Prop :=
  op_rel (touch (ni s) lb) (eq lb) s s' /\
  match r with
  | inl _ => mapping_blocks_top_ba (ni s') < mapping_blocks_top_ba (ni s) /\
             (forall b, touch (ni s') lb b -> touch (ni s) lb b)
  | inr v => v = 0 \/ v = - EIO
  end.

(** Marking the old block after remapping. *)
Lemma wp_mark_remapped (B L : Z -> Prop) pb s :
  inst_ok s -> 0 <= pb < block_count g -> B pb ->
  wp (let* st := nmbm_get_block_state pb in
      if negb (st =? BLOCK_ST_NEED_REMAP) then nmbm_set_block_state pb BLOCK_ST_BAD
      else ret false)
    (fun _ s' => op_rel B L s s' /\
       mapping_blocks_top_ba (ni s') = mapping_blocks_top_ba (ni s) /\
       block_mapping (ni s') = block_mapping (ni s)) s.
Proof using Hg.
  intros Hs Hpb HB. apply wp_bind, (wp_get_block_state g Hg); [apply Hs|done|].
  destruct (negb _).
  - wp_call (wp_set_bs B L); [done|done|done|]. intros _ s1 (? & _ & ? & ?). done.
  - apply wp_ret. split; [by apply op_rel_refl|done].
Qed.

(** Marking the old block and updating the info tables. *)
Lemma wp_mark_and_update {R} lb (s s1 : nst chip) pb (v : R) Q :
  op_rel (touch (ni s) lb) (eq lb) s s1 -> 0 <= pb < block_count g -> touch (ni s) lb pb ->
  (forall s2, op_rel (touch (ni s) lb) (eq lb) s s2 ->
     mapping_blocks_top_ba (ni s2) = mapping_blocks_top_ba (ni s1) ->
     block_mapping (ni s2) = block_mapping (ni s1) -> Q v s2) ->
  wp (do* (let* st := nmbm_get_block_state pb in
           if negb (st =? BLOCK_ST_NEED_REMAP) then nmbm_set_block_state pb BLOCK_ST_BAD
           else ret false) in
      do* nmbm_update_info_table in ret v) Q s1.
Proof using Hg Hl.
  intros H1 Hpb HB HQ. apply wp_bind.
  wp_call (wp_mark_remapped (touch (ni s) lb) (eq lb)); [apply H1|done|done|].
  intros _ s2 (H2 & Ht2 & Hm2). apply wp_bind.
  assert (op_rel (touch (ni s) lb) (eq lb) s s2) as H2' by by eapply op_rel_trans.
  wp_call (wp_update_tables (eq lb)); [apply H2|]. intros _ s3 (H3 & Ht3 & Hm3).
  apply wp_ret, HQ; [|congruence..]. eapply op_rel_trans; [exact H2'|].
  eapply op_rel_mono; [| |exact H3]; [|done].
  intros b Hb. right. by eapply op_region.
Qed.

Lemma wp_remap_logic_block lb s s1 pb :
  op_rel (touch (ni s) lb) (eq lb) s s1 -> 0 <= lb < block_count g ->
  0 <= pb < block_count g -> touch (ni s) lb pb ->
  wp (remap_logic_block lb pb) (round_post lb s) s1.
Proof using Hg Hl.
  intros H1 Hlb Hpb HB. unfold remap_logic_block. apply wp_bind.
  wp_call wp_map_block; [apply H1|done|]. intros r s2 [H2 Hr].
  assert (op_rel (touch (ni s) lb) (eq lb) s s2) as H2'.
  { eapply op_rel_trans; [exact H1|]. eapply op_rel_mono; [| |exact H2]; [|done].
    intros b Hb. right. by eapply op_region. }
  destruct r; cbn [negb].
  - destruct Hr as (pb' & Hsp & Hm & _ & _ & Htop & _).
    eapply wp_mark_and_update; [done|done|done|]. intros s3 H3 Ht3 Hm3.
    split; [done|]. pose proof (op_top _ _ _ _ H1). split; [lia|].
    intros b [Hb|Hb]; right; [|by eapply op_region].
    unfold phys_of in Hb. rewrite Hm3, Hm, list_lookup_insert_eq in Hb.
    2: { pose proof (bo_mapping _ _ (proj1 (io_tab _ (op_ok _ _ _ _ H1)))). lia. }
    injection Hb as <-. eapply op_region; [exact H1|].
    pose proof (spare_top_spec _ _ Hsp) as [? _].
    pose proof (lay_mapping _ (proj2 (io_tab _ (op_ok _ _ _ _ H1)))). unfold region. lia.
  - destruct Hr as [_ Hm]. apply wp_bind, wp_set_mapping.
    { rewrite (bo_mapping _ _ (proj1 (io_tab _ (op_ok _ _ _ _ H2)))). lia. }
    eapply wp_mark_and_update; [|done|done|].
    + eapply op_rel_trans; [exact H2'|].
      apply op_rel_set_map; [apply H2|lia|done|left; lia|left; lia].
    + intros s3 H3 _ _. split; [done|by right].
Qed.

Lemma wp_erase_round lb s :
  inst_ok s -> 0 <= lb < block_count g -> wp (erase_logic_round lb) (round_post lb s) s.
Proof using Hg Hl.
  intros Hs Hlb. unfold erase_logic_round. apply wp_bind, wp_mapped_block; [done|done|].
  intros m Hm Hok. destruct (entry_cases m Hok) as [[Hneg _]|(Hpos & -> & Hr)].
  { destruct (Z.ltb_spec (i32 (u32 m)) 0); [|lia]. apply wp_ret.
    split; [by apply op_rel_refl|by right]. }
  rewrite i32_small by (pose proof (geo_count g Hg); lia).
  destruct (Z.ltb_spec m 0); [lia|].
  assert (touch (ni s) lb m) as HB by (by left).
  assert (op_rel (touch (ni s) lb) (eq lb) s s) by by apply op_rel_refl.
  apply wp_bind, (wp_get_block_state g Hg); [apply Hs|done|].
  destruct (_ || _); [by apply wp_remap_logic_block|].
  apply wp_bind. wp_call (wp_nmbm_check_bad_phys_block g Hg (touch (ni s) lb)); [apply Hs|].
  intros bad s1 Hrel1. pose proof (chip_op_rel _ (eq lb) _ _ Hs Hrel1) as R1.
  destruct bad.
  { apply wp_bind. wp_call (wp_set_bs (touch (ni s) lb) (eq lb)); [apply R1|done|done|].
    intros _ s2 (R2 & _). apply wp_remap_logic_block; [by eapply op_rel_trans|done..]. }
  apply wp_bind. wp_call (wp_nmbm_erase_block_and_check g Hg (touch (ni s) lb));
    [apply R1|done|done|].
  intros ok s2 Hrel2. pose proof (chip_op_rel _ (eq lb) _ _ (op_ok _ _ _ _ R1) Hrel2) as R2.
  assert (op_rel (touch (ni s) lb) (eq lb) s s2) by by eapply op_rel_trans.
  destruct ok; [apply wp_ret; split; [done|by left]|].
  apply wp_bind. wp_call (wp_skip_bad (touch (ni s) lb) (eq lb)); [apply R2|done|done|].
  intros _ s3 (R3 & _). apply wp_remap_logic_block; [by eapply op_rel_trans|done..].
Qed.

(** [nmbm_erase_logic_block] terminates: every retry takes the top spare block. *)
Lemma wp_erase_logic_block lb s :
  inst_ok s -> 0 <= lb < block_count g ->
  wp (nmbm_erase_logic_block lb)
    (fun r s' => op_rel (touch (ni s) lb) (eq lb) s s' /\ (r = 0 \/ r = - EIO)) s.
Proof using Hg Hl.
  intros Hs Hlb. unfold nmbm_erase_logic_block. apply wp_bind, wp_gets.
  rewrite (st_geo _ _ (bo_st _ _ (proj1 (io_tab _ Hs)))).
  pose proof (bo_area _ _ (proj1 (io_tab _ Hs))) as Ha.
  apply (wp_loop
    (fun _ s' => op_rel (touch (ni s) lb) (eq lb) s s' /\
       forall b, touch (ni s') lb b -> touch (ni s) lb b)
    (fun _ s' => Z.to_nat (mapping_blocks_top_ba (ni s')))).
  - intros [] s1 [H1 HB]. wp_call wp_erase_round; [apply H1|done|].
    intros r s2 [H2 Hr].
    assert (op_rel (touch (ni s) lb) (eq lb) s s2)
      by (eapply op_rel_trans; [exact H1|by eapply op_rel_mono; [| |exact H2]]).
    destruct r as [[]|v]; [|done]. destruct Hr as [Ht Hb].
    pose proof (bo_area _ _ (proj1 (io_tab _ (op_ok _ _ _ _ H2)))).
    split; [split; [done|auto]|lia].
  - split; [by apply op_rel_refl|done].
  - unfold update_fuel. lia.
Qed.

Lemma touch_mono B L s s' lb :
  op_rel B L s s' -> ~ L lb -> 0 <= lb ->
  forall b, touch (ni s') lb b -> touch (ni s) lb b.
Proof using.
  intros H HL Hlb b [Hb|Hb]; [left|right; by eapply op_region].
  unfold phys_of in *. by rewrite (op_map _ _ _ _ H) in Hb.
Qed.

Lemma addr2ba_eq addr : addr2ba g addr = u32 (addr / erasesize (lower g)).
Proof using Hg.
  unfold addr2ba. pose proof (geo_shift g Hg).
  rewrite Z.shiftr_div_pow2, <- (geo_erasesize g Hg) by lia. done.
Qed.

(** The block of an address below the end of the data area. *)
Lemma addr2ba_lt s addr :
  inst_ok s -> 0 <= addr < ba2addr g (data_block_count (ni s)) ->
  addr2ba g addr = addr / erasesize (lower g) /\
  0 <= addr / erasesize (lower g) < data_block_count (ni s).
Proof using Hg.
  intros Hs [Ha Hb]. pose proof (io_dbc _ Hs). pose proof (erasesize_pos g Hg).
  pose proof (geo_count g Hg).
  assert (ba2addr g (data_block_count (ni s)) = data_block_count (ni s) * erasesize (lower g)) as E.
  { unfold ba2addr. pose proof (geo_shift g Hg).
    rewrite Z.shiftl_mul_pow2, <- (geo_erasesize g Hg) by lia.
    apply u64_small. pose proof (geo_chip g Hg). nia. }
  rewrite E in Hb.
  assert (0 <= addr / erasesize (lower g) < data_block_count (ni s)).
  { split; [apply Z.div_pos; lia|]. apply Z.div_lt_upper_bound; lia. }
  split; [|done]. rewrite addr2ba_eq. apply u32_small. lia.
Qed.

(** The logic blocks from [a] to [b] and what operations on them may modify. *)
Definition logic_in (a b : Z) : Z -> Prop := fun lb => a <= lb <= b.
Definition touch_in (n : nmbm_instance chip) (a b : Z) : Z -> Prop :=
  fun x => exists lb, a <= lb <= b /\ touch n lb x.

(** Codes of [nmbm_erase_block_range] before any block is erased. *)
Definition range_code (n : nmbm_instance chip) (addr size : Z) (ro : bool) : option Z :=
  if negb (protected n =? 0) || ro then Some (- EROFS)
  else if addr >=? ba2addr g (data_block_count n) then Some (- EINVAL)
  else if u64 (addr + size) >? ba2addr g (data_block_count n) then Some (- EINVAL)
  else if size =? 0 then Some 0
  else None.

Lemma range_code_none n addr size :
  protected n = 0 -> 0 <= addr -> 0 < size -> addr + size < 2 ^ 64 ->
  addr + size <= ba2addr g (data_block_count n) -> range_code n addr size false = None.
Proof using.
  intros Hp ????. unfold range_code. rewrite Hp, Z.geb_leb, Z.gtb_ltb, u64_small by lia.
  cbn [negb orb Z.eqb].
  destruct (Z.leb_spec (ba2addr g (data_block_count n)) addr); [lia|].
  destruct (Z.ltb_spec (ba2addr g (data_block_count n)) (addr + size)); [lia|].
  destruct (Z.eqb_spec size 0); [lia|done].
Qed.

(** The logic blocks from [a] up to [b] (exclusive) are erased one after the other. *)
Inductive erased_upto (a : Z) (s : nst chip) : Z -> nst chip -> Prop :=
| erased_start : erased_upto a s a s
| erased_next b s1 s2 : erased_upto a s b s1 -> nmbm_erase_logic_block b s1 = Ret 0 s2 -> erased_upto a s (b + 1) s2.

Lemma wp_erase_block_range addr size s :
  inst_ok s -> 0 <= addr -> 0 <= size -> addr + size < 2 ^ 64 ->
  wp (nmbm_erase_block_range addr size)
    (fun '(r, failed) s' =>
       match range_code (ni s) addr size (flag_set g NMBM_F_READ_ONLY) with
       | Some v => r = v /\ failed = None /\ s' = s
       | None =>
           let a := addr / erasesize (lower g) in
           let b := (addr + size - 1) / erasesize (lower g) in
           op_rel (touch_in (ni s) a b) (logic_in a b) s s' /\
           (r = 0 /\ failed = None /\ erased_upto a s (b + 1) s' \/
            r = - EIO /\ exists lb s1, a <= lb <= b /\ failed = Some (ba2addr g lb) /\
              erased_upto a s lb s1 /\ nmbm_erase_logic_block lb s1 = Ret (- EIO) s')
       end) s.
Proof using Hg Hl.
  intros Hs Haddr Hsize Hsum. unfold nmbm_erase_block_range, range_code.
  apply wp_bind, wp_gets, wp_bind, wp_gets, wp_bind, wp_gets.
  rewrite (st_geo _ _ (bo_st _ _ (proj1 (io_tab _ Hs)))).
  destruct (_ || _); [by apply wp_ret|].
  destruct (Z.geb_spec addr (ba2addr g (data_block_count (ni s)))); [by apply wp_ret|].
  rewrite u64_small by lia. rewrite Z.gtb_ltb.
  destruct (Z.ltb_spec (ba2addr g (data_block_count (ni s))) (addr + size)); [by apply wp_ret|].
  destruct (Z.eqb_spec size 0); [by apply wp_ret|]. rewrite u64_small by lia.
  destruct (addr2ba_lt s addr Hs ltac:(lia)) as [-> Ha].
  destruct (addr2ba_lt s (addr + size - 1) Hs ltac:(lia)) as [-> Hb].
  pose proof (io_dbc _ Hs). pose proof (geo_count g Hg). pose proof (erasesize_pos g Hg).
  assert (addr / erasesize (lower g) <= (addr + size - 1) / erasesize (lower g))
    by (apply Z.div_le_mono; lia).
  set (a := addr / _) in *. set (b := (addr + size - 1) / _) in *. cbn zeta.
  set (R := fun s' : nst chip => op_rel (touch_in (ni s) a b) (logic_in a b) s s').
  apply (wp_loop
    (fun lb s' => a <= lb <= b + 1 /\ R s' /\
       op_rel (touch_in (ni s) a b) (fun l => a <= l < lb) s s' /\ erased_upto a s lb s')
    (fun lb _ => Z.to_nat (b + 1 - lb))).
  - intros lb s1 (Hlb & HR & HR' & Her). destruct (Z.leb_spec lb b).
    2: { assert (lb = b + 1) as -> by lia. apply wp_ret. split; [exact HR|]. by auto. }
    apply wp_bind. destruct (wp_inv _ _ _ (wp_erase_logic_block lb s1 (op_ok _ _ _ _ HR) ltac:(lia))) as (r & s2 & Er & R2 & Hr).
    eapply wp_intro; [exact Er|].
    assert (op_rel (touch_in (ni s) a b) (fun l => a <= l < lb + 1) s s2) as Hop.
    { eapply op_rel_trans.
      - eapply op_rel_mono; [| |exact HR']; [done|cbn; lia].
      - eapply op_rel_mono; [| |exact R2]; [|cbn; lia].
        intros x Hx. exists lb. split; [lia|].
        eapply (touch_mono _ _ _ _ lb HR'); [cbn; lia|lia|done]. }
    assert (R s2) by (eapply op_rel_mono; [| |exact Hop]; unfold logic_in; [done|lia]).
    destruct (Z.eqb_spec r 0) as [->|Hr0]; cbn [negb]; apply wp_ret.
    + rewrite u32_small by lia. split_and!; [lia|lia|done|done|by eapply erased_next|lia].
    + split; [done|]. right. destruct Hr as [|Hr]; [lia|]. split; [done|]. exists lb, s1. rewrite Hr in Er. split_and!; (done || lia).
  - split_and!; [lia|lia|by apply op_rel_refl..|apply erased_start].
  - lia.
Qed.

(** * Reading *)

(** Reading modifies no block. *)
Definition none : Z -> Prop := fun _ => False.

Lemma wp_read_logic_page addr data oob mode s :
  inst_ok s -> 0 <= addr2ba g addr < block_count g ->
  wp (nmbm_read_logic_page addr data oob mode)
    (fun '(_, data', oob') s' =>
       chip_rel g none s s' /\ same_shape data data' /\ same_shape oob oob') s.
Proof using Hg Hl.
  intros Hs Hlb. unfold nmbm_read_logic_page. apply wp_bind, wp_gets.
  rewrite (st_geo _ _ (bo_st _ _ (proj1 (io_tab _ Hs)))).
  apply wp_bind, wp_mapped_block; [done|done|]. intros m Hm Hok.
  assert (chip_rel g none s s) by apply chip_rel_refl.
  destruct (entry_cases m Hok) as [[Hneg _]|(Hpos & -> & Hr)].
  { destruct (Z.ltb_spec (i32 (u32 m)) 0); [|lia]. by apply wp_ret. }
  rewrite i32_small by (pose proof (geo_count g Hg); lia). destruct (Z.ltb_spec m 0); [lia|].
  apply wp_bind, (wp_get_block_state g Hg); [apply Hs|done|].
  destruct (_ =? _); [by apply wp_ret|].
  apply (wp_nmbm_read_phys_page g none). apply Hs.
Qed.

(** The chunk of a page the range operations handle in one round. *)
Lemma range_chunk_spec off sizeremain :
  0 <= off -> 0 < sizeremain -> off + sizeremain < 2 ^ 64 ->
  exists chunk, range_chunk g off sizeremain = (off mod writesize (lower g), chunk) /\
    0 < chunk <= sizeremain /\ off mod writesize (lower g) + chunk <= writesize (lower g) /\
    (off mod writesize (lower g) + chunk = writesize (lower g) \/ chunk = sizeremain) /\
    0 <= off mod writesize (lower g) <= off.
Proof using Hg.
  intros Hoff Hrem Hsum. pose proof (writesize_pos g Hg). pose proof (erasesize_lt g Hg).
  pose proof (writesize_le g Hg). pose proof (geo_wshift g Hg).
  assert (Z.land off (writesize_mask g) = off mod writesize (lower g)) as E.
  { rewrite (geo_wmask g Hg), (geo_writesize g Hg).
    replace (2 ^ writesize_shift g - 1) with (Z.ones (writesize_shift g))
      by (rewrite Z.ones_equiv; lia). by rewrite Z.land_ones by lia. }
  pose proof (Z.mod_pos_bound off (writesize (lower g))).
  pose proof (Z.mod_le off (writesize (lower g))).
  unfold range_chunk. rewrite E, u64_small, Z.gtb_ltb by lia.
  destruct (Z.ltb_spec sizeremain (writesize (lower g) - off mod writesize (lower g)));
    eexists; split; try reflexivity; lia.
Qed.

Lemma page_start_div off :
  (off - off mod writesize (lower g)) / erasesize (lower g) = off / erasesize (lower g).
Proof using Hg.
  pose proof (writesize_pos g Hg). pose proof (pages_pos g Hg).
  rewrite (erasesize_pages g Hg), (Z.mul_comm (pages g)), <- !Z.div_div by lia. f_equal.
  rewrite Z.mod_eq by lia.
  replace (off - (off - _)) with (off / writesize (lower g) * writesize (lower g)) by lia.
  by rewrite Z.div_mul by lia.
Qed.

(** The block of the page that holds the byte at [off]. *)
Lemma page_block s off :
  inst_ok s -> 0 <= off < ba2addr g (data_block_count (ni s)) ->
  0 <= addr2ba g (u64 (off - off mod writesize (lower g))) < block_count g /\
  u64 (off - off mod writesize (lower g)) = off - off mod writesize (lower g).
Proof using Hg.
  intros Hs Hoff. pose proof (writesize_pos g Hg). pose proof (io_dbc _ Hs).
  pose proof (Z.mod_pos_bound off (writesize (lower g))).
  pose proof (Z.mod_le off (writesize (lower g))).
  assert (ba2addr g (data_block_count (ni s)) < 2 ^ 64) by apply u64_range.
  rewrite u64_small by lia. split; [|done].
  destruct (addr2ba_lt s (off - off mod writesize (lower g)) Hs ltac:(lia)) as [-> ?]. lia.
Qed.

Lemma inst_ok_chip s s' : inst_ok s -> chip_rel g none s s' -> inst_ok s'.
Proof using. intros Hs H. by apply (chip_op_rel none none _ _ Hs H). Qed.

Lemma chip_dbc B s s' : chip_rel g B s s' -> data_block_count (ni s') = data_block_count (ni s).
Proof using. intros (_ & _ & ->). done. Qed.

(** The invariant of the loop of [nmbm_read_range], its postcondition and its
    measure.  [G addr v] says that [v] is a byte that may be read at [addr];
    the pages read without an error consist of such bytes. *)
Section read_loop.
Context (s : nst chip) (G : Z -> Z -> Prop) (mode : nmbm_oob_mode).

Definition bytes_from (a : Z) (d : list Z) : Prop :=
  forall i v, d !! i = Some v -> G (a + Z.of_nat i) v.

Definition reads_pages : Prop :=
  forall s1 a buf, chip_rel g none s s1 -> 0 <= a < ba2addr g (data_block_count (ni s)) ->
    a mod writesize (lower g) = 0 -> Z.of_nat (length buf) = writesize (lower g) ->
    wp (nmbm_read_logic_page a (Some buf) None mode)
      (fun '(r, d, _) _ => 0 <= r -> bytes_from a (default buf d)) s1.

Context (Hpages : reads_pages) (addr size : Z) (buf : list Z).

Definition read_ok (n : Z) (b : list Z) : Prop :=
  forall i v, 0 <= Z.of_nat i < n -> b !! i = Some v -> G (addr + Z.of_nat i) v.

Definition read_inv (l : Z * Z * Z * bool * Z * Z * list Z) (s' : nst chip) : Prop :=
  let '(off, pos, rem, ecc, flips, r, b) := l in
  off = addr + pos /\ 0 <= pos /\ 0 <= rem /\ pos + rem = size /\
  length b = length buf /\ 0 <= flips /\ chip_rel g none s s' /\
  (ecc = false -> read_ok pos b /\ r <> - EBADMSG).

Definition read_post (l : Z * Z * bool * Z * list Z) (s' : nst chip) : Prop :=
  let '(r, rem, ecc, flips, b) := l in
  chip_rel g none s s' /\ length b = length buf /\ 0 <= rem <= size /\
  0 <= flips /\ (0 <= r \/ r = - EBADMSG -> rem = 0) /\
  (ecc = false -> 0 <= r -> read_ok size b) /\ (ecc = false -> r <> - EBADMSG).

Definition read_rem (l : Z * Z * Z * bool * Z * Z * list Z) : nat :=
  let '(_, _, rem, _, _, _, _) := l in Z.to_nat rem.

Lemma read_ok_blit pos b bytes :
  0 <= pos -> pos + Z.of_nat (length bytes) <= Z.of_nat (length b) ->
  read_ok pos b -> bytes_from (addr + pos) bytes ->
  read_ok (pos + Z.of_nat (length bytes)) (blit b pos bytes).
Proof using.
  intros Hp Hle H1 H2 i v Hi Hv. unfold blit in Hv.
  destruct (Z_lt_le_dec (Z.of_nat i) pos).
  - rewrite lookup_app_l, lookup_take in Hv by (rewrite ?length_take; lia).
    case_decide; [|done]. apply H1; [lia|done].
  - rewrite lookup_app_r, lookup_app_l in Hv by (rewrite length_take; lia).
    rewrite length_take in Hv. specialize (H2 _ _ Hv).
    replace (addr + Z.of_nat i) with (addr + pos + Z.of_nat (i - Z.to_nat pos `min` length b)) by lia.
    done.
Qed.

Lemma bytes_from_slice a lead chunk d cache i w :
  bytes_from a d -> 0 <= lead -> 0 <= chunk -> lead + chunk <= Z.of_nat (length d) ->
  slice (blit cache 0 d) lead chunk !! i = Some w -> G (a + lead + Z.of_nat i) w.
Proof using.
  intros Hd H1 H2 H3 Hi. unfold slice, blit in Hi. rewrite lookup_take in Hi.
  case_decide; [|done]. rewrite lookup_drop in Hi. change (Z.to_nat 0) with O in Hi.
  rewrite take_0, lookup_app_r, lookup_app_l in Hi by (cbn; lia).
  specialize (Hd _ _ Hi). cbn in Hd.
  by replace (a + lead + Z.of_nat i) with (a + Z.of_nat (Z.to_nat lead + i - 0)) by lia.
Qed.

(** The end of a round: [bytes] is the data read. *)
Lemma read_loop_next pos rem ecc flips v bytes b s' :
  let chunk := Z.of_nat (length bytes) in
  addr + size < 2 ^ 64 -> 0 <= addr -> 0 <= pos -> pos + rem = size -> 0 <= flips ->
  size <= Z.of_nat (length buf) -> 0 < chunk <= rem -> length b = length buf ->
  chip_rel g none s s' -> (ecc = false -> read_ok pos b) ->
  (0 <= v -> bytes_from (addr + pos) bytes) ->
  wp (if (v <? 0) && negb (v =? - EBADMSG) then ret (inr (v, rem, ecc, flips, blit b pos bytes))
      else ret (inl (u64 (addr + pos + chunk), pos + chunk, u64 (rem - chunk),
                     ecc || (v =? - EBADMSG), (if v >? flips then v else flips), v,
                     blit b pos bytes)))
    (fun r s' => match r with
       | inl l => read_inv l s' /\ (read_rem l < Z.to_nat rem)%nat
       | inr l => read_post l s'
       end) s'.
Proof using.
  intros chunk ????????? Hok Hb.
  assert (length (blit b pos bytes) = length buf) by (rewrite length_blit; lia).
  destruct (Z.ltb_spec v 0), (Z.eqb_spec v (- EBADMSG)); cbn [andb negb]; apply wp_ret;
    unfold read_inv, read_post, read_rem;
    rewrite ?u64_small, ?Z.gtb_ltb, ?orb_true_r, ?orb_false_r by lia;
    try destruct (Z.ltb_spec flips v); split_and!; try lia; try done.
  all: intros He; split; [|done]; apply read_ok_blit; [lia|lia|by apply Hok|by apply Hb; lia].
Qed.

(** One page of a round: [lead] bytes of it lie in front of the range. *)
Lemma wp_read_round pos lead old s1 :
  inst_ok s -> 0 <= addr -> 0 <= pos < size -> addr + size < 2 ^ 64 ->
  addr + size <= ba2addr g (data_block_count (ni s)) -> chip_rel g none s s1 ->
  lead = (addr + pos) mod writesize (lower g) -> Z.of_nat (length old) = writesize (lower g) ->
  wp (nmbm_read_logic_page (u64 (addr + pos - lead)) (Some old) None mode)
    (fun '(v, d, _) s2 => chip_rel g none s s2 /\ inst_ok s2 /\
       Z.of_nat (length (default old d)) = writesize (lower g) /\
       (0 <= v -> bytes_from (addr + pos - lead) (default old d))) s1.
Proof using Hg Hl Hpages.
  intros Hs Haddr Hpos Hsum Hend Hrel Hlead Hold.
  pose proof (writesize_pos g Hg). pose proof (inst_ok_chip _ _ Hs Hrel) as Hs1.
  pose proof (Z.mod_pos_bound (addr + pos) (writesize (lower g)) ltac:(lia)).
  pose proof (Z.mod_le (addr + pos) (writesize (lower g)) ltac:(lia) ltac:(lia)).
  destruct (page_block s1 (addr + pos) Hs1) as [Hpb Hpa]; [rewrite (chip_dbc _ _ _ Hrel); lia|].
  rewrite <- Hlead in *.
  assert (0 <= addr + pos - lead < ba2addr g (data_block_count (ni s))) as Hpr by lia.
  assert ((addr + pos - lead) mod writesize (lower g) = 0) as Hal
    by (rewrite Hlead, Zminus_mod_idemp_r, Z.sub_diag; done).
  eapply wp_mono; [apply wp_and|].
  - by apply wp_read_logic_page.
  - rewrite Hpa. apply Hpages; done.
  - intros [[v d] o] s2 [(Hrel2 & Hd & _) Hv].
    split_and!; [by eapply chip_rel_trans|by eapply inst_ok_chip| |done].
    by rewrite (length_default_shape _ _ Hd).
Qed.

Lemma wp_read_range_loop :
  inst_ok s -> 0 <= addr -> 0 <= size -> addr + size < 2 ^ 64 ->
  addr + size <= ba2addr g (data_block_count (ni s)) -> size <= Z.of_nat (length buf) ->
  wp (read_range_loop addr size buf mode) read_post s.
Proof using Hg Hl Hpages.
  intros Hs Haddr Hsize Hsum Hend Hbuf. unfold read_range_loop. apply wp_bind, wp_gets.
  rewrite (st_geo _ _ (bo_st _ _ (proj1 (io_tab _ Hs)))).
  pose proof (writesize_pos g Hg). pose proof (geo_rawpage g Hg). pose proof (geo_oob g Hg).
  apply (wp_loop read_inv (fun l _ => read_rem l));
    [|unfold read_inv; split_and!; try lia; try done; [apply chip_rel_refl|];
      intros _; split; [intros ? ? ?; lia|done]|cbn; lia].
  intros [[[[[[off pos] rem] ecc] flips] r] b] s1 (-> & Hpos & Hrem & Hsz & Hb & Hfl & Hrel & Hecc).
  destruct (Z.eqb_spec rem 0) as [->|Hrem0].
  { apply wp_ret. split_and!; try lia; try done; [|naive_solver].
    intros He _. replace size with pos by lia. by apply Hecc. }
  destruct (range_chunk_spec (addr + pos) rem) as (chunk & -> & Hc1 & Hc2 & Hc3 & Hc4); [lia..|].
  set (lead := (addr + pos) mod _) in *.
  rewrite in_bounds_true by lia. cbn [negb].
  pose proof (inst_ok_chip _ _ Hs Hrel) as Hs1.
  destruct (Z.eqb_spec chunk (writesize (lower g))) as [Hfull|Hpart].
  - pose proof (length_slice b pos chunk ltac:(lia) ltac:(lia) ltac:(lia)).
    apply wp_bind. wp_call (wp_read_round pos lead (slice b pos chunk));
      [done|done|lia|done|done|done|done|lia|].
    intros [[v d] o] s2 (Hrel2 & _ & Hlen & Hv).
    pose proof (read_loop_next pos rem ecc flips v (default (slice b pos chunk) d) b s2) as Hn.
    cbn zeta in Hn. rewrite Hlen, <- Hfull in Hn. apply Hn; try done; try lia; [naive_solver|].
    intros Hv0. replace (addr + pos) with (addr + pos - lead) by lia. auto.
  - apply wp_bind, (wp_cache_get g); [apply Hs1|lia..|]. apply wp_bind.
    wp_call (wp_read_round pos lead (slice (page_cache (ni s1)) 0 (writesize (lower g))));
      [done|done|lia|done|done|done|done|apply (length_cache_slice g); [apply Hs1|lia..]|].
    intros [[v d] o] s2 (Hrel2 & Hs2 & Hlen & Hv). apply wp_bind.
    wp_call (wp_cache_put g none); [apply Hs2|lia|lia|]. intros _ s3 [Hrel3 Hpc].
    assert (chip_rel g none s s3) as Hrel' by eauto using chip_rel_trans.
    assert (inst_ok s3) as Hs3 by eauto using inst_ok_chip.
    destruct ((v <? 0) && negb (v =? - EBADMSG)) eqn:E.
    + apply wp_ret. apply andb_true_iff in E as [E1%Z.ltb_lt E2%negb_true_iff%Z.eqb_neq].
      split_and!; lia || done.
    + apply wp_bind, (wp_cache_get g); [apply Hs3|lia..|].
      pose proof (length_cache_slice g s3 lead chunk ltac:(apply Hs3) ltac:(lia) ltac:(lia) ltac:(lia)) as Hlc.
      pose proof (read_loop_next pos rem ecc flips v (slice (page_cache (ni s3)) lead chunk) b s3) as Hn.
      cbn zeta in Hn. rewrite Hlc, E in Hn. apply Hn; try done; try lia; [naive_solver|].
      intros Hv0 i w Hi. rewrite Hpc in Hi. apply (bytes_from_slice (addr + pos - lead) lead chunk
        (default (slice (page_cache (ni s1)) 0 (writesize (lower g))) d)) in Hi; [|auto|lia..].
      by replace (addr + pos + Z.of_nat i) with (addr + pos - lead + lead + Z.of_nat i) by lia.
Qed.
(** [nmbm_read_range]: the chip is only read, the buffer keeps its length, the
    code and [*retlen] are those of the branch taken, and a code that is not
    negative means that the whole buffer has been read. *)
Lemma wp_read_range :
  inst_ok s -> 0 <= addr -> 0 <= size -> addr + size < 2 ^ 64 -> size <= Z.of_nat (length buf) ->
  wp (nmbm_read_range addr size buf mode)
    (fun '(r, retlen, buf') s' =>
       match range_code (ni s) addr size false with
       | Some v => r = v /\ retlen = None /\ buf' = buf /\ s' = s
       | None => chip_rel g none s s' /\ length buf' = length buf /\
           (0 <= r -> read_ok size buf') /\
           exists n, retlen = Some n /\ 0 <= n <= size /\ (0 <= r \/ r = - EBADMSG -> n = size)
       end) s.
Proof using Hg Hl Hpages.
  intros Hs Haddr Hsize Hsum Hbuf. unfold nmbm_read_range, range_code.
  apply wp_bind, wp_gets, wp_bind, wp_gets, wp_bind, wp_gets.
  rewrite (st_geo _ _ (bo_st _ _ (proj1 (io_tab _ Hs)))), orb_false_r.
  destruct (negb _); [by apply wp_ret|].
  destruct (Z.geb_spec addr (ba2addr g (data_block_count (ni s)))); [by apply wp_ret|].
  rewrite u64_small by lia. rewrite Z.gtb_ltb.
  destruct (Z.ltb_spec (ba2addr g (data_block_count (ni s))) (addr + size)); [by apply wp_ret|].
  destruct (Z.eqb_spec size 0); [by apply wp_ret|]. apply wp_bind.
  wp_call wp_read_range_loop; [done|lia..|].
  intros [[[[r rem] ecc] flips] b] s1 (Hrel & Hlen & Hrem & Hfl & Hr & Hok & Hbad).
  rewrite u64_small by lia.
  destruct (Z.ltb_spec r 0), (Z.eqb_spec r (- EBADMSG)); cbn [andb negb];
    try destruct ecc; try (by destruct (Hbad eq_refl)); apply wp_ret;
    (split_and!; [done|done|try (unfold EBADMSG in *; intros; lia); try (intros _; by apply Hok)|]);
    exists (size - rem); split_and!; done || lia.
Qed.
End read_loop.

Lemma reads_pages_any s mode : inst_ok s -> reads_pages s (fun _ _ => True) mode.
Proof using Hg Hl.
  intros Hs s1 a buf Hrel Ha _ _. pose proof (inst_ok_chip _ _ Hs Hrel) as Hs1.
  destruct (addr2ba_lt s1 a Hs1) as [E ?]; [rewrite (chip_dbc _ _ _ Hrel); lia|].
  pose proof (io_dbc _ Hs1).
  wp_call wp_read_logic_page; [done|lia|]. by intros [[r d] o] ? _ ? ?.
Qed.

(** * Writing *)

Lemma page_in_block ba off :
  0 <= ba < block_count g -> 
  u64 (ba2addr g ba + Z.land off (erasesize_mask g)) / erasesize (lower g) = ba.
Proof using Hg.
  intros Hba. apply (block_addr_div g Hg); [done|]. pose proof (geo_shift g Hg).
  rewrite (geo_emask g Hg), (geo_erasesize g Hg).
  replace (2 ^ erasesize_shift g - 1) with (Z.ones (erasesize_shift g))
    by (rewrite Z.ones_equiv; lia).
  rewrite Z.land_ones by lia. apply Z.mod_pos_bound. apply Z.pow_pos_nonneg; lia.
Qed.

Lemma wp_write_logic_page addr data oob mode s :
  let lb := addr2ba g addr in
  inst_ok s -> 0 <= lb < block_count g ->
  wp (nmbm_write_logic_page addr data oob mode)
    (fun r s' => op_rel (touch (ni s) lb) none s s' /\ (r = 0 \/ r = - EIO)) s.
Proof using Hg Hl.
  intros lb Hs Hlb. unfold nmbm_write_logic_page. apply wp_bind, wp_gets.
  rewrite (st_geo _ _ (bo_st _ _ (proj1 (io_tab _ Hs)))). fold lb.
  apply wp_bind, wp_mapped_block; [done|done|]. intros m Hm Hok.
  assert (op_rel (touch (ni s) lb) none s s) by by apply op_rel_refl.
  destruct (entry_cases m Hok) as [[Hneg _]|(Hpos & -> & Hr)].
  { destruct (Z.ltb_spec (i32 (u32 m)) 0); [|lia]. apply wp_ret. auto. }
  rewrite i32_small by (pose proof (geo_count g Hg); lia). destruct (Z.ltb_spec m 0); [lia|].
  apply wp_bind, (wp_get_block_state g Hg); [apply Hs|done|].
  destruct (_ =? _); [apply wp_ret; auto|].
  assert (touch (ni s) lb m) as HB by by left. apply wp_bind.
  wp_call (wp_nmbm_write_phys_page g (touch (ni s) lb)); [apply Hs|intros; by rewrite page_in_block|].
  intros ok s1 Hrel1. pose proof (chip_op_rel _ none _ _ Hs Hrel1) as R1.
  destruct ok; [apply wp_ret; auto|]. apply wp_bind.
  wp_call (wp_set_bs (touch (ni s) lb) none); [apply R1|done|done|].
  intros _ s2 (R2 & _). pose proof (op_rel_trans _ _ _ _ _ R1 R2) as R2'. apply wp_bind.
  wp_call (wp_update_tables none); [apply R2|]. intros _ s3 (R3 & _).
  apply wp_ret. split; [|by right]. eapply op_rel_trans; [exact R2'|].
  eapply op_rel_mono; [| |exact R3]; [|done]. intros b Hb. right. by eapply op_region.
Qed.

(** The invariant and the measure of the loop of [nmbm_write_range]. *)
Lemma wp_write_range_loop addr size data mode s :
  inst_ok s -> 0 <= addr -> 0 < size -> addr + size < 2 ^ 64 ->
  addr + size <= ba2addr g (data_block_count (ni s)) -> size <= Z.of_nat (length data) ->
  wp (write_range_loop addr size data mode)
    (fun '(r, rem) s' =>
       op_rel (touch_in (ni s) (addr / erasesize (lower g))
                 ((addr + size - 1) / erasesize (lower g))) none s s' /\
       0 <= rem <= size /\ (r = 0 /\ rem = 0 \/ r = - EIO)) s.
Proof using Hg Hl.
  intros Hs Haddr Hsize Hsum Hend Hbuf. unfold write_range_loop. apply wp_bind, wp_gets.
  rewrite (st_geo _ _ (bo_st _ _ (proj1 (io_tab _ Hs)))).
  pose proof (writesize_pos g Hg). pose proof (geo_rawpage g Hg). pose proof (geo_oob g Hg).
  pose proof (erasesize_pos g Hg).
  set (B := touch_in _ _ _).
  apply (wp_loop
    (fun '(off, pos, rem, r) s' =>
       off = addr + pos /\ 0 <= pos /\ 0 <= rem /\ pos + rem = size /\ r = 0 /\
       op_rel B none s s')
    (fun '(_, _, rem, _) _ => Z.to_nat rem));
    [|split_and!; (lia || done || by apply op_rel_refl)|cbn; lia].
  intros [[[off pos] rem] r] s1 (-> & Hpos & Hrem & Hsz & -> & Hrel).
  destruct (Z.eqb_spec rem 0) as [->|Hrem0]; [apply wp_ret; split_and!; lia || done || by left|].
  destruct (range_chunk_spec (addr + pos) rem) as (chunk & -> & Hc1 & Hc2 & Hc3 & Hc4); [lia..|].
  set (lead := (addr + pos) mod _) in *.
  rewrite in_bounds_true by lia. cbn [negb].
  pose proof (length_slice data pos chunk ltac:(lia) ltac:(lia) ltac:(lia)).
  pose proof (op_frame _ _ _ _ Hrel) as [= _ _ _ Hdbc _].
  apply wp_bind.
  eapply (wp_mono _ (fun _ s2 => op_rel B none s s2)).
  { destruct (Z.eqb_spec chunk (writesize (lower g))); [by apply wp_ret|].
    apply wp_bind. wp_call (wp_cache_put g B); [apply Hrel|lia|rewrite length_replicate; lia|].
    intros _ s2 [Hrel2 _]. pose proof (chip_op_rel B none _ _ (op_ok _ _ _ _ Hrel) Hrel2) as R2.
    apply wp_bind. wp_call (wp_cache_put g B); [apply R2|lia|lia|].
    intros _ s3 [Hrel3 _]. pose proof (chip_op_rel B none _ _ (op_ok _ _ _ _ R2) Hrel3) as R3.
    apply (wp_cache_get g); [apply R3|lia..|]. eauto using op_rel_trans. }
  intros page s2 Hrel2. pose proof (op_ok _ _ _ _ Hrel2) as Hs2.
  pose proof (op_frame _ _ _ _ Hrel2) as [= _ _ _ Hdbc2 _].
  destruct (page_block s2 (addr + pos) Hs2 ltac:(rewrite Hdbc2; lia)) as [Hpb Hpa].
  fold lead in Hpb, Hpa. apply wp_bind. wp_call wp_write_logic_page; [done|done|].
  intros r s3 [R3 Hr].
  assert (op_rel B none s s3).
  { eapply op_rel_trans; [exact Hrel2|]. eapply op_rel_mono; [| |exact R3]; [|done].
    intros x Hx. exists (addr2ba g (u64 (addr + pos - lead))). split.
    - rewrite Hpa. destruct (addr2ba_lt s2 (addr + pos - lead) Hs2 ltac:(rewrite Hdbc2; lia)) as [-> _].
      unfold lead. rewrite page_start_div by lia. split; apply Z.div_le_mono; lia.
    - eapply (touch_mono _ _ _ _ _ Hrel2); [by intros []|lia|done]. }
  destruct (Z.eqb_spec r 0) as [->|]; cbn [negb]; apply wp_ret.
  - rewrite !u64_small by lia. split_and!; lia || done.
  - split_and!; [done|lia|lia|]. right. lia.
Qed.

Lemma wp_write_range addr size data mode s :
  inst_ok s -> 0 <= addr -> 0 <= size -> addr + size < 2 ^ 64 -> size <= Z.of_nat (length data) ->
  wp (nmbm_write_range addr size data mode)
    (fun '(r, retlen) s' =>
       match range_code (ni s) addr size (flag_set g NMBM_F_READ_ONLY) with
       | Some v => r = v /\ retlen = None /\ s' = s
       | None =>
           op_rel (touch_in (ni s) (addr / erasesize (lower g))
                     ((addr + size - 1) / erasesize (lower g))) none s s' /\
           exists n, retlen = Some n /\ 0 <= n <= size /\ (r = 0 /\ n = size \/ r = - EIO)
       end) s.
Proof using Hg Hl.
  intros Hs Haddr Hsize Hsum Hbuf. unfold nmbm_write_range, range_code.
  apply wp_bind, wp_gets, wp_bind, wp_gets, wp_bind, wp_gets.
  rewrite (st_geo _ _ (bo_st _ _ (proj1 (io_tab _ Hs)))).
  destruct (_ || _); [by apply wp_ret|].
  destruct (Z.geb_spec addr (ba2addr g (data_block_count (ni s)))); [by apply wp_ret|].
  rewrite u64_small by lia. rewrite Z.gtb_ltb.
  destruct (Z.ltb_spec (ba2addr g (data_block_count (ni s))) (addr + size)); [by apply wp_ret|].
  destruct (Z.eqb_spec size 0); [by apply wp_ret|]. apply wp_bind.
  wp_call wp_write_range_loop; [done|lia..|]. intros [r rem] s1 (Hrel & Hrem & Hr).
  rewrite u64_small by lia. apply wp_ret. split; [done|].
  exists (size - rem). split_and!; [done|lia|lia|]. destruct Hr as [[-> ->]|]; [left|by right].
  split; [done|lia].
Qed.

(** Codes of the operations on one address. *)
Definition addr_code (n : nmbm_instance chip) (addr : Z) (ro : bool) : option Z :=
  if negb (protected n =? 0) || ro then Some (- EROFS)
  else if addr >=? ba2addr g (data_block_count n) then Some (- EINVAL)
  else None.

Lemma wp_write_single_page addr data oob mode s :
  inst_ok s -> 0 <= addr ->
  wp (nmbm_write_single_page addr data oob mode)
    (fun r s' =>
       match addr_code (ni s) addr (flag_set g NMBM_F_READ_ONLY) with
       | Some v => r = v /\ s' = s
       | None => op_rel (touch (ni s) (addr / erasesize (lower g))) none s s' /\
                 (r = 0 \/ r = - EIO)
       end) s.
Proof using Hg Hl.
  intros Hs Haddr. unfold nmbm_write_single_page, addr_code.
  apply wp_bind, wp_gets, wp_bind, wp_gets, wp_bind, wp_gets.
  rewrite (st_geo _ _ (bo_st _ _ (proj1 (io_tab _ Hs)))).
  destruct (_ || _); [by apply wp_ret|].
  destruct (Z.geb_spec addr (ba2addr g (data_block_count (ni s)))); [by apply wp_ret|].
  destruct (addr2ba_lt s addr Hs ltac:(lia)) as [E ?]. pose proof (io_dbc _ Hs).
  rewrite <- E. apply wp_write_logic_page; [done|lia].
Qed.

Lemma wp_read_single_page addr data oob mode s :
  inst_ok s -> 0 <= addr ->
  wp (nmbm_read_single_page addr data oob mode)
    (fun '(r, data', oob') s' =>
       match addr_code (ni s) addr false with
       | Some v => r = v /\ data' = data /\ oob' = oob /\ s' = s
       | None => chip_rel g none s s' /\ same_shape data data' /\ same_shape oob oob'
       end) s.
Proof using Hg Hl.
  intros Hs Haddr. unfold nmbm_read_single_page, addr_code.
  apply wp_bind, wp_gets, wp_bind, wp_gets, wp_bind, wp_gets.
  rewrite (st_geo _ _ (bo_st _ _ (proj1 (io_tab _ Hs)))), orb_false_r.
  destruct (negb _); [by apply wp_ret|].
  destruct (Z.geb_spec addr (ba2addr g (data_block_count (ni s)))); [by apply wp_ret|].
  destruct (addr2ba_lt s addr Hs ltac:(lia)) as [E ?]. pose proof (io_dbc _ Hs).
  apply wp_read_logic_page; [done|lia].
Qed.

(** * Bad blocks *)

Lemma wp_check_bad_block addr s :
  inst_ok s -> 0 <= addr ->
  wp (nmbm_check_bad_block addr)
    (fun r s' => s' = s /\
       if addr >=? ba2addr g (data_block_count (ni s)) then r = - EINVAL
       else exists m, phys_of (ni s) (addr / erasesize (lower g)) m /\
         r = if (m <? 0) || (bstate (block_state (ni s)) m =? BLOCK_ST_BAD) then 1 else 0) s.
Proof using Hg.
  intros Hs Haddr. unfold nmbm_check_bad_block. apply wp_bind, wp_gets, wp_bind, wp_gets.
  rewrite (st_geo _ _ (bo_st _ _ (proj1 (io_tab _ Hs)))).
  destruct (Z.geb_spec addr (ba2addr g (data_block_count (ni s)))); [by apply wp_ret|].
  destruct (addr2ba_lt s addr Hs ltac:(lia)) as [-> ?]. pose proof (io_dbc _ Hs).
  apply wp_bind, wp_mapped_block; [done|lia|]. intros m Hm Hok.
  destruct (entry_cases m Hok) as [[Hneg ?]|(Hpos & -> & Hr)].
  { destruct (Z.ltb_spec (i32 (u32 m)) 0); [|lia]. apply wp_ret. split; [done|].
    exists m. split; [done|]. destruct (Z.ltb_spec m 0); [done|lia]. }
  rewrite i32_small by (pose proof (geo_count g Hg); lia). destruct (Z.ltb_spec m 0) as [|Hm0]; [lia|].
  apply wp_bind, (wp_get_block_state g Hg); [apply Hs|done|].
  destruct (_ =? _) eqn:E; apply wp_ret; (split; [done|]); exists m;
    destruct (Z.ltb_spec m 0); try lia; by rewrite E.
Qed.

Lemma wp_mark_bad_block addr s :
  inst_ok s -> 0 <= addr ->
  wp (nmbm_mark_bad_block addr)
    (fun r s' =>
       match addr_code (ni s) addr (flag_set g NMBM_F_READ_ONLY) with
       | Some v => r = v /\ s' = s
       | None => let lb := addr / erasesize (lower g) in
           r = 0 /\ op_rel (touch (ni s) lb) (eq lb) s s' /\
           exists m, phys_of (ni s') lb m /\ m < 0
       end) s.
Proof using Hg Hl.
  intros Hs Haddr. unfold nmbm_mark_bad_block, addr_code.
  apply wp_bind, wp_gets, wp_bind, wp_gets, wp_bind, wp_gets.
  rewrite (st_geo _ _ (bo_st _ _ (proj1 (io_tab _ Hs)))).
  destruct (_ || _); [by apply wp_ret|].
  destruct (Z.geb_spec addr (ba2addr g (data_block_count (ni s)))); [by apply wp_ret|].
  destruct (addr2ba_lt s addr Hs ltac:(lia)) as [-> Hlb]. pose proof (io_dbc _ Hs). cbn zeta.
  set (lb := addr / _) in *. apply wp_bind, wp_mapped_block; [done|lia|]. intros m Hm Hok.
  destruct (entry_cases m Hok) as [[Hneg ?]|(Hpos & -> & Hr)].
  { destruct (Z.ltb_spec (i32 (u32 m)) 0); [|lia]. apply wp_ret.
    split_and!; [done|by apply op_rel_refl|by exists m]. }
  rewrite i32_small by (pose proof (geo_count g Hg); lia). destruct (Z.ltb_spec m 0) as [|Hm0]; [lia|].
  pose proof (bo_mapping _ _ (proj1 (io_tab _ Hs))) as Hlen.
  apply wp_bind, wp_set_mapping; [lia|].
  pose proof (op_rel_set_map (touch (ni s) lb) (eq lb) s lb (-1) Hs ltac:(lia) eq_refl
    ltac:(left; lia) ltac:(left; lia)) as R1.
  revert R1. set (s1 := set_ni _ s). intros R1. apply wp_bind.
  wp_call (wp_skip_bad (touch (ni s) lb) (eq lb)); [apply R1|done|by left|].
  intros _ s2 (R2 & _ & Hm2). pose proof (op_rel_trans _ _ _ _ _ R1 R2) as R2'. apply wp_bind.
  wp_call (wp_update_tables (eq lb)); [apply R2|]. intros _ s3 (R3 & _ & Hm3).
  apply wp_ret. split_and!; [done| |].
  - eapply op_rel_trans; [exact R2'|]. eapply op_rel_mono; [| |exact R3]; [|done].
    intros b Hb. right. by eapply op_region.
  - exists (-1). split; [|lia]. unfold phys_of. rewrite Hm3, Hm2. cbn.
    apply list_lookup_insert_eq. lia.
Qed.
End logic_spec.
