(* ===== verification/NmbmAttachSpec.v ===== *)
(** Initialisation and creation: the geometry [nmbm_init_structure] computes is
    well formed, the search for the signature only reads the chip, and
    [nmbm_create_new] establishes the invariant of an attached instance. *)

From stdpp Require Import base list numbers sets relations.
From Stdlib Require Import ZArith Lia.
From S2P Require Import Prelude NmbmTypes NmbmChip NmbmBlocks NmbmTable NmbmAttach NmbmLogic.
From S2P Require Import NmbmSpec NmbmBlockSpec NmbmWalk NmbmTableSpec NmbmLogicSpec.
Local Open Scope Z_scope.
Local Open Scope cprog_scope.

(** * Powers of two *)

Lemma is_power_of_2_spec n : 0 < n -> is_power_of_2 n = true -> n = 2 ^ Z.log2 n.
Proof.
  intros Hn. unfold is_power_of_2.
  destruct (Z.eqb_spec n 0); [lia|]. cbn. intros E%Z.eqb_eq.
  destruct (Z.log2_spec n Hn) as [H1 H2]. pose proof (Z.log2_nonneg n).
  destruct (Z.eq_dec n (2 ^ Z.log2 n)) as [|Hne]; [done|exfalso].
  assert (Z.testbit (Z.land n (n - 1)) (Z.log2 n) = true) as Ht.
  { rewrite Z.land_spec, Z.bit_log2 by lia. cbn.
    replace (Z.log2 n) with (Z.log2 (n - 1)) at 1; [apply Z.bit_log2; lia|].
    apply Z.log2_unique; lia. }
  by rewrite E, Z.bits_0 in Ht.
Qed.

Lemma ffs_pow2 k : 0 <= k -> ffs (2 ^ k) = k + 1.
Proof.
  intros Hk. unfold ffs. pose proof (Z.pow_pos_nonneg 2 k).
  destruct (Z.eqb_spec (2 ^ k) 0); [lia|]. f_equal.
  assert (Z.land (2 ^ k) (- 2 ^ k) = 2 ^ k) as ->; [|by apply Z.log2_pow2].
  apply Z.bits_inj'. intros i Hi. rewrite Z.land_spec, Z.pow2_bits_eqb by done.
  destruct (Z.eqb_spec k i) as [<-|]; [|done]. cbn.
  rewrite Z.bits_opp by done. replace (Z.pred (2 ^ k)) with (Z.ones k) by (rewrite Z.ones_equiv; lia).
  by rewrite Z.ones_spec_high by lia.
Qed.

Lemma pow2_log_le a b : 0 <= a -> 0 <= b -> 2 ^ a <= 2 ^ b -> a <= b.
Proof. intros. apply (Z.pow_le_mono_r_iff 2); lia. Qed.

(** [NMBM_ALIGN] rounds up to a multiple of a power of two. *)
Lemma NMBM_ALIGN_eq v k :
  0 <= v -> 0 <= k -> v + 2 ^ k <= 2 ^ 32 ->
  NMBM_ALIGN v (2 ^ k) = (v + 2 ^ k - 1) / 2 ^ k * 2 ^ k.
Proof.
  intros Hv Hk Hlt. pose proof (Z.pow_pos_nonneg 2 k). unfold NMBM_ALIGN.
  set (x := v + 2 ^ k - 1). replace (2 ^ k - 1) with (Z.ones k) by (rewrite Z.ones_equiv; lia).
  assert (k <= 32) by (apply pow2_log_le; lia).
  assert (Z.ones k < 2 ^ 32) by (rewrite Z.ones_equiv; lia).
  rewrite (u32_small x), (u32_small (Z.ones k)) by (rewrite ?Z.ones_equiv; unfold x; lia).
  assert (Z.land x (u32 (Z.lnot (Z.ones k))) = x / 2 ^ k * 2 ^ k) as ->.
  { rewrite <- Z.shiftr_div_pow2, <- Z.shiftl_mul_pow2 by done.
    apply Z.bits_inj'. intros i Hi. rewrite Z.land_spec, Z.shiftl_spec by done.
    destruct (Z_lt_le_dec i k).
    - rewrite (Z.testbit_neg_r _ (i - k)), testbit_u32, Z.lnot_spec, Z.ones_spec_low by lia.
      by rewrite andb_false_r.
    - rewrite Z.shiftr_spec by lia. replace (i - k + k) with i by lia.
      destruct (Z_lt_le_dec i 32).
      + by rewrite testbit_u32, Z.lnot_spec, Z.ones_spec_high, andb_true_r by lia.
      + assert (Z.testbit x i = false) as ->; [|done].
        destruct (Z.eq_dec x 0) as [->|]; [apply Z.bits_0|].
        apply Z.bits_above_log2; [unfold x; lia|].
        assert (Z.log2 x < 32) by (apply Z.log2_lt_pow2; unfold x in *; lia). lia. }
  apply u32_small. split; [apply Z.mul_nonneg_nonneg; [apply Z.div_pos|]; unfold x; lia|].
  pose proof (Z.mul_div_le x (2 ^ k) ltac:(lia)). unfold x in *. lia.
Qed.

Lemma NMBM_ALIGN_bounds v k :
  0 <= v -> 0 <= k -> v + 2 ^ k <= 2 ^ 32 ->
  v <= NMBM_ALIGN v (2 ^ k) < v + 2 ^ k.
Proof.
  intros Hv Hk Hlt. rewrite NMBM_ALIGN_eq by done. pose proof (Z.pow_pos_nonneg 2 k).
  pose proof (Z.div_mod (v + 2 ^ k - 1) (2 ^ k)).
  pose proof (Z.mod_pos_bound (v + 2 ^ k - 1) (2 ^ k)). lia.
Qed.

Section attach_spec.
Context {chip : Type} {C : Crc32}.
Abbreviation prog := (M (nst chip)).

(** * Initialisation *)

(** The ranges of the members of the lower device.  The bound on the number of
    blocks keeps the table sizes inside 32 bits. *)
Record nld_bounds (d : nmbm_lower_device chip) : Prop := {
  nb_size : 0 < nld_size d < 2 ^ 64;
  nb_erase : 0 < erasesize d < 2 ^ 32;
  nb_write : 0 < writesize d <= erasesize d /\ writesize d < 2 ^ 26;
  nb_oob : 0 <= oobsize d < 2 ^ 26;
  nb_blocks : 16 * erasesize d <= nld_size d < 2 ^ 24 * erasesize d;
  nb_ratio : 0 <= max_ratio d;
  nb_reserved : 0 <= max_reserved_blocks d < 2 ^ 32
}.

(** What [nmbm_check_lower_members] accepts. *)
Lemma check_lower_members_spec d d' :
  nmbm_check_lower_members d = Some d' -> nld_bounds d ->
  nld_bounds d' /\ is_Some (read_page d') /\
  (Z.land (flags d') NMBM_F_READ_ONLY = 0 -> is_Some (write_page d') /\ is_Some (erase_block d')) /\
  nld_size d' = 2 ^ Z.log2 (nld_size d') /\ erasesize d' = 2 ^ Z.log2 (erasesize d') /\
  writesize d' = 2 ^ Z.log2 (writesize d') /\ 0 < oobsize d' /\
  1 <= max_ratio d' < NMBM_MGMT_DIV - 1.
Proof.
  intros H [B1 B2 B3 B4 B5 B6 B7]. unfold nmbm_check_lower_members in H.
  repeat match type of H with
  | (if ?b then None else _) = Some _ => destruct b eqn:?; [done|]
  end.
  repeat match goal with
  | E : _ || negb _ = false |- _ =>
      apply orb_false_iff in E as [_ E%negb_false_iff%is_power_of_2_spec]; [|lia]
  end.
  destruct (read_page d) as [f|] eqn:Hrd; [|done].
  assert (Z.land (flags d) NMBM_F_READ_ONLY = 0 ->
    is_Some (write_page d) /\ is_Some (erase_block d)) as Hwr.
  { intros E. rewrite E in *. destruct (write_page d), (erase_block d); try done; eauto. }
  cbn zeta in H. change (NMBM_MGMT_DIV - 1) with 15 in *.
  destruct (Z.eqb_spec (max_ratio d) 0) as [Er|Er]; cbn [max_ratio set_max_ratio] in H;
    repeat match type of H with
    | (if ?b then None else _) = Some _ => destruct b eqn:?; [done|]
    end; injection H as <-; (split; [by split|]); cbn; split_and!; try done; try lia.
  all: rewrite Hrd; eauto.
Qed.

(** A device that has passed the check, in exponents. *)
Record nld_checked (d : nmbm_lower_device chip) (ks ke kw : Z) : Prop := {
  nc_bounds : nld_bounds d;
  nc_exp : 0 <= kw <= ke /\ ke + 4 <= ks < ke + 24 /\ ke < 32 /\ ks < 64 /\ kw < 26;
  nc_size : nld_size d = 2 ^ ks;
  nc_erase : erasesize d = 2 ^ ke;
  nc_write : writesize d = 2 ^ kw;
  nc_oob : 0 < oobsize d;
  nc_ratio : 1 <= max_ratio d < NMBM_MGMT_DIV - 1
}.

Lemma check_lower_members_exp d d' :
  nmbm_check_lower_members d = Some d' -> nld_bounds d -> exists ks ke kw, nld_checked d' ks ke kw.
Proof.
  intros H Hb. destruct (check_lower_members_spec _ _ H Hb) as (Hb' & _ & _ & E1 & E2 & E3 & ? & ?).
  exists (Z.log2 (nld_size d')), (Z.log2 (erasesize d')), (Z.log2 (writesize d')).
  pose proof Hb' as [B1 B2 [B3 B3'] B4 B5 B6 B7].
  pose proof (Z.log2_nonneg (nld_size d')). pose proof (Z.log2_nonneg (erasesize d')).
  pose proof (Z.log2_nonneg (writesize d')).
  split; try done. rewrite E1, E2 in B5. change 16 with (2 ^ 4) in B5.
  rewrite <- !Z.pow_add_r in B5 by lia. destruct B5 as [B5 B5'].
  apply Z.pow_lt_mono_r_iff in B5'; [|lia..]. apply Z.pow_le_mono_r_iff in B5; [|lia..].
  assert (Z.log2 (writesize d') <= Z.log2 (erasesize d')) by (apply Z.log2_le_mono; lia).
  assert (Z.log2 (erasesize d') < 32) by (apply Z.log2_lt_pow2; lia).
  assert (Z.log2 (nld_size d') < 64) by (apply Z.log2_lt_pow2; lia).
  assert (Z.log2 (writesize d') < 26) by (apply Z.log2_lt_pow2; lia). lia.
Qed.

Lemma pow2_div a b : 0 <= b <= a -> 2 ^ a / 2 ^ b = 2 ^ (a - b).
Proof. intros. rewrite <- Z.pow_sub_r by lia. done. Qed.

(** The number of blocks. *)
Definition nblocks (ks ke : Z) : Z := 2 ^ (ks - ke).

Lemma nblocks_range ks ke : ke + 4 <= ks < ke + 24 -> 16 <= nblocks ks ke < 2 ^ 24.
Proof.
  intros. unfold nblocks. split; [change 16 with (2 ^ 4); apply Z.pow_le_mono_r; lia|].
  apply Z.pow_lt_mono_r; lia.
Qed.

(** The geometry in closed form. *)
Lemma init_geometry_eq d ks ke kw :
  nld_checked d ks ke kw ->
  let n := nblocks ks ke in
  let sts := 4 * ((n + 15) / 16) in
  let so := NMBM_ALIGN 32 (2 ^ kw) in
  let mo := so + NMBM_ALIGN sts (2 ^ kw) in
  let its := mo + NMBM_ALIGN (4 * n) (2 ^ kw) in
  exists rb rc sp,
  init_geometry d =
    (mk_nmbm_geometry d (2 ^ kw + oobsize d) rb rc (2 ^ kw - 1) (2 ^ ke - 1) kw ke its sp
       sts (4 * n) n, so, mo) /\
  0 <= sp < 2 ^ 31 /\ 32 <= so /\ so + sts <= mo /\ mo + 4 * n <= its /\ its < 2 ^ 31.
Proof.
  intros [[B1 B2 [B3 B3'] B4 B5 B6 B7] E1 E2 E3 E4 E5 E6] n sts so mo its.
  pose proof (nblocks_range ks ke ltac:(lia)) as Hn. fold n in Hn.
  pose proof (Z.pow_pos_nonneg 2 kw). assert (2 ^ kw < 2 ^ 26) by (apply Z.pow_lt_mono_r; lia).
  pose proof (Z.pow_pos_nonneg 2 ke). assert (2 ^ ke < 2 ^ 32) by (apply Z.pow_lt_mono_r; lia).
  assert (0 <= (n + 15) / 16 <= n) as Hd
    by (split; [apply Z.div_pos; lia|apply Z.div_le_upper_bound; lia]).
  pose proof (NMBM_ALIGN_bounds 32 kw ltac:(lia) ltac:(lia) ltac:(lia)) as Hso.
  pose proof (NMBM_ALIGN_bounds sts kw ltac:(unfold sts; lia) ltac:(lia) ltac:(unfold sts; lia)) as Hmo.
  pose proof (NMBM_ALIGN_bounds (4 * n) kw ltac:(lia) ltac:(lia) ltac:(lia)) as Hits.
  unfold init_geometry. rewrite E2, E3, E4, !ffs_pow2 by lia.
  replace (ke + 1 - 1) with ke by lia. replace (kw + 1 - 1) with kw by lia.
  assert (u16 ke = ke) as -> by (apply Z.mod_small; lia).
  assert (u16 kw = kw) as -> by (apply Z.mod_small; lia).
  rewrite (Z.shiftr_div_pow2 (2 ^ ks)), !(pow2_div ks ke) by lia.
  fold (nblocks ks ke). fold n. rewrite (u32_small n) by lia.
  assert (calc_state_table_size n = sts) as ->.
  { unfold calc_state_table_size. change NMBM_BITMAP_BLOCKS_PER_UNIT with 16.
    change NMBM_BITMAP_UNIT_SIZE with 4. rewrite (u32_small (n + 16 - 1)) by lia.
    replace (n + 16 - 1) with (n + 15) by lia. rewrite u32_small by lia. unfold sts. lia. }
  assert (calc_mapping_table_size n = 4 * n) as ->
    by (unfold calc_mapping_table_size; rewrite u32_small by lia; lia).
  change sizeof_nmbm_info_table_header with 32. fold so.
  assert (u32 (so + NMBM_ALIGN sts (2 ^ kw)) = mo) as ->
    by (apply u32_small; unfold mo, so, sts in *; lia).
  assert (u32 (mo + NMBM_ALIGN (4 * n) (2 ^ kw)) = its) as ->
    by (apply u32_small; unfold its, mo, so, sts in *; lia).
  rewrite (u32_small (2 ^ kw + oobsize d)), (u32_small (2 ^ kw - 1)), (u32_small (2 ^ ke - 1)) by lia.
  eexists _, _, _. split; [reflexivity|]. split; [|unfold its, mo, so, sts in *; lia].
  unfold nmbm_get_spare_block_count. set (x := u32 (Z.shiftr _ _)).
  pose proof (u32_range (x + NMBM_SPARE_BLOCK_DIV / 2)) as Hr.
  change NMBM_SPARE_BLOCK_DIV with 2 in *. change NMBM_SPARE_BLOCK_MULTI with 1.
  change NMBM_SPARE_BLOCK_MIN with 2.
  assert (0 <= u32 (x + 2 / 2) / 2 < 2 ^ 31)
    by (split; [apply Z.div_pos|apply Z.div_lt_upper_bound]; lia).
  rewrite u32_small by lia. destruct (_ <? _); lia.
Qed.

Lemma init_geometry_ok d ks ke kw :
  nld_checked d ks ke kw -> geom_ok (init_geometry d).1.1.
Proof.
  intros H. destruct (init_geometry_eq _ _ _ _ H) as (rb & rc & sp & -> & Hsp & H1 & H2 & H3 & H4).
  pose proof H as [[B1 B2 [B3 B3'] B4 B5 B6 B7] E1 E2 E3 E4 E5 E6].
  pose proof (nblocks_range ks ke ltac:(lia)) as Hn.
  split; cbn; rewrite ?E2, ?E3, ?E4; try lia.
  - unfold nblocks. rewrite <- Z.pow_add_r by lia. replace (ks - ke + ke) with ks by lia.
    apply Z.pow_lt_mono_r; lia.
  - change sizeof_nmbm_info_table_header with 32.
    assert (0 <= (nblocks ks ke + 15) / 16) by (apply Z.div_pos; lia). lia.
Qed.

(** * Creation *)

Section create.
Context (g : nmbm_geometry chip) (Hg : geom_ok g) `{Hl : !lower_contract (lower g)}.

(** What holds after [nmbm_init_structure], before the tables are placed. *)
Record pre_ok (s : nst chip) : Prop := {
  pre_st : st_ok g s;
  pre_cache : Z.of_nat (length (info_table_cache (ni s))) = info_table_size g;
  pre_mapping : Z.of_nat (length (block_mapping (ni s))) = block_count g;
  pre_state_off : 0 <= state_table_off (info_table (ni s)) /\
    state_table_off (info_table (ni s)) + state_table_size g <= info_table_size g;
  pre_mapping_off : 0 <= mapping_table_off (info_table (ni s)) /\
    mapping_table_off (info_table (ni s)) + mapping_table_size g <= info_table_size g
}.

Lemma pre_base s :
  pre_ok s -> 0 < mgmt_start_ba (ni s) <= mapping_blocks_top_ba (ni s) ->
  mapping_blocks_top_ba (ni s) < block_count g -> base_ok g s.
Proof using. intros [] ? ?. by split. Qed.

Lemma pre_ok_chip s s' : pre_ok s -> chip_rel g none s s' -> pre_ok s'.
Proof using.
  intros Hpre Hrel. pose proof (st_ok_chip_rel _ _ _ _ (pre_st _ Hpre) Hrel).
  destruct Hpre, Hrel as (_ & _ & E2). split; [done|rewrite E2; done..].
Qed.

(** The boundary of the management area. *)
Lemma create_mgmt_start_range :
  16 <= block_count g < 2 ^ 24 -> 1 <= max_ratio (lower g) < NMBM_MGMT_DIV - 1 ->
  0 <= max_reserved_blocks (lower g) < 2 ^ 32 ->
  0 < create_mgmt_start g < block_count g.
Proof using.
  intros Hbc Hr Hm. unfold create_mgmt_start. change NMBM_MGMT_DIV with 16 in *.
  rewrite (u32_small (block_count g * (16 - max_ratio (lower g)))) by nia.
  set (m := _ / 16).
  assert (0 < m < block_count g)
    by (unfold m; split; [apply Z.div_str_pos|apply Z.div_lt_upper_bound]; nia).
  rewrite (u32_small (block_count g - m)) by lia.
  destruct (Z.eqb_spec (max_reserved_blocks (lower g)) 0); cbn [negb andb]; [done|].
  rewrite Z.gtb_ltb. destruct (Z.ltb_spec (max_reserved_blocks (lower g)) (block_count g - m)); [|done].
  rewrite u32_small; lia.
Qed.

(** The progress of the creation after the mapping table is built: [bm0] is
    that table, of which the first [k] entries stay as they are. *)
Record created (s : nst chip) (bm0 : list Z) (k mgmt : Z) (s' : nst chip) : Prop := {
  cr_dev : dev_steps g (fun b => mgmt <= b < block_count g) (dev s) (dev s');
  cr_ok : inst_ok g s';
  cr_mgmt : mgmt_start_ba (ni s') = mgmt;
  cr_dbc : k <= data_block_count (ni s') <= mgmt;
  cr_map : forall i, 0 <= i < k -> block_mapping (ni s') !! Z.to_nat i = bm0 !! Z.to_nat i
}.

Lemma created_op s bm0 k mgmt s1 B L s2 :
  created s bm0 k mgmt s1 -> op_rel g B L s1 s2 ->
  (forall b, B b -> mgmt <= b < block_count g) -> (forall i, L i -> k <= i) ->
  created s bm0 k mgmt s2.
Proof using.
  intros [C1 C2 C3 C4 C5] [R1 R2 [= F1 F2 F3 F4 F5] R4 R5 R6 R7] HB HL.
  split; [etrans; [exact C1|by eapply dev_steps_mono]|done|congruence|by rewrite F4|].
  intros i Hi. rewrite R5, C5; [done|lia|lia|]. intros ?%HL. lia.
Qed.

Lemma region_created s bm0 k mgmt s1 :
  created s bm0 k mgmt s1 -> forall b, region (ni s1) b -> mgmt <= b < block_count g.
Proof using.
  intros [C1 C2 C3 C4 C5] b. unfold region. pose proof (bo_area _ _ (proj1 (io_tab _ _ C2))). lia.
Qed.

(** The loop that maps bad blocks at the end of the data area to spare blocks. *)
Lemma wp_create_map_loop s bm0 k mgmt s1 :
  created s bm0 k mgmt s1 -> data_block_count (ni s1) = k -> 0 <= k ->
  wp (loop (S (Z.to_nat (mgmt - k)))
        (fun lb =>
           if lb <? mgmt then
             let* success := nmbm_map_block lb in
             if negb success then ret (inr tt)
             else
               let* dbc := ask data_block_count in
               do* upd (set_data_block_count (u32 (dbc + 1))) in
               ret (inl (u32 (lb + 1)))
           else ret (inr tt)) k)
    (fun _ s' => created s bm0 k mgmt s') s1.
Proof using Hg Hl.
  intros Hc Hdbc Hk. pose proof (geo_count g Hg).
  apply (wp_loop (fun lb s' => created s bm0 k mgmt s' /\ data_block_count (ni s') = lb)
           (fun lb _ => Z.to_nat (mgmt - lb))); [|done|lia].
  clear s1 Hc Hdbc. intros lb s1 [Hc Hdbc].
  destruct (Z.ltb_spec lb mgmt); [|by apply wp_ret]. pose proof (cr_dbc _ _ _ _ _ Hc).
  pose proof (bo_area _ _ (proj1 (io_tab _ _ (cr_ok _ _ _ _ _ Hc)))).
  pose proof (cr_mgmt _ _ _ _ _ Hc).
  apply wp_bind. wp_call (wp_map_block g Hg); [apply Hc|lia|]. intros r s2 [R Hr].
  assert (created s bm0 k mgmt s2) as Hc2.
  { eapply created_op; [done|exact R|by eapply region_created|intros ? <-; lia]. }
  destruct r; cbn [negb]; [|by apply wp_ret].
  pose proof (op_frame _ _ _ _ _ R) as [= _ _ _ F4 _].
  apply wp_bind, wp_gets, wp_bind, wp_modify, wp_ret.
  rewrite F4, Hdbc, u32_small by lia. split; [|lia]. split; [|done].
  destruct Hc2 as [C1 [[[A0 A1 A2 A3 A4 A5] [L1 L2 L3]] C2 C2'] C3 C4 C5].
  split; try done; cbn; [|lia].
  split; try done; cbn; [|lia]. split; [|by split]. split; try done. destruct A0; by split.
Qed.

Lemma wp_create_info_table s s0 l mgmt :
  pre_ok s -> dev_steps g (fun b => mgmt <= b < block_count g) s0 (dev s) ->
  mgmt_start_ba (ni s) = mgmt -> 0 < mgmt < block_count g ->
  signature_ba (ni s) < block_count g ->
  block_mapping (ni s) = l ++ replicate (Z.to_nat (block_count g) - length l) (-1) ->
  Forall (fun b => 0 <= b < block_count g) l -> data_block_count (ni s) = Z.of_nat (length l) ->
  Z.of_nat (length l) <= mgmt ->
  wp nmbm_create_info_table
    (fun r s' => if r : bool
       then created (mk_nst (ni s) s0) (block_mapping (ni s)) (Z.of_nat (length l)) mgmt s'
       else dev_steps g (fun b => mgmt <= b < block_count g) s0 (dev s')) s.
Proof using Hg Hl.
  intros Hs Hdev Hm Hmr Hsba Hbm Hl0 Hdbc Hlen. pose proof (geo_count g Hg).
  unfold nmbm_create_info_table. apply wp_bind, wp_gets, wp_bind, wp_gets.
  rewrite Hm. apply wp_bind. unfold nmbm_block_walk. change (u32 (i32 1)) with 1.
  rewrite u32_i32, u32_small by lia.
  wp_call (wp_walk_desc g Hg); [apply Hs|lia|lia|lia|]. intros r s1 [-> ->].
  unfold walk_limit. destruct (Z.geb_spec mgmt (block_count g)); [lia|].
  destruct (_ !! Z.to_nat 1) as [top|] eqn:Htop; [|by apply wp_ret].
  apply list_elem_of_lookup_2, elem_of_good_desc in Htop as [Htop _].
  apply wp_bind, wp_modify. set (s1 := set_ni _ s).
  assert (base_ok g s1) as Hb1.
  { apply pre_base; [|cbn; lia..]. destruct Hs as [[G1 G2 G3 G4] P2 P3 P4 P5]. by split. }
  apply wp_bind, (wp_generate g Hg); [done|]. cbn zeta.
  pose proof (generate_base_rel g Hg s1 Hb1) as [Hgen _]. cbn zeta in Hgen.
  revert Hgen. set (s2 := mk_nst (set_info_table_cache _ _) (dev s1)). intros Hgen.
  pose proof (at_tables_init g s2 (rel_ok _ _ _ Hgen)) as Hat.
  apply wp_bind. wp_call (wp_rebuild g Hg); [apply Hgen|exact Hat|].
  intros r s3 (Hrel & Hlay & Hr).
  pose proof (base_rel_trans _ _ _ _ Hgen Hrel) as Hrel'.
  assert (forall b, area (ni s1) b -> mgmt <= b < block_count g) as Harea
    by (intros b; unfold area, blocks_in; cbn; lia).
  assert (dev_steps g (fun b => mgmt <= b < block_count g) s0 (dev s3)) as Hdev3.
  { etrans; [exact Hdev|]. eapply dev_steps_mono; [exact Harea|]. apply (rel_dev _ _ _ Hrel'). }
  destruct r; cbn [negb]; [|by apply wp_ret].
  pose proof (rel_keep _ _ _ Hrel') as [= K1 K2 K3 K4 K5 K6 K7].
  assert (created (mk_nst (ni s) s0) (block_mapping (ni s)) (Z.of_nat (length l)) mgmt s3) as Hc.
  { split; cbn; [done| |congruence|lia|intros; by rewrite K2].
    split; [by split; [apply Hrel|]| |rewrite K3; cbn; lia].
    rewrite K2. cbn. rewrite Hbm. apply Forall_app. split.
    - eapply Forall_impl; [exact Hl0|]. intros ? ?. by right.
    - apply Forall_replicate. left. lia. }
  apply wp_bind, wp_gets. rewrite K3. cbn [data_block_count]. apply wp_bind.
  cbn. rewrite Hdbc.
  wp_call wp_create_map_loop; [exact Hc|rewrite K3; done|lia|]. intros _ s4 Hc4.
  wp_call (wp_update_tables g Hg none); [apply Hc4|]. intros r s5 (R & _).
  assert (created (mk_nst (ni s) s0) (block_mapping (ni s)) (Z.of_nat (length l)) mgmt s5) as Hc5.
  { eapply created_op; [exact Hc4|exact R|by eapply region_created|by intros ? []]. }
  destruct r; [done|]. apply (cr_dev _ _ _ _ _ Hc5).
Qed.

Lemma pre_ok_upd f s :
  pre_ok s ->
  (forall n, geo (f n) = geo n /\ page_cache (f n) = page_cache n /\
     block_state (f n) = block_state n /\ block_state_changed (f n) = block_state_changed n /\
     length (block_mapping (f n)) = length (block_mapping n) /\
     info_table (f n) = info_table n /\ info_table_cache (f n) = info_table_cache n) ->
  pre_ok (set_ni f s).
Proof using.
  intros [[G1 G2 G3 G4] P2 P3 P4 P5] Hf. destruct (Hf (ni s)) as (E1 & E2 & E3 & E4 & E5 & E6 & E7).
  split; cbn; rewrite ?E5, ?E6, ?E7; try done. split; cbn; rewrite ?E2, ?E3, ?E4; congruence.
Qed.

(** The block states the scan leaves behind decide which blocks are used. *)
Lemma wp_create_new s :
  let mgmt := create_mgmt_start g in
  pre_ok s -> 0 < mgmt < block_count g -> flag_set g NMBM_F_READ_ONLY = false ->
  wp nmbm_create_new
    (fun r s' => exists bs,
       let l := usable bs mgmt in
       dev_steps g (fun b => mgmt <= b < block_count g) (dev s) (dev s') /\
       (r = true -> exists n, created (mk_nst n (dev s))
          (l ++ replicate (Z.to_nat (block_count g) - length l) (-1))
          (Z.of_nat (length l)) mgmt s')) s.
Proof using Hg Hl.
  intros mgmt Hs Hmr Hro. pose proof (geo_count g Hg).
  unfold nmbm_create_new. apply wp_bind, wp_gets. rewrite (st_geo _ _ (pre_st _ Hs)). fold mgmt.
  apply wp_bind, wp_modify.
  pose proof (pre_ok_upd (set_mgmt_start_ba mgmt) s Hs ltac:(done)) as H1.
  revert H1. set (s1 := set_ni _ s). intros H1.
  apply wp_bind. wp_call (wp_scan_badblocks g Hg); [apply H1|]. intros [] s2 [S1 S2 S3 S4].
  assert (pre_ok s2) as H2 by (destruct H1; split; [done|rewrite S3; done..]).
  assert (mgmt_start_ba (ni s2) = mgmt) as Em by by rewrite S3.
  set (l := usable (block_state (ni s2)) mgmt).
  assert (Z.of_nat (length l) <= mgmt) as Hlen by (apply usable_length; lia).
  apply wp_bind. wp_call (wp_build_mapping_table g Hg); [apply H2|lia|apply H2|].
  rewrite Em. fold l. cbn zeta. intros [] s3 ->.
  set (bm := l ++ _). set (s3 := mk_nst _ (dev s2)).
  assert (Z.of_nat (length bm) = block_count g) as Hbm
    by (unfold bm; rewrite length_app, length_replicate; lia).
  assert (pre_ok s3) as H3.
  { destruct H2 as [[G1 G2 G3 G4] P2 P3 P4 P5]. by split. }
  apply wp_bind, wp_modify. set (s4 := set_ni _ s3).
  pose proof (pre_ok_upd (set_signature _) s3 H3 ltac:(done) : pre_ok s4) as H4.
  rewrite Hro. apply wp_bind.
  wp_call (wp_nmbm_write_signature g Hg); [apply H4|lia|]. intros r s5 [[W1 W2 W3 W4] Hr].
  assert (pre_ok s5) as H5 by (destruct H4; split; [done|rewrite W3; done..]).
  assert (dev_steps g (fun b => mgmt <= b < block_count g) (dev s) (dev s5)) as Hdev.
  { etrans; [eapply dev_steps_mono; [|exact S2]; done|].
    eapply dev_steps_mono; [|exact W1]. intros b. unfold blocks_in. lia. }
  destruct r as [sba|]; [|apply wp_ret; exists (block_state (ni s2)); done].
  apply wp_bind, wp_modify. set (s6 := set_ni _ s5).
  pose proof (pre_ok_upd (set_signature_ba sba) s5 H5 ltac:(done) : pre_ok s6) as H6.
  wp_call (wp_create_info_table s6 (dev s) l mgmt); try done; cbn; try (rewrite W3; done); try lia.
  - apply Forall_forall. intros b Hb. unfold l, usable in Hb.
    apply list_elem_of_filter in Hb as [_ Hb%elem_of_seqZ]. lia.
  - intros r s7 Hr7. exists (block_state (ni s2)). fold l bm.
    assert (block_mapping (ni s5) = bm) as E by by rewrite W3. rewrite E in Hr7.
    destruct r; [|done]. split; [apply Hr7|]. intros _. eexists. exact Hr7.
Qed.

(** * Finding the signature *)

Lemma wp_find_signature_in_block ba s :
  st_ok g s -> 0 <= ba < block_count g -> block_count g * erasesize (lower g) <= 2 ^ 63 ->
  wp (find_signature_in_block (ba2addr g ba))
    (fun r s' => chip_rel g none s s' /\
       match r with None => True | Some sig => magic (sig_header sig) = NMBM_MAGIC_SIGNATURE end) s.
Proof using Hg Hl.
  intros Hs Hba Hchip. unfold find_signature_in_block. apply wp_bind, wp_gets.
  rewrite (st_geo _ _ Hs). pose proof (writesize_pos g Hg). pose proof (erasesize_lt g Hg).
  apply (wp_page_loop g Hg (fun _ s' => chip_rel g none s s'));
    [|intros s1 Hrel1; rewrite Z.ltb_irrefl; by apply wp_ret|apply chip_rel_refl].
  intros off s1 Hoff Hend Hrel1. destruct (Z.ltb_spec off (erasesize (lower g))); [|lia].
  rewrite (block_addr g Hg) by lia. apply wp_bind.
  assert (0 <= ba * erasesize (lower g) + off < 2 ^ 63) by nia.
  change sizeof_nmbm_signature with 48.
  wp_call (wp_nmbn_read_data g Hg none); [eauto using st_ok_chip_rel|lia|lia|lia| |].
  { rewrite length_replicate. lia. }
  intros [r sig] s2 (Hrel2 & _ & _). pose proof (chip_rel_trans _ _ _ _ _ Hrel1 Hrel2).
  destruct (negb _); [apply wp_ret; rewrite u64_small by lia; done|].
  destruct (negb _); [apply wp_ret; rewrite u64_small by lia; done|].
  destruct (Z.eqb_spec (magic (sig_header (parse_signature sig))) NMBM_MAGIC_SIGNATURE);
    apply wp_ret; [done|]. rewrite u64_small by lia. done.
Qed.

(** The search for the signature has a lower end. *)
Lemma signature_limit_range :
  16 <= block_count g < 2 ^ 24 -> 1 <= max_ratio (lower g) < NMBM_MGMT_DIV - 1 ->
  0 <= max_reserved_blocks (lower g) < 2 ^ 32 ->
  1 <= signature_limit g (block_count g) <= block_count g.
Proof using.
  intros Hbc Hr Hm. unfold signature_limit. change NMBM_MGMT_DIV with 16 in *.
  assert (1 <= block_count g / 16 <= block_count g)
    by (split; [apply Z.div_le_lower_bound|apply Z.div_le_upper_bound]; lia).
  pose proof (Z.mul_div_le (block_count g) 16 ltac:(lia)).
  rewrite (u32_small (block_count g / 16 * _)) by nia.
  rewrite (u32_small (block_count g - _)) by nia.
  destruct (negb _ && _) eqn:E; [|nia].
  apply andb_true_iff in E as [E1%negb_true_iff%Z.eqb_neq E2%Z.gtb_gt].
  rewrite u32_small by nia. nia.
Qed.

(** The search covers the blocks from the last one down to [limit - 1] and
    terminates, for a chip of at least 16 blocks. *)
Lemma wp_find_signature s :
  st_ok g s -> 16 <= block_count g < 2 ^ 24 -> nld_size (lower g) = block_count g * erasesize (lower g) ->
  block_count g * erasesize (lower g) <= 2 ^ 63 ->
  1 <= max_ratio (lower g) < NMBM_MGMT_DIV - 1 -> 0 <= max_reserved_blocks (lower g) < 2 ^ 32 ->
  wp nmbm_find_signature
    (fun r s' => chip_rel g none s s' /\
       match r with
       | None => True
       | Some (sig, sba) => magic (sig_header sig) = NMBM_MAGIC_SIGNATURE /\
           signature_limit g (block_count g) - 1 <= sba < block_count g
       end) s.
Proof using Hg Hl.
  intros Hs Hbc Hsize Hchip Hr Hm. unfold nmbm_find_signature. apply wp_bind, wp_gets.
  rewrite (st_geo _ _ Hs). pose proof (geo_shift g Hg). pose proof (erasesize_pos g Hg).
  rewrite Hsize, Z.shiftr_div_pow2, <- (geo_erasesize g Hg), Z.div_mul by lia.
  rewrite u32_small by lia. set (limit := signature_limit g (block_count g)).
  pose proof (signature_limit_range Hbc Hr Hm) as Hlimit. fold limit in Hlimit.
  apply (wp_loop
    (fun ba s' => limit - 1 <= ba <= block_count g /\ chip_rel g none s s')
    (fun ba _ => Z.to_nat (ba - limit + 1))); [|split; [lia|apply chip_rel_refl]|lia].
  intros ba s1 [Hba Hrel1]. rewrite Z.geb_leb. destruct (Z.leb_spec limit ba); [|by apply wp_ret].
  rewrite u32_small by lia. apply wp_bind.
  wp_call (wp_nmbm_check_bad_phys_block g Hg none); [eauto using st_ok_chip_rel|].
  intros bad s2 Hrel2. pose proof (chip_rel_trans _ _ _ _ _ Hrel1 Hrel2).
  destruct bad; [apply wp_ret; split; [split; [lia|done]|lia]|].
  apply wp_bind. wp_call wp_find_signature_in_block; [eauto using st_ok_chip_rel|lia|lia|].
  intros r s3 [Hrel3 Hr3]. assert (chip_rel g none s s3) by eauto using chip_rel_trans.
  destruct r as [sig|]; apply wp_ret; [split_and!; done || lia|].
  split; [split; [lia|done]|lia].
Qed.
End create.

(** * Attaching *)

Lemma init_structure_ok d ks ke kw (s : nst chip) :
  nld_checked d ks ke kw ->
  pre_ok (init_geometry d).1.1 (set_ni (nmbm_init_structure d) s).
Proof.
  intros H. pose proof (init_geometry_ok _ _ _ _ H) as Hg.
  destruct (init_geometry_eq _ _ _ _ H) as (rb & rc & sp & E & Hsp & H1 & H2 & H3 & H4).
  unfold nmbm_init_structure. rewrite E in *. cbn in Hg |- *.
  pose proof (nblocks_range ks ke ltac:(pose proof (nc_exp _ _ _ _ H); lia)) as Hn.
  pose proof (nb_oob _ (nc_bounds _ _ _ _ H)).
  pose proof (Z.pow_pos_nonneg 2 kw ltac:(lia) ltac:(pose proof (nc_exp _ _ _ _ H); lia)).
  assert (0 <= (nblocks ks ke + 15) / 16) by (apply Z.div_pos; lia).
  split; cbn; rewrite ?length_replicate; try lia.
  - split; cbn; rewrite ?length_replicate; [done|lia| |lia].
    split; cbn; [rewrite length_replicate, (Z.mul_comm 4), Z.div_mul by lia; lia|].
    apply Forall_replicate. lia.
  - rewrite (Z.mul_comm 4), Z.div_mul by lia. lia.
Qed.

(** What the callbacks of the lower device promise: [read_page] fills the
    buffers it is given. *)
Definition read_contract (d : nmbm_lower_device chip) : Prop :=
  forall f addr data oob mode c r data' oob' c',
    read_page d = Some f -> f addr data oob mode c = (r, data', oob', c') ->
    same_shape data data' /\ same_shape oob oob'.

Lemma check_lower_members_callbacks (d d' : nmbm_lower_device chip) :
  nmbm_check_lower_members d = Some d' ->
  read_page d' = read_page d /\ flags d' = flags d /\ nld_size d' = nld_size d /\
  erasesize d' = erasesize d.
Proof.
  unfold nmbm_check_lower_members. intros H.
  repeat match type of H with
  | (if ?b then None else _) = Some _ => destruct b eqn:?; [done|]
  end.
  cbn zeta in H. destruct (max_ratio d =? 0); cbn in H;
  repeat match type of H with
  | (if ?b then None else _) = Some _ => destruct b eqn:?; [done|]
  end; by injection H as <-.
Qed.

Lemma lower_contract_checked d d' :
  nmbm_check_lower_members d = Some d' -> nld_bounds d -> read_contract d -> lower_contract d'.
Proof.
  intros H Hb Hr. destruct (check_lower_members_spec _ _ H Hb) as (_ & [f Hf] & Hw & _).
  destruct (check_lower_members_callbacks _ _ H) as (Er & _).
  split; [|intros; by apply Hw..]. exists f. split; [done|]. rewrite Er in Hf. eauto.
Qed.

(** The state in which the signature is looked for. *)
Definition attach_init (d' : nmbm_lower_device chip) (s : nst chip) : nst chip :=
  set_ni (nmbm_init_structure d') (set_ni (set_log_display_level NMBM_DEFAULT_LOG_LEVEL) s).

(** Attaching a chip that carries no signature creates the management
    structures: success establishes the invariant, and in any case only blocks
    of the management area are modified. *)
Lemma wp_attach_new d d' s :
  nld_bounds d -> read_contract d -> nmbm_check_lower_members d = Some d' ->
  Z.land (flags d) NMBM_F_CREATE <> 0 -> Z.land (flags d) NMBM_F_READ_ONLY = 0 ->
  (forall sig s2, nmbm_find_signature (attach_init d' s) <> Ret (Some sig) s2) ->
  let g := (init_geometry d').1.1 in
  let mgmt := create_mgmt_start g in
  wp (nmbm_attach d)
    (fun r s' => dev_steps g (fun b => mgmt <= b < block_count g) (dev s) (dev s') /\
       (r = 0 /\ inst_ok g s' /\ mgmt_start_ba (ni s') = mgmt \/ r = - ENODEV)) s.
Proof.
  intros Hb Hrc Hd Hcreate Hro Hnone g mgmt. unfold nmbm_attach. rewrite Hd.
  destruct (check_lower_members_exp _ _ Hd Hb) as (ks & ke & kw & Hc).
  destruct (check_lower_members_callbacks _ _ Hd) as (_ & Hf & _).
  pose proof (lower_contract_checked _ _ Hd Hb Hrc) as Hl.
  pose proof (init_geometry_ok _ _ _ _ Hc) as Hg. fold g in Hg.
  pose proof (init_structure_ok _ _ _ _ (set_ni (set_log_display_level NMBM_DEFAULT_LOG_LEVEL) s) Hc)
    as Hpre. fold g in Hpre.
  pose proof (nc_exp _ _ _ _ Hc) as Hexp. pose proof (nblocks_range ks ke ltac:(lia)) as Hn.
  assert (lower g = d' /\ block_count g = nblocks ks ke) as [El En].
  { destruct (init_geometry_eq _ _ _ _ Hc) as (rb & rc & sp & E & _). unfold g. by rewrite E. }
  assert (lower_contract (lower g)) by by rewrite El.
  assert (nld_size (lower g) = block_count g * erasesize (lower g)) as Hsz.
  { rewrite El, En, (nc_size _ _ _ _ Hc), (nc_erase _ _ _ _ Hc). unfold nblocks.
    rewrite <- Z.pow_add_r by lia. f_equal. lia. }
  pose proof (nc_ratio _ _ _ _ Hc). pose proof (nb_reserved _ (nc_bounds _ _ _ _ Hc)).
  apply wp_bind, wp_modify, wp_bind, wp_modify. fold (attach_init d' s) in *.
  apply wp_bind. unfold wp at 1.
  assert (wp nmbm_find_signature (fun _ s' => chip_rel g none (attach_init d' s) s') (attach_init d' s))
    as Hfind.
  { wp_call (wp_find_signature g Hg); rewrite ?El in *; try lia; [apply Hpre| |by intros r s' [? _]].
    rewrite <- Hsz, (nc_size _ _ _ _ Hc). apply Z.pow_le_mono_r; lia. }
  apply wp_inv in Hfind as (r & s2 & Efind & Hrel). rewrite Efind.
  destruct r as [sig|]; [by destruct (Hnone sig s2)|].
  rewrite Hf. destruct (Z.eqb_spec (Z.land (flags d) NMBM_F_CREATE) 0); [done|].
  assert (pre_ok g s2) as Hpre2.
  { by eapply pre_ok_chip. }
  assert (dev_steps g (fun b => mgmt <= b < block_count g) (dev s) (dev s2)) as Hdev.
  { eapply dev_steps_mono; [|apply Hrel]. done. }
  apply wp_bind. wp_call (wp_create_new g Hg); [done| | |].
  - apply create_mgmt_start_range; rewrite ?El; lia.
  - unfold flag_set. rewrite El, Hf, Hro. done.
  - fold mgmt. intros r s3 (bs & Hdev3 & Hr).
    destruct r; cbn [negb]; apply wp_ret; (split; [by etrans|]); [left|by right].
    destruct (Hr eq_refl) as [n0 [C1 C2 C3 _ _]]. done.
Qed.
End attach_spec.
