(* ===== verification/NmbmFormat.v ===== *)
(** The byte formats of NMBM: printing and parsing the structures, checksums,
    and the info table as it is written to the chip. *)

From stdpp Require Import base list numbers.
From Stdlib Require Import ZArith Lia.
From S2P Require Import Prelude NmbmTypes NmbmChip NmbmBlocks NmbmTable NmbmAttach NmbmSpec.
From S2P Require Import NmbmBlockSpec NmbmWalk NmbmTableSpec.
Local Open Scope Z_scope.

(** * Little-endian fields *)

Ltac le_fields :=
  repeat first
    [ rewrite le_field_here by reflexivity
    | rewrite le_field_skip by (rewrite ?length_le_bytes; cbn; lia);
      rewrite ?length_le_bytes; cbn [Z.sub Z.of_nat Z.opp Z.add Z.pos_sub] ].

(** * Structures *)

Definition u32_ok (z : Z) : Prop := 0 <= z < 2 ^ 32.

Record header_ok (h : nmbm_header) : Prop := {
  ho_magic : u32_ok (magic h); ho_version : u32_ok (version h);
  ho_size : u32_ok (hdr_size h); ho_checksum : u32_ok (checksum h)
}.

Lemma u32_ok_mod z : u32_ok z -> z mod 256 ^ 4 = z.
Proof. apply Z.mod_small. Qed.

Lemma parse_header_bytes h rest : header_ok h -> parse_header (header_bytes h ++ rest) = h.
Proof.
  intros [H1 H2 H3 H4]. unfold parse_header, header_bytes. rewrite <- !app_assoc.
  le_fields. destruct h; cbn in *. by rewrite !u32_ok_mod.
Qed.

Record ift_ok (t : nmbm_info_table_header) : Prop := {
  io_header : header_ok (ift_header t); io_write_count : u32_ok (write_count t);
  io_state : u32_ok (state_table_off t); io_mapping : u32_ok (mapping_table_off t);
  io_padding : u32_ok (ift_padding t)
}.

Lemma parse_info_table_header_bytes t rest :
  ift_ok t -> parse_info_table_header (info_table_header_bytes t ++ rest) = t.
Proof.
  intros [H1 H2 H3 H4 H5]. unfold parse_info_table_header, info_table_header_bytes.
  rewrite <- !app_assoc, parse_header_bytes by done.
  rewrite !(le_field_skip (header_bytes (ift_header t))) by (rewrite length_header_bytes; lia).
  rewrite length_header_bytes. cbn [Z.sub Z.of_nat Z.opp Z.add Z.pos_sub].
  le_fields. destruct t; cbn in *. by rewrite !u32_ok_mod.
Qed.

Record sig_ok (t : nmbm_signature) : Prop := {
  so_header : header_ok (sig_header t); so_nand : 0 <= nand_size t < 2 ^ 64;
  so_block : u32_ok (block_size t); so_page : u32_ok (page_size t);
  so_spare : u32_ok (spare_size t); so_mgmt : u32_ok (mgmt_start_pb t);
  so_try : 0 <= max_try_count t < 2 ^ 8
}.

Lemma parse_signature_bytes t rest :
  sig_ok t -> parse_signature (signature_bytes t ++ rest) = t.
Proof.
  intros [H1 H2 H3 H4 H5 H6 H7]. unfold parse_signature, signature_bytes.
  rewrite <- !app_assoc, parse_header_bytes by done.
  rewrite !(le_field_skip (header_bytes (sig_header t))) by (rewrite length_header_bytes; lia).
  rewrite length_header_bytes. cbn [Z.sub Z.of_nat Z.opp Z.add Z.pos_sub].
  le_fields. destruct t; cbn in *. rewrite !u32_ok_mod by done.
  rewrite (Z.mod_small nand_size), (Z.mod_small max_try_count) by done. done.
Qed.

(** * Word arrays *)

Lemma words_bytes_cons w ws : words_bytes (w :: ws) = le_bytes 4 w ++ words_bytes ws.
Proof. done. Qed.

Lemma bytes_words_words ws rest :
  bytes_words (length ws) (words_bytes ws ++ rest) = u32 <$> ws.
Proof.
  induction ws as [|w ws IH]; [done|]. rewrite words_bytes_cons, <- app_assoc.
  cbn [length bytes_words fmap list_fmap]. f_equal; [|].
  - rewrite take_app_length' by by rewrite length_le_bytes. apply le_val_bytes.
  - rewrite drop_app_length' by by rewrite length_le_bytes. apply IH.
Qed.

(** * Checksums *)

Lemma slice_split buf o n m :
  0 <= o -> 0 <= n -> 0 <= m -> o + n + m <= Z.of_nat (length buf) ->
  slice buf o n ++ slice buf (o + n) m = slice buf o (n + m).
Proof.
  intros. unfold slice. rewrite !Z2Nat.inj_add, <- drop_drop by done.
  rewrite <- (take_drop (Z.to_nat n) (drop (Z.to_nat o) buf)) at 3.
  rewrite take_app_ge by (rewrite length_take, length_drop; lia).
  rewrite length_take, length_drop. do 2 f_equal. lia.
Qed.

Lemma blit_twice buf off a b :
  0 <= off -> length a = length b -> off + Z.of_nat (length a) <= Z.of_nat (length buf) ->
  blit (blit buf off a) off b = blit buf off b.
Proof.
  intros Ho Hab Hl. unfold blit.
  rewrite take_app_le by (rewrite length_take; lia). rewrite take_take, Nat.min_id.
  do 2 f_equal. rewrite app_assoc, drop_app_ge by (rewrite length_app, length_take; lia).
  rewrite drop_drop. f_equal. rewrite length_app, length_take. lia.
Qed.

Lemma slice_blit_inside buf off src n :
  0 <= off -> off + Z.of_nat (length src) <= n -> n <= Z.of_nat (length buf) ->
  slice (blit buf off src) 0 n = blit (slice buf 0 n) off src.
Proof.
  intros Ho Hn Hl. unfold slice, blit. change (Z.to_nat 0) with O. rewrite !drop_0.
  rewrite (take_app_ge (take (Z.to_nat off) buf)) by (rewrite length_take; lia).
  rewrite (take_app_ge src) by (rewrite length_take; lia).
  rewrite take_take, length_take, skipn_firstn_comm. f_equal; [f_equal; lia|]. f_equal.
  f_equal. lia.
Qed.

Section checksums.
Context {C : Crc32} {L : Crc32Laws C}.

Lemma nmbm_crc32_eq crc p :
  p <> [] -> Z.of_nat (length p) < 2 ^ 32 -> nmbm_crc32 crc p = crc32_le crc p.
Proof using.
  intros Hp Hl. unfold nmbm_crc32. destruct p as [|b p]; [done|]. cbn [length nmbm_crc32_chunks].
  destruct (Z.ltb_spec UINT_MAX (Z.of_nat (S (length p)))); [unfold UINT_MAX in *; cbn in *; lia|].
  by destruct (length p).
Qed.

Lemma slice_nonempty buf n : 0 < n <= Z.of_nat (length buf) -> slice buf 0 n <> [].
Proof using.
  intros Hn E. pose proof (length_slice buf 0 n ltac:(lia) ltac:(lia) ltac:(lia)) as Hl.
  rewrite E in Hl. cbn in Hl. lia.
Qed.

Lemma nmbm_crc32_split d n :
  16 <= n <= Z.of_nat (length d) -> n < 2 ^ 32 ->
  (if n >? 16 then nmbm_crc32 (nmbm_crc32 0 (slice d 0 16)) (slice d 16 (n - 16))
   else nmbm_crc32 0 (slice d 0 16)) = nmbm_crc32 0 (slice d 0 n).
Proof using L.
  intros Hn Hlt.
  assert (forall m, 0 < m <= n -> nmbm_crc32 0 (slice d 0 m) = crc32_le 0 (slice d 0 m)) as E.
  { intros m Hm. apply nmbm_crc32_eq; [apply slice_nonempty; lia|].
    rewrite length_slice; lia. }
  rewrite !E, Z.gtb_ltb by lia. destruct (Z.ltb_spec 16 n); [|by replace n with 16 by lia].
  rewrite nmbm_crc32_eq.
  - rewrite crc32_le_app. f_equal. replace (slice d 16 (n - 16)) with (slice d (0 + 16) (n - 16)) by done.
    rewrite slice_split by lia. f_equal. lia.
  - intros E2. pose proof (length_slice d 16 (n - 16) ltac:(lia) ltac:(lia) ltac:(lia)) as Hl.
    rewrite E2 in Hl. cbn in Hl. lia.
  - rewrite length_slice; lia.
Qed.

(** A structure whose checksum has been updated passes the check. *)
Lemma check_update_checksum data size :
  let n := hdr_size (parse_header data) in
  16 <= n <= Z.of_nat (length data) -> n < 2 ^ 32 -> n <= size ->
  nmbm_check_header (nmbm_update_checksum data) size = true.
Proof using L.
  intros n Hn Hlt Hsize. unfold nmbm_update_checksum. set (d0 := clear_checksum data).
  assert (length d0 = length data) as Hl0 by (apply length_clear_checksum; lia).
  assert (hdr_size (parse_header d0) = n) as ->.
  { unfold d0, clear_checksum, parse_header. cbn [hdr_size]. rewrite le_field_blit_before; rewrite ?length_le_bytes; lia || done. }
  set (crc := nmbm_crc32 0 (slice d0 0 n)).
  assert (0 <= crc < 2 ^ 32) as Hcrc.
  { unfold crc. rewrite nmbm_crc32_eq; [apply crc32_le_range|apply slice_nonempty; lia|].
    rewrite length_slice; lia. }
  set (d1 := blit d0 12 (le_bytes 4 crc)).
  assert (length d1 = length data) as Hl1.
  { unfold d1. rewrite length_blit; rewrite ?length_le_bytes; lia. }
  unfold nmbm_check_header.
  assert (hdr_size (parse_header d1) = n) as ->.
  { unfold d1, parse_header. cbn [hdr_size]. rewrite le_field_blit_before by (rewrite ?length_le_bytes; lia).
    unfold d0, clear_checksum. rewrite le_field_blit_before; rewrite ?length_le_bytes; lia || done. }
  assert (checksum (parse_header d1) = crc) as ->.
  { unfold d1, parse_header. cbn [checksum]. unfold le_field. change 4 with (Z.of_nat (length (le_bytes 4 crc))).
    rewrite slice_blit_eq by (rewrite ?length_le_bytes; lia). rewrite le_val_bytes.
    by apply Z.mod_small. }
  rewrite Z.gtb_ltb. destruct (Z.ltb_spec size n); [lia|].
  change sizeof_nmbm_header with 16.
  assert (clear_checksum (slice d1 0 16) = slice d0 0 16) as ->.
  { unfold d1. rewrite slice_blit_inside by (rewrite ?length_le_bytes; lia).
    unfold clear_checksum at 1. pose proof (length_slice d0 0 16 ltac:(lia) ltac:(lia) ltac:(lia)).
    rewrite blit_twice by (rewrite ?length_le_bytes; lia).
    unfold d0, clear_checksum. rewrite slice_blit_inside by (rewrite ?length_le_bytes; lia).
    pose proof (length_slice data 0 16 ltac:(lia) ltac:(lia) ltac:(lia)).
    rewrite blit_twice by (rewrite ?length_le_bytes; lia). done. }
  assert (slice d1 16 (n - 16) = slice d0 16 (n - 16)) as ->.
  { unfold d1. apply slice_blit_after; rewrite ?length_le_bytes; lia. }
  rewrite nmbm_crc32_split by lia. apply Z.eqb_refl.
Qed.
End checksums.

(** * The info table *)

Lemma bytes_words_take n l : bytes_words n (take (4 * n) l) = bytes_words n l.
Proof.
  revert l. induction n as [|n IH]; intros l; [done|]. cbn [bytes_words]. f_equal.
  - rewrite take_take. do 2 f_equal. lia.
  - rewrite skipn_firstn_comm. replace (4 * S n - 4)%nat with (4 * n)%nat by lia. apply IH.
Qed.

Lemma bytes_words_slice n l off :
  bytes_words n (drop (Z.to_nat off) l) = bytes_words n (slice l off (4 * Z.of_nat n)).
Proof.
  rewrite <- bytes_words_take. unfold slice. do 2 f_equal. lia.
Qed.

Section table_format.
Context {chip : Type} {C : Crc32} {L : Crc32Laws C} (g : nmbm_geometry chip) (Hg : geom_ok g).

(** The regions of the table do not overlap and fit. *)
Record table_layout (it : nmbm_info_table_header) : Prop := {
  tl_state : 32 <= state_table_off it;
  tl_mapping : state_table_off it + state_table_size g <= mapping_table_off it;
  tl_end : mapping_table_off it + mapping_table_size g <= info_table_size g
}.

(** [nmbm_update_checksum] changes bytes 12 to 15 only. *)
Lemma slice_update_checksum d off len :
  (16 <= length d)%nat -> 0 <= off -> 0 <= len -> off + len <= 12 \/ 16 <= off ->
  slice (nmbm_update_checksum d) off len = slice d off len.
Proof using.
  intros Hd Ho Hn Hr. unfold nmbm_update_checksum, clear_checksum.
  assert (forall d' w, length d' = length d ->
    slice (blit d' 12 (le_bytes 4 w)) off len = slice d' off len) as E.
  { intros d' w Hd'. destruct Hr; [apply slice_blit_before|apply slice_blit_after];
      rewrite ?length_le_bytes; lia. }
  rewrite !E; [done|done|]. rewrite length_blit; rewrite ?length_le_bytes; lia.
Qed.

Section image.
Context (it : nmbm_info_table_header) (bs bm : list Z).
Context (Hlay : table_layout it).

Lemma length_image_body :
  Z.of_nat (length (blit (table_body g it bs bm) 0 (info_table_header_bytes it))) = info_table_size g /\
  Z.of_nat (length (table_body g it bs bm)) = info_table_size g.
Proof using Hg Hlay.
  destruct Hlay. pose proof (table_sizes_nonneg g Hg).
  unfold table_body. set (inner := blit (replicate _ _) _ _).
  assert (Z.of_nat (length inner) = info_table_size g).
  { unfold inner. rewrite length_blit; rewrite ?length_replicate, ?length_take; lia. }
  assert (Z.of_nat (length (blit inner (mapping_table_off it)
    (take (Z.to_nat (mapping_table_size g)) (words_bytes bm)))) = info_table_size g).
  { rewrite length_blit; rewrite ?length_take; lia. }
  rewrite length_blit; rewrite ?length_info_table_header_bytes; lia.
Qed.

Lemma image_slice off len :
  32 <= off -> 0 <= len ->
  slice (table_image g it bs bm) off len = slice (table_body g it bs bm) off len.
Proof using Hg Hlay.
  intros Ho Hn. destruct length_image_body as [E1 E2]. destruct Hlay.
  pose proof (table_sizes_nonneg g Hg).
  unfold table_image. rewrite slice_update_checksum; [|lia..].
  apply slice_blit_after; rewrite ?length_info_table_header_bytes; lia.
Qed.

Lemma image_state :
  bs_ok g bs ->
  bytes_words (Z.to_nat (state_table_size g / 4))
    (drop (Z.to_nat (state_table_off it)) (table_image g it bs bm)) = bs.
Proof using Hg Hlay.
  intros [H1 H2]. pose proof Hlay as [L1 L2 L3]. destruct length_image_body as [_ E2].
  pose proof (table_sizes_nonneg g Hg). pose proof (geo_state g Hg) as Hst.
  assert (4 * Z.of_nat (length bs) = state_table_size g) as Hsz.
  { rewrite H1, Hst, (Z.mul_comm 4 ((_ + 15) / 16)), Z.div_mul by lia. lia. }
  rewrite bytes_words_slice, image_slice by lia. rewrite <- H1, Nat2Z.id.
  unfold table_body. rewrite (take_ge (words_bytes bs)) by (rewrite length_words_bytes; lia).
  assert (Z.of_nat (length (blit (replicate (Z.to_nat (info_table_size g)) 255)
    (state_table_off it) (words_bytes bs))) = info_table_size g)
    by (rewrite length_blit; rewrite ?length_replicate, ?length_words_bytes; lia).
  rewrite slice_blit_before by (rewrite ?length_take; lia).
  replace (4 * Z.of_nat (length bs)) with (Z.of_nat (length (words_bytes bs)))
    by (rewrite length_words_bytes; lia).
  rewrite slice_blit_eq by (rewrite ?length_replicate, ?length_words_bytes; lia).
  rewrite <- (app_nil_r (words_bytes bs)), bytes_words_words.
  clear - H2. induction H2 as [|w ws Hw _ IH]; [done|]. cbn. by rewrite IH, u32_small.
Qed.

Lemma image_mapping :
  Z.of_nat (length bm) = block_count g -> Forall (fun m => - 2 ^ 31 <= m < 2 ^ 31) bm ->
  i32 <$> bytes_words (Z.to_nat (mapping_table_size g / 4))
    (drop (Z.to_nat (mapping_table_off it)) (table_image g it bs bm)) = bm.
Proof using Hg Hlay.
  intros H1 H2. pose proof Hlay as [L1 L2 L3]. destruct length_image_body as [_ E2].
  pose proof (table_sizes_nonneg g Hg). pose proof (geo_mapping g Hg) as Hmt.
  rewrite Hmt, (Z.mul_comm 4), Z.div_mul, <- H1, Nat2Z.id by lia.
  rewrite bytes_words_slice, image_slice by lia.
  unfold table_body. set (inner := blit _ (state_table_off it) _).
  assert (Z.of_nat (length inner) = info_table_size g).
  { unfold inner. rewrite length_blit; rewrite ?length_replicate, ?length_take; lia. }
  rewrite (take_ge (words_bytes bm)) by (rewrite length_words_bytes; lia).
  replace (4 * Z.of_nat (length bm)) with (Z.of_nat (length (words_bytes bm)))
    by (rewrite length_words_bytes; lia).
  rewrite slice_blit_eq by (rewrite ?length_words_bytes; lia).
  rewrite <- (app_nil_r (words_bytes bm)), bytes_words_words.
  clear - H2. induction H2 as [|w ws Hw _ IH]; [done|]. cbn. by rewrite IH, i32_u32, i32_small.
Qed.

Lemma image_header :
  ift_ok it -> hdr_size (ift_header it) = info_table_size g ->
  let h := parse_info_table_header (table_image g it bs bm) in
  nmbm_check_header (table_image g it bs bm) (info_table_size g) = true /\
  magic (ift_header h) = magic (ift_header it) /\ version (ift_header h) = version (ift_header it) /\
  hdr_size (ift_header h) = info_table_size g /\ write_count h = write_count it /\
  state_table_off h = state_table_off it /\ mapping_table_off h = mapping_table_off it.
Proof using Hg Hlay L.
  intros Hok Hsz h. destruct length_image_body as [E1 E2]. pose proof Hlay as [L1 L2 L3].
  pose proof (table_sizes_nonneg g Hg). pose proof (geo_table g Hg) as Ht.
  unfold sizeof_nmbm_info_table_header in Ht.
  set (d := blit (table_body g it bs bm) 0 (info_table_header_bytes it)) in *.
  assert (parse_info_table_header d = it) as Hp.
  { unfold d, blit. change (Z.to_nat 0) with O. rewrite take_0. by apply parse_info_table_header_bytes. }
  assert (forall off len, 0 <= off -> 0 <= len -> off + len <= 12 \/ 16 <= off ->
    le_field (table_image g it bs bm) off len = le_field d off len) as E.
  { intros. unfold le_field, table_image. fold d. rewrite slice_update_checksum; [done|lia..|done]. }
  split.
  - apply check_update_checksum; fold d;
      (replace (hdr_size (parse_header d)) with (info_table_size g); [lia|]);
      rewrite <- Hsz, <- Hp; done.
  - unfold h, parse_info_table_header, parse_header. cbn. rewrite !E by lia.
    rewrite <- Hsz, <- Hp. done.
Qed.
End image.

Lemma next_header_ok (n : nmbm_instance chip) :
  ift_ok (info_table n) -> ift_ok (next_header g n).
Proof using Hg.
  intros [[H1 H2 H3 H4] H5 H6 H7 H8]. unfold next_header.
  pose proof (geo_table g Hg) as Ht. unfold sizeof_nmbm_info_table_header in Ht.
  split; cbn; try done; [split; cbn; unfold u32_ok; done || lia|].
  destruct (_ || _); [apply u32_range|done].
Qed.

Lemma check_info_table_header_intro h :
  u32_ok (state_table_off h) -> u32_ok (mapping_table_off h) ->
  magic (ift_header h) = NMBM_MAGIC_INFO_TABLE ->
  hdr_size (ift_header h) = info_table_size g -> table_layout h ->
  nmbm_check_info_table_header g h = true.
Proof using Hg.
  intros H6 H7 Hm Hs [L1 L2 L3]. unfold nmbm_check_info_table_header.
  pose proof (table_sizes_nonneg g Hg). pose proof (geo_table g Hg).
  rewrite Hm, Hs, !Z.eqb_refl. cbn [negb]. unfold u32_ok in *.
  rewrite !u32_small by lia.
  destruct (Z.ltb_spec (mapping_table_off h - state_table_off h) (state_table_size g)); [lia|].
  destruct (Z.ltb_spec (info_table_size g - mapping_table_off h) (mapping_table_size g)); [lia|done].
Qed.
End table_format.
