(* ===== verification/NmbmData.v ===== *)
(** The data stored through NMBM: with a lower device whose pages keep what is
    written to them, the range operations read and write the bytes of the logic
    address space, and blocks an operation does not touch keep their data. *)

From stdpp Require Import base list numbers sets relations.
From Stdlib Require Import ZArith Lia.
From S2P Require Import Prelude NmbmTypes NmbmChip NmbmBlocks NmbmTable NmbmLogic NmbmSpec.
From S2P Require Import NmbmBlockSpec NmbmWalk NmbmTableSpec NmbmLogicSpec.
Local Open Scope Z_scope.
Local Open Scope cprog_scope.

(** The contents of the chip as the callbacks show it: [page c addr] is the page
    at the physical address [addr].  The contract is that of a chip without program errors:
    a write that returns 0 has stored the page as it was given.  It does not describe what
    programming a page that is not erased leaves on a real NAND chip. *)
Class nand_content {chip : Type} (g : nmbm_geometry chip) (page : chip -> Z -> list Z) : Prop := {
  nd_length c a : Z.of_nat (length (page c a)) = writesize (lower g);
  (** A call changes no page outside the blocks it is allowed to modify. *)
  nd_step B c c' a :
    dev_step g B c c' -> 0 <= a -> ~ B (a / erasesize (lower g)) -> page c' a = page c a;
  (** A read that does not fail delivers the page. *)
  nd_read f addr buf oob mode c r data' oob' c' :
    read_page (lower g) = Some f -> Z.of_nat (length buf) = writesize (lower g) ->
    f addr (Some buf) oob mode c = (r, data', oob', c') -> 0 <= r ->
    data' = Some (page c addr);
  (** A write programs one page. *)
  nd_write f addr data oob mode c r c' :
    write_page (lower g) = Some f -> Z.of_nat (length data) = writesize (lower g) ->
    0 <= addr -> addr mod writesize (lower g) = 0 ->
    f addr (Some data) oob mode c = (r, c') ->
    (r = 0 -> page c' addr = data) /\
    (forall a, 0 <= a -> a mod writesize (lower g) = 0 -> a <> addr -> page c' a = page c a)
}.

Section data.
Context {chip : Type} {C : Crc32} (g : nmbm_geometry chip).
Context (Hg : geom_ok g) `{Hl : !lower_contract (lower g)}.
Context (page : chip -> Z -> list Z) `{Hn : !nand_content g page}.
Abbreviation prog := (M (nst chip)).
Abbreviation ws := (writesize (lower g)).
Abbreviation es := (erasesize (lower g)).

Lemma page_steps B c c' a :
  dev_steps g B c c' -> 0 <= a -> ~ B (a / es) -> page c' a = page c a.
Proof using Hn.
  intros Hs Ha HB. induction Hs as [|c1 c2 c3 H1 _ IH]; [done|].
  rewrite IH. by eapply nd_step.
Qed.

(** * The logic address space *)

Definition phys_block (n : nmbm_instance chip) (lb : Z) : Z :=
  default (-1) (block_mapping n !! Z.to_nat lb).

(** The physical address of a logic address. *)
Definition phys_addr (n : nmbm_instance chip) (a : Z) : Z :=
  phys_block n (a / es) * es + a mod es.

Definition lpage (s : nst chip) (a : Z) : list Z := page (dev s) (phys_addr (ni s) a).

(** [v] is the byte at the logic address [x]. *)
Definition lbyte (s : nst chip) (x v : Z) : Prop :=
  lpage s (x - x mod ws) !! Z.to_nat (x mod ws) = Some v.

Lemma es_ws : exists k, es = k * ws /\ 0 < k /\ 0 < ws.
Proof using Hg.
  exists (pages g). pose proof (erasesize_pages g Hg). pose proof (pages_pos g Hg).
  pose proof (writesize_pos g Hg). done.
Qed.

Lemma phys_addr_aligned n a : a mod ws = 0 -> phys_addr n a mod ws = 0.
Proof using Hg.
  intros Ha. destruct es_ws as (k & E & Hk & Hw). unfold phys_addr.
  rewrite Z.add_mod, E, Z.mul_assoc, Z.mod_mul, Z.add_0_l, Z.mod_mod by lia.
  rewrite (Z.mul_comm k), Z.rem_mul_r by lia.
  rewrite Ha, Z.add_0_l, Z.mul_comm, Z.mod_mul by lia. done.
Qed.

Lemma chip_lpage s s' a :
  0 <= phys_addr (ni s) a -> chip_rel g none s s' -> lpage s' a = lpage s a.
Proof using Hn.
  intros Ha (Hd & _ & E). unfold lpage. rewrite E. eapply page_steps; [done|done|by intros []].
Qed.

(** * Reading *)

Lemma read_phys_page_data addr buf oob mode s :
  st_ok g s -> 0 <= addr -> Z.of_nat (length buf) = ws ->
  wp (nmbm_read_phys_page addr (Some buf) oob mode)
    (fun '(r, d, _) _ => 0 <= r -> d = Some (page (dev s) addr)) s.
Proof using Hl Hn.
  intros Hs Ha Hlen. unfold nmbm_read_phys_page.
  eapply (wp_loop
    (fun '(tries, r, d, _) s' => 0 <= tries <= NMBM_TRY_COUNT /\ chip_rel g none s s' /\
       same_shape (Some buf) d /\ (tries = 0 \/ r < 0))
    (fun '(tries, _, _, _) _ => Z.to_nat (NMBM_TRY_COUNT - tries))).
  - intros [[[tries r] d] o] s1 (Ht & Hrel & Hd & Hr).
    assert (st_ok g s1) as Hs1 by eauto using st_ok_chip_rel.
    destruct (Z.ltb_spec tries NMBM_TRY_COUNT) as [Hlt|Hge];
      [|apply wp_ret; intros ?; unfold NMBM_TRY_COUNT in *; lia].
    destruct d as [d|]; [|done]. injection Hd as Hd.
    apply wp_bind. eapply wp_mono; [apply wp_and; [by apply (wp_call_read_page g none)|]|].
    { unfold call_read_page. apply wp_bind, wp_gets. rewrite (st_geo _ _ Hs1).
      destruct lc_read as (f & Hf & _). rewrite Hf. unfold wp.
      destruct (f addr (Some d) o mode (dev s1)) as [[[r' d'] o'] c'] eqn:E.
      instantiate (1 := fun '(r, d, _) _ => 0 <= r -> d = Some (page (dev s) addr)). cbn. intros Hr'.
      destruct Hrel as (Hdev & _). rewrite <- (page_steps none _ _ addr Hdev Ha) by (by intros []).
      eapply (nd_read f addr d); [done|lia|done|done]. }
    intros [[r' d'] o'] s2 [(Hrel2 & Hd2 & _) Hr'].
    destruct (Z.geb_spec r' 0); [by apply wp_ret|].
    apply wp_bind. wp_call (wp_reset_chip g none); [eauto using st_ok_chip_rel|].
    intros _ s3 Hrel3. apply wp_ret. split; [|lia].
    split_and!; [lia|lia|eauto using chip_rel_trans| |lia].
    unfold same_shape in *. cbn in *. congruence.
  - split_and!; [done|done|apply chip_rel_refl|done|by left].
  - cbn. lia.
Qed.

(** The physical block and address of a mapped logic address. *)
Lemma phys_addr_block n a m :
  block_mapping n !! Z.to_nat (a / es) = Some m -> phys_addr n a = m * es + a mod es.
Proof using. intros E. unfold phys_addr, phys_block. by rewrite E. Qed.

Lemma land_emask a : Z.land a (erasesize_mask g) = a mod es.
Proof using Hg.
  pose proof (geo_shift g Hg). rewrite (geo_emask g Hg), (geo_erasesize g Hg).
  replace (2 ^ erasesize_shift g - 1) with (Z.ones (erasesize_shift g))
    by (rewrite Z.ones_equiv; lia).
  by rewrite Z.land_ones by lia.
Qed.

(** The address both page operations assemble. *)
Lemma assembled_addr m a :
  0 <= m < block_count g -> u64 (ba2addr g m + Z.land a (erasesize_mask g)) = m * es + a mod es.
Proof using Hg.
  intros Hm. rewrite land_emask. apply (block_addr g Hg); [done|].
  apply Z.mod_pos_bound, (erasesize_pos g Hg).
Qed.

Lemma mapped_addr_nonneg m a : 0 <= m -> 0 <= m * es + a mod es.
Proof using Hg.
  intros. pose proof (erasesize_pos g Hg). pose proof (Z.mod_pos_bound a es). nia.
Qed.

Lemma read_logic_page_data a buf mode s :
  inst_ok g s -> 0 <= a < ba2addr g (data_block_count (ni s)) -> Z.of_nat (length buf) = ws ->
  wp (nmbm_read_logic_page a (Some buf) None mode)
    (fun '(r, d, _) _ => 0 <= r -> d = Some (lpage s a) /\ 0 <= phys_addr (ni s) a) s.
Proof using Hg Hl Hn.
  intros Hs Ha Hlen. destruct (addr2ba_lt g Hg s a Hs Ha) as [E Hlb].
  pose proof (io_dbc _ _ Hs). unfold nmbm_read_logic_page. apply wp_bind, wp_gets.
  rewrite (st_geo _ _ (bo_st _ _ (proj1 (io_tab _ _ Hs)))), E.
  apply wp_bind, (wp_mapped_block g); [done|lia|]. intros m Hm Hok.
  destruct (entry_cases g Hg m Hok) as [[Hneg _]|(Hpos & -> & Hr)].
  { destruct (Z.ltb_spec (i32 (u32 m)) 0); [|lia]. apply wp_ret. by intros []. }
  rewrite i32_small by (pose proof (geo_count g Hg); lia). destruct (Z.ltb_spec m 0); [lia|].
  apply wp_bind, (wp_get_block_state g Hg); [apply Hs|done|].
  destruct (_ =? _); [apply wp_ret; by intros []|].
  pose proof (mapped_addr_nonneg m a ltac:(lia)).
  rewrite assembled_addr by done. unfold lpage. rewrite (phys_addr_block _ _ _ Hm).
  wp_call read_phys_page_data; [apply Hs|done|done|]. intros [[r d] o] s' Hrd Hr0. auto.
Qed.

Lemma reads_pages_data s mode : inst_ok g s -> reads_pages g s (lbyte s) mode.
Proof using Hg Hl Hn.
  intros Hs s1 a buf Hrel Ha Hal Hlen. pose proof (inst_ok_chip g _ _ Hs Hrel) as Hs1.
  wp_call read_logic_page_data; [done|by rewrite (chip_dbc _ _ _ _ Hrel)|done|].
  intros [[r d] o] s2 Hd Hr i v Hi. destruct (Hd Hr) as [-> Hp]. cbn in Hi.
  assert (phys_addr (ni s1) a = phys_addr (ni s) a) as Ep by (destruct Hrel as (_ & _ & ->); done).
  rewrite Ep in Hp. rewrite (chip_lpage s s1 a Hp Hrel) in Hi.
  pose proof (lookup_lt_Some _ _ _ Hi) as Hlt. unfold lpage in Hlt.
  pose proof (nd_length (dev s) (phys_addr (ni s) a)) as Hln.
  destruct es_ws as (k & _ & _ & Hw). unfold lbyte.
  assert ((a + Z.of_nat i) mod ws = Z.of_nat i) as Em.
  { rewrite <- Z.add_mod_idemp_l, Hal by lia. apply Z.mod_small. lia. }
  rewrite Em, Nat2Z.id. by replace (a + Z.of_nat i - Z.of_nat i) with a by lia.
Qed.

(** * Writing *)

(** [s'] is [s] after page [a] has been written with [d]: the mapping is
    unchanged and so are all other pages. *)
Record page_written (s : nst chip) (a : Z) (d : list Z) (s' : nst chip) : Prop := {
  pw_mapping : block_mapping (ni s') = block_mapping (ni s);
  pw_mapped : 0 <= phys_block (ni s) (a / es);
  pw_page : lpage s' a = d;
  pw_other : forall p, 0 <= p -> p mod ws = 0 -> p <> phys_addr (ni s) a ->
    page (dev s') p = page (dev s) p
}.

Lemma write_phys_page_data addr data oob mode s :
  st_ok g s -> 0 <= addr -> addr mod ws = 0 -> Z.of_nat (length data) = ws ->
  wp (nmbm_write_phys_page addr (Some data) oob mode)
    (fun ok s' => (ok = true -> page (dev s') addr = data) /\
       (forall a, 0 <= a -> a mod ws = 0 -> a <> addr -> page (dev s') a = page (dev s) a)) s.
Proof using Hl Hn.
  intros Hs Ha Hal Hlen. unfold nmbm_write_phys_page. apply wp_bind, wp_gets.
  rewrite (st_geo _ _ Hs). destruct (flag_set g NMBM_F_READ_ONLY) eqn:HRO; [by apply wp_ret|].
  set (R := fun s' : nst chip => geo (ni s') = g /\
    forall a, 0 <= a -> a mod ws = 0 -> a <> addr -> page (dev s') a = page (dev s) a).
  apply (wp_loop (fun tries s' => 0 <= tries <= NMBM_TRY_COUNT /\ R s')
    (fun tries _ => Z.to_nat (NMBM_TRY_COUNT - tries))).
  - intros tries s1 (Ht & Hgeo & HR).
    destruct (Z.ltb_spec tries NMBM_TRY_COUNT); [|by apply wp_ret].
    apply wp_bind. unfold call_write_page. apply wp_bind, wp_gets. rewrite Hgeo.
    destruct (lc_write (flag_set_false g _ HRO)) as [f Hf]. rewrite Hf. unfold wp at 1.
    destruct (f addr (Some data) oob mode (dev s1)) as [r c'] eqn:E.
    destruct (nd_write f addr data oob mode _ _ _ Hf Hlen Ha Hal E) as [H1 H2].
    assert (R (set_dev c' s1)) as HR2.
    { split; [done|]. intros a ???. cbn. rewrite H2 by done. auto. }
    destruct (Z.eqb_spec r 0) as [->|]; [apply wp_ret; split; [auto|apply HR2]|].
    apply wp_bind. unfold nmbm_reset_chip. apply wp_bind, wp_gets. cbn. rewrite Hgeo.
    destruct (reset_chip (lower g)) as [f'|] eqn:Hf'; [|apply wp_ret, wp_ret; split; [split; [lia|exact HR2]|lia]].
    unfold wp at 1. cbn. destruct (f' c') as [r' c2] eqn:E'. apply wp_ret. split; [|lia].
    split; [lia|]. split; [done|]. intros a ???. cbn.
    rewrite (nd_step none c' c2 a); [by apply HR2|by eapply step_reset|done|by intros []].
  - split; [done|]. split; [apply Hs|done].
  - cbn. lia.
Qed.

Lemma write_logic_page_data a data oob mode s :
  inst_ok g s -> 0 <= a < ba2addr g (data_block_count (ni s)) -> a mod ws = 0 ->
  Z.of_nat (length data) = ws ->
  wp (nmbm_write_logic_page a (Some data) oob mode)
    (fun r s' => r = 0 -> page_written s a data s') s.
Proof using Hg Hl Hn.
  intros Hs Ha Hal Hlen. destruct (addr2ba_lt g Hg s a Hs Ha) as [E Hlb].
  pose proof (io_dbc _ _ Hs). unfold nmbm_write_logic_page. apply wp_bind, wp_gets.
  rewrite (st_geo _ _ (bo_st _ _ (proj1 (io_tab _ _ Hs)))), E.
  apply wp_bind, (wp_mapped_block g); [done|lia|]. intros m Hm Hok.
  destruct (entry_cases g Hg m Hok) as [[Hneg _]|(Hpos & -> & Hr)].
  { destruct (Z.ltb_spec (i32 (u32 m)) 0); [|lia]. by apply wp_ret. }
  rewrite i32_small by (pose proof (geo_count g Hg); lia). destruct (Z.ltb_spec m 0); [lia|].
  apply wp_bind, (wp_get_block_state g Hg); [apply Hs|done|].
  destruct (_ =? _); [by apply wp_ret|].
  pose proof (mapped_addr_nonneg m a ltac:(lia)). pose proof (phys_addr_block _ _ _ Hm) as Ep.
  pose proof (phys_addr_aligned (ni s) a Hal) as Hpal.
  rewrite assembled_addr, <- Ep by done. apply wp_bind.
  eapply wp_mono; [apply wp_and; [apply (wp_nmbm_write_phys_page g (fun _ => True)); [apply Hs|done]
    |apply write_phys_page_data; [apply Hs|lia|done|done]]|].
  intros ok s1 [Hrel [Hok1 Hoth]]. destruct ok.
  - apply wp_ret. intros _. destruct Hrel as (_ & _ & Eni). split; [by rewrite Eni| | |done].
    { unfold phys_block. rewrite Hm. cbn. lia. }
    unfold lpage. rewrite Eni. by apply Hok1.
  - apply wp_bind. wp_call (wp_set_bs g Hg (fun _ => True) none); [|done|done|].
    { by apply (chip_op_rel g (fun _ => True) none _ _ Hs Hrel). }
    intros _ s2 (R2 & _). apply wp_bind. wp_call (wp_update_tables g Hg none); [apply R2|].
    intros _ s3 _. by apply wp_ret.
Qed.

(** * Isolation *)

(** Two logic blocks are never mapped to the same physical block. *)
Definition injective (n : nmbm_instance chip) : Prop :=
  forall i j m, 0 <= i -> 0 <= j -> 0 <= m ->
    block_mapping n !! Z.to_nat i = Some m -> block_mapping n !! Z.to_nat j = Some m -> i = j.

(** No logic block is mapped into the management area. *)
Definition isolated (n : nmbm_instance chip) : Prop :=
  forall i m, 0 <= i -> block_mapping n !! Z.to_nat i = Some m -> ~ region n m.

Lemma phys_block_lookup n lb :
  0 <= phys_block n lb -> block_mapping n !! Z.to_nat lb = Some (phys_block n lb).
Proof using. unfold phys_block. destruct (_ !! _); cbn; [done|lia]. Qed.

Lemma phys_addr_div n a : phys_addr n a / es = phys_block n (a / es).
Proof using Hg.
  unfold phys_addr. pose proof (erasesize_pos g Hg). pose proof (Z.mod_pos_bound a es).
  rewrite Z.div_add_l, (Z.div_small (a mod es)) by lia. lia.
Qed.

Lemma phys_addr_inj n a b :
  injective n -> 0 <= a -> 0 <= b -> 0 <= phys_block n (a / es) ->
  phys_addr n a = phys_addr n b -> a = b.
Proof using Hg.
  intros Hinj Ha Hb Hm E. pose proof (erasesize_pos g Hg).
  assert (phys_block n (a / es) = phys_block n (b / es)) as Eb by (by rewrite <- !phys_addr_div, E).
  assert (a / es = b / es) as Ed.
  { apply (Hinj _ _ (phys_block n (a / es))); [by apply Z.div_pos|by apply Z.div_pos|done|..].
    - by apply phys_block_lookup.
    - rewrite Eb. apply phys_block_lookup. lia. }
  unfold phys_addr in E. rewrite Ed in E.
  rewrite (Z.div_mod a es), (Z.div_mod b es) by lia. lia.
Qed.

(** An operation that modifies only [touch n lb] keeps the data of every other
    logic block. *)
Lemma op_lpage L s s' lb a :
  op_rel g (touch (ni s) lb) L s s' -> injective (ni s) -> isolated (ni s) ->
  0 <= lb -> 0 <= a -> a / es <> lb -> ~ L (a / es) -> 0 <= phys_block (ni s) (a / es) ->
  lpage s' a = lpage s a.
Proof using Hg Hn.
  intros Hop Hinj Hiso Hlb Ha Hne HL Hm. pose proof (erasesize_pos g Hg).
  pose proof (phys_block_lookup _ _ Hm) as Hlk.
  assert (0 <= a / es) as Had by (apply Z.div_pos; lia).
  assert (phys_addr (ni s') a = phys_addr (ni s) a) as Ep.
  { unfold phys_addr, phys_block. by rewrite (op_map _ _ _ _ _ Hop). }
  unfold lpage. rewrite Ep. eapply page_steps; [apply Hop| |].
  - unfold phys_addr. apply mapped_addr_nonneg. done.
  - rewrite phys_addr_div. intros [Hp|Hreg]; [|by eapply Hiso].
    unfold phys_of in Hp. apply Hne. by apply (Hinj _ _ (phys_block (ni s) (a / es))).
Qed.

(** Mapping a logic block to the top spare block keeps the mapping injective
    and out of the management area, if that block is good. *)
Lemma map_keeps_isolation n lb pb bm' n' :
  injective n -> isolated n -> 0 <= lb ->
  spare_top n = Some pb -> good (block_state n) (mapping_blocks_top_ba n) ->
  mapping_blocks_ba n < mapping_blocks_top_ba n ->
  mgmt_start_ba n <= mapping_blocks_ba n ->
  bm' = <[Z.to_nat lb := pb]> (block_mapping n) -> block_mapping n' = bm' ->
  mgmt_start_ba n' = mgmt_start_ba n -> mapping_blocks_top_ba n' = mapping_blocks_top_ba n - 1 ->
  pb = mapping_blocks_top_ba n /\ injective n' /\ isolated n'.
Proof using.
  intros Hinj Hiso Hlb Hsp Hgood Hlt Hmg -> Ebm Emg Etop.
  assert (pb = mapping_blocks_top_ba n) as ->.
  { unfold spare_top in Hsp. rewrite good_desc_step, decide_True in Hsp by done. cbn in Hsp. congruence. }
  split; [done|]. set (top := mapping_blocks_top_ba n) in *.
  assert (region n top) as Hreg by (unfold region, top; lia).
  assert (forall i m, 0 <= i -> block_mapping n' !! Z.to_nat i = Some m ->
    (i = lb /\ m = top) \/ (i <> lb /\ block_mapping n !! Z.to_nat i = Some m)) as Hcase.
  { intros i m Hi. rewrite Ebm. intros Hm. destruct (decide (i = lb)) as [->|Hne].
    - left. apply list_lookup_insert_Some in Hm as [(_ & <- & _)|[? _]]; done.
    - right. rewrite list_lookup_insert_ne in Hm by lia. done. }
  split.
  - intros i j m Hi Hj Hm H1%Hcase H2%Hcase; [|done..].
    destruct H1 as [[-> ->]|[? H1]], H2 as [[-> H2]|[? H2]]; [done| | |by apply (Hinj _ _ m)].
    + by destruct (Hiso j top Hj H2).
    + rewrite H2 in H1. by destruct (Hiso i top Hi H1).
  - intros i m Hi Hm. destruct (Hcase i m Hi Hm) as [[-> ->]|[? Hm']].
    + unfold region. rewrite Etop. unfold top. lia.
    + intros Hr. eapply Hiso; [exact Hi|exact Hm'|]. unfold region in *. lia.
Qed.

(** * Writing a range *)

(** The first [n] bytes of [data] are stored from the logic address [addr] on. *)
Definition written (s : nst chip) (addr n : Z) (data : list Z) : Prop :=
  forall i v, 0 <= Z.of_nat i < n -> data !! i = Some v ->
    lbyte s (addr + Z.of_nat i) v /\ 0 <= phys_block (ni s) ((addr + Z.of_nat i) / es).

Lemma page_base x : 0 <= x -> 0 <= x - x mod ws /\ (x - x mod ws) mod ws = 0 /\ (x - x mod ws) / es = x / es.
Proof using Hg.
  intros. destruct es_ws as (k & _ & _ & Hw). pose proof (Z.mod_le x ws).
  split; [lia|]. split; [|apply (page_start_div g Hg)].
  by rewrite Zminus_mod_idemp_r, Z.sub_diag.
Qed.

(** Bytes on other pages survive the writing of a page. *)
Lemma page_written_lbyte s a d s' x v :
  injective (ni s) -> 0 <= a -> 0 <= x -> page_written s a d s' -> x - x mod ws <> a ->
  0 <= phys_block (ni s) (x / es) -> lbyte s x v -> lbyte s' x v.
Proof using Hg.
  intros Hinj Ha Hx [P1 P2 P3 P4] Hne Hm Hb. destruct (page_base x Hx) as (B1 & B2 & B3).
  unfold lbyte, lpage in *.
  assert (phys_addr (ni s') (x - x mod ws) = phys_addr (ni s) (x - x mod ws)) as ->
    by (unfold phys_addr, phys_block; by rewrite P1).
  rewrite P4; [done| |by apply phys_addr_aligned|].
  - unfold phys_addr. rewrite B3. by apply mapped_addr_nonneg.
  - intros E. apply Hne. apply (phys_addr_inj (ni s)); [done..|by rewrite B3|done].
Qed.

(** Writing the next chunk of a range. *)
Lemma written_step s s' addr pos chunk data pg :
  injective (ni s) -> 0 <= addr -> 0 <= pos -> 0 < chunk ->
  let lead := (addr + pos) mod ws in
  lead + chunk <= ws -> pos = 0 \/ lead = 0 ->
  written s addr pos data -> page_written s (addr + pos - lead) pg s' ->
  (forall j, 0 <= j < chunk -> pg !! Z.to_nat (lead + j) = data !! Z.to_nat (pos + j)) ->
  written s' addr (pos + chunk) data.
Proof using Hg.
  intros Hinj Haddr Hpos Hchunk lead Hle Hfirst Hw Hpw Hpg i v Hi Hv.
  destruct es_ws as (k & _ & _ & Hws).
  pose proof (Z.mod_pos_bound (addr + pos) ws Hws) as Hlead. fold lead in Hlead.
  destruct (page_base (addr + pos) ltac:(lia)) as (B1 & B2 & B3). fold lead in B1, B2, B3.
  assert (forall lb, phys_block (ni s') lb = phys_block (ni s) lb) as Epb
    by (intros; unfold phys_block; by rewrite (pw_mapping _ _ _ _ Hpw)).
  rewrite Epb. set (x := addr + Z.of_nat i).
  destruct (Z_lt_le_dec (Z.of_nat i) pos) as [Hlt|Hge].
  - destruct (Hw i v ltac:(lia) Hv) as [Hb Hm]. split; [|done].
    eapply page_written_lbyte; [done| |unfold x; lia|exact Hpw| |exact Hm|exact Hb]; [lia|].
    pose proof (Z.mod_pos_bound x ws Hws). unfold x in *. lia.
  - assert (x mod ws = lead + (Z.of_nat i - pos)) as Em.
    { replace x with (addr + pos - lead + (lead + (Z.of_nat i - pos))) by (unfold x; lia).
      rewrite <- Z.add_mod_idemp_l, B2, Z.add_0_l by lia. apply Z.mod_small. lia. }
    assert (x - x mod ws = addr + pos - lead) as Ex by (rewrite Em; unfold x; lia).
    split.
    + unfold lbyte. rewrite Ex, (pw_page _ _ _ _ Hpw), Em, Hpg by lia.
      by replace (Z.to_nat (pos + (Z.of_nat i - pos))) with i by lia.
    + destruct (page_base x ltac:(unfold x; lia)) as (_ & _ & Exd).
      rewrite <- Exd, Ex. apply (pw_mapped _ _ _ _ Hpw).
Qed.

(** The page image a round of [nmbm_write_range] writes. *)
Lemma slice_lookup l off len j :
  0 <= off -> 0 <= j < len -> slice l off len !! Z.to_nat j = l !! Z.to_nat (off + j).
Proof using.
  intros. unfold slice. rewrite lookup_take_lt, lookup_drop by lia. f_equal. lia.
Qed.

Lemma blit_lookup b off src j :
  0 <= off -> 0 <= j < Z.of_nat (length src) -> off + Z.of_nat (length src) <= Z.of_nat (length b) ->
  blit b off src !! Z.to_nat (off + j) = src !! Z.to_nat j.
Proof using.
  intros. unfold blit. rewrite lookup_app_r, lookup_app_l by (rewrite ?length_take; lia).
  f_equal. rewrite length_take. lia.
Qed.

Lemma injective_mapping n n' : block_mapping n' = block_mapping n -> injective n -> injective n'.
Proof using. unfold injective. by intros ->. Qed.

Lemma op_none_mapping B s s' : op_rel g B none s s' -> block_mapping (ni s') = block_mapping (ni s).
Proof using.
  intros H. apply list_eq. intros i. rewrite <- (Nat2Z.id i). apply (op_map _ _ _ _ _ H); [lia|by intros []].
Qed.

(** The page a round writes holds the chunk of [data] at [lead]. *)
Lemma wp_round_page (s : nst chip) lead pos chunk data :
  inst_ok g s -> 0 <= lead -> 0 < chunk -> lead + chunk <= ws -> 0 <= pos ->
  pos + chunk <= Z.of_nat (length data) -> (chunk = ws -> lead = 0) ->
  wp (if chunk =? ws then ret (slice data pos chunk)
      else
        do* cache_put 0 (replicate (Z.to_nat lead) 0xff) in
        do* cache_put lead (slice data pos chunk) in
        cache_get 0 ws)
    (fun pg s' => chip_rel g none s s' /\ Z.of_nat (length pg) = ws /\
       forall j, 0 <= j < chunk -> pg !! Z.to_nat (lead + j) = data !! Z.to_nat (pos + j)) s.
Proof using Hg.
  intros Hs Hlead Hc Hle Hpos Hdata Hfull. destruct es_ws as (k & _ & _ & Hws).
  pose proof (geo_rawpage g Hg). pose proof (geo_oob g Hg).
  pose proof (length_slice data pos chunk ltac:(lia) ltac:(lia) ltac:(lia)) as Hsl.
  destruct (Z.eqb_spec chunk ws) as [E|E].
  - apply wp_ret. split_and!; [apply chip_rel_refl|lia|]. intros j Hj. rewrite (Hfull E), Z.add_0_l.
    apply slice_lookup; lia.
  - apply wp_bind. wp_call (wp_cache_put g none); [apply Hs|lia|rewrite length_replicate; lia|].
    intros _ s1 [R1 _]. assert (inst_ok g s1) as Hs1 by eauto using inst_ok_chip.
    apply wp_bind. wp_call (wp_cache_put g none); [apply Hs1|lia|lia|]. intros _ s2 [R2 Hpc].
    assert (inst_ok g s2) as Hs2 by eauto using inst_ok_chip.
    apply (wp_cache_get g); [apply Hs2|lia..|].
    split_and!; [eauto using chip_rel_trans|apply (length_cache_slice g); [apply Hs2|lia..]|].
    intros j Hj. rewrite slice_lookup, Z.add_0_l, Hpc by lia.
    pose proof (st_cache _ _ (bo_st _ _ (proj1 (io_tab _ _ Hs1)))).
    rewrite blit_lookup by lia. apply slice_lookup; lia.
Qed.

Lemma write_range_loop_data addr size data mode s :
  inst_ok g s -> injective (ni s) -> 0 <= addr -> 0 < size -> addr + size < 2 ^ 64 ->
  addr + size <= ba2addr g (data_block_count (ni s)) -> size <= Z.of_nat (length data) ->
  wp (write_range_loop addr size data mode)
    (fun '(r, rem) s' => r = 0 -> written s' addr size data) s.
Proof using Hg Hl Hn.
  intros Hs Hinj Haddr Hsize Hsum Hend Hbuf. unfold write_range_loop. apply wp_bind, wp_gets.
  rewrite (st_geo _ _ (bo_st _ _ (proj1 (io_tab _ _ Hs)))). destruct es_ws as (k & _ & _ & Hws).
  set (B := fun _ : Z => True).
  apply (wp_loop
    (fun '(off, pos, rem, r) s' =>
       off = addr + pos /\ 0 <= pos /\ 0 <= rem /\ pos + rem = size /\
       (pos = 0 \/ (addr + pos) mod ws = 0 \/ rem = 0) /\
       op_rel g B none s s' /\ written s' addr pos data)
    (fun '(_, _, rem, _) _ => Z.to_nat rem)); [| |cbn; lia].
  2:{ split_and!; try lia; [by apply op_rel_refl|]. intros i v Hi. lia. }
  intros [[[off pos] rem] r] s1 (-> & Hpos & Hrem & Hsz & Hal & Hrel & Hw).
  destruct (Z.eqb_spec rem 0) as [->|Hrem0].
  { apply wp_ret. intros _. by replace size with pos by lia. }
  destruct (range_chunk_spec g Hg (addr + pos) rem) as (chunk & -> & Hc1 & Hc2 & Hc3 & Hc4); [lia..|].
  set (lead := (addr + pos) mod ws) in *.
  rewrite in_bounds_true by lia. cbn [negb]. apply wp_bind.
  wp_call (wp_round_page s1 lead pos chunk data); [apply Hrel|lia..|].
  intros pg s2 (Hrel2 & Hlen & Hpg).
  pose proof (op_rel_trans _ _ _ _ _ _ Hrel (chip_op_rel g B none _ _ (op_ok _ _ _ _ _ Hrel)
    (chip_rel_mono g none B _ _ ltac:(done) Hrel2))) as Hop2.
  pose proof (op_ok _ _ _ _ _ Hop2) as Hs2. pose proof (op_frame _ _ _ _ _ Hop2) as [= _ _ _ Hdbc _].
  assert (written s2 addr pos data) as Hw2.
  { intros i v Hi Hv. destruct (Hw i v Hi Hv) as [Hb Hm].
    assert (block_mapping (ni s2) = block_mapping (ni s1)) as Em by (destruct Hrel2 as (_ & _ & ->); done).
    split; [|unfold phys_block; by rewrite Em]. unfold lbyte. rewrite (chip_lpage s1 s2); [done| |done].
    destruct (page_base (addr + Z.of_nat i) ltac:(lia)) as (_ & _ & Exd).
    unfold phys_addr. rewrite Exd. by apply mapped_addr_nonneg. }
  destruct (page_base (addr + pos) ltac:(lia)) as (B1 & B2 & B3). fold lead in B1, B2, B3.
  rewrite (u64_small (addr + pos - lead)) by lia.
  destruct (addr2ba_lt g Hg s2 (addr + pos - lead) Hs2 ltac:(rewrite Hdbc; lia)) as [Eba Hba].
  pose proof (io_dbc _ _ Hs2). apply wp_bind.
  eapply wp_mono; [apply wp_and; [apply (wp_write_logic_page g Hg); [done|lia]
    |apply write_logic_page_data; [done|rewrite Hdbc; lia|done|done]]|].
  intros v s3 [[Hop3 _] Hpw].
  destruct (Z.eqb_spec v 0) as [->|Hv]; cbn [negb]; apply wp_ret; [|done].
  rewrite !u64_small by lia. split; [|lia]. split_and!; try lia.
  - destruct Hc3 as [Hc3|]; [|lia]. right. left.
    replace (addr + (pos + chunk)) with (addr + pos - lead + 1 * ws) by lia.
    by rewrite Z.mod_add by lia.
  - eapply op_rel_trans; [exact Hop2|]. eapply op_rel_mono; [| |exact Hop3]; done.
  - eapply written_step; [|done|done|lia|done|lia|exact Hw2|by apply Hpw|exact Hpg].
    eapply injective_mapping; [by eapply op_none_mapping|done].
Qed.
End data.
