(* ===== verification/NmbmSim.v ===== *)
(** A concrete NAND chip and the CRC-32 function, on which the NMBM operations can be run: the
    instances behind the witnesses of the NMBM theorems, with proofs that they meet the
    contracts of the lower device and the laws of the CRC. *)

From stdpp Require Import base list numbers sets relations.
From Stdlib Require Import ZArith Lia.
From S2P Require Import Prelude Bytes NmbmTypes NmbmChip NmbmBlocks NmbmTable NmbmAttach NmbmLogic NmbmSpec NmbmBlockSpec NmbmWalk NmbmTableSpec NmbmLogicSpec NmbmAttachSpec NmbmData.
Local Open Scope Z_scope.

(** * CRC-32, least significant bit first *)

#[export] Instance crc32_bitwise : Crc32 := fun crc l => foldl crc_byte (crc mod 2 ^ 32) l.

(** * The chip

    Every block is a list of pages, every page its data and spare bytes.  The
    erasure of a block in [erase_fails] and the writing of a page of a block in
    [write_fails] report an error. *)
Record sim := mk_sim {
  sim_blocks : list (list (list Z * list Z));
  sim_bad : list Z;
  erase_fails : list Z;
  write_fails : list Z
}.

Record sim_geometry := mk_sim_geometry {
  sg_blocks : Z; sg_pages : Z; sg_writesize : Z; sg_oobsize : Z
}.

Section sim.
Context (sg : sim_geometry).

Definition sg_erasesize : Z := sg_pages sg * sg_writesize sg.

Definition blank_page : list Z * list Z :=
  (replicate (Z.to_nat (sg_writesize sg)) 0xff, replicate (Z.to_nat (sg_oobsize sg)) 0xff).
Definition blank_block : list (list Z * list Z) :=
  replicate (Z.to_nat (sg_pages sg)) blank_page.

Definition sim_block_of (addr : Z) : Z := addr / sg_erasesize.
Definition sim_page_of (addr : Z) : Z := (addr mod sg_erasesize) / sg_writesize sg.

(** The first [n] bytes of [l], padded with [0xff]. *)
Definition sim_pad (n : Z) (l : list Z) : list Z :=
  take (Z.to_nat n) (l ++ replicate (Z.to_nat n) 0xff).

Definition sim_page (c : sim) (addr : Z) : list Z * list Z :=
  let '(d, o) := default blank_page
    (b ← sim_blocks c !! Z.to_nat (sim_block_of addr); b !! Z.to_nat (sim_page_of addr)) in
  (sim_pad (sg_writesize sg) d, sim_pad (sg_oobsize sg) o).

Definition zmem (x : Z) (l : list Z) : bool := existsb (Z.eqb x) l.

(** Like the MTD layer, the chip refuses addresses beyond its end. *)
Definition out_of_chip (addr : Z) : bool :=
  (addr <? 0) || (addr >=? sg_blocks sg * sg_erasesize).

(** Fill the buffer from the front. *)
Definition sim_fill (d buf : list Z) : list Z := take (length buf) (d ++ drop (length d) buf).

Definition sim_read : read_page_fn sim := fun addr data oob _ c =>
  if out_of_chip addr then (- EINVAL, data, oob, c)
  else
  let '(d, o) := sim_page c addr in
  (0, sim_fill d <$> data, sim_fill o <$> oob, c).

Definition sim_write : write_page_fn sim := fun addr data oob _ c =>
  if out_of_chip addr then (- EINVAL, c)
  else if zmem (sim_block_of addr) (write_fails c) then (- EIO, c)
  else
    match sim_blocks c !! Z.to_nat (sim_block_of addr) with
    | None => (- EIO, c)
    | Some b =>
        match b !! Z.to_nat (sim_page_of addr) with
        | None => (- EIO, c)
        | Some (d, o) =>
            let page := (default d data, default o oob) in
            (0, mk_sim
                  (<[Z.to_nat (sim_block_of addr) := <[Z.to_nat (sim_page_of addr) := page]> b]>
                     (sim_blocks c))
                  (sim_bad c) (erase_fails c) (write_fails c))
        end
    end.

Definition sim_erase : block_fn sim := fun addr c =>
  if out_of_chip addr then (- EINVAL, c)
  else if zmem (sim_block_of addr) (erase_fails c) then (- EIO, c)
  else (0, mk_sim (<[Z.to_nat (sim_block_of addr) := blank_block]> (sim_blocks c))
             (sim_bad c) (erase_fails c) (write_fails c)).

Definition sim_is_bad : block_fn sim := fun addr c =>
  if out_of_chip addr then (- EINVAL, c)
  else (if zmem (sim_block_of addr) (sim_bad c) then 1 else 0, c).

Definition sim_mark_bad : block_fn sim := fun addr c =>
  if out_of_chip addr then (- EINVAL, c)
  else (0, mk_sim (sim_blocks c) (sim_block_of addr :: sim_bad c) (erase_fails c) (write_fails c)).

Lemma length_sim_fill d buf : length (sim_fill d buf) = length buf.
Proof. unfold sim_fill. rewrite length_take, length_app, length_drop. lia. Qed.

Definition sim_device (fl ratio : Z) : nmbm_lower_device sim :=
  mk_nmbm_lower_device ratio 0 fl (sg_blocks sg * sg_erasesize) sg_erasesize
    (sg_writesize sg) (sg_oobsize sg) (sg_oobsize sg) None (Some sim_read)
    (Some sim_write) (Some sim_erase) (Some sim_is_bad) (Some sim_mark_bad).

Definition sim_fresh (bad efail wfail : list Z) : sim :=
  mk_sim (replicate (Z.to_nat (sg_blocks sg)) blank_block) bad efail wfail.

(** A zeroed instance, as the driver allocates it. *)
Definition zero_instance (d : nmbm_lower_device sim) : nmbm_instance sim :=
  mk_nmbm_instance
    (mk_nmbm_geometry d 0 0 0 0 0 0 0 0 0 0 0 0)
    (mk_nmbm_signature (mk_nmbm_header 0 0 0 0) 0 0 0 0 0 0)
    [] (mk_nmbm_info_table_header (mk_nmbm_header 0 0 0 0) 0 0 0 0)
    [] 0 [] 0 [] 0 0 0 0 0 0 0 0 NMBM_LOG_INFO.

Definition sim_state (fl ratio : Z) (c : sim) : nst sim :=
  mk_nst (zero_instance (sim_device fl ratio)) c.

Definition sim_attach (fl ratio : Z) (c : sim) : outcome (nst sim) Z :=
  nmbm_attach (sim_device fl ratio) (sim_state fl ratio c).

End sim.

(** * The contracts *)

(** * CRC-32 *)

#[export] Instance crc32_bitwise_laws : Crc32Laws crc32_bitwise.
Proof.
  split; intros crc.
  - intros l. apply crc_bytes_range, Z.mod_pos_bound. lia.
  - intros l1 l2. unfold crc32_le, crc32_bitwise.
    pose proof (crc_bytes_range l1 (crc mod 2 ^ 32) ltac:(apply Z.mod_pos_bound; lia)).
    rewrite (Z.mod_small (foldl _ _ l1)) by done. by rewrite foldl_app.
Qed.

(** * The chip *)

Section sim_spec.
Context (sg : sim_geometry).

Lemma sim_read_shape addr data oob mode c r data' oob' c' :
  sim_read sg addr data oob mode c = (r, data', oob', c') ->
  same_shape data data' /\ same_shape oob oob'.
Proof.
  unfold sim_read. destruct (out_of_chip sg addr); [by intros [= <- <- <- <-]|].
  destruct (sim_page sg c addr) as [d o]. intros [= <- <- <- <-].
  unfold same_shape. destruct data, oob; cbn; by rewrite ?length_sim_fill.
Qed.

Lemma sim_read_contract fl ratio : read_contract (sim_device sg fl ratio).
Proof. intros f addr data oob mode c r data' oob' c' [= <-]. apply sim_read_shape. Qed.

#[export] Instance sim_lower_contract fl ratio : lower_contract (sim_device sg fl ratio).
Proof.
  split; [|by intros _; eexists..]. exists (sim_read sg). split; [done|]. apply sim_read_shape.
Qed.

(** The page at an address. *)
Definition sim_data (c : sim) (a : Z) : list Z := (sim_page sg c a).1.

Lemma length_sim_pad n l : 0 <= n -> Z.of_nat (length (sim_pad n l)) = n.
Proof. intros. unfold sim_pad. rewrite length_take, length_app, length_replicate. lia. Qed.

Lemma sim_pad_id n l : Z.of_nat (length l) = n -> sim_pad n l = l.
Proof. intros H. unfold sim_pad. by rewrite take_app_length' by lia. Qed.

Lemma sim_fill_full d buf : length d = length buf -> sim_fill d buf = d.
Proof. intros H. unfold sim_fill. by rewrite take_app_length' by lia. Qed.

Lemma sim_data_eq c a :
  sim_data c a = sim_pad (sg_writesize sg) (default (blank_page sg)
    (b ← sim_blocks c !! Z.to_nat (sim_block_of sg a); b !! Z.to_nat (sim_page_of sg a))).1.
Proof. unfold sim_data, sim_page. by destruct (default _ _). Qed.

Lemma in_chip addr : out_of_chip sg addr = false -> 0 <= addr.
Proof. unfold out_of_chip. intros [H%Z.ltb_ge _]%orb_false_iff. done. Qed.

(** A change of the block of [addr] leaves the pages of other blocks alone. *)
Lemma sim_other_block blocks blocks' c c' addr a :
  sim_blocks c = blocks -> sim_blocks c' = blocks' -> 0 < sg_erasesize sg -> 0 <= addr -> 0 <= a ->
  (forall i, i <> Z.to_nat (sim_block_of sg addr) -> blocks' !! i = blocks !! i) ->
  a / sg_erasesize sg <> addr / sg_erasesize sg -> sim_data c' a = sim_data c a.
Proof.
  intros <- <- He Ha Ha' Hb Hne. rewrite !sim_data_eq, Hb; [done|]. unfold sim_block_of.
  pose proof (Z.div_pos a _ Ha' He). pose proof (Z.div_pos addr _ Ha He). lia.
Qed.

Context (fl ratio : Z) (Hp : 0 < sg_pages sg) (Hw : 0 < sg_writesize sg).

Lemma sg_erasesize_pos : 0 < sg_erasesize sg.
Proof using Hp Hw. unfold sg_erasesize. nia. Qed.

(** Two aligned addresses of one block and one page are equal. *)
Lemma sim_addr_inj a b :
  0 <= a -> 0 <= b -> a mod sg_writesize sg = 0 -> b mod sg_writesize sg = 0 ->
  sim_block_of sg a = sim_block_of sg b -> sim_page_of sg a = sim_page_of sg b -> a = b.
Proof using Hp Hw.
  intros Ha Hb Hma Hmb E1 E2. unfold sim_block_of, sim_page_of in *.
  pose proof sg_erasesize_pos as He.
  assert (forall x, x mod sg_writesize sg = 0 ->
    x = x / sg_erasesize sg * sg_erasesize sg +
        x mod sg_erasesize sg / sg_writesize sg * sg_writesize sg) as Hdec.
  { intros x Hx. rewrite (Z.div_mod x (sg_erasesize sg)) at 1 by lia.
    assert ((x mod sg_erasesize sg) mod sg_writesize sg = 0) as Hm.
    { unfold sg_erasesize. rewrite (Z.mul_comm (sg_pages sg)), Z.rem_mul_r, Hx by lia.
      rewrite Z.add_0_l, Z.mul_comm, Z.mod_mul by lia. done. }
    rewrite (Z.div_mod (x mod sg_erasesize sg) (sg_writesize sg)) at 1 by lia. rewrite Hm. lia. }
  rewrite (Hdec a Hma), (Hdec b Hmb), E1, E2. done.
Qed.

Lemma sim_page_of_nonneg a : 0 <= sim_page_of sg a.
Proof using Hp Hw.
  pose proof sg_erasesize_pos. apply Z.div_pos; [|lia]. apply Z.mod_pos_bound. lia.
Qed.

(** A page write stores the page and changes no other. *)
Lemma sim_write_data addr data oob mode c r c' :
  Z.of_nat (length data) = sg_writesize sg -> 0 <= addr -> addr mod sg_writesize sg = 0 ->
  sim_write sg addr (Some data) oob mode c = (r, c') ->
  (r = 0 -> sim_data c' addr = data) /\
  (forall a, 0 <= a -> a mod sg_writesize sg = 0 -> a <> addr -> sim_data c' a = sim_data c a).
Proof using Hp Hw.
  intros Hlen Ha Hal. unfold sim_write.
  destruct (out_of_chip sg addr); [by intros [= <- <-]|].
  destruct (zmem _ _); [by intros [= <- <-]|].
  destruct (sim_blocks c !! _) as [b|] eqn:Eb; [|by intros [= <- <-]].
  destruct (b !! _) as [[d o]|] eqn:Ep; [|by intros [= <- <-]].
  intros [= <- <-]. pose proof (lookup_lt_Some _ _ _ Eb). pose proof (lookup_lt_Some _ _ _ Ep).
  split.
  - intros _. rewrite sim_data_eq. cbn [sim_blocks]. rewrite list_lookup_insert_eq by done.
    cbn [mbind option_bind].
    rewrite list_lookup_insert_eq by done. by apply sim_pad_id.
  - intros a Ha' Hal' Hne. rewrite !sim_data_eq. cbn [sim_blocks].
    pose proof sg_erasesize_pos as He. pose proof (Z.div_pos a _ Ha' He). pose proof (Z.div_pos addr _ Ha He).
    destruct (decide (sim_block_of sg a = sim_block_of sg addr)) as [E|E].
    + rewrite E, list_lookup_insert_eq, Eb by done. cbn [mbind option_bind].
      rewrite list_lookup_insert_ne; [done|].
      intros E2. apply Hne, sim_addr_inj; try done.
      pose proof (sim_page_of_nonneg a). pose proof (sim_page_of_nonneg addr). lia.
    + rewrite list_lookup_insert_ne; [done|]. unfold sim_block_of in *. lia.
Qed.

(** A call that modifies one block. *)
Lemma sim_dev_step (g : nmbm_geometry sim) B c c' a :
  lower g = sim_device sg fl ratio -> dev_step g B c c' -> 0 <= a ->
  ~ B (a / sg_erasesize sg) -> sim_data c' a = sim_data c a.
Proof using Hp Hw.
  intros El Hstep Ha HB. pose proof sg_erasesize_pos as He.
  inversion Hstep as [f c1 r c2 Hf Hr|f addr data oob mode c1 r d2 o2 c2 Hf Hr|f addr c1 r c2 Hf Hr
    |f addr data oob mode c1 r c2 Hf HB' Hr|f addr c1 r c2 Hf HB' Hr|f addr c1 r c2 Hf HB' Hr];
    subst; rewrite El in *; cbn in *; try done; injection Hf as <-.
  - unfold sim_read in Hr. destruct (out_of_chip sg addr); [by injection Hr as <- <- <- <-|].
    destruct (sim_page sg c addr). by injection Hr as <- <- <- <-.
  - unfold sim_is_bad in Hr. destruct (out_of_chip sg addr); by injection Hr as <- <-.
  - assert (a / sg_erasesize sg <> addr / sg_erasesize sg) as Hne by (intros E; by rewrite E in HB).
    unfold sim_write in Hr. destruct (out_of_chip sg addr) eqn:Eo; [by injection Hr as <- <-|].
    destruct (zmem _ _); [by injection Hr as <- <-|].
    destruct (sim_blocks c !! _) as [b|]; [|by injection Hr as <- <-].
    destruct (b !! _) as [[d o]|]; [|by injection Hr as <- <-]. injection Hr as <- <-.
    eapply (sim_other_block _ _ _ _ addr); [done|done|done|by apply in_chip|done| |done].
    intros i Hi. cbn [sim_blocks]. by rewrite list_lookup_insert_ne.
  - assert (a / sg_erasesize sg <> addr / sg_erasesize sg) as Hne by (intros E; by rewrite E in HB).
    unfold sim_erase in Hr. destruct (out_of_chip sg addr) eqn:Eo; [by injection Hr as <- <-|].
    destruct (zmem _ _); injection Hr as <- <-; [done|].
    eapply (sim_other_block _ _ _ _ addr); [done|done|done|by apply in_chip|done| |done].
    intros i Hi. cbn [sim_blocks]. by rewrite list_lookup_insert_ne.
  - unfold sim_mark_bad in Hr. destruct (out_of_chip sg addr); by injection Hr as <- <-.
Qed.

Lemma sim_nand_content (g : nmbm_geometry sim) :
  lower g = sim_device sg fl ratio -> nand_content g sim_data.
Proof using Hp Hw.
  intros El. split; rewrite El; cbn.
  - intros c a. rewrite sim_data_eq. apply length_sim_pad. lia.
  - intros B c c' a Hs. by eapply sim_dev_step.
  - intros f addr buf oob mode c r d' o' c' [= <-] Hlen. unfold sim_read.
    destruct (out_of_chip sg addr); [by intros [= <- <- <- <-] []|].
    unfold sim_data. destruct (sim_page sg c addr) as [d o] eqn:E. intros [= <- <- <- <-] _. cbn.
    rewrite sim_fill_full; [done|]. unfold sim_page in E. destruct (default _ _) as [d0 o0].
    injection E as <- <-. pose proof (length_sim_pad (sg_writesize sg) d0). lia.
  - intros f addr data oob mode c r c' [= <-]. apply sim_write_data.
Qed.
End sim_spec.
