(* ===== verification/NmbmStored.v ===== *)
(** Bytes on the chip.  On a chip whose blocks work, what [nmbn_write_verify_data] and
    [nmbm_write_mgmt_range] are given is stored at the physical addresses, and
    [nmbn_read_data] delivers it. *)

From stdpp Require Import base list numbers sets relations.
From Stdlib Require Import ZArith Lia.
From S2P Require Import Prelude NmbmTypes NmbmChip NmbmBlocks NmbmSpec NmbmBlockSpec NmbmWalk NmbmTableSpec NmbmLogicSpec NmbmData.
Local Open Scope Z_scope.
Local Open Scope cprog_scope.

(** [bad c b]: block [b] carries the mark of a bad block.  [sound c b]: it does not, and
    can be erased and written.  Marks only change when a block is marked. *)
Class nand_reliable {chip : Type} (g : nmbm_geometry chip) (page : chip -> Z -> list Z)
    (bad : chip -> Z -> bool) (sound : chip -> Z -> Prop) : Prop := {
  nr_content :: nand_content g page;
  nr_sound c b : sound c b -> bad c b = false;
  nr_step B c c' b : dev_step g B c c' -> ~ B b ->
    bad c' b = bad c b /\ (sound c b -> sound c' b);
  nr_is_bad : exists f, is_bad_block (lower g) = Some f /\
    forall ba c r c', 0 <= ba < block_count g -> f (ba * erasesize (lower g)) c = (r, c') ->
      (r =? 0) = negb (bad c ba);
  nr_read f addr data oob mode c r data' oob' c' :
    read_page (lower g) = Some f -> 0 <= addr / erasesize (lower g) < block_count g ->
    bad c (addr / erasesize (lower g)) = false ->
    f addr data oob mode c = (r, data', oob', c') -> 0 <= r;
  nr_write f addr data oob mode c r c' :
    write_page (lower g) = Some f -> 0 <= addr / erasesize (lower g) < block_count g ->
    sound c (addr / erasesize (lower g)) -> Z.of_nat (length data) = writesize (lower g) ->
    f addr (Some data) oob mode c = (r, c') ->
    r = 0 /\ forall b, bad c' b = bad c b /\ (sound c b -> sound c' b);
  nr_erase f addr c r c' :
    erase_block (lower g) = Some f -> 0 <= addr / erasesize (lower g) < block_count g ->
    sound c (addr / erasesize (lower g)) -> f addr c = (r, c') ->
    r = 0 /\ forall b, bad c' b = bad c b /\ (sound c b -> sound c' b)
}.

(** * Buffers *)

Lemma blit_snoc (buf l : list Z) pos n :
  0 <= pos -> 0 <= n -> pos + n <= Z.of_nat (length l) -> Z.of_nat (length l) <= Z.of_nat (length buf) ->
  blit (blit buf 0 (take (Z.to_nat pos) l)) pos (slice l pos n) = blit buf 0 (take (Z.to_nat (pos + n)) l).
Proof.
  intros. unfold blit, slice. change (Z.to_nat 0) with 0%nat. rewrite !take_0. cbn [app Nat.add].
  rewrite !length_take, !length_drop.
  rewrite take_app_length' by (rewrite length_take; lia).
  rewrite drop_app_ge by (rewrite length_take; lia). rewrite length_take, drop_drop, app_assoc.
  f_equal; [|f_equal; lia].
  rewrite <- (take_drop (Z.to_nat pos) (take (Z.to_nat (pos + n)) l)), take_take.
  f_equal; [f_equal; lia|]. rewrite skipn_firstn_comm. f_equal. lia.
Qed.

Section stored.
Context {chip : Type} {C : Crc32} (g : nmbm_geometry chip).
Context (Hg : geom_ok g) `{Hl : !lower_contract (lower g)}.
Context (page : chip -> Z -> list Z) (bad : chip -> Z -> bool) (sound : chip -> Z -> Prop).
Context `{Hr : !nand_reliable g page bad sound}.
Abbreviation prog := (M (nst chip)).
Abbreviation ws := (writesize (lower g)).
Abbreviation es := (erasesize (lower g)).
Abbreviation RO := (flag_set g NMBM_F_READ_ONLY).

(** * Stored bytes *)

(** The byte at a physical address. *)
Definition cbyte (c : chip) (x : Z) : option Z := page c (x - x mod ws) !! Z.to_nat (x mod ws).

Definition stored (c : chip) (a : Z) (l : list Z) : Prop :=
  forall i v, l !! i = Some v -> cbyte c (a + Z.of_nat i) = Some v.

Lemma stored_nil c a : stored c a [].
Proof using. intros i v. by rewrite lookup_nil. Qed.

Lemma stored_take c a l n : stored c a l -> stored c a (take n l).
Proof using. intros H i v [Hi _]%lookup_take_Some. by apply H. Qed.

Lemma stored_slice c a l off len : stored c a l -> 0 <= off -> stored c (a + off) (slice l off len).
Proof using.
  intros H Ho i v [Hi _]%lookup_take_Some. rewrite lookup_drop in Hi. apply H in Hi.
  by replace (a + off + Z.of_nat i) with (a + Z.of_nat (Z.to_nat off + i)) by lia.
Qed.

Lemma stored_app c a l1 l2 :
  stored c a l1 -> stored c (a + Z.of_nat (length l1)) l2 -> stored c a (l1 ++ l2).
Proof using.
  intros H1 H2 i v [Hi|[Hle Hi]]%lookup_app_Some; [by apply H1|]. apply H2 in Hi.
  by replace (a + Z.of_nat i) with (a + Z.of_nat (length l1) + Z.of_nat (i - length l1)) by lia.
Qed.

(** The next piece of what is being stored. *)
Lemma stored_snoc c a l pos n :
  0 <= pos -> 0 <= n -> pos + n <= Z.of_nat (length l) ->
  stored c a (take (Z.to_nat pos) l) -> stored c (a + pos) (slice l pos n) ->
  stored c a (take (Z.to_nat (pos + n)) l).
Proof using.
  intros. rewrite <- (take_drop (Z.to_nat pos) (take (Z.to_nat (pos + n)) l)), take_take.
  rewrite Nat.min_l by lia. apply stored_app; [done|]. rewrite length_take, skipn_firstn_comm.
  replace (a + Z.of_nat (Nat.min (Z.to_nat pos) (length l))) with (a + pos) by lia.
  unfold slice in *. by replace (Z.to_nat (pos + n) - Z.to_nat pos)%nat with (Z.to_nat n) by lia.
Qed.

(** A piece inside a page, and the page. *)
Lemma page_stored c a l :
  0 <= a -> a mod ws + Z.of_nat (length l) <= ws -> stored c a l ->
  slice (page c (a - a mod ws)) (a mod ws) (Z.of_nat (length l)) = l.
Proof using Hg Hr.
  intros Ha Hle Hst. pose proof (writesize_pos g Hg). pose proof (Z.mod_pos_bound a ws).
  pose proof (nd_length c (a - a mod ws)). apply list_eq_same_length with (length l); [done| |].
  { pose proof (length_slice (page c (a - a mod ws)) (a mod ws) (Z.of_nat (length l))). lia. }
  intros i x y Hi Hx Hy. apply Hst in Hy. unfold cbyte in Hy.
  assert ((a + Z.of_nat i) mod ws = a mod ws + Z.of_nat i) as Em.
  { rewrite <- Z.add_mod_idemp_l by lia. apply Z.mod_small. lia. }
  rewrite Em in Hy. replace (a + Z.of_nat i - (a mod ws + Z.of_nat i)) with (a - a mod ws) in Hy by lia.
  unfold slice in Hx. apply lookup_take_Some in Hx as [Hx _]. rewrite lookup_drop in Hx.
  replace (Z.to_nat (a mod ws) + i)%nat with (Z.to_nat (a mod ws + Z.of_nat i)) in Hx by lia. congruence.
Qed.

Lemma stored_page c a l :
  0 <= a -> a mod ws + Z.of_nat (length l) <= ws ->
  slice (page c (a - a mod ws)) (a mod ws) (Z.of_nat (length l)) = l -> stored c a l.
Proof using Hg.
  intros Ha Hle El i v Hi. pose proof (writesize_pos g Hg). pose proof (Z.mod_pos_bound a ws).
  pose proof (lookup_lt_Some _ _ _ Hi). unfold cbyte.
  assert ((a + Z.of_nat i) mod ws = a mod ws + Z.of_nat i) as ->.
  { rewrite <- Z.add_mod_idemp_l by lia. apply Z.mod_small. lia. }
  replace (a + Z.of_nat i - (a mod ws + Z.of_nat i)) with (a - a mod ws) by lia.
  rewrite <- El in Hi. unfold slice in Hi. apply lookup_take_Some in Hi as [Hi _].
  rewrite lookup_drop in Hi. by replace (Z.to_nat (a mod ws + Z.of_nat i)) with (Z.to_nat (a mod ws) + i)%nat by lia.
Qed.

(** * What calls leave alone *)

Lemma cbyte_steps B c c' x : dev_steps g B c c' -> 0 <= x -> ~ B (x / es) -> cbyte c' x = cbyte c x.
Proof using Hg Hr.
  intros Hs Hx HB. destruct (page_base g Hg x Hx) as (? & _ & E). unfold cbyte.
  by rewrite (page_steps g page B c c') by (done || by rewrite E).
Qed.

Lemma stored_steps (B : Z -> Prop) c c' a l :
  dev_steps g B c c' -> 0 <= a -> (forall x, a <= x < a + Z.of_nat (length l) -> ~ B (x / es)) ->
  stored c a l -> stored c' a l.
Proof using Hg Hr.
  intros Hs Ha HB Hst i v Hi. pose proof (lookup_lt_Some _ _ _ Hi).
  rewrite (cbyte_steps B c c') by (done || lia || apply HB; lia). by apply Hst.
Qed.

Lemma stored_none c c' a l : dev_steps g none c c' -> 0 <= a -> stored c a l -> stored c' a l.
Proof using Hg Hr. intros. eapply stored_steps; [done|done|by intros ? _ []|done]. Qed.

(** No mark and no failure has been added. *)
Definition kept (c c' : chip) : Prop := forall b, bad c' b = bad c b /\ (sound c b -> sound c' b).

Lemma kept_refl c : kept c c.
Proof using. done. Qed.

Lemma kept_trans c1 c2 c3 : kept c1 c2 -> kept c2 c3 -> kept c1 c3.
Proof using. intros H1 H2 b. destruct (H1 b), (H2 b). split; [congruence|auto]. Qed.

Lemma kept_none c c' : dev_steps g none c c' -> kept c c'.
Proof using Hr.
  intros Hs. induction Hs as [|c1 c2 c3 H1 _ IH]; [done|]. eapply kept_trans; [|exact IH].
  intros b. eapply nr_step; [done|]. by intros [].
Qed.

Lemma kept_chip s s' : chip_rel g none s s' -> kept (dev s) (dev s').
Proof using Hr. intros (? & _). by apply kept_none. Qed.

(** * One page *)

Lemma check_bad_ok ba s :
  st_ok g s -> 0 <= ba < block_count g ->
  wp (nmbm_check_bad_phys_block ba)
    (fun r s' => r = bad (dev s) ba /\ ni s' = ni s /\ chip_rel g none s s') s.
Proof using Hg Hr.
  intros Hs Hba. unfold nmbm_check_bad_phys_block. apply wp_bind, wp_gets. rewrite (st_geo _ _ Hs).
  destruct nr_is_bad as (f & Hf & Hbad). rewrite Hf, (ba2addr_eq g Hg) by done.
  apply wp_bind. unfold wp at 1, call_block_fn.
  destruct (f (ba * es) (dev s)) as [r c'] eqn:E. apply wp_ret.
  rewrite (Hbad ba _ _ _ Hba E), negb_involutive. split; [done|]. split; [done|].
  apply (chip_rel_dev g none). by eapply step_is_bad.
Qed.

Lemma read_phys_ok addr buf oob mode s :
  st_ok g s -> 0 <= addr -> 0 <= addr / es < block_count g -> bad (dev s) (addr / es) = false ->
  Z.of_nat (length buf) = ws ->
  wp (nmbm_read_phys_page addr (Some buf) oob mode)
    (fun '(r, d, _) s' => 0 <= r /\ d = Some (page (dev s) addr) /\ chip_rel g none s s') s.
Proof using Hl Hr.
  intros Hs Ha Hba Hb Hlen. eapply wp_mono with (Q := fun '(r, d, _) s' =>
    (0 <= r -> d = Some (page (dev s) addr)) /\ chip_rel g none s s' /\ 0 <= r);
    [|intros [[r d] o] s' (H1 & H2 & H3); auto].
  eapply wp_mono; [apply wp_and; [by apply (read_phys_page_data g page addr buf oob mode)|]|].
  - instantiate (1 := fun '(r, _, _) s' => 0 <= r /\ chip_rel g none s s').
    unfold nmbm_read_phys_page.
    apply (wp_loop (fun l s' => l = (0, 0, Some buf, oob) /\ s' = s) (fun _ _ => 0%nat)); [|done|lia].
    intros l s1 [-> ->]. cbn. apply wp_bind.
    eapply wp_mono; [apply wp_and; [by apply (wp_call_read_page g none)|]|].
    { instantiate (1 := fun '(r, _, _) _ => 0 <= r).
      unfold call_read_page. apply wp_bind, wp_gets. rewrite (st_geo _ _ Hs).
      destruct lc_read as (f & Hf & _). rewrite Hf. unfold wp.
      destruct (f addr (Some buf) oob mode (dev s)) as [[[r d] o] c'] eqn:E.
      by eapply nr_read. }
    intros [[r d] o] s1 [(Hrel & _) Hr0]. destruct (Z.geb_spec r 0); [by apply wp_ret|lia].
  - intros [[r d] o] s' [H1 [H2 H3]]. done.
Qed.

Lemma read_to_cache_ok addr mode s :
  st_ok g s -> 0 <= addr -> 0 <= addr / es < block_count g -> bad (dev s) (addr / es) = false ->
  wp (read_to_cache addr mode)
    (fun r s' => 0 <= r /\ chip_rel g none s s' /\ slice (page_cache (ni s')) 0 ws = page (dev s) addr) s.
Proof using Hg Hl Hr.
  intros Hs Ha Hba Hb. pose proof (writesize_pos g Hg). pose proof (geo_oob g Hg).
  pose proof (geo_rawpage g Hg). unfold read_to_cache. apply wp_bind, wp_gets, wp_bind. rewrite (st_geo _ _ Hs).
  apply (wp_cache_get g); [done|lia..|]. apply wp_bind.
  wp_call read_phys_ok; [done..|apply (length_cache_slice g); [done|lia..]|].
  intros [[r d] o] s1 (Hr0 & -> & Hrel). cbn [default from_option id].
  assert (st_ok g s1) as Hs1 by eauto using st_ok_chip_rel. pose proof (nd_length (dev s) addr) as Hpl.
  apply wp_bind. wp_call (wp_cache_put g none); [done|lia|lia|].
  intros _ s2 [Hrel2 Hpc]. apply wp_ret. split_and!; [done|eauto using chip_rel_trans|].
  rewrite Hpc, <- Hpl. apply slice_blit_eq; [lia|]. pose proof (st_cache _ _ Hs1). lia.
Qed.

Lemma write_phys_ok addr data oob mode s :
  st_ok g s -> RO = false -> 0 <= addr -> addr mod ws = 0 -> 0 <= addr / es < block_count g ->
  sound (dev s) (addr / es) -> Z.of_nat (length data) = ws ->
  wp (nmbm_write_phys_page addr (Some data) oob mode)
    (fun ok s' => ok = true /\ page (dev s') addr = data /\
       (forall a, 0 <= a -> a mod ws = 0 -> a <> addr -> page (dev s') a = page (dev s) a) /\
       kept (dev s) (dev s') /\ chip_rel g (eq (addr / es)) s s') s.
Proof using Hl Hr.
  intros Hs Hro Ha Hal Hba Hsd Hlen.
  eapply wp_mono; [apply wp_and; [by apply (write_phys_page_data g page addr data oob mode)|
    apply wp_and; [by apply (wp_nmbm_write_phys_page g (eq (addr / es)))|]]|].
  - instantiate (1 := fun ok s' => ok = true /\ kept (dev s) (dev s')).
    unfold nmbm_write_phys_page. apply wp_bind, wp_gets. rewrite (st_geo _ _ Hs), Hro.
    apply (wp_loop (fun l s' => l = 0 /\ s' = s) (fun _ _ => 0%nat)); [|done|lia].
    intros l s1 [-> ->]. cbn. apply wp_bind. unfold call_write_page. apply wp_bind, wp_gets.
    rewrite (st_geo _ _ Hs). destruct (lc_write (flag_set_false g _ Hro)) as [f Hf]. rewrite Hf.
    unfold wp at 1. destruct (f addr (Some data) oob mode (dev s)) as [r c'] eqn:E.
    destruct (nr_write f addr data oob mode _ _ _ Hf Hba Hsd Hlen E) as [-> Hk]. by apply wp_ret.
  - cbn. intros ok s' ([H1 H2] & H3 & -> & H4). auto.
Qed.

(** * Reading *)

Lemma read_data_ok addr buf data s :
  st_ok g s -> 0 <= addr -> addr + Z.of_nat (length data) <= block_count g * es ->
  (forall x, addr <= x < addr + Z.of_nat (length data) -> bad (dev s) (x / es) = false) ->
  (length data <= length buf)%nat -> Z.of_nat (length data) < 2 ^ 32 -> stored (dev s) addr data ->
  wp (nmbn_read_data addr buf (Z.of_nat (length data)))
    (fun '(r, buf') s' => r = 0 /\ buf' = blit buf 0 data /\ chip_rel g none s s') s.
Proof using Hg Hl Hr.
  intros Hs Haddr Hend Hbad Hbuf Hsz Hst. unfold nmbn_read_data. apply wp_bind, wp_gets.
  rewrite (st_geo _ _ Hs). pose proof (writesize_pos g Hg). pose proof (geo_oob g Hg).
  pose proof (geo_rawpage g Hg). pose proof (geo_chip g Hg). pose proof (erasesize_pos g Hg).
  set (size := Z.of_nat (length data)) in *.
  apply (wp_loop
    (fun '(off, pos, rem, b) s' =>
       off = addr + pos /\ 0 <= pos /\ 0 <= rem /\ pos + rem = size /\
       b = blit buf 0 (take (Z.to_nat pos) data) /\ chip_rel g none s s')
    (fun '(_, _, rem, _) _ => Z.to_nat rem));
    [|split_and!; (lia || apply chip_rel_refl || done)|cbn; lia].
  intros [[[off pos] rem] b] s1 (-> & Hpos & Hrem & Hsum & -> & Hrel).
  assert (st_ok g s1) as Hs1 by eauto using st_ok_chip_rel.
  destruct (Z.eqb_spec rem 0) as [->|Hne].
  { apply wp_ret. split_and!; [done| |done]. by rewrite take_ge by lia. }
  destruct (page_chunk_spec g Hg (addr + pos) rem) as (lead & chunk & -> & -> & Hlr & Hchunk & Hcp); [lia|lia|].
  set (a := addr + pos) in *. set (lead := a mod ws) in *.
  assert (Z.of_nat (length (slice data pos chunk)) = chunk) as Hcl by (apply length_slice; lia).
  destruct (page_base g Hg a ltac:(lia)) as (B1 & B2 & B3). fold lead in B1, B2, B3.
  assert (0 <= a / es < block_count g) as Hblk
    by (split; [apply Z.div_pos|apply Z.div_lt_upper_bound]; unfold a; lia).
  assert (bad (dev s1) ((a - lead) / es) = false) as Hnb.
  { rewrite B3. destruct (kept_chip _ _ Hrel (a / es)) as [-> _]. apply Hbad. unfold a. lia. }
  assert (slice (page (dev s1) (a - lead)) lead chunk = slice data pos chunk) as Hpg.
  { rewrite <- Hcl at 1. apply page_stored; [lia|unfold lead in *; lia|].
    apply (stored_none (dev s)); [apply Hrel|lia|]. apply stored_slice; [done|lia]. }
  assert (Z.of_nat (length (blit buf 0 (take (Z.to_nat pos) data))) = Z.of_nat (length buf)) as Hbl
    by (rewrite length_blit; rewrite ?length_take; lia).
  rewrite (u64_small (a - lead)), in_bounds_true by lia. cbn [negb].
  destruct (Z.eqb_spec chunk ws) as [Hfull|Hpart].
  - assert (lead = 0) as E0 by lia. apply wp_bind.
    wp_call read_phys_ok; [done|lia|by rewrite B3|done|rewrite length_slice; lia|].
    intros [[r d] o] s2 (Hr0 & -> & Hrel2). cbn [default from_option id].
    destruct (Z.ltb_spec r 0); [lia|]. apply wp_ret. rewrite !u64_small, u32_small by lia.
    split; [|lia]. split_and!; [lia|lia|lia|lia| |eauto using chip_rel_trans].
    pose proof (nd_length (dev s1) (a - lead)) as Hpl.
    rewrite <- blit_snoc, <- Hpg by lia. f_equal. unfold slice. rewrite take_ge, E0; [done|].
    rewrite length_drop. lia.
  - apply wp_bind. wp_call read_to_cache_ok; [done|lia|by rewrite B3|done|].
    intros r s2 (Hr0 & Hrel2 & Hpc). destruct (Z.ltb_spec r 0); [lia|].
    assert (st_ok g s2) as Hs2 by eauto using st_ok_chip_rel.
    apply wp_bind, (wp_cache_get g); [done|lia..|].
    apply wp_ret. rewrite !u64_small, u32_small by lia.
    split; [|lia]. split_and!; [lia|lia|lia|lia| |eauto using chip_rel_trans].
    rewrite <- blit_snoc, <- Hpg, <- Hpc, slice_slice by lia. done.
Qed.
End stored.
