(* ===== verification/NmbmSave.v ===== *)
(** Writing the info tables on blocks that work: [nmbm_update_info_table] stores the image
    of both tables where the tables are, and changes nothing else. *)

From stdpp Require Import base list numbers sets relations.
From Stdlib Require Import ZArith Lia.
From S2P Require Import Prelude NmbmTypes NmbmChip NmbmBlocks NmbmTable NmbmSpec NmbmBlockSpec NmbmWalk NmbmTableSpec NmbmLogicSpec NmbmData NmbmStored.
Local Open Scope Z_scope.
Local Open Scope cprog_scope.

Section save.
Context {chip : Type} {C : Crc32} (g : nmbm_geometry chip).
Context (Hg : geom_ok g) `{Hl : !lower_contract (lower g)}.
Context (page : chip -> Z -> list Z) (bad : chip -> Z -> bool) (sound : chip -> Z -> Prop).
Context `{Hr : !nand_reliable g page bad sound}.
Context (Hro : flag_set g NMBM_F_READ_ONLY = false).
Abbreviation prog := (M (nst chip)).
Abbreviation ws := (writesize (lower g)).
Abbreviation es := (erasesize (lower g)).
Abbreviation stored := (stored g page).
Abbreviation kept := (kept bad sound).

(** A call that works on block [ba] and finds it in order. *)
Definition works_on (B : Z -> Prop) (s s' : nst chip) : Prop :=
  chip_rel g B s s' /\ kept (dev s) (dev s').

Lemma works_refl B s : works_on B s s.
Proof using. split; [apply chip_rel_refl|by apply kept_refl]. Qed.

Lemma works_trans B s1 s2 s3 : works_on B s1 s2 -> works_on B s2 s3 -> works_on B s1 s3.
Proof using. intros [? ?] [? ?]. split; [by eapply chip_rel_trans|by eapply kept_trans]. Qed.

Lemma works_none B s s' : chip_rel g none s s' -> works_on B s s'.
Proof using Hr. intros H. split; [by eapply chip_rel_mono; [|exact H]|by eapply kept_chip]. Qed.

Lemma works_mono (B B' : Z -> Prop) s s' : (forall b, B b -> B' b) -> works_on B s s' -> works_on B' s s'.
Proof using. intros HB [? ?]. split; [by eapply chip_rel_mono|done]. Qed.

Lemma works_st B s s' : st_ok g s -> works_on B s s' -> st_ok g s'.
Proof using. intros ? [? _]. by eapply st_ok_chip_rel. Qed.

Lemma works_sound B s s' b : works_on B s s' -> sound (dev s) b -> sound (dev s') b.
Proof using. intros [_ H]. apply H. Qed.

Lemma block_range ba pos :
  0 <= ba < block_count g -> 0 <= pos < es -> (ba * es + pos) / es = ba.
Proof using Hg. intros. pose proof (erasesize_pos g Hg). rewrite Z.div_add_l, Z.div_small by lia. lia. Qed.

Lemma block_aligned ba pos : pos mod ws = 0 -> (ba * es + pos) mod ws = 0.
Proof using Hg.
  intros. pose proof (writesize_pos g Hg). rewrite (erasesize_pages g Hg), Z.mul_assoc, Z.add_comm.
  by rewrite Z.mod_add by lia.
Qed.

(** Storing a page behind the bytes stored so far. *)
Lemma stored_next c c' a pos n pg data :
  0 <= a -> 0 <= pos -> 0 <= n <= ws -> pos + n <= Z.of_nat (length data) -> (a + pos) mod ws = 0 ->
  page c' (a + pos) = pg -> slice pg 0 n = slice data pos n ->
  (forall x, 0 <= x -> x mod ws = 0 -> x <> a + pos -> page c' x = page c x) ->
  stored c a (take (Z.to_nat pos) data) -> stored c' a (take (Z.to_nat (pos + n)) data).
Proof using Hg Hr.
  intros Ha Hpos Hn Hlen Hal Hpg Hsl Hoth Hst. apply stored_snoc; [done|lia|lia|..].
  - intros i v Hi. pose proof (lookup_lt_Some _ _ _ Hi) as Hlt. rewrite length_take in Hlt.
    destruct (page_base g Hg (a + Z.of_nat i) ltac:(lia)) as (B1 & B2 & _).
    pose proof (Z.mod_pos_bound (a + Z.of_nat i) ws (writesize_pos g Hg)).
    unfold cbyte. rewrite Hoth by lia. by apply Hst.
  - assert (Z.of_nat (length (slice data pos n)) = n) as E by (apply length_slice; lia).
    apply stored_page; [done|lia|rewrite E, Hal; lia|]. rewrite E, Hal, Z.sub_0_r. congruence.
Qed.

Lemma write_verify_ok ba data size s :
  st_ok g s -> 0 <= ba < block_count g -> sound (dev s) ba ->
  0 <= size <= es -> size <= Z.of_nat (length data) ->
  wp (nmbn_write_verify_data (ba2addr g ba) data size)
    (fun ok s' => ok = true /\ works_on (eq ba) s s' /\
       stored (dev s') (ba * es) (take (Z.to_nat size) data)) s.
Proof using Hg Hl Hr Hro.
  intros Hs Hba Hsd Hsize Hdata. unfold nmbn_write_verify_data. apply wp_bind, wp_gets.
  rewrite (st_geo _ _ Hs), (ba2addr_eq g Hg) by done. pose proof (writesize_pos g Hg). pose proof (geo_oob g Hg).
  pose proof (geo_rawpage g Hg). pose proof (erasesize_lt g Hg). pose proof (geo_chip g Hg).
  pose proof (erasesize_pos g Hg).
  apply (wp_loop
    (fun '(off, pos, rem) s' =>
       off = ba * es + pos /\ 0 <= pos /\ 0 <= rem /\ pos + rem = size /\ (pos mod ws = 0 \/ rem = 0) /\
       works_on (eq ba) s s' /\ stored (dev s') (ba * es) (take (Z.to_nat pos) data))
    (fun '(_, _, rem) _ => Z.to_nat rem));
    [|split_and!; (lia || apply works_refl || apply stored_nil || by left)|cbn; lia].
  intros [[off pos] rem] s1 (-> & Hpos & Hrem & Hsum & Hal & Hrel & Hst).
  assert (st_ok g s1) as Hs1 by eauto using works_st.
  destruct (Z.eqb_spec rem 0) as [->|Hne].
  { apply wp_ret. split_and!; [done|done|]. by replace size with pos by lia. }
  assert (pos mod ws = 0) as Hpal by (destruct Hal; lia).
  pose proof (block_range ba pos Hba ltac:(lia)) as Hblk. pose proof (block_aligned ba pos Hpal) as Hoal.
  assert (0 <= ba * es + pos < 2 ^ 64) as Hoff by nia.
  destruct (page_chunk_spec g Hg (ba * es + pos) rem) as (lead & chunk & -> & -> & _ & Hchunk & Hcp); [lia|lia|].
  rewrite Hoal in *. rewrite in_bounds_true by lia. cbn [negb].
  assert (Z.of_nat (length (slice data pos chunk)) = chunk) as Hcl by (apply length_slice; lia).
  apply wp_bind. wp_call (wp_cache_put g none); [done|lia|rewrite length_replicate; lia|].
  intros _ s2 [Hrel2 _]. assert (st_ok g s2) as Hs2 by eauto using st_ok_chip_rel.
  apply wp_bind. wp_call (wp_cache_put g none); [done|lia|lia|].
  intros _ s3 [Hrel3 Hpc]. assert (st_ok g s3) as Hs3 by eauto using st_ok_chip_rel.
  apply wp_bind, (wp_cache_get g); [done|lia..|].
  assert (works_on (eq ba) s s3) as Hw3
    by (eapply works_trans; [exact Hrel|]; apply works_none; by eapply chip_rel_trans).
  rewrite !(u64_small (ba * es + pos - 0)), Z.sub_0_r by lia.
  apply wp_bind. wp_call (write_phys_ok g page bad sound);
    [done|done|lia|done|by rewrite Hblk|rewrite Hblk; by eapply works_sound|by apply (length_cache_slice g); [|lia..]|].
  intros ok s4 (-> & Hpg & Hoth & Hk & Hrel4). rewrite Hblk in Hrel4. cbn [negb].
  assert (works_on (eq ba) s3 s4) as Hw4 by by split.
  assert (st_ok g s4) as Hs4 by eauto using works_st. pose proof (works_trans _ _ _ _ Hw3 Hw4) as Hw.
  apply wp_bind. wp_call (read_to_cache_ok g Hg page bad sound);
    [done|lia|by rewrite Hblk|rewrite Hblk; eapply (nr_sound (g:=g)), works_sound, Hsd; done|].
  intros r s5 (Hr0 & Hrel5 & Hpc5). destruct (Z.ltb_spec r 0); [lia|].
  assert (st_ok g s5) as Hs5 by eauto using st_ok_chip_rel.
  assert (slice (slice (page_cache (ni s3)) 0 ws) 0 chunk = slice data pos chunk) as Hsl.
  { pose proof (slice_blit_eq (page_cache (ni s2)) 0 (slice data pos chunk)) as E. rewrite Hcl in E.
    pose proof (st_cache _ _ Hs2). rewrite slice_slice, Hpc by lia. apply E; lia. }
  apply wp_bind, (wp_cache_equal g); [done|lia|lia|].
  rewrite bool_decide_eq_true_2; [|rewrite Hcl, <- (slice_slice _ 0 ws 0) by lia; by rewrite Hpc5, Hpg].
  cbn [negb]. apply wp_ret. rewrite u64_small, u32_small by nia. split; [|lia].
  split_and!; [lia|lia|lia|lia| |by eapply works_trans; [|apply works_none]|].
  - destruct (Z_le_gt_dec ws rem); [left|right; lia]. replace chunk with (1 * ws) by lia.
    by rewrite Z.mod_add by lia.
  - apply (stored_none g Hg page bad sound (dev s4)); [apply Hrel5|lia|].
    apply (stored_next (dev s1) (dev s4) _ _ _ _ _) with (6 := Hpg); [lia|lia|lia|lia|done|done| |done].
    intros x Hx Hxa Hxn. rewrite Hoth by done.
    eapply (page_steps g page none); [|done|by intros []]. by eapply chip_rel_trans.
Qed.

(** * A block *)

Lemma erase_ok ba s :
  st_ok g s -> 0 <= ba < block_count g -> sound (dev s) ba ->
  wp (nmbm_erase_block_and_check ba) (fun ok s' => ok = true /\ works_on (eq ba) s s') s.
Proof using Hg Hl Hr Hro.
  intros Hs Hba Hsd. unfold nmbm_erase_block_and_check. apply wp_bind, wp_gets, wp_bind.
  rewrite (st_geo _ _ Hs). pose proof (erasesize_lt g Hg). pose proof (writesize_pos g Hg).
  pose proof (ba2addr_div g Hg ba Hba) as Hdiv.
  eapply wp_mono; [apply wp_and; [by apply (wp_nmbm_erase_phys_block g (eq ba))|]|].
  { instantiate (1 := fun ok s' => ok = true /\ kept (dev s) (dev s')).
    unfold nmbm_erase_phys_block. apply wp_bind, wp_gets. rewrite (st_geo _ _ Hs), Hro.
    apply (wp_loop (fun l s' => l = 0 /\ s' = s) (fun _ _ => 0%nat)); [|done|lia].
    intros l s1 [-> ->]. cbn. apply wp_bind.
    destruct (lc_erase (flag_set_false g _ Hro)) as [f Hf]. rewrite Hf.
    unfold wp at 1, call_block_fn. destruct (f (ba2addr g ba) (dev s)) as [r c'] eqn:E.
    destruct (nr_erase f (ba2addr g ba) _ _ _ Hf ltac:(by rewrite Hdiv) ltac:(by rewrite Hdiv) E) as [-> Hk].
    by apply wp_ret. }
  intros ok s1 [Hrel1 [-> Hk1]]. cbn [negb]. assert (works_on (eq ba) s s1) as Hw1 by by split.
  destruct (negb _); [by apply wp_ret|].
  apply (wp_page_loop g Hg (fun _ s' => works_on (eq ba) s s')); [|intros s2 Hrel2|done].
  - intros off s2 Hoff Hend Hw2. destruct (Z.ltb_spec off es); [|lia].
    rewrite (block_addr g Hg) by lia. pose proof (block_range ba off Hba ltac:(lia)) as Hblk.
    apply wp_bind. wp_call (read_to_cache_ok g Hg page bad sound);
      [by eapply works_st|nia|by rewrite Hblk|rewrite Hblk; eapply (nr_sound (g:=g)), works_sound, Hsd; done|].
    intros r s3 (Hr0 & Hrel3 & _). change (- EBADMSG) with (-74).
    destruct (Z.eqb_spec r (-74)); [lia|]. apply wp_ret.
    split; [apply u64_small; lia|by eapply works_trans; [|apply works_none]].
  - rewrite Z.ltb_irrefl. by apply wp_ret.
Qed.

Lemma works_good B (s s' : nst chip) : works_on B s s' -> block_state (ni s') = block_state (ni s).
Proof using. intros [H _]. by eapply chip_rel_bs. Qed.

(** * The management blocks of a table *)

(** The blocks [ba] to [ba + n - 1] are good in the instance and on the chip. *)
Definition table_blocks (s : nst chip) (ba n : Z) : Prop :=
  forall b, ba <= b < ba + n -> good (block_state (ni s)) b /\ sound (dev s) b.

Definition nblk : Z := size2blk g (info_table_size g).

Lemma nblk_bounds : (nblk - 1) * es < info_table_size g <= nblk * es /\ 0 < nblk < 2 ^ 31.
Proof using Hg.
  unfold nblk, size2blk. pose proof (geo_table g Hg) as Ht. unfold sizeof_nmbm_info_table_header in Ht.
  pose proof (geo_shift g Hg). pose proof (erasesize_pos g Hg). pose proof (erasesize_lt g Hg).
  rewrite u64_small, Z.shiftr_div_pow2, <- (geo_erasesize g Hg) by lia.
  set (q := (info_table_size g + es - 1) / es).
  pose proof (Z.div_mod (info_table_size g + es - 1) es ltac:(lia)).
  pose proof (Z.mod_pos_bound (info_table_size g + es - 1) es ltac:(lia)).
  assert (0 < q < 2 ^ 31).
  { split; [apply Z.div_str_pos; lia|]. apply Z.div_lt_upper_bound; [lia|]. nia. }
  rewrite u32_small by lia. fold q in H1. nia.
Qed.

Lemma write_table_ok ba limit data s :
  st_ok g s -> 0 <= ba -> ba + nblk <= limit -> limit <= block_count g ->
  table_blocks s ba nblk -> Z.of_nat (length data) = info_table_size g ->
  wp (nmbm_write_mgmt_range ba limit data (info_table_size g))
    (fun r s' => r = Some (ba, ba + nblk) /\ works_on (blocks_in ba (ba + nblk)) s s' /\
       stored (dev s') (ba * es) data) s.
Proof using Hg Hl Hr Hro.
  intros Hs Hba Hlim Hbc Htb Hlen. unfold nmbm_write_mgmt_range. apply wp_bind, wp_gets.
  rewrite (st_geo _ _ Hs). pose proof (geo_count g Hg). pose proof (erasesize_pos g Hg).
  pose proof (erasesize_lt g Hg). destruct nblk_bounds as [Hnb Hn].
  pose proof (geo_table g Hg) as Ht. unfold sizeof_nmbm_info_table_header in Ht.
  set (size := info_table_size g) in *. set (B := blocks_in ba (ba + nblk)).
  apply (wp_loop
    (fun '(b, pos, rem, start) s' => exists k, b = ba + k /\ 0 <= k <= nblk /\
       pos = Z.min (k * es) size /\ rem = size - pos /\ (0 < k -> start = ba) /\
       works_on B s s' /\ stored (dev s') (ba * es) (take (Z.to_nat pos) data))
    (fun '(b, _, _, _) _ => Z.to_nat (limit - b)));
    [|exists 0; split_and!; (lia || apply works_refl || apply stored_nil)|cbn; lia].
  intros [[[b pos] rem] start] s1 (k & -> & Hk & Hpos & -> & Hstart & Hw & Hst).
  assert (st_ok g s1) as Hs1 by by eapply works_st.
  destruct (Z.eqb_spec (size - pos) 0) as [E|Hne]; cbn [negb andb].
  { apply wp_ret. assert (k = nblk) as -> by nia. rewrite Hstart by lia. split_and!; [done|done|].
    by rewrite take_ge in Hst by lia. }
  assert (k < nblk) as Hkn by nia. assert (pos = k * es) as -> by lia.
  destruct (Z.ltb_spec (ba + k) limit); [|lia].
  destruct (Htb (ba + k) ltac:(lia)) as [Hgood Hsd]. pose proof (works_sound _ _ _ _ Hw Hsd) as Hsd1.
  apply wp_bind, (wp_get_block_state g Hg); [done|lia|]. rewrite (works_good _ _ _ Hw), Hgood. cbn [negb Z.eqb Pos.eqb].
  change (BLOCK_ST_GOOD =? BLOCK_ST_GOOD) with true. cbn [negb].
  apply wp_bind. wp_call (check_bad_ok g Hg page bad sound); [done|lia|]. intros r s2 (-> & _ & Hrel2).
  rewrite (nr_sound (g:=g) _ _ Hsd1). pose proof (works_none B _ _ Hrel2) as Hw2.
  pose proof (works_sound _ _ _ _ Hw2 Hsd1) as Hsd2.
  apply wp_bind. wp_call erase_ok; [by eapply works_st|lia|done|]. intros ok s3 (-> & Hw3). cbn [negb].
  pose proof (works_sound _ _ _ _ Hw3 Hsd2) as Hsd3.
  set (chunk := if size - k * es >? es then _ else _).
  assert (chunk = Z.min es (size - k * es)) as Ec.
  { unfold chunk. rewrite Z.gtb_ltb. destruct (Z.ltb_spec es (size - k * es)); lia. }
  assert (st_ok g s3) as Hs3 by eauto using works_st.
  apply wp_bind. wp_call write_verify_ok; [done|lia|done|lia|rewrite length_drop; lia|].
  intros ok s4 (-> & Hw4 & Hst4). cbn [negb]. apply wp_ret. rewrite !u32_small by lia.
  assert (forall s s', works_on (eq (ba + k)) s s' -> works_on B s s') as Hone.
  { intros s5 s6. apply works_mono. intros ? <-. unfold B, blocks_in. lia. }
  assert (works_on B s s4) as Hwf by eauto 6 using works_trans.
  split; [|lia]. exists (k + 1). split_and!; [lia|lia|lia|lia|lia| |done|].
  { intros _. destruct (Z.eqb_spec (size - k * es) size); [nia|]. apply Hstart. nia. }
  replace (Z.min ((k + 1) * es) size) with (k * es + chunk) by lia.
  replace (k * es + chunk) with (k * es + chunk) by lia.
  apply stored_snoc; [lia|lia|lia| |].
  - apply (stored_steps g Hg page bad sound (eq (ba + k)) (dev s1)); [|nia| |done].
    + etrans; [eapply dev_steps_mono; [|apply Hrel2]; by intros ? []|].
      etrans; [apply Hw3|apply Hw4].
    + intros x Hx E. rewrite length_take in Hx.
      assert (x / es < ba + k) by (apply Z.div_lt_upper_bound; nia). lia.
  - replace (ba * es + k * es) with ((ba + k) * es) by lia. done.
Qed.

Lemma write_info_table_ok ba limit s :
  base_ok g s -> 0 <= ba -> ba + nblk <= limit -> limit <= block_count g -> table_blocks s ba nblk ->
  wp (nmbm_write_info_table ba limit)
    (fun r s' => r = Some (ba, ba + nblk) /\ works_on (blocks_in ba (ba + nblk)) s s' /\
       stored (dev s') (ba * es) (info_table_cache (ni s))) s.
Proof using Hg Hl Hr Hro.
  intros Hs Hba Hlim Hbc Htb. unfold nmbm_write_info_table.
  apply wp_bind, wp_gets, wp_bind, wp_gets. rewrite (st_geo _ _ (bo_st _ _ Hs)).
  apply write_table_ok; [apply Hs|done..|apply Hs].
Qed.

(** * Updating both tables *)

(** The tables [img] are on the chip, where the instance has them. *)
Definition synced (s : nst chip) (img : list Z) : Prop :=
  stored (dev s) (main_table_ba (ni s) * es) img /\ stored (dev s) (backup_table_ba (ni s) * es) img.

(** Both tables exist, on blocks that work, one behind the other. *)
Record two_tables (s : nst chip) : Prop := {
  tt_order : main_table_ba (ni s) + nblk <= backup_table_ba (ni s);
  tt_end : mapping_blocks_ba (ni s) = backup_table_ba (ni s) + nblk;
  tt_main : table_blocks s (main_table_ba (ni s)) nblk;
  tt_backup : table_blocks s (backup_table_ba (ni s)) nblk
}.

(** The blocks of the tables. *)
Definition in_tables (n : nmbm_instance chip) (b : Z) : Prop :=
  blocks_in (main_table_ba n) (main_table_ba n + nblk) b \/
  blocks_in (backup_table_ba n) (backup_table_ba n + nblk) b.

Record saved (s s' : nst chip) (img : list Z) : Prop := {
  sv_dev : dev_steps g (in_tables (ni s)) (dev s) (dev s');
  sv_kept : kept (dev s) (dev s');
  sv_synced : synced s' img;
  sv_keep : keep (ni s') = keep (ni s);
  sv_states : block_state (ni s') = block_state (ni s);
  sv_tabs : tabs (ni s') = tabs (ni s)
}.

Lemma works_keep B (s s' : nst chip) :
  works_on B s s' -> ni s' = set_page_cache (page_cache (ni s')) (ni s) /\
    Z.of_nat (length (page_cache (ni s'))) = Z.of_nat (length (page_cache (ni s))).
Proof using. intros [(_ & H1 & H2) _]. split; [done|lia]. Qed.

Lemma base_ok_cache s c t d :
  base_ok g s -> length c = length (page_cache (ni s)) ->
  base_ok g (mk_nst (set_page_cache c (set_backup_table_ba (backup_table_ba (ni s))
    (set_mapping_blocks_ba t (set_block_mapping_changed 0 (set_block_state_changed 0 (ni s)))))) d).
Proof using.
  intros [[G1 G2 G3 G4] H2 H3 H4 H5 H6] Hc. split; cbn; try done. split; cbn; (done || lia || congruence).
Qed.

Lemma update_once_ok s :
  tab_ok g s -> two_tables s -> main_table_ba (ni s) <> 0 -> counters (ni s) <> (0, 0) ->
  wp (nmbm_update_info_table_once false)
    (fun r s' => r = true /\ counters (ni s') = (0, 0) /\
       saved s s' (table_image g (next_header g (ni s)) (block_state (ni s)) (block_mapping (ni s)))) s.
Proof using Hg Hl Hr Hro.
  intros [Hs Hlay] [T1 T2 T3 T4] Hm0 Hcnt. pose proof (lay_cases _ Hlay) as [Hmain _].
  pose proof (lay_mapping _ Hlay) as Hmap. pose proof (bo_area _ _ Hs) as Harea. pose proof nblk_bounds as [_ Hn].
  unfold nmbm_update_info_table_once. apply wp_bind, (wp_generate g Hg); [done|]. cbn zeta.
  pose proof (generate_base_rel g Hg s Hs) as [Hgen _]. cbn zeta in Hgen. apply rel_ok in Hgen.
  set (img := table_image _ _ _ _) in *. revert Hgen. set (s1 := mk_nst _ (dev s)). intros Hs1.
  replace (negb (block_state_changed (ni s) =? 0) || negb (block_mapping_changed (ni s) =? 0)) with true.
  2:{ symmetry. apply orb_true_iff. rewrite !negb_true_iff, !Z.eqb_neq.
      destruct (Z.eq_dec (block_state_changed (ni s)) 0) as [E1|]; [|by left].
      right. intros E2. apply Hcnt. unfold counters. by rewrite E1, E2. }
  cbn [negb andb]. apply wp_bind, wp_gets, wp_bind, wp_gets. cbn [ni s1 backup_table_ba mapping_blocks_top_ba
    set_info_table_cache set_info_table].
  destruct (Z.eqb_spec (backup_table_ba (ni s)) 0); [lia|].
  apply wp_bind. wp_call write_info_table_ok; [exact Hs1|lia|lia|lia|exact T4|].
  intros r s2 (-> & Hw2 & Hst2). destruct (works_keep _ _ _ Hw2) as [E2 L2].
  apply wp_bind, wp_modify, wp_bind, wp_modify, wp_bind, wp_bind, wp_modify, wp_modify.
  set (s3 := set_ni _ _). assert (base_ok g s3) as Hs3.
  { unfold s3, set_ni. cbn [ni dev]. rewrite E2.
    apply (base_ok_cache s1 (page_cache (ni s2)) (backup_table_ba (ni s) + nblk) (dev s2) Hs1). lia. }
  unfold write_main_table. apply wp_bind, wp_gets.
  assert (main_table_ba (ni s3) = main_table_ba (ni s)) as Em by (unfold s3; cbn; by rewrite E2).
  rewrite Em. destruct (Z.eqb_spec (main_table_ba (ni s)) 0); [done|].
  assert (table_blocks s3 (main_table_ba (ni s)) nblk) as T3'.
  { intros b Hb. destruct (T3 b Hb) as [H1 H2]. split; [unfold s3; cbn; by rewrite E2|].
    by apply (works_sound _ s1 s2 b Hw2). }
  apply wp_bind. wp_call write_info_table_ok; [exact Hs3|lia|lia|lia|exact T3'|].
  intros r s4 (-> & Hw4 & Hst4). destruct (works_keep _ _ _ Hw4) as [E4 L4].
  assert (ni s3 = set_block_mapping_changed 0 (set_block_state_changed 0 (set_mapping_blocks_ba
    (backup_table_ba (ni s) + nblk) (set_backup_table_ba (backup_table_ba (ni s))
    (set_page_cache (page_cache (ni s2)) (ni s1)))))) as E3 by (unfold s3, set_ni; cbn [ni]; by rewrite E2).
  rewrite E3 in E4. apply wp_bind, wp_gets.
  replace (backup_table_ba (ni s4)) with (backup_table_ba (ni s)) by by rewrite E4.
  destruct (Z.eqb_spec (backup_table_ba (ni s)) 0); [lia|].
  apply wp_bind, wp_modify, wp_bind, wp_ret, wp_bind, wp_bind, wp_modify, wp_modify, wp_ret.
  unfold set_ni. cbn [ni dev]. rewrite E4. split_and!; [done|done|].
  split; cbn [ni dev]; try done.
  - etrans; [eapply dev_steps_mono; [|apply Hw2]|eapply dev_steps_mono; [|apply Hw4]];
      intros x Hx; [by right|by left].
  - eapply kept_trans; [apply Hw2|apply Hw4].
  - split; cbn; [by rewrite E3 in Hst4|].
    apply (stored_steps g Hg page bad sound _ (dev s2) _ _ _ (proj1 (proj1 Hw4))); [pose proof (erasesize_pos g Hg); nia| |exact Hst2].
    intros x Hx [_ Hx2]. pose proof (erasesize_pos g Hg).
    assert (backup_table_ba (ni s) <= x / es) by (apply Z.div_le_lower_bound; lia). lia.
  - unfold tabs. cbn. by rewrite T2.
Qed.

(** [nmbm_update_info_table] brings the chip up to date. *)
Lemma update_ok s img :
  tab_ok g s -> two_tables s -> main_table_ba (ni s) <> 0 -> protected (ni s) = 0 ->
  (counters (ni s) = (0, 0) -> synced s img) ->
  (counters (ni s) <> (0, 0) ->
     img = table_image g (next_header g (ni s)) (block_state (ni s)) (block_mapping (ni s))) ->
  wp nmbm_update_info_table (fun r s' => r = true /\ saved s s' img) s.
Proof using Hg Hl Hr Hro.
  intros Hs Htt Hm Hp Hsync Himg. unfold nmbm_update_info_table. apply wp_bind, wp_gets, wp_bind, wp_gets.
  rewrite (st_geo _ _ (bo_st _ _ (proj1 Hs))), Hp. cbn [negb Z.eqb].
  apply (wp_loop (fun _ s' => s' = s \/ counters (ni s') = (0, 0) /\ saved s s' img)
    (fun _ s' => if decide (counters (ni s') = (0, 0)) then 0%nat else 1%nat));
    [|by left|unfold update_fuel; destruct (decide _); lia].
  intros [] s1 H1. apply wp_bind, wp_gets, wp_bind, wp_gets.
  assert (forall n : nmbm_instance chip, counters n = (0, 0) ->
    negb (block_state_changed n =? 0) || negb (block_mapping_changed n =? 0) = false) as Hc0.
  { unfold counters. by intros n [= -> ->]. }
  destruct (decide (counters (ni s1) = (0, 0))) as [E|E].
  - rewrite (Hc0 _ E). apply wp_ret. split; [done|]. destruct H1 as [->|[_ ?]]; [|done].
    split; [apply rtc_refl|by apply kept_refl|by apply Hsync|done..].
  - destruct H1 as [->|[? _]]; [|done].
    destruct (negb _ || negb _) eqn:Ec; [|by apply unchanged_counters in Ec].
    apply wp_bind. wp_call update_once_ok; [done|done|done|done|]. intros r s2 (-> & Hc & Hsv).
    cbn [negb]. apply wp_ret. rewrite Himg by done. rewrite decide_True by done. auto with lia.
Qed.
End save.
