(* ===== verification/NmbmLoad.v ===== *)
(** Loading the info tables: on a chip that holds two tables, the search passes over the
    blocks without a table, and the instance gets the block states and the mapping of the
    tables. *)

From stdpp Require Import base list numbers sets relations.
From Stdlib Require Import ZArith Lia.
From S2P Require Import Prelude NmbmTypes NmbmChip NmbmBlocks NmbmTable NmbmAttach NmbmSpec NmbmBlockSpec NmbmWalk NmbmTableSpec NmbmLogicSpec NmbmAttachSpec NmbmFormat NmbmData NmbmStored NmbmSave.
Local Open Scope Z_scope.
Local Open Scope cprog_scope.

(** * Words of the table image *)

Lemma words_bytes_slice l i w :
  l !! i = Some w -> slice (words_bytes l) (4 * Z.of_nat i) 4 = le_bytes 4 w.
Proof.
  intros Hi. rewrite <- (take_drop_middle l i w Hi). pose proof (lookup_lt_Some _ _ _ Hi).
  unfold words_bytes. rewrite bind_app. cbn [mbind list_bind]. fold (words_bytes (take i l)).
  unfold slice. rewrite drop_app_length' by (rewrite length_words_bytes, length_take; lia).
  by rewrite take_app_length' by by rewrite length_le_bytes.
Qed.

(** The first bytes of a buffer decide about its header. *)
Lemma parse_info_table_header_take l : parse_info_table_header (take 32 l) = parse_info_table_header l.
Proof.
  unfold parse_info_table_header, parse_header, le_field, slice.
  rewrite !skipn_firstn_comm, !take_take. reflexivity.
Qed.

Section load.
Context {chip : Type} {C : Crc32} {L : Crc32Laws C} (g : nmbm_geometry chip).
Context (Hg : geom_ok g) `{Hl : !lower_contract (lower g)}.
Context (page : chip -> Z -> list Z) (bad : chip -> Z -> bool) (sound : chip -> Z -> Prop).
Context `{Hr : !nand_reliable g page bad sound}.
Context (Hes : sizeof_nmbm_info_table_header <= erasesize (lower g)).
Abbreviation prog := (M (nst chip)).
Abbreviation ws := (writesize (lower g)).
Abbreviation es := (erasesize (lower g)).
Abbreviation stored := (stored g page).
Abbreviation kept := (kept bad sound).
Abbreviation nblk := (nblk g).
Abbreviation its := (info_table_size g).

Section image.
Context (it : nmbm_info_table_header) (bs bm : list Z) (Hlay : table_layout g it).
Abbreviation img := (table_image g it bs bm).

Lemma image_word off j l l0 n i w :
  Z.of_nat (length l0) = its -> 32 <= off -> off + n <= its -> n = 4 * Z.of_nat (length l) ->
  l !! i = Some w -> j = 4 * Z.of_nat i ->
  le_val (slice (blit l0 off (take (Z.to_nat n) (words_bytes l))) (off + j) 4) = u32 w.
Proof using.
  intros Hl0 Hoff Hn En Hi ->. pose proof (lookup_lt_Some _ _ _ Hi).
  rewrite (take_ge (words_bytes l)) by (rewrite length_words_bytes; lia).
  rewrite <- (slice_slice _ off n) by lia.
  replace n with (Z.of_nat (length (words_bytes l))) by (rewrite length_words_bytes; lia).
  rewrite slice_blit_eq by (rewrite ?length_words_bytes; lia).
  rewrite (words_bytes_slice _ _ _ Hi). apply le_val_bytes.
Qed.

Lemma state_table_words : bs_ok g bs -> state_table_size g = 4 * Z.of_nat (length bs).
Proof using Hg.
  intros [H _]. rewrite H, (geo_state g Hg), (Z.mul_comm 4 ((_ + 15) / 16)), Z.div_mul by lia. lia.
Qed.

(** The words of the two tables. *)
Lemma image_state_word i w :
  bs_ok g bs -> bs !! i = Some w -> le_field img (state_table_off it + 4 * Z.of_nat i) 4 = u32 w.
Proof using Hg Hlay.
  intros Hbs Hi. pose proof (state_table_words Hbs) as Hn. pose proof Hlay as [L1 L2 L3].
  pose proof (table_sizes_nonneg g Hg). pose proof (lookup_lt_Some _ _ _ Hi). unfold le_field.
  rewrite (image_slice g Hg it bs bm Hlay) by lia. unfold table_body. rewrite slice_blit_before.
  - by eapply image_word; [rewrite length_replicate; lia|lia|lia|exact Hn|exact Hi|].
  - lia.
  - lia.
  - lia.
  - rewrite length_blit; rewrite ?length_replicate, ?length_take; lia.
Qed.

Lemma image_mapping_word i m :
  Z.of_nat (length bm) = block_count g -> bm !! i = Some m ->
  le_field img (mapping_table_off it + 4 * Z.of_nat i) 4 = u32 m.
Proof using Hg Hlay.
  intros Hbm Hi. pose proof Hlay as [L1 L2 L3]. pose proof (table_sizes_nonneg g Hg).
  pose proof (geo_mapping g Hg). unfold le_field.
  rewrite (image_slice g Hg it bs bm Hlay) by lia. unfold table_body.
  eapply image_word; [|lia|lia| |exact Hi|done]; [|lia].
  rewrite length_blit; rewrite ?length_replicate, ?length_take; lia.
Qed.
End image.

(** * Scanning blocks *)

(** Blocks have been read: nothing is written, and only marked blocks change their state
    in memory. *)
Record scan_rel (R : Z -> Prop) (s s' : nst chip) : Prop := {
  sc_dev : dev_steps g none (dev s) (dev s');
  sc_ok : st_ok g s';
  sc_ni : ni s' = set_page_cache (page_cache (ni s')) (set_info_table_cache (info_table_cache (ni s'))
    (set_block_state (block_state (ni s')) (set_block_state_changed (block_state_changed (ni s')) (ni s))));
  sc_cache : length (info_table_cache (ni s')) = length (info_table_cache (ni s));
  sc_states b : 0 <= b < block_count g -> bad (dev s) b = false ->
    bstate (block_state (ni s')) b = bstate (block_state (ni s)) b;
  sc_clean : (forall b, R b -> good (block_state (ni s)) b -> bad (dev s) b = false) ->
    block_state (ni s') = block_state (ni s)
}.

Lemma scan_refl R s : st_ok g s -> scan_rel R s s.
Proof using. intros. split; try done. by destruct (ni s). Qed.

Lemma scan_trans R s1 s2 s3 : scan_rel R s1 s2 -> scan_rel R s2 s3 -> scan_rel R s1 s3.
Proof using Hr.
  intros [A1 A2 A3 A4 A5 A6] [B1 B2 B3 B4 B5 B6]. pose proof (kept_none g page bad sound _ _ A1) as Hk.
  split; [by etrans|done| |congruence|..].
  - rewrite B3, A3. done.
  - intros b Hb Hbad. rewrite B5, A5; [done..|]. by rewrite (proj1 (Hk b)).
  - intros H. specialize (A6 H). rewrite B6, A6; [done|]. intros b HR Hb. rewrite (proj1 (Hk b)).
    apply H; [done|]. by rewrite <- A6.
Qed.

Lemma scan_mono (R R' : Z -> Prop) s s' : (forall b, R b -> R' b) -> scan_rel R s s' -> scan_rel R' s s'.
Proof using. intros HR [A1 A2 A3 A4 A5 A6]. split; auto. Qed.

Lemma scan_chip R s s' : st_ok g s -> chip_rel g none s s' -> scan_rel R s s'.
Proof using.
  intros Hs Hrel. pose proof (st_ok_chip_rel _ _ _ _ Hs Hrel). destruct Hrel as (H1 & H2 & H3).
  split; try done; rewrite H3; try done.
Qed.

Lemma scan_cache R s c :
  st_ok g s -> length c = length (info_table_cache (ni s)) -> scan_rel R s (set_ni (set_info_table_cache c) s).
Proof using.
  intros [G1 G2 G3 G4] Hc. split; cbn; try done.
Qed.

Lemma scan_set_bad (R : Z -> Prop) s b :
  st_ok g s -> 0 <= b < block_count g -> R b -> good (block_state (ni s)) b -> bad (dev s) b = true ->
  wp (nmbm_set_block_state b BLOCK_ST_BAD) (fun _ s' => scan_rel R s s') s.
Proof using Hg.
  intros Hs Hb HR Hgood Hbad. apply (wp_set_block_state g Hg); [done|done|]. cbn zeta.
  rewrite Hgood. change (BLOCK_ST_GOOD =? Z.land BLOCK_ST_BAD 3) with false. cbn iota.
  destruct Hs as [G1 G2 G3 G4]. split; cbn; try done; [|..].
  - split; cbn; try done; [by apply bs_set_ok|apply u32_range].
  - intros b' Hb' Hnb. rewrite (bstate_set g Hg) by done.
    destruct (Z.eqb_spec b' b) as [->|]; [congruence|done].
  - intros H. rewrite (H b HR Hgood) in Hbad. done.
Qed.

(** * The blocks of one table *)

(** Block [b] holds no table: its first bytes are no table header. *)
Definition no_header (c : chip) (b : Z) : Prop :=
  forall l, length l = 32%nat -> stored c (b * es) l ->
    nmbm_check_info_table_header g (parse_info_table_header l) = false.

(** The loader passes over block [b]. *)
Definition skipped (s : nst chip) (b : Z) : Prop :=
  good (block_state (ni s)) b -> bad (dev s) b = false -> no_header (dev s) b.

Lemma stored_some c a n : 0 <= a -> exists l, length l = n /\ stored c a l.
Proof using Hg Hr.
  intros Ha. induction n as [|n (l & Hn & Hst)]; [by exists []|].
  destruct (cbyte g page c (a + Z.of_nat n)) as [v|] eqn:E.
  - exists (l ++ [v]). rewrite length_app. cbn. split; [lia|]. apply stored_app; [done|].
    intros i w Hi. apply list_lookup_singleton_Some in Hi as [-> <-].
    by replace (a + Z.of_nat (length l) + Z.of_nat 0) with (a + Z.of_nat n) by lia.
  - unfold cbyte in E. apply lookup_ge_None in E. pose proof (writesize_pos g Hg).
    pose proof (nd_length c (a + Z.of_nat n - (a + Z.of_nat n) mod ws)).
    pose proof (Z.mod_pos_bound (a + Z.of_nat n) ws). lia.
Qed.

Lemma no_header_steps (B : Z -> Prop) c c' b :
  dev_steps g B c c' -> 0 <= b < block_count g -> ~ B b -> no_header c b -> no_header c' b.
Proof using Hg Hr Hes.
  intros Hs Hb HB H l Hlen Hst. pose proof (erasesize_pos g Hg). unfold sizeof_nmbm_info_table_header in Hes.
  apply (H l Hlen). intros i v Hi. rewrite <- (Hst i v Hi). pose proof (lookup_lt_Some _ _ _ Hi).
  symmetry. apply (cbyte_steps g Hg page bad sound B); [done|nia|]. by rewrite (block_range g Hg) by lia.
Qed.

Lemma no_header_none c c' b : dev_steps g none c c' -> 0 <= b < block_count g -> no_header c b -> no_header c' b.
Proof using Hg Hr Hes. intros Hs Hb. by apply (no_header_steps none); [..|intros []]. Qed.

Lemma skipped_scan R s s' b :
  0 <= b < block_count g -> scan_rel R s s' -> skipped s b -> skipped s' b.
Proof using Hg Hr Hes.
  intros Hb [A1 A2 A3 A4 A5 A6] H Hgood Hbad.
  rewrite (proj1 (kept_none g page bad sound _ _ A1 b)) in Hbad. unfold good in Hgood. rewrite A5 in Hgood by done.
  eapply no_header_none; [done|lia|]. by apply H.
Qed.

Abbreviation in_try ba := (blocks_in ba (ba + nblk)).

(** One block is read to offset [off] of the cache. *)
Lemma wp_read_table_block s b off n l :
  st_ok g s -> Z.of_nat (length (info_table_cache (ni s))) = its ->
  0 <= b < block_count g -> bad (dev s) b = false -> 0 <= off -> 0 <= n <= es -> off + n <= its ->
  stored (dev s) (b * es) l -> Z.of_nat (length l) = n ->
  wp (nmbn_read_data (ba2addr g b) (slice (info_table_cache (ni s)) off n) n)
    (fun '(r, d) s' => r = 0 /\ d = l /\ chip_rel g none s s') s.
Proof using Hg Hl Hr.
  intros Hs Hc Hb Hnb Hoff Hn Hle Hst Hlen. rewrite (ba2addr_eq g Hg) by done.
  pose proof (erasesize_pos g Hg). pose proof (erasesize_lt g Hg). rewrite <- Hlen at 2.
  pose proof (length_slice (info_table_cache (ni s)) off n Hoff ltac:(lia) ltac:(lia)).
  wp_call (read_data_ok g Hg page bad sound); [done|nia|nia| |lia|lia|done|].
  - intros x Hx. replace (x / es) with b; [done|]. symmetry.
    replace x with (b * es + (x - b * es)) by lia. apply (block_range g Hg); [done|lia].
  - intros [r d] s' (-> & -> & Hrel). split_and!; [done|apply blit_all; lia|done].
Qed.

(** The blocks from [ba] on that hold the table [T]. *)
Record table_at (s : nst chip) (ba : Z) (T : list Z) : Prop := {
  ta_range : 0 <= ba /\ ba + nblk <= block_count g;
  ta_good b : in_try ba b -> good (block_state (ni s)) b;
  ta_marks b : in_try ba b -> bad (dev s) b = false;
  ta_length : Z.of_nat (length T) = its;
  ta_stored : stored (dev s) (ba * es) T;
  ta_header : nmbm_check_info_table_header g (parse_info_table_header T) = true
}.

Lemma table_at_scan R s s' ba T : scan_rel R s s' -> table_at s ba T -> table_at s' ba T.
Proof using Hg Hr.
  intros [A1 A2 A3 A4 A5 A6] [[T1 T1'] T2 T3 T4 T5 T6]. pose proof (erasesize_pos g Hg).
  split; [done| | |done| |done].
  - intros b Hb. unfold good. rewrite A5; [by apply T2| |by apply T3]. unfold blocks_in in Hb. lia.
  - intros b Hb. rewrite (proj1 (kept_none g page bad sound _ _ A1 b)). by apply T3.
  - apply (stored_none g Hg page bad sound (dev s)); [done|nia|done].
Qed.

(** The cache after the pieces before [off] have been read. *)
Lemma load_table_ok ba T s :
  st_ok g s -> Z.of_nat (length (info_table_cache (ni s))) = its -> table_at s ba T ->
  wp (load_info_table_cache ba)
    (fun r s' => r = Some (ba, ba + nblk) /\ scan_rel (in_try ba) s s' /\
       block_state (ni s') = block_state (ni s) /\ info_table_cache (ni s') = T) s.
Proof using Hg Hl Hr Hes.
  intros Hs Hc Hta. destruct (ta_range _ _ _ Hta) as [Hba Hlim]. unfold load_info_table_cache.
  apply wp_bind, wp_gets. rewrite (st_geo _ _ Hs). fold nblk.
  destruct (nblk_bounds g Hg) as [Hnb Hn]. pose proof (geo_count g Hg). pose proof (erasesize_pos g Hg).
  pose proof (erasesize_lt g Hg). pose proof (geo_table g Hg) as Ht. unfold sizeof_nmbm_info_table_header in Ht, Hes.
  pose proof (ta_length _ _ _ Hta) as HT. set (T0 := info_table_cache (ni s)) in *.
  change (size2blk g its) with nblk. rewrite (u32_small (ba + nblk)) by lia.
  replace (ba + nblk - ba) with nblk by lia.
  apply (wp_loop
    (fun '(b, off, rem, start, chk) s' => exists k, b = ba + k /\ 0 <= k <= nblk /\
       off = Z.min (k * es) its /\ rem = its - off /\ (0 < k -> start = ba) /\ chk = (k =? 0) /\
       scan_rel (in_try ba) s s' /\ block_state (ni s') = block_state (ni s) /\
       info_table_cache (ni s') = blit T0 0 (take (Z.to_nat off) T))
    (fun '(b, _, _, _, _) _ => Z.to_nat (ba + nblk - b)));
    [|exists 0; split_and!; (lia || done || by apply scan_refl)|cbn; lia].
  intros [[[[b off] rem] start] chk] s1 (k & -> & Hk & Hoff & -> & Hstart & -> & Hsc & Hbs & Hcache).
  pose proof (sc_ok _ _ _ Hsc) as Hs1.
  destruct (Z.eqb_spec (its - off) 0) as [E|Hne]; cbn [negb andb].
  { apply wp_ret. assert (k = nblk) as -> by nia. rewrite Hstart, Hcache by lia.
    split_and!; [done|done|done|]. rewrite take_ge by lia. apply blit_all. lia. }
  assert (k < nblk) as Hkn by nia. assert (off = k * es) as -> by lia.
  destruct (Z.ltb_spec (ba + k) (ba + nblk)); [|lia].
  assert (in_try ba (ba + k)) as Hin by (unfold blocks_in; lia).
  pose proof (table_at_scan _ _ _ _ _ Hsc Hta) as Hta1.
  apply wp_bind, (wp_get_block_state g Hg); [done|lia|]. rewrite (ta_good _ _ _ Hta1 _ Hin).
  change (BLOCK_ST_GOOD =? BLOCK_ST_GOOD) with true. cbn [negb].
  apply wp_bind. wp_call (check_bad_ok g Hg page bad sound); [done|lia|]. intros r s2 (-> & Hni2 & Hrel2).
  rewrite (ta_marks _ _ _ Hta1 _ Hin). pose proof (scan_chip (in_try ba) _ _ Hs1 Hrel2) as Hsc2.
  pose proof (sc_ok _ _ _ Hsc2) as Hs2. pose proof (table_at_scan _ _ _ _ _ Hsc2 Hta1) as Hta2.
  set (n := if its - k * es >? es then es else its - k * es).
  assert (n = Z.min es (its - k * es)) as En by (unfold n; rewrite Z.gtb_ltb; destruct (Z.ltb_spec es (its - k * es)); lia).
  apply wp_bind, wp_gets. rewrite Hni2.
  assert (Z.of_nat (length (info_table_cache (ni s1))) = its) as Hc1 by (rewrite (sc_cache _ _ _ Hsc); done).
  rewrite in_bounds_true by lia. cbn [negb].
  apply wp_bind. rewrite <- Hni2 at 1. wp_call (wp_read_table_block s2 (ba + k) (k * es) n (slice T (k * es) n));
    [done|by rewrite Hni2|lia|by apply (ta_marks _ _ _ Hta2)|lia|lia|lia| |apply length_slice; lia|].
  { replace ((ba + k) * es) with (ba * es + k * es) by lia. apply stored_slice; [apply Hta2|lia]. }
  intros [r d] s3 (-> & -> & Hrel3). rewrite Hcache, blit_snoc by lia.
  assert (scan_rel (in_try ba) s s3) as Hsc3.
  { eapply scan_trans; [exact Hsc|]. eapply scan_trans; [exact Hsc2|]. by apply scan_chip. }
  set (c' := blit T0 0 _). assert (length c' = length T0) as Hlc
    by (unfold c'; rewrite length_blit; rewrite ?length_take; lia).
  apply wp_bind, wp_modify. cbn [Z.ltb Z.compare Z.gtb].
  pose proof (scan_cache (in_try ba) s3 c' (sc_ok _ _ _ Hsc3)) as Hsc4.
  assert (ni s3 = set_page_cache (page_cache (ni s3)) (ni s1)) as Eni
    by (destruct Hrel3 as (_ & _ & E3); by rewrite E3, Hni2).
  assert (Hfin : scan_rel (in_try ba) s (set_ni (set_info_table_cache c') s3) /\
    block_state (ni (set_ni (set_info_table_cache c') s3)) = block_state (ni s)).
  { split; [|cbn; by rewrite Eni]. eapply scan_trans; [exact Hsc3|]. apply Hsc4.
    rewrite Hlc. symmetry. apply (sc_cache _ _ _ Hsc3). }
  assert ((k =? 0) && negb (nmbm_check_info_table_header g
    (parse_info_table_header (drop (Z.to_nat (k * es)) c'))) = false) as ->.
  { destruct (Z.eqb_spec k 0) as [->|]; [|done]. cbn [andb Z.mul Z.to_nat]. rewrite drop_0.
    rewrite <- parse_info_table_header_take. unfold c', blit. change (Z.to_nat 0) with 0%nat.
    rewrite take_0. cbn [app]. rewrite take_app_le by (rewrite length_take; lia).
    rewrite take_take, Nat.min_l, parse_info_table_header_take by lia. by rewrite (ta_header _ _ _ Hta). }
  apply wp_ret. rewrite !u32_small by lia. split; [|lia]. exists (k + 1).
  split_and!; [lia|lia|lia|lia|lia| |symmetry; apply Z.eqb_neq; lia|apply Hfin|apply Hfin|].
  - intros _. destruct (Z.eqb_spec k 0) as [->|]; [lia|apply Hstart; lia].
  - done.
Qed.

(** A table cannot start at a block that is passed over: the walk over [nblk] blocks then
    finds too few. *)
Lemma load_table_skipped ba s :
  st_ok g s -> Z.of_nat (length (info_table_cache (ni s))) = its -> 0 <= ba ->
  ba + nblk <= block_count g -> skipped s ba ->
  wp (load_info_table_cache ba) (fun r s' => r = None /\ scan_rel (in_try ba) s s') s.
Proof using Hg Hl Hr Hes.
  intros Hs Hc Hba Hlim Hskip. unfold load_info_table_cache.
  apply wp_bind, wp_gets. rewrite (st_geo _ _ Hs). change (size2blk g its) with nblk.
  destruct (nblk_bounds g Hg) as [Hnb Hn]. pose proof (geo_count g Hg). pose proof (erasesize_pos g Hg).
  pose proof (erasesize_lt g Hg). pose proof (geo_table g Hg) as Ht. unfold sizeof_nmbm_info_table_header in Ht, Hes.
  rewrite (u32_small (ba + nblk)) by lia. replace (ba + nblk - ba) with nblk by lia.
  apply (wp_loop
    (fun '(b, off, rem, start, chk) s' => exists k j, b = ba + k /\ 0 <= k <= nblk /\
       off = j * es /\ rem = its - off /\ 0 <= j /\ (k = 0 /\ j = 0 /\ chk = true \/ 0 < k /\ j < k) /\
       scan_rel (in_try ba) s s')
    (fun '(b, _, _, _, _) _ => Z.to_nat (ba + nblk - b)));
    [|exists 0, 0; split_and!; (lia || by apply scan_refl)|cbn; lia].
  intros [[[[b off] rem] start] chk] s1 (k & j & -> & Hk & -> & -> & Hj & Hkj & Hsc).
  pose proof (sc_ok _ _ _ Hsc) as Hs1. assert (0 < its - j * es) as Hrem by nia.
  destruct (Z.eqb_spec (its - j * es) 0) as [|_]; [lia|]. cbn [negb andb].
  destruct (Z.ltb_spec (ba + k) (ba + nblk)); [|by apply wp_ret].
  assert (in_try ba (ba + k)) as Hin by (unfold blocks_in; lia).
  assert (forall j' chk' s2, scan_rel (in_try ba) s1 s2 -> 0 <= j' <= k -> j' = j \/ True ->
    (exists k0 j0, u32 (ba + k + 1) = ba + k0 /\ 0 <= k0 <= nblk /\ j' * es = j0 * es /\
      its - j' * es = its - j' * es /\ 0 <= j0 /\ (k0 = 0 /\ j0 = 0 /\ chk' = true \/ 0 < k0 /\ j0 < k0) /\
      scan_rel (in_try ba) s s2) /\
    (Z.to_nat (ba + nblk - u32 (ba + k + 1)) < Z.to_nat (ba + nblk - (ba + k)))%nat) as Hnext.
  { intros j' chk' s2 Hsc2 Hj' _. rewrite u32_small by lia. split; [|lia]. exists (k + 1), j'.
    split_and!; try lia. by eapply scan_trans. }
  apply wp_bind, (wp_get_block_state g Hg); [done|lia|].
  destruct (Z.eqb_spec (bstate (block_state (ni s1)) (ba + k)) BLOCK_ST_GOOD) as [Hgood|]; cbn [negb].
  2:{ apply wp_ret. apply (Hnext j chk); [by apply scan_refl|lia|by left]. }
  apply wp_bind. wp_call (check_bad_ok g Hg page bad sound); [done|lia|]. intros r s2 (-> & Hni2 & Hrel2).
  pose proof (scan_chip (in_try ba) _ _ Hs1 Hrel2) as Hsc2. pose proof (sc_ok _ _ _ Hsc2) as Hs2.
  destruct (bad (dev s1) (ba + k)) eqn:Hbad.
  { apply wp_bind. wp_call (scan_set_bad (in_try ba) s2 (ba + k)); [done|lia|done|by rewrite Hni2| |].
    { by rewrite (proj1 (kept_chip g page bad sound _ _ Hrel2 (ba + k))). }
    intros _ s3 Hsc3. apply wp_ret. apply (Hnext j chk); [by eapply scan_trans|lia|by left]. }
  set (n := if its - j * es >? es then es else its - j * es).
  assert (n = Z.min es (its - j * es)) as En by (unfold n; rewrite Z.gtb_ltb; destruct (Z.ltb_spec es (its - j * es)); lia).
  assert (Z.of_nat (length (info_table_cache (ni s1))) = its) as Hc1 by (rewrite (sc_cache _ _ _ Hsc); done).
  apply wp_bind, wp_gets. rewrite Hni2, in_bounds_true by lia. cbn [negb].
  assert (bad (dev s2) (ba + k) = false) as Hbad2
    by (by rewrite (proj1 (kept_chip g page bad sound _ _ Hrel2 (ba + k)))).
  destruct (stored_some (dev s2) ((ba + k) * es) (Z.to_nat n) ltac:(nia)) as (l & Hll & Hst).
  apply wp_bind. rewrite <- Hni2 at 1. wp_call (wp_read_table_block s2 (ba + k) (j * es) n l);
    [done|by rewrite Hni2|lia|done|lia|lia|lia|done|lia|].
  intros [r d] s3 (-> & -> & Hrel3). pose proof (scan_chip (in_try ba) _ _ Hs2 Hrel3) as Hsc3.
  apply wp_bind, wp_modify. cbn [Z.ltb Z.compare Z.gtb].
  set (c' := blit _ _ l). assert (length c' = length (info_table_cache (ni s3))) as Hlc.
  { rewrite (sc_cache _ _ _ Hsc3), Hni2. unfold c'. rewrite length_blit; lia. }
  pose proof (scan_cache (in_try ba) s3 c' (sc_ok _ _ _ Hsc3) Hlc) as Hsc4.
  assert (scan_rel (in_try ba) s1 (set_ni (set_info_table_cache c') s3)) as Hsc5
    by (eapply scan_trans; [exact Hsc2|]; by eapply scan_trans).
  destruct (chk && negb _) eqn:Ehdr; [apply wp_ret; split; [done|by eapply scan_trans]|].
  assert (0 < k) as Hk0.
  { destruct Hkj as [(-> & -> & ->)|[? _]]; [|done]. exfalso. cbn [andb] in Ehdr.
    apply negb_false_iff in Ehdr. rewrite Z.add_0_r in *.
    pose proof (skipped_scan (in_try ba) s s1 ba ltac:(lia) Hsc Hskip Hgood Hbad) as Hno.
    rewrite <- parse_info_table_header_take in Ehdr. unfold no_header in Hno.
    rewrite Hno in Ehdr; [done| |].
    - rewrite length_take, length_drop, Hlc, (sc_cache _ _ _ Hsc3), Hni2. lia.
    - change (Z.to_nat (0 * es)) with 0%nat. rewrite drop_0. unfold c', blit.
      change (Z.to_nat (0 * es)) with 0%nat. rewrite take_0. cbn [app]. rewrite take_app_le by lia.
      apply stored_take. intros i v Hi%Hst. rewrite <- Hi. symmetry.
      apply (cbyte_steps g Hg page bad sound none); [apply Hrel2|nia|by intros []]. }
  assert (j < k) as Hjk by lia. assert (n = es) as -> by nia.
  apply wp_ret. rewrite (u32_small (its - j * es - es)) by lia.
  replace (j * es + es) with ((j + 1) * es) by lia.
  replace (its - j * es - es) with (its - (j + 1) * es) by lia.
  apply (Hnext (j + 1) false); [done|lia|by right].
Qed.

(** * Checking and taking over a table *)

(** The lowest spare block that is in use, [sba] when there is none. *)
Definition spare_min (sba end_ : Z) (l : list Z) : Z :=
  foldl (fun acc m => if (end_ <=? m) && (m <? acc) then m else acc) sba l.

Lemma spare_min_range sba end_ l : spare_min sba end_ l <= sba /\ (end_ <= sba -> end_ <= spare_min sba end_ l).
Proof using.
  unfold spare_min. revert sba. induction l as [|m l IH]; intros sba; cbn; [lia|].
  destruct (Z.leb_spec end_ m), (Z.ltb_spec m sba); cbn; specialize (IH (if decide (end_ <= m /\ m < sba) then m else sba));
    destruct (decide _); lia.
Qed.

Lemma spare_min_Forall sba end_ end' l :
  Forall (fun m => m < end_ <-> m < end') l -> spare_min sba end_ l = spare_min sba end' l.
Proof using.
  unfold spare_min. intros H. revert sba. induction H as [|m l Hm _ IH]; intros sba; [done|]. cbn.
  replace (end' <=? m) with (end_ <=? m); [apply IH|].
  destruct (Z.leb_spec end_ m), (Z.leb_spec end' m); lia.
Qed.

Section table.
Context (it : nmbm_info_table_header) (bs bm : list Z).
Abbreviation img := (table_image g it bs bm).

(** A table the tool has written. *)
Record table_ok : Prop := {
  to_layout : table_layout g it;
  to_header : ift_ok it;
  to_size : hdr_size (ift_header it) = its;
  to_magic : magic (ift_header it) = NMBM_MAGIC_INFO_TABLE;
  to_states : bs_ok g bs;
  to_length : Z.of_nat (length bm) = block_count g;
  to_range : Forall (fun m => - 2 ^ 31 <= m < 2 ^ 31) bm
}.
Context (Htab : table_ok).

Lemma image_parsed :
  let h := parse_info_table_header img in
  nmbm_check_header img its = true /\ nmbm_check_info_table_header g h = true /\
  write_count h = write_count it /\ state_table_off h = state_table_off it /\
  mapping_table_off h = mapping_table_off it.
Proof using Hg Htab L.
  destruct Htab as [T1 T2 T3 T4 T5 T6 T7]. pose proof T2 as [_ _ U1 U2 _]. pose proof T1 as [].
  destruct (image_header g Hg it bs bm T1 T2 T3) as (H1 & H2 & _ & H3 & H4 & H5 & H6).
  split_and!; try done. apply check_info_table_header_intro; rewrite ?H5, ?H6; try done.
  - by rewrite H2.
  - split; by rewrite ?H5, ?H6.
Qed.

Lemma length_image : Z.of_nat (length img) = its.
Proof using Hg Htab.
  destruct (length_image_body g Hg it bs bm (to_layout Htab)) as [E _].
  pose proof (geo_table g Hg) as Ht. unfold sizeof_nmbm_info_table_header in Ht.
  unfold table_image. rewrite length_update_checksum by lia. done.
Qed.

Lemma wp_table_word off (Q : Z -> nst chip -> Prop) s :
  info_table_cache (ni s) = img -> 0 <= off -> off + 4 <= its -> Q (le_field img off 4) s ->
  wp (table_word off) Q s.
Proof using Hg Htab.
  intros Hc H1 H2 HQ. unfold table_word. apply wp_bind, wp_gets. rewrite Hc.
  rewrite in_bounds_true by (rewrite ?length_image; lia). by apply wp_ret.
Qed.

(** The entries of the mapping table, for [dbc] logic blocks: no block, a data block, or a
    spare block behind the tables. *)
Definition entries_ok (dbc end_ sba : Z) : Prop :=
  forall i m, Z.of_nat i < dbc -> bm !! i = Some m -> m < 0 \/ m < dbc \/ end_ <= m < sba.

Lemma u32_entry i m : bm !! i = Some m -> u32 m = m /\ 0 <= m \/ m < 0 /\ 2 ^ 31 <= u32 m.
Proof using Htab.
  intros Hi. pose proof (Forall_lookup_1 _ _ _ _ (to_range Htab) Hi) as Hm. cbn in Hm.
  destruct (Z_lt_le_dec m 0); [right|left; rewrite u32_small; lia]. split; [done|].
  unfold u32. rewrite <- (Z.mod_add m 1) by lia. rewrite Z.mod_small by lia. lia.
Qed.

Lemma check_info_table_ok start end_ s :
  st_ok g s -> info_table_cache (ni s) = img ->
  0 <= data_block_count (ni s) <= signature_ba (ni s) -> 0 <= start <= end_ -> end_ <= block_count g ->
  0 < signature_ba (ni s) < block_count g ->
  entries_ok (data_block_count (ni s)) end_ (signature_ba (ni s)) ->
  (forall b, blocks_in start end_ b -> good bs b) ->
  wp (nmbm_check_info_table start end_)
    (fun r s' => s' = s /\ r = Some (u32 (spare_min (signature_ba (ni s)) end_
       (take (Z.to_nat (data_block_count (ni s))) bm) - 1))) s.
Proof using Hg Htab L.
  intros Hs Hc Hdbc Hstart Hend Hsba Hent Hgood. unfold nmbm_check_info_table.
  destruct image_parsed as (_ & _ & _ & Hso & Hmo). pose proof (to_layout Htab) as [L1 L2 L3].
  pose proof (geo_count g Hg). pose proof (geo_mapping g Hg). pose proof (to_length Htab) as Hbml.
  pose proof (state_table_words bs (to_states Htab)) as Hstw. pose proof (table_sizes_nonneg g Hg).
  set (dbc := data_block_count (ni s)) in *. set (sba := signature_ba (ni s)) in *.
  apply wp_bind, wp_gets, wp_bind, wp_gets, wp_bind, wp_gets. rewrite Hc, Hso, Hmo. fold dbc sba.
  apply wp_bind.
  apply (wp_loop
    (fun '(b, minimum) s' => s' = s /\ 0 <= b <= dbc /\ minimum = spare_min sba end_ (take (Z.to_nat b) bm))
    (fun '(b, _) _ => Z.to_nat (dbc - b))); [|by split_and!; lia || done|cbn; lia].
  intros [b minimum] s1 (-> & Hb & ->). destruct (Z.ltb_spec b dbc).
  - destruct (lookup_lt_is_Some_2 bm (Z.to_nat b)) as [m Hm]; [lia|].
    apply wp_bind, wp_table_word; [done|lia|lia|].
    replace (4 * b) with (4 * Z.of_nat (Z.to_nat b)) by lia.
    rewrite (image_mapping_word it bs bm (to_layout Htab) _ _ Hbml Hm).
    specialize (Hent (Z.to_nat b) m ltac:(lia) Hm). pose proof (spare_min_range sba end_ (take (Z.to_nat b) bm)) as [Hmin _].
    assert ((u32 m >=? dbc) && (u32 m <? end_) || (u32 m =? sba) = false) as ->.
    { rewrite Z.geb_leb. destruct (u32_entry _ _ Hm) as [[-> ?]|[? ?]];
        repeat match goal with |- context [?a <=? ?b] => destruct (Z.leb_spec a b) end;
        repeat match goal with |- context [?a <? ?b] => destruct (Z.ltb_spec a b) end;
        repeat match goal with |- context [?a =? ?b] => destruct (Z.eqb_spec a b) end; lia || done. }
    apply wp_ret. rewrite u32_small by lia. split; [|lia]. split_and!; [done|lia|lia|].
    replace (Z.to_nat (b + 1)) with (S (Z.to_nat b)) by lia. rewrite (take_S_r _ _ _ Hm).
    unfold spare_min at 3. rewrite foldl_app. cbn. fold (spare_min sba end_ (take (Z.to_nat b) bm)).
    rewrite Z.geb_leb. destruct (u32_entry _ _ Hm) as [[-> ?]|[? ?]]; [done|].
    repeat match goal with |- context [?a <=? ?b] => destruct (Z.leb_spec a b) end;
    repeat match goal with |- context [?a <? ?b] => destruct (Z.ltb_spec a b) end; cbn; lia || done.
  - assert (b = dbc) as -> by lia. apply wp_ret. cbn beta iota.
    apply (wp_loop (fun b s' => s' = s /\ start <= b <= end_) (fun b _ => Z.to_nat (end_ - b))); [|split; [done|lia]|lia].
    intros b s1 [-> Hb1]. destruct (Z.ltb_spec b end_); [|by apply wp_ret].
    apply wp_bind, (wp_get_block_state g Hg); [done|lia|].
    rewrite u32_small by lia. destruct (negb _); [apply wp_ret; split; [split; [done|lia]|lia]|].
    apply wp_bind. unfold table_block_state. change (b / NMBM_BITMAP_BLOCKS_PER_UNIT) with (b / 16).
    rewrite bitmap_shift. pose proof (bitmap_unit_lt g Hg bs b (to_states Htab) ltac:(lia)) as Hu.
    destruct (lookup_lt_is_Some_2 bs (Z.to_nat (b / 16))) as [w Hw]; [lia|].
    apply wp_bind, wp_table_word; [done|lia|lia|]. apply wp_ret.
    replace (4 * (b / 16)) with (4 * Z.of_nat (Z.to_nat (b / 16))) by lia.
    rewrite (image_state_word it bs bm (to_layout Htab) _ _ (to_states Htab) Hw).
    pose proof (Forall_lookup_1 _ _ _ _ (bs_words _ _ (to_states Htab)) Hw) as Hwr. cbn in Hwr.
    assert (good bs b) as Hgb by (apply Hgood; unfold blocks_in; lia).
    unfold good, bstate in Hgb. rewrite (nth_lookup_Some _ _ _ _ Hw) in Hgb.
    change BLOCK_ST_MASK with 3. rewrite u32_small, Hgb by done. cbn.
    apply wp_ret. split; [split; [done|lia]|lia].
Qed.

(** The instance with the tables taken over. *)
Definition adopt (n : nmbm_instance chip) : nmbm_instance chip :=
  set_block_mapping bm (set_block_state bs (set_info_table (parse_info_table_header img) n)).

(** What the checks of the loader need of the instance. *)
Record checks_ok (s : nst chip) (start end_ : Z) : Prop := {
  ck_dbc : 0 <= data_block_count (ni s) <= signature_ba (ni s);
  ck_sba : 0 < signature_ba (ni s) < block_count g;
  ck_entries : entries_ok (data_block_count (ni s)) end_ (signature_ba (ni s));
  ck_good b : blocks_in start end_ b -> good bs b
}.

Definition found_top (s : nst chip) (end_ : Z) : Z :=
  spare_min (signature_ba (ni s)) end_ (take (Z.to_nat (data_block_count (ni s))) bm) - 1.

Lemma checks_scan R s s' a e : scan_rel R s s' -> checks_ok s a e -> checks_ok s' a e.
Proof using.
  intros [_ _ A3 _ _ _] [C1 C2 C3 C4].
  assert (data_block_count (ni s') = data_block_count (ni s) /\ signature_ba (ni s') = signature_ba (ni s))
    as [E1 E2] by (rewrite A3; done).
  split; rewrite ?E1, ?E2; done.
Qed.

Lemma found_top_scan R s s' e : scan_rel R s s' -> found_top s' e = found_top s e.
Proof using. intros [_ _ A3 _ _ _]. unfold found_top. by rewrite A3. Qed.

Lemma found_top_range s e :
  e <= signature_ba (ni s) -> 0 < e -> signature_ba (ni s) < 2 ^ 29 ->
  e - 1 <= found_top s e < signature_ba (ni s) /\ u32 (found_top s e) = found_top s e.
Proof using.
  intros H1 H2 H3. unfold found_top.
  destruct (spare_min_range (signature_ba (ni s)) e (take (Z.to_nat (data_block_count (ni s))) bm)) as [H4 H5].
  specialize (H5 H1). rewrite u32_small by lia. lia.
Qed.

Lemma try_load_ok ba loaded s :
  st_ok g s -> Z.of_nat (length (info_table_cache (ni s))) = its -> table_at s ba img ->
  checks_ok s ba (ba + nblk) ->
  wp (nmbm_try_load_info_table ba loaded)
    (fun r s' => r = Some (ba + nblk, write_count it, u32 (found_top s (ba + nblk))) /\
       exists s1, scan_rel (in_try ba) s s1 /\ block_state (ni s1) = block_state (ni s) /\
         s' = if negb loaded || (write_count it >? write_count (info_table (ni s)))
              then mk_nst (adopt (ni s1)) (dev s1) else s1) s.
Proof using Hg Hl Hr Hes Htab L.
  intros Hs Hc Hta Hck. unfold nmbm_try_load_info_table. destruct (nblk_bounds g Hg) as [_ Hn].
  apply wp_bind, wp_gets, wp_bind. wp_call (load_table_ok ba img); [done|done|done|].
  intros r s1 (-> & Hsc & Hbs & Hcache). apply wp_bind, wp_gets.
  destruct image_parsed as (P1 & P2 & P3 & P4 & P5). rewrite (st_geo _ _ Hs), Hcache, P1. cbn [negb].
  destruct (ta_range _ _ _ Hta) as [R1 R2]. pose proof (checks_scan _ _ _ _ _ Hsc Hck) as [C1 C2 C3 C4].
  apply wp_bind. wp_call (check_info_table_ok ba (ba + nblk)); [apply Hsc|done|done|lia|done|done|done|done|].
  intros r s2 [-> ->]. cbn beta iota. apply wp_bind, wp_gets, wp_bind. rewrite P3, P4, P5.
  assert (write_count (info_table (ni s1)) = write_count (info_table (ni s))) as -> by (by rewrite (sc_ni _ _ _ Hsc)).
  change (spare_min _ _ _ - 1) with (found_top s1 (ba + nblk)). rewrite (found_top_scan _ _ _ _ Hsc).
  destruct (negb loaded || _); [|apply wp_ret, wp_ret; split; [done|by exists s1]].
  pose proof (to_layout Htab) as [L1 L2 L3]. pose proof (table_sizes_nonneg g Hg). pose proof length_image.
  rewrite !in_bounds_true by lia. cbn [negb andb].
  apply wp_bind, wp_modify, wp_bind, wp_modify, wp_modify, wp_ret. split; [done|]. exists s1.
  split_and!; [done|done|]. unfold set_ni, adopt. cbn [ni dev]. rewrite <- P4 at 1. rewrite P4.
  rewrite image_state by (done || apply Htab). by rewrite image_mapping by (done || apply Htab).
Qed.

Lemma try_load_skipped ba loaded s :
  st_ok g s -> Z.of_nat (length (info_table_cache (ni s))) = its -> 0 <= ba ->
  ba + nblk <= block_count g -> skipped s ba ->
  wp (nmbm_try_load_info_table ba loaded) (fun r s' => r = None /\ scan_rel (in_try ba) s s') s.
Proof using Hg Hl Hr Hes.
  intros Hs Hc Hba Hlim Hsk. unfold nmbm_try_load_info_table. apply wp_bind, wp_gets, wp_bind.
  wp_call load_table_skipped; [done..|]. by intros r s1 [-> Hsc].
Qed.

(** The search finds the table at [b]. *)
Lemma search_ok a b limit loaded s :
  st_ok g s -> Z.of_nat (length (info_table_cache (ni s))) = its -> table_at s b img ->
  0 <= a <= b -> b + nblk < limit -> limit < block_count g -> (forall x, a <= x < b -> skipped s x) ->
  checks_ok s b (b + nblk) ->
  wp (nmbm_search_info_table a limit loaded)
    (fun r s' => r = Some (b, b + nblk, write_count it, u32 (found_top s (b + nblk))) /\
       exists s1, scan_rel (blocks_in a (b + nblk)) s s1 /\
         s' = if negb loaded || (write_count it >? write_count (info_table (ni s)))
              then mk_nst (adopt (ni s1)) (dev s1) else s1) s.
Proof using Hg Hl Hr Hes Htab L.
  intros Hs Hc Hta Hab Hlim Hbc Hskip Hck. unfold nmbm_search_info_table. apply wp_bind, wp_gets.
  rewrite (st_geo _ _ Hs). change (size2blk g its) with nblk. destruct (nblk_bounds g Hg) as [_ Hn].
  pose proof (geo_count g Hg). rewrite u32_small by lia. set (R := blocks_in a (b + nblk)).
  apply (wp_loop (fun x s' => a <= x <= b /\ scan_rel R s s') (fun x _ => Z.to_nat (b - x)));
    [|split; [lia|by apply scan_refl]|lia].
  intros x s1 [Hx Hsc]. destruct (Z.ltb_spec x (limit - nblk)); [|lia].
  assert (Z.of_nat (length (info_table_cache (ni s1))) = its) as Hc1 by (by rewrite (sc_cache _ _ _ Hsc)).
  apply wp_bind. destruct (Z.eq_dec x b) as [->|Hne].
  - wp_call (try_load_ok b loaded s1); [apply Hsc|done|by eapply table_at_scan|by eapply checks_scan|].
    intros r s2 (-> & s3 & Hsc3 & _ & ->). apply wp_ret. rewrite (found_top_scan _ _ _ _ Hsc).
    assert (write_count (info_table (ni s1)) = write_count (info_table (ni s))) as -> by (by rewrite (sc_ni _ _ _ Hsc)).
    split; [done|]. exists s3. split; [|done]. eapply scan_trans; [exact Hsc|].
    eapply scan_mono; [|exact Hsc3]. unfold R, blocks_in. lia.
  - wp_call (try_load_skipped x loaded s1);
      [apply Hsc|done|lia|lia|eapply skipped_scan; [|exact Hsc|apply Hskip; lia]; lia|].
    intros r s2 [-> Hsc2]. apply wp_ret. rewrite u32_small by lia. split; [|lia]. split; [lia|].
    eapply scan_trans; [exact Hsc|]. eapply scan_mono; [|exact Hsc2]. unfold R, blocks_in. lia.
Qed.

(** * Loading both tables *)

(** The chip holds the table twice, at [M] and at [B]; nothing in front of and between the
    two looks like a table. *)
Record on_chip (c : chip) (mgmt sba M B : Z) : Prop := {
  oc_order : 0 < mgmt <= M /\ M + nblk <= B /\ B + nblk < sba < block_count g;
  oc_main : stored c (M * es) img;
  oc_backup : stored c (B * es) img;
  oc_blocks b : in_try M b \/ in_try B b -> bad c b = false /\ good bs b;
  oc_before b : mgmt <= b < M -> bad c b = false -> no_header c b;
  oc_between b : M + nblk <= b < B -> good bs b -> bad c b = false /\ no_header c b;
  oc_entries : entries_ok mgmt (B + nblk + 1) sba
}.

(** The block below the lowest spare block in use. *)
Definition loaded_top (mgmt sba B : Z) : Z :=
  spare_min sba (B + nblk + 1) (take (Z.to_nat mgmt) bm) - 1.

Lemma loaded_top_range c mgmt sba M B :
  on_chip c mgmt sba M B -> B + nblk <= loaded_top mgmt sba B < sba.
Proof using.
  intros [O1 _ _ _ _ _ _]. unfold loaded_top.
  destruct (spare_min_range sba (B + nblk + 1) (take (Z.to_nat mgmt) bm)) as [H1 H2]. lia.
Qed.

Lemma entries_top mgmt sba B e :
  entries_ok mgmt (B + nblk + 1) sba -> mgmt <= e <= B + nblk + 1 ->
  spare_min sba e (take (Z.to_nat mgmt) bm) = spare_min sba (B + nblk + 1) (take (Z.to_nat mgmt) bm).
Proof using.
  intros He Hr'. apply spare_min_Forall, Forall_lookup_2. intros i m [Hi Hlt]%lookup_take_Some.
  specialize (He i m ltac:(lia) Hi). lia.
Qed.

Lemma entries_weaken mgmt sba e e' : entries_ok mgmt e sba -> e' <= e -> entries_ok mgmt e' sba.
Proof using. intros H ? i m Hi Hm. specialize (H i m Hi Hm). lia. Qed.

(** One past the last logic block with a physical block. *)
Record mapped_end (mgmt k : Z) : Prop := {
  me_range : 0 < k <= mgmt;
  me_mapped : exists m, bm !! Z.to_nat (k - 1) = Some m /\ 0 <= m;
  me_rest i m : k <= Z.of_nat i < mgmt -> bm !! i = Some m -> m < 0
}.

Lemma load_data_block_count_ok mgmt k s :
  mapped_end mgmt k -> mgmt <= block_count g -> block_mapping (ni s) = bm ->
  wp (load_data_block_count (chip:=chip) mgmt) (fun _ s' => s' = set_ni (set_data_block_count k) s) s.
Proof using Htab.
  intros [K1 (m0 & K2 & K3) K4] Hm Hbm. unfold load_data_block_count. pose proof (to_length Htab).
  apply (wp_loop (fun i s' => s' = s /\ k <= i <= mgmt) (fun i _ => Z.to_nat i)); [|split; [done|lia]|lia].
  intros i s1 [-> Hi]. rewrite Z.gtb_ltb. destruct (Z.ltb_spec 0 i); [|lia].
  apply wp_bind, wp_gets, wp_bind. rewrite Hbm. apply wp_arr_get; [lia|]. intros m Hm'.
  rewrite Z.geb_leb. destruct (Z.eq_dec i k) as [->|Hne].
  - rewrite K2 in Hm'. injection Hm' as <-. destruct (Z.leb_spec 0 m0); [|lia].
    by apply wp_bind, wp_modify, wp_ret.
  - specialize (K4 (Z.to_nat (i - 1)) m ltac:(lia) Hm'). destruct (Z.leb_spec 0 m); [lia|].
    apply wp_ret. split; [split; [done|lia]|lia].
Qed.

(** The loaded instance. *)
Record restored (s s' : nst chip) (mgmt sba M B k : Z) : Prop := {
  rs_dev : dev_steps g none (dev s) (dev s');
  rs_mapping : block_mapping (ni s') = bm;
  rs_states : block_state (ni s') = bs;
  rs_tables : (main_table_ba (ni s'), backup_table_ba (ni s'), mapping_blocks_ba (ni s')) = (M, B, B + nblk);
  rs_area : (mgmt_start_ba (ni s'), mapping_blocks_top_ba (ni s')) = (mgmt, loaded_top mgmt sba B);
  rs_frame : (signature (ni s'), signature_ba (ni s'), data_block_count (ni s')) = (signature (ni s), sba, k);
  rs_protected : protected (ni s') = if B + nblk =? loaded_top mgmt sba B then 1 else protected (ni s);
  rs_base : base_ok g s'
}.

(** A step of the loader, with the instance spelled out. *)
Lemma scan_ni R s s' : scan_rel R s s' -> exists pc tc bs' sc,
  ni s' = set_page_cache pc (set_info_table_cache tc (set_block_state bs' (set_block_state_changed sc (ni s)))).
Proof using. intros [_ _ A3 _ _ _]. eauto. Qed.

Lemma adopt_st s d : st_ok g s -> table_ok -> st_ok g (mk_nst (adopt (ni s)) d).
Proof using. intros [G1 G2 G3 G4] HT. split; cbn; try done. apply HT. Qed.

(** The last part of the loader, with the tables found and the instance up to date. *)
Lemma load_sync_ok wc s mba top :
  base_ok g s -> flag_set g NMBM_F_READ_ONLY = false -> backup_table_ba (ni s) <> 0 ->
  mapping_blocks_ba (ni s) = mba -> mapping_blocks_top_ba (ni s) = top ->
  wp (load_sync_tables wc wc)
    (fun r s' => r = true /\ base_ok g s' /\ dev s' = dev s /\ block_state (ni s') = block_state (ni s) /\
       keep (ni s') = keep (ni s) /\
       tabs (ni s') = (main_table_ba (ni s), backup_table_ba (ni s), mba,
                       if mba =? top then 1 else protected (ni s))) s.
Proof using Hg.
  intros Hs Hro Hb Hm Ht. unfold load_sync_tables. apply wp_bind, wp_gets. rewrite (st_geo _ _ (bo_st _ _ Hs)).
  apply wp_bind, (wp_generate g Hg); [done|]. cbn zeta.
  pose proof (generate_base_rel g Hg s Hs) as [Hgen _]. cbn zeta in Hgen. apply rel_ok in Hgen.
  rewrite Hro. apply wp_bind, wp_gets. cbn [ni backup_table_ba set_info_table_cache set_info_table].
  destruct (Z.eqb_spec (backup_table_ba (ni s)) 0); [done|]. rewrite Z.eqb_refl. cbn [negb].
  apply wp_bind, wp_ret, wp_bind, wp_gets, wp_bind, wp_gets.
  cbn [ni mapping_blocks_ba mapping_blocks_top_ba set_info_table_cache set_info_table]. rewrite Hm, Ht.
  destruct (mba =? top); [apply wp_bind, wp_modify|]; apply wp_ret; unfold set_ni, keep, tabs; cbn.
  - split_and!; try done; [|congruence]. destruct Hgen as [[] H2 H3 H4 H5 H6]. by split.
  - split_and!; try done; congruence.
Qed.

Lemma on_chip_none c c' mgmt sba M B : dev_steps g none c c' -> on_chip c mgmt sba M B -> on_chip c' mgmt sba M B.
Proof using Hg Hr Hes.
  intros Hs [(O1 & O2 & O3) O4 O5 O6 O7 O8 O9]. pose proof (erasesize_pos g Hg). pose proof (nblk_bounds g Hg).
  pose proof (kept_none g page bad sound _ _ Hs) as Hk.
  split; [done| | | | | |done].
  - apply (stored_none g Hg page bad sound c); [done|nia|done].
  - apply (stored_none g Hg page bad sound c); [done|nia|done].
  - intros b Hb. rewrite (proj1 (Hk b)). by apply O6.
  - intros b Hb. rewrite (proj1 (Hk b)). intros Hbad. eapply no_header_none; [done|lia|by apply O7].
  - intros b Hb Hgb. rewrite (proj1 (Hk b)). destruct (O8 b Hb Hgb). split; [done|].
    eapply no_header_none; [done|lia|done].
Qed.

(** The instance after the first table has been found. *)
Record half_loaded (s : nst chip) (sig : nmbm_signature) (sba : Z) : Prop := {
  hl_st : st_ok g s;
  hl_cache : Z.of_nat (length (info_table_cache (ni s))) = its;
  hl_tables : (info_table (ni s), block_state (ni s), block_mapping (ni s)) = (parse_info_table_header img, bs, bm);
  hl_signature : (signature (ni s), signature_ba (ni s)) = (sig, sba);
  hl_area : (mgmt_start_ba (ni s), data_block_count (ni s)) = (mgmt_start_pb sig, mgmt_start_pb sig)
}.

Lemma half_loaded_main s sig sba m :
  half_loaded s sig sba -> half_loaded (set_ni (set_main_table_ba m) s) sig sba.
Proof using. intros [[] H2 H3 H4 H5]. by split. Qed.

Lemma load_second_ok s sig sba M B k :
  half_loaded s sig sba -> flag_set g NMBM_F_READ_ONLY = false ->
  on_chip (dev s) (mgmt_start_pb sig) sba M B -> mapped_end (mgmt_start_pb sig) k ->
  wp (load_second_table M (M + nblk) (write_count it) (loaded_top (mgmt_start_pb sig) sba B) sba)
    (fun r s' => r = true /\ restored s s' (mgmt_start_pb sig) sba M B k) s.
Proof using Hg Hl Hr Hes Htab L.
  intros Hh Hro Hoc Hk. pose proof (loaded_top_range _ _ _ _ _ Hoc) as Htop.
  pose proof Hoc as [(O1 & O2 & O3) Omain Oback Oblk Obef Obet Oent]. destruct (nblk_bounds g Hg) as [_ Hn].
  pose proof (geo_count g Hg). destruct image_parsed as (_ & Himg & Hwc & Hso & Hmo).
  unfold load_second_table. apply wp_bind, wp_gets.
  pose proof (hl_signature _ _ _ Hh) as [= Esig _]. rewrite Esig. apply wp_bind, wp_modify.
  pose proof (half_loaded_main _ _ _ M Hh) as Hh'. change (dev s) with (dev (set_ni (set_main_table_ba M) s)) in *.
  assert (main_table_ba (ni (set_ni (set_main_table_ba M) s)) = M) as EM by done.
  assert (protected (ni (set_ni (set_main_table_ba M) s)) = protected (ni s)) as Ep by done.
  assert (dev (set_ni (set_main_table_ba M) s) = dev s) as Ed by done.
  revert EM Ep Ed Hh' Hoc Omain Oback Oblk Obef Obet. generalize (set_ni (set_main_table_ba M) s). clear Hh.
  intros s2 EM Ep Ed [Hs2 Hc2 [= Eit Ebs Ebm] [= Esig2 Esba] [= Emgmt Edbc]] Hoc Omain Oback Oblk Obef Obet.
  set (mgmt := mgmt_start_pb sig) in *.
  assert (forall b, B <= b < B + nblk -> bad (dev s2) b = false /\ good bs b) as OB by (intros; apply Oblk; by right).
  assert (table_at s2 B img) as HtB.
  { split; [lia| | |apply length_image|done|done]; intros b Hb; [rewrite Ebs|]; by apply OB. }
  apply wp_bind. wp_call (search_ok (M + nblk) B sba true s2); [done|done|done|lia|lia|lia| | |].
  { intros x Hx Hgx _. rewrite Ebs in Hgx. by apply Obet. }
  { split; rewrite ?Edbc, ?Esba; [lia|lia| |intros b Hb; by apply OB]. eapply entries_weaken; [exact Oent|lia]. }
  assert (found_top s2 (B + nblk) = loaded_top mgmt sba B) as Eft2.
  { unfold found_top, loaded_top. rewrite Esba, Edbc. f_equal. apply (entries_top mgmt sba B); [done|lia]. }
  intros r s3 (-> & s3' & Hsc3 & ->). rewrite Eft2, (u32_small (loaded_top mgmt sba B)) by lia.
  rewrite Eit, Hwc, Z.gtb_ltb, Z.ltb_irrefl, Z.geb_leb, Z.leb_refl. cbn [negb orb].
  destruct (Z.eqb_spec B 0) as [|_]; [lia|].
  apply wp_bind, wp_modify, wp_bind, wp_modify, wp_bind, wp_modify.
  assert (block_state (ni s3') = bs) as Ebs3.
  { rewrite (sc_clean _ _ _ Hsc3); [done|]. rewrite Ebs. intros b Hb Hgb. unfold blocks_in in Hb.
    destruct (Z_lt_le_dec b B); [apply Obet; [lia|done]|apply OB; lia]. }
  pose proof (to_layout Htab) as [L1 L2 L3]. pose proof (table_sizes_nonneg g Hg).
  assert (block_mapping (ni s3') = bm) as Ebm3 by (by rewrite (sc_ni _ _ _ Hsc3)).
  apply wp_bind. wp_call (load_data_block_count_ok mgmt k); [done|lia|exact Ebm3|]. intros [] s4 ->.
  assert (exists n, ni s3' = n /\ signature n = sig /\ signature_ba n = sba /\ mgmt_start_ba n = mgmt /\
    main_table_ba n = M /\ info_table n = parse_info_table_header img /\ protected n = protected (ni s)) as
    (n & En & En1 & En2 & En3 & En4 & En5 & En6).
  { exists (ni s3'). rewrite (sc_ni _ _ _ Hsc3). by split_and!. }
  pose proof (sc_ok _ _ _ Hsc3) as [G1 G2 G3 G4]. pose proof (sc_cache _ _ _ Hsc3) as Hc3.
  unfold set_ni. cbn [ni dev]. rewrite En in *. set (s4 := mk_nst _ (dev s3')).
  assert (base_ok g s4) as Hs4.
  { split; [by split|..]; cbn -[parse_info_table_header]; rewrite ?En5, ?Hso, ?Hmo, ?Hc3, ?Ebm3; try done; try lia.
    apply (to_length Htab). }
  wp_call (load_sync_ok (write_count it) s4 (B + nblk) (loaded_top mgmt sba B)); [done|done|cbn; lia|done|done|].
  intros r s5 (-> & Hs5 & Hd5 & Hbs5 & Hkp5 & Htb5). split; [done|].
  unfold keep, tabs in *. cbn in Hkp5, Htb5, Hbs5, Hd5. injection Hkp5 as K1 K2 K3 K4 K5 K6 K7.
  injection Htb5 as T1 T2 T3 T4. split; try done; try congruence.
  - rewrite Hd5, <- Ed. apply (sc_dev _ _ _ Hsc3).
  - by rewrite T4, En6.
Qed.

Lemma load_existing_ok s sig sba M B k :
  pre_ok g s -> flag_set g NMBM_F_READ_ONLY = false ->
  signature (ni s) = sig -> signature_ba (ni s) = sba ->
  (forall b, 0 <= b < block_count g -> good (block_state (ni s)) b) ->
  on_chip (dev s) (mgmt_start_pb sig) sba M B -> mapped_end (mgmt_start_pb sig) k ->
  wp nmbm_load_existing (fun r s' => r = true /\ restored s s' (mgmt_start_pb sig) sba M B k) s.
Proof using Hg Hl Hr Hes Htab L.
  intros Hs Hro Hsig Hsba Hgood Hoc Hk. pose proof (loaded_top_range _ _ _ _ _ Hoc) as Htop.
  pose proof Hoc as [(O1 & O2 & O3) Omain _ Oblk Obef _ Oent]. destruct (nblk_bounds g Hg) as [_ Hn].
  pose proof (geo_count g Hg). pose proof (pre_st _ _ Hs) as Hst.
  unfold nmbm_load_existing. apply wp_bind, wp_gets, wp_bind, wp_gets. rewrite (st_geo _ _ Hst), Hsig.
  apply wp_bind, wp_modify, wp_bind, wp_gets. set (s1 := set_ni (set_mgmt_start_ba (mgmt_start_pb sig)) s).
  change (signature_ba (ni s1)) with (signature_ba (ni s)). rewrite Hsba.
  apply wp_bind. eapply wp_mono with (Q := fun r s' => r = true /\ restored s s' (mgmt_start_pb sig) sba M B k);
    [|intros r s' [-> ?]; by apply wp_ret].
  unfold nmbm_load_info_table. apply wp_bind, wp_gets, wp_bind, wp_gets.
  change (signature_ba (ni s1)) with (signature_ba (ni s)). change (signature (ni s1)) with (signature (ni s)).
  rewrite Hsba, Hsig. apply wp_bind, wp_modify, wp_bind, wp_modify, wp_bind, wp_gets.
  apply wp_bind, wp_modify, wp_bind, wp_modify, wp_bind, wp_modify. set (s0 := set_ni _ _).
  assert (st_ok g s0) as Hs0 by (destruct Hst; by split).
  assert (Z.of_nat (length (info_table_cache (ni s0))) = its) as Hc0 by apply (pre_cache _ _ Hs).
  assert (signature (ni s0) = sig /\ signature_ba (ni s0) = sba /\ mgmt_start_ba (ni s0) = mgmt_start_pb sig /\
    data_block_count (ni s0) = mgmt_start_pb sig) as (E1 & E2 & E3 & E4) by by split_and!.
  assert (forall b, M <= b < M + nblk -> bad (dev s) b = false /\ good bs b) as OM by (intros; apply Oblk; by left).
  assert (dev s0 = dev s /\ protected (ni s0) = protected (ni s) /\ block_state (ni s0) = block_state (ni s))
    as (Ed & Ep & Ebs) by done.
  clearbody s0. set (mgmt := mgmt_start_pb sig) in *. rewrite <- Ed in *.
  assert (table_at s0 M img) as HtM.
  { split; [lia| | |apply length_image|done|by apply image_parsed]; intros b Hb; [|by apply OM].
    rewrite Ebs. apply Hgood. unfold blocks_in in Hb. lia. }
  apply wp_bind. wp_call (search_ok mgmt M sba false s0); [done|done|done|lia|lia|lia| | |].
  { intros x Hx _ Hb. by apply Obef. }
  { split; rewrite ?E2, ?E4; [lia|lia| |intros b Hb; by apply OM]. eapply entries_weaken; [exact Oent|lia]. }
  assert (found_top s0 (M + nblk) = loaded_top mgmt sba B) as Eft.
  { unfold found_top, loaded_top. rewrite E2, E4. f_equal. apply (entries_top mgmt sba B); [done|lia]. }
  intros r s2 (-> & s3 & Hsc & ->). rewrite Eft, (u32_small (loaded_top mgmt sba B)) by lia. cbn [negb orb].
  assert (exists n, ni s3 = n /\ signature n = sig /\ signature_ba n = sba /\ mgmt_start_ba n = mgmt /\
    data_block_count n = mgmt /\ protected n = protected (ni s)) as (n & En & En1 & En2 & En3 & En4 & En5).
  { exists (ni s3). rewrite (sc_ni _ _ _ Hsc). by split_and!. }
  wp_call (load_second_ok (mk_nst (adopt (ni s3)) (dev s3)) sig sba M B k); [|done| |done|].
  - split; [apply adopt_st; [apply Hsc|done]|cbn; by rewrite (sc_cache _ _ _ Hsc)|done|cbn; by rewrite En, En1, En2|
      cbn; by rewrite En, En3, En4].
  - eapply on_chip_none; [apply (sc_dev _ _ _ Hsc)|done].
  - intros r s4 (-> & [R1 R2 R3 R4 R5 R6 R7 R8]). split; [done|]. cbn in R1, R6, R7. rewrite En in R6, R7.
    split; try done; [|by rewrite R6, En1, Hsig|by rewrite R7, En5]. rewrite <- Ed. etrans; [apply (sc_dev _ _ _ Hsc)|done].
Qed.
End table.
End load.
