(* ===== verification/NmbmPersist.v ===== *)
(** Detaching and attaching again: the signature is found, and the block states and the
    mapping of the instance come back from the chip. *)

From stdpp Require Import base list numbers sets relations.
From Stdlib Require Import ZArith Lia.
From S2P Require Import Prelude NmbmTypes NmbmChip NmbmBlocks NmbmTable NmbmAttach NmbmSpec NmbmBlockSpec NmbmWalk NmbmTableSpec NmbmLogicSpec NmbmAttachSpec NmbmFormat NmbmData NmbmStored NmbmSave NmbmLoad.
Local Open Scope Z_scope.
Local Open Scope cprog_scope.

Section persist.
Context {chip : Type} {C : Crc32} {L : Crc32Laws C} (g : nmbm_geometry chip).
Context (Hg : geom_ok g) `{Hl : !lower_contract (lower g)}.
Context (page : chip -> Z -> list Z) (bad : chip -> Z -> bool) (sound : chip -> Z -> Prop).
Context `{Hr : !nand_reliable g page bad sound}.
Context (Hws : sizeof_nmbm_signature <= writesize (lower g)).
Abbreviation prog := (M (nst chip)).
Abbreviation ws := (writesize (lower g)).
Abbreviation es := (erasesize (lower g)).
Abbreviation stored := (stored g page).

(** * The signature *)

(** A page that does not start with a signature. *)
Definition no_signature (c : chip) (a : Z) : Prop :=
  forall l, length l = 48%nat -> stored c a l ->
    nmbm_check_header l sizeof_nmbm_signature = true ->
    magic (sig_header (parse_signature l)) <> NMBM_MAGIC_SIGNATURE.

(** The signature is in the first page of block [sba], and the blocks behind it carry none. *)
Record signature_at (c : chip) (sba : Z) (sig : nmbm_signature) : Prop := {
  sa_mark : bad c sba = false;
  sa_bytes : exists l, length l = 48%nat /\ stored c (sba * es) l /\
    nmbm_check_header l sizeof_nmbm_signature = true /\ parse_signature l = sig;
  sa_magic : magic (sig_header sig) = NMBM_MAGIC_SIGNATURE;
  sa_behind b off : sba < b < block_count g -> bad c b = false -> 0 <= off -> off + ws <= es ->
    off mod ws = 0 -> no_signature c (b * es + off)
}.

Lemma sizes_ok : 48 <= ws /\ ws <= es /\ 0 < es < 2 ^ 32.
Proof using Hg Hws.
  pose proof (writesize_le g Hg). pose proof (erasesize_lt g Hg). pose proof (erasesize_pos g Hg).
  unfold sizeof_nmbm_signature in Hws. lia.
Qed.

(** Reading the first bytes of a page of block [b]. *)
Lemma read_signature_ok b off l s :
  st_ok g s -> 0 <= b < block_count g -> bad (dev s) b = false -> 0 <= off -> off + ws <= es ->
  length l = 48%nat -> stored (dev s) (b * es + off) l ->
  wp (nmbn_read_data (u64 (ba2addr g b + off)) (replicate (Z.to_nat sizeof_nmbm_signature) 0) sizeof_nmbm_signature)
    (fun '(r, d) s' => r = 0 /\ d = l /\ chip_rel g none s s') s.
Proof using Hg Hl Hr Hws.
  intros Hs Hb Hbad Hoff Hend Hlen Hst. pose proof sizes_ok. rewrite (block_addr g Hg) by lia.
  change sizeof_nmbm_signature with 48. replace 48 with (Z.of_nat (length l)) at 2 by lia.
  wp_call (read_data_ok g Hg page bad sound); [done|nia|nia| |rewrite length_replicate; lia|lia|done|].
  - intros x Hx. replace (x / es) with b; [done|]. symmetry.
    replace x with (b * es + (x - b * es)) by lia. apply (block_range g Hg); [done|lia].
  - intros [r d] s' (-> & -> & Hrel). split_and!; [done| |done]. apply blit_all. rewrite length_replicate. lia.
Qed.

Lemma find_in_block_ok sba sig s :
  st_ok g s -> 0 <= sba < block_count g -> signature_at (dev s) sba sig ->
  wp (find_signature_in_block (ba2addr g sba)) (fun r s' => r = Some sig /\ chip_rel g none s s') s.
Proof using Hg Hl Hr Hws.
  intros Hs Hb [A1 (l & Hlen & Hst & Hck & <-) A3 _]. pose proof sizes_ok. unfold find_signature_in_block.
  apply wp_bind, wp_gets. rewrite (st_geo _ _ Hs).
  apply (wp_loop (fun off s' => off = 0 /\ s' = s) (fun _ _ => 0%nat)); [|done|unfold page_fuel; lia].
  intros off s1 [-> ->]. destruct (Z.ltb_spec 0 es); [|lia].
  apply wp_bind. wp_call (read_signature_ok sba 0 l); [done|done|done|lia|lia|done|by rewrite Z.add_0_r|].
  intros [r d] s1 (-> & -> & Hrel). cbn [Z.eqb negb]. rewrite Hck, A3. cbn [negb]. rewrite Z.eqb_refl. by apply wp_ret.
Qed.

Lemma find_in_block_none b s :
  st_ok g s -> 0 <= b < block_count g -> bad (dev s) b = false ->
  (forall off, 0 <= off -> off + ws <= es -> off mod ws = 0 -> no_signature (dev s) (b * es + off)) ->
  wp (find_signature_in_block (ba2addr g b)) (fun r s' => r = None /\ chip_rel g none s s') s.
Proof using Hg Hl Hr Hws.
  intros Hs Hb Hbad Hno. pose proof sizes_ok. unfold find_signature_in_block.
  apply wp_bind, wp_gets. rewrite (st_geo _ _ Hs).
  apply (wp_page_loop g Hg (fun off s' => off mod ws = 0 /\ chip_rel g none s s'));
    [|intros s1 [_ Hrel]; rewrite Z.ltb_irrefl; by apply wp_ret|split; [by apply Z.mod_0_l; lia|apply chip_rel_refl]].
  intros off s1 Hoff Hend [Hal Hrel]. destruct (Z.ltb_spec off es); [|lia].
  assert (0 <= b * es + off) by nia.
  destruct (stored_some g Hg page bad sound (dev s) (b * es + off) 48 ltac:(done)) as (l & Hlen & Hst).
  assert ((off + ws) mod ws = 0) as Hal' by (rewrite <- (Z.mul_1_l ws) at 1; rewrite Z.mod_add by lia; done).
  apply wp_bind. wp_call (read_signature_ok b off l);
    [by eapply st_ok_chip_rel|done|by rewrite (proj1 (kept_chip g page bad sound _ _ Hrel b))|done|done|done|
     apply (stored_none g Hg page bad sound (dev s)); [apply Hrel|done|done]|].
  intros [r d] s2 (-> & -> & Hrel2). assert (chip_rel g none s s2) by by eapply chip_rel_trans.
  cbn [Z.eqb negb]. destruct (nmbm_check_header l sizeof_nmbm_signature) eqn:Hck; cbn [negb].
  - specialize (Hno off Hoff Hend Hal l Hlen Hst Hck).
    destruct (Z.eqb_spec (magic (sig_header (parse_signature l))) NMBM_MAGIC_SIGNATURE); [done|].
    apply wp_ret. rewrite u64_small by lia. done.
  - apply wp_ret. rewrite u64_small by lia. done.
Qed.

Lemma signature_none c c' sba sig : dev_steps g none c c' -> 0 <= sba -> signature_at c sba sig -> signature_at c' sba sig.
Proof using Hg Hr Hws.
  intros Hs Hb [A1 (l & A2 & A3 & A4) A5 A6]. pose proof sizes_ok. pose proof (kept_none g page bad sound _ _ Hs) as Hk.
  split; [by rewrite (proj1 (Hk sba))| |done|].
  - exists l. split_and!; try apply A4; [done|]. apply (stored_none g Hg page bad sound c); [done|nia|done].
  - intros b off Hbb Hbad H1 H2 H3 l' Hl' Hst. rewrite (proj1 (Hk b)) in Hbad. apply (A6 b off Hbb Hbad H1 H2 H3 l' Hl').
    intros i v Hi. rewrite <- (Hst i v Hi). symmetry. apply (cbyte_steps g Hg page bad sound none); [done|nia|by intros []].
Qed.

(** The search goes down from the end of the chip and stops at the signature. *)
Lemma find_signature_ok sba sig s :
  st_ok g s -> nld_size (lower g) = block_count g * es -> block_count g * es <= 2 ^ 63 ->
  1 <= signature_limit g (block_count g) -> signature_limit g (block_count g) - 1 <= sba < block_count g ->
  signature_at (dev s) sba sig ->
  wp nmbm_find_signature (fun r s' => r = Some (sig, sba) /\ chip_rel g none s s') s.
Proof using Hg Hl Hr Hws.
  intros Hs Hsize Hmax Hlim1 Hlim Hsa. unfold nmbm_find_signature. apply wp_bind, wp_gets.
  rewrite (st_geo _ _ Hs). pose proof (geo_shift g Hg). pose proof (geo_count g Hg). pose proof sizes_ok.
  rewrite Hsize, Z.shiftr_div_pow2, <- (geo_erasesize g Hg), Z.div_mul, u32_small by lia.
  set (limit := signature_limit g (block_count g)) in *.
  apply (wp_loop (fun ba s' => sba < ba <= block_count g /\ chip_rel g none s s')
    (fun ba _ => Z.to_nat (ba - limit + 1))); [|split; [lia|apply chip_rel_refl]|lia].
  intros ba s1 [Hba Hrel]. rewrite Z.geb_leb. destruct (Z.leb_spec limit ba); [|lia].
  rewrite u32_small by lia. pose proof (st_ok_chip_rel _ _ _ _ Hs Hrel) as Hs1.
  pose proof (signature_none (dev s) (dev s1) sba sig (proj1 Hrel) ltac:(lia) Hsa) as Hsa1.
  apply wp_bind. wp_call (check_bad_ok g Hg page bad sound); [done|lia|]. intros r s2 (-> & _ & Hrel2).
  assert (chip_rel g none s s2) as Hrel' by by eapply chip_rel_trans. pose proof (st_ok_chip_rel _ _ _ _ Hs Hrel') as Hs2.
  pose proof (signature_none (dev s) (dev s2) sba sig (proj1 Hrel') ltac:(lia) Hsa) as Hsa2.
  destruct (Z.eq_dec (ba - 1) sba) as [->|Hne].
  - rewrite (sa_mark _ _ _ Hsa1). apply wp_bind. wp_call find_in_block_ok; [done|lia|done|].
    intros r s3 [-> Hrel3]. apply wp_ret. split; [done|by eapply chip_rel_trans].
  - destruct (bad (dev s1) (ba - 1)) eqn:Hbad; [apply wp_ret; split; [split; [lia|done]|lia]|].
    assert (bad (dev s2) (ba - 1) = false) as Hbad2 by (by rewrite (proj1 (kept_chip g page bad sound _ _ Hrel2 _))).
    apply wp_bind. wp_call (find_in_block_none (ba - 1)); [done|lia|done| |].
    { intros off H1' H2' H3'. apply (sa_behind _ _ _ Hsa2); try done. lia. }
    intros r s3 [-> Hrel3]. apply wp_ret. split; [split; [lia|by eapply chip_rel_trans]|lia].
Qed.

Lemma header_small : sizeof_nmbm_info_table_header <= es.
Proof using Hg Hws. pose proof sizes_ok. unfold sizeof_nmbm_info_table_header. lia. Qed.

(** * An instance that can be attached again *)

Abbreviation nblk := (nblk g).

(** An attached instance, with both tables on blocks that work and all it needs on the
    chip: the signature, nothing else that looks like a table, and, when nothing is
    waiting to be written, the tables themselves. *)
Record persistent (s : nst chip) : Prop := {
  ps_inst : inst_ok g s;
  ps_protected : protected (ni s) = 0;
  ps_tables : two_tables g sound s;
  ps_main : main_table_ba (ni s) <> 0;
  ps_image : table_layout g (info_table (ni s)) /\ ift_ok (info_table (ni s));
  ps_synced : counters (ni s) = (0, 0) -> exists it, table_ok g it (block_state (ni s)) (block_mapping (ni s)) /\
    synced g page s (table_image g it (block_state (ni s)) (block_mapping (ni s)));
  ps_before b : mgmt_start_ba (ni s) <= b < main_table_ba (ni s) -> bad (dev s) b = false ->
    no_header g page (dev s) b;
  ps_between b : main_table_ba (ni s) + nblk <= b < backup_table_ba (ni s) ->
    good (block_state (ni s)) b -> bad (dev s) b = false /\ no_header g page (dev s) b;
  ps_entries i m : Z.of_nat i < mgmt_start_ba (ni s) -> block_mapping (ni s) !! i = Some m ->
    m < 0 \/ m < mgmt_start_ba (ni s) \/ mapping_blocks_top_ba (ni s) < m < signature_ba (ni s);
  ps_mapped : mapped_end (block_mapping (ni s)) (mgmt_start_ba (ni s)) (data_block_count (ni s));
  ps_sba : mapping_blocks_top_ba (ni s) < signature_ba (ni s) < block_count g;
  ps_limit : signature_limit g (block_count g) - 1 <= signature_ba (ni s);
  ps_signature : signature_at (dev s) (signature_ba (ni s)) (signature (ni s));
  ps_mgmt : mgmt_start_pb (signature (ni s)) = mgmt_start_ba (ni s);
  ps_version : version (sig_header (signature (ni s))) = NMBM_VER;
  ps_sizes : (nand_size (signature (ni s)), block_size (signature (ni s)), page_size (signature (ni s)),
              spare_size (signature (ni s))) =
             (nld_size (lower g), es, ws, oobsize (lower g))
}.

Lemma next_table_ok s : inst_ok g s -> table_layout g (info_table (ni s)) -> ift_ok (info_table (ni s)) ->
  table_ok g (next_header g (ni s)) (block_state (ni s)) (block_mapping (ni s)).
Proof using Hg.
  intros Hs Hlay Hok. pose proof (geo_count g Hg).
  split; [by destruct Hlay|by apply next_header_ok|done|done|apply Hs|apply Hs|].
  eapply Forall_impl; [apply (io_map _ _ Hs)|]. unfold entry_ok. intros m. cbn. lia.
Qed.

Lemma stored_tables (s : nst chip) c' a l :
  dev_steps g (in_tables g (ni s)) (dev s) c' -> 0 <= a ->
  (forall x, a <= x < a + Z.of_nat (length l) -> ~ in_tables g (ni s) (x / es)) ->
  stored (dev s) a l -> stored c' a l.
Proof using Hg Hr. intros. by eapply stored_steps. Qed.

Lemma signature_saved (s : nst chip) c' sba sig :
  dev_steps g (in_tables g (ni s)) (dev s) c' -> kept bad sound (dev s) c' -> 0 <= sba ->
  (forall b, sba <= b < block_count g -> ~ in_tables g (ni s) b) -> sba < block_count g ->
  signature_at (dev s) sba sig -> signature_at c' sba sig.
Proof using Hg Hr Hws.
  intros Hs Hk Hb Hout Hlt [A1 (l & A2 & A3 & A4) A5 A6]. pose proof sizes_ok.
  split; [by rewrite (proj1 (Hk sba))| |done|].
  - exists l. split_and!; try apply A4; [done|]. apply (stored_tables s); [done|nia| |done].
    intros x Hx. replace (x / es) with sba; [by apply Hout|].
    replace x with (sba * es + (x - sba * es)) by lia. symmetry. apply (block_range g Hg); lia.
  - intros b off Hbb Hbad H1 H2 H3 l' Hl' Hst. rewrite (proj1 (Hk b)) in Hbad. apply (A6 b off Hbb Hbad H1 H2 H3 l' Hl').
    intros i v Hi. rewrite <- (Hst i v Hi). symmetry. pose proof (lookup_lt_Some _ _ _ Hi).
    apply (cbyte_steps g Hg page bad sound (in_tables g (ni s))); [done|nia|].
    replace (b * es + off + Z.of_nat i) with (b * es + (off + Z.of_nat i)) by lia.
    rewrite (block_range g Hg) by lia. apply Hout. lia.
Qed.

(** After the update everything the loader looks for is on the chip. *)
Lemma saved_on_chip s s' it :
  persistent s -> table_ok g it (block_state (ni s)) (block_mapping (ni s)) ->
  saved g page bad sound s s' (table_image g it (block_state (ni s)) (block_mapping (ni s))) ->
  on_chip g page bad it (block_state (ni s)) (block_mapping (ni s)) (dev s') (mgmt_start_ba (ni s))
    (signature_ba (ni s)) (main_table_ba (ni s)) (backup_table_ba (ni s)) /\
  signature_at (dev s') (signature_ba (ni s)) (signature (ni s)).
Proof using Hg Hr Hws.
  intros [Hs _ [T1 T2 T3 T4] Hm _ _ Hbef Hbet Hent _ Hsba _ Hsig _ _ _] Hit [S1 S2 [S3 S4] _ _ [= S5 S6 _ _]].
  pose proof (io_tab _ _ Hs) as [Hb Hlay]. pose proof (lay_cases _ Hlay) as [Hmain _].
  pose proof (lay_mapping _ Hlay). pose proof (bo_area _ _ Hb). destruct (nblk_bounds g Hg) as [_ Hn].
  assert (forall b, in_tables g (ni s) b ->
    main_table_ba (ni s) <= b < main_table_ba (ni s) + nblk \/ backup_table_ba (ni s) <= b < backup_table_ba (ni s) + nblk)
    as Htab by done.
  split; [|eapply signature_saved; [done|done|lia|intros b Hb' ?%Htab; lia|lia|done]].
  rewrite S5 in S3. rewrite S6 in S4. split; [lia|done|done| | | |].
  - intros b Hb'. rewrite (proj1 (S2 b)). destruct Hb' as [Hb'|Hb']; [apply T3 in Hb' as [? Hsd]|apply T4 in Hb' as [? Hsd]];
      (split; [by eapply nr_sound|done]).
  - intros b Hb'. rewrite (proj1 (S2 b)). intros Hbad.
    apply (no_header_steps g Hg page bad sound header_small (in_tables g (ni s)) (dev s)); [done|lia|intros ?%Htab; lia|by apply Hbef].
  - intros b Hb' Hgb. rewrite (proj1 (S2 b)). destruct (Hbet b Hb' Hgb). split; [done|].
    apply (no_header_steps g Hg page bad sound header_small (in_tables g (ni s)) (dev s)); [done|lia|intros ?%Htab; lia|done].
  - intros i m Hi Him. specialize (Hent i m Hi Him). lia.
Qed.

(** Detaching writes the tables, if they are not on the chip already. *)
Lemma detach_saves s :
  persistent s -> flag_set g NMBM_F_READ_ONLY = false ->
  exists it, table_ok g it (block_state (ni s)) (block_mapping (ni s)) /\
    wp nmbm_detach (fun _ s1 =>
      saved g page bad sound s s1 (table_image g it (block_state (ni s)) (block_mapping (ni s)))) s.
Proof using Hg Hr Hws L Hl.
  intros Hp Hro. pose proof (io_tab _ _ (ps_inst _ Hp)) as Htab.
  assert (forall it, wp nmbm_update_info_table (fun r s1 =>
      saved g page bad sound s s1 (table_image g it (block_state (ni s)) (block_mapping (ni s)))) s ->
    wp nmbm_detach (fun _ s1 =>
      saved g page bad sound s s1 (table_image g it (block_state (ni s)) (block_mapping (ni s)))) s) as Hd.
  { intros it Hup. unfold nmbm_detach. apply wp_bind, wp_gets. rewrite (st_geo _ _ (bo_st _ _ (proj1 Htab))), Hro.
    cbn [negb]. apply wp_bind. eapply wp_mono; [exact Hup|]. intros r s1 Hsv. by apply wp_ret. }
  destruct (ps_image _ Hp) as [I1 I2]. destruct (decide (counters (ni s) = (0, 0))) as [Ec|Ec].
  - destruct (ps_synced _ Hp Ec) as (it & Hit & Hsy). exists it. split; [done|]. apply Hd.
    eapply wp_mono; [apply (update_ok g Hg page bad sound Hro s (table_image g it (block_state (ni s)) (block_mapping (ni s))));
      try apply Hp; done|]. by intros r s1 [_ ?].
  - exists (next_header g (ni s)). split; [apply next_table_ok; [apply Hp|done..]|]. apply Hd.
    eapply wp_mono; [apply (update_ok g Hg page bad sound Hro s); try apply Hp; done|]. by intros r s1 [_ ?].
Qed.

(** * Attaching *)

(** [nmbm_attach] from the search on; [create] is what it does without a signature. *)
Lemma load_attached (create : prog Z) n d0 sba k M B it bs bm :
  table_ok g it bs bm -> pre_ok g (mk_nst n d0) -> flag_set g NMBM_F_READ_ONLY = false ->
  (forall b, 0 <= b < block_count g -> good (block_state n) b) ->
  nld_size (lower g) = block_count g * es -> block_count g * es <= 2 ^ 63 ->
  1 <= signature_limit g (block_count g) -> signature_limit g (block_count g) - 1 <= sba < block_count g ->
  forall sig, signature_at d0 sba sig -> mapped_end bm (mgmt_start_pb sig) k ->
  on_chip g page bad it bs bm d0 (mgmt_start_pb sig) sba M B ->
  version (sig_header sig) = NMBM_VER ->
  (nand_size sig, block_size sig, page_size sig, spare_size sig) = (nld_size (lower g), es, ws, oobsize (lower g)) ->
  wp (let* r := nmbm_find_signature in
      match r with
      | None => create
      | Some (sig, sba) =>
          do* upd (set_signature sig) in
          do* upd (set_signature_ba sba) in
          if negb (version (sig_header sig) =? NMBM_VER) then ret (- EINVAL)
          else if negb (nand_size sig =? nld_size (lower g)) || negb (block_size sig =? es)
                  || negb (page_size sig =? ws) || negb (spare_size sig =? oobsize (lower g)) then ret (- EINVAL)
          else
            let* success := nmbm_load_existing in
            if negb success then ret (- ENODEV) else ret 0
      end)
    (fun r s' => r = 0 /\ exists s2, dev_steps g none d0 (dev s2) /\ signature (ni s2) = sig /\ protected (ni s2) = protected n /\
       restored g bs bm s2 s' (mgmt_start_pb sig) sba M B k) (mk_nst n d0).
Proof using Hg Hl Hr Hws L.
  intros Hit Hpre Hro Hgood Hsize Hmax Hl1 Hl2 sig Hsig Hk Hoc Hver [= E1 E2 E3 E4].
  apply wp_bind. wp_call find_signature_ok; [apply Hpre|done|done|done|done|exact Hsig|].
  intros r s1 [-> Hrel]. pose proof (pre_ok_chip g _ _ Hpre Hrel) as Hpre1. destruct Hrel as (Hd & _ & Eni). cbn in Hd, Eni.
  apply wp_bind, wp_modify, wp_bind, wp_modify. rewrite Hver, E1, E2, E3, E4, !Z.eqb_refl. cbn [negb orb].
  set (s2 := set_ni _ _). assert (pre_ok g s2) as Hpre2.
  { apply pre_ok_upd; [|done]. apply pre_ok_upd; [done|done]. }
  assert (protected (ni s2) = protected n /\ block_state (ni s2) = block_state n /\ dev s2 = dev s1) as (Ep & Ebs & Ed)
    by (unfold s2; cbn; rewrite Eni; done).
  apply wp_bind. wp_call (load_existing_ok g Hg page bad sound header_small it bs bm Hit s2 sig sba M B k);
    [done|done|done|done|by rewrite Ebs| |done|].
  { rewrite Ed. eapply (on_chip_none g Hg page bad sound header_small); done. }
  intros r s3 [-> Hres]. apply wp_ret. split; [done|]. exists s2. rewrite Ed. done.
Qed.
End persist.

(** * Detaching and attaching *)

Section detach.
Context {chip : Type} {C : Crc32} {L : Crc32Laws C}.

(** All blocks are good in a fresh state table. *)
Lemma init_good (d : nmbm_lower_device chip) n b :
  let g := (init_geometry d).1.1 in
  geom_ok g -> 0 <= b < block_count g -> good (block_state (nmbm_init_structure d n)) b.
Proof.
  intros g Hg Hb. unfold nmbm_init_structure, g in *. destruct (init_geometry d) as [[g' so] mo]. cbn in *.
  unfold good, bstate. rewrite (nth_lookup_Some _ _ _ (2 ^ 32 - 1)).
  - change (2 ^ 32 - 1) with (Z.ones 32). pose proof (Z.mod_pos_bound b 16).
    rewrite Z.shiftr_div_pow2, Z.ones_div_pow2, Z.land_comm by lia.
    change 3 with (Z.ones 2). rewrite Z.land_comm, Z.land_ones, Z.ones_mod_pow2 by lia. done.
  - apply lookup_replicate. split; [done|]. rewrite (geo_state g' Hg), (Z.mul_comm 4), Z.div_mul by lia.
    apply Z2Nat.inj_lt; [apply Z.div_pos; lia|apply Z.div_pos; lia|].
    apply Z.div_lt_upper_bound; [lia|]. pose proof (Z.div_mod (block_count g' + 15) 16).
    pose proof (Z.mod_pos_bound (block_count g' + 15) 16). lia.
Qed.

(** What [nmbm_check_lower_members] gives the geometry that is computed. *)
Record chip_sizes (g : nmbm_geometry chip) : Prop := {
  cs_geom : geom_ok g;
  cs_contract : lower_contract (lower g);
  cs_size : nld_size (lower g) = block_count g * erasesize (lower g);
  cs_max : block_count g * erasesize (lower g) <= 2 ^ 63;
  cs_limit : 1 <= signature_limit g (block_count g) <= block_count g
}.

Lemma checked_sizes (d d' : nmbm_lower_device chip) :
  nld_bounds d -> read_contract d -> nmbm_check_lower_members d = Some d' ->
  let g := (init_geometry d').1.1 in
  lower g = d' /\ flags d' = flags d /\ chip_sizes g /\ forall s, pre_ok g (set_ni (nmbm_init_structure d') s).
Proof.
  intros Hbd Hrc Hd g.
  destruct (check_lower_members_exp _ _ Hd Hbd) as (ks & ke & kw & Hc).
  destruct (check_lower_members_callbacks _ _ Hd) as (_ & Hf & _).
  pose proof (lower_contract_checked _ _ Hd Hbd Hrc) as Hl.
  pose proof (nc_exp _ _ _ _ Hc) as Hexp. pose proof (nblocks_range ks ke ltac:(lia)) as Hn.
  assert (lower g = d' /\ block_count g = nblocks ks ke) as [El En].
  { destruct (init_geometry_eq _ _ _ _ Hc) as (rb & rc & sp & E & _). unfold g. by rewrite E. }
  assert (nld_size (lower g) = block_count g * erasesize (lower g)) as Hsz.
  { rewrite El, En, (nc_size _ _ _ _ Hc), (nc_erase _ _ _ _ Hc). unfold nblocks.
    rewrite <- Z.pow_add_r by lia. f_equal. lia. }
  pose proof (nc_ratio _ _ _ _ Hc). pose proof (nb_reserved _ (nc_bounds _ _ _ _ Hc)).
  split; [exact El|]. split; [exact Hf|]. split; [|intros s; exact (init_structure_ok _ _ _ _ s Hc)]. split.
  - apply (init_geometry_ok _ _ _ _ Hc).
  - rewrite El. exact Hl.
  - exact Hsz.
  - rewrite <- Hsz, El, (nc_size _ _ _ _ Hc). apply Z.pow_le_mono_r; lia.
  - pose proof (signature_limit_range g ltac:(lia) ltac:(by rewrite El) ltac:(by rewrite El)) as Hlim. lia.
Qed.

(** Every step between an instance and the one loaded from what it has saved. *)
Lemma restored_inst (g : nmbm_geometry chip) page bad sound s s1 s2 s' k :
  geom_ok g -> nand_reliable g page bad sound -> persistent g page bad sound s ->
  dev_steps g (in_tables g (ni s)) (dev s) (dev s1) ->
  dev_steps g none (dev s1) (dev s2) -> signature (ni s2) = signature (ni s) ->
  k = data_block_count (ni s) ->
  restored g (block_state (ni s)) (block_mapping (ni s)) s2 s' (mgmt_start_ba (ni s)) (signature_ba (ni s))
    (main_table_ba (ni s)) (backup_table_ba (ni s)) k ->
  mapping_blocks_top_ba (ni s) <= mapping_blocks_top_ba (ni s') ->
  inst_ok g s' /\
  forall a, 0 <= a -> a / erasesize (lower g) < mgmt_start_ba (ni s) ->
    0 <= phys_block (ni s) (a / erasesize (lower g)) -> lpage g page s' a = lpage g page s a.
Proof.
  intros Hg Hr Hp Hd1 Hd2 _ -> [R1 R2 R3 [= R4 R5 R6] [= R7 R8] [= R9 R10 R11] R12 R13] Htop.
  pose proof (ps_inst _ _ _ _ _ Hp) as Hs. pose proof (io_tab _ _ Hs) as [Hb Hlay].
  destruct (ps_tables _ _ _ _ _ Hp) as [T1 T2 _ _]. pose proof (lay_cases _ Hlay) as [Hmain _].
  pose proof (lay_mapping _ Hlay). pose proof (bo_area _ _ Hb). pose proof (nblk_bounds g Hg) as [_ Hn].
  pose proof (ps_main _ _ _ _ _ Hp). pose proof (erasesize_pos g Hg).
  split.
  - split; [split; [done|]|rewrite R2; apply Hs|rewrite R11; apply Hs].
    split; rewrite ?R4, ?R5, ?R6, ?R7; lia.
  - intros a Ha Hlt Hph. unfold lpage.
    assert (phys_addr g (ni s') a = phys_addr g (ni s) a) as ->
      by (unfold phys_addr, phys_block; by rewrite R2).
    pose proof (phys_block_lookup _ _ Hph) as Hlk.
    pose proof (Z.div_pos a _ Ha ltac:(done)) as Had.
    pose proof (ps_entries _ _ _ _ _ Hp _ _ ltac:(rewrite Z2Nat.id; done) Hlk) as Hent.
    pose proof (mapped_addr_nonneg g Hg (phys_block (ni s) (a / erasesize (lower g))) a Hph) as Hpa.
    fold (phys_addr g (ni s) a) in Hpa.
    rewrite (page_steps g page none (dev s1) (dev s')) by (done || (by intros []) || (by etrans)).
    apply (page_steps g page (in_tables g (ni s)) (dev s)); [done|done|].
    rewrite (phys_addr_div g Hg). unfold in_tables, blocks_in. lia.
Qed.

(** Loading does not lower the top of the spare blocks. *)
Lemma loaded_top_le (g : nmbm_geometry chip) page bad sound s :
  persistent g page bad sound s ->
  mapping_blocks_top_ba (ni s) <=
    loaded_top g (block_mapping (ni s)) (mgmt_start_ba (ni s)) (signature_ba (ni s)) (backup_table_ba (ni s)).
Proof.
  intros Hp. pose proof (io_tab _ _ (ps_inst _ _ _ _ _ Hp)) as [Hb Hlay]. pose proof (lay_mapping _ Hlay).
  destruct (ps_tables _ _ _ _ _ Hp) as [_ T2 _ _]. pose proof (ps_sba _ _ _ _ _ Hp). pose proof (bo_area _ _ Hb).
  unfold loaded_top. rewrite <- (entries_top g (block_mapping (ni s)) _ _ _ (mapping_blocks_ba (ni s) + 1)).
  2:{ intros i m Hi Hm. pose proof (ps_entries _ _ _ _ _ Hp i m Hi Hm). lia. }
  2:{ lia. }
  rewrite (spare_min_Forall _ _ (mapping_blocks_top_ba (ni s) + 1)).
  - destruct (spare_min_range (signature_ba (ni s)) (mapping_blocks_top_ba (ni s) + 1)
      (take (Z.to_nat (mgmt_start_ba (ni s))) (block_mapping (ni s)))) as [_ H2]. lia.
  - apply Forall_lookup_2. intros i m [Hi Hlt]%lookup_take_Some.
    pose proof (ps_entries _ _ _ _ _ Hp i m ltac:(lia) Hi). lia.
Qed.

End detach.
