(* ===== verification/NmbmTheorems.v ===== *)
(** What NMBM guarantees: the theorems on the block state table, the walks, the
    mapping, the byte formats, the info tables, the operations on logic blocks
    and the data stored through them. *)

From stdpp Require Import base list numbers sets relations.
From Stdlib Require Import ZArith Lia Sorting.Sorted.
From S2P Require Import Prelude NmbmTypes NmbmChip NmbmBlocks NmbmTable NmbmAttach NmbmLogic.
From S2P Require Import NmbmSpec NmbmBlockSpec NmbmWalk NmbmTableSpec NmbmLogicSpec NmbmAttachSpec.
From S2P Require Import NmbmFormat NmbmData.
Local Open Scope Z_scope.
Local Open Scope cprog_scope.

(** * The driver interface as a state machine: calls, and the blocks they may modify *)

(** The calls of [nmbm.h] on an attached instance. *)
Inductive nmbm_call :=
| call_erase_block_range (addr size : Z)
| call_read_single_page (addr : Z) (data oob : option (list Z)) (mode : nmbm_oob_mode)
| call_read_range (addr size : Z) (buf : list Z) (mode : nmbm_oob_mode)
| call_write_single_page (addr : Z) (data oob : option (list Z)) (mode : nmbm_oob_mode)
| call_write_range (addr size : Z) (data : list Z) (mode : nmbm_oob_mode)
| call_check_bad_block (addr : Z)
| call_mark_bad_block (addr : Z)
| call_get_avail_size
| call_update_info_table
| call_detach.

(** What the caller promises: unsigned arguments, no wrap-around of the end
    address, buffers as long as the range. *)
Definition valid_call (c : nmbm_call) : Prop :=
  match c with
  | call_erase_block_range addr size => 0 <= addr /\ 0 <= size /\ addr + size < 2 ^ 64
  | call_read_single_page addr _ _ _ | call_write_single_page addr _ _ _
  | call_check_bad_block addr | call_mark_bad_block addr => 0 <= addr
  | call_read_range addr size buf _ | call_write_range addr size buf _ =>
      0 <= addr /\ 0 <= size /\ addr + size < 2 ^ 64 /\ size <= Z.of_nat (length buf)
  | call_get_avail_size | call_update_info_table | call_detach => True
  end.

Section api.
Context {chip : Type} {C : Crc32}.

Definition run_call (c : nmbm_call) : M (nst chip) unit :=
  match c with
  | call_erase_block_range addr size => do* nmbm_erase_block_range addr size in ret tt
  | call_read_single_page addr data oob mode =>
      do* nmbm_read_single_page addr data oob mode in ret tt
  | call_read_range addr size buf mode => do* nmbm_read_range addr size buf mode in ret tt
  | call_write_single_page addr data oob mode =>
      do* nmbm_write_single_page addr data oob mode in ret tt
  | call_write_range addr size data mode => do* nmbm_write_range addr size data mode in ret tt
  | call_check_bad_block addr => do* nmbm_check_bad_block addr in ret tt
  | call_mark_bad_block addr => do* nmbm_mark_bad_block addr in ret tt
  | call_get_avail_size => do* nmbm_get_avail_size in ret tt
  | call_update_info_table => do* nmbm_update_info_table in ret tt
  | call_detach => do* nmbm_detach in ret tt
  end.

Fixpoint run_calls (cs : list nmbm_call) : M (nst chip) unit :=
  match cs with
  | [] => ret tt
  | c :: cs => do* run_call c in run_calls cs
  end.

Context (g : nmbm_geometry chip) (Hg : geom_ok g) `{Hl : !lower_contract (lower g)}.

(** The blocks NMBM may modify: those logic blocks are mapped to, and the
    management area.  (There are no blocks with a negative address.) *)
Definition owned (n : nmbm_instance chip) (b : Z) : Prop :=
  (exists lb, 0 <= lb /\ phys_of n lb b) \/ region n b \/ b < 0.

Definition any : Z -> Prop := fun _ => True.

Lemma wp_run_call c s :
  inst_ok g s -> valid_call c -> wp (run_call c) (fun _ s' => op_rel g (owned (ni s)) any s s') s.
Proof using Hg Hl.
  intros Hs Hc. pose proof (erasesize_pos g Hg) as He.
  assert (op_rel g (owned (ni s)) any s s) as Hrefl by by apply op_rel_refl.
  assert (forall B L s', op_rel g B L s s' -> (forall b, B b -> owned (ni s) b) ->
    op_rel g (owned (ni s)) any s s') as Hmono by (intros; by eapply op_rel_mono).
  assert (forall lb b, 0 <= lb -> touch (ni s) lb b -> owned (ni s) b) as Ht
    by (intros lb b ? [?|?]; [left; eauto|by right; left]).
  assert (forall x y b, 0 <= x -> touch_in (ni s) (x / erasesize (lower g)) y b -> owned (ni s) b) as Htin.
  { intros x y b Hx (lb & Hlb & Hb). eapply Ht; [|exact Hb].
    pose proof (Z.div_pos x (erasesize (lower g)) Hx He). lia. }
  assert (forall s', chip_rel g none s s' -> op_rel g (owned (ni s)) any s s') as Hchip.
  { intros s' Hrel. eapply Hmono; [by apply (chip_op_rel g none any)|by intros ? []]. }
  destruct c as [addr size|addr data oob mode|addr size buf mode|addr data oob mode
    |addr size data mode|addr|addr| | |]; cbn [valid_call] in Hc; cbn [run_call]; apply wp_bind.
  - wp_call (wp_erase_block_range g Hg); [done|lia..|]. intros [r f] s' Hr. apply wp_ret.
    destruct (range_code _ _ _ _ _); [by destruct Hr as (_ & _ & ->)|].
    destruct Hr as [Hop _]. eapply Hmono; [exact Hop|]. intros b. apply Htin. lia.
  - wp_call (wp_read_single_page g Hg); [done|lia|]. intros [[r d] o] s' Hr. apply wp_ret.
    destruct (addr_code _ _ _ _); [by destruct Hr as (_ & _ & _ & ->)|]. apply Hchip, Hr.
  - wp_call (wp_read_range g Hg); [by apply (reads_pages_any g Hg)|done|lia..|].
    intros [[r n] b] s' Hr. apply wp_ret.
    destruct (range_code _ _ _ _ _); [by destruct Hr as (_ & _ & _ & ->)|]. apply Hchip, Hr.
  - wp_call (wp_write_single_page g Hg); [done|lia|]. intros r s' Hr. apply wp_ret.
    destruct (addr_code _ _ _ _); [by destruct Hr as (_ & ->)|].
    destruct Hr as [Hop _]. eapply Hmono; [exact Hop|]. intros b. apply Ht, Z.div_pos; lia.
  - wp_call (wp_write_range g Hg); [done|lia..|]. intros [r n] s' Hr. apply wp_ret.
    destruct (range_code _ _ _ _ _); [by destruct Hr as (_ & _ & ->)|].
    destruct Hr as [Hop _]. eapply Hmono; [exact Hop|]. intros b. apply Htin. lia.
  - wp_call (wp_check_bad_block g Hg); [done|lia|]. intros r s' [-> _]. by apply wp_ret.
  - wp_call (wp_mark_bad_block g Hg); [done|lia|]. intros r s' Hr. apply wp_ret.
    destruct (addr_code _ _ _ _); [by destruct Hr as (_ & ->)|].
    destruct Hr as (_ & Hop & _). eapply Hmono; [exact Hop|]. intros b. apply Ht, Z.div_pos; lia.
  - apply wp_bind, wp_gets, wp_bind, wp_gets, wp_ret, wp_ret. done.
  - wp_call (wp_update_tables g Hg any); [done|]. intros r s' [Hop _]. apply wp_ret.
    eapply Hmono; [exact Hop|]. by right; left.
  - unfold nmbm_detach. apply wp_bind, wp_gets, wp_bind.
    rewrite (st_geo _ _ (bo_st _ _ (proj1 (io_tab _ _ Hs)))).
    destruct (negb _); [|by do 3 apply wp_ret].
    wp_call (wp_update_tables g Hg any); [done|]. intros r s' [Hop _]. do 2 apply wp_ret.
    eapply Hmono; [exact Hop|]. by right; left.
Qed.

Lemma owned_mono B L s s' :
  op_rel g B L s s' -> forall b, owned (ni s') b -> owned (ni s) b.
Proof using.
  intros Hop b [(lb & Hlb & Hp)|[Hr|Hb]]; [|right; left; by eapply op_region|by right; right].
  destruct (Z_lt_le_dec b 0); [by right; right|].
  destruct (op_phys _ _ _ _ _ Hop lb b Hlb ltac:(done) Hp); [left; eauto|by right; left].
Qed.

Lemma wp_run_calls cs s :
  inst_ok g s -> Forall valid_call cs ->
  wp (run_calls cs) (fun _ s' => op_rel g (owned (ni s)) any s s') s.
Proof using Hg Hl.
  intros Hs Hcs. revert s Hs. induction Hcs as [|c cs Hc _ IH]; intros s Hs.
  - by apply wp_ret, op_rel_refl.
  - apply wp_bind. wp_call wp_run_call; [done|done|]. intros [] s1 H1.
    wp_call IH; [apply H1|]. intros [] s2 H2. eapply op_rel_trans; [exact H1|].
    eapply op_rel_mono; [by eapply owned_mono|done|exact H2].
Qed.
End api.

Section theorems.
Context {chip : Type} {C : Crc32} (g : nmbm_geometry chip) (Hg : geom_ok g).

(** * Block states and walks *)

(** [nmbm_set_block_state] stores the state of its block and of no other,
    reports whether the state changed, and counts the change: after it,
    [nmbm_get_block_state] returns the new state for this block and the old
    state for every other block. *)
Theorem set_block_state_get s ba state b :
  st_ok g s -> 0 <= ba < block_count g -> 0 <= b < block_count g -> 0 <= state <= 3 ->
  wp (let* changed := nmbm_set_block_state ba state in
      let* st := nmbm_get_block_state b in
      ret (changed, st))
    (fun '(changed, st) s' =>
       changed = negb (bstate (block_state (ni s)) ba =? state) /\
       st = (if b =? ba then state else bstate (block_state (ni s)) b) /\
       block_state_changed (ni s') =
         (if changed : bool then u32 (block_state_changed (ni s) + 1)
          else block_state_changed (ni s)) /\
       st_ok g s') s.
Proof using Hg.
  intros Hs Hba Hb Hst.
  assert (Z.land state 3 = state) as E
    by (change 3 with (Z.ones 2); rewrite Z.land_ones by lia; apply Z.mod_small; lia).
  apply wp_bind, (wp_set_block_state g Hg); [done|done|]. cbn. rewrite E.
  set (s1 := mk_nst (set_block_state _ (ni s)) (dev s)). set (s2 := mk_nst _ (dev s)).
  assert (st_ok g s1 /\ st_ok g s2) as [H1 H2].
  { destruct Hs. split; (split; cbn; [done|done|by apply bs_set_ok|]); [done|apply u32_range]. }
  destruct (_ =? state); apply wp_bind, (wp_get_block_state g Hg); try done; apply wp_ret;
    cbn [block_state ni s1 s2 set_block_state set_block_state_changed];
    rewrite (bstate_set g Hg), E by (done || apply Hs); done.
Qed.

(** The walks implement their reference definition.  With a limit inside the
    chip, [nmbm_block_walk] from [ba] with [count] returns the good block number
    [count] of [ba, ba + 1, ...] below the limit (ascending) or of
    [ba, ba - 1, ...] above the limit (descending), and fails exactly when there
    are not that many good blocks; it changes nothing. *)
Theorem block_walk_refines (asc : bool) s ba count limit :
  st_ok g s -> 0 <= ba < block_count g -> 0 <= count < 2 ^ 31 -> 0 <= limit < block_count g ->
  wp (nmbm_block_walk asc ba count limit)
    (fun r s' => s' = s /\
       r = (if asc then good_asc else good_desc) (block_state (ni s)) ba limit !! Z.to_nat count) s.
Proof using Hg.
  intros Hs Hba Hc Hlim. pose proof (geo_count g Hg). unfold nmbm_block_walk.
  rewrite !u32_i32, !u32_small by lia.
  assert (walk_limit (block_count g) limit = limit) as E
    by (unfold walk_limit; destruct (Z.geb_spec limit (block_count g)); lia).
  destruct asc; [wp_call (wp_walk_asc g Hg)|wp_call (wp_walk_desc g Hg)];
    try done; try lia; by rewrite E.
Qed.

(** [nmbm_try_reserve_blocks] skips [count] good blocks, or as many as there
    are: it returns the good block number [min count (n - 1)] of the [n] good
    blocks between [ba] and the limit, and fails only when there is none. *)
Theorem try_reserve_refines s ba count limit :
  st_ok g s -> 0 <= ba < block_count g -> 0 <= count < 2 ^ 31 -> 0 <= limit < block_count g ->
  wp (nmbm_try_reserve_blocks ba count 0 limit)
    (fun r s' => s' = s /\
       let l := good_asc (block_state (ni s)) ba limit in
       r = l !! Nat.min (Z.to_nat count) (length l - 1) /\ (r = None -> l = [])) s.
Proof using Hg.
  intros Hs Hba Hc Hlim. pose proof (geo_count g Hg).
  assert (walk_limit (block_count g) limit = limit) as E
    by (unfold walk_limit; destruct (Z.geb_spec limit (block_count g)); lia).
  wp_call (wp_try_reserve_blocks g Hg); [done|lia|lia|lia|]. rewrite E.
  intros r s' [-> ->]. split; [done|]. cbn zeta. unfold reserve_ref. split; [done|].
  set (l := good_asc _ _ _). intros Hn%lookup_ge_None. destruct l; [done|]. cbn in Hn. lia.
Qed.

(** The initial mapping table.  [nmbm_build_mapping_table] maps the logic
    blocks in order to the blocks below the management area that are not bad,
    [data_block_count] is their number, the remaining entries are [-1], and
    different logic blocks get different physical blocks. *)
Theorem build_mapping_injective s :
  st_ok g s -> 0 <= mgmt_start_ba (ni s) <= block_count g ->
  Z.of_nat (length (block_mapping (ni s))) = block_count g ->
  wp nmbm_build_mapping_table
    (fun _ s' =>
       let l := usable (block_state (ni s)) (mgmt_start_ba (ni s)) in
       data_block_count (ni s') = Z.of_nat (length l) /\ StronglySorted Z.lt l /\
       (forall b, b ∈ l <-> 0 <= b < mgmt_start_ba (ni s) /\
                            bstate (block_state (ni s)) b <> BLOCK_ST_BAD) /\
       (forall i, 0 <= i < block_count g -> block_mapping (ni s') !! Z.to_nat i =
          Some (default (-1) (l !! Z.to_nat i))) /\
       injective (ni s')) s.
Proof using Hg.
  intros Hs Hm Hlen. wp_call (wp_build_mapping_table g Hg); [done|done|done|].
  intros _ s' ->. cbn zeta.
  pose proof (usable_sorted (block_state (ni s)) (mgmt_start_ba (ni s))) as Hsort.
  pose proof (usable_length (block_state (ni s)) (mgmt_start_ba (ni s)) ltac:(lia)) as Hul.
  set (l := usable _ _) in *.
  split_and!; [done|done| | |].
  - intros b. unfold l, usable. rewrite list_elem_of_filter, elem_of_seqZ.
    split; intros [? ?]; (split; [|done || lia]); done || lia.
  - intros i Hi. cbn. apply lookup_app_replicate; lia.
  - intros i j m Hi Hj Hm0 H1 H2. cbn in H1, H2.
    apply lookup_app_nonneg in H1; [|done]. apply lookup_app_nonneg in H2; [|done].
    enough (Z.to_nat i = Z.to_nat j) by lia. eapply NoDup_lookup; [|exact H1|exact H2].
    by apply sorted_lt_nodup.
Qed.

(** * The info tables *)

(** C19: the table image survives the round trip.  The bytes
    [nmbm_generate_info_table_cache] puts into the info table cache pass
    [nmbm_check_header] and [nmbm_check_info_table_header], and what
    [nmbm_try_load_info_table] takes from them is the block state table, the
    mapping table and the write count of the instance (incremented when a table
    has changed). *)
Theorem info_table_roundtrip {L : Crc32Laws C} s :
  base_ok g s -> table_layout g (info_table (ni s)) ->
  ift_ok (info_table (ni s)) -> Forall (fun m => - 2 ^ 31 <= m < 2 ^ 31) (block_mapping (ni s)) ->
  wp nmbm_generate_info_table_cache
    (fun changed s' =>
       let img := info_table_cache (ni s') in
       let h := parse_info_table_header img in
       nmbm_check_header img (info_table_size g) = true /\
       nmbm_check_info_table_header g h = true /\
       write_count h = (if changed : bool then u32 (write_count (info_table (ni s)) + 1)
                        else write_count (info_table (ni s))) /\
       bytes_words (Z.to_nat (state_table_size g / 4)) (drop (Z.to_nat (state_table_off h)) img)
         = block_state (ni s) /\
       i32 <$> bytes_words (Z.to_nat (mapping_table_size g / 4))
                 (drop (Z.to_nat (mapping_table_off h)) img) = block_mapping (ni s)) s.
Proof using Hg.
  intros Hs Hlay Hok Hmap. apply (wp_generate g Hg); [done|]. cbn zeta.
  set (changed := _ || _). cbn [info_table_cache ni set_info_table_cache set_info_table].
  set (it := next_header g (ni s)).
  assert (table_layout g it) as Hlay' by (destruct Hlay; by split).
  assert (ift_ok it) as Hok' by by apply next_header_ok.
  destruct (image_header g Hg it (block_state (ni s)) (block_mapping (ni s)) Hlay' Hok' eq_refl)
    as (H1 & H2 & _ & H3 & H4 & H5 & H6).
  split_and!.
  - done.
  - apply check_info_table_header_intro;
      [done|rewrite H5; apply Hok'|rewrite H6; apply Hok'|by rewrite H2|done|].
    destruct Hlay'. split; by rewrite ?H5, ?H6.
  - by rewrite H4.
  - rewrite H5. by apply image_state; [done|done|apply Hs].
  - rewrite H6. apply image_mapping; [done|done|apply Hs|done].
Qed.

Context `{Hl : !lower_contract (lower g)}.

(** [nmbm_write_mgmt_range] modifies good blocks of its range only, never
    turns a bad block into a good one, and on success the blocks the data
    occupies, from [start] to [end], lie inside the range. *)
Theorem write_mgmt_range_confined s ba limit data size :
  st_ok g s -> 0 <= ba -> limit <= block_count g ->
  0 < size < 2 ^ 32 -> size <= Z.of_nat (length data) ->
  wp (nmbm_write_mgmt_range ba limit data size)
    (fun r s' =>
       dev_steps g (blocks_in ba limit) (dev s) (dev s') /\ st_ok g s' /\
       (forall b, 0 <= b < block_count g ->
          bstate (block_state (ni s')) b = bstate (block_state (ni s)) b \/
          ba <= b < limit /\ bstate (block_state (ni s)) b = BLOCK_ST_GOOD /\
          bstate (block_state (ni s')) b = BLOCK_ST_BAD) /\
       match r with
       | None => True
       | Some (start, end_) => ba <= start < end_ /\ end_ <= limit
       end) s.
Proof using Hg Hl.
  intros. wp_call (wp_nmbm_write_mgmt_range g Hg); [done..|].
  intros r s' [[? ? ? [? _]] ?]. done.
Qed.

(** C6: [nmbm_update_info_table] terminates and keeps the layout of the
    management area: afterwards both change counters are zero, or the instance
    has become write-protected, or it was and nothing has been done.  The blocks
    it modifies lie in the management area, and the mapping table is not
    changed. *)
Theorem update_info_table_spec s :
  tab_ok g s ->
  wp nmbm_update_info_table
    (fun r s' =>
       tab_ok g s' /\ dev_steps g (area (ni s)) (dev s) (dev s') /\
       block_mapping (ni s') = block_mapping (ni s) /\
       mapping_blocks_top_ba (ni s') = mapping_blocks_top_ba (ni s) /\
       if r : bool then
         protected (ni s') = protected (ni s) /\
         (protected (ni s) = 0 -> block_state_changed (ni s') = 0 /\ block_mapping_changed (ni s') = 0) /\
         (protected (ni s) <> 0 -> s' = s)
       else protected (ni s) = 0 /\ protected (ni s') = 1) s.
Proof using Hg Hl.
  intros Hs. wp_call (wp_update_info_table g Hg); [done|]. intros r s' (Hrel & Hlay & Hr).
  pose proof (rel_keep _ _ _ Hrel) as [= K1 K2 K3 K4 K5 K6 K7].
  split_and!; [by split; [apply Hrel|]|apply Hrel|done|done|].
  destruct r; [|done]. destruct Hr as (? & Hc & ?). split_and!; [done| |done].
  intros Hp. by specialize (Hc Hp) as [= -> ->].
Qed.

(** Rebuilding the info tables from nothing.  [nmbm_rebuild_info_table]
    succeeds with a main table in place and the layout intact, or leaves the
    instance write-protected. *)
Theorem rebuild_info_table_spec s :
  base_ok g s ->
  wp nmbm_rebuild_info_table
    (fun r s' =>
       tab_ok g s' /\ dev_steps g (area (ni s)) (dev s) (dev s') /\
       if r : bool then main_table_ba (ni s') <> 0 /\ protected (ni s') = protected (ni s)
       else protected (ni s') = 1) s.
Proof using Hg Hl.
  intros Hs. wp_call (wp_rebuild g Hg); [exact Hs|by apply at_tables_init|].
  intros r s' (Hrel & Hlay & Hr). split_and!; [by split; [apply Hrel|]|apply Hrel|].
  destruct r; naive_solver.
Qed.

(** The rescue of the main table always succeeds, and leaves the backup
    table absent or behind the main table: the temporary table is never
    overwritten by the new main table. *)
Theorem rescue_main_table_succeeds s :
  tab_ok g s -> main_table_ba (ni s) <> 0 -> backup_table_ba (ni s) <> 0 ->
  block_state_changed (ni s) = 0 -> block_mapping_changed (ni s) = 0 ->
  wp nmbm_rescue_main_info_table
    (fun r s' => r = true /\ tab_ok g s' /\ main_table_ba (ni s') <> 0 /\
       (backup_table_ba (ni s') = 0 \/ main_table_ba (ni s') < backup_table_ba (ni s')) /\
       dev_steps g (area (ni s)) (dev s) (dev s')) s.
Proof using Hg Hl.
  intros [Hs Hlay] Hm Hb Hsc Hmc. pose proof (lay_cases _ Hlay) as [? ?].
  pose proof (lay_mapping _ Hlay).
  assert (at_tables g s s (main_table_ba (ni s)) (backup_table_ba (ni s))
    (mapping_blocks_ba (ni s)) (protected (ni s)) true) as Hat.
  { split; [by apply base_rel_refl|done|]. intros _. left. unfold counters. by rewrite Hsc, Hmc. }
  wp_call (wp_rescue_main g Hg); [exact Hs|exact Hat|lia..|].
  intros r s' (-> & Hrel & Hlay' & _ & Hm' & _).
  pose proof (lay_cases _ Hlay') as [? ?]. split_and!; [done| |done|lia|apply Hrel].
  by split; [apply Hrel|].
Qed.

(** * Logic blocks *)

(** C17: [nmbm_map_block] takes the topmost good spare block.  When the block at
    [mapping_blocks_top_ba] is good and not yet used, the logic block is mapped to
    it, the mapping stays injective and out of the management area, and the
    invariant of the instance is kept. *)
Theorem map_block_isolated s lb :
  inst_ok g s -> 0 <= lb < block_count g -> injective (ni s) -> isolated (ni s) ->
  mapping_blocks_ba (ni s) < mapping_blocks_top_ba (ni s) ->
  good (block_state (ni s)) (mapping_blocks_top_ba (ni s)) ->
  wp (nmbm_map_block lb)
    (fun r s' => r = true /\ inst_ok g s' /\
       phys_of (ni s') lb (mapping_blocks_top_ba (ni s)) /\
       injective (ni s') /\ isolated (ni s') /\
       mapping_blocks_top_ba (ni s') = mapping_blocks_top_ba (ni s) - 1 /\ dev s' = dev s) s.
Proof using Hg Hl.
  intros Hs Hlb Hinj Hiso Hlt Hgood. pose proof (lay_mapping _ (proj2 (io_tab _ _ Hs))).
  pose proof (bo_mapping _ _ (proj1 (io_tab _ _ Hs))).
  wp_call (wp_map_block g Hg); [done|done|]. intros r s' [Hop Hr].
  pose proof (op_frame _ _ _ _ _ Hop) as [= _ _ Fm _ _].
  destruct r.
  2:{ destruct Hr as [Hr _]. unfold spare_top in Hr.
      by rewrite good_desc_step, decide_True in Hr by done. }
  destruct Hr as (pb & Hsp & Hm & _ & _ & Ht & _ & Hd).
  destruct (map_keeps_isolation (ni s) lb pb _ (ni s') Hinj Hiso ltac:(lia) Hsp Hgood Hlt
    ltac:(lia) eq_refl Hm Fm Ht) as (-> & ? & ?).
  split_and!; try done; [apply Hop|]. unfold phys_of. rewrite Hm. apply list_lookup_insert_eq. lia.
Qed.

(** C18: a bad spare block at the top is given out twice.  When the blocks from
    [mapping_blocks_top_ba] down to the topmost good spare block are bad,
    [nmbm_map_block] maps a logic block to that good block, but lowers the address
    by one only, so that the block stays below it: a second call maps the next
    logic block to the same physical block, and both calls report success. *)
Theorem map_block_shares_spare s lb lb' pb :
  inst_ok g s -> 0 <= lb < block_count g -> 0 <= lb' < block_count g -> lb <> lb' ->
  mapping_blocks_ba (ni s) < pb < mapping_blocks_top_ba (ni s) -> good (block_state (ni s)) pb ->
  (forall b, pb < b <= mapping_blocks_top_ba (ni s) -> ~ good (block_state (ni s)) b) ->
  wp (let* r := nmbm_map_block lb in let* r' := nmbm_map_block lb' in ret (r, r'))
    (fun '(r, r') s' => r = true /\ r' = true /\ inst_ok g s' /\
       phys_of (ni s') lb pb /\ phys_of (ni s') lb' pb /\ ~ injective (ni s') /\
       mapping_blocks_top_ba (ni s') = mapping_blocks_top_ba (ni s) - 2) s.
Proof using Hg Hl.
  intros Hs Hlb Hlb' Hne Hpb Hgood Hbad. pose proof (bo_mapping _ _ (proj1 (io_tab _ _ Hs))) as Hlen.
  assert (forall n : nmbm_instance chip, block_state n = block_state (ni s) -> mapping_blocks_ba n = mapping_blocks_ba (ni s) ->
    pb <= mapping_blocks_top_ba n <= mapping_blocks_top_ba (ni s) -> spare_top n = Some pb) as Htop.
  { intros n E1 E2 Hn. unfold spare_top. rewrite E1, E2. apply good_desc_first; [lia|done|].
    intros y Hy. apply Hbad. lia. }
  apply wp_bind. wp_call (wp_map_block g Hg); [done|done|]. intros r s1 [Hop1 Hr]. rewrite (Htop (ni s)) in Hr by (done || lia).
  destruct r; [|by destruct Hr]. destruct Hr as (pb1 & [= <-] & Hm1 & Hb1 & Ha1 & Ht1 & _ & Hd1).
  apply wp_bind. wp_call (wp_map_block g Hg); [apply Hop1|done|]. intros r' s2 [Hop2 Hr']. rewrite (Htop (ni s1)) in Hr' by (done || lia).
  destruct r'; [|by destruct Hr']. destruct Hr' as (pb2 & [= <-] & Hm2 & _ & _ & Ht2 & _ & _). apply wp_ret.
  assert (phys_of (ni s2) lb pb) as P1.
  { unfold phys_of. rewrite Hm2, list_lookup_insert_ne by lia. rewrite Hm1. apply list_lookup_insert_eq. lia. }
  assert (phys_of (ni s2) lb' pb) as P2.
  { unfold phys_of. rewrite Hm2. apply list_lookup_insert_eq. rewrite Hm1, length_insert. lia. }
  pose proof (bo_area _ _ (proj1 (io_tab _ _ Hs))). pose proof (lay_mapping _ (proj2 (io_tab _ _ Hs))).
  split; [done|]. split; [done|]. split; [apply Hop2|].
  split; [exact P1|]. split; [exact P2|]. split; [|lia].
  intros Hinj. apply Hne. apply (Hinj lb lb' pb); [lia|lia|lia|exact P1|exact P2].
Qed.

(** [nmbm_erase_logic_block] terminates with [0] or [-EIO] and keeps the
    invariant.  It modifies only the physical block the logic block is mapped
    to and blocks of the management area, and changes no other mapping. *)
Theorem erase_logic_block_spec s lb :
  inst_ok g s -> 0 <= lb < block_count g ->
  wp (nmbm_erase_logic_block lb)
    (fun r s' => (r = 0 \/ r = - EIO) /\ inst_ok g s' /\
       dev_steps g (fun b => phys_of (ni s) lb b \/ region (ni s) b) (dev s) (dev s') /\
       forall i, 0 <= i -> i <> lb ->
         block_mapping (ni s') !! Z.to_nat i = block_mapping (ni s) !! Z.to_nat i) s.
Proof using Hg Hl.
  intros Hs Hlb. wp_call (wp_erase_logic_block g Hg); [done|done|]. intros r s' [Hop Hr].
  split_and!; [done|apply Hop|apply Hop|]. intros i Hi Hne. apply (op_map _ _ _ _ _ Hop); congruence.
Qed.

(** C26: every branch of [nmbm_erase_block_range]: the sanity checks return their
    code and change nothing; otherwise the logic blocks of the range are erased
    in order, each with [nmbm_erase_logic_block], and the result is [0] when all
    succeed, or [-EIO] with the address of the first one that fails, behind which
    nothing is erased; only blocks behind the range and the management area are
    modified. *)
Theorem erase_block_range_spec s addr size :
  inst_ok g s -> 0 <= addr -> 0 <= size -> addr + size < 2 ^ 64 ->
  wp (nmbm_erase_block_range addr size)
    (fun '(r, failed) s' =>
       match range_code g (ni s) addr size (flag_set g NMBM_F_READ_ONLY) with
       | Some v => r = v /\ failed = None /\ s' = s
       | None =>
           let a := addr / erasesize (lower g) in
           let b := (addr + size - 1) / erasesize (lower g) in
           inst_ok g s' /\ dev_steps g (touch_in (ni s) a b) (dev s) (dev s') /\
           (r = 0 /\ failed = None /\ erased_upto a s (b + 1) s' \/
            r = - EIO /\ exists lb s1, a <= lb <= b /\ failed = Some (ba2addr g lb) /\
              erased_upto a s lb s1 /\ nmbm_erase_logic_block lb s1 = Ret (- EIO) s')
       end) s.
Proof using Hg Hl.
  intros. wp_call (wp_erase_block_range g Hg); [done..|]. intros [r failed] s'.
  destruct (range_code _ _ _ _ _); [done|]. cbn zeta. intros [Hop Hr].
  split_and!; [apply Hop|apply Hop|done].
Qed.

(** [nmbm_check_bad_block] answers from the mapping and the block state
    table, and changes nothing. *)
Theorem check_bad_block_spec s addr :
  inst_ok g s -> 0 <= addr ->
  wp (nmbm_check_bad_block addr)
    (fun r s' => s' = s /\
       if addr >=? ba2addr g (data_block_count (ni s)) then r = - EINVAL
       else exists m, phys_of (ni s) (addr / erasesize (lower g)) m /\
         r = if (m <? 0) || (bstate (block_state (ni s)) m =? BLOCK_ST_BAD) then 1 else 0) s.
Proof using Hg. intros. by apply (wp_check_bad_block g Hg). Qed.

(** After [nmbm_mark_bad_block] has returned [0] the logic block is
    unmapped, so [nmbm_check_bad_block] reports it bad; the other mappings and
    the blocks behind them are left alone. *)
Theorem mark_then_check_bad s addr :
  inst_ok g s -> 0 <= addr -> addr < ba2addr g (data_block_count (ni s)) ->
  protected (ni s) = 0 -> flag_set g NMBM_F_READ_ONLY = false ->
  wp (let* r := nmbm_mark_bad_block addr in
      let* bad := nmbm_check_bad_block addr in
      ret (r, bad))
    (fun '(r, bad) s' => r = 0 /\ bad = 1 /\ inst_ok g s' /\
       dev_steps g (touch (ni s) (addr / erasesize (lower g))) (dev s) (dev s') /\
       forall i, 0 <= i -> i <> addr / erasesize (lower g) ->
         block_mapping (ni s') !! Z.to_nat i = block_mapping (ni s) !! Z.to_nat i) s.
Proof using Hg Hl.
  intros Hs Ha Hlt Hp Hro. apply wp_bind. wp_call (wp_mark_bad_block g Hg); [done|done|].
  unfold addr_code. rewrite Hp, Hro, Z.geb_leb. cbn [negb orb Z.eqb].
  destruct (Z.leb_spec (ba2addr g (data_block_count (ni s))) addr); [lia|].
  intros r s' (-> & Hop & m & Hm & Hneg). pose proof (op_frame _ _ _ _ _ Hop) as [= _ _ _ Hd _].
  apply wp_bind. wp_call (wp_check_bad_block g Hg); [apply Hop|done|]. rewrite Hd, Z.geb_leb.
  destruct (Z.leb_spec (ba2addr g (data_block_count (ni s))) addr); [lia|].
  intros bad s2 (-> & m' & Hm' & ->). unfold phys_of in *. rewrite Hm in Hm'. injection Hm' as <-.
  destruct (Z.ltb_spec m 0); [|lia]. apply wp_ret.
  split_and!; [done|done|apply Hop|apply Hop|].
  intros i Hi Hne. apply (op_map _ _ _ _ _ Hop); congruence.
Qed.

(** in read-only mode, and when the instance is write-protected, the
    modifying operations return [-EROFS] and leave instance and chip alone. *)
Theorem read_only_operations s addr size data oob mode :
  inst_ok g s -> flag_set g NMBM_F_READ_ONLY = true \/ protected (ni s) <> 0 ->
  nmbm_erase_block_range addr size s = Ret (- EROFS, None) s /\
  nmbm_write_range addr size data mode s = Ret (- EROFS, None) s /\
  nmbm_write_single_page addr (Some data) oob mode s = Ret (- EROFS) s /\
  nmbm_mark_bad_block addr s = Ret (- EROFS) s.
Proof using.
  intros Hs Hro. pose proof (st_geo _ _ (bo_st _ _ (proj1 (io_tab _ _ Hs)))) as Eg.
  assert (negb (protected (ni s) =? 0) || flag_set g NMBM_F_READ_ONLY = true) as E.
  { destruct Hro as [->|Hp]; [apply orb_true_r|].
    by destruct (Z.eqb_spec (protected (ni s)) 0). }
  unfold nmbm_erase_block_range, nmbm_write_range, nmbm_write_single_page, nmbm_mark_bad_block,
    bind, ask, gets. by rewrite Eg, E.
Qed.

(** * Sequences of calls *)

(** C1: an attached instance stays sound whatever its users do.  Any sequence of
    valid calls of the driver interface runs to its end, without an access
    outside an object and without an endless loop, and keeps the invariant; the
    chip is written, erased or marked only at blocks that logic blocks were
    mapped to at the start or that lie in the management area, and the data
    area keeps its size. *)
Theorem calls_keep_invariant cs s :
  inst_ok g s -> Forall valid_call cs ->
  wp (run_calls cs)
    (fun _ s' => inst_ok g s' /\ dev_steps g (owned (ni s)) (dev s) (dev s') /\
       data_block_count (ni s') = data_block_count (ni s) /\
       mgmt_start_ba (ni s') = mgmt_start_ba (ni s) /\
       mapping_blocks_top_ba (ni s') <= mapping_blocks_top_ba (ni s)) s.
Proof using Hg Hl.
  intros. wp_call (wp_run_calls g Hg); [done|done|]. intros _ s' [? ? [=] ? ? ? ?].
  split_and!; done || congruence.
Qed.

(** * Data *)

Section stored_data.
Context (page : chip -> Z -> list Z) `{Hn : !nand_content g page}.

(** C4: [nmbm_read_range] refines reading the logic address space.  A code that
    is not negative means that all [size] bytes have been read, and every byte
    of the buffer is the byte stored at its logic address.  Whatever the code,
    nothing on the chip is modified. *)
Theorem read_range_refines s addr size buf mode :
  inst_ok g s -> 0 <= addr -> 0 < size -> addr + size < 2 ^ 64 -> size <= Z.of_nat (length buf) ->
  protected (ni s) = 0 -> addr + size <= ba2addr g (data_block_count (ni s)) ->
  wp (nmbm_read_range addr size buf mode)
    (fun '(r, retlen, buf') s' =>
       dev_steps g none (dev s) (dev s') /\ length buf' = length buf /\
       (0 <= r -> retlen = Some size /\
          forall i, 0 <= i < size -> exists v, buf' !! Z.to_nat i = Some v /\
            lbyte g page s (addr + i) v)) s.
Proof using Hg Hl Hn.
  intros Hs Ha Hsz Hsum Hbuf Hp Hend.
  wp_call (wp_read_range g Hg); [by apply (reads_pages_data g Hg page)|done|lia..|].
  assert (range_code g (ni s) addr size false = None) as ->
    by (apply range_code_none; [done|done|lia..]).
  intros [[r retlen] buf'] s' (Hrel & Hlen & Hok & n & -> & Hn0 & Hr).
  split_and!; [apply Hrel|done|]. intros Hr0. split; [by rewrite Hr by auto|].
  intros i Hi. destruct (lookup_lt_is_Some_2 buf' (Z.to_nat i)) as [v Hv]; [lia|].
  exists v. split; [done|]. specialize (Hok Hr0 (Z.to_nat i) v ltac:(lia) Hv).
  by rewrite Z2Nat.id in Hok by lia.
Qed.

(** C2: [nmbm_write_range] stores its data.  When it returns [0], [*retlen] is
    the whole size and the byte at every logic address of the range is the byte
    of the buffer, provided no two logic blocks share a physical block. *)
Theorem write_range_stores s addr size data mode :
  inst_ok g s -> injective (ni s) -> 0 <= addr -> 0 < size -> addr + size < 2 ^ 64 ->
  size <= Z.of_nat (length data) -> protected (ni s) = 0 ->
  flag_set g NMBM_F_READ_ONLY = false -> addr + size <= ba2addr g (data_block_count (ni s)) ->
  wp (nmbm_write_range addr size data mode)
    (fun '(r, retlen) s' => (r = 0 \/ r = - EIO) /\
       (r = 0 -> retlen = Some size /\
          forall i v, 0 <= i < size -> data !! Z.to_nat i = Some v -> lbyte g page s' (addr + i) v)) s.
Proof using Hg Hl Hn.
  intros Hs Hinj Ha Hsz Hsum Hbuf Hp Hro Hend. unfold nmbm_write_range.
  apply wp_bind, wp_gets, wp_bind, wp_gets, wp_bind, wp_gets.
  rewrite (st_geo _ _ (bo_st _ _ (proj1 (io_tab _ _ Hs)))), Hp, Hro, Z.geb_leb, Z.gtb_ltb, u64_small by lia.
  cbn [negb orb Z.eqb].
  destruct (Z.leb_spec (ba2addr g (data_block_count (ni s))) addr); [lia|].
  destruct (Z.ltb_spec (ba2addr g (data_block_count (ni s))) (addr + size)); [lia|].
  destruct (Z.eqb_spec size 0); [lia|]. apply wp_bind.
  eapply wp_mono; [apply wp_and; [by apply (wp_write_range_loop g Hg)
    |by apply (write_range_loop_data g Hg page)]|].
  intros [r rem] s' [(_ & Hrem & Hr) Hw]. apply wp_ret.
  split; [lia|]. intros ->. destruct Hr as [[_ ->]|]; [|done].
  split; [by rewrite u64_small by lia; do 2 f_equal; lia|].
  intros i v Hi Hv. destruct (Hw eq_refl (Z.to_nat i) v ltac:(lia) Hv) as [Hb _].
  by rewrite Z2Nat.id in Hb by lia.
Qed.

(** C7: erasing a logic block does not lose the data of others: if no two logic
    blocks share a physical block and none is mapped into the management area,
    every page of every other mapped logic block reads as before. *)
Theorem erase_keeps_other_data s lb a :
  inst_ok g s -> injective (ni s) -> isolated (ni s) -> 0 <= lb < block_count g ->
  0 <= a -> a / erasesize (lower g) <> lb ->
  0 <= phys_block (ni s) (a / erasesize (lower g)) ->
  wp (nmbm_erase_logic_block lb) (fun _ s' => lpage g page s' a = lpage g page s a) s.
Proof using Hg Hl Hn.
  intros. wp_call (wp_erase_logic_block g Hg); [done|done|]. intros r s' [Hop _].
  eapply (op_lpage g Hg page); [exact Hop|done..|lia|done|done|congruence|done].
Qed.
End stored_data.
End theorems.

(** * Attaching *)

Section attach_theorems.
Context {chip : Type} {C : Crc32}.

(** C34: [nmbm_check_lower_members] and [nmbm_init_structure] together yield a
    sound geometry: for every device in range that is accepted, all sizes,
    masks, shifts and table offsets fit 32 bits and agree with each other, and
    the buffers have the sizes the operations rely on. *)
Theorem init_structure_sound (d d' : nmbm_lower_device chip) s :
  nld_bounds d -> nmbm_check_lower_members d = Some d' ->
  let g := (init_geometry d').1.1 in
  geom_ok g /\ pre_ok g (set_ni (nmbm_init_structure d') s).
Proof.
  intros Hb Hd. destruct (check_lower_members_exp _ _ Hd Hb) as (ks & ke & kw & Hc).
  split; [by eapply init_geometry_ok|by eapply init_structure_ok].
Qed.

(** C16: attaching a chip without a signature, with [NMBM_F_CREATE]: the call
    returns, either with [-ENODEV], or with [0] and the invariant of an attached
    instance established.  Only blocks of the management area are modified, so
    no data block is touched. *)
Theorem attach_creates d d' (s : nst chip) :
  nld_bounds d -> read_contract d -> nmbm_check_lower_members d = Some d' ->
  Z.land (flags d) NMBM_F_CREATE <> 0 -> Z.land (flags d) NMBM_F_READ_ONLY = 0 ->
  (forall sig s2, nmbm_find_signature (attach_init d' s) <> Ret (Some sig) s2) ->
  let g := (init_geometry d').1.1 in
  wp (nmbm_attach d)
    (fun r s' =>
       dev_steps g (fun b => create_mgmt_start g <= b < block_count g) (dev s) (dev s') /\
       (r = 0 /\ inst_ok g s' \/ r = - ENODEV)) s.
Proof.
  intros. eapply wp_mono; [by apply (wp_attach_new d d')|]. intros r s' [Hd Hr]. split; [done|].
  destruct Hr as [(? & ? & _)|?]; auto.
Qed.

(** The search for the signature terminates on every chip of at least 16
    blocks, only reads the chip, and reports a signature with the right magic
    number in a block not below [limit - 1]. *)
Theorem find_signature_terminates (g : nmbm_geometry chip) `{!lower_contract (lower g)} s :
  geom_ok g -> st_ok g s -> 16 <= block_count g < 2 ^ 24 ->
  nld_size (lower g) = block_count g * erasesize (lower g) -> nld_size (lower g) <= 2 ^ 63 ->
  1 <= max_ratio (lower g) < NMBM_MGMT_DIV - 1 -> 0 <= max_reserved_blocks (lower g) < 2 ^ 32 ->
  wp nmbm_find_signature
    (fun r s' => dev_steps g none (dev s) (dev s') /\ block_mapping (ni s') = block_mapping (ni s) /\
       match r with
       | None => True
       | Some (sig, sba) => magic (sig_header sig) = NMBM_MAGIC_SIGNATURE /\
           signature_limit g (block_count g) - 1 <= sba < block_count g
       end) s.
Proof.
  intros Hg Hs Hbc Hsz Hmax Hr Hm. rewrite Hsz in Hmax.
  wp_call (wp_find_signature g Hg); [done..|]. intros r s' [(? & _ & E) ?].
  split_and!; [done|by rewrite E|done].
Qed.
End attach_theorems.
