(* ===== verification/NmbmWitness.v ===== *)
(** The NMBM theorems on a concrete chip: a freshly attached instance of 64
    blocks of 8 pages, on which every hypothesis holds. *)

From stdpp Require Import base list numbers sets relations.
From Stdlib Require Import ZArith Lia Sorting.Sorted.
From S2P Require Import Prelude NmbmTypes NmbmChip NmbmBlocks NmbmTable NmbmAttach NmbmLogic.
From S2P Require Import NmbmSim NmbmSpec NmbmBlockSpec NmbmWalk NmbmTableSpec NmbmLogicSpec.
From S2P Require Import NmbmAttachSpec NmbmFormat NmbmData NmbmSim NmbmTheorems.
Local Open Scope Z_scope.

(** * The instance *)

Definition demo_sg : sim_geometry := mk_sim_geometry 64 8 64 16.
Definition demo_device : nmbm_lower_device sim := sim_device demo_sg NMBM_F_CREATE 4.
Definition demo_g : nmbm_geometry sim := (init_geometry demo_device).1.1.

(** Factory-bad blocks 3, 4 and 5. *)
Definition demo_chip : sim := sim_fresh demo_sg [3; 4; 5] [] [].
Definition demo_zero : nst sim := sim_state demo_sg NMBM_F_CREATE 4 demo_chip.

Definition demo_attached : outcome (nst sim) Z := nmbm_attach demo_device demo_zero.
Definition demo : nst sim := match demo_attached with Ret _ s => s | _ => demo_zero end.

Lemma demo_bounds : nld_bounds demo_device.
Proof. split; repeat split; vm_compute; (reflexivity || discriminate). Qed.

Lemma demo_checked : nmbm_check_lower_members demo_device = Some demo_device.
Proof. reflexivity. Qed.

Lemma demo_geom : geom_ok demo_g.
Proof.
  destruct (check_lower_members_exp _ _ demo_checked demo_bounds) as (ks & ke & kw & H).
  by eapply init_geometry_ok.
Qed.

#[export] Instance demo_contract : lower_contract (lower demo_g).
Proof. change (lower demo_g) with demo_device. apply _. Defined.

#[export] Instance demo_content : nand_content demo_g (sim_data demo_sg).
Proof. by apply (sim_nand_content demo_sg NMBM_F_CREATE 4). Defined.

Definition no_signature (o : outcome (nst sim) (option (nmbm_signature * Z))) : bool :=
  match o with Ret (Some _) _ => false | _ => true end.

Lemma no_signature_spec o sig s2 : no_signature o = true -> o <> Ret (Some sig) s2.
Proof. intros H ->. discriminate H. Qed.

Lemma demo_no_signature sig s2 :
  nmbm_find_signature (attach_init demo_device demo_zero) <> Ret (Some sig) s2.
Proof. apply no_signature_spec. vm_compute. reflexivity. Qed.

Definition returns_zero (o : outcome (nst sim) Z) : bool :=
  match o with Ret r _ => r =? 0 | _ => false end.

Lemma demo_result : returns_zero demo_attached = true.
Proof. vm_compute. reflexivity. Qed.

(** The state of a run that returns zero. *)
Lemma returned_state (m : M (nst sim) Z) (Q : Z -> nst sim -> Prop) s s0 :
  wp m Q s -> returns_zero (m s) = true -> Q 0 (match m s with Ret _ s => s | _ => s0 end).
Proof. unfold wp. destruct (m s) as [r s'| |]; [|done..]. cbn. intros H ->%Z.eqb_eq. done. Qed.

#[local] Opaque nmbm_attach.
Lemma demo_ok : inst_ok demo_g demo.
Proof.
  pose proof (wp_attach_new demo_device demo_device demo_zero demo_bounds
    (sim_read_contract demo_sg _ _) demo_checked ltac:(discriminate) eq_refl demo_no_signature) as H.
  destruct (returned_state _ _ _ demo_zero H demo_result) as [_ [(_ & Hok & _)|E]]; [exact Hok|].
  discriminate E.
Qed.
#[local] Transparent nmbm_attach.

Lemma demo_st : st_ok demo_g demo.
Proof. apply demo_ok. Qed.

Lemma demo_tab : tab_ok demo_g demo.
Proof. apply demo_ok. Qed.

(** A table whose entries that stand for a block are all different. *)
Lemma nodup_injective (n : nmbm_instance sim) :
  NoDup (filter (fun m => 0 <= m) (block_mapping n)) -> injective n.
Proof.
  intros H i j m Hi Hj Hm H1 H2. enough (Z.to_nat i = Z.to_nat j) by lia.
  revert H H1 H2. generalize (Z.to_nat i) (Z.to_nat j). generalize (block_mapping n).
  intros l. induction l as [|x l IH]; intros a b H H1 H2; [done|].
  rewrite filter_cons in H.
  assert (forall k, l !! k = Some m -> m ∈ filter (fun m => 0 <= m) l) as Hin
    by (intros k Hk; apply list_elem_of_filter; split; [done|by eapply list_elem_of_lookup_2]).
  case_decide.
  - apply NoDup_cons in H as [Hx H]. destruct a, b; cbn in H1, H2; simplify_eq; try done.
    + by destruct (Hx (Hin _ H2)).
    + by destruct (Hx (Hin _ H1)).
    + f_equal. by apply IH.
  - destruct a, b; cbn in H1, H2; simplify_eq; try done. f_equal. by apply IH.
Qed.

Lemma demo_injective : injective (ni demo).
Proof. apply nodup_injective, (bool_decide_unpack _). vm_compute. reflexivity. Qed.

Lemma demo_isolated : isolated (ni demo).
Proof.
  assert (Forall (fun m => ~ region (ni demo) m) (block_mapping (ni demo))) as H
    by (apply (bool_decide_unpack _); vm_compute; reflexivity).
  intros i m _ Hm. by eapply Forall_lookup_1 in H.
Qed.

(** * Witnesses *)

(** Close a hypothesis on concrete numbers. *)
Ltac conc :=
  repeat match goal with |- _ /\ _ => split end; vm_compute; (reflexivity || discriminate).

Lemma set_block_state_get_witness :
  wp (bind (nmbm_set_block_state 7 BLOCK_ST_BAD)
        (fun c => bind (nmbm_get_block_state 8) (fun st => ret (c, st))))
    (fun '(_, st) _ => st = BLOCK_ST_GOOD) demo.
Proof.
  eapply wp_mono; [apply (set_block_state_get demo_g demo_geom demo 7 BLOCK_ST_BAD 8 demo_st); conc|].
  intros [c st] s' (_ & -> & _). vm_compute. reflexivity.
Defined.

Lemma block_walk_refines_witness :
  wp (nmbm_block_walk true 2 1 10) (fun r s' => s' = demo /\ r = Some 6) demo.
Proof.
  eapply wp_mono; [apply (block_walk_refines demo_g demo_geom true demo 2 1 10 demo_st); conc|].
  intros r s' [-> ->]. split; [reflexivity|]. vm_compute. reflexivity.
Defined.

Lemma try_reserve_refines_witness :
  wp (nmbm_try_reserve_blocks 2 20 0 10) (fun r s' => s' = demo /\ r = Some 9) demo.
Proof.
  eapply wp_mono; [apply (try_reserve_refines demo_g demo_geom demo 2 20 10 demo_st); conc|].
  intros r s' (-> & -> & _). split; [reflexivity|]. vm_compute. reflexivity.
Defined.

Lemma build_mapping_injective_witness :
  wp nmbm_build_mapping_table (fun _ s' => injective (ni s')) demo.
Proof.
  eapply wp_mono; [apply (build_mapping_injective demo_g demo_geom demo demo_st); conc|].
  intros r s' (_ & _ & _ & _ & H). exact H.
Defined.

Lemma demo_layout : table_layout demo_g (info_table (ni demo)).
Proof. split; conc. Qed.

Lemma demo_ift : ift_ok (info_table (ni demo)).
Proof. split; [split|..]; unfold u32_ok; conc. Qed.

Lemma demo_map_range : Forall (fun m => - 2 ^ 31 <= m < 2 ^ 31) (block_mapping (ni demo)).
Proof. apply (bool_decide_unpack _). vm_compute. reflexivity. Qed.

Lemma info_table_roundtrip_witness :
  wp nmbm_generate_info_table_cache
    (fun _ s' => nmbm_check_header (info_table_cache (ni s')) (info_table_size demo_g) = true) demo.
Proof.
  eapply wp_mono; [apply (info_table_roundtrip demo_g demo_geom demo (proj1 demo_tab) demo_layout
    demo_ift demo_map_range)|]. intros c s' [H _]. exact H.
Defined.

Lemma write_mgmt_range_confined_witness :
  wp (nmbm_write_mgmt_range 48 60 (replicate 600 7) 600)
    (fun r _ => match r with None => True | Some (s, e) => 48 <= s < e /\ e <= 60 end) demo.
Proof.
  eapply wp_mono; [apply (write_mgmt_range_confined demo_g demo_geom demo 48 60 (replicate 600 7) 600
    demo_st); conc|]. intros r s' (_ & _ & _ & H). exact H.
Defined.

Lemma update_info_table_spec_witness : wp nmbm_update_info_table (fun _ s' => tab_ok demo_g s') demo.
Proof.
  eapply wp_mono; [apply (update_info_table_spec demo_g demo_geom demo demo_tab)|].
  intros r s' [H _]. exact H.
Defined.

Lemma rebuild_info_table_spec_witness : wp nmbm_rebuild_info_table (fun _ s' => tab_ok demo_g s') demo.
Proof.
  eapply wp_mono; [apply (rebuild_info_table_spec demo_g demo_geom demo (proj1 demo_tab))|].
  intros r s' [H _]. exact H.
Defined.

Lemma rescue_main_table_succeeds_witness :
  wp nmbm_rescue_main_info_table (fun r s' => r = true /\ tab_ok demo_g s') demo.
Proof.
  eapply wp_mono; [apply (rescue_main_table_succeeds demo_g demo_geom demo demo_tab); conc|].
  intros r s' (-> & H & _). split; [reflexivity|exact H].
Defined.

Lemma map_block_isolated_witness :
  wp (nmbm_map_block 2) (fun r s' => r = true /\ injective (ni s')) demo.
Proof.
  eapply wp_mono; [apply (map_block_isolated demo_g demo_geom demo 2 demo_ok); [conc|exact demo_injective
    |exact demo_isolated|conc|conc]|].
  intros r s' (-> & _ & _ & H & _). split; [reflexivity|exact H].
Defined.

Lemma erase_logic_block_spec_witness :
  wp (nmbm_erase_logic_block 2) (fun r s' => (r = 0 \/ r = - EIO) /\ inst_ok demo_g s') demo.
Proof.
  eapply wp_mono; [apply (erase_logic_block_spec demo_g demo_geom demo 2 demo_ok); conc|].
  intros r s' (H & H' & _). split; [exact H|exact H'].
Defined.

Lemma erase_block_range_spec_witness :
  wp (nmbm_erase_block_range 1024 512)
    (fun '(r, failed) _ => r = 0 /\ failed = None \/ r = - EIO) demo.
Proof.
  eapply wp_mono; [apply (erase_block_range_spec demo_g demo_geom demo 1024 512 demo_ok); conc|].
  intros [r f] s'.
  replace (range_code demo_g (ni demo) 1024 512 (flag_set demo_g NMBM_F_READ_ONLY))
    with (@None Z) by (vm_compute; reflexivity).
  intros (_ & _ & [(H1 & H2 & _)|[H _]]); [left; split; [exact H1|exact H2]|right; exact H].
Defined.

Lemma check_bad_block_spec_witness :
  wp (nmbm_check_bad_block 1024) (fun r s' => s' = demo) demo.
Proof.
  eapply wp_mono; [apply (check_bad_block_spec demo_g demo_geom demo 1024 demo_ok); conc|].
  intros r s' [-> _]. reflexivity.
Defined.

Lemma mark_then_check_bad_witness :
  wp (bind (nmbm_mark_bad_block 1024) (fun r => bind (nmbm_check_bad_block 1024) (fun b => ret (r, b))))
    (fun '(r, bad) _ => r = 0 /\ bad = 1) demo.
Proof.
  eapply wp_mono; [apply (mark_then_check_bad demo_g demo_geom demo 1024 demo_ok); conc|].
  intros [r b] s' (-> & -> & _). split; reflexivity.
Defined.

Lemma read_only_operations_witness :
  let s := set_ni (set_protected 1) demo in
  nmbm_erase_block_range 0 512 s = Ret (- EROFS, None) s.
Proof.
  assert (inst_ok demo_g (set_ni (set_protected 1) demo)) as Hok
    by (apply inst_ok_protected; exact demo_ok).
  apply (read_only_operations demo_g _ 0 512 [] None NMBM_MODE_PLACE_OOB Hok). right. discriminate.
Defined.

Definition demo_calls : list nmbm_call :=
  [call_erase_block_range 0 1024; call_write_range 10 100 (replicate 100 42) NMBM_MODE_PLACE_OOB;
   call_read_range 0 200 (replicate 200 0) NMBM_MODE_PLACE_OOB; call_mark_bad_block 2048;
   call_check_bad_block 2048; call_detach].

Lemma demo_calls_valid : Forall valid_call demo_calls.
Proof. repeat constructor; cbn; lia. Qed.

Lemma calls_keep_invariant_witness :
  wp (run_calls demo_calls) (fun _ s' => inst_ok demo_g s') demo.
Proof.
  eapply wp_mono; [apply (calls_keep_invariant demo_g demo_geom demo_calls demo demo_ok demo_calls_valid)|].
  intros _ s' [H _]. exact H.
Defined.

Lemma read_range_refines_witness :
  wp (nmbm_read_range 30 100 (replicate 100 0) NMBM_MODE_PLACE_OOB)
    (fun '(r, retlen, buf) _ => 0 <= r -> retlen = Some 100 /\
       forall i, 0 <= i < 100 -> exists v, buf !! Z.to_nat i = Some v /\
         lbyte demo_g (sim_data demo_sg) demo (30 + i) v) demo.
Proof.
  eapply wp_mono; [apply (read_range_refines demo_g demo_geom (sim_data demo_sg) demo 30 100
    (replicate 100 0) NMBM_MODE_PLACE_OOB demo_ok); conc|].
  intros [[r n] b] s' (_ & _ & H). exact H.
Defined.

Lemma write_range_stores_witness :
  wp (nmbm_write_range 30 100 (replicate 100 42) NMBM_MODE_PLACE_OOB)
    (fun '(r, retlen) s' => r = 0 -> forall i v, 0 <= i < 100 ->
       replicate 100 42 !! Z.to_nat i = Some v -> lbyte demo_g (sim_data demo_sg) s' (30 + i) v) demo.
Proof.
  eapply wp_mono; [apply (write_range_stores demo_g demo_geom (sim_data demo_sg) demo 30 100
    (replicate 100 42) NMBM_MODE_PLACE_OOB demo_ok demo_injective); conc|].
  intros [r n] s' (_ & H) Hr. apply (H Hr).
Defined.

Lemma erase_keeps_other_data_witness :
  wp (nmbm_erase_logic_block 2)
    (fun _ s' => lpage demo_g (sim_data demo_sg) s' 1536 = lpage demo_g (sim_data demo_sg) demo 1536) demo.
Proof.
  apply (erase_keeps_other_data demo_g demo_geom (sim_data demo_sg) demo 2 1536 demo_ok
    demo_injective demo_isolated); conc.
Defined.

Lemma init_structure_sound_witness : geom_ok (init_geometry demo_device).1.1.
Proof. apply (init_structure_sound demo_device demo_device demo demo_bounds demo_checked). Defined.

Lemma attach_creates_witness :
  wp (nmbm_attach demo_device) (fun r s' => r = 0 /\ inst_ok demo_g s' \/ r = - ENODEV) demo_zero.
Proof.
  eapply wp_mono; [apply (attach_creates demo_device demo_device demo_zero demo_bounds
    (sim_read_contract demo_sg _ _) demo_checked); [conc|conc|exact demo_no_signature]|].
  intros r s' [_ H]. exact H.
Defined.

Lemma find_signature_terminates_witness :
  wp nmbm_find_signature (fun r s' => block_mapping (ni s') = block_mapping (ni demo)) demo.
Proof.
  eapply wp_mono; [apply (find_signature_terminates demo_g demo demo_geom demo_st); conc|].
  intros r s' (_ & H & _). exact H.
Defined.

(** * A bad spare block *)

(** The same chip with one more factory-bad block, 59: after attaching it is the block at the
    top of the spare blocks. *)
Definition spare_chip : sim := sim_fresh demo_sg [3; 4; 5; 59] [] [].
Definition spare_zero : nst sim := sim_state demo_sg NMBM_F_CREATE 4 spare_chip.
Definition spare_attached : nst sim := match nmbm_attach demo_device spare_zero with Ret _ s => s | _ => spare_zero end.
Lemma spare_no_signature sig s2 :
  nmbm_find_signature (attach_init demo_device spare_zero) <> Ret (Some sig) s2.
Proof. apply no_signature_spec. vm_compute. reflexivity. Qed.

Lemma spare_result : returns_zero (nmbm_attach demo_device spare_zero) = true.
Proof. vm_compute. reflexivity. Qed.

#[local] Opaque nmbm_attach.
Lemma spare_ok : inst_ok demo_g spare_attached.
Proof.
  pose proof (wp_attach_new demo_device demo_device spare_zero demo_bounds
    (sim_read_contract demo_sg _ _) demo_checked ltac:(discriminate) eq_refl spare_no_signature) as H.
  destruct (returned_state _ _ _ spare_zero H spare_result) as [_ [(_ & Hok & _)|E]]; [exact Hok|].
  discriminate E.
Qed.
#[local] Transparent nmbm_attach.

Lemma spare_top_bad : mapping_blocks_top_ba (ni spare_attached) = 59 /\ bstate (block_state (ni spare_attached)) 59 = BLOCK_ST_BAD.
Proof. vm_compute. split; reflexivity. Qed.

(** Two logic blocks get block 58. *)
Lemma map_block_shares_spare_witness :
  wp (bind (nmbm_map_block 2) (fun r => bind (nmbm_map_block 7) (fun r' => ret (r, r'))))
    (fun '(r, r') s' => r = true /\ r' = true /\ phys_of (ni s') 2 58 /\ phys_of (ni s') 7 58) spare_attached.
Proof.
  destruct spare_top_bad as [Ht Hb].
  eapply wp_mono; [apply (map_block_shares_spare demo_g demo_geom spare_attached 2 7 58 spare_ok); [conc|conc|discriminate|conc|conc|]|].
  - rewrite Ht. intros b Hr. replace b with 59 by lia. unfold good. rewrite Hb. discriminate.
  - intros [r r'] s' (H1 & H2 & _ & H3 & H4 & _). auto.
Defined.

(** Attaching alone can do it: with 61 bad, a fresh chip maps logic blocks 46 and 47 both to
    block 60. *)
Definition shared_attached : outcome (nst sim) Z :=
  nmbm_attach demo_device (sim_state demo_sg NMBM_F_CREATE 4 (sim_fresh demo_sg [3; 4; 5; 61] [] [])).
Example attach_shares_spare :
  match shared_attached with
  | Ret r s => r = 0 /\ block_mapping (ni s) !! 46%nat = Some 60 /\ block_mapping (ni s) !! 47%nat = Some 60
  | _ => False
  end.
Proof. vm_compute. auto. Qed.
