(* ===== verification/NmbmPersistWitness.v ===== *)
(** Detaching and attaching the simulated chip: it meets the assumptions on chips that
    work, and a remapped block survives. *)

From stdpp Require Import base list numbers sets relations.
From Stdlib Require Import ZArith Lia.
From S2P Require Import Prelude NmbmTypes NmbmChip NmbmBlocks NmbmTable NmbmAttach NmbmLogic NmbmSim NmbmSpec NmbmBlockSpec NmbmWalk NmbmTableSpec NmbmLogicSpec NmbmAttachSpec NmbmFormat NmbmData NmbmStored NmbmSave NmbmLoad NmbmPersist NmbmWitness.
Local Open Scope Z_scope.
Local Open Scope cprog_scope.

(** * The simulated chip works *)

Section sim_reliable.
Context (sg : sim_geometry) (fl ratio : Z) (Hp : 0 < sg_pages sg) (Hw : 0 < sg_writesize sg).

Definition sim_marked (c : sim) (b : Z) : bool := zmem b (sim_bad c).

Record sim_sound (c : sim) (b : Z) : Prop := {
  ss_unmarked : sim_marked c b = false;
  ss_erases : zmem b (erase_fails c) = false;
  ss_writes : zmem b (write_fails c) = false;
  ss_pages : exists blk, sim_blocks c !! Z.to_nat b = Some blk /\ length blk = Z.to_nat (sg_pages sg)
}.

(** Writing a page and erasing a block keep the pages of all blocks. *)
Lemma sim_sound_insert c i blk b :
  (forall old, sim_blocks c !! i = Some old -> length old = Z.to_nat (sg_pages sg) ->
     length blk = Z.to_nat (sg_pages sg)) ->
  sim_sound c b ->
  sim_sound (mk_sim (<[i := blk]> (sim_blocks c)) (sim_bad c) (erase_fails c) (write_fails c)) b.
Proof.
  intros Hlen [S1 S2 S3 (old & S4 & S5)]. split; try done. cbn. destruct (decide (i = Z.to_nat b)) as [->|Hne].
  - exists blk. rewrite list_lookup_insert_eq by by eapply lookup_lt_Some. split; [done|]. by eapply Hlen.
  - exists old. by rewrite list_lookup_insert_ne.
Qed.

Lemma sim_write_keeps addr data oob mode c r c' :
  sim_write sg addr data oob mode c = (r, c') ->
  forall b, sim_marked c' b = sim_marked c b /\ (sim_sound c b -> sim_sound c' b).
Proof using.
  unfold sim_write. destruct (out_of_chip sg addr); [by intros [= <- <-]|].
  destruct (zmem _ _); [by intros [= <- <-]|].
  destruct (sim_blocks c !! _) as [blk|] eqn:E; [|by intros [= <- <-]].
  destruct (blk !! _) as [[d o]|]; [|by intros [= <- <-]]. intros [= <- <-] b. split; [done|].
  apply sim_sound_insert. intros old Eo Hlen. rewrite E in Eo. injection Eo as <-. by rewrite length_insert.
Qed.

Lemma sim_erase_keeps addr c r c' :
  sim_erase sg addr c = (r, c') ->
  forall b, sim_marked c' b = sim_marked c b /\ (sim_sound c b -> sim_sound c' b).
Proof using.
  unfold sim_erase. destruct (out_of_chip sg addr); [by intros [= <- <-]|].
  destruct (zmem _ _); intros [= <- <-] b; [done|]. split; [done|].
  apply sim_sound_insert. intros old _ _. unfold blank_block. by rewrite length_replicate.
Qed.

Lemma in_chip_addr addr n :
  sg_blocks sg = n -> 0 <= addr / sg_erasesize sg < n -> out_of_chip sg addr = false.
Proof using Hp Hw.
  intros <- Hb. pose proof (sg_erasesize_pos sg Hp Hw) as He. unfold out_of_chip.
  pose proof (Z.div_mod addr (sg_erasesize sg) ltac:(lia)).
  pose proof (Z.mod_pos_bound addr (sg_erasesize sg) He).
  apply orb_false_iff. rewrite Z.geb_leb, Z.ltb_ge, Z.leb_gt. nia.
Qed.

Lemma sim_reliable (g : nmbm_geometry sim) :
  lower g = sim_device sg fl ratio -> block_count g = sg_blocks sg ->
  nand_reliable g (sim_data sg) sim_marked sim_sound.
Proof using Hp Hw.
  intros El En. pose proof (sg_erasesize_pos sg Hp Hw) as He.
  split; [by apply (sim_nand_content sg fl ratio)|by intros c b []| |rewrite El; cbn..].
  - intros B c c' b Hstep HB.
    inversion Hstep as [f c1 r c2 Hf Hr|f addr data oob mode c1 r d2 o2 c2 Hf Hr|f addr c1 r c2 Hf Hr
      |f addr data oob mode c1 r c2 Hf HB' Hr|f addr c1 r c2 Hf HB' Hr|f addr c1 r c2 Hf HB' Hr];
      subst; rewrite El in *; cbn in *; try done; injection Hf as <-.
    + unfold sim_read in Hr. destruct (out_of_chip sg addr); [by injection Hr as <- <- <- <-|].
      destruct (sim_page sg c addr). by injection Hr as <- <- <- <-.
    + unfold sim_is_bad in Hr. destruct (out_of_chip sg addr); by injection Hr as <- <-.
    + by eapply sim_write_keeps.
    + by eapply sim_erase_keeps.
    + unfold sim_mark_bad in Hr. destruct (out_of_chip sg addr); injection Hr as <- <-; [done|].
      assert (b <> sim_block_of sg addr) as Hne by (unfold sim_block_of; intros ->; done).
      assert (zmem b (sim_block_of sg addr :: sim_bad c) = zmem b (sim_bad c)) as E.
      { unfold zmem. cbn. by destruct (Z.eqb_spec b (sim_block_of sg addr)). }
      split; [exact E|]. intros [S1 S2 S3 S4]. split; try done. exact (eq_trans E S1).
  - eexists. split; [done|]. intros ba c r c' Hba. unfold sim_is_bad.
    assert (ba * sg_erasesize sg / sg_erasesize sg = ba) as Ed by (apply Z.div_mul; lia).
    rewrite (in_chip_addr _ _ (eq_sym En)) by (rewrite Ed; lia). unfold sim_block_of. rewrite Ed.
    intros [= <- <-]. unfold sim_marked. by destruct (zmem ba (sim_bad c)).
  - intros f addr data oob mode c r d' o' c' [= <-] Hba _. unfold sim_read.
    rewrite (in_chip_addr _ _ (eq_sym En)) by done.
    destruct (sim_page sg c addr). by intros [= <- <- <- <-].
  - intros f addr data oob mode c r c' [= <-] Hba [S1 S2 S3 (blk & S4 & S5)] Hlen Hwr.
    split; [|by eapply sim_write_keeps]. unfold sim_write in Hwr.
    rewrite (in_chip_addr _ _ (eq_sym En)) in Hwr by done. unfold sim_block_of in Hwr. rewrite S3, S4 in Hwr.
    destruct (lookup_lt_is_Some_2 blk (Z.to_nat (sim_page_of sg addr))) as [[p o] Hpo].
    { rewrite S5. apply Z2Nat.inj_lt; [by apply (sim_page_of_nonneg sg)|lia|]. unfold sim_page_of.
      apply Z.div_lt_upper_bound; [lia|]. pose proof (Z.mod_pos_bound addr (sg_erasesize sg) He).
      unfold sg_erasesize in *. lia. }
    rewrite Hpo in Hwr. by injection Hwr as <- _.
  - intros f addr c r c' [= <-] Hba [S1 S2 S3 S4] Her.
    split; [|by eapply sim_erase_keeps]. unfold sim_erase in Her.
    rewrite (in_chip_addr _ _ (eq_sym En)) in Her by done. unfold sim_block_of in Her. rewrite S2 in Her.
    by injection Her as <- _.
Qed.
End sim_reliable.

(** * A remapped block *)

#[export] Instance demo_reliable : nand_reliable demo_g (sim_data demo_sg) (sim_marked) (sim_sound demo_sg).
Proof. by apply (sim_reliable demo_sg NMBM_F_CREATE 4). Defined.

Lemma demo_sizes : sizeof_nmbm_signature <= writesize (lower demo_g).
Proof. vm_compute. discriminate. Qed.

(** The demonstration chip after logic block 10 has been mapped to a spare block. *)
Definition remapped : nst sim := match nmbm_map_block 10 demo with Ret _ s => s | _ => demo end.

Definition returns_true (o : outcome (nst sim) bool) : bool :=
  match o with Ret r _ => r | _ => false end.

Lemma remapped_ok : inst_ok demo_g remapped.
Proof.
  assert (wp (nmbm_map_block 10) (fun r s' => r = true -> inst_ok demo_g s') demo) as H.
  { wp_call (wp_map_block demo_g demo_geom); [apply demo_ok|by vm_compute|]. intros r s' [Hop _] _. apply Hop. }
  unfold remapped. assert (returns_true (nmbm_map_block 10 demo) = true) as E by (vm_compute; reflexivity).
  unfold wp in H. destruct (nmbm_map_block 10 demo) as [r s| |]; [|done..]. by apply H.
Qed.

(** Deciding what is stored. *)
Fixpoint stored_b (c : sim) (a : Z) (l : list Z) : bool :=
  match l with
  | [] => true
  | v :: l => bool_decide (cbyte demo_g (sim_data demo_sg) c a = Some v) && stored_b c (a + 1) l
  end.

Lemma stored_b_spec c a l : stored_b c a l = true -> stored demo_g (sim_data demo_sg) c a l.
Proof.
  revert a. induction l as [|v l IH]; intros a H i w Hi; [by rewrite lookup_nil in Hi|].
  cbn in H. apply andb_true_iff in H as [H1%bool_decide_eq_true H2]. destruct i as [|i]; cbn in Hi.
  - injection Hi as <-. by rewrite Z.add_0_r.
  - replace (a + Z.of_nat (S i)) with (a + 1 + Z.of_nat i) by lia. by apply (IH _ H2).
Qed.

(** An erased block holds no table. *)
Lemma blank_no_header c b :
  stored_b c (b * 512) (replicate 32 255) = true -> no_header demo_g (sim_data demo_sg) c b.
Proof.
  intros H%stored_b_spec l Hlen Hst. replace l with (replicate 32 255); [vm_compute; reflexivity|].
  change (erasesize (lower demo_g)) with 512 in Hst.
  apply list_eq_same_length with 32%nat; [done|done|]. intros i x y _ Hx%H Hy%Hst. congruence.
Qed.

Lemma forall_range (P : Z -> Prop) a n : Forall P (seqZ a n) -> forall b, a <= b < a + n -> P b.
Proof. intros H b Hb. eapply Forall_forall in H; [exact H|]. apply elem_of_seqZ. lia. Qed.

Definition entry_fine (m : Z) : bool := (m <? 48) || ((58 <? m) && (m <? 63)).

Definition sound_b (c : sim) (b : Z) : bool :=
  negb (sim_marked c b) && negb (zmem b (erase_fails c)) && negb (zmem b (write_fails c)) &&
  match sim_blocks c !! Z.to_nat b with Some blk => (length blk =? 8)%nat | None => false end.

Lemma sound_b_spec c b : sound_b c b = true -> sim_sound demo_sg c b.
Proof.
  unfold sound_b. intros [[[H1%negb_true_iff H2%negb_true_iff]%andb_true_iff H3%negb_true_iff]%andb_true_iff H4]%andb_true_iff.
  split; try done. destruct (sim_blocks c !! Z.to_nat b) as [blk|]; [|done]. exists blk. split; [done|].
  by apply Nat.eqb_eq in H4.
Qed.

Lemma one_table_block b : good (block_state (ni remapped)) b /\ sound_b (dev remapped) b = true ->
  table_blocks (sim_sound demo_sg) remapped b (nblk demo_g).
Proof.
  intros [H1 H2] x Hx. change (nblk demo_g) with 1 in Hx. assert (x = b) as -> by lia.
  split; [done|by apply sound_b_spec].
Qed.

Definition signature_bytes_read : list Z := take 48 (sim_data demo_sg (dev remapped) (63 * 512)).

Lemma remapped_signature :
  signature_at demo_g (sim_data demo_sg) sim_marked (dev remapped) 63 (signature (ni remapped)).
Proof.
  split; [vm_compute; reflexivity| |vm_compute; reflexivity|].
  - exists signature_bytes_read. split_and!; [vm_compute; reflexivity| |vm_compute; reflexivity|vm_compute; reflexivity].
    apply stored_b_spec. vm_compute. reflexivity.
  - intros b off Hb. change (block_count demo_g) with 64 in Hb. lia.
Qed.

(** The members of the instance the conditions speak of. *)
Lemma remapped_members :
  mgmt_start_ba (ni remapped) = 48 /\ main_table_ba (ni remapped) = 48 /\ backup_table_ba (ni remapped) = 51 /\
  mapping_blocks_ba (ni remapped) = 52 /\ mapping_blocks_top_ba (ni remapped) = 58 /\
  signature_ba (ni remapped) = 63 /\ data_block_count (ni remapped) = 48 /\
  counters (ni remapped) = (0, 1) /\ protected (ni remapped) = 0.
Proof. vm_compute. done. Qed.

Lemma take_forallb {A} (f : A -> bool) n (l : list A) : forallb f (take n l) = true ->
  forall i x, (i < n)%nat -> l !! i = Some x -> f x = true.
Proof.
  intros H i x Hi Hx. rewrite forallb_forall in H. apply H, list_elem_of_In, (list_elem_of_lookup_2 _ i).
  by rewrite lookup_take_lt.
Qed.

Lemma remapped_entries_fine i m : (i < 48)%nat -> block_mapping (ni remapped) !! i = Some m -> entry_fine m = true.
Proof. revert i m. apply take_forallb. vm_compute. reflexivity. Qed.

#[local] Opaque remapped.
Lemma remapped_persistent :
  persistent demo_g (sim_data demo_sg) sim_marked (sim_sound demo_sg) remapped.
Proof.
  destruct remapped_members as (E1 & E2 & E3 & E4 & E5 & E6 & E7 & E8 & E9).
  split; rewrite ?E1, ?E2, ?E3, ?E5, ?E6, ?E7; try (change (nblk demo_g) with 1).
  - apply remapped_ok.
  - reflexivity.
  - split; rewrite ?E2, ?E3, ?E4; [by vm_compute|by vm_compute| |];
      (apply one_table_block; split; vm_compute; reflexivity).
  - done.
  - split; [split; vm_compute; discriminate|]. split; [split|..]; split; vm_compute; (reflexivity || discriminate).
  - rewrite E8. discriminate.
  - lia.
  - intros b Hb _. split.
    + revert b Hb. apply (forall_range (fun b => sim_marked (dev remapped) b = false) 49 2).
      apply Forall_forall. intros b [H1 H2]%elem_of_seqZ. assert (b = 49 \/ b = 50) as [-> | ->] by lia;
        vm_compute; reflexivity.
    + apply blank_no_header. assert (b = 49 \/ b = 50) as [-> | ->] by lia; vm_compute; reflexivity.
  - intros i m Hi Hm. assert (entry_fine m = true) as He by (apply (remapped_entries_fine i); [lia|exact Hm]).
    unfold entry_fine in He. destruct (Z.ltb_spec m 48); [lia|].
    destruct (Z.ltb_spec 58 m), (Z.ltb_spec m 63); [lia|discriminate He..].
  - split; [lia|exists 60; split; [vm_compute; reflexivity|lia]|]. intros i m Hi. lia.
  - split; vm_compute; reflexivity.
  - vm_compute; discriminate.
  - apply remapped_signature.
  - vm_compute. reflexivity.
  - vm_compute. reflexivity.
  - vm_compute. reflexivity.
Qed.

