(* ===== verification/NmbmMtd.v ===== *)
(** The MTD driver on top of NMBM ([nmbm-mtd.c]): the callbacks through which
    NMBM reaches the lower MTD device, the operations of the upper MTD device,
    the device lock, and probing and removal.

    The functions of the kernel's MTD layer are members of [mtd_info]. *)

From stdpp Require Import base list numbers.
From Stdlib Require Import ZArith Lia.
From S2P Require Import Prelude NmbmTypes NmbmChip NmbmBlocks NmbmTable NmbmAttach NmbmLogic.
Local Open Scope Z_scope.
Local Open Scope cprog_scope.

Definition NMBM_MAX_RATIO_DEFAULT : Z := 1.
Definition NMBM_MAX_BLOCKS_DEFAULT : Z := 256.

Definition ENOMEM : Z := 12.
Definition EUCLEAN : Z := 117.
Definition EPROBE_DEFER : Z := 517.
Definition ENOTSUPP : Z := 524.

(** [ops->mode]; the member is an [unsigned int]. *)
Inductive mtd_mode :=
| MTD_OPS_PLACE_OOB | MTD_OPS_AUTO_OOB | MTD_OPS_RAW | MTD_OPS_OTHER.

(** The state of a flash device. *)
Inductive flstate_t := FL_READY | FL_ERASING | FL_READING | FL_WRITING | FL_PM_SUSPENDED.
#[export] Instance flstate_eq_dec : EqDecision flstate_t.
Proof. solve_decision. Defined.

(** [struct mtd_oob_ops]; a buffer is [None] for a null pointer. *)
Record mtd_oob_ops := mk_mtd_oob_ops {
  ops_mode : mtd_mode;
  ops_len : Z;
  ops_retlen : Z;
  ops_ooblen : Z;
  ops_oobretlen : Z;
  ops_ooboffs : Z;
  ops_datbuf : option (list Z);
  ops_oobbuf : option (list Z)
}.

Section mtd.
(** [mchip] is the state of the lower device behind the MTD layer. *)
Context {mchip : Type} {C : Crc32}.

(** The lower [struct mtd_info] with the functions of the MTD layer on it.  A
    buffer argument holds the bytes of the request and is returned with its new
    contents. *)
Record mtd_info := mk_mtd_info {
  mtd_size : Z;
  mtd_erasesize : Z;
  mtd_writesize : Z;
  mtd_oobsize : Z;
  mtd_oobavail_member : Z;
  mtd_erasesize_shift : Z;
  mtd_writesize_shift : Z;
  mtd_erasesize_mask : Z;
  mtd_writesize_mask : Z;
  bitflip_threshold : Z;
  ecc_strength : Z;
  ecc_corrected : mchip -> Z;
  ecc_failed : mchip -> Z;
  mtd_oobavail : mtd_mode -> Z;
  mtd_read_oob : Z -> mtd_mode -> option (list Z) -> option (list Z) -> mchip ->
    Z * option (list Z) * option (list Z) * mchip;
  mtd_write_oob : Z -> mtd_mode -> option (list Z) -> option (list Z) -> mchip -> Z * mchip;
  mtd_erase : Z -> Z -> mchip -> Z * mchip;
  mtd_block_isbad : Z -> mchip -> Z * mchip;
  mtd_block_markbad : Z -> mchip -> Z * mchip
}.

(** What the callbacks change: the lower device and [nm->upper.ecc_stats]. *)
Record lchip := mk_lchip {
  lc_mtd : mchip;
  upper_corrected : Z;
  upper_failed : Z
}.

Definition lower_mode (mode : nmbm_oob_mode) : mtd_mode :=
  match mode with
  | NMBM_MODE_PLACE_OOB => MTD_OPS_PLACE_OOB
  | NMBM_MODE_AUTO_OOB => MTD_OPS_AUTO_OOB
  | NMBM_MODE_RAW => MTD_OPS_RAW
  end.

(** * The lower callbacks *)

Section lower.
Context (lower : mtd_info).

(** The first [n] bytes behind a pointer, and storing them back. *)
Definition buf_part (n : Z) (b : list Z) : list Z := take (Z.to_nat n) b.
Definition buf_back (b : list Z) (part : option (list Z)) : list Z :=
  match part with None => b | Some p => blit b 0 p end.

Definition nmbm_lower_read_page : read_page_fn lchip := fun addr buf oob mode c =>
  let m := lower_mode mode in
  let datbuf := buf_part (mtd_writesize lower) <$> buf in
  let oobbuf := buf_part (mtd_oobavail lower m) <$> oob in
  let '(r, dat', oob', mc) := mtd_read_oob lower addr m datbuf oobbuf (lc_mtd c) in
  let c := mk_lchip mc (ecc_corrected lower mc) (ecc_failed lower mc) in
  let buf := (fun b => buf_back b dat') <$> buf in
  let oob := (fun b => buf_back b oob') <$> oob in
  (* Report error on failure (including ecc error) *)
  if (r <? 0) && negb (r =? - EUCLEAN) then (r, buf, oob, c)
  else if r =? - EUCLEAN then
    (* report bitflips above the threshold *)
    (i32 (Z.min (u32 (bitflip_threshold lower + 1)) (ecc_strength lower)), buf, oob, c)
  else (0, buf, oob, c).

Definition nmbm_lower_write_page : write_page_fn lchip := fun addr buf oob mode c =>
  let m := lower_mode mode in
  let datbuf := buf_part (mtd_writesize lower) <$> buf in
  let oobbuf := buf_part (mtd_oobavail lower m) <$> oob in
  let '(r, mc) := mtd_write_oob lower addr m datbuf oobbuf (lc_mtd c) in
  (r, mk_lchip mc (upper_corrected c) (upper_failed c)).

Definition nmbm_lower_erase_block : block_fn lchip := fun addr c =>
  let '(r, mc) := mtd_erase lower addr (mtd_erasesize lower) (lc_mtd c) in
  (r, mk_lchip mc (upper_corrected c) (upper_failed c)).

Definition nmbm_lower_is_bad_block : block_fn lchip := fun addr c =>
  let '(r, mc) := mtd_block_isbad lower addr (lc_mtd c) in
  (r, mk_lchip mc (upper_corrected c) (upper_failed c)).

Definition nmbm_lower_mark_bad_block : block_fn lchip := fun addr c =>
  let '(r, mc) := mtd_block_markbad lower addr (lc_mtd c) in
  (r, mk_lchip mc (upper_corrected c) (upper_failed c)).

End lower.

(** * The upper device *)

(** The part of [struct nmbm_mtd] that changes: the NMBM instance with the
    lower device, [nm->page_cache] and [nm->state]. *)
Record mst := mk_mst {
  m_nst : nst lchip;
  m_cache : list Z;
  m_state : flstate_t
}.
Abbreviation prog := (M mst).

Definition set_m_nst (n : nst lchip) (s : mst) : mst := mk_mst n (m_cache s) (m_state s).
Definition set_m_cache (c : list Z) (s : mst) : mst := mk_mst (m_nst s) c (m_state s).
Definition set_m_state (f : flstate_t) (s : mst) : mst := mk_mst (m_nst s) (m_cache s) f.

(** A call of NMBM. *)
Definition call_nmbm {A} (m : M (nst lchip) A) : prog A := fun s =>
  match m (m_nst s) with
  | Ret a n => Ret a (set_m_nst n s)
  | Fault => Fault
  | Diverge => Diverge
  end.

(** One round of [nmbm_get_device] under the lock: the new state of the device,
    or [None] when the caller has to wait. *)
Definition get_device_try (state new_state : flstate_t) : option flstate_t :=
  if decide (state = FL_READY) then Some new_state
  else if decide (new_state = FL_PM_SUSPENDED /\ state = FL_PM_SUSPENDED) then Some state
  else None.

(** Alone, a caller that has to wait waits for ever. *)
Definition nmbm_get_device (new_state : flstate_t) : prog unit := fun s =>
  match get_device_try (m_state s) new_state with
  | Some f => Ret tt (set_m_state f s)
  | None => Diverge
  end.

Definition nmbm_release_device : prog unit := modify (set_m_state FL_READY).

Section upper.
Context (lower : mtd_info).

(** [mtd->size] of the upper device; its other members are copies of the lower
    device's. *)
Context (upper_size : Z).

(** Returns the code and [instr->fail_addr], [None] when it is not set. *)
Definition nmbm_mtd_erase (addr len : Z) : prog (Z * option Z) :=
  do* nmbm_get_device FL_ERASING in
  let* (r, failed) := call_nmbm (nmbm_erase_block_range addr len) in
  do* nmbm_release_device in
  if r =? 0 then ret (0, failed) else ret (- EIO, failed).

(** [memcpy(buf + pos, bytes, length bytes)] into a buffer of the caller. *)
Definition ops_put (buf : option (list Z)) (pos : Z) (bytes : list Z) : prog (option (list Z)) :=
  match buf with
  | Some b => if in_bounds b pos (Z.of_nat (length bytes)) then ret (Some (blit b pos bytes)) else fault
  | None => fault
  end.

(** The [n] bytes at [buf + pos] of a buffer of the caller. *)
Definition ops_get (buf : option (list Z)) (pos n : Z) : prog (list Z) :=
  match buf with
  | Some b => if in_bounds b pos n then ret (slice b pos n) else fault
  | None => fault
  end.

Definition m_cache_get (off n : Z) : prog (list Z) :=
  let* c := gets m_cache in
  if in_bounds c off n then ret (slice c off n) else fault.

Definition m_cache_put (off : Z) (bytes : list Z) : prog unit :=
  let* c := gets m_cache in
  if in_bounds c off (Z.of_nat (length bytes)) then modify (set_m_cache (blit c off bytes))
  else fault.

(** [ret = nmbm_read_single_page(nm->ni, addr, datcache, oobcache, mode)], where
    the two pointers are into [nm->page_cache] or null. *)
Definition read_page_to_cache (addr : Z) (dat oob : bool) (mode : nmbm_oob_mode) : prog Z :=
  let ws := mtd_writesize lower in
  let* d := if dat then let* b := m_cache_get 0 ws in ret (Some b) else ret None in
  let* o := if oob then let* b := m_cache_get ws (mtd_oobsize lower) in ret (Some b)
            else ret None in
  let* (r, d', o') := call_nmbm (nmbm_read_single_page addr d o mode) in
  do* match d' with Some b => m_cache_put 0 b | None => ret tt end in
  do* match o' with Some b => m_cache_put ws b | None => ret tt end in
  ret r.

(** [chklen = total - start; if (chklen > len) chklen = len;] *)
Definition chunk_len (total start len : Z) : Z :=
  let chklen := u64 (u32 (total - start)) in
  if chklen >? len then len else chklen.

(** The same for the spare bytes, where [maxooblen] is a [size_t]. *)
Definition oob_chunk_len (maxooblen ooboffs len : Z) : Z :=
  let chklen := u64 (maxooblen - ooboffs) in
  if chklen >? len then len else chklen.

(** [addr & ~nm->lower->writesize_mask]; the mask is an [unsigned int]. *)
Definition page_addr (addr : Z) : Z :=
  Z.land addr (u32 (Z.lnot (mtd_writesize_mask lower))).

(** The members of [ops] the two loops advance. *)
Record ops_pos := mk_ops_pos {
  op_len : Z; op_ooblen : Z; op_col : Z; op_ooboffs : Z;
  op_retlen : Z; op_oobretlen : Z;
  op_datbuf : option (list Z); op_oobbuf : option (list Z)
}.

Definition ops_start (addr : Z) (ops : mtd_oob_ops) : ops_pos :=
  mk_ops_pos (ops_len ops) (ops_ooblen ops) (u32 (Z.land addr (mtd_writesize_mask lower)))
    (ops_ooboffs ops) 0 0 (ops_datbuf ops) (ops_oobbuf ops).

Definition ops_end (ops : mtd_oob_ops) (p : ops_pos) : mtd_oob_ops :=
  mk_mtd_oob_ops (ops_mode ops) (ops_len ops) (op_retlen p) (ops_ooblen ops) (op_oobretlen p)
    (ops_ooboffs ops) (op_datbuf p) (op_oobbuf p).

(** Moving the data and the spare bytes of one page to the caller. *)
Definition move_data_out (p : ops_pos) : prog ops_pos :=
  if op_len p =? 0 then ret p
  else
    let chklen := chunk_len (mtd_writesize lower) (op_col p) (op_len p) in
    let* bytes := m_cache_get (op_col p) chklen in
    let* b := ops_put (op_datbuf p) (op_retlen p) bytes in
    ret (mk_ops_pos (u64 (op_len p - chklen)) (op_ooblen p) 0 (op_ooboffs p)
           (op_retlen p + chklen) (op_oobretlen p) b (op_oobbuf p)).

Definition move_oob_out (maxooblen : Z) (p : ops_pos) : prog ops_pos :=
  if op_ooblen p =? 0 then ret p
  else
    let chklen := oob_chunk_len maxooblen (op_ooboffs p) (op_ooblen p) in
    let* bytes := m_cache_get (mtd_writesize lower + op_ooboffs p) chklen in
    let* b := ops_put (op_oobbuf p) (op_oobretlen p) bytes in
    ret (mk_ops_pos (op_len p) (u64 (op_ooblen p - chklen)) (op_col p) 0
           (op_retlen p) (op_oobretlen p + chklen) (op_datbuf p) b).

Definition nmbm_mtd_read_data (addr : Z) (ops : mtd_oob_ops) (mode : nmbm_oob_mode) :
    prog (Z * mtd_oob_ops) :=
  let maxooblen := mtd_oobavail lower (ops_mode ops) in
  let dat := negb (ops_len ops =? 0) in
  let oob := negb (ops_ooblen ops =? 0) in
  loop (S (Z.to_nat (ops_len ops + ops_ooblen ops)))
    (fun '(addr, p, has_ecc_err, max_bitflips) =>
       if negb (op_len p =? 0) || negb (op_ooblen p =? 0) then
         let* r := read_page_to_cache addr dat oob mode in
         if (r <? 0) && negb (r =? - EBADMSG) then ret (inr (r, ops_end ops p))
         else
           let* p := move_data_out p in
           let* p := move_oob_out maxooblen p in
           ret (inl (u64 (addr + mtd_writesize lower), p, has_ecc_err || (r =? - EBADMSG),
                     if r >? max_bitflips then r else max_bitflips))
       else if has_ecc_err : bool then ret (inr (- EBADMSG, ops_end ops p))
       else ret (inr (max_bitflips, ops_end ops p)))
    (page_addr addr, ops_start addr ops, false, 0).

(** Filling the page cache from the data and the spare bytes of the caller. *)
Definition move_data_in (p : ops_pos) : prog ops_pos :=
  if op_len p =? 0 then ret p
  else
    let ws := mtd_writesize lower in
    let chklen := chunk_len ws (op_col p) (op_len p) in
    do* m_cache_put 0 (replicate (Z.to_nat (op_col p)) 0xff) in
    let* bytes := ops_get (op_datbuf p) (op_retlen p) chklen in
    do* m_cache_put (op_col p) bytes in
    do* m_cache_put (op_col p + chklen)
          (replicate (Z.to_nat (u64 (ws - op_col p - chklen))) 0xff) in
    ret (mk_ops_pos (u64 (op_len p - chklen)) (op_ooblen p) 0 (op_ooboffs p)
           (op_retlen p + chklen) (op_oobretlen p) (op_datbuf p) (op_oobbuf p)).

Definition move_oob_in (maxooblen : Z) (p : ops_pos) : prog ops_pos :=
  if op_ooblen p =? 0 then ret p
  else
    let ws := mtd_writesize lower in
    let chklen := oob_chunk_len maxooblen (op_ooboffs p) (op_ooblen p) in
    do* m_cache_put ws (replicate (Z.to_nat (op_ooboffs p)) 0xff) in
    let* bytes := ops_get (op_oobbuf p) (op_oobretlen p) chklen in
    do* m_cache_put (ws + op_ooboffs p) bytes in
    do* m_cache_put (ws + op_ooboffs p + chklen)
          (replicate (Z.to_nat (u64 (mtd_oobsize lower - op_ooboffs p - chklen))) 0xff) in
    ret (mk_ops_pos (op_len p) (u64 (op_ooblen p - chklen)) (op_col p) 0
           (op_retlen p) (op_oobretlen p + chklen) (op_datbuf p) (op_oobbuf p)).

Definition nmbm_mtd_write_data (addr : Z) (ops : mtd_oob_ops) (mode : nmbm_oob_mode) :
    prog (Z * mtd_oob_ops) :=
  let ws := mtd_writesize lower in
  let maxooblen := mtd_oobavail lower (ops_mode ops) in
  let dat := negb (ops_len ops =? 0) in
  let oob := negb (ops_ooblen ops =? 0) in
  loop (S (Z.to_nat (ops_len ops + ops_ooblen ops)))
    (fun '(addr, p) =>
       if negb (op_len p =? 0) || negb (op_ooblen p =? 0) then
         let* p := move_data_in p in
         let* p := move_oob_in maxooblen p in
         let* d := if dat then let* b := m_cache_get 0 ws in ret (Some b) else ret None in
         let* o := if oob then let* b := m_cache_get ws (mtd_oobsize lower) in ret (Some b)
                   else ret None in
         let* r := call_nmbm (nmbm_write_single_page addr d o mode) in
         if negb (r =? 0) then ret (inr (r, ops_end ops p))
         else ret (inl (u64 (addr + ws), p))
       else ret (inr (0, ops_end ops p)))
    (page_addr addr, ops_start addr ops).

Definition upper_mode (m : mtd_mode) : option nmbm_oob_mode :=
  match m with
  | MTD_OPS_PLACE_OOB => Some NMBM_MODE_PLACE_OOB
  | MTD_OPS_AUTO_OOB => Some NMBM_MODE_AUTO_OOB
  | MTD_OPS_RAW => Some NMBM_MODE_RAW
  | MTD_OPS_OTHER => None
  end.

(** The checks both [nmbm_mtd_read_oob] and [nmbm_mtd_write_oob] make: [inl] is
    the code they return at once, [inr] the mode and whether there is a spare
    buffer. *)
Definition oob_request (from : Z) (ops : mtd_oob_ops) : Z + nmbm_oob_mode * bool :=
  match ops_oobbuf ops, ops_datbuf ops with
  | None, None =>
      if negb (ops_ooblen ops =? 0) || negb (ops_len ops =? 0) then inl (- EINVAL) else inl 0
  | oobbuf, datbuf =>
      match upper_mode (ops_mode ops) with
      | None => inl (- ENOTSUPP)
      | Some mode =>
          let maxooblen := mtd_oobavail lower (ops_mode ops) in
          (* Do not allow access past end of device *)
          if match datbuf with Some _ => true | None => false end
             && (u64 (from + ops_len ops) >? upper_size) then inl (- EINVAL)
          else
            match oobbuf with
            | None => inr (mode, false)
            | Some _ =>
                if ops_ooboffs ops >=? maxooblen then inl (- EINVAL)
                else if (from >=? upper_size)
                        || (u64 (ops_ooboffs ops + ops_ooblen ops) >?
                            u64 ((Z.shiftr upper_size (mtd_writesize_shift lower) -
                                  Z.shiftr from (mtd_writesize_shift lower)) * maxooblen))
                then inl (- EINVAL)
                else inr (mode, true)
            end
      end
  end.

Definition nmbm_mtd_read_oob (from : Z) (ops : mtd_oob_ops) : prog (Z * mtd_oob_ops) :=
  match oob_request from ops with
  | inl r => ret (r, ops)
  | inr (mode, false) =>
      do* nmbm_get_device FL_READING in
      (* Optimized for reading data only *)
      let* (r, retlen, buf) :=
        match ops_datbuf ops with
        | Some b => call_nmbm (nmbm_read_range from (ops_len ops) b mode)
        | None => fault
        end in
      do* nmbm_release_device in
      ret (r, mk_mtd_oob_ops (ops_mode ops) (ops_len ops) (default (ops_retlen ops) retlen)
                (ops_ooblen ops) (ops_oobretlen ops) (ops_ooboffs ops) (Some buf)
                (ops_oobbuf ops))
  | inr (mode, true) =>
      do* nmbm_get_device FL_READING in
      let* r := nmbm_mtd_read_data from ops mode in
      do* nmbm_release_device in
      ret r
  end.

Definition nmbm_mtd_write_oob (to : Z) (ops : mtd_oob_ops) : prog (Z * mtd_oob_ops) :=
  match oob_request to ops with
  | inl r => ret (r, ops)
  | inr (mode, false) =>
      do* nmbm_get_device FL_WRITING in
      (* Optimized for writing data only *)
      let* (r, retlen) :=
        match ops_datbuf ops with
        | Some b => call_nmbm (nmbm_write_range to (ops_len ops) b mode)
        | None => fault
        end in
      do* nmbm_release_device in
      ret (r, mk_mtd_oob_ops (ops_mode ops) (ops_len ops) (default (ops_retlen ops) retlen)
                (ops_ooblen ops) (ops_oobretlen ops) (ops_ooboffs ops) (ops_datbuf ops)
                (ops_oobbuf ops))
  | inr (mode, true) =>
      do* nmbm_get_device FL_WRITING in
      let* r := nmbm_mtd_write_data to ops mode in
      do* nmbm_release_device in
      ret r
  end.

Definition nmbm_mtd_block_isbad (offs : Z) : prog Z :=
  do* nmbm_get_device FL_READING in
  let* r := call_nmbm (nmbm_check_bad_block offs) in
  do* nmbm_release_device in
  ret r.

Definition nmbm_mtd_block_markbad (offs : Z) : prog Z :=
  do* nmbm_get_device FL_WRITING in
  let* r := call_nmbm (nmbm_mark_bad_block offs) in
  do* nmbm_release_device in
  ret r.

Definition nmbm_mtd_shutdown : prog unit := nmbm_get_device FL_PM_SUSPENDED.

End upper.

(** * Probing and removal *)

(** What [nmbm_probe] finds: the two ways to name the lower device ([None] when
    the property is absent, [Some None] when there is no such device), the
    properties of the device tree node, and the results of the kernel's memory
    allocation and registration. *)
Record probe_env := mk_probe_env {
  lower_mtd_device : option (option mtd_info);
  lower_mtd_name : option (option mtd_info);
  prop_max_ratio : option Z;
  prop_max_reserved_blocks : option Z;
  forced_create : bool;
  empty_page_ecc_protected : bool;
  kzalloc_ok : bool;
  register_result : Z
}.

(** A probed device: the lower device, [mtd->size] and the mutable part. *)
Record nmbm_mtd := mk_nmbm_mtd {
  nm_node : Z;
  nm_lower : mtd_info;
  nm_upper_size : Z;
  nm_state : mst
}.

(** The driver: the nodes [list_add_tail] has linked into [nmbm_devs], in the
    order of the calls (no code of the driver calls [list_del]), the devices bound
    to platform devices, the references held on lower devices, and the lower
    device. *)
Record driver := mk_driver {
  nmbm_devs : list Z;
  drv_bound : list nmbm_mtd;
  drv_refs : Z;
  drv_chip : mchip
}.

(** The device tree gives the lower device, the code to return, or neither: then
    [lower] is used without having been set. *)
Definition probe_lower (e : probe_env) : option (Z + mtd_info) :=
  match lower_mtd_device e with
  | Some (Some d) => Some (inr d)
  | Some None => Some (inl (- EPROBE_DEFER))
  | None =>
      match lower_mtd_name e with
      | Some (Some d) => Some (inr d)
      | Some None => Some (inl (- EPROBE_DEFER))
      | None => None
      end
  end.

Definition probe_nld (e : probe_env) (lower : mtd_info) : nmbm_lower_device lchip :=
  let flags := 0 in
  let flags := if forced_create e then Z.lor flags NMBM_F_CREATE else flags in
  let flags := if empty_page_ecc_protected e then Z.lor flags NMBM_F_EMPTY_PAGE_ECC_OK
               else flags in
  mk_nmbm_lower_device
    (default NMBM_MAX_RATIO_DEFAULT (prop_max_ratio e))
    (default NMBM_MAX_BLOCKS_DEFAULT (prop_max_reserved_blocks e))
    flags (mtd_size lower) (mtd_erasesize lower) (mtd_writesize lower) (mtd_oobsize lower)
    (mtd_oobavail_member lower) None
    (Some (nmbm_lower_read_page lower)) (Some (nmbm_lower_write_page lower))
    (Some (nmbm_lower_erase_block lower)) (Some (nmbm_lower_is_bad_block lower))
    (Some (nmbm_lower_mark_bad_block lower)).

(** The zeroed instance [devm_kzalloc] returns. *)
Definition zeroed_instance (d : nmbm_lower_device lchip) : nmbm_instance lchip :=
  mk_nmbm_instance
    (mk_nmbm_geometry d 0 0 0 0 0 0 0 0 0 0 0 0)
    (mk_nmbm_signature (mk_nmbm_header 0 0 0 0) 0 0 0 0 0 0)
    [] (mk_nmbm_info_table_header (mk_nmbm_header 0 0 0 0) 0 0 0 0)
    [] 0 [] 0 [] 0 0 0 0 0 0 0 0 NMBM_LOG_DEBUG.

(** [node] is the address of the new [struct nmbm_mtd]. *)
Definition nmbm_probe (e : probe_env) (node : Z) (s : driver) : outcome driver Z :=
  match probe_lower e with
  | None => Fault
  | Some (inl r) => Ret r s
  | Some (inr lower) =>
      (* get_mtd_device_by_node() and get_mtd_device_nm() take a reference *)
      let out r c := Ret r (mk_driver (nmbm_devs s) (drv_bound s) (drv_refs s) c) in
      if negb (kzalloc_ok e) then out (- ENOMEM) (drv_chip s)
      else
        let nld := probe_nld e lower in
        let cache := replicate (Z.to_nat (mtd_writesize lower + mtd_oobsize lower)) 0 in
        match nmbm_attach nld (mk_nst (zeroed_instance nld) (mk_lchip (drv_chip s) 0 0)) with
        | Fault => Fault
        | Diverge => Diverge
        | Ret r n =>
            if negb (r =? 0) then out r (lc_mtd (dev n))
            else
              (* Initialize upper mtd *)
              let size := u64 (data_block_count (ni n) * mtd_erasesize lower) in
              if negb (register_result e =? 0) then
                match nmbm_detach n with
                | Fault => Fault
                | Diverge => Diverge
                | Ret _ n => out (register_result e) (lc_mtd (dev n))
                end
              else
                Ret 0 (mk_driver (nmbm_devs s ++ [node])
                         (mk_nmbm_mtd node lower size (mk_mst n cache FL_READY) :: drv_bound s)
                         (drv_refs s + 1) (lc_mtd (dev n)))
        end
  end.

(** [nm] is the device bound to the platform device, [unregister_result] what
    [mtd_device_unregister] returns.  The source calls [list_add_tail] here. *)
Definition nmbm_remove (nm : nmbm_mtd) (unregister_result : Z) (s : driver) : outcome driver Z :=
  if negb (unregister_result =? 0) then Ret unregister_result s
  else
    match nmbm_detach (m_nst (nm_state nm)) with
    | Fault => Fault
    | Diverge => Diverge
    | Ret _ n =>
        Ret 0 (mk_driver (nmbm_devs s ++ [nm_node nm])
                 (filter (fun x => nm_node x <> nm_node nm) (drv_bound s))
                 (drv_refs s - 1) (lc_mtd (dev n)))
    end.

End mtd.
Arguments mtd_info : clear implicits.
Arguments lchip : clear implicits.
Arguments mst : clear implicits.
Arguments driver : clear implicits.
Arguments probe_env : clear implicits.
Arguments nmbm_mtd : clear implicits.

(** * The lock between threads

    What [nmbm_get_device] and [nmbm_release_device] do when several threads use the device:
    each critical section under [nm->lock] is one step.  A thread is outside the driver, is
    about to look at the device ([retry:]), sleeps in the wait queue [nm->wq], has been woken
    up and is still in the queue, or has the device. *)
Inductive thread :=
| T_idle
| T_trying (f : flstate_t)
| T_sleeping (f : flstate_t)
| T_woken (f : flstate_t)
| T_holding (f : flstate_t).

(** [nm->state], the threads in [nm->wq], and what every thread is doing. *)
Record lock_config := mk_lock_config {
  lock_state : flstate_t;
  lock_wq : list nat;
  lock_threads : nat -> thread
}.

Definition set_thread (i : nat) (t : thread) (ts : nat -> thread) : nat -> thread :=
  fun j => if decide (j = i) then t else ts j.

(** The threads in the queue are not exclusive waiters: [wake_up] makes all of them runnable. *)
Definition wake_up (wq : list nat) (ts : nat -> thread) : nat -> thread := fun i =>
  if decide (i ∈ wq) then match ts i with T_sleeping f => T_woken f | t => t end else ts i.

(** A round of [nmbm_get_device]: the device is taken, or the thread goes to sleep. *)
Definition lock_try (i : nat) (f : flstate_t) (c : lock_config) : lock_config :=
  match get_device_try (lock_state c) f with
  | Some st => mk_lock_config st (lock_wq c) (set_thread i (T_holding f) (lock_threads c))
  | None => mk_lock_config (lock_state c) (i :: lock_wq c) (set_thread i (T_sleeping f) (lock_threads c))
  end.

(** Behind [schedule]: the thread leaves the queue and goes back to [retry]. *)
Definition lock_resume (i : nat) (f : flstate_t) (c : lock_config) : lock_config :=
  mk_lock_config (lock_state c) (filter (fun j => j <> i) (lock_wq c)) (set_thread i (T_trying f) (lock_threads c)).

(** [nmbm_release_device]. *)
Definition lock_release (i : nat) (c : lock_config) : lock_config :=
  mk_lock_config FL_READY (lock_wq c) (wake_up (lock_wq c) (set_thread i T_idle (lock_threads c))).

(** The step of thread [i]: it calls an operation of the device, goes on inside
    [nmbm_get_device], or releases the device at the end of the operation;
    [nmbm_mtd_shutdown] does not release it. *)
Inductive lock_act (i : nat) (c : lock_config) : lock_config -> Prop :=
| act_request f : lock_threads c i = T_idle -> f <> FL_READY ->
    lock_act i c (mk_lock_config (lock_state c) (lock_wq c) (set_thread i (T_trying f) (lock_threads c)))
| act_try f : lock_threads c i = T_trying f -> lock_act i c (lock_try i f c)
| act_resume f : lock_threads c i = T_woken f -> lock_act i c (lock_resume i f c)
| act_release f : lock_threads c i = T_holding f -> f <> FL_PM_SUSPENDED -> lock_act i c (lock_release i c).

Definition lock_step (c c' : lock_config) : Prop := exists i, lock_act i c c'.
Definition lock_init : lock_config := mk_lock_config FL_READY [] (fun _ => T_idle).
