(* ===== verification/NmbmMtdSpec.v ===== *)
(** Specifications of the MTD driver on top of NMBM: the callbacks satisfy the
    contract NMBM asks for, the page loops of the upper device terminate inside
    their buffers, and the device lock admits one operation at a time. *)

From stdpp Require Import base list numbers sets relations.
From Stdlib Require Import ZArith Lia.
From S2P Require Import Prelude NmbmTypes NmbmChip NmbmBlocks NmbmTable NmbmAttach NmbmLogic.
From S2P Require Import NmbmSpec NmbmBlockSpec NmbmWalk NmbmTableSpec NmbmLogicSpec NmbmAttachSpec.
From S2P Require Import NmbmMtd.
Local Open Scope Z_scope.
Local Open Scope cprog_scope.

Section mtd_spec.
Context {mchip : Type} {C : Crc32} (lower : mtd_info mchip).

(** * The lower callbacks *)

(** What the MTD layer promises: [mtd_read_oob] fills the buffers of the
    request. *)
Class mtd_contract : Prop := {
  mc_shape addr m dat oob c r dat' oob' c' :
    mtd_read_oob lower addr m dat oob c = (r, dat', oob', c') ->
    same_shape dat dat' /\ same_shape oob oob'
}.

Lemma length_buf_back n b p :
  same_shape (Some (buf_part n b)) p -> length (buf_back b p) = length b.
Proof using.
  unfold same_shape, buf_part. destruct p as [p|]; [|done]. cbn. rewrite length_take.
  intros [= Hp]. apply length_blit; lia.
Qed.

Lemma lower_read_shape `{!mtd_contract} addr buf oob mode c r buf' oob' c' :
  nmbm_lower_read_page lower addr buf oob mode c = (r, buf', oob', c') ->
  same_shape buf buf' /\ same_shape oob oob'.
Proof using.
  unfold nmbm_lower_read_page. set (m := lower_mode mode).
  destruct (mtd_read_oob lower addr m _ _ (lc_mtd c)) as [[[r0 d'] o'] mc] eqn:E.
  destruct (mc_shape _ _ _ _ _ _ _ _ _ E) as [Hd Ho].
  assert (forall n b p, same_shape (buf_part n <$> b) p ->
    same_shape b ((fun b => buf_back b p) <$> b)) as Hback.
  { intros n [b|] p Hp; [|done]. cbn in Hp |- *. unfold same_shape. cbn.
    by rewrite (length_buf_back n b p Hp). }
  destruct (_ && _); [|destruct (_ =? _)]; intros [= <- <- <- <-]; split; eapply Hback; eassumption.
Qed.

Lemma probe_read_contract `{!mtd_contract} e : read_contract (probe_nld e lower).
Proof using. intros f addr data oob mode c r data' oob' c' [= <-]. by eapply lower_read_shape. Qed.

Lemma probe_lower_contract `{!mtd_contract} e : lower_contract (probe_nld e lower).
Proof using.
  split; [|intros _; by eexists..].
  eexists. split; [done|]. intros. by eapply lower_read_shape.
Qed.

(** The code NMBM sees for the code of [mtd_read_oob]: errors but [-EUCLEAN] are
    passed on, [-EUCLEAN] becomes a number of bitflips, success [0]. *)
Lemma lower_read_code addr buf oob mode c r buf' oob' c' :
  0 <= bitflip_threshold lower < 2 ^ 31 - 1 -> 0 < ecc_strength lower < 2 ^ 31 ->
  nmbm_lower_read_page lower addr buf oob mode c = (r, buf', oob', c') ->
  exists r0 d' o' mc,
    mtd_read_oob lower addr (lower_mode mode) (buf_part (mtd_writesize lower) <$> buf)
      (buf_part (mtd_oobavail lower (lower_mode mode)) <$> oob) (lc_mtd c) = (r0, d', o', mc) /\
    c' = mk_lchip mc (ecc_corrected lower mc) (ecc_failed lower mc) /\
    if r0 =? - EUCLEAN then 0 < r
    else if r0 <? 0 then r = r0 else r = 0.
Proof using.
  intros Hb He. unfold nmbm_lower_read_page.
  destruct (mtd_read_oob _ _ _ _ _ _) as [[[r0 d'] o'] mc] eqn:E. intros H.
  exists r0, d', o', mc. split; [done|].
  destruct (Z.eqb_spec r0 (- EUCLEAN)) as [->|Hne].
  - cbn [negb andb] in H. rewrite andb_false_r, u32_small in H by lia. injection H as <- <- <- <-.
    split; [done|]. rewrite i32_small by lia. lia.
  - rewrite andb_true_r in H. destruct (r0 <? 0); by injection H as <- <- <- <-.
Qed.

(** * Buffers *)

Context (g : nmbm_geometry (lchip mchip)) (Hg : geom_ok g) `{Hl : !lower_contract (NmbmTypes.lower g)}.

(** The lower device NMBM was attached with is this MTD device. *)
Record mtd_match : Prop := {
  mm_writesize : writesize (NmbmTypes.lower g) = mtd_writesize lower;
  mm_oobsize : oobsize (NmbmTypes.lower g) = mtd_oobsize lower;
  mm_mask : mtd_writesize_mask lower = mtd_writesize lower - 1;
  mm_oobavail m : 0 <= mtd_oobavail lower m <= mtd_oobsize lower;
  mm_bound : mtd_oobsize lower < 2 ^ 32
}.
Context (Hm : mtd_match).

Record m_ok (s : mst mchip) : Prop := {
  mo_inst : inst_ok g (m_nst s);
  mo_cache : Z.of_nat (length (m_cache s)) = mtd_writesize lower + mtd_oobsize lower
}.

Lemma wp_call_nmbm {A} (m : M (nst (lchip mchip)) A) (Q : A -> mst mchip -> Prop) s :
  wp m (fun a n => Q a (set_m_nst n s)) (m_nst s) -> wp (call_nmbm m) Q s.
Proof using. unfold wp, call_nmbm. by destruct (m (m_nst s)). Qed.

Lemma sizes_pos : 0 < mtd_writesize lower < 2 ^ 32 /\ 0 < mtd_oobsize lower.
Proof using Hg Hm.
  pose proof (writesize_pos g Hg). pose proof (writesize_le g Hg). pose proof (erasesize_lt g Hg).
  pose proof (geo_oob g Hg). destruct Hm. lia.
Qed.

Lemma wp_m_cache_get off n (Q : list Z -> mst mchip -> Prop) s :
  m_ok s -> 0 <= off -> 0 <= n -> off + n <= mtd_writesize lower + mtd_oobsize lower ->
  (Z.of_nat (length (slice (m_cache s) off n)) = n -> Q (slice (m_cache s) off n) s) ->
  wp (m_cache_get off n) Q s.
Proof using.
  intros Hs Ho Hn Hle HQ. unfold m_cache_get. apply wp_bind, wp_gets.
  pose proof (mo_cache _ Hs). rewrite in_bounds_true by lia. apply wp_ret, HQ. apply length_slice; lia.
Qed.

Lemma wp_m_cache_put off bytes (Q : unit -> mst mchip -> Prop) s :
  m_ok s -> 0 <= off -> off + Z.of_nat (length bytes) <= mtd_writesize lower + mtd_oobsize lower ->
  (forall s', m_ok s' -> m_nst s' = m_nst s -> m_state s' = m_state s -> Q tt s') ->
  wp (m_cache_put off bytes) Q s.
Proof using.
  intros Hs Ho Hle HQ. unfold m_cache_put. apply wp_bind, wp_gets.
  pose proof (mo_cache _ Hs). rewrite in_bounds_true by lia. apply wp_modify, HQ; [|done|done].
  split; [apply Hs|]. cbn. rewrite length_blit by lia. done.
Qed.

(** * The loops *)

(** Where a transfer stands: [len] and [ooblen] bytes asked for, [max] spare
    bytes per page. *)
Record pos_ok (len ooblen max : Z) (p : ops_pos) : Prop := {
  po_len : 0 <= op_len p /\ 0 <= op_retlen p /\ op_len p + op_retlen p = len;
  po_oob : 0 <= op_ooblen p /\ 0 <= op_oobretlen p /\ op_ooblen p + op_oobretlen p = ooblen;
  po_col : 0 <= op_col p < mtd_writesize lower;
  po_offs : 0 <= op_ooboffs p;
  po_offs_max : op_ooblen p <> 0 -> op_ooboffs p < max;
  po_dat : len <> 0 -> exists b, op_datbuf p = Some b /\ len <= Z.of_nat (length b);
  po_obuf : ooblen <> 0 -> exists b, op_oobbuf p = Some b /\ ooblen <= Z.of_nat (length b)
}.

Definition todo (p : ops_pos) : nat := Z.to_nat (op_len p + op_ooblen p).

(** Progress of a transfer over one page: all of it, or less is left of either
    part that was not empty. *)
Definition moved (p p' : ops_pos) : Prop :=
  op_len p' <= op_len p /\ op_ooblen p' <= op_ooblen p.

Lemma chunk_len_eq total start len :
  0 <= start < total -> total < 2 ^ 32 -> chunk_len total start len = Z.min (total - start) len.
Proof using.
  intros. unfold chunk_len. rewrite u32_small, u64_small, Z.gtb_ltb by lia.
  destruct (Z.ltb_spec len (total - start)); lia.
Qed.

Lemma oob_chunk_len_eq max offs len :
  0 <= offs < max -> max < 2 ^ 64 -> oob_chunk_len max offs len = Z.min (max - offs) len.
Proof using.
  intros. unfold oob_chunk_len. rewrite u64_small, Z.gtb_ltb by lia.
  destruct (Z.ltb_spec len (max - offs)); lia.
Qed.

Lemma wp_ops_put b pos bytes (Q : option (list Z) -> mst mchip -> Prop) s :
  0 <= pos -> pos + Z.of_nat (length bytes) <= Z.of_nat (length b) ->
  (forall b', length b' = length b -> Q (Some b') s) ->
  wp (ops_put (Some b) pos bytes) Q s.
Proof using.
  intros Hp Hle HQ. unfold ops_put. rewrite in_bounds_true by lia. apply wp_ret, HQ.
  apply length_blit; lia.
Qed.

(** A step that leaves the NMBM instance and the lock alone. *)
Definition cache_rel (s s' : mst mchip) : Prop :=
  m_ok s' /\ m_nst s' = m_nst s /\ m_state s' = m_state s.

Lemma cache_rel_trans s1 s2 s3 : cache_rel s1 s2 -> cache_rel s2 s3 -> cache_rel s1 s3.
Proof using. intros (? & E1 & E2) (? & E3 & E4). split_and!; [done|congruence..]. Qed.

(** The data part has advanced, the spare part not. *)
Definition data_moved (p p' : ops_pos) : Prop :=
  (op_len p <> 0 -> op_len p' < op_len p) /\ op_len p' <= op_len p /\
  op_ooblen p' = op_ooblen p /\ op_ooboffs p' = op_ooboffs p.

Definition oob_moved (p p' : ops_pos) : Prop :=
  (op_ooblen p <> 0 -> op_ooblen p' < op_ooblen p) /\ op_ooblen p' <= op_ooblen p /\
  op_len p' = op_len p.

Section transfer.
Context (len ooblen max : Z) (Hlen : 0 <= len < 2 ^ 63) (Hooblen : 0 <= ooblen < 2 ^ 63).
Context (Hmax : 0 <= max <= mtd_oobsize lower).


Lemma wp_move_data_out p s :
  m_ok s -> pos_ok len ooblen max p ->
  wp (move_data_out lower p)
    (fun p' s' => cache_rel s s' /\ pos_ok len ooblen max p' /\ data_moved p p') s.
Proof using Hg Hm Hlen.
  intros Hs [[P1 P1'] P2 P3 P4 P5 P6 P7]. pose proof sizes_pos. unfold move_data_out, data_moved.
  destruct (Z.eqb_spec (op_len p) 0) as [E|E].
  { apply wp_ret. split_and!; first [done|lia|by split]. }
  rewrite chunk_len_eq by lia. destruct P6 as (b & Eb & Hb); [lia|]. rewrite Eb.
  apply wp_bind, wp_m_cache_get; [done|lia..|]. intros Hl1.
  apply wp_bind, wp_ops_put; [lia|lia|]. intros b' Hb'. apply wp_ret.
  rewrite u64_small by lia. split_and!; cbn; try done; try lia.
  split; cbn; try done; try lia. intros _. exists b'. split; [done|lia].
Qed.

Lemma wp_move_oob_out p s :
  m_ok s -> pos_ok len ooblen max p ->
  wp (move_oob_out lower max p)
    (fun p' s' => cache_rel s s' /\ pos_ok len ooblen max p' /\ oob_moved p p') s.
Proof using Hg Hm Hooblen Hmax.
  intros Hs [P1 [P2 P2'] P3 P4 P5 P6 P7]. pose proof sizes_pos. pose proof (mm_bound Hm).
  unfold move_oob_out, oob_moved. destruct (Z.eqb_spec (op_ooblen p) 0) as [E|E].
  { apply wp_ret. split_and!; first [done|lia|by split]. }
  specialize (P5 E). rewrite oob_chunk_len_eq by lia.
  destruct P7 as (b & Eb & Hb); [lia|]. rewrite Eb.
  apply wp_bind, wp_m_cache_get; [done|lia..|]. intros Hl1.
  apply wp_bind, wp_ops_put; [lia|lia|]. intros b' Hb'. apply wp_ret.
  rewrite u64_small by lia. split_and!; cbn; try done; try lia.
  split; cbn; try done; try lia. intros _. exists b'. split; [done|lia].
Qed.

Lemma wp_ops_get b pos n (Q : list Z -> mst mchip -> Prop) s :
  0 <= pos -> 0 <= n -> pos + n <= Z.of_nat (length b) ->
  (Z.of_nat (length (slice b pos n)) = n -> Q (slice b pos n) s) -> wp (ops_get (Some b) pos n) Q s.
Proof using.
  intros ??? HQ. unfold ops_get. rewrite in_bounds_true by lia. apply wp_ret, HQ. apply length_slice; lia.
Qed.

Lemma wp_move_data_in p s :
  m_ok s -> pos_ok len ooblen max p ->
  wp (move_data_in lower p)
    (fun p' s' => cache_rel s s' /\ pos_ok len ooblen max p' /\ data_moved p p') s.
Proof using Hg Hm Hlen.
  intros Hs [[P1 P1'] P2 P3 P4 P5 P6 P7]. pose proof sizes_pos. unfold move_data_in, data_moved.
  destruct (Z.eqb_spec (op_len p) 0) as [E|E].
  { apply wp_ret. split_and!; first [done|lia|by split]. }
  rewrite chunk_len_eq by lia. destruct P6 as (b & Eb & Hb); [lia|]. rewrite Eb.
  apply wp_bind, wp_m_cache_put; [done|lia|rewrite length_replicate; lia|]. intros s1 Hs1 E1 F1.
  apply wp_bind, wp_ops_get; [lia..|]. intros Hl1.
  apply wp_bind, wp_m_cache_put; [done|lia|lia|]. intros s2 Hs2 E2 F2.
  rewrite (u64_small (mtd_writesize lower - op_col p - _)) by lia.
  apply wp_bind, wp_m_cache_put; [done|lia|rewrite length_replicate; lia|]. intros s3 Hs3 E3 F3.
  apply wp_ret. rewrite u64_small by lia. split_and!; cbn; try done; try lia; [split_and!; congruence|].
  split; cbn; try done; try lia. intros _. exists b. split; [done|lia].
Qed.

Lemma wp_move_oob_in p s :
  m_ok s -> pos_ok len ooblen max p ->
  wp (move_oob_in lower max p)
    (fun p' s' => cache_rel s s' /\ pos_ok len ooblen max p' /\ oob_moved p p') s.
Proof using Hg Hm Hooblen Hmax.
  intros Hs [P1 [P2 P2'] P3 P4 P5 P6 P7]. pose proof sizes_pos. pose proof (mm_bound Hm).
  unfold move_oob_in, oob_moved. destruct (Z.eqb_spec (op_ooblen p) 0) as [E|E].
  { apply wp_ret. split_and!; first [done|lia|by split]. }
  specialize (P5 E). rewrite oob_chunk_len_eq by lia.
  destruct P7 as (b & Eb & Hb); [lia|]. rewrite Eb.
  apply wp_bind, wp_m_cache_put; [done|lia|rewrite length_replicate; lia|]. intros s1 Hs1 E1 F1.
  apply wp_bind, wp_ops_get; [lia..|]. intros Hl1.
  apply wp_bind, wp_m_cache_put; [done|lia|lia|]. intros s2 Hs2 E2 F2.
  rewrite (u64_small (mtd_oobsize lower - op_ooboffs p - _)) by lia.
  apply wp_bind, wp_m_cache_put; [done|lia|rewrite length_replicate; lia|]. intros s3 Hs3 E3 F3.
  apply wp_ret. rewrite u64_small by lia. split_and!; cbn; try done; try lia; [split_and!; congruence|].
  split; cbn; try done; try lia. intros _. exists b. split; [done|lia].
Qed.
End transfer.

(** A step that only reads the chip. *)
Definition read_rel (s s' : mst mchip) : Prop :=
  m_ok s' /\ chip_rel g none (m_nst s) (m_nst s') /\ m_state s' = m_state s.

Lemma read_rel_trans s1 s2 s3 : read_rel s1 s2 -> read_rel s2 s3 -> read_rel s1 s3.
Proof using. intros (? & ? & E1) (? & ? & E2). split_and!; [done|by eapply chip_rel_trans|congruence]. Qed.

Lemma cache_read_rel s s' : cache_rel s s' -> read_rel s s'.
Proof using. intros (? & E & ?). split_and!; [done|rewrite E; apply chip_rel_refl|done]. Qed.

Lemma wp_put_part off b (s0 s : mst mchip) (Q : unit -> mst mchip -> Prop) :
  read_rel s0 s -> 0 <= off ->
  (forall d, b = Some d -> off + Z.of_nat (length d) <= mtd_writesize lower + mtd_oobsize lower) ->
  (forall s', read_rel s0 s' -> Q tt s') ->
  wp (match b with Some d => m_cache_put off d | None => ret tt end) Q s.
Proof using.
  intros Hrel Ho Hd HQ. destruct b as [d|]; [|by apply wp_ret, HQ].
  apply wp_m_cache_put; [apply Hrel|done|by apply Hd|]. intros s1 H1 E1 F1.
  apply HQ. eapply read_rel_trans; [done|]. by apply cache_read_rel.
Qed.

(** The two parts of the page cache that are passed on. *)
Lemma wp_part (use : bool) off n (Q : option (list Z) -> mst mchip -> Prop) s :
  m_ok s -> 0 <= off -> 0 <= n -> off + n <= mtd_writesize lower + mtd_oobsize lower ->
  (forall b, (forall d, b = Some d -> Z.of_nat (length d) = n) -> Q b s) ->
  wp (if use then let* b := m_cache_get off n in ret (Some b) else ret None) Q s.
Proof using.
  intros Hs Ho Hn Hle HQ. destruct use; [|by apply wp_ret, HQ].
  apply wp_bind, wp_m_cache_get; [done..|]. intros Hl1. apply wp_ret, HQ. by intros d [= <-].
Qed.

Lemma wp_read_page_to_cache addr dat oob mode s :
  m_ok s -> 0 <= addr ->
  wp (read_page_to_cache lower addr dat oob mode) (fun _ s' => read_rel s s') s.
Proof using Hg Hl Hm.
  intros Hs Ha. pose proof sizes_pos. unfold read_page_to_cache.
  apply wp_bind, wp_part; [done|lia..|]. intros d Hd.
  apply wp_bind, wp_part; [done|lia..|]. intros o Ho.
  apply wp_bind, wp_call_nmbm. wp_call (wp_read_single_page g Hg); [apply Hs|done|].
  intros [[r d'] o'] n Hr.
  assert (chip_rel g none (m_nst s) n /\ same_shape d d' /\ same_shape o o') as (Hrel & Sd & So).
  { destruct (addr_code _ _ _ _); [|done]. destruct Hr as (_ & -> & -> & ->).
    split_and!; [apply chip_rel_refl|done|done]. }
  assert (read_rel s (set_m_nst n s)) as Hr1.
  { split_and!; [|done|done]. split; [cbn; eapply inst_ok_chip; [apply Hs|done]|apply Hs]. }
  assert (forall x x' k, (forall y, x = Some y -> Z.of_nat (length y) = k) -> same_shape x x' ->
    forall y, x' = Some y -> Z.of_nat (length y) = k) as Hsh.
  { intros [x|] x' k Hx Hs' y ->; [|done]. injection Hs' as E. rewrite <- E. by apply Hx. }
  apply wp_bind. eapply wp_put_part; [exact Hr1|lia| |].
  { intros y Hy. rewrite (Hsh d d' _ Hd Sd y Hy). lia. }
  intros s2 Hr2. apply wp_bind. eapply wp_put_part; [exact Hr2|lia| |].
  { intros y Hy. rewrite (Hsh o o' _ Ho So y Hy). lia. }
  intros s3 Hr3. by apply wp_ret.
Qed.

Lemma ops_start_ok addr ops :
  0 <= ops_len ops -> 0 <= ops_ooblen ops -> 0 <= addr -> 0 <= ops_ooboffs ops ->
  (ops_ooblen ops <> 0 -> ops_ooboffs ops < mtd_oobavail lower (ops_mode ops)) ->
  (ops_len ops <> 0 -> exists b, ops_datbuf ops = Some b /\ ops_len ops <= Z.of_nat (length b)) ->
  (ops_ooblen ops <> 0 -> exists b, ops_oobbuf ops = Some b /\ ops_ooblen ops <= Z.of_nat (length b)) ->
  pos_ok (ops_len ops) (ops_ooblen ops) (mtd_oobavail lower (ops_mode ops)) (ops_start lower addr ops).
Proof using Hg Hm.
  intros. pose proof sizes_pos. unfold ops_start.
  assert (0 <= Z.land addr (mtd_writesize_mask lower) < mtd_writesize lower).
  { rewrite (mm_mask Hm), <- (mm_writesize Hm), (geo_writesize g Hg).
    pose proof (geo_wshift g Hg).
    replace (2 ^ writesize_shift g - 1) with (Z.ones (writesize_shift g)) by (rewrite Z.ones_equiv; lia).
    rewrite Z.land_ones by lia. apply Z.mod_pos_bound, Z.pow_pos_nonneg; lia. }
  split; cbn; try done; try lia. rewrite u32_small; lia.
Qed.

(** What a request has to fulfil. *)
Record ops_ok (ops : mtd_oob_ops) : Prop := {
  oo_len : 0 <= ops_len ops < 2 ^ 63;
  oo_ooblen : 0 <= ops_ooblen ops < 2 ^ 63;
  oo_offs : 0 <= ops_ooboffs ops < 2 ^ 32;
  oo_dat : ops_len ops <> 0 -> exists b, ops_datbuf ops = Some b /\ ops_len ops <= Z.of_nat (length b);
  oo_obuf : ops_ooblen ops <> 0 -> exists b, ops_oobbuf ops = Some b /\ ops_ooblen ops <= Z.of_nat (length b)
}.

(** The page loop of [nmbm_mtd_read_oob]. *)
Lemma wp_nmbm_mtd_read_data addr ops mode s :
  m_ok s -> ops_ok ops -> 0 <= addr ->
  (ops_ooblen ops <> 0 -> ops_ooboffs ops < mtd_oobavail lower (ops_mode ops)) ->
  wp (nmbm_mtd_read_data lower addr ops mode)
    (fun '(r, ops') s' => read_rel s s' /\
       (0 <= r \/ r = - EBADMSG -> ops_retlen ops' = ops_len ops /\ ops_oobretlen ops' = ops_ooblen ops)) s.
Proof using Hg Hl Hm.
  intros Hs [O1 O2 O3 O4 O5] Ha Hof. pose proof (mm_oobavail Hm (ops_mode ops)) as Hmax.
  set (max := mtd_oobavail lower (ops_mode ops)) in *.
  unfold nmbm_mtd_read_data. fold max.
  apply (wp_loop
    (fun '(a, p, ecc, flips) s' => 0 <= a /\ pos_ok (ops_len ops) (ops_ooblen ops) max p /\
       0 <= flips /\ read_rel s s')
    (fun '(_, p, _, _) _ => todo p)).
  - intros [[[a p] ecc] flips] s1 (Ha1 & Hp & Hfl & Hrel).
    destruct (negb (op_len p =? 0) || negb (op_ooblen p =? 0)) eqn:E.
    + apply wp_bind. wp_call wp_read_page_to_cache; [apply Hrel|done|]. intros r s2 Hrel2.
      assert (read_rel s s2) as Hr2 by by eapply read_rel_trans.
      destruct ((r <? 0) && negb (r =? - EBADMSG)) eqn:Er.
      { apply wp_ret. split; [done|].
        apply andb_true_iff in Er as [Er1%Z.ltb_lt Er2%negb_true_iff%Z.eqb_neq]. lia. }
      apply wp_bind. wp_call (wp_move_data_out (ops_len ops) (ops_ooblen ops) max); [done|apply Hr2|exact Hp|].
      intros p1 s3 (Hc3 & Hp1 & Hd1). apply wp_bind.
      wp_call (wp_move_oob_out (ops_len ops) (ops_ooblen ops) max); [done|done|apply Hc3|exact Hp1|].
      intros p2 s4 (Hc4 & Hp2 & Hd2). apply wp_ret.
      pose proof (u64_range (a + mtd_writesize lower)).
      split; [split_and!; [lia|done|destruct (Z.gtb_spec r flips); lia|]|].
      { eapply read_rel_trans; [exact Hr2|]. apply cache_read_rel. by eapply cache_rel_trans. }
      destruct Hd1 as (D1 & D2 & D3 & D4), Hd2 as (D5 & D6 & D7). unfold todo.
      pose proof (po_len _ _ _ _ Hp2). pose proof (po_oob _ _ _ _ Hp2).
      apply orb_true_iff in E as [E%negb_true_iff%Z.eqb_neq|E%negb_true_iff%Z.eqb_neq];
        [specialize (D1 E)|rewrite D3 in D5; specialize (D5 E)]; lia.
    + apply orb_false_iff in E as [E1%negb_false_iff%Z.eqb_eq E2%negb_false_iff%Z.eqb_eq].
      pose proof (po_len _ _ _ _ Hp). pose proof (po_oob _ _ _ _ Hp).
      destruct ecc; apply wp_ret; (split; [done|]); intros _; cbn; lia.
  - split_and!; [|by apply ops_start_ok; try lia|lia|].
    + unfold page_addr. apply Z.land_nonneg. lia.
    + split_and!; [done|apply chip_rel_refl|done].
  - unfold todo. cbn. lia.
Qed.

(** A step of the upper device: NMBM's invariant and frame are kept. *)
Definition upper_rel (s s' : mst mchip) : Prop :=
  m_ok s' /\ op_rel g (fun _ => True) (fun _ => True) (m_nst s) (m_nst s') /\ m_state s' = m_state s.

Lemma upper_rel_trans s1 s2 s3 : upper_rel s1 s2 -> upper_rel s2 s3 -> upper_rel s1 s3.
Proof using. intros (? & ? & E1) (? & ? & E2). split_and!; [done|by eapply op_rel_trans|congruence]. Qed.

Lemma cache_upper_rel s s' : m_ok s -> cache_rel s s' -> upper_rel s s'.
Proof using. intros Hs (? & E & ?). split_and!; [done|rewrite E; apply op_rel_refl, Hs|done]. Qed.

Lemma wp_nmbm_mtd_write_data addr ops mode s :
  m_ok s -> ops_ok ops -> 0 <= addr ->
  (ops_ooblen ops <> 0 -> ops_ooboffs ops < mtd_oobavail lower (ops_mode ops)) ->
  wp (nmbm_mtd_write_data lower addr ops mode)
    (fun '(r, ops') s' => upper_rel s s' /\
       (r = 0 -> ops_retlen ops' = ops_len ops /\ ops_oobretlen ops' = ops_ooblen ops)) s.
Proof using Hg Hl Hm.
  intros Hs [O1 O2 O3 O4 O5] Ha Hof. pose proof (mm_oobavail Hm (ops_mode ops)) as Hmax.
  pose proof sizes_pos. set (max := mtd_oobavail lower (ops_mode ops)) in *.
  unfold nmbm_mtd_write_data. fold max.
  apply (wp_loop
    (fun '(a, p) s' => 0 <= a /\ pos_ok (ops_len ops) (ops_ooblen ops) max p /\ upper_rel s s')
    (fun '(_, p) _ => todo p)).
  - intros [a p] s1 (Ha1 & Hp & Hrel).
    destruct (negb (op_len p =? 0) || negb (op_ooblen p =? 0)) eqn:E.
    + apply wp_bind. wp_call (wp_move_data_in (ops_len ops) (ops_ooblen ops) max);
        [done|apply Hrel|exact Hp|]. intros p1 s3 (Hc3 & Hp1 & Hd1). apply wp_bind.
      wp_call (wp_move_oob_in (ops_len ops) (ops_ooblen ops) max); [done|done|apply Hc3|exact Hp1|].
      intros p2 s4 (Hc4 & Hp2 & Hd2). apply wp_bind, wp_part; [apply Hc4|lia..|]. intros d _.
      apply wp_bind, wp_part; [apply Hc4|lia..|]. intros o _.
      assert (upper_rel s s4) as Hr4.
      { eapply upper_rel_trans; [exact Hrel|]. apply cache_upper_rel; [apply Hrel|].
        by eapply cache_rel_trans. }
      apply wp_bind, wp_call_nmbm. wp_call (wp_write_single_page g Hg); [apply Hr4|done|].
      intros r n Hr.
      assert (upper_rel s (set_m_nst n s4)).
      { eapply upper_rel_trans; [exact Hr4|].
        assert (op_rel g (fun _ => True) (fun _ => True) (m_nst s4) n) as Hop.
        { destruct (addr_code _ _ _ _); [destruct Hr as [_ ->]; apply op_rel_refl, Hr4|].
          eapply op_rel_mono; [| |apply Hr]; done. }
        split_and!; [|done|done]. split; [apply Hop|apply Hr4]. }
      destruct (Z.eqb_spec r 0); cbn [negb]; apply wp_ret; [|done].
      pose proof (u64_range (a + mtd_writesize lower)). split; [split_and!; [lia|done|done]|].
      destruct Hd1 as (D1 & D2 & D3 & D4), Hd2 as (D5 & D6 & D7). unfold todo.
      pose proof (po_len _ _ _ _ Hp2). pose proof (po_oob _ _ _ _ Hp2).
      apply orb_true_iff in E as [E%negb_true_iff%Z.eqb_neq|E%negb_true_iff%Z.eqb_neq];
        [specialize (D1 E)|rewrite D3 in D5; specialize (D5 E)]; lia.
    + apply orb_false_iff in E as [E1%negb_false_iff%Z.eqb_eq E2%negb_false_iff%Z.eqb_eq].
      pose proof (po_len _ _ _ _ Hp). pose proof (po_oob _ _ _ _ Hp).
      apply wp_ret. split; [done|]. intros _; cbn; lia.
  - split_and!; [|by apply ops_start_ok; try lia|].
    + unfold page_addr. apply Z.land_nonneg. lia.
    + split_and!; [done|apply op_rel_refl, Hs|done].
  - unfold todo. cbn. lia.
Qed.

(** Taking the lock of a device that is ready. *)
Lemma wp_get_device f (Q : unit -> mst mchip -> Prop) s :
  m_state s = FL_READY -> Q tt (set_m_state f s) -> wp (nmbm_get_device f) Q s.
Proof using. intros E HQ. unfold wp, nmbm_get_device. rewrite E. done. Qed.

Lemma m_ok_state f s : m_ok s -> m_ok (set_m_state f s).
Proof using. intros []. by split. Qed.

(** The requests that reach NMBM have been checked against the spare area. *)
Lemma oob_request_spec size from ops mode b :
  oob_request lower size from ops = inr (mode, b) -> 
  (b = false -> exists d, ops_datbuf ops = Some d /\ ops_oobbuf ops = None) /\
  (b = true -> ops_ooboffs ops < mtd_oobavail lower (ops_mode ops)) /\
  (is_Some (ops_datbuf ops) -> u64 (from + ops_len ops) <= size).
Proof using.
  unfold oob_request. intros H.
  destruct (ops_oobbuf ops) as [o|], (ops_datbuf ops) as [d|];
    repeat match type of H with
    | match ?x with _ => _ end = _ => destruct x eqn:?
    | (if ?x then _ else _) = _ => destruct x eqn:?
    end; try done; injection H as <- <-; cbn [andb] in *;
    (split_and!; [try done; eauto|intros; lia || done|intros [? ?]; lia || done]).
Qed.
End mtd_spec.
