(* ===== verification/NmbmMtdTheorems.v ===== *)
(** What the MTD driver on top of NMBM guarantees. *)

From stdpp Require Import base list numbers sets relations.
From Stdlib Require Import ZArith Lia.
From S2P Require Import Prelude NmbmTypes NmbmChip NmbmBlocks NmbmTable NmbmAttach NmbmLogic.
From S2P Require Import NmbmSpec NmbmBlockSpec NmbmWalk NmbmTableSpec NmbmLogicSpec NmbmAttachSpec.
From S2P Require Import NmbmMtd NmbmMtdSpec.
Local Open Scope Z_scope.
Local Open Scope cprog_scope.

(** * The lock as a state machine *)

(** A thread waits in [nmbm_get_device], or can take a step. *)
Definition waits (t : thread) (f : flstate_t) : Prop := t = T_trying f \/ t = T_sleeping f \/ t = T_woken f.
Definition ready (t : thread) : Prop :=
  match t with T_trying _ | T_woken _ | T_holding _ => True | _ => False end.

(** The state of the device is that of its holders, sleepers are in the queue, and nobody
    sleeps while the device is free. *)
Record lock_ok (c : lock_config) : Prop := {
  lk_waiting i f : waits (lock_threads c i) f -> f <> FL_READY;
  lk_holding i f : lock_threads c i = T_holding f -> lock_state c = f /\ f <> FL_READY;
  lk_unique i j f : i <> j -> lock_threads c i = T_holding f -> f <> FL_PM_SUSPENDED ->
    forall f', lock_threads c j <> T_holding f';
  lk_held : lock_state c <> FL_READY -> exists j, lock_threads c j = T_holding (lock_state c);
  lk_queue i f : lock_threads c i = T_sleeping f -> i ∈ lock_wq c;
  lk_awake : lock_state c = FL_READY -> forall i f, lock_threads c i <> T_sleeping f
}.

Lemma set_thread_cases i t ts j u :
  set_thread i t ts j = u -> (j = i /\ u = t) \/ (j <> i /\ ts j = u).
Proof. unfold set_thread. case_decide; intros <-; auto. Qed.

Lemma set_thread_eq i t ts : set_thread i t ts i = t.
Proof. unfold set_thread. by case_decide. Qed.

Lemma set_thread_ne i t ts j : j <> i -> set_thread i t ts j = ts j.
Proof. intros. unfold set_thread. by case_decide. Qed.

Lemma set_thread_waits i t ts j f :
  waits (set_thread i t ts j) f -> (j = i /\ waits t f) \/ (j <> i /\ waits (ts j) f).
Proof. unfold set_thread. case_decide; auto. Qed.

Lemma wake_up_holding wq ts i f : wake_up wq ts i = T_holding f <-> ts i = T_holding f.
Proof. unfold wake_up. case_decide; [|done]. by destruct (ts i). Qed.

Lemma wake_up_waits wq ts i f : waits (wake_up wq ts i) f <-> waits (ts i) f.
Proof. unfold wake_up. case_decide; [|done]. destruct (ts i); unfold waits; naive_solver. Qed.

Lemma wake_up_sleeping wq ts i f : wake_up wq ts i = T_sleeping f -> i ∉ wq /\ ts i = T_sleeping f.
Proof. unfold wake_up. case_decide; [|done]. by destruct (ts i). Qed.

Lemma wake_up_ready wq ts i : ready (ts i) -> wake_up wq ts i = ts i.
Proof. unfold wake_up. case_decide; [|done]. by destruct (ts i). Qed.

Lemma get_device_cases st f st' :
  get_device_try st f = Some st' ->
  (st = FL_READY /\ st' = f) \/ (st = FL_PM_SUSPENDED /\ f = FL_PM_SUSPENDED /\ st' = f).
Proof.
  unfold get_device_try. case_decide; [intros [= <-]; auto|].
  case_decide as H2; [|done]. destruct H2 as [-> ->]. intros [= <-]. auto.
Qed.

Lemma get_device_ready f : get_device_try FL_READY f = Some f.
Proof. unfold get_device_try. by rewrite decide_True. Qed.

Lemma get_device_none st f : get_device_try st f = None -> st <> FL_READY.
Proof. intros H ->. by rewrite get_device_ready in H. Qed.

(** A thread that waits changes the way it waits. *)
Lemma lock_ok_rewait c i f wq t :
  lock_ok c -> waits t f -> f <> FL_READY -> (forall g, lock_threads c i <> T_holding g) ->
  (forall j, j ∈ lock_wq c -> j <> i -> j ∈ wq) -> (t = T_sleeping f -> i ∈ wq /\ lock_state c <> FL_READY) ->
  lock_ok (mk_lock_config (lock_state c) wq (set_thread i t (lock_threads c))).
Proof.
  intros [H1 H2 H3 H4 H5 H6] Hw Hf Hi Hwq Ht. assert (forall g, t <> T_holding g) as Hth.
  { intros g ->. by destruct Hw as [?|[?|?]]. }
  assert (forall g, waits t g -> g = f) as Hwt by (intros g; unfold waits in *; naive_solver).
  split; cbn.
  - intros j u [[-> Hu]|[? Hu]]%set_thread_waits; [by rewrite (Hwt u Hu)|eauto].
  - intros j u [[-> ?]|[? Hj]]%set_thread_cases; [by destruct (Hth u)|eauto].
  - intros j k u Hne [[-> ?]|[? Hj]]%set_thread_cases Hu f'; [by destruct (Hth u)|].
    intros [[-> ?]|[? Hk]]%set_thread_cases; [by destruct (Hth f')|]. by apply (H3 j k u Hne Hj Hu f').
  - intros Hst. destruct (H4 Hst) as [j Hj]. exists j. rewrite set_thread_ne; [done|]. intros ->. by destruct (Hi (lock_state c)).
  - intros j u [[-> <-]|[? Hj]]%set_thread_cases; [|eauto]. destruct Ht as [? _]; [|done].
    by rewrite (Hwt u) by (unfold waits; auto).
  - intros Hst j u [[-> <-]|[? Hj]]%set_thread_cases; [|by eapply H6].
    assert (u = f) as -> by (apply Hwt; unfold waits; auto). by destruct (Ht eq_refl).
Qed.

(** A thread takes the device. *)
Lemma lock_ok_take c i f st :
  lock_ok c -> lock_threads c i = T_trying f -> get_device_try (lock_state c) f = Some st ->
  lock_ok (mk_lock_config st (lock_wq c) (set_thread i (T_holding f) (lock_threads c))).
Proof.
  intros [H1 H2 H3 H4 H5 H6] Hi Hg. assert (f <> FL_READY) as Hf by (apply (H1 i f); rewrite Hi; unfold waits; auto).
  destruct (get_device_cases _ _ _ Hg) as [[Hr ->]|(Hr & -> & ->)].
  - assert (forall j u, lock_threads c j <> T_holding u) as Hnone by (intros j u Hj; destruct (H2 j u Hj); congruence).
    split; cbn.
    + intros j u [[-> [?|[?|?]]]|[? ?]]%set_thread_waits; try done. eauto.
    + intros j u [[-> [= ->]]|[? Hj]]%set_thread_cases; [done|by destruct (Hnone j u)].
    + intros j k u Hne [[-> [= ->]]|[? Hj]]%set_thread_cases Hu f'; [|by destruct (Hnone j u)].
      intros [[-> ?]|[? Hk]]%set_thread_cases; [done|by destruct (Hnone k f')].
    + intros _. exists i. apply set_thread_eq.
    + intros j u [[-> ?]|[? Hj]]%set_thread_cases; [done|eauto].
    + done.
  - split; cbn.
    + intros j u [[-> [?|[?|?]]]|[? ?]]%set_thread_waits; try done. eauto.
    + intros j u [[-> [= ->]]|[? Hj]]%set_thread_cases; [done|]. rewrite <- Hr. eauto.
    + intros j k u Hne [[-> [= ->]]|[? Hj]]%set_thread_cases Hu f'; [done|]. destruct (H2 j u Hj). congruence.
    + intros _. exists i. apply set_thread_eq.
    + intros j u [[-> ?]|[? Hj]]%set_thread_cases; [done|eauto].
    + done.
Qed.

(** A thread gives the device back. *)
Lemma lock_ok_release c i f :
  lock_ok c -> lock_threads c i = T_holding f -> f <> FL_PM_SUSPENDED -> lock_ok (lock_release i c).
Proof.
  intros [H1 H2 H3 H4 H5 H6] Hi Hf.
  assert (forall j u, j <> i -> lock_threads c j <> T_holding u) as Hnone by (intros; by eapply (H3 i j f)).
  assert (forall j u, wake_up (lock_wq c) (set_thread i T_idle (lock_threads c)) j <> T_sleeping u) as Hawake.
  { intros j u [Hq Hj]%wake_up_sleeping. apply set_thread_cases in Hj as [[-> ?]|[? Hj]]; [done|]. by destruct Hq; eapply H5. }
  split; cbn.
  - intros j u [[-> [?|[?|?]]]|[? ?]]%wake_up_waits%set_thread_waits; try done. eauto.
  - intros j u [[-> ?]|[? Hj]]%wake_up_holding%set_thread_cases; [done|by destruct (Hnone j u)].
  - intros j k u Hne [[-> ?]|[? Hj]]%wake_up_holding%set_thread_cases; [done|by destruct (Hnone j u)].
  - done.
  - intros j u Hj. by destruct (Hawake j u).
  - intros _ j u. apply Hawake.
Qed.

Lemma lock_act_ok i c c' : lock_ok c -> lock_act i c c' -> lock_ok c'.
Proof.
  intros Hok [f Hi Hf|f Hi|f Hi|f Hi Hf].
  - apply (lock_ok_rewait c i f); [done|by left|done|by rewrite Hi|done|done].
  - assert (waits (lock_threads c i) f) as Hw by (rewrite Hi; by left). unfold lock_try.
    destruct (get_device_try _ _) as [st|] eqn:Eg; [by apply lock_ok_take|].
    apply (lock_ok_rewait c i f); [done|unfold waits; auto|by eapply lk_waiting|by rewrite Hi| |].
    + intros j Hj _. by apply elem_of_cons; auto.
    + intros _. split; [apply elem_of_cons; auto|by eapply get_device_none].
  - assert (waits (lock_threads c i) f) as Hw by (rewrite Hi; unfold waits; auto).
    apply (lock_ok_rewait c i f); [done|by left|by eapply lk_waiting|by rewrite Hi| |done].
    intros j Hj Hne. by apply list_elem_of_filter.
  - by eapply lock_ok_release.
Qed.

Lemma lock_init_ok : lock_ok lock_init.
Proof. split; cbn; try done. by intros i f [?|[?|?]]. Qed.

(** C28: the device lock.  In every state that threads calling the operations of
    the upper device can reach through [nmbm_get_device] and
    [nmbm_release_device], two different threads that both have the device are
    both shutting it down: operations exclude each other, and none runs once the
    device is suspended. *)
Theorem device_lock_exclusive c i j f f' :
  rtc lock_step lock_init c -> i <> j ->
  lock_threads c i = T_holding f -> lock_threads c j = T_holding f' ->
  f = FL_PM_SUSPENDED /\ f' = FL_PM_SUSPENDED.
Proof.
  intros Hsteps Hne Hi Hj.
  assert (lock_ok c) as [_ H2 H3 _ _ _].
  { assert (forall a b, rtc lock_step a b -> lock_ok a -> lock_ok b) as H
      by (intros a b Hab; induction Hab as [|a b d [k Hk] _ IH]; eauto using lock_act_ok).
    eapply H; [exact Hsteps|apply lock_init_ok]. }
  destruct (H2 i f Hi) as [Ei _], (H2 j f' Hj) as [Ej _].
  destruct (decide (f = FL_PM_SUSPENDED)) as [->|Hf]; [split; congruence|].
  by destruct (H3 i j f Hne Hi Hf f').
Qed.

(** * Executions

    In each step one thread does something, or none does. *)
Definition lock_run (run : nat -> lock_config) (act : nat -> option nat) : Prop :=
  run 0%nat = lock_init /\
  forall n, match act n with Some i => lock_act i (run n) (run (S n)) | None => run (S n) = run n end.

(** The scheduler is fair: a thread that is not asleep takes its next step some time; for one
    that has the device, this is the end of its operation.  Nothing is said of sleepers. *)
Definition lock_fair (run : nat -> lock_config) (act : nat -> option nat) : Prop :=
  forall n i, ready (lock_threads (run n) i) -> exists m, (n <= m)%nat /\ act m = Some i.

(** Thread [i] gets the device in step [n]. *)
Definition acquires (run : nat -> lock_config) (act : nat -> option nat) (n i : nat) : Prop :=
  act n = Some i /\ exists f, lock_threads (run (S n)) i = T_holding f.

Section runs.
Context (run : nat -> lock_config) (act : nat -> option nat) (Hrun : lock_run run act).

Lemma lock_run_ok n : lock_ok (run n).
Proof.
  destruct Hrun as [H0 Hstep]. induction n as [|n IH]; [rewrite H0; apply lock_init_ok|].
  specialize (Hstep n). destruct (act n) as [i|]; [by eapply lock_act_ok|by rewrite Hstep].
Qed.

(** What others do to a thread: they wake it up. *)
Lemma others_step n i : act n <> Some i ->
  lock_threads (run (S n)) i = lock_threads (run n) i \/
  exists f, lock_threads (run n) i = T_sleeping f /\ lock_threads (run (S n)) i = T_woken f.
Proof.
  intros Hi. pose proof (proj2 Hrun n) as Hs. destruct (act n) as [j|]; [|by rewrite Hs; auto].
  assert (i <> j) as Hne by congruence. destruct Hs as [f _ _|f _|f _|f _ _]; cbn.
  - rewrite set_thread_ne by done. auto.
  - unfold lock_try. destruct (get_device_try _ _); cbn; rewrite set_thread_ne by done; auto.
  - rewrite set_thread_ne by done. auto.
  - unfold wake_up. rewrite set_thread_ne by done. case_decide; [|auto]. destruct (lock_threads (run n) i); eauto.
Qed.

Lemma others_keep_ready n i : act n <> Some i -> ready (lock_threads (run n) i) ->
  lock_threads (run (S n)) i = lock_threads (run n) i.
Proof. intros Hi Hr. destruct (others_step n i Hi) as [?|(f & E & _)]; [done|]. by rewrite E in Hr. Qed.

(** The next step of a thread that can run. *)
Lemma next_act n i : lock_fair run act -> ready (lock_threads (run n) i) ->
  exists m, (n <= m)%nat /\ act m = Some i /\ lock_threads (run m) i = lock_threads (run n) i.
Proof.
  intros Hfair Hr. destruct (Hfair n i Hr) as (m & Hm & Hact).
  assert (exists k, m = (n + k)%nat) as [k ->] by (exists (m - n)%nat; lia). clear Hm.
  revert n Hr Hact. induction k as [|k IH]; intros n Hr Hact.
  { exists n. rewrite Nat.add_0_r in Hact. auto. }
  destruct (decide (act n = Some i)) as [|Hne]; [by exists n|].
  pose proof (others_keep_ready n i Hne Hr) as E. destruct (IH (S n)) as (m & ? & ? & Em).
  - by rewrite E.
  - by replace (S n + k)%nat with (n + S k)%nat by lia.
  - exists m. split; [lia|]. split; [done|]. by rewrite Em.
Qed.

(** The device stops being free when a thread gets it. *)
Lemma taken_by n k : lock_state (run n) = FL_READY -> lock_state (run (n + k)%nat) <> FL_READY ->
  exists m j, (n <= m < n + k)%nat /\ acquires run act m j.
Proof.
  intros Hn. induction k as [|k IH]; [by rewrite Nat.add_0_r|]. rewrite Nat.add_succ_r. intros Hk.
  destruct (decide (lock_state (run (n + k)%nat) = FL_READY)) as [Hr|Hr].
  2: { destruct (IH Hr) as (m & j & ? & ?). exists m, j. split; [lia|done]. }
  exists (n + k)%nat. pose proof (proj2 Hrun (n + k)%nat) as Hs. unfold acquires.
  destruct (act (n + k)%nat) as [j|] eqn:Ea; [|by rewrite Hs in Hk].
  inversion Hs as [f Hj Hf E|f Hj E|f Hj E|f Hj Hf E]; rewrite <- E in Hk; cbn in Hk; try done.
  exists j. split; [lia|]. split; [done|]. exists f. unfold lock_try. rewrite Hr, get_device_ready. cbn. apply set_thread_eq.
Qed.

(** A thread waits until it gets the device. *)
Lemma waits_step n i f : waits (lock_threads (run n) i) f ->
  waits (lock_threads (run (S n)) i) f \/ act n = Some i /\ lock_threads (run (S n)) i = T_holding f.
Proof.
  intros Hw. destruct (decide (act n = Some i)) as [Ha|Ha].
  2: { apply or_introl. destruct (others_step n i Ha) as [->|(g & E & ->)]; [done|]. rewrite E in Hw.
       unfold waits in *. naive_solver. }
  pose proof (proj2 Hrun n) as Hs. rewrite Ha in Hs. unfold waits in Hw.
  inversion Hs as [g Hj Hf E|g Hj E|g Hj E|g Hj Hf E]; rewrite Hj in Hw.
  - naive_solver.
  - assert (g = f) as -> by naive_solver. unfold lock_try. destruct (get_device_try _ _); cbn; rewrite set_thread_eq; unfold waits; auto.
  - assert (g = f) as -> by naive_solver. cbn. rewrite set_thread_eq. unfold waits. auto.
  - naive_solver.
Qed.

Lemma waits_until n i f k : waits (lock_threads (run n) i) f ->
  waits (lock_threads (run (n + k)%nat) i) f \/
  exists m, (n <= m < n + k)%nat /\ act m = Some i /\ lock_threads (run (S m)) i = T_holding f.
Proof.
  intros Hw. induction k as [|k [IH|(m & ? & ?)]]; [rewrite Nat.add_0_r; auto| |].
  2: { apply or_intror. exists m. split; [lia|done]. }
  rewrite Nat.add_succ_r. destruct (waits_step _ _ _ IH) as [|[? ?]]; [auto|].
  apply or_intror. exists (n + k)%nat. split; [lia|done].
Qed.

(** While the device is free a thread that tries gets it, or another one does. *)
Lemma trying_progress n i f : lock_fair run act -> lock_state (run n) = FL_READY -> lock_threads (run n) i = T_trying f ->
  exists m j, (n <= m)%nat /\ acquires run act m j.
Proof.
  intros Hfair Hr Hi. destruct (next_act n i Hfair) as (m & Hm & Ha & E); [by rewrite Hi|]. rewrite Hi in E.
  destruct (decide (lock_state (run m) = FL_READY)) as [Hrm|Hrm].
  - exists m, i. split; [done|]. split; [done|]. exists f. pose proof (proj2 Hrun m) as Hs. rewrite Ha in Hs.
    inversion Hs as [g Hj Hf E'|g Hj E'|g Hj E'|g Hj Hf E']; try congruence. unfold lock_try. rewrite Hrm, get_device_ready.
    cbn. rewrite set_thread_eq. congruence.
  - replace m with (n + (m - n))%nat in Hrm by lia. destruct (taken_by n (m - n) Hr Hrm) as (k & j & ? & ?). exists k, j. split; [lia|done].
Qed.

Lemma free_progress n i f : lock_fair run act -> lock_state (run n) = FL_READY -> waits (lock_threads (run n) i) f ->
  exists m j, (n <= m)%nat /\ acquires run act m j.
Proof.
  intros Hfair Hr [Hi|[Hi|Hi]]; [by eapply trying_progress|by destruct (lk_awake _ (lock_run_ok n) Hr i f)|].
  destruct (next_act n i Hfair) as (m & Hm & Ha & E); [by rewrite Hi|]. rewrite Hi in E.
  destruct (decide (lock_state (run (S m)) = FL_READY)) as [Hrm|Hrm].
  - destruct (trying_progress (S m) i f Hfair Hrm) as (k & j & ? & ?); [|exists k, j; split; [lia|done]].
    pose proof (proj2 Hrun m) as Hs. rewrite Ha in Hs.
    inversion Hs as [g Hj Hf E'|g Hj E'|g Hj E'|g Hj Hf E']; try congruence. cbn. rewrite set_thread_eq. congruence.
  - replace (S m) with (n + (S m - n))%nat in Hrm by lia. destruct (taken_by n (S m - n) Hr Hrm) as (k & j & ? & ?). exists k, j. split; [lia|done].
Qed.

Lemma lock_progress n i f : lock_fair run act -> waits (lock_threads (run n) i) f ->
  exists m j, (n <= m)%nat /\ acquires run act m j.
Proof.
  intros Hfair Hw. destruct (decide (lock_state (run n) = FL_READY)) as [Hr|Hr]; [by eapply free_progress|].
  destruct (lk_held _ (lock_run_ok n) Hr) as [j Hj]. destruct (next_act n j Hfair) as (m & Hm & Ha & E); [by rewrite Hj|].
  rewrite Hj in E. assert (lock_state (run (S m)) = FL_READY) as Hrm.
  { pose proof (proj2 Hrun m) as Hs. rewrite Ha in Hs.
    inversion Hs as [g Hj' Hf E'|g Hj' E'|g Hj' E'|g Hj' Hf E']; [congruence..|done]. }
  destruct (waits_until n i f (S m - n) Hw) as [Hw'|(k & Hk & Hak & Hik)].
  - replace (n + (S m - n))%nat with (S m) in Hw' by lia.
    destruct (free_progress (S m) i f Hfair Hrm Hw') as (k & j' & ? & ?). exists k, j'. split; [lia|done].
  - exists k, i. split; [lia|]. split; [done|by exists f].
Qed.
End runs.

(** C29: no operation waits for ever.  In every execution with a fair scheduler, in which
    operations come to an end (so that no thread shuts the device down), some thread gets the
    device whenever one waits for it: releasing it wakes the sleepers up.  A thread that waits
    gets it itself, unless other threads get it in front of it again and again for ever. *)
Theorem device_lock_live run act i f n :
  lock_run run act -> lock_fair run act -> waits (lock_threads (run n) i) f ->
  (exists m j, (n <= m)%nat /\ acquires run act m j) /\
  forall N, (forall m j, (N <= m)%nat -> acquires run act m j -> j = i) ->
    exists m, (n <= m)%nat /\ lock_threads (run m) i = T_holding f.
Proof.
  intros Hrun Hfair Hw. split; [by eapply lock_progress|]. intros N HN.
  destruct (waits_until run act Hrun n i f (N - n) Hw) as [Hw'|(k & ? & _ & Hk)]; [|exists (S k); split; [lia|done]].
  destruct (lock_progress run act Hrun _ i f Hfair Hw') as (m & j & Hm & Ha & g & Hg).
  assert (j = i) as -> by (apply (HN m); [lia|by split; [|exists g]]).
  destruct (waits_until run act Hrun _ i f (S m - (n + (N - n))) Hw') as [Hw2|(k & ? & _ & Hk)]; [|exists (S k); split; [lia|done]].
  replace (n + (N - n) + (S m - (n + (N - n))))%nat with (S m) in Hw2 by lia. rewrite Hg in Hw2.
  by destruct Hw2 as [?|[?|?]].
Qed.

Section mtd_theorems.
Context {mchip : Type} {C : Crc32}.

(** The driver discharges the contract NMBM is proved against.  The lower
    device [nmbm_probe] hands to [nmbm_attach] has a [read_page] callback that
    fills the buffers it is given, whenever [mtd_read_oob] does. *)
Theorem probe_discharges_contract (e : probe_env mchip) lower `{!mtd_contract lower} :
  read_contract (probe_nld e lower) /\ lower_contract (probe_nld e lower).
Proof.
  split; [by apply probe_read_contract|by apply probe_lower_contract].
Qed.

(** What NMBM learns of a read.  An error of [mtd_read_oob] other than
    [-EUCLEAN] is passed on, [-EUCLEAN] is turned into a positive number of
    bitflips, and success into [0]; the error statistics of the upper device
    become those of the lower device. *)
Theorem lower_read_page_codes (lower : mtd_info mchip) addr buf oob mode c r buf' oob' c' :
  0 <= bitflip_threshold lower < 2 ^ 31 - 1 -> 0 < ecc_strength lower < 2 ^ 31 ->
  nmbm_lower_read_page lower addr buf oob mode c = (r, buf', oob', c') ->
  exists r0 d' o' mc,
    mtd_read_oob lower addr (lower_mode mode) (buf_part (mtd_writesize lower) <$> buf)
      (buf_part (mtd_oobavail lower (lower_mode mode)) <$> oob) (lc_mtd c) = (r0, d', o', mc) /\
    upper_corrected c' = ecc_corrected lower mc /\ upper_failed c' = ecc_failed lower mc /\
    (0 < r <-> r0 = - EUCLEAN) /\ (r < 0 <-> r0 < 0 /\ r0 <> - EUCLEAN) /\ (r < 0 -> r = r0).
Proof.
  intros Hb He H. destruct (lower_read_code _ _ _ _ _ _ _ _ _ _ Hb He H)
    as (r0 & d' & o' & mc & E & -> & Hr). exists r0, d', o', mc. split; [done|].
  change (- EUCLEAN) with (-117) in *. cbn.
  destruct (Z.eqb_spec r0 (-117)); [|destruct (Z.ltb_spec r0 0)]; split_and!; lia.
Qed.

Section upper.
Context (lower : mtd_info mchip) (g : nmbm_geometry (lchip mchip)) (Hg : geom_ok g).
Context `{Hl : !lower_contract (NmbmTypes.lower g)} (Hm : mtd_match lower g).

(** [nmbm_mtd_read_oob] on a ready device terminates inside its buffers and
    gives the device back ready; it only reads the chip.  When the code is not
    negative or [-EBADMSG] and the request reaches NMBM's page loop, exactly the
    requested numbers of data and spare bytes have been delivered. *)
Theorem mtd_read_oob_spec size from ops s :
  m_ok lower g s -> m_state s = FL_READY -> ops_ok ops -> 0 <= from -> from + ops_len ops < 2 ^ 64 ->
  wp (nmbm_mtd_read_oob lower size from ops)
    (fun '(r, ops') s' => m_ok lower g s' /\ m_state s' = FL_READY /\
       dev_steps g none (dev (m_nst s)) (dev (m_nst s')) /\
       (forall mode, oob_request lower size from ops = inr (mode, true) ->
          0 <= r \/ r = - EBADMSG ->
          ops_retlen ops' = ops_len ops /\ ops_oobretlen ops' = ops_ooblen ops)) s.
Proof using Hg Hl Hm.
  intros Hs Hst Hops Hf Hsum. unfold nmbm_mtd_read_oob.
  destruct (oob_request lower size from ops) as [v|[mode b]] eqn:E.
  { apply wp_ret. split_and!; try done. }
  destruct (oob_request_spec _ _ _ _ _ _ E) as (H1 & H2 & _).
  destruct b; apply wp_bind, wp_get_device; try done;
    apply (m_ok_state lower g FL_READING) in Hs as Hs1; apply wp_bind.
  - wp_call (wp_nmbm_mtd_read_data lower g Hg Hm); [done|done|done|auto|].
    intros [r ops'] s' [(Hok & Hrel & _) Hr]. apply wp_bind, wp_modify, wp_ret.
    split_and!; [by apply m_ok_state|done|apply Hrel|auto].
  - destruct (H1 eq_refl) as (d & Ed & _). rewrite Ed. apply wp_call_nmbm.
    assert (ops_len ops <= Z.of_nat (length d)) as Hd.
    { destruct (decide (ops_len ops = 0)) as [->|Hne]; [lia|].
      destruct (oo_dat _ Hops Hne) as (d' & Ed' & ?). rewrite Ed in Ed'. by injection Ed' as <-. }
    wp_call (wp_read_range g Hg); [apply (reads_pages_any g Hg), Hs1|apply Hs1|done|apply Hops|done|done|].
    intros [[r n] b'] s' Hr. apply wp_bind, wp_modify, wp_ret.
    assert (chip_rel g none (m_nst s) s') as Hrel.
    { destruct (range_code _ _ _ _ _); [|apply Hr]. destruct Hr as (_ & _ & _ & ->). apply chip_rel_refl. }
    split_and!; [|done|apply Hrel|done].
    apply m_ok_state. split; [eapply inst_ok_chip; [apply Hs|done]|apply Hs].
Qed.

(** C27: [nmbm_mtd_write_oob] on a ready device terminates inside its buffers,
    keeps the invariant of the NMBM instance and gives the device back ready;
    when a request with spare bytes succeeds, exactly the requested numbers of
    bytes have been written. *)
Theorem mtd_write_oob_spec size to ops s :
  m_ok lower g s -> m_state s = FL_READY -> ops_ok ops -> 0 <= to -> to + ops_len ops < 2 ^ 64 ->
  wp (nmbm_mtd_write_oob lower size to ops)
    (fun '(r, ops') s' => m_ok lower g s' /\ m_state s' = FL_READY /\
       (forall mode, oob_request lower size to ops = inr (mode, true) -> r = 0 ->
          ops_retlen ops' = ops_len ops /\ ops_oobretlen ops' = ops_ooblen ops)) s.
Proof using Hg Hl Hm.
  intros Hs Hst Hops Hf Hsum. unfold nmbm_mtd_write_oob.
  destruct (oob_request lower size to ops) as [v|[mode b]] eqn:E.
  { apply wp_ret. split_and!; try done. }
  destruct (oob_request_spec _ _ _ _ _ _ E) as (H1 & H2 & _).
  destruct b; apply wp_bind, wp_get_device; try done;
    apply (m_ok_state lower g FL_WRITING) in Hs as Hs1; apply wp_bind.
  - wp_call (wp_nmbm_mtd_write_data lower g Hg Hm); [done|done|done|auto|].
    intros [r ops'] s' [(Hok & Hrel & _) Hr]. apply wp_bind, wp_modify, wp_ret.
    split_and!; [by apply m_ok_state|done|auto].
  - destruct (H1 eq_refl) as (d & Ed & _). rewrite Ed. apply wp_call_nmbm.
    assert (ops_len ops <= Z.of_nat (length d)) as Hd.
    { destruct (decide (ops_len ops = 0)) as [->|Hne]; [lia|].
      destruct (oo_dat _ Hops Hne) as (d' & Ed' & ?). rewrite Ed in Ed'. by injection Ed' as <-. }
    wp_call (wp_write_range g Hg); [apply Hs1|done|apply Hops|done|done|].
    intros [r n] s' Hr. apply wp_bind, wp_modify, wp_ret.
    assert (inst_ok g s') as Hok.
    { destruct (range_code _ _ _ _ _); [destruct Hr as (_ & _ & ->); apply Hs|apply Hr]. }
    split_and!; [|done|done]. apply m_ok_state. split; [apply Hok|apply Hs].
Qed.
End upper.

Lemma probe_lower_error (e : probe_env mchip) v : probe_lower e = Some (inl v) -> v <> 0.
Proof.
  unfold probe_lower. intros H.
  destruct (lower_mtd_device e) as [[d|]|]; [done|by injection H as <-|].
  destruct (lower_mtd_name e) as [[d|]|]; [done|by injection H as <-|done].
Qed.

(** probing is balanced.  A successful [nmbm_probe] adds its device to the
    list of devices with the size of the data area and keeps one reference on
    the lower device; any other code leaves the list, the bound devices and the
    references as they were. *)
Theorem probe_balanced (e : probe_env mchip) node s r s' :
  nmbm_probe e node s = Ret r s' ->
  (r = 0 /\ nmbm_devs s' = nmbm_devs s ++ [node] /\ drv_refs s' = drv_refs s + 1 /\
   exists nm, drv_bound s' = nm :: drv_bound s /\ nm_node nm = node /\
     m_state (nm_state nm) = FL_READY /\
     nm_upper_size nm = u64 (data_block_count (ni (m_nst (nm_state nm))) * mtd_erasesize (nm_lower nm)))
  \/ (r <> 0 /\ nmbm_devs s' = nmbm_devs s /\ drv_bound s' = drv_bound s /\ drv_refs s' = drv_refs s).
Proof.
  unfold nmbm_probe. intros H. destruct (probe_lower e) as [[v|lower]|] eqn:El; [| |done].
  - injection H as <- <-. right. apply probe_lower_error in El. done.
  - destruct (kzalloc_ok e); cbn [negb] in H; [|by injection H as <- <-; right].
    destruct (nmbm_attach _ _) as [v n| |]; [|done..].
    destruct (Z.eqb_spec v 0) as [->|Hv]; cbn [negb] in H; [|by injection H as <- <-; right].
    destruct (Z.eqb_spec (register_result e) 0) as [E|E]; cbn [negb] in H.
    + injection H as <- <-. left. cbn. eauto 10.
    + destruct (nmbm_detach n) as [? n'| |]; [|done..]. injection H as <- <-. by right.
Qed.

(** Removing a device does not take it off the list of devices: when
    [nmbm_remove] has freed it, its node has been linked into [nmbm_devs] once more
    instead of having been deleted from it. *)
Theorem remove_keeps_node (nm : nmbm_mtd mchip) v s r s' :
  nmbm_remove nm v s = Ret r s' -> r = 0 ->
  (nm_node nm ∉ nm_node <$> drv_bound s') /\ nmbm_devs s' = nmbm_devs s ++ [nm_node nm].
Proof.
  unfold nmbm_remove. intros H ->. destruct (Z.eqb_spec v 0) as [->|]; cbn [negb] in H;
    [|by injection H].
  destruct (nmbm_detach _) as [? n| |]; [|done..]. injection H as <-. cbn. split; [|done].
  intros (x & Hx & Hin)%list_elem_of_fmap. apply list_elem_of_filter in Hin as [Hne _]. done.
Qed.
End mtd_theorems.
