(* ===== verification/NmbmMtdWitness.v ===== *)
(** The theorems on the MTD driver on a concrete MTD device: the chip of
    [NmbmSim] behind the MTD interface, probed and attached. *)

From stdpp Require Import base list numbers sets relations.
From Stdlib Require Import ZArith Lia.
From S2P Require Import Prelude NmbmTypes NmbmChip NmbmBlocks NmbmTable NmbmAttach NmbmLogic.
From S2P Require Import NmbmSim NmbmSpec NmbmBlockSpec NmbmWalk NmbmTableSpec NmbmLogicSpec.
From S2P Require Import NmbmAttachSpec NmbmData NmbmSim NmbmMtd NmbmMtdSpec NmbmMtdTheorems.
From S2P Require Import NmbmWitness.
Local Open Scope Z_scope.

(** Reading and writing ignore the mode; a request has the size of its buffers. *)
Definition demo_mtd : mtd_info sim :=
  mk_mtd_info (sg_blocks demo_sg * sg_erasesize demo_sg) (sg_erasesize demo_sg)
    (sg_writesize demo_sg) (sg_oobsize demo_sg) (sg_oobsize demo_sg) 9 6 511 63 2 4
    (fun _ => 0) (fun _ => 0) (fun _ => sg_oobsize demo_sg)
    (fun addr _ dat oob c => sim_read demo_sg addr dat oob NMBM_MODE_PLACE_OOB c)
    (fun addr _ dat oob c => sim_write demo_sg addr dat oob NMBM_MODE_PLACE_OOB c)
    (fun addr _ c => sim_erase demo_sg addr c)
    (sim_is_bad demo_sg) (sim_mark_bad demo_sg).

Definition demo_env : probe_env sim :=
  mk_probe_env (Some (Some demo_mtd)) None (Some 4) (Some 0) true false true 0.

Definition demo_driver : driver sim := mk_driver [] [] 0 demo_chip.
Definition demo_nld : nmbm_lower_device (lchip sim) := probe_nld demo_env demo_mtd.
Definition demo_mg : nmbm_geometry (lchip sim) := (init_geometry demo_nld).1.1.
Definition demo_mzero : nst (lchip sim) :=
  mk_nst (zeroed_instance demo_nld) (mk_lchip demo_chip 0 0).
Definition demo_mattached : outcome (nst (lchip sim)) Z := nmbm_attach demo_nld demo_mzero.

(** The probed device. *)
Definition demo_m : mst sim :=
  mk_mst (match demo_mattached with Ret _ n => n | _ => demo_mzero end) (replicate 80 0) FL_READY.

#[export] Instance demo_mtd_contract : mtd_contract demo_mtd.
Proof. split. intros addr m dat oob c r dat' oob' c'. apply sim_read_shape. Defined.

Lemma demo_nld_bounds : nld_bounds demo_nld.
Proof. split; repeat split; vm_compute; (reflexivity || discriminate). Qed.

Lemma demo_nld_checked : nmbm_check_lower_members demo_nld = Some demo_nld.
Proof. reflexivity. Qed.

Lemma demo_mgeom : geom_ok demo_mg.
Proof.
  destruct (check_lower_members_exp _ _ demo_nld_checked demo_nld_bounds) as (ks & ke & kw & H).
  by eapply init_geometry_ok.
Qed.

#[export] Instance demo_mcontract : lower_contract (NmbmTypes.lower demo_mg).
Proof. change (NmbmTypes.lower demo_mg) with demo_nld. apply probe_lower_contract, _. Defined.

Definition mno_signature (o : outcome (nst (lchip sim)) (option (nmbm_signature * Z))) : bool :=
  match o with Ret (Some _) _ => false | _ => true end.

Lemma mno_signature_spec o sig s2 : mno_signature o = true -> o <> Ret (Some sig) s2.
Proof. intros H ->. discriminate H. Qed.

Lemma demo_mno_signature sig s2 :
  nmbm_find_signature (attach_init demo_nld demo_mzero) <> Ret (Some sig) s2.
Proof. apply mno_signature_spec. vm_compute. reflexivity. Qed.

Definition mreturns_zero (o : outcome (nst (lchip sim)) Z) : bool :=
  match o with Ret r _ => r =? 0 | _ => false end.

Lemma mreturned_state (m : M (nst (lchip sim)) Z) (Q : Z -> nst (lchip sim) -> Prop) s s0 :
  wp m Q s -> mreturns_zero (m s) = true -> Q 0 (match m s with Ret _ s => s | _ => s0 end).
Proof. unfold wp. destruct (m s) as [r s'| |]; [|done..]. cbn. intros H ->%Z.eqb_eq. done. Qed.

Lemma demo_mresult : mreturns_zero demo_mattached = true.
Proof. vm_compute. reflexivity. Qed.

#[local] Opaque nmbm_attach.
Lemma demo_minst : inst_ok demo_mg (m_nst demo_m).
Proof.
  pose proof (wp_attach_new demo_nld demo_nld demo_mzero demo_nld_bounds
    (probe_read_contract demo_mtd demo_env) demo_nld_checked ltac:(discriminate) eq_refl
    demo_mno_signature) as H.
  destruct (mreturned_state _ _ _ demo_mzero H demo_mresult) as [_ [(_ & Hok & _)|E]];
    [exact Hok|discriminate E].
Qed.
#[local] Transparent nmbm_attach.

Lemma demo_mok : m_ok demo_mtd demo_mg demo_m.
Proof. split; [exact demo_minst|vm_compute; reflexivity]. Qed.

Lemma demo_match : mtd_match demo_mtd demo_mg.
Proof. split; try reflexivity. intros m. split; vm_compute; discriminate. Qed.

(** * Witnesses *)

(** Two threads that shut the device down, one after the other. *)
Definition asks (i : nat) (f : flstate_t) (c : lock_config) : lock_config :=
  mk_lock_config (lock_state c) (lock_wq c) (set_thread i (T_trying f) (lock_threads c)).
Definition both_shut_down : lock_config :=
  lock_try 2 FL_PM_SUSPENDED (asks 2 FL_PM_SUSPENDED (lock_try 1 FL_PM_SUSPENDED (asks 1 FL_PM_SUSPENDED lock_init))).

Lemma both_shut_down_reachable : rtc lock_step lock_init both_shut_down.
Proof.
  eapply rtc_l; [exists 1%nat; by apply (act_request 1 _ FL_PM_SUSPENDED)|].
  eapply rtc_l; [exists 1%nat; by apply (act_try 1 _ FL_PM_SUSPENDED)|].
  eapply rtc_l; [exists 2%nat; by apply (act_request 2 _ FL_PM_SUSPENDED)|].
  eapply rtc_l; [exists 2%nat; by apply (act_try 2 _ FL_PM_SUSPENDED)|].
  apply rtc_refl.
Qed.

Lemma device_lock_exclusive_witness :
  FL_PM_SUSPENDED = FL_PM_SUSPENDED /\ FL_PM_SUSPENDED = FL_PM_SUSPENDED.
Proof.
  apply (device_lock_exclusive both_shut_down 1 2); [apply both_shut_down_reachable|discriminate
    |reflexivity|reflexivity].
Defined.

(** Thread 1 writes; thread 2 wants to read meanwhile, sleeps, is woken up, reads, and then
    nothing happens. *)
Definition write_read_act (n : nat) : option nat :=
  match n with 0 | 1 | 4 => Some 1 | 2 | 3 | 5 | 6 | 7 => Some 2 | _ => None end%nat.
Definition write_read_step (n : nat) : lock_config -> lock_config :=
  match n with
  | 0 => asks 1 FL_WRITING | 1 => lock_try 1 FL_WRITING | 2 => asks 2 FL_READING | 3 => lock_try 2 FL_READING
  | 4 => lock_release 1 | 5 => lock_resume 2 FL_READING | 6 => lock_try 2 FL_READING | 7 => lock_release 2
  | _ => id
  end%nat.
Fixpoint write_read (n : nat) : lock_config :=
  match n with O => lock_init | S n => write_read_step n (write_read n) end.

Lemma write_read_run : lock_run write_read write_read_act.
Proof.
  split; [done|]. intros [|[|[|[|[|[|[|[|n]]]]]]]]; cbn [write_read_act write_read]; [..|done].
  - by apply (act_request 1 _ FL_WRITING).
  - by apply (act_try 1 _ FL_WRITING).
  - by apply (act_request 2 _ FL_READING).
  - by apply (act_try 2 _ FL_READING).
  - by apply (act_release 1 _ FL_WRITING).
  - by apply (act_resume 2 _ FL_READING).
  - by apply (act_try 2 _ FL_READING).
  - by apply (act_release 2 _ FL_READING).
Qed.

Lemma write_read_end n : (8 <= n)%nat -> write_read n = write_read 8.
Proof.
  intros Hn. assert (exists k, n = (8 + k)%nat) as [k ->] by (exists (n - 8)%nat; lia). clear Hn.
  induction k as [|k IH]; [done|]. rewrite <- IH, Nat.add_succ_r. done.
Qed.

Lemma write_read_others n i : i <> 1%nat -> i <> 2%nat -> lock_threads (write_read n) i = T_idle.
Proof.
  intros H1 H2. induction n as [|n IH]; [done|].
  destruct (others_step _ _ write_read_run n i) as [->|(f & E & _)]; [|done|congruence].
  unfold write_read_act. do 8 (destruct n as [|n]; [congruence|]). done.
Qed.

Lemma write_read_fair : lock_fair write_read write_read_act.
Proof.
  intros n i Hr. destruct (decide (i = 1%nat)) as [->|H1]; [|destruct (decide (i = 2%nat)) as [->|H2]].
  - exists 4%nat. split; [|done]. destruct (decide (n <= 4)%nat) as [|Hn]; [done|exfalso].
    destruct (decide (8 <= n)%nat) as [Hn8|]; [by rewrite (write_read_end n Hn8) in Hr|].
    assert (n = 5 \/ n = 6 \/ n = 7)%nat as [-> | [-> | ->]] by lia; done.
  - exists 7%nat. split; [|done]. destruct (decide (n <= 7)%nat) as [|Hn]; [done|exfalso].
    by rewrite (write_read_end n) in Hr by lia.
  - by rewrite write_read_others in Hr.
Qed.

(** Thread 2 is asleep after four steps; the device it gets is its own in the end. *)
Lemma device_lock_live_witness :
  lock_threads (write_read 4) 2 = T_sleeping FL_READING /\
  exists m, (4 <= m)%nat /\ lock_threads (write_read m) 2 = T_holding FL_READING.
Proof.
  split; [reflexivity|].
  destruct (device_lock_live write_read write_read_act 2 FL_READING 4 write_read_run write_read_fair ltac:(unfold waits; auto))
    as [_ H]. apply (H 5%nat). intros m j Hm [Ha _]. unfold write_read_act in Ha.
  do 8 (destruct m as [|m]; [first [lia|congruence]|]). discriminate Ha.
Defined.

Lemma probe_discharges_contract_witness :
  read_contract (probe_nld demo_env demo_mtd) /\ lower_contract (probe_nld demo_env demo_mtd).
Proof. apply (probe_discharges_contract demo_env demo_mtd). Defined.

Lemma lower_read_page_codes_witness :
  exists r0 d' o' mc,
    mtd_read_oob demo_mtd 0 MTD_OPS_PLACE_OOB (Some (replicate 64 0)) None demo_chip = (r0, d', o', mc) /\
    (0 < 0 <-> r0 = - EUCLEAN).
Proof.
  destruct (lower_read_page_codes demo_mtd 0 (Some (replicate 64 0)) None NMBM_MODE_PLACE_OOB
    (mk_lchip demo_chip 0 0) _ _ _ _ ltac:(vm_compute; split; [discriminate|reflexivity])
    ltac:(vm_compute; split; reflexivity) eq_refl) as (r0 & d' & o' & mc & E & _ & _ & H & _).
  exists r0, d', o', mc. split; [exact E|exact H].
Defined.

(** A request for 100 data bytes and 20 spare bytes. *)
Definition demo_ops : mtd_oob_ops :=
  mk_mtd_oob_ops MTD_OPS_PLACE_OOB 100 0 20 0 3 (Some (replicate 100 7)) (Some (replicate 20 9)).

Lemma demo_ops_ok : ops_ok demo_ops.
Proof.
  split; try (vm_compute; split; (reflexivity || discriminate)); try (vm_compute; discriminate);
    intros _; eexists; (split; [reflexivity|]); vm_compute; discriminate.
Qed.

Lemma mtd_read_oob_spec_witness :
  wp (nmbm_mtd_read_oob demo_mtd 24576 30 demo_ops) (fun _ s' => m_state s' = FL_READY) demo_m.
Proof.
  eapply wp_mono; [apply (mtd_read_oob_spec demo_mtd demo_mg demo_mgeom demo_match 24576 30 demo_ops
    demo_m demo_mok eq_refl demo_ops_ok); conc|]. intros [r ops] s' (_ & H & _). exact H.
Defined.

Lemma mtd_write_oob_spec_witness :
  wp (nmbm_mtd_write_oob demo_mtd 24576 30 demo_ops) (fun _ s' => m_state s' = FL_READY) demo_m.
Proof.
  eapply wp_mono; [apply (mtd_write_oob_spec demo_mtd demo_mg demo_mgeom demo_match 24576 30 demo_ops
    demo_m demo_mok eq_refl demo_ops_ok); conc|]. intros [r ops] s' (_ & H & _). exact H.
Defined.

(** A probe that has to be retried. *)
Definition defer_env : probe_env sim :=
  mk_probe_env (Some None) None None None false false true 0.

Lemma probe_balanced_witness :
  - EPROBE_DEFER <> 0 /\ drv_refs demo_driver = 0.
Proof.
  destruct (probe_balanced defer_env 1 demo_driver (- EPROBE_DEFER) demo_driver eq_refl)
    as [[H _]|(H & _)]; [discriminate H|split; [exact H|reflexivity]].
Defined.

Definition demo_nm : nmbm_mtd sim := mk_nmbm_mtd 1 demo_mtd 24576 demo_m.

Definition removed : driver sim :=
  match nmbm_remove demo_nm 0 (mk_driver [1] [demo_nm] 1 demo_chip) with
  | Ret _ s => s
  | _ => demo_driver
  end.

Lemma remove_result :
  (match nmbm_remove demo_nm 0 (mk_driver [1] [demo_nm] 1 demo_chip) with Ret r _ => r =? 0 | _ => false end)
    = true.
Proof. vm_compute. reflexivity. Qed.

Lemma remove_returns :
  nmbm_remove demo_nm 0 (mk_driver [1] [demo_nm] 1 demo_chip) = Ret 0 removed.
Proof.
  pose proof remove_result as H. unfold removed.
  destruct (nmbm_remove demo_nm 0 (mk_driver [1] [demo_nm] 1 demo_chip)) as [r s| |];
    [|discriminate H..]. apply Z.eqb_eq in H as ->. reflexivity.
Qed.

Lemma remove_keeps_node_witness : nmbm_devs removed = [1; 1].
Proof.
  destruct (remove_keeps_node demo_nm 0 (mk_driver [1] [demo_nm] 1 demo_chip) 0 removed
    remove_returns eq_refl) as [_ H]. exact H.
Defined.
