(* ===== verification/MtdSplit.v ===== *)
(** The firmware splitters: [drivers/mtd/mtdsplit/mtdsplit.c] and the parsers that
    cut a flash partition into a kernel and a root file system. *)

From stdpp Require Import base list numbers strings.
From Stdlib Require Import ZArith Lia.
From S2P Require Import Prelude Platform.
Local Open Scope Z_scope.
Local Open Scope cprog_scope.

Definition SQUASHFS_MAGIC : Z := 0x73717368.
Definition UBI_EC_MAGIC : Z := 0x55424923.
Definition JFFS2_MAGIC_BITMASK : Z := 0x1985.

Definition KERNEL_PART_NAME : string := "kernel".
Definition ROOTFS_PART_NAME : string := "rootfs".
Definition UBI_PART_NAME : string := "ubi".
Definition ROOTFS_SPLIT_NAME : string := "rootfs_data".

Inductive mtdsplit_part_type :=
| MTDSPLIT_PART_TYPE_UNK
| MTDSPLIT_PART_TYPE_SQUASHFS
| MTDSPLIT_PART_TYPE_JFFS2
| MTDSPLIT_PART_TYPE_UBI.

#[export] Instance mtdsplit_part_type_eq_dec : EqDecision mtdsplit_part_type.
Proof. solve_decision. Defined.

(** [struct mtd_partition], the fields the parsers set.  Memory from [kzalloc] is
    zero, so a parser that does not set [mask_flags] leaves it 0. *)
Record mtd_partition := new_mtd_partition {
  part_name : string;
  part_offset : Z;
  part_size : Z;
  part_mask_flags : Z
}.
Definition mk_mtd_partition (name : string) (offset size : Z) : mtd_partition :=
  new_mtd_partition name offset size 0.

(** * The device

    The kernel's MTD layer is not part of the sources: [mtd_read] is a parameter
    that maps an offset and a length to an error code and the bytes delivered
    ([retlen] is their number).  [chip] is the state of the hardware.  [parent_erasesize]
    is the erase size of [mtd_get_master], [mtdpart_offset] the offset of the
    partition in it; [kzalloc_ok] and [vmalloc_ok] say whether memory is granted. *)
Record mtd_dev (chip : Type) := mk_mtd_dev {
  mtd_name : string;
  mtd_size : Z;
  mtd_erasesize : Z;
  parent_erasesize : Z;
  mtdpart_offset : Z;
  mtd_read : Z -> Z -> chip -> (Z * list Z) * chip;
  kzalloc_ok : bool;
  vmalloc_ok : bool
}.
Arguments mk_mtd_dev {chip} _ _ _ _ _ _ _ _.
Arguments mtd_name {chip} _.
Arguments mtd_size {chip} _.
Arguments mtd_erasesize {chip} _.
Arguments parent_erasesize {chip} _.
Arguments mtdpart_offset {chip} _.
Arguments mtd_read {chip} _ _ _ _.
Arguments kzalloc_ok {chip} _.
Arguments vmalloc_ok {chip} _.

(** [mtd_roundup_to_eb] and [mtd_rounddown_to_eb]: [mtd_div_by_eb] returns a
    [uint32_t], and so does its product with the erase size. *)
Definition mtd_roundup_to_eb (sz eb : Z) : Z :=
  if sz mod eb =? 0 then sz else u32 (u32 (u32 (sz / eb) + 1) * eb).
Definition mtd_rounddown_to_eb (sz eb : Z) : Z :=
  if sz mod eb =? 0 then sz else u32 (u32 (sz / eb) * eb).

Section split.
Context `{Arch} {chip : Type} (m : mtd_dev chip).

Abbreviation prog := (M chip).

Definition call_mtd_read (off len : Z) : prog (Z * list Z) := fun c =>
  let '(r, c') := mtd_read m (loff_t off) len c in Ret r c'.

(** A read that has to deliver all bytes: an error code, or [-EIO] for a short
    read.  [read_trx_header], [read_uimage_header], [read_jimage_header] and
    [mtdsplit_elf_read_mtd] are this function; other parsers have it inline. *)
Definition read_exact (off len : Z) : prog (Z + list Z) :=
  let* (r, bytes) := call_mtd_read off len in
  if negb (r =? 0) then ret (inl r)
  else if negb (Z.of_nat (length bytes) =? len) then ret (inl (- EIO))
  else ret (inr bytes).

(** * mtdsplit.c *)

Definition sizeof_squashfs_super_block : Z := 48.

Definition mtd_get_squashfs_len (offset : Z) : prog (Z + Z) :=
  let* r := read_exact offset sizeof_squashfs_super_block in
  match r with
  | inl _ => ret (inl (- EIO))
  | inr sb =>
      if negb (le_field sb 0 4 =? SQUASHFS_MAGIC) then ret (inl (- EINVAL))
      else
        let len := size_t (le_field sb 40 8) in
        if len <=? 0 then ret (inl (- ENODEV))
        else if mtd_size m <? size_t (offset + len) then ret (inl (- EINVAL))
        else ret (inr len)
  end.

Definition mtd_next_eb (offset : Z) : Z :=
  size_t (u64 (mtd_rounddown_to_eb offset (mtd_erasesize m) + mtd_erasesize m)).

(** Which root file system a magic number announces. *)
Definition rootfs_magic (magic : list Z) : option mtdsplit_part_type :=
  if le_field magic 0 4 =? SQUASHFS_MAGIC then Some MTDSPLIT_PART_TYPE_SQUASHFS
  else if cpu_field magic 0 4 =? 0x19852003 then Some MTDSPLIT_PART_TYPE_JFFS2
  else if be_field magic 0 4 =? UBI_EC_MAGIC then Some MTDSPLIT_PART_TYPE_UBI
  else None.

Definition mtd_check_rootfs_magic (offset : Z) : prog (Z + mtdsplit_part_type) :=
  let* r := read_exact offset 4 in
  match r with
  | inl e => ret (inl e)
  | inr magic =>
      match rootfs_magic magic with
      | Some t => ret (inr t)
      | None => ret (inl (- EINVAL))
      end
  end.

(** A loop over erase blocks up to [limit] makes at most this many rounds. *)
Definition eb_fuel (limit : Z) : nat := Z.to_nat (limit / mtd_erasesize m + 3).

Definition mtd_find_rootfs_from (from limit : Z) : prog (Z + Z * mtdsplit_part_type) :=
  loop (eb_fuel limit) (fun offset =>
    if offset <? limit then
      let* r := mtd_check_rootfs_magic offset in
      match r with
      | inl _ => ret (inl (mtd_next_eb offset))
      | inr t => ret (inr (inr (offset, t)))
      end
    else ret (inr (inl (- ENODEV)))) from.

(** The result of a parser: its return value, and what it stored in [*pparts]. *)
Definition parse_result : Type := Z * option (list mtd_partition).

Definition parse_err (e : Z) : prog parse_result := ret (e, None).
Definition parse_ok (parts : list mtd_partition) : prog parse_result :=
  ret (Z.of_nat (length parts), Some parts).

(** [kzalloc] of the partition array, then its contents. *)
Definition alloc_parts (parts : list mtd_partition) : prog parse_result :=
  if negb (kzalloc_ok m) then parse_err (- ENOMEM) else parse_ok parts.

Definition rootfs_name (t : mtdsplit_part_type) : string :=
  if decide (t = MTDSPLIT_PART_TYPE_UBI) then UBI_PART_NAME else ROOTFS_PART_NAME.

(** The kernel in front and the root file system in the rest of the device. *)
Definition rest_of_device (name : string) (rootfs_offset : Z) : mtd_partition :=
  mk_mtd_partition name rootfs_offset (u64 (mtd_size m - rootfs_offset)).

(** * mtdsplit_squashfs.c *)

Definition mtdsplit_parse_squashfs : prog parse_result :=
  let* r := mtd_get_squashfs_len 0 in
  match r with
  | inl e => parse_err e
  | inr len =>
      let po := size_t (mtdpart_offset m) in
      let off := u64 (mtd_roundup_to_eb (size_t (po + len)) (parent_erasesize m) - po) in
      alloc_parts [mk_mtd_partition ROOTFS_SPLIT_NAME off
        (mtd_rounddown_to_eb (u64 (mtd_size m - off)) (mtd_erasesize m))]
  end.

(** * The scan for an image at an erase block boundary

    The loop of the TRX, uImage and jImage parsers.  [probe] reads the header at
    an offset and gives the size of the image it describes, or nothing; the loop
    leaves with the offset, the image size and the header of its last round. *)
Definition image_scan (probe : Z -> prog (option (Z * list Z))) : prog (Z * (Z * list Z)) :=
  loop (eb_fuel (mtd_size m)) (fun '(offset, cur) =>
    if offset <? mtd_size m then
      let* r := probe offset in
      match r with
      | None => ret (inl (size_t (offset + mtd_erasesize m), (0, [])))
      | Some (sz, hdr) =>
          if mtd_size m <? size_t (offset + sz)
          then ret (inl (size_t (offset + mtd_erasesize m), (sz, hdr)))
          else ret (inr (offset, (sz, hdr)))
      end
    else ret (inr (offset, cur))) (0, (0, [])).

(** * mtdsplit_trx.c *)

Definition TRX_MAGIC : Z := 0x30524448.
Definition sizeof_trx_header : Z := 32.

Definition trx_probe (offset : Z) : prog (option (Z * list Z)) :=
  let* r := read_exact offset sizeof_trx_header in
  match r with
  | inl _ => ret None
  | inr hdr =>
      if negb (le_field hdr 0 4 =? TRX_MAGIC) then ret None
      else ret (Some (le_field hdr 4 4, hdr))
  end.

Definition mtdsplit_parse_trx : prog parse_result :=
  if negb (kzalloc_ok m) then parse_err (- ENOMEM)
  else
    let* (offset, (trx_size, hdr)) := image_scan trx_probe in
    if trx_size =? 0 then parse_err (- ENODEV)
    else
      let trx_offset := size_t (offset + cpu_field hdr 16 4) in
      let rootfs_offset := size_t (offset + cpu_field hdr 20 4) in
      let rootfs_size := size_t (mtd_size m - rootfs_offset) in
      let trx_size := size_t (rootfs_offset - trx_offset) in
      if rootfs_size =? 0 then parse_err (- ENODEV)
      else parse_ok [mk_mtd_partition KERNEL_PART_NAME trx_offset trx_size;
                     mk_mtd_partition ROOTFS_PART_NAME rootfs_offset rootfs_size].

(** * mtdsplit_uimage.c *)

Definition IH_MAGIC : Z := 0x27051956.
Definition IH_OS_LINUX : Z := 5.
Definition IH_TYPE_KERNEL : Z := 2.
Definition sizeof_uimage_header : Z := 64.

(** The properties of an [openwrt,uimage] device-tree node; [None] where the
    property is absent. *)
Record uimage_node := mk_uimage_node {
  dt_padding : option Z;
  dt_ih_magic : option Z;
  dt_ih_type : option Z;
  dt_offset : option Z;
  dt_partition_magic : option Z
}.

Record uimage_params := mk_uimage_params {
  extralen : Z;
  ih_magic : Z;
  ih_type : Z;
  header_offset : Z;
  part_magic : Z
}.

(** [None] is a device without such a node. *)
Definition uimage_parse_dt (np : option uimage_node) : uimage_params :=
  match np with
  | None => mk_uimage_params 0 IH_MAGIC IH_TYPE_KERNEL 0 0
  | Some n =>
      mk_uimage_params (from_option i32 0 (dt_padding n)) (from_option u32 IH_MAGIC (dt_ih_magic n))
        (from_option u32 IH_TYPE_KERNEL (dt_ih_type n)) (from_option u32 0 (dt_offset n))
        (from_option u32 0 (dt_partition_magic n))
  end.

Definition uimage_verify_default (buf : list Z) (magic type : Z) : Z :=
  if negb (be_field buf 0 4 =? magic) then - EINVAL
  else if negb (le_field buf 28 1 =? IH_OS_LINUX) then - EINVAL
  else if negb (le_field buf 30 1 =? type) then - EINVAL
  else 0.

Definition uimage_probe (p : uimage_params) (offset : Z) : prog (option (Z * list Z)) :=
  let* r := read_exact offset (size_t (sizeof_uimage_header + header_offset p)) in
  match r with
  | inl _ => ret None
  | inr buf =>
      let tests_part := negb (header_offset p =? 0) && negb (part_magic p =? 0) in
      if tests_part && negb (in_bounds buf 0 4) then fault
      else if tests_part && negb (be_field buf 0 4 =? part_magic p) then ret None
      else if negb (in_bounds buf (header_offset p) sizeof_uimage_header) then fault
      else
        let header := slice buf (header_offset p) sizeof_uimage_header in
        if uimage_verify_default header (ih_magic p) (ih_type p) <? 0 then ret None
        else ret (Some (size_t (sizeof_uimage_header + be_field header 12 4 + header_offset p
                                + extralen p), header))
  end.

(** What the uImage and jImage parsers do with the image they found: an image at
    the start of the device is followed by the root file system, any other has
    it in front (there the test for an empty root file system is never true). *)
Definition split_at_image (offset image_size : Z) : prog parse_result :=
  if offset =? 0 then
    let* r := mtd_find_rootfs_from (size_t (offset + image_size)) (size_t (mtd_size m)) in
    match r with
    | inl e => parse_err e
    | inr (rootfs_offset, t) =>
        let rootfs_size := size_t (mtd_size m - rootfs_offset) in
        if rootfs_size =? 0 then parse_err (- ENODEV)
        else parse_ok [mk_mtd_partition KERNEL_PART_NAME offset (size_t (rootfs_offset - offset));
                       mk_mtd_partition (rootfs_name t) rootfs_offset rootfs_size]
    end
  else
    let* r := mtd_check_rootfs_magic 0 in
    match r with
    | inl e => parse_err e
    | inr t =>
        parse_ok [mk_mtd_partition (rootfs_name t) 0 offset;
                  mk_mtd_partition KERNEL_PART_NAME offset image_size]
    end.

Definition mtdsplit_parse_uimage (np : option uimage_node) : prog parse_result :=
  if negb (kzalloc_ok m) then parse_err (- ENOMEM)
  else
    let p := uimage_parse_dt np in
    if negb (vmalloc_ok m) then parse_err (- ENOMEM)
    else
      let* (offset, (image_size, _)) := image_scan (uimage_probe p) in
      if image_size =? 0 then parse_err (- ENODEV) else split_at_image offset image_size.
End split.
