(* ===== verification/MtdSplitParsers.v ===== *)
(** The remaining firmware parsers of [drivers/mtd/mtdsplit]: one definition per
    parser function. *)

From stdpp Require Import base list numbers strings.
From Stdlib Require Import ZArith Lia.
From S2P Require Import Prelude Platform MtdSplit.
Local Open Scope Z_scope.
Local Open Scope cprog_scope.

Section parsers.
Context `{Arch} {chip : Type} (m : mtd_dev chip).

Abbreviation prog := (M chip).

(** The parsers that look for the root file system from a fixed offset on: the
    kernel is everything in front of it. *)
Definition split_from (from : Z) (kernel : string) (name : mtdsplit_part_type -> string) :
    prog parse_result :=
  let* r := mtd_find_rootfs_from m from (size_t (mtd_size m)) in
  match r with
  | inl e => parse_err e
  | inr (rootfs_offset, t) =>
      alloc_parts m [mk_mtd_partition kernel 0 rootfs_offset;
                     rest_of_device m (name t) rootfs_offset]
  end.

(** * mtdsplit_jimage.c *)

Definition STAG_ID : Z := 0x04.
Definition STAG_MAGIC : Z := 0x2B24.
Definition SCH2_MAGIC : Z := 0x2124.
Definition SCH2_VER : Z := 0x02.
Definition MAX_HEADER_LEN : Z := 16 + 40.
Definition sizeof_jimage_header : Z := 56.

Definition jimage_verify_default (buf : list Z) : Z :=
  if negb (cpu_field buf 2 2 =? STAG_MAGIC) then - EINVAL
  else if negb (cpu_field buf 16 2 =? SCH2_MAGIC) then - EINVAL
  else if negb (le_field buf 0 1 =? le_field buf 1 1) then - EINVAL
  else if negb (le_field buf 1 1 =? STAG_ID) then - EINVAL
  else if negb (le_field buf 19 1 =? SCH2_VER) then - EINVAL
  else 0.

(** [find_header] gives the offset of the header in the buffer, or an error. *)
Definition jimage_probe (find_header : list Z -> Z) (offset : Z) : prog (option (Z * list Z)) :=
  let* r := read_exact m offset MAX_HEADER_LEN in
  match r with
  | inl _ => ret None
  | inr buf =>
      let o := i32 (find_header buf) in
      if o <? 0 then ret None
      else if negb (in_bounds buf (o + 24) 4) then fault
      else ret (Some (size_t (sizeof_jimage_header + cpu_field buf (o + 24) 4 + o),
                      drop (Z.to_nat o) buf))
  end.

Definition mtdsplit_parse_jimage (find_header : list Z -> Z) : prog parse_result :=
  if negb (kzalloc_ok m) then parse_err (- ENOMEM)
  else if negb (vmalloc_ok m) then parse_err (- ENOMEM)
  else
    let* (offset, (image_size, _)) := image_scan m (jimage_probe find_header) in
    if image_size =? 0 then parse_err (- ENODEV) else split_at_image m offset image_size.

Definition mtdsplit_jimage_parse_generic : prog parse_result :=
  mtdsplit_parse_jimage jimage_verify_default.

(** * mtdsplit_tplink.c *)

Definition sizeof_tplink_fw_header : Z := 512.
Definition TPLINK_MIN_ROOTFS_OFFS : Z := 0x80000.

(** Where [kernel_ofs] is in the header; [kernel_len] and [rootfs_ofs] follow. *)
Definition tplink_kernel_ofs (version : Z) : option Z :=
  if version =? 1 then Some 128
  else if (version =? 2) || (version =? 3) then Some 116
  else None.

Definition mtdsplit_parse_tplink : prog parse_result :=
  let* r := read_exact m 0 sizeof_tplink_fw_header in
  match r with
  | inl e => parse_err e
  | inr hdr =>
      match tplink_kernel_ofs (le_field hdr 0 4) with
      | None => parse_err (- EINVAL)
      | Some f =>
          if negb (be_field hdr f 4 =? sizeof_tplink_fw_header) then parse_err (- EINVAL)
          else
            let kernel_size := size_t (sizeof_tplink_fw_header + be_field hdr (f + 4) 4) in
            let rootfs_offset := be_field hdr (f + 8) 4 in
            if mtd_size m <? kernel_size then parse_err (- EINVAL)
            else
              let parts o := [mk_mtd_partition KERNEL_PART_NAME 0 kernel_size;
                              rest_of_device m ROOTFS_PART_NAME o] in
              let* c := mtd_check_rootfs_magic m rootfs_offset in
              match c with
              | inr _ => alloc_parts m (parts rootfs_offset)
              | inl _ =>
                  let* s := mtd_find_rootfs_from m TPLINK_MIN_ROOTFS_OFFS (size_t (mtd_size m)) in
                  match s with
                  | inl e => parse_err e
                  | inr (o, _) => alloc_parts m (parts o)
                  end
              end
      end
  end.

(** * mtdsplit_seama.c *)

Definition SEAMA_MAGIC : Z := 0x5EA3A417.
Definition SEAMA_MIN_ROOTFS_OFFS : Z := 0x80000.
Definition sizeof_seama_header : Z := 28.

Definition mtdsplit_parse_seama : prog parse_result :=
  let* r := read_exact m 0 sizeof_seama_header in
  match r with
  | inl e => parse_err e
  | inr hdr =>
      if negb (be_field hdr 0 4 =? SEAMA_MAGIC) then parse_err (- EINVAL)
      else
        let metasize := be_field hdr 6 2 in
        let kernel_ent_size := size_t (sizeof_seama_header + be_field hdr 8 4 + metasize) in
        if mtd_size m <? kernel_ent_size then parse_err (- EINVAL)
        else
          let offset := sizeof_seama_header + metasize in
          let parts o t := [mk_mtd_partition KERNEL_PART_NAME offset (u64 (o - offset));
                            rest_of_device m (rootfs_name t) o] in
          let* c := mtd_check_rootfs_magic m kernel_ent_size in
          match c with
          | inr t => alloc_parts m (parts kernel_ent_size t)
          | inl _ =>
              let* s := mtd_find_rootfs_from m SEAMA_MIN_ROOTFS_OFFS (size_t (mtd_size m)) in
              match s with
              | inl e => parse_err e
              | inr (o, t) => alloc_parts m (parts o t)
              end
          end
  end.

(** * mtdsplit_lzma.c *)

Definition sizeof_lzma_header : Z := 13.

(** [is_power_of_2] of the kernel. *)
Definition power_of_2 (n : Z) : bool := negb (n =? 0) && (Z.land n (n - 1) =? 0).

Definition mtdsplit_parse_lzma : prog parse_result :=
  let* r := read_exact m 0 sizeof_lzma_header in
  match r with
  | inl e => parse_err e
  | inr hdr =>
      if 9 * 5 * 5 <=? le_field hdr 0 1 then parse_err (- EINVAL)
      else if negb (power_of_2 (le_field hdr 1 4)) then parse_err (- EINVAL)
      else if negb (le_field hdr 9 4 =? 0) then parse_err (- EINVAL)
      else split_from (mtd_erasesize m) KERNEL_PART_NAME (fun _ => ROOTFS_PART_NAME)
  end.

(** * mtdsplit_minor.c *)

Definition YAFFS_OBJECT_TYPE_FILE : Z := 0x1.
Definition YAFFS_OBJECTID_ROOT : Z := 0x1.
Definition YAFFS_SUM_UNUSED : Z := 0xFFFF.
(** The string [kernel] with its terminating zero. *)
Definition YAFFS_NAME : list Z := [107; 101; 114; 110; 101; 108; 0].
Definition sizeof_minor_header : Z := 20.

Definition mtdsplit_parse_minor : prog parse_result :=
  let* r := read_exact m 0 sizeof_minor_header in
  match r with
  | inl e => parse_err e
  | inr hdr =>
      if negb (cpu_field hdr 0 4 =? YAFFS_OBJECT_TYPE_FILE) then parse_err (- EINVAL)
      else if negb (cpu_field hdr 4 4 =? YAFFS_OBJECTID_ROOT) then parse_err (- EINVAL)
      else if negb (cpu_field hdr 8 2 =? YAFFS_SUM_UNUSED) then parse_err (- EINVAL)
      else if negb (bool_decide (slice hdr 10 7 = YAFFS_NAME)) then parse_err (- EINVAL)
      else split_from (mtd_erasesize m) KERNEL_PART_NAME (fun _ => ROOTFS_PART_NAME)
  end.

(** * mtdsplit_wrgg.c *)

Definition WRGG_MIN_ROOTFS_OFFS : Z := 0x80000.
Definition WRGG03_MAGIC : Z := 0x20080321.
Definition WRG_MAGIC : Z := 0x20040220.
Definition sizeof_wrgg03_header : Z := 160.
Definition sizeof_wrg_header : Z := 96.

(** The size of the kernel entity; [None] is [-EINVAL]. *)
Definition wrgg_kernel_size (hdr : list Z) : option Z :=
  if le_field hdr 32 4 =? WRGG03_MAGIC then
    let be := size_t (sizeof_wrgg03_header + be_field hdr 104 4) in
    let sz := if mtd_size m <? be then size_t (sizeof_wrgg03_header + le_field hdr 104 4) else be in
    if mtd_size m <? sz then None else Some sz
  else if le_field hdr 32 4 =? WRG_MAGIC then
    Some (size_t (sizeof_wrg_header + le_field hdr 40 4))
  else None.

Definition mtdsplit_parse_wrgg : prog parse_result :=
  let* r := read_exact m 0 sizeof_wrgg03_header in
  match r with
  | inl e => parse_err e
  | inr hdr =>
      match wrgg_kernel_size hdr with
      | None => parse_err (- EINVAL)
      | Some sz =>
          if mtd_size m <? sz then parse_err (- EINVAL)
          else split_from WRGG_MIN_ROOTFS_OFFS KERNEL_PART_NAME (fun _ => ROOTFS_PART_NAME)
      end
  end.

(** * mtdsplit_eva.c *)

Definition EVA_MAGIC : Z := 0xfeed1281.
Definition EVA_FOOTER_SIZE : Z := 0x18.
Definition EVA_DUMMY_SQUASHFS_SIZE : Z := 0x100.

(** [round_up] of the kernel on [unsigned long]. *)
Definition round_up (x y : Z) : Z := size_t (Z.lor (size_t (x - 1)) (y - 1) + 1).

Definition mtdsplit_parse_eva : prog parse_result :=
  let* r := read_exact m 0 8 in
  match r with
  | inl e => parse_err e
  | inr hdr =>
      if negb (le_field hdr 0 4 =? EVA_MAGIC) then parse_err (- EINVAL)
      else
        let kernel_size := u32 (le_field hdr 4 4 + EVA_FOOTER_SIZE) in
        let rootfs_offset := size_t (round_up kernel_size 0x10000 + EVA_DUMMY_SQUASHFS_SIZE) in
        if mtd_size m <=? rootfs_offset then parse_err (- EINVAL)
        else
          let* c := mtd_check_rootfs_magic m rootfs_offset in
          match c with
          | inl e => parse_err e
          | inr _ =>
              alloc_parts m [mk_mtd_partition KERNEL_PART_NAME 0 kernel_size;
                             rest_of_device m ROOTFS_PART_NAME rootfs_offset]
          end
  end.

(** * mtdsplit_brnimage.c *)

Definition BRNIMAGE_ALIGN_BYTES : Z := 0x400.
Definition BRNIMAGE_FOOTER_SIZE : Z := 12.
Definition BRNIMAGE_MIN_OVERHEAD : Z := BRNIMAGE_FOOTER_SIZE.
Definition BRNIMAGE_MAX_OVERHEAD : Z := BRNIMAGE_ALIGN_BYTES + BRNIMAGE_FOOTER_SIZE.

(** The search of the root file system: the final offset and [ret]. *)
Definition brnimage_search : prog (Z * Z) :=
  loop (Z.to_nat (mtd_size m / BRNIMAGE_ALIGN_BYTES + 3)) (fun '(rootfs_offset, r) =>
    if rootfs_offset <? mtd_size m then
      let* c := mtd_check_rootfs_magic m rootfs_offset in
      match c with
      | inr _ => ret (inr (rootfs_offset, 0))
      | inl e => ret (inl (size_t (rootfs_offset + BRNIMAGE_ALIGN_BYTES), e))
      end
    else ret (inr (rootfs_offset, r))) (0, 0).

Definition mtdsplit_parse_brnimage : prog parse_result :=
  let* (rootfs_offset, r) := brnimage_search in
  if negb (r =? 0) then parse_err r
  else if mtd_size m <=? rootfs_offset then parse_err (- EINVAL)
  else
    let* f := read_exact m (size_t (rootfs_offset - BRNIMAGE_FOOTER_SIZE)) 4 in
    match f with
    | inl e => parse_err e
    | inr buf =>
        let kernel_size := le_field buf 0 4 in
        if size_t (rootfs_offset - BRNIMAGE_MIN_OVERHEAD) <? kernel_size then parse_err (- EINVAL)
        else if kernel_size <? size_t (rootfs_offset - BRNIMAGE_MAX_OVERHEAD)
        then parse_err (- EINVAL)
        else
          alloc_parts m [mk_mtd_partition KERNEL_PART_NAME 0 kernel_size;
            mk_mtd_partition ROOTFS_PART_NAME rootfs_offset
              (size_t (mtd_size m - rootfs_offset - BRNIMAGE_FOOTER_SIZE))]
    end.

(** * mtdsplit_fit.c *)

Definition OF_DT_HEADER : Z := 0xd00dfeed.
Definition sizeof_fdt_header : Z := 40.

(** The search of the FIT image.  It leaves with an error code, or with the
    offset and the header last read; [None] is a header that was never read. *)
Definition fit_search : prog (Z + Z * option (list Z)) :=
  loop (eb_fuel m (mtd_size m)) (fun '(offset, hdr) =>
    if size_t (offset + sizeof_fdt_header) <=? mtd_size m then
      let* r := read_exact m offset sizeof_fdt_header in
      match r with
      | inl e => ret (inr (inl e))
      | inr h =>
          if negb (be_field h 0 4 =? OF_DT_HEADER)
          then ret (inl (size_t (offset + mtd_erasesize m), Some h))
          else ret (inr (inr (offset, Some h)))
      end
    else ret (inr (inr (offset, hdr)))) (0, None).

Definition mtdsplit_fit_parse : prog parse_result :=
  let* r := fit_search in
  match r with
  | inl e => parse_err e
  | inr (_, None) => fault
  | inr (fit_offset, Some hdr) =>
      let fit_size := be_field hdr 4 4 in
      if fit_size =? 0 then parse_err (- ENODEV)
      else
        let* s := mtd_find_rootfs_from m (size_t (fit_offset + fit_size)) (size_t (mtd_size m)) in
        match s with
        | inl e => parse_err e
        | inr (rootfs_offset, _) =>
            alloc_parts m [mk_mtd_partition KERNEL_PART_NAME fit_offset
                (u64 (mtd_rounddown_to_eb fit_size (mtd_erasesize m) + mtd_erasesize m));
              mk_mtd_partition ROOTFS_PART_NAME rootfs_offset
                (size_t (mtd_size m - rootfs_offset))]
        end
  end.

(** * mtdsplit_elf.c *)

Definition ELF_MAGIC : Z := 0x7f454c46.
Definition ELF_CLASS_32 : Z := 1.
Definition ELF_CLASS_64 : Z := 2.
Definition sizeof_elf_header : Z := 64.

(** A walk over the program headers reads inside the device, or stops. *)
Definition ph_fuel (phentsize : Z) : nat := Z.to_nat (mtd_size m / Z.max 1 phentsize + 3).

(** The loop over the program headers: [section_end] is taken from a header of
    [len] bytes. *)
Definition elf_ph_walk (len phentsize ph_entry ph_table_end : Z) (section_end : list Z -> Z) :
    prog (Z + Z) :=
  loop (ph_fuel phentsize) (fun '(e, size) =>
    if e <? ph_table_end then
      let* r := read_exact m e len in
      match r with
      | inl err => ret (inr (inl err))
      | inr ph =>
          ret (inl (size_t (e + phentsize),
                    if size <? section_end ph then section_end ph else size))
      end
    else ret (inr (inr size))) (ph_entry, 0).

Definition elf32_determine_size (hdr : list Z) : prog (Z + Z) :=
  let f off len := cpu_field hdr (16 + off) len in
  let phoff := f 12 4 in
  let shoff := f 16 4 in
  if 0 <? shoff then ret (inr (u32 (shoff + i32 (f 30 2 * f 32 2))))
  else elf_ph_walk 28 (f 26 2) phoff (u32 (phoff + i32 (f 26 2 * f 28 2)))
         (fun ph => u32 (cpu_field ph 4 4 + cpu_field ph 16 4)).

Definition elf64_determine_size (hdr : list Z) : prog (Z + Z) :=
  let f off len := cpu_field hdr (16 + off) len in
  let phoff := f 16 8 in
  let shoff := f 24 8 in
  if 0 <? shoff then ret (inr (size_t (u64 (shoff + i32 (f 42 2 * f 44 2)))))
  else elf_ph_walk 48 (f 38 2) (size_t phoff) (size_t (u64 (phoff + i32 (f 38 2 * f 40 2))))
         (fun ph => size_t (u64 (cpu_field ph 8 8 + cpu_field ph 32 8))).

Definition mtdsplit_parse_elf : prog parse_result :=
  let* r := read_exact m 0 sizeof_elf_header in
  match r with
  | inl e => parse_err e
  | inr hdr =>
      if negb (be_field hdr 0 4 =? ELF_MAGIC) then parse_err (- EINVAL)
      else
        let* d := (if le_field hdr 4 1 =? ELF_CLASS_32 then elf32_determine_size hdr
                   else if le_field hdr 4 1 =? ELF_CLASS_64 then elf64_determine_size hdr
                   else ret (inl (- EINVAL))) in
        match d with
        | inl e => parse_err e
        | inr loader_size =>
            let* s := mtd_find_rootfs_from m loader_size (size_t (mtd_size m)) in
            match s with
            | inl e => parse_err e
            | inr (rootfs_offset, t) =>
                if rootfs_offset =? mtd_size m then parse_err (- ENODEV)
                else alloc_parts m [mk_mtd_partition KERNEL_PART_NAME 0 rootfs_offset;
                                    rest_of_device m (rootfs_name t) rootfs_offset]
            end
        end
  end.

(** * mtdsplit_cfe_bootfs.c *)

Definition sizeof_jffs2_raw_dirent : Z := 40.

(** The walk over the nodes of the boot file system.  Its number of rounds is a
    parameter: a node of length 0 keeps the loop where it is. *)
Definition bootfs_end (fuel : nat) : prog Z :=
  loop fuel (fun offset =>
    let* r := read_exact m offset sizeof_jffs2_raw_dirent in
    match r with
    | inl _ => ret (inr offset)
    | inr node =>
        if negb (cpu_field node 0 2 =? JFFS2_MAGIC_BITMASK) then ret (inr offset)
        else
          let next := size_t (Z.land (size_t (size_t (offset + cpu_field node 4 4) + 3))
                                (size_t (-4))) in
          if next <? mtd_size m then ret (inl next) else ret (inr next)
    end) 0.

Definition mtdsplit_cfe_bootfs_parse (fuel : nat) : prog parse_result :=
  if negb (bool_decide (mtd_name m = "firmware"%string)) then parse_err (- EINVAL)
  else
    let* _ := bootfs_end fuel in
    split_from (mtd_erasesize m) "bootfs" rootfs_name.
End parsers.
