(* ===== verification/MtdSplitSpec.v ===== *)
(** The contract of the MTD layer towards the firmware parsers, and what the
    search for a root file system and the scan for an image guarantee under it. *)

From stdpp Require Import base list numbers strings.
From Stdlib Require Import ZArith Lia.
From S2P Require Import Prelude Platform MtdSplit MtdSplitParsers.
Local Open Scope Z_scope.
Local Open Scope cprog_scope.

(** A device the parsers can be used on: reads that deliver everything that was
    asked for are inside the device, and its offsets fit 32 bits. *)
Class mtd_laws {chip} (m : mtd_dev chip) := {
  ml_size : 0 <= mtd_size m;
  ml_eb : 0 < mtd_erasesize m;
  ml_bound : mtd_size m + mtd_erasesize m <= 2 ^ 32;
  ml_code off len c r bytes c' : mtd_read m off len c = ((r, bytes), c') -> r <= 0;
  ml_read off len c bytes c' :
    mtd_read m off len c = ((0, bytes), c') -> 0 < len -> Z.of_nat (length bytes) = len ->
    Forall is_byte bytes /\ 0 <= off /\ off + len <= mtd_size m
}.

(** A device without errors whose contents are [data]: [mtd_read] delivers the
    bytes inside it and refuses everything else. *)
Class mtd_image {chip} (m : mtd_dev chip) (data : list Z) := {
  mi_bytes : Forall is_byte data;
  mi_length : Z.of_nat (length data) = mtd_size m;
  mi_eb : 0 < mtd_erasesize m;
  mi_bound : mtd_size m + mtd_erasesize m <= 2 ^ 32;
  mi_in off len c : 0 <= off -> 0 < len -> off + len <= mtd_size m ->
    mtd_read m off len c = ((0, slice data off len), c);
  mi_none off len c : len <= 0 -> mtd_read m off len c = ((0, []), c);
  mi_out off len c : 0 < len -> off < 0 \/ mtd_size m < off + len ->
    mtd_read m off len c = ((- EINVAL, []), c)
}.

#[export] Instance mtd_image_laws {chip} (m : mtd_dev chip) data :
  mtd_image m data -> mtd_laws m.
Proof.
  intros [Hb H1 H2 H3 H4 H6 H5]. split; [lia|done..| |].
  { intros off len c r bytes c' E. destruct (decide (0 < len)); [|rewrite H6 in E by lia; by injection E as <-].
    destruct (decide (off < 0 \/ mtd_size m < off + len)) as [Ho|].
    - rewrite H5 in E by done. by injection E as <-.
    - rewrite H4 in E by lia. by injection E as <-. }
  intros off len c bytes c' E Hlen _.
  destruct (decide (off < 0 \/ mtd_size m < off + len)) as [Ho|].
  { rewrite (H5 _ _ _ Hlen Ho) in E. discriminate. }
  rewrite H4 in E by lia. injection E as <- <-. split; [by apply slice_bytes|lia].
Qed.

Lemma loff_t_small z : 0 <= z < 2 ^ 63 -> loff_t z = z.
Proof.
  intros. unfold loff_t. rewrite u64_small by lia. destruct (Z.ltb_spec z (2 ^ 63)); lia.
Qed.

(** The boundaries of erase blocks. *)
Lemma rounddown_eq sz eb :
  0 < eb -> 0 <= sz < 2 ^ 32 -> mtd_rounddown_to_eb sz eb = sz / eb * eb.
Proof.
  intros Heb Hsz. unfold mtd_rounddown_to_eb.
  pose proof (Z.div_mod sz eb ltac:(lia)). pose proof (Z.mod_pos_bound sz eb Heb).
  assert (0 <= sz / eb) by (apply Z.div_pos; lia).
  assert (0 <= sz / eb * eb <= sz) by (split; nia).
  destruct (Z.eqb_spec (sz mod eb) 0); [nia|].
  rewrite (u32_small (sz / eb)) by (split; [lia|nia]). rewrite u32_small; lia.
Qed.

Lemma roundup_eq sz eb :
  0 < eb -> 0 <= sz -> sz + eb <= 2 ^ 32 ->
  exists k, mtd_roundup_to_eb sz eb = k * eb /\ sz <= k * eb < sz + eb.
Proof.
  intros Heb Hsz Hb. unfold mtd_roundup_to_eb.
  pose proof (Z.div_mod sz eb ltac:(lia)). pose proof (Z.mod_pos_bound sz eb Heb).
  assert (0 <= sz / eb) by (apply Z.div_pos; lia).
  destruct (Z.eqb_spec (sz mod eb) 0).
  - exists (sz / eb). split; [nia|]. split; nia.
  - exists (sz / eb + 1). rewrite (u32_small (sz / eb)) by (split; [lia|nia]).
    assert (sz / eb + 1 <= 2 ^ 32 - 1 \/ eb = 1) as [|E] by nia; [|nia].
    rewrite (u32_small (sz / eb + 1)) by lia.
    assert (sz < (sz / eb + 1) * eb < sz + eb) by nia. rewrite u32_small by lia. lia.
Qed.

(** The next boundary: strictly later, with none in between. *)
Definition boundary (eb o : Z) : Prop := o mod eb = 0.

Lemma boundary_gap eb k o : 0 < eb -> k * eb < o -> o < (k + 1) * eb -> ~ boundary eb o.
Proof.
  intros Heb H1 H2 H3. unfold boundary in H3.
  apply Z.div_exact in H3; [|lia]. set (q := o / eb) in H3. clearbody q.
  assert (k < q) by nia. assert (q < k + 1) by nia. lia.
Qed.

Lemma boundary_add eb o : 0 < eb -> boundary eb o -> boundary eb (o + eb).
Proof.
  unfold boundary. intros Heb Ho. rewrite <- (Z.mul_1_l eb) at 1. by rewrite Z.mod_add by lia.
Qed.

(** Different boundaries are a block apart. *)
Lemma boundary_lt eb a b : 0 < eb -> boundary eb a -> boundary eb b -> a < b -> a + eb <= b.
Proof.
  unfold boundary. intros Heb Ha Hb Hlt. apply Z.div_exact in Ha, Hb; [|lia..].
  rewrite Ha, Hb in Hlt |- *. set (p := a / eb) in *. set (q := b / eb) in *. clearbody p q.
  assert (p < q) by nia. nia.
Qed.

(** Rounds of a loop that goes on by whole blocks. *)
Lemma rounds_step eb n o :
  0 < eb -> o < n -> (Z.to_nat ((n + eb - (o + eb)) / eb) < Z.to_nat ((n + eb - o) / eb))%nat.
Proof.
  intros. replace (n + eb - o) with (n + eb - (o + eb) + 1 * eb) by lia. rewrite Z.div_add by lia.
  assert (0 <= (n + eb - (o + eb)) / eb) by (apply Z.div_pos; lia). lia.
Qed.

Section spec.
Context `{A : Arch} `{!ArchLaws A} {chip : Type} (m : mtd_dev chip).

(** [o] is an offset a search from [from] on visits. *)
Definition visited (from o : Z) : Prop := o = from \/ (from < o /\ boundary (mtd_erasesize m) o).

(** What a complete read is. *)
Lemma wp_read_exact_raw off len (Q : Z + list Z -> chip -> Prop) c :
  (forall e s, Q (inl e) s) ->
  (forall b s, mtd_read m (loff_t off) len c = ((0, b), s) -> Z.of_nat (length b) = len -> Q (inr b) s) ->
  wp (read_exact m off len) Q c.
Proof.
  intros He Hb. unfold wp, read_exact, call_mtd_read, bind.
  destruct (mtd_read m (loff_t off) len c) as [[r b] c'].
  destruct (Z.eqb_spec r 0) as [->|]; cbn; [|apply He].
  destruct (Z.eqb_spec (Z.of_nat (length b)) len); cbn; [by apply Hb|apply He].
Qed.

Section laws.
Context `{!mtd_laws m}.

Lemma wp_read_exact off len c :
  0 < len ->
  wp (read_exact m off len) (fun r _ => match r with
    | inl e => e < 0
    | inr b => Z.of_nat (length b) = len /\ Forall is_byte b /\ 0 <= loff_t off /\ loff_t off + len <= mtd_size m
    end) c.
Proof using mtd_laws0.
  intros Hlen. unfold wp, read_exact, call_mtd_read, bind.
  destruct (mtd_read m (loff_t off) len c) as [[r b] c'] eqn:E.
  destruct (Z.eqb_spec r 0) as [->|]; cbn; [|pose proof (ml_code _ _ _ _ _ _ E); lia].
  destruct (Z.eqb_spec (Z.of_nat (length b)) len) as [El|]; cbn; [|done].
  split; [done|]. by eapply ml_read.
Qed.

Lemma next_eb_spec off :
  0 <= off < mtd_size m ->
  exists k, mtd_next_eb m off = (k + 1) * mtd_erasesize m /\
    k * mtd_erasesize m <= off < (k + 1) * mtd_erasesize m /\ k = off / mtd_erasesize m.
Proof using ArchLaws0 mtd_laws0.
  intros Hoff. pose proof (ml_eb (m := m)). pose proof (ml_bound (m := m)).
  exists (off / mtd_erasesize m). unfold mtd_next_eb. rewrite rounddown_eq by lia.
  pose proof (Z.div_mod off (mtd_erasesize m) ltac:(lia)).
  pose proof (Z.mod_pos_bound off (mtd_erasesize m) ltac:(lia)).
  assert (0 <= off / mtd_erasesize m) by (apply Z.div_pos; lia).
  split; [|split; [|done]].
  - destruct (decide (off / mtd_erasesize m * mtd_erasesize m + mtd_erasesize m = 2 ^ 32)).
    + exfalso. nia.
    + rewrite u64_small, size_t_small by nia. lia.
  - nia.
Qed.

(** The rounds that are left of a search at [o], and how a round reduces them. *)
Definition rounds_left (limit o : Z) : nat :=
  Z.to_nat (if o <? limit then limit / mtd_erasesize m - o / mtd_erasesize m + 1 else 0).

Lemma rounds_left_step limit o :
  0 <= o < limit -> (rounds_left limit ((o / mtd_erasesize m + 1) * mtd_erasesize m) < rounds_left limit o)%nat.
Proof using mtd_laws0.
  intros Ho. pose proof (ml_eb (m := m)). unfold rounds_left.
  destruct (Z.ltb_spec o limit); [|lia].
  assert (o / mtd_erasesize m <= limit / mtd_erasesize m) by (apply Z.div_le_mono; lia).
  destruct (Z.ltb_spec ((o / mtd_erasesize m + 1) * mtd_erasesize m) limit); [|lia].
  rewrite Z.div_mul by lia.
  assert (o / mtd_erasesize m + 1 <= limit / mtd_erasesize m) by (apply Z.div_le_lower_bound; lia). lia.
Qed.

Lemma rounds_left_fuel limit o : 0 <= o -> 0 <= limit -> (rounds_left limit o < eb_fuel m limit)%nat.
Proof using mtd_laws0.
  intros. pose proof (ml_eb (m := m)). unfold rounds_left, eb_fuel.
  assert (0 <= limit / mtd_erasesize m) by (apply Z.div_pos; lia).
  assert (0 <= o / mtd_erasesize m) by (apply Z.div_pos; lia). destruct (o <? limit); lia.
Qed.

(** What a search for the root file system returns, on any device: an offset it
    visits, inside the device and below the limit. *)
Lemma wp_check_magic off c :
  wp (mtd_check_rootfs_magic m off) (fun r _ => match r with
    | inl e => e < 0
    | inr _ => 0 <= loff_t off /\ loff_t off + 4 <= mtd_size m
    end) c.
Proof using mtd_laws0.
  unfold mtd_check_rootfs_magic. apply wp_bind. wp_call wp_read_exact; [lia|].
  intros [e|b] s Hr; [by apply wp_ret|]. destruct (rootfs_magic b); apply wp_ret; [apply Hr|done].
Qed.

Lemma wp_find_rootfs from limit c :
  0 <= from -> 0 <= limit <= mtd_size m ->
  wp (mtd_find_rootfs_from m from limit) (fun r _ => match r with
    | inl e => e = - ENODEV
    | inr (o, _) => visited from o /\ from <= o < limit /\ o + 4 <= mtd_size m
    end) c.
Proof using ArchLaws0 mtd_laws0.
  intros Hfrom Hlim. pose proof (ml_eb (m := m)) as Heb. pose proof (ml_bound (m := m)).
  unfold mtd_find_rootfs_from.
  apply (wp_loop (fun o (_ : chip) => from <= o /\ visited from o)
    (fun o _ => rounds_left limit o)).
  - intros o s (Ho & Hv). destruct (Z.ltb_spec o limit); [|by apply wp_ret].
    apply wp_bind. wp_call wp_check_magic. intros [e|t] s' Hr; apply wp_ret.
    + destruct (next_eb_spec o ltac:(lia)) as (k & -> & Hk & ->). split; [split; [lia|]|].
      * right. split; [lia|]. unfold boundary. apply Z.mod_mul. lia.
      * apply rounds_left_step. lia.
    + rewrite loff_t_small in Hr by lia. split; [done|]. lia.
  - split; [lia|by left].
  - apply rounds_left_fuel; lia.
Qed.

(** The limit the parsers pass is the size of the device. *)
Lemma size_t_size : size_t (mtd_size m) = mtd_size m.
Proof using ArchLaws0 mtd_laws0.
  pose proof (ml_size (m := m)). pose proof (ml_bound (m := m)). pose proof (ml_eb (m := m)).
  apply size_t_small. lia.
Qed.

(** The scan for an image: it leaves at a block inside the device with a header
    that [probe] accepted and whose image fits, or behind the last block with
    what the last round left. *)
Lemma wp_image_scan (probe : Z -> M chip (option (Z * list Z))) (P : Z -> Z * list Z -> Prop) c :
  (forall off s, 0 <= off < mtd_size m ->
    wp (probe off) (fun r _ => match r with None => True | Some h => P off h end) s) ->
  wp (image_scan m probe) (fun '(o, (sz, hdr)) _ =>
    boundary (mtd_erasesize m) o /\ 0 <= o < 2 ^ 32 /\
    (sz = 0 \/ (o < mtd_size m /\ P o (sz, hdr) /\ size_t (o + sz) <= mtd_size m) \/
     (mtd_size m <= o /\ P (o - mtd_erasesize m) (sz, hdr) /\
      mtd_size m < size_t (o - mtd_erasesize m + sz)))) c.
Proof using ArchLaws0 mtd_laws0.
  intros Hp. pose proof (ml_eb (m := m)) as Heb. pose proof (ml_bound (m := m)).
  pose proof (ml_size (m := m)). unfold image_scan.
  apply (wp_loop (fun '(o, (sz, hdr)) (_ : chip) =>
      boundary (mtd_erasesize m) o /\ 0 <= o < mtd_size m + mtd_erasesize m /\ o < 2 ^ 32 /\
      (sz = 0 \/ (mtd_erasesize m <= o /\ P (o - mtd_erasesize m) (sz, hdr) /\
                  mtd_size m < size_t (o - mtd_erasesize m + sz))))
    (fun '(o, _) _ => Z.to_nat ((mtd_size m + mtd_erasesize m - o) / mtd_erasesize m))).
  - intros [o [sz hdr]] s (Hb & Ho & Ho' & Hsz).
    destruct (Z.ltb_spec o (mtd_size m)) as [Hlt|Hge]; [|apply wp_ret; intuition lia].
    pose proof (boundary_add _ _ Heb Hb) as Hb'.
    pose proof (rounds_step _ _ _ Heb Hlt) as Hm.
    apply wp_bind. eapply wp_mono; [apply Hp; lia|]. intros [[sz' hdr']|] s' Hr.
    + destruct (Z.ltb_spec (mtd_size m) (size_t (o + sz'))); apply wp_ret.
      * rewrite size_t_small by lia. split; [|done]. split_and!; [done|lia..|].
        right. replace (o + mtd_erasesize m - mtd_erasesize m) with o by lia. split_and!; [lia|done..].
      * split_and!; [done|lia..|]. right; left. split_and!; [lia|done..].
    + apply wp_ret. rewrite size_t_small by lia. split; [|done]. split_and!; [done|lia..|]. by left.
  - unfold boundary. rewrite Z.mod_0_l by lia. split_and!; [done|lia..|]. by left.
  - unfold eb_fuel. rewrite Z.sub_0_r.
    replace (mtd_size m + mtd_erasesize m) with (mtd_size m + 1 * mtd_erasesize m) by lia.
    rewrite Z.div_add by lia.
    assert (0 <= mtd_size m / mtd_erasesize m) by (apply Z.div_pos; lia). lia.
Qed.
End laws.

(** * Devices with known contents *)

Section image.
Context (data : list Z) `{!mtd_image m data}.

(** The root file system [mtd_check_rootfs_magic] recognises at an offset. *)
Definition rootfs_at (o : Z) : option mtdsplit_part_type :=
  if o + 4 <=? mtd_size m then rootfs_magic (slice data o 4) else None.

Lemma read_exact_image off len c :
  0 < len -> 0 <= off < 2 ^ 63 ->
  read_exact m off len c =
    Ret (if off + len <=? mtd_size m then inr (slice data off len) else inl (- EINVAL)) c.
Proof using mtd_image0.
  intros Hlen Hoff. unfold read_exact, call_mtd_read, bind. rewrite loff_t_small by lia.
  destruct (Z.leb_spec (off + len) (mtd_size m)).
  - rewrite mi_in by lia. cbn. rewrite length_slice; [|lia|lia|rewrite mi_length; lia].
    by rewrite Z.eqb_refl.
  - by rewrite mi_out by lia.
Qed.

Lemma check_magic_image off c :
  0 <= off < 2 ^ 63 ->
  mtd_check_rootfs_magic m off c =
    Ret (match rootfs_at off with Some t => inr t | None => inl (- EINVAL) end) c.
Proof using mtd_image0.
  intros Hoff. unfold mtd_check_rootfs_magic, bind, rootfs_at. rewrite read_exact_image by lia.
  destruct (off + 4 <=? mtd_size m); [|done]. by destruct (rootfs_magic (slice data off 4)).
Qed.

(** The first root file system a search visits. *)
Definition first_rootfs (from limit : Z) (r : Z + Z * mtdsplit_part_type) : Prop :=
  match r with
  | inr (o, t) => visited from o /\ from <= o < limit /\ rootfs_at o = Some t /\
      forall o', visited from o' -> from <= o' < o -> rootfs_at o' = None
  | inl e => e = - ENODEV /\
      forall o', visited from o' -> from <= o' < limit -> rootfs_at o' = None
  end.

Lemma find_rootfs_image from limit c :
  0 <= from -> 0 <= limit <= mtd_size m ->
  wp (mtd_find_rootfs_from m from limit) (fun r c' => c' = c /\ first_rootfs from limit r) c.
Proof using ArchLaws0 mtd_image0.
  intros Hfrom Hlim. pose proof (mi_eb (m := m)) as Heb. pose proof (mi_bound (m := m)).
  unfold mtd_find_rootfs_from.
  apply (wp_loop (fun o c' => c' = c /\ visited from o /\ from <= o /\
      forall o', visited from o' -> from <= o' < o -> rootfs_at o' = None)
    (fun o _ => rounds_left limit o)).
  - intros o s (-> & Hv & Ho & Hnone). destruct (Z.ltb_spec o limit) as [Hlt|].
    2: { apply wp_ret. split; [done|]. split; [done|]. intros o' ? ?. apply Hnone; [done|lia]. }
    unfold wp, bind. rewrite check_magic_image by lia.
    destruct (rootfs_at o) as [t|] eqn:Er; cbn [ret].
    { split; [done|]. cbn. split_and!; [done|lia|lia|done|done]. }
    destruct (next_eb_spec o ltac:(lia)) as (k & -> & Hk & ->). split; [split_and!; [done| |lia|]|].
    + right. split; [lia|]. unfold boundary. apply Z.mod_mul. lia.
    + intros o' Hv' Ho'. destruct (Z.lt_trichotomy o' o) as [|[->|]]; [apply Hnone; [done|lia]|done|].
      destruct Hv' as [->|[_ Hb']]; [lia|].
      exfalso. eapply (boundary_gap _ (o / mtd_erasesize m) o'); [exact Heb|lia|lia|done].
    + apply rounds_left_step. lia.
  - split_and!; [done|by left|lia|]. intros. lia.
  - apply rounds_left_fuel; lia.
Qed.
End image.
End spec.
