(* ===== verification/MtdSplitTheorems.v ===== *)
(** What the firmware parsers guarantee of the partitions they report. *)

From stdpp Require Import base list numbers strings.
From Stdlib Require Import ZArith Lia.
From S2P Require Import Prelude Platform Bytes MtdSplit MtdSplitParsers MtdSplitSpec.
Local Open Scope Z_scope.
Local Open Scope cprog_scope.

Section theorems.
Context `{A : Arch} `{!ArchLaws A} {chip : Type} (m : mtd_dev chip).

(** A parser reports an error and stores nothing, or it returns the number of the
    partitions it stores. *)
Definition parsed (Q : list mtd_partition -> Prop) (r : parse_result) : Prop :=
  (r.1 < 0 /\ r.2 = None) \/ exists parts, r = (Z.of_nat (length parts), Some parts) /\ Q parts.

(** The kernel in front and the root file system behind it fill the device. *)
Definition front_kernel (parts : list mtd_partition) : Prop :=
  exists k o n, parts = [mk_mtd_partition k 0 o; mk_mtd_partition n o (mtd_size m - o)] /\
    0 <= o < mtd_size m.

Lemma wp_parse_err Q e (c : chip) : e < 0 -> wp (parse_err e) (fun r _ => parsed Q r) c.
Proof. intros. apply wp_ret. by left. Qed.

Lemma wp_alloc_parts (Q : _ -> Prop) parts c :
  Q parts -> wp (alloc_parts m parts) (fun r _ => parsed Q r) c.
Proof.
  intros HQ. unfold alloc_parts. destruct (kzalloc_ok m); apply wp_ret; [|by left].
  right. by exists parts.
Qed.

(** [parse_test] follows a test of the header that ends in an error. *)
Ltac parse_test :=
  match goal with
  | |- wp (if ?b then parse_err _ else _) _ _ =>
      let E := fresh "Ht" in destruct b eqn:E; [by apply wp_parse_err|]
  end.

Section laws.
Context `{!mtd_laws m}.

Lemma rest_eq n o : 0 <= o <= mtd_size m ->
  rest_of_device m n o = mk_mtd_partition n o (mtd_size m - o).
Proof using mtd_laws0.
  intros. pose proof (ml_bound (m := m)). pose proof (ml_eb (m := m)).
  unfold rest_of_device. by rewrite u64_small by lia.
Qed.

Lemma wp_split_from from k name c :
  0 <= from -> wp (split_from m from k name) (fun r _ => parsed front_kernel r) c.
Proof using ArchLaws0 mtd_laws0.
  intros Hfrom. unfold split_from. rewrite (size_t_size m). pose proof (ml_size (m := m)).
  apply wp_bind. wp_call (wp_find_rootfs m); [done|lia|].
  intros [e|[o t]] s Hr; [by apply wp_parse_err; subst|]. destruct Hr as (_ & Ho & _).
  apply wp_alloc_parts. exists k, o, (name t). rewrite rest_eq by lia. split; [done|lia].
Qed.

(** The walk over the program headers stays inside the device or stops. *)
Lemma wp_elf_ph_walk len p e end_ f c :
  0 < len -> 0 <= p < 2 ^ 16 -> (p = 0 -> end_ <= e) -> 0 <= e < 2 ^ 64 ->
  mtd_size m + 2 ^ 16 <= 2 ^ 32 -> (forall b, 0 <= f b) ->
  wp (elf_ph_walk m len p e end_ f) (fun r _ => match r with inl e => e < 0 | inr n => 0 <= n end) c.
Proof using ArchLaws0 mtd_laws0.
  intros Hlen Hp Hp0 He Hsize Hf. pose proof (ml_size (m := m)). unfold elf_ph_walk.
  apply (wp_loop (fun '(e, n) (_ : chip) => 0 <= e < 2 ^ 64 /\ 0 <= n /\ (p = 0 -> end_ <= e))
    (fun '(e, _) _ => if e <? end_ then Z.to_nat ((mtd_size m - e) / Z.max 1 p + 2) else O)).
  - intros [a n] s (Ha & Hn & Hz). destruct (Z.ltb_spec a end_) as [Hlt|]; [|by apply wp_ret].
    apply wp_bind. wp_call (wp_read_exact m); [done|]. intros [x|ph] s' Hr; apply wp_ret; [done|].
    destruct Hr as (_ & _ & H0 & H1).
    assert (0 <= a <= mtd_size m).
    { unfold loff_t in *. rewrite u64_small in * by lia.
      destruct (Z.ltb_spec a (2 ^ 63)); lia. }
    rewrite size_t_small by lia. rewrite Z.max_r by lia. split; [split_and!; [lia..| |lia]|].
    + specialize (Hf ph). by destruct (n <? f ph).
    + assert (0 <= (mtd_size m - a) / p) by (apply Z.div_pos; lia).
      replace (mtd_size m - (a + p)) with (mtd_size m - a + (-1) * p) by lia.
      rewrite Z.div_add by lia. destruct (Z.ltb_spec (a + p) end_); lia.
  - split_and!; [lia|lia|lia|done].
  - unfold ph_fuel. assert (0 <= mtd_size m / Z.max 1 p) by (apply Z.div_pos; lia).
    assert ((mtd_size m - e) / Z.max 1 p <= mtd_size m / Z.max 1 p) by (apply Z.div_le_mono; lia).
    destruct (e <? end_); lia.
Qed.

Lemma wp_elf32_determine_size hdr c :
  Forall is_byte hdr -> mtd_size m + 2 ^ 16 <= 2 ^ 32 ->
  wp (elf32_determine_size m hdr) (fun r _ => match r with inl e => e < 0 | inr n => 0 <= n end) c.
Proof using ArchLaws0 mtd_laws0.
  intros Hb Hsize. unfold elf32_determine_size. destruct (0 <? _).
  { apply wp_ret. apply u32_range. }
  pose proof (cpu_field_range hdr (16 + 26) 2 Hb ltac:(lia)) as Hp.
  pose proof (cpu_field_range hdr (16 + 12) 4 Hb ltac:(lia)) as Ho.
  apply wp_elf_ph_walk; [done|lia| |lia|done|intros; apply u32_range].
  intros ->. rewrite Z.mul_0_l. change (i32 0) with 0. rewrite Z.add_0_r, u32_small by lia. done.
Qed.

Lemma wp_elf64_determine_size hdr c :
  Forall is_byte hdr -> mtd_size m + 2 ^ 16 <= 2 ^ 32 -> long_bits <= 64 ->
  wp (elf64_determine_size m hdr) (fun r _ => match r with inl e => e < 0 | inr n => 0 <= n end) c.
Proof using ArchLaws0 mtd_laws0.
  intros Hb Hsize Hbits. unfold elf64_determine_size. destruct (0 <? _).
  { apply wp_ret. apply size_t_range. }
  pose proof (cpu_field_range hdr (16 + 38) 2 Hb ltac:(lia)) as Hp.
  pose proof (cpu_field_range hdr (16 + 16) 8 Hb ltac:(lia)) as Ho.
  apply wp_elf_ph_walk; [done|lia| | |done|intros; apply size_t_range].
  - intros ->. rewrite Z.mul_0_l. change (i32 0) with 0. rewrite Z.add_0_r, u64_small by lia. done.
  - split; [apply size_t_range|]. unfold size_t.
    pose proof (long_bits_32 : 32 <= long_bits).
    assert (0 < 2 ^ long_bits) by (apply Z.pow_pos_nonneg; lia).
    assert (2 ^ long_bits <= 2 ^ 64) by (apply Z.pow_le_mono_r; lia).
    enough (cpu_field hdr (16 + 16) 8 mod 2 ^ long_bits < 2 ^ long_bits) by lia.
    apply Z.mod_pos_bound. lia.
Qed.

(** C31: the parsers that take everything in front of the root file system as the
    kernel (LZMA, MikroTik minor, WRGG, ELF loader) terminate on every device and
    report two partitions that fill the device without a gap or an overlap, or a
    negative code and no partition. *)
Theorem front_kernel_parsers parser c :
  mtd_size m + 2 ^ 16 <= 2 ^ 32 -> long_bits <= 64 ->
  In parser [mtdsplit_parse_lzma m; mtdsplit_parse_minor m; mtdsplit_parse_wrgg m;
             mtdsplit_parse_elf m] ->
  wp parser (fun r _ => parsed front_kernel r) c.
Proof using ArchLaws0 mtd_laws0.
  intros Hsize Hbits Hin. pose proof (ml_eb (m := m)). pose proof (ml_size (m := m)).
  destruct Hin as [<-|[<-|[<-|[<-|[]]]]].
  - unfold mtdsplit_parse_lzma. apply wp_bind. wp_call (wp_read_exact m); [done|].
    intros [e|hdr] s Hr; [by apply wp_parse_err|]. repeat parse_test. apply wp_split_from. lia.
  - unfold mtdsplit_parse_minor. apply wp_bind. wp_call (wp_read_exact m); [done|].
    intros [e|hdr] s Hr; [by apply wp_parse_err|]. repeat parse_test. apply wp_split_from. lia.
  - unfold mtdsplit_parse_wrgg. apply wp_bind. wp_call (wp_read_exact m); [done|].
    intros [e|hdr] s Hr; [by apply wp_parse_err|].
    destruct (wrgg_kernel_size m hdr); [|by apply wp_parse_err]. parse_test.
    by apply wp_split_from.
  - unfold mtdsplit_parse_elf. apply wp_bind. wp_call (wp_read_exact m); [done|].
    intros [e|hdr] s Hr; [by apply wp_parse_err|]. destruct Hr as (_ & Hb & _). parse_test.
    apply wp_bind. apply wp_mono with
      (Q := fun r _ => match r with inl e => e < 0 | inr n => 0 <= n end).
    { destruct (_ =? ELF_CLASS_32); [by apply wp_elf32_determine_size|].
      destruct (_ =? ELF_CLASS_64); [by apply wp_elf64_determine_size|by apply wp_ret]. }
    intros [e|n] s' Hd; [by apply wp_parse_err|]. rewrite (size_t_size m).
    apply wp_bind. wp_call (wp_find_rootfs m); [done|lia|].
    intros [e|[o t]] s2 Hf; [by apply wp_parse_err; subst|]. parse_test. destruct Hf as (_ & Ho & _).
    apply wp_alloc_parts. rewrite rest_eq by lia. eexists _, _, _. split; [done|lia].
Qed.

(** * Images at an erase block boundary *)

(** An image at the start is followed by the root file system.  Any other has the
    root file system in front; the scan leaves it inside the device, or behind its
    end. *)
Definition image_layout (parts : list mtd_partition) : Prop :=
  front_kernel parts \/
  exists n off sz, parts = [mk_mtd_partition n 0 off; mk_mtd_partition KERNEL_PART_NAME off sz] /\
    boundary (mtd_erasesize m) off /\ mtd_erasesize m <= off /\ 0 < sz /\
    (off + sz <= mtd_size m \/ mtd_size m <= off).

Lemma size_t_small64 z : 64 <= long_bits -> 0 <= z < 2 ^ 64 -> size_t z = z.
Proof.
  intros Hb Hz. apply Z.mod_small. assert (2 ^ 64 <= 2 ^ long_bits) by (apply Z.pow_le_mono_r; lia). lia.
Qed.

Lemma wp_split_at_image off sz c :
  0 <= off < 2 ^ 32 -> 0 <= sz -> off + sz <= mtd_size m \/ mtd_size m <= off ->
  boundary (mtd_erasesize m) off -> sz <> 0 ->
  wp (split_at_image m off sz) (fun r _ => parsed image_layout r) c.
Proof using ArchLaws0 mtd_laws0.
  intros Hoff Hsz Hin Hb Hne. pose proof (ml_eb (m := m)). pose proof (ml_size (m := m)).
  pose proof (ml_bound (m := m)). unfold split_at_image.
  destruct (Z.eqb_spec off 0) as [->|Hoff0]; rewrite ?(size_t_size m); apply wp_bind.
  - wp_call (wp_find_rootfs m); [apply size_t_range|lia|].
    intros [e|[o t]] s Hr; [by apply wp_parse_err; subst|]. destruct Hr as (_ & Ho & _).
    pose proof (size_t_range (0 + sz)). rewrite !size_t_small by lia. parse_test. apply wp_ret. right.
    eexists. split; [done|]. left. exists KERNEL_PART_NAME, o, (rootfs_name t).
    rewrite Z.sub_0_r. split; [done|lia].
  - wp_call (wp_check_magic m). intros [e|t] s Hr; [by apply wp_parse_err|]. apply wp_ret. right.
    eexists. split; [done|]. right. exists (rootfs_name t), off, sz. split_and!; [done|done| |lia|done].
    unfold boundary in Hb. apply Z.div_exact in Hb; [|lia].
    assert (0 < off / mtd_erasesize m) by nia. nia.
Qed.

(** A scan with a probe that gives sizes without wrap-around. *)
Lemma wp_image_parser probe c :
  64 <= long_bits ->
  (forall off s, 0 <= off < mtd_size m ->
    wp (probe off) (fun r _ => match r with None => True | Some h => 0 <= h.1 < 2 ^ 40 end) s) ->
  wp (let* (offset, (image_size, _)) := image_scan m probe in
      if image_size =? 0 then parse_err (- ENODEV) else split_at_image m offset image_size)
    (fun r _ => parsed image_layout r) c.
Proof using ArchLaws0 mtd_laws0.
  intros Hbits Hp. pose proof (ml_eb (m := m)). pose proof (ml_bound (m := m)).
  apply wp_bind. wp_call (wp_image_scan m probe (fun _ h => 0 <= h.1 < 2 ^ 40)); [done|].
  intros [o [sz hdr]] s (Hb & Ho & Hcase). cbn [fst] in Hcase.
  destruct (Z.eqb_spec sz 0); [by apply wp_parse_err|].
  destruct Hcase as [|[(Hlt & Hsz & Hfit)|(Hge & Hsz & _)]]; [done| |].
  - rewrite size_t_small64 in Hfit by lia. apply wp_split_at_image; auto; lia.
  - apply wp_split_at_image; auto; lia.
Qed.

Lemma wp_uimage_probe np off c :
  64 <= long_bits -> 0 <= extralen (uimage_parse_dt np) ->
  wp (uimage_probe m (uimage_parse_dt np) off)
    (fun r _ => match r with None => True | Some h => 0 <= h.1 < 2 ^ 40 end) c.
Proof using mtd_laws0.
  intros Hbits Hextra. set (p := uimage_parse_dt np) in *.
  assert (extralen p < 2 ^ 31) as He.
  { subst p. destruct np as [[[?|] ? ? ? ?]|]; cbn; try lia. apply i32_range. }
  assert (0 <= header_offset p < 2 ^ 32) as Hh.
  { subst p. destruct np as [[? ? ? [?|] ?]|]; cbn; try lia. apply u32_range. }
  clearbody p. unfold uimage_probe, sizeof_uimage_header in *. rewrite (size_t_small64 (64 + _)) by lia.
  apply wp_bind. wp_call (wp_read_exact m); [lia|]. intros [e|b] s Hr; [by apply wp_ret|].
  destruct Hr as (Hl & Hb & _). rewrite !in_bounds_true by lia. cbn [negb andb]. rewrite andb_false_r.
  destruct (_ && _ && _); [by apply wp_ret|]. destruct (_ <? 0); apply wp_ret; [done|]. cbn [fst].
  pose proof (be_field_range (slice b (header_offset p) 64) 12 4
    (slice_bytes b (header_offset p) 64 Hb) ltac:(lia)).
  rewrite size_t_small64 by lia. lia.
Qed.

Lemma wp_jimage_probe off c :
  64 <= long_bits ->
  wp (jimage_probe m jimage_verify_default off)
    (fun r _ => match r with None => True | Some h => 0 <= h.1 < 2 ^ 40 end) c.
Proof using mtd_laws0.
  intros Hbits. unfold jimage_probe, MAX_HEADER_LEN. apply wp_bind. wp_call (wp_read_exact m); [lia|].
  intros [e|b] s Hr; [by apply wp_ret|]. destruct Hr as (Hl & Hb & _).
  assert (jimage_verify_default b = - EINVAL \/ jimage_verify_default b = 0) as [->| ->].
  { unfold jimage_verify_default. repeat (destruct (negb _); [by left|]). by right. }
  { by apply wp_ret. }
  change (i32 0) with 0. cbn [Z.ltb]. rewrite in_bounds_true by lia. apply wp_ret. cbn [fst].
  pose proof (cpu_field_range b (0 + 24) 4 Hb ltac:(lia)). unfold sizeof_jimage_header.
  rewrite size_t_small64 by lia. lia.
Qed.

(** The uImage and the jImage parser, on a 64-bit target and with a padding
    that is not negative, terminate inside their buffers.  They report a kernel at
    the start of the device followed by the root file system, or the root file
    system followed by a kernel at an erase block boundary; that kernel ends inside
    the device, unless it starts behind its end. *)
Theorem image_parsers_layout np parser c :
  64 <= long_bits -> 0 <= extralen (uimage_parse_dt np) ->
  In parser [mtdsplit_parse_uimage m np; mtdsplit_jimage_parse_generic m] ->
  wp parser (fun r _ => parsed image_layout r) c.
Proof using ArchLaws0 mtd_laws0.
  intros Hbits Hextra [<-|[<-|[]]].
  - unfold mtdsplit_parse_uimage. repeat parse_test. apply wp_image_parser; [done|].
    intros. by apply wp_uimage_probe.
  - unfold mtdsplit_jimage_parse_generic, mtdsplit_parse_jimage. repeat parse_test.
    apply wp_image_parser; [done|]. intros. by apply wp_jimage_probe.
Qed.

(** * Parsers that take the sizes from the header *)

(** The kernel starts and ends inside the device, the root file system has at
    least its magic number and ends inside the device. *)
Definition header_layout (parts : list mtd_partition) : Prop :=
  exists k ko ks n o os, parts = [mk_mtd_partition k ko ks; mk_mtd_partition n o os] /\
    0 <= ko /\ 0 <= ks /\ ko + ks <= mtd_size m /\ 0 <= o /\ 4 <= os /\ o + os <= mtd_size m.

Lemma wp_brnimage_search c :
  mtd_size m + BRNIMAGE_ALIGN_BYTES <= 2 ^ 32 ->
  wp (brnimage_search m) (fun '(o, r) _ => o mod BRNIMAGE_ALIGN_BYTES = 0 /\ 0 <= o /\ r <= 0) c.
Proof using ArchLaws0 mtd_laws0.
  intros Hsize. pose proof (ml_size (m := m)). unfold brnimage_search.
  unfold BRNIMAGE_ALIGN_BYTES in *.
  apply (wp_loop (fun '(o, r) (_ : chip) => o mod 0x400 = 0 /\ 0 <= o /\ r <= 0)
    (fun '(o, _) _ => Z.to_nat ((mtd_size m + 0x400 - o) / 0x400))).
  - intros [o r] s (Hm & Ho & Hr). destruct (Z.ltb_spec o (mtd_size m)); [|by apply wp_ret].
    apply wp_bind. wp_call (wp_check_magic m). intros [e|t] s' Hc; apply wp_ret; [|by split_and!].
    rewrite size_t_small by lia. split; [split_and!; [|lia|lia]|].
    + by apply boundary_add.
    + by apply rounds_step.
  - done.
  - rewrite Z.sub_0_r. replace (mtd_size m + 0x400) with (mtd_size m + 1 * 0x400) by lia.
    rewrite Z.div_add by lia. assert (0 <= mtd_size m / 0x400) by (apply Z.div_pos; lia). lia.
Qed.

Lemma size_t_neg z : long_bits = 64 -> - 2 ^ 64 <= z < 0 -> size_t z = z + 2 ^ 64.
Proof.
  intros Hb Hz. unfold size_t. rewrite Hb, <- (Z.mod_add z 1) by lia. rewrite Z.mod_small; lia.
Qed.

Lemma wp_brnimage c :
  long_bits = 64 -> mtd_size m mod BRNIMAGE_ALIGN_BYTES = 0 ->
  mtd_size m + BRNIMAGE_ALIGN_BYTES <= 2 ^ 32 ->
  wp (mtdsplit_parse_brnimage m) (fun r _ => parsed header_layout r) c.
Proof using ArchLaws0 mtd_laws0.
  intros Hbits Hmod Hsize. unfold mtdsplit_parse_brnimage. apply wp_bind.
  wp_call wp_brnimage_search; [done|]. intros [o r] s (Ho & Ho0 & Hr).
  destruct (Z.eqb_spec r 0) as [->|]; cbn [negb]; [|apply wp_parse_err; lia].
  destruct (Z.leb_spec (mtd_size m) o) as [|Hlt]; [by apply wp_parse_err|].
  apply wp_bind. wp_call (wp_read_exact m); [done|]. intros [e|buf] s' Hf; [by apply wp_parse_err|].
  destruct Hf as (_ & Hb & H0 & H1). pose proof (le_field_range buf 0 4 Hb ltac:(lia)) as Hk.
  assert (12 <= o) as Ho12.
  { destruct (decide (12 <= o)); [done|]. exfalso. unfold BRNIMAGE_FOOTER_SIZE in H0.
    rewrite size_t_neg in H0 by lia. unfold loff_t, u64 in H0. rewrite Z.mod_small in H0 by lia.
    destruct (Z.ltb_spec (o - 12 + 2 ^ 64) (2 ^ 63)); lia. }
  unfold BRNIMAGE_MIN_OVERHEAD, BRNIMAGE_FOOTER_SIZE, BRNIMAGE_ALIGN_BYTES in *.
  rewrite (size_t_small (o - 12)) by lia.
  destruct (Z.ltb_spec (o - 12) (le_field buf 0 4)); [by apply wp_parse_err|]. parse_test.
  assert (o + 0x400 <= mtd_size m) as Hfit.
  { apply Z.div_exact in Ho, Hmod; [|lia..]. lia. }
  apply wp_alloc_parts. rewrite size_t_small by lia.
  eexists _, _, _, _, _, _. split; [done|]. lia.
Qed.

(** A root file system found at [o] fills the rest of the device. *)
Lemma header_layout_rest k ko ks n o :
  0 <= ko -> 0 <= ks -> ko + ks <= mtd_size m -> 0 <= o -> o + 4 <= mtd_size m ->
  header_layout [mk_mtd_partition k ko ks; rest_of_device m n o].
Proof using mtd_laws0.
  intros. rewrite rest_eq by lia. eexists _, _, _, _, _, _. split; [done|]. lia.
Qed.

Lemma wp_tplink c :
  long_bits = 64 -> wp (mtdsplit_parse_tplink m) (fun r _ => parsed header_layout r) c.
Proof using ArchLaws0 mtd_laws0.
  intros Hbits. pose proof (ml_size (m := m)). unfold mtdsplit_parse_tplink. apply wp_bind.
  wp_call (wp_read_exact m); [done|]. intros [e|hdr] s Hr; [by apply wp_parse_err|].
  destruct Hr as (_ & Hb & _). destruct (tplink_kernel_ofs _) as [f|]; [|by apply wp_parse_err].
  parse_test. pose proof (be_field_range hdr (f + 8) 4 Hb ltac:(lia)).
  pose proof (size_t_range (sizeof_tplink_fw_header + be_field hdr (f + 4) 4)).
  destruct (Z.ltb_spec (mtd_size m) (size_t (sizeof_tplink_fw_header + be_field hdr (f + 4) 4)));
    [by apply wp_parse_err|].
  apply wp_bind. wp_call (wp_check_magic m). intros [e|t] s' Hc.
  - rewrite (size_t_size m). apply wp_bind. wp_call (wp_find_rootfs m); [done|lia|].
    intros [e'|[o t]] s2 Hf; [by apply wp_parse_err; subst|]. destruct Hf as (_ & Ho & Ho4).
    unfold TPLINK_MIN_ROOTFS_OFFS in Ho. apply wp_alloc_parts, header_layout_rest; lia.
  - rewrite loff_t_small in Hc by lia. apply wp_alloc_parts, header_layout_rest; lia.
Qed.

Lemma wp_seama c :
  long_bits = 64 -> wp (mtdsplit_parse_seama m) (fun r _ => parsed header_layout r) c.
Proof using ArchLaws0 mtd_laws0.
  intros Hbits. pose proof (ml_size (m := m)). pose proof (ml_bound (m := m)). pose proof (ml_eb (m := m)).
  unfold mtdsplit_parse_seama, sizeof_seama_header. apply wp_bind.
  wp_call (wp_read_exact m); [done|]. intros [e|hdr] s Hr; [by apply wp_parse_err|].
  destruct Hr as (_ & Hb & _). parse_test.
  pose proof (be_field_range hdr 6 2 Hb ltac:(lia)). pose proof (be_field_range hdr 8 4 Hb ltac:(lia)).
  rewrite size_t_small64 by lia.
  destruct (Z.ltb_spec (mtd_size m) (28 + be_field hdr 8 4 + be_field hdr 6 2)); [by apply wp_parse_err|].
  apply wp_bind. wp_call (wp_check_magic m). intros [e|t] s' Hc.
  - rewrite (size_t_size m). apply wp_bind. wp_call (wp_find_rootfs m); [done|lia|].
    intros [e'|[o t]] s2 Hf; [by apply wp_parse_err; subst|]. destruct Hf as (_ & Ho & Ho4).
    unfold SEAMA_MIN_ROOTFS_OFFS in Ho. rewrite u64_small by lia.
    apply wp_alloc_parts, header_layout_rest; lia.
  - rewrite loff_t_small in Hc by lia. rewrite u64_small by lia.
    apply wp_alloc_parts, header_layout_rest; lia.
Qed.

(** [round_up] to 64 KiB. *)
Lemma round_up_64k x : long_bits = 64 -> 0 <= x < 2 ^ 32 -> x <= round_up x 0x10000 < x + 0x10000.
Proof using ArchLaws0.
  intros Hbits Hx. unfold round_up. change (0x10000 - 1) with (Z.ones 16).
  destruct (decide (x = 0)) as [->|].
  { unfold size_t. rewrite Hbits. by vm_compute. }
  rewrite (size_t_small (x - 1)) by lia.
  pose proof (Z.add_lor_land (x - 1) (Z.ones 16)) as Hl. rewrite Z.land_ones in Hl by lia.
  pose proof (Z.mod_pos_bound (x - 1) (2 ^ 16) ltac:(lia)). change (Z.ones 16) with 65535 in *.
  rewrite size_t_small64 by lia. lia.
Qed.

Lemma wp_eva c :
  long_bits = 64 -> wp (mtdsplit_parse_eva m) (fun r _ => parsed header_layout r) c.
Proof using ArchLaws0 mtd_laws0.
  intros Hbits. unfold mtdsplit_parse_eva, EVA_DUMMY_SQUASHFS_SIZE. apply wp_bind.
  wp_call (wp_read_exact m); [done|]. intros [e|hdr] s Hr; [by apply wp_parse_err|]. parse_test.
  set (ks := u32 (le_field hdr 4 4 + EVA_FOOTER_SIZE)).
  assert (0 <= ks < 2 ^ 32) by apply u32_range. pose proof (round_up_64k ks Hbits ltac:(lia)).
  rewrite size_t_small64 by lia.
  destruct (Z.leb_spec (mtd_size m) (round_up ks 0x10000 + 0x100)); [by apply wp_parse_err|].
  apply wp_bind. wp_call (wp_check_magic m). intros [e|t] s' Hc; [by apply wp_parse_err|].
  rewrite loff_t_small in Hc by lia. apply wp_alloc_parts, header_layout_rest; lia.
Qed.

(** The parsers that take the sizes from an image header (TP-Link, SEAMA, EVA,
    brnImage), on a 64-bit target and a device of whole kilobytes: the kernel and
    the root file system they report lie inside the device, whatever the header
    says; they terminate on every device. *)
Theorem header_parsers_layout parser c :
  long_bits = 64 -> mtd_size m mod BRNIMAGE_ALIGN_BYTES = 0 ->
  mtd_size m + BRNIMAGE_ALIGN_BYTES <= 2 ^ 32 ->
  In parser [mtdsplit_parse_tplink m; mtdsplit_parse_seama m; mtdsplit_parse_eva m;
             mtdsplit_parse_brnimage m] ->
  wp parser (fun r _ => parsed header_layout r) c.
Proof using ArchLaws0 mtd_laws0.
  intros Hbits Hmod Hsize [<-|[<-|[<-|[<-|[]]]]];
    [by apply wp_tplink|by apply wp_seama|by apply wp_eva|by apply wp_brnimage].
Qed.
End laws.

(** * Devices with known contents *)

Section image.
Context (data : list Z) `{!mtd_image m data}.

(** C30: [mtd_find_rootfs_from] visits the offset it is given and then every erase
    block boundary below the limit, and returns the first of them with the magic
    number of a root file system, with its type; it returns [-ENODEV] exactly when
    there is none. *)
Theorem find_rootfs_first from limit c :
  0 <= from -> 0 <= limit <= mtd_size m ->
  wp (mtd_find_rootfs_from m from limit)
    (fun r c' => c' = c /\ first_rootfs m data from limit r) c.
Proof using ArchLaws0 mtd_image0. apply find_rootfs_image; exact _. Qed.

Lemma squashfs_len_image c :
  64 <= long_bits ->
  mtd_get_squashfs_len m 0 c = Ret
    (if 48 <=? mtd_size m then
       if le_field data 0 4 =? SQUASHFS_MAGIC then
         if le_field data 40 8 =? 0 then inl (- ENODEV)
         else if mtd_size m <? le_field data 40 8 then inl (- EINVAL) else inr (le_field data 40 8)
       else inl (- EINVAL)
     else inl (- EIO)) c.
Proof using mtd_image0.
  intros Hbits. unfold mtd_get_squashfs_len, sizeof_squashfs_super_block, bind.
  rewrite (read_exact_image m data) by lia. rewrite Z.add_0_l.
  destruct (48 <=? mtd_size m); [|done].
  unfold le_field. rewrite !slice_slice, !Z.add_0_l by lia. fold (le_field data 40 8) (le_field data 0 4).
  destruct (_ =? SQUASHFS_MAGIC); cbn [negb]; [|done].
  pose proof (le_field_range data 40 8 mi_bytes ltac:(lia)).
  rewrite !size_t_small64 by lia.
  destruct (Z.leb_spec (le_field data 40 8) 0), (Z.eqb_spec (le_field data 40 8) 0); [done|lia|lia|].
  by destruct (_ <? _).
Qed.

(** the squashfs splitter.  On a partition that ends at an erase block boundary
    of the flash, [rootfs_data] starts behind the file system at the next erase
    block boundary of the flash, and takes all whole erase blocks up to the end of
    the partition. *)
Theorem squashfs_split_aligned c :
  64 <= long_bits -> 0 < parent_erasesize m -> 0 <= mtdpart_offset m ->
  mtdpart_offset m + mtd_size m + parent_erasesize m <= 2 ^ 32 ->
  boundary (parent_erasesize m) (mtdpart_offset m + mtd_size m) ->
  wp (mtdsplit_parse_squashfs m) (fun r _ => parsed (fun parts =>
    exists off sz, parts = [mk_mtd_partition ROOTFS_SPLIT_NAME off sz] /\
      le_field data 40 8 <= off < le_field data 40 8 + parent_erasesize m /\
      boundary (parent_erasesize m) (mtdpart_offset m + off) /\
      boundary (mtd_erasesize m) sz /\ 0 <= sz /\
      off + sz <= mtd_size m < off + sz + mtd_erasesize m) r) c.
Proof using ArchLaws0 mtd_image0.
  intros Hbits Hpe Hpo Hbound Hend. pose proof (mi_eb (m := m)). pose proof (mi_bound (m := m)).
  unfold mtdsplit_parse_squashfs, wp, bind. rewrite squashfs_len_image by done.
  destruct (48 <=? mtd_size m); [|by left].
  destruct (_ =? SQUASHFS_MAGIC); [|by left]. destruct (Z.eqb_spec (le_field data 40 8) 0); [by left|].
  destruct (Z.ltb_spec (mtd_size m) (le_field data 40 8)); [by left|].
  pose proof (le_field_range data 40 8 mi_bytes ltac:(lia)).
  rewrite (size_t_small64 (mtdpart_offset m)), size_t_small64 by lia.
  destruct (roundup_eq (mtdpart_offset m + le_field data 40 8) (parent_erasesize m)) as (k & -> & Hk);
    [lia..|].
  assert (k * parent_erasesize m <= mtdpart_offset m + mtd_size m) as Hle.
  { unfold boundary in Hend. apply Z.div_exact in Hend; [|lia]. rewrite Hend in *.
    set (q := (_ + _) / _) in *. clearbody q. assert (k <= q) by nia. nia. }
  rewrite !(u64_small (k * _ - _)), (u64_small (mtd_size m - _)), rounddown_eq by lia.
  set (off := k * parent_erasesize m - mtdpart_offset m).
  pose proof (Z.div_mod (mtd_size m - off) (mtd_erasesize m) ltac:(lia)).
  pose proof (Z.mod_pos_bound (mtd_size m - off) (mtd_erasesize m) ltac:(lia)).
  eapply (wp_alloc_parts (fun _ => _)). eexists _, _. split; [reflexivity|].
  assert (0 <= (mtd_size m - off) / mtd_erasesize m) by (apply Z.div_pos; subst off; lia).
  split_and!; [subst off; lia..| | |nia|lia|lia]; unfold boundary.
  - subst off. rewrite Zplus_minus. by apply Z.mod_mul; lia.
  - by apply Z.mod_mul; lia.
Qed.

(** * FIT images *)

Definition fit_at (o : Z) : Prop :=
  o + sizeof_fdt_header <= mtd_size m /\ be_field data o 4 = OF_DT_HEADER.

Lemma be_field_slice o k l n :
  0 <= o -> 0 <= k -> 0 <= l -> k + l <= n -> be_field (slice data o n) k l = be_field data (o + k) l.
Proof. intros. unfold be_field. by rewrite slice_slice by lia. Qed.

Lemma fit_search_image c :
  64 <= long_bits -> boundary (mtd_erasesize m) (mtd_size m) -> sizeof_fdt_header <= mtd_erasesize m -> 0 < mtd_size m ->
  wp (fit_search m) (fun r c' => c' = c /\ exists o h, r = inr (o, Some h) /\
    boundary (mtd_erasesize m) o /\ 0 <= o <= mtd_size m /\
    (forall b, boundary (mtd_erasesize m) b -> 0 <= b < o -> ~ fit_at b) /\
    (o < mtd_size m -> fit_at o /\ h = slice data o sizeof_fdt_header) /\ Forall is_byte h) c.
Proof using ArchLaws0 mtd_image0.
  intros Hbits Hend Heb Hpos. pose proof (mi_bound (m := m)). unfold fit_search, sizeof_fdt_header in *.
  apply (wp_loop (fun '(o, hdr) c' => c' = c /\ boundary (mtd_erasesize m) o /\
      0 <= o <= mtd_size m /\ (hdr = None -> o = 0) /\ (forall h, hdr = Some h -> Forall is_byte h) /\
      forall b, boundary (mtd_erasesize m) b -> 0 <= b < o -> ~ fit_at b)
    (fun '(o, _) _ => Z.to_nat ((mtd_size m + mtd_erasesize m - o) / mtd_erasesize m))).
  - intros [o hdr] s (-> & Hb & Ho & Hn & Hh & Hnone). rewrite (size_t_small64 (o + 40)) by lia.
    destruct (Z.leb_spec (o + 40) (mtd_size m)) as [Hle|Hgt].
    + unfold wp, bind. rewrite (read_exact_image m data) by lia.
      destruct (Z.leb_spec (o + 40) (mtd_size m)); [|lia].
      rewrite be_field_slice, Z.add_0_r by lia.
      pose proof (slice_bytes data o 40 mi_bytes) as Hsb.
      destruct (Z.eqb_spec (be_field data o 4) OF_DT_HEADER) as [Em|Em]; cbn [negb ret].
      * split; [done|]. eexists _, _. split; [done|]. split_and!; [done|lia|lia|done| |done].
        intros _. split; [|done]. split; [unfold sizeof_fdt_header; lia|done].
      * assert (o + mtd_erasesize m <= mtd_size m) as Hle'.
        { apply boundary_lt; [lia|done|done|lia]. }
        rewrite size_t_small64 by lia. split; [split_and!; [done| |lia|lia|done| |]|].
        -- apply boundary_add; [lia|done].
        -- intros h [= <-]. done.
        -- intros b Hb' Hbo [H1 H2]. destruct (Z.lt_trichotomy b o) as [|[->|]]; [|done|].
           { apply (Hnone b); [done|lia|by split]. }
           assert (mtd_erasesize m * (o / mtd_erasesize m) = o)
             by (unfold boundary in Hb; apply Z.div_exact in Hb; lia).
           apply (boundary_gap (mtd_erasesize m) (o / mtd_erasesize m) b); [lia..|done].
        -- apply rounds_step; lia.
    + assert (o = mtd_size m) as ->.
      { destruct (decide (o = mtd_size m)); [done|].
        pose proof (boundary_lt _ _ _ mi_eb Hb Hend). lia. }
      apply wp_ret. split; [done|]. destruct hdr as [h|]; [|specialize (Hn eq_refl); lia].
      eexists _, _. split; [done|]. split_and!; [done|lia|lia|done|lia|auto].
  - split_and!; first [done|lia|intros; lia].
  - unfold eb_fuel. rewrite Z.sub_0_r, <- (Z.mul_1_l (mtd_erasesize m)) at 1. rewrite Z.div_add by lia.
    assert (0 <= mtd_size m / mtd_erasesize m) by (apply Z.div_pos; lia). lia.
Qed.

(** The FIT parser, on a 64-bit target and a device of whole erase blocks.  It
    reports partitions only when an erase block starts with the header of a FIT
    image: the kernel starts at the first such block and covers the image up to the
    end of its last erase block, and the root file system is the first one behind
    the image and takes the rest of the device. *)
Theorem fit_parse_first c :
  64 <= long_bits -> boundary (mtd_erasesize m) (mtd_size m) ->
  sizeof_fdt_header <= mtd_erasesize m -> 0 < mtd_size m ->
  wp (mtdsplit_fit_parse m) (fun r _ => parsed (fun parts => exists b o t,
    let fit_size := be_field data (b + 4) 4 in
    parts = [mk_mtd_partition KERNEL_PART_NAME b
               ((fit_size / mtd_erasesize m + 1) * mtd_erasesize m);
             mk_mtd_partition ROOTFS_PART_NAME o (mtd_size m - o)] /\
    boundary (mtd_erasesize m) b /\ 0 <= b /\ fit_at b /\
    (forall b', boundary (mtd_erasesize m) b' -> 0 <= b' < b -> ~ fit_at b') /\
    first_rootfs m data (b + fit_size) (mtd_size m) (inr (o, t))) r) c.
Proof using ArchLaws0 mtd_image0.
  intros Hbits Hend Heb Hpos. pose proof (mi_bound (m := m)). pose proof (mi_eb (m := m)).
  unfold mtdsplit_fit_parse. apply wp_bind. wp_call fit_search_image; [done..|].
  intros r s (-> & o & h & -> & Hb & Ho & Hnone & Hat & Hh).
  destruct (Z.eqb_spec (be_field h 4 4) 0); [by apply wp_parse_err|].
  pose proof (be_field_range h 4 4 Hh ltac:(lia)) as Hf.
  rewrite (size_t_size m), (size_t_small64 (o + _)) by lia.
  apply wp_bind. wp_call (find_rootfs_image m data); [lia|lia|].
  intros [e|[o' t]] s' [-> Hr]; [destruct Hr as [-> _]; by apply wp_parse_err|].
  pose proof Hr as (_ & Ho' & _). destruct (Hat ltac:(lia)) as [Hfit ->].
  rewrite be_field_slice in * by (unfold sizeof_fdt_header; lia).
  apply wp_alloc_parts. exists o, o', t. cbn zeta. split_and!; [|done|lia|done|done|done].
  unfold sizeof_fdt_header in *.
  set (f := be_field data (o + 4) 4) in *. assert (0 <= f < mtd_size m) by lia.
  assert (0 <= f / mtd_erasesize m * mtd_erasesize m <= f).
  { pose proof (Z.div_mod f (mtd_erasesize m) ltac:(lia)).
    pose proof (Z.mod_pos_bound f (mtd_erasesize m) ltac:(lia)).
    assert (0 <= f / mtd_erasesize m) by (apply Z.div_pos; lia). nia. }
  rewrite rounddown_eq by lia. rewrite size_t_small, u64_small by lia. repeat f_equal. lia.
Qed.

(** * The boot file system of CFE *)

(** [offset & ~0x3]. *)
Lemma land_align x : 0 <= x < 2 ^ long_bits -> Z.land x (size_t (-4)) = x / 4 * 4.
Proof using ArchLaws0.
  intros Hx. pose proof (long_bits_32 : 32 <= long_bits).
  replace (x / 4 * 4) with (Z.shiftl (Z.shiftr x 2) 2)
    by (rewrite Z.shiftl_mul_pow2, Z.shiftr_div_pow2 by lia; done).
  apply Z.bits_inj'. intros i Hi. rewrite Z.land_spec. unfold size_t.
  destruct (decide (i < long_bits)).
  - rewrite Z.mod_pow2_bits_low by lia. change (-4) with (Z.lnot 3). rewrite Z.lnot_spec by lia.
    destruct (decide (i < 2)).
    + rewrite Z.shiftl_spec_low by lia. assert (i = 0 \/ i = 1) as [-> | ->] by lia;
        apply andb_false_r.
    + rewrite Z.shiftl_spec, Z.shiftr_spec by lia. rewrite (Z.bits_above_log2 3) by (cbn; lia).
      rewrite andb_true_r. f_equal. lia.
  - rewrite Z.mod_pow2_bits_high, andb_false_r by lia.
    rewrite Z.shiftl_spec, Z.shiftr_spec by lia. replace (i - 2 + 2) with i by lia.
    destruct (decide (x = 0)) as [->|]; [by rewrite Z.bits_0|].
    symmetry. apply Z.bits_above_log2; [lia|].
    apply (Z.lt_le_trans _ long_bits); [|lia]. apply Z.log2_lt_pow2; lia.
Qed.

Lemma bootfs_end_stuck fuel c :
  sizeof_jffs2_raw_dirent <= mtd_size m ->
  cpu_field data 0 2 = JFFS2_MAGIC_BITMASK -> cpu_field data 4 4 = 0 ->
  bootfs_end m fuel c = Diverge.
Proof using ArchLaws0 mtd_image0.
  unfold sizeof_jffs2_raw_dirent. intros Hsize Hmagic Hlen. unfold bootfs_end.
  induction fuel as [|n IH]; [done|]. cbn [loop]. unfold bind at 1 2.
  change sizeof_jffs2_raw_dirent with 40.
  rewrite (read_exact_image m data) by lia. rewrite Z.add_0_l.
  destruct (Z.leb_spec 40 (mtd_size m)); [|lia].
  rewrite !cpu_field_slice, !Z.add_0_l, Hmagic, Hlen by lia. rewrite Z.eqb_refl. cbn [negb].
  rewrite (size_t_small 0), Z.add_0_l, (size_t_small 3) by done.
  pose proof (long_bits_32 : 32 <= long_bits).
  assert (2 ^ 32 <= 2 ^ long_bits) by (apply Z.pow_le_mono_r; lia).
  rewrite land_align by lia. rewrite (size_t_small (3 / 4 * 4)) by done.
  change (3 / 4 * 4) with 0.
  destruct (Z.ltb_spec 0 (mtd_size m)); [|lia]. exact IH.
Qed.

(** The CFE bootfs parser does not return on a [firmware] partition whose first
    JFFS2 node has the length 0: no number of rounds ends its first loop. *)
Theorem cfe_bootfs_hangs fuel c :
  mtd_name m = "firmware"%string -> sizeof_jffs2_raw_dirent <= mtd_size m ->
  cpu_field data 0 2 = JFFS2_MAGIC_BITMASK -> cpu_field data 4 4 = 0 ->
  mtdsplit_cfe_bootfs_parse m fuel c = Diverge.
Proof using ArchLaws0 mtd_image0.
  intros Hname Hsize Hmagic Hlen. unfold mtdsplit_cfe_bootfs_parse.
  rewrite bool_decide_true by done. cbn [negb]. unfold bind. by rewrite bootfs_end_stuck.
Qed.
End image.

(** With node lengths that are not 0, the CFE bootfs parser returns on a 64-bit
    target, within one round per four bytes of the device, and the boot file system
    and the root file system it reports fill the device. *)
Theorem cfe_bootfs_returns `{!mtd_laws m} fuel c :
  64 <= long_bits -> mtd_size m / 4 + 1 < Z.of_nat fuel ->
  (forall off b c c', mtd_read m off sizeof_jffs2_raw_dirent c = ((0, b), c') ->
     Z.of_nat (length b) = sizeof_jffs2_raw_dirent -> 0 < cpu_field b 4 4) ->
  wp (mtdsplit_cfe_bootfs_parse m fuel) (fun r _ => parsed front_kernel r) c.
Proof using ArchLaws0.
  intros Hbits Hfuel Hlen. pose proof (ml_bound (m := m)). pose proof (ml_size (m := m)).
  assert (0 <= mtd_size m / 4) by (apply Z.div_pos; lia). pose proof (ml_eb (m := m)).
  unfold mtdsplit_cfe_bootfs_parse. destruct (bool_decide _); [|by apply wp_parse_err]. cbn [negb].
  apply wp_bind. apply wp_mono with (Q := fun _ _ => True);
    [|intros; apply wp_split_from; lia].
  unfold bootfs_end.
  apply (wp_loop (fun o (_ : chip) => 0 <= o /\ (o = 0 \/ o < mtd_size m) /\ exists k, o = k * 4)
    (fun o _ => Z.to_nat ((mtd_size m - o) / 4 + 1)));
    [|split_and!; [lia|lia|by exists 0]|rewrite Z.sub_0_r; lia].
  intros o s (Ho & Hlt & k & Ek). apply wp_bind, wp_read_exact_raw; [by intros; apply wp_ret|].
  rewrite loff_t_small by lia. intros b s' E El. destruct (negb _); [by apply wp_ret|].
  specialize (Hlen _ _ _ _ E El).
  destruct (ml_read _ _ _ _ _ E ltac:(done) El) as (Hb & _).
  pose proof (cpu_field_range b 4 4 Hb ltac:(lia)) as Hr.
  assert (size_t (Z.land (size_t (size_t (o + cpu_field b 4 4) + 3)) (size_t (-4)))
    = (o + cpu_field b 4 4 + 3) / 4 * 4) as ->.
  { rewrite !(size_t_small64 (o + _)), (size_t_small64 (_ + 3)) by lia.
    assert (2 ^ 64 <= 2 ^ long_bits) by (apply Z.pow_le_mono_r; lia).
    rewrite land_align by lia. apply size_t_small64; [done|].
    assert (0 <= (o + cpu_field b 4 4 + 3) / 4 <= 2 ^ 60); [|lia].
    split; [apply Z.div_pos; lia|apply Z.div_le_upper_bound; lia]. }
  destruct (Z.ltb_spec ((o + cpu_field b 4 4 + 3) / 4 * 4) (mtd_size m)); apply wp_ret; [|done].
  pose proof (Z.div_mod (o + cpu_field b 4 4 + 3) 4 ltac:(lia)).
  pose proof (Z.mod_pos_bound (o + cpu_field b 4 4 + 3) 4 ltac:(lia)).
  set (q := (o + cpu_field b 4 4 + 3) / 4) in *. clearbody q. split; [split_and!; [lia|lia|by exists q]|].
  assert ((mtd_size m - q * 4) / 4 + 1 <= (mtd_size m - o) / 4).
  { rewrite <- Z.div_add by lia. apply Z.div_le_mono; lia. }
  assert (0 <= (mtd_size m - q * 4) / 4) by (apply Z.div_pos; lia). lia.
Qed.

(** A JFFS2 clean marker node written in the byte order of the CPU, as the JFFS2
    of the kernel writes it, is recognised as a root file system on big-endian
    targets only. *)
Theorem jffs2_magic_order a b x y :
  Forall is_byte [a; b; x; y] ->
  cpu_field [a; b; x; y] 0 2 = JFFS2_MAGIC_BITMASK -> cpu_field [a; b; x; y] 2 2 = 0x2003 ->
  rootfs_magic [a; b; x; y] = if big_endian then Some MTDSPLIT_PART_TYPE_JFFS2 else None.
Proof.
  intros Hb. repeat (apply Forall_cons in Hb as [? Hb]). unfold is_byte in *.
  unfold rootfs_magic, cpu_field. destruct big_endian; unfold be_field, le_field, slice;
    cbv [Z.to_nat Pos.to_nat Pos.iter_op Init.Nat.add drop take reverse rev_append le_val];
    unfold JFFS2_MAGIC_BITMASK; intros Hm Ht.
  - assert (a = 0x19 /\ b = 0x85 /\ x = 0x20 /\ y = 0x03) as (-> & -> & -> & ->) by lia. done.
  - assert (a = 0x85 /\ b = 0x19 /\ x = 0x03 /\ y = 0x20) as (-> & -> & -> & ->) by lia. done.
Qed.
End theorems.
