(* ===== verification/MtdSplitWfi.v ===== *)
(** The splitter for Broadcom whole flash images, [mtdsplit_bcm_wfi.c]: directory
    entries of JFFS2 are searched for the boot loader and the kernel, UBI is the root
    file system, and of two images in one flash the one with the higher boot flag is
    the active one. *)

From stdpp Require Import base list numbers strings.
From Stdlib Require Import ZArith Lia Ascii.
From S2P Require Import Prelude Platform CStrings MtdSplit.
Local Open Scope Z_scope.
Local Open Scope cprog_scope.

Definition CFERAM_NAME : list Z := ascii_bytes "cferam".
Definition CFERAM_NAME_MAX_LEN : Z := 32.
Definition KERNEL_NAME : list Z := ascii_bytes "vmlinux.lz".
Definition OPENWRT_NAME : list Z := ascii_bytes "1-openwrt".
Definition UBI_MAGIC : Z := 0x55424923.
Definition CFE_MAGIC_PFX : list Z := ascii_bytes "cferam.".
Definition CFE_MAGIC_LEN : Z := 10.
Definition SERCOMM_MAGIC_PFX : list Z := ascii_bytes "eRcOmM.".
Definition SERCOMM_MAGIC_LEN : Z := 10.
Definition PART_CFERAM : string := "cferam".
Definition PART_FIRMWARE : string := "firmware".
Definition PART_IMAGE_1 : string := "img1".
Definition PART_IMAGE_2 : string := "img2".

(** Of [linux/jffs2.h] and [mtd/mtd-abi.h]. *)
Definition JFFS2_NODETYPE_DIRENT : Z := 0xe001.
Definition MTD_WRITEABLE : Z := 0x400.

Definition char_to_num (c : Z) : Z := if (48 <=? c) && (c <=? 57) then c - 48 else 0.

(** The device tree node of the partition: [brcm,cferam] and [brcm,no-cferam]. *)
Record wfi_node := mk_wfi_node {
  dt_cferam : option (list Z);
  dt_no_cferam : bool
}.

(** Which allocations succeed: the block buffer, the copies of the two names, the
    array of [parse_bcm_wfi] and the array of its caller. *)
Record wfi_mem := mk_wfi_mem {
  mem_buf : bool;
  mem_name1 : bool;
  mem_name2 : bool;
  mem_parse : bool;
  mem_parts : bool
}.

(** Memory accesses to a buffer. *)
Definition memcmp_eq {S} (buf : list Z) (off : Z) (s : list Z) : M S bool :=
  let len := Z.of_nat (length s) in
  if in_bounds buf off len then ret (bool_decide (slice buf off len = s)) else fault.

(** A copied string: the bytes in front of the first zero, at most [n] of them; the
    copy has a terminating zero. *)
Fixpoint c_string (l : list Z) : list Z :=
  match l with
  | [] => []
  | b :: l => if b =? 0 then [] else b :: c_string l
  end.
Definition kstrndup {S} (granted : bool) (buf : list Z) (off n : Z) : M S (option (list Z)) :=
  let bytes := slice buf off n in
  let s := c_string bytes in
  if (Z.of_nat (length bytes) <? n) && (length s =? length bytes)%nat then fault
  else ret (if granted then Some s else None).

(** * Directory entries *)

Section wfi.
Context `{Arch} (crc32 : Z -> list Z -> Z) {chip : Type} (m : mtd_dev chip).

Abbreviation prog := (M chip).

(** [struct jffs2_raw_dirent] at [o]: magic 0, nodetype 2, totlen 4, ino 20, nsize
    28, node_crc 32, name 40. *)
Definition jffs2_dirent_crc (buf : list Z) (o : Z) : Z := crc32 0 (slice buf o (40 - 8)).

Definition jffs2_dirent_valid (buf : list Z) (o : Z) : prog bool :=
  let* magic := cpu_load buf o 2 in
  if negb (magic =? JFFS2_MAGIC_BITMASK) then ret false
  else
    let* nodetype := cpu_load buf (o + 2) 2 in
    if negb (nodetype =? JFFS2_NODETYPE_DIRENT) then ret false
    else
      let* ino := cpu_load buf (o + 20) 4 in
      if ino =? 0 then ret false
      else
        let* node_crc := cpu_load buf (o + 32) 4 in
        ret (node_crc =? jffs2_dirent_crc buf o).

(** [*out_name] and [*out_name_len]. *)
Definition out_name : Type := option (list Z) * Z.
Definition no_name : out_name := (None, 0).

(** [want] is [None] for null pointers, else whether [kstrndup] gets its memory. *)
Definition store_name (want : option bool) (buf : list Z) (o : Z) : prog out_name :=
  match want with
  | None => ret no_name
  | Some granted =>
      let* nsize := cpu_load buf (o + 28) 1 in
      let* s := kstrndup granted buf (o + 40) nsize in
      ret (s, nsize)
  end.

(** The rounds in a block: a walk that does not end after as many as there are pairs
    of a position and a value of [valid] has come back to one of them. *)
Definition block_fuel : nat := Z.to_nat (mtd_erasesize m / 2 + 4).

(** [block_offs += totlen; block_offs = (block_offs + 0x3) & ~0x3], unsigned int. *)
Definition next_node (o totlen : Z) : Z := Z.land (u32 (u32 (o + totlen) + 3)) (u32 (-4)).

(** The loop over a block: [valid] behind its last entry, or the return value. *)
Definition find_in_block (buf name : list Z) (want : option bool) (fuel : nat) (l : Z * bool) :
    prog (bool + Z * out_name) :=
  loop fuel (fun '(block_offs, valid) =>
    if block_offs <? mtd_erasesize m then
      let* node := jffs2_dirent_valid buf block_offs in
      if negb node then ret (inl (u32 (block_offs + 4), valid))
      else
        let* openwrt := memcmp_eq buf (block_offs + 40) OPENWRT_NAME in
        let* found := if openwrt then ret false else memcmp_eq buf (block_offs + 40) name in
        if found then
          if negb valid then ret (inr (inr (- EINVAL, no_name)))
          else
            let* out := store_name want buf block_offs in
            ret (inr (inr (0, out)))
        else
          let* totlen := cpu_load buf (block_offs + 4) 4 in
          ret (inl (next_node block_offs totlen, valid || openwrt))
    else ret (inr (inl valid))) l.

(** A round of [jffs2_find_file] at an erase block.  The search returns its value,
    [*offs], and the name. *)
Definition find_file_round (name : list Z) (want : option bool) (end_ : Z) '(offs, valid) :
    prog ((Z * bool) + (Z * Z * out_name)) :=
  if offs <? end_ then
    let next := loff_t (offs + mtd_erasesize m) in
    let* (rc, magic) := call_mtd_read m offs 2 in
    if negb (rc =? 0) || negb (Z.of_nat (length magic) =? 2) then ret (inl (next, valid))
    else if negb (cpu_field magic 0 2 =? JFFS2_MAGIC_BITMASK) then ret (inl (next, valid))
    else
      let* (rc, buf) := call_mtd_read m offs (mtd_erasesize m) in
      if negb (rc =? 0) then ret (inr (rc, offs, no_name))
      else if negb (Z.of_nat (length buf) =? mtd_erasesize m) then
        ret (inr (- EINVAL, offs, no_name))
      else
        let* r := find_in_block buf name want block_fuel (0, valid) in
        match r with
        | inl valid => ret (inl (next, valid))
        | inr (rc, out) => ret (inr (rc, offs, out))
        end
  else ret (inr (- ENOENT, offs, no_name)).

Definition jffs2_find_file (name : list Z) (offs size : Z) (want : option bool) :
    prog (Z * Z * out_name) :=
  let end_ := loff_t (offs + size) in
  loop (eb_fuel m (Z.max 0 size)) (find_file_round name want end_) (offs, false).

Definition ubifs_find (offs size : Z) : prog (Z * Z) :=
  let end_ := loff_t (offs + size) in
  loop (eb_fuel m (Z.max 0 size)) (fun offs =>
    if offs <? end_ then
      let next := loff_t (offs + mtd_erasesize m) in
      let* (rc, magic) := call_mtd_read m offs 4 in
      if negb (rc =? 0) || negb (Z.of_nat (length magic) =? 4) then ret (inl next)
      else if be_field magic 0 4 =? UBI_MAGIC then ret (inr (0, offs))
      else ret (inl next)
    else ret (inr (- ENOENT, offs))) offs.

(** * One image *)

Definition cferam_name (np : option wfi_node) : list Z :=
  match np with
  | Some n => default CFERAM_NAME (dt_cferam n)
  | None => CFERAM_NAME
  end.
Definition cferam_name_len (name : list Z) : Z :=
  let len := Z.min (Z.of_nat (length name)) CFERAM_NAME_MAX_LEN in
  if 0 <? len then len - 1 else len.

Definition parse_bcm_wfi (np : option wfi_node) (granted : bool) (off size : Z) (cfe_part : bool) :
    prog parse_result :=
  let name := cferam_name np in
  let* (ret1, cfe_off, kernel_off) :=
    (if cfe_part then
       let* (rc, cfe_off, _) :=
         jffs2_find_file (take (Z.to_nat (cferam_name_len name)) name) off size None in
       ret (rc, cfe_off, loff_t (cfe_off + mtd_erasesize m))
     else ret (0, 0, off)) in
  if negb (ret1 =? 0) then parse_err ret1
  else
    let* (ret2, kernel_off, _) :=
      jffs2_find_file KERNEL_NAME kernel_off (loff_t (size - (kernel_off - off))) None in
    if negb (ret2 =? 0) then parse_err ret2
    else
      let rootfs_off := loff_t (kernel_off + mtd_erasesize m) in
      let* (ret3, rootfs_off) := ubifs_find rootfs_off (loff_t (size - (rootfs_off - off))) in
      if negb (ret3 =? 0) then parse_err ret3
      else if negb granted then parse_err (- ENOMEM)
      else parse_ok
        ((if cfe_part
          then [new_mtd_partition PART_CFERAM (u64 cfe_off) (u64 (kernel_off - cfe_off)) MTD_WRITEABLE]
          else []) ++
         [mk_mtd_partition PART_FIRMWARE (u64 kernel_off) (u64 (size - (kernel_off - off)));
          mk_mtd_partition KERNEL_PART_NAME (u64 kernel_off) (u64 (rootfs_off - kernel_off));
          mk_mtd_partition UBI_PART_NAME (u64 rootfs_off) (u64 (size - (rootfs_off - off)))]).

Definition mtdsplit_parse_bcm_wfi (np : option wfi_node) (mem : wfi_mem) : prog parse_result :=
  match np with
  | None => parse_err (- EINVAL)
  | Some n =>
      if negb (mem_buf mem) then parse_err (- ENOMEM)
      else parse_bcm_wfi np (mem_parse mem) 0 (loff_t (mtd_size m)) (negb (dt_no_cferam n))
  end.

(** * Two images *)

Definition img2_off : Z := loff_t (mtd_size m / 2).
Definition img1_size : Z := loff_t (img2_off - 0).
Definition img2_size : Z := loff_t (mtd_size m - img2_off).

(** The image with the higher flag, the first one if they are equal: its offset and
    size, and the partition of the other image. *)
Definition choose_image (bf1 bf2 : Z) : (Z * Z) * mtd_partition :=
  if bf2 <=? bf1
  then ((0, img1_size), mk_mtd_partition PART_IMAGE_2 (u64 img2_off) (u64 img2_size))
  else ((img2_off, img2_size), mk_mtd_partition PART_IMAGE_1 0 (u64 img1_size)).

(** What the two parsers do with the result for the active image.  The array of the
    second branch is used without a test for a null pointer. *)
Definition finish_split (granted : bool) (inactive : mtd_partition) (r : parse_result) :
    prog parse_result :=
  let '(rc, pparts) := r in
  if 0 <? rc then
    if negb granted then ret (- ENOMEM, pparts)
    else match pparts with
         | None => fault
         | Some parts => ret (rc + 1, Some (take (Z.to_nat rc) parts ++ [inactive]))
         end
  else if negb granted then fault
  else ret (rc, Some [mk_mtd_partition PART_IMAGE_1 0 (u64 img1_size);
                      mk_mtd_partition PART_IMAGE_2 (u64 img2_off) (u64 img2_size)]).

(** Three decimal digits. *)
Definition flag_digits (buf : list Z) (o : Z) : prog Z :=
  let* a := arr_get buf (o + 0) in
  let* b := arr_get buf (o + 1) in
  let* c := arr_get buf (o + 2) in
  ret (char_to_num a * 100 + char_to_num b * 10 + char_to_num c * 1).

Definition cferam_bootflag_value (name : option (list Z)) (name_len : Z) : prog Z :=
  match name with
  | None => ret (- ENOENT)
  | Some s =>
      if name_len <? CFE_MAGIC_LEN then ret (- ENOENT)
      else
        let buf := s ++ [0] in
        let* pfx := memcmp_eq buf 0 CFE_MAGIC_PFX in
        if pfx then flag_digits buf 7 else ret (- ENOENT)
  end.

Definition mtdsplit_parse_bcm_wfi_split (np : option wfi_node) (mem : wfi_mem) : prog parse_result :=
  if negb (mem_buf mem) then parse_err (- ENOMEM)
  else
    let* (_, _, (cfe1_name, cfe1_size)) :=
      jffs2_find_file CFERAM_NAME 0 img1_size (Some (mem_name1 mem)) in
    let* (_, _, (cfe2_name, cfe2_size)) :=
      jffs2_find_file CFERAM_NAME img2_off img2_size (Some (mem_name2 mem)) in
    let* bf1 := cferam_bootflag_value cfe1_name cfe1_size in
    let* bf2 := cferam_bootflag_value cfe2_name cfe2_size in
    let '((active_off, active_size), inactive) := choose_image bf1 bf2 in
    let* r := parse_bcm_wfi np (mem_parse mem) active_off active_size true in
    finish_split (mem_parts mem) inactive r.

(** * Sercomm: boot flags in partitions of their own *)

(** [d] is the partition with the flag; the buffer has the erase size of the master. *)
Definition sercomm_bootflag_value (d : mtd_dev chip) : prog Z :=
  loop (eb_fuel d (mtd_size d)) (fun offs =>
    if u64 offs <? mtd_size d then
      let next := loff_t (offs + mtd_erasesize d) in
      let* (rc, buf) := call_mtd_read d offs SERCOMM_MAGIC_LEN in
      if mtd_erasesize m <? Z.of_nat (length buf) then fault
      else if negb (rc =? 0) || negb (Z.of_nat (length buf) =? SERCOMM_MAGIC_LEN) then ret (inl next)
      else
        let* pfx := memcmp_eq buf 0 SERCOMM_MAGIC_PFX in
        if negb pfx then ret (inl next)
        else
          let* v := flag_digits buf 7 in
          ret (inr v)
    else ret (inr (- ENOENT))) 0.

(** [bf_erase] is [mtd_erase] of the second flag partition; its code is not used. *)
Definition mtdsplit_parse_ser_wfi (mtd_bf1 mtd_bf2 : option (mtd_dev chip))
    (bf_erase : Z -> Z -> chip -> Z * chip) (np : option wfi_node) (mem : wfi_mem) :
    prog parse_result :=
  match mtd_bf1, mtd_bf2 with
  | Some d1, Some d2 =>
      if negb (mem_buf mem) then parse_err (- ENOMEM)
      else
        let* bf1 := sercomm_bootflag_value d1 in
        let* bf2 := sercomm_bootflag_value d2 in
        let* bf2 :=
          (if (bf1 =? bf2) && (0 <=? bf2)
           then do* modify (fun c => (bf_erase 0 (mtd_size d2) c).2) in ret (- ENOENT)
           else ret bf2) in
        let '((active_off, active_size), inactive) := choose_image bf1 bf2 in
        let* r := parse_bcm_wfi np (mem_parse mem) active_off active_size false in
        finish_split (mem_parts mem) inactive r
  | _, _ => parse_err (- ENOENT)
  end.
End wfi.
