(* ===== verification/MtdSplitWfiSpec.v ===== *)
(** What the splitter for Broadcom whole flash images guarantees: the search for a
    file finds the first directory entry of that name behind the mark of OpenWrt, and
    the partitions divide the active one of two images. *)

From stdpp Require Import base list numbers strings.
From Stdlib Require Import ZArith Lia.
From S2P Require Import Prelude Platform Bytes MtdSplit MtdSplitSpec MtdSplitTheorems MtdSplitWfi.
Local Open Scope Z_scope.
Local Open Scope cprog_scope.

(** * The search in a list of entries

    The reference for [jffs2_find_file]: the first entry that is [wanted] and not a
    [mark] counts, and it counts as valid when a mark is in front of it. *)
Section search.
Context {E : Type} (mark wanted : E -> bool).

Fixpoint search (valid : bool) (l : list E) : bool + bool * E :=
  match l with
  | [] => inl valid
  | e :: l => if mark e then search true l else if wanted e then inr (valid, e) else search valid l
  end.

Lemma search_app valid l1 l2 :
  search valid (l1 ++ l2) =
    match search valid l1 with inl v => search v l2 | inr r => inr r end.
Proof.
  revert valid. induction l1 as [|e l1 IH]; intros; [done|]. cbn.
  destruct (mark e); [done|]. by destruct (wanted e).
Qed.

Definition hit (e : E) : Prop := negb (mark e) && wanted e = true.

#[global] Instance hit_dec e : Decision (hit e).
Proof. unfold hit. apply _. Defined.

Lemma search_find valid l :
  search valid l =
    match list_find hit l with
    | None => inl (valid || existsb mark l)
    | Some (i, e) => inr (valid || existsb mark (take i l), e)
    end.
Proof.
  revert valid. induction l as [|e l IH]; intros; cbn; [by rewrite orb_false_r|].
  destruct (decide (hit e)) as [Hh|Hh]; unfold hit in Hh.
  - apply andb_prop in Hh as [Hm%negb_true_iff Hw]. rewrite Hm, Hw. cbn. by rewrite orb_false_r.
  - assert ((if mark e then search true l else if wanted e then inr (valid, e) else search valid l)
      = search (valid || mark e) l) as ->.
    { destruct (mark e); [by rewrite orb_true_r|]. rewrite orb_false_r. cbn in Hh. by destruct (wanted e). }
    rewrite IH. destruct (list_find hit l) as [[i x]|]; cbn; by rewrite orb_assoc.
Qed.
End search.

Lemma search_map {E F} (f : E -> F) mark wanted valid l :
  search mark wanted valid (map f l) =
    match search (mark ∘ f) (wanted ∘ f) valid l with
    | inl v => inl v | inr (v, e) => inr (v, f e)
    end.
Proof.
  revert valid. induction l as [|e l IH]; intros; [done|]. cbn.
  destruct (mark (f e)); [done|]. by destruct (wanted (f e)).
Qed.

Lemma c_string_id l : 0 ∉ l -> c_string l = l.
Proof.
  induction l as [|b l IH]; [done|]. intros [Hb Hl]%not_elem_of_cons. cbn.
  destruct (Z.eqb_spec b 0); [done|]. by rewrite IH.
Qed.

Lemma loff_t_id z : - 2 ^ 63 <= z < 2 ^ 63 -> loff_t z = z.
Proof.
  intros Hz. destruct (decide (0 <= z)); [apply loff_t_small; lia|]. unfold loff_t, u64.
  rewrite <- (Z.mod_add z 1) by lia. rewrite Z.mod_small by lia.
  destruct (Z.ltb_spec (z + 1 * 2 ^ 64) (2 ^ 63)); lia.
Qed.

(** * Blocks of directory entries *)

Section blocks.
Context `{A : Arch} `{!ArchLaws A} (crc32 : Z -> list Z -> Z) {chip : Type} (m : mtd_dev chip).

Definition dirent_head (buf : list Z) (o : Z) : bool :=
  (cpu_field buf o 2 =? JFFS2_MAGIC_BITMASK) && (cpu_field buf (o + 2) 2 =? JFFS2_NODETYPE_DIRENT).
Definition dirent_at (buf : list Z) (o : Z) : bool :=
  dirent_head buf o && negb (cpu_field buf (o + 20) 4 =? 0) &&
  (cpu_field buf (o + 32) 4 =? jffs2_dirent_crc crc32 buf o).

(** The name of an entry, and the entries whose name starts with [s]. *)
Definition dirent_name (buf : list Z) (o : Z) : list Z :=
  slice buf (o + 40) (cpu_field buf (o + 28) 1).
Definition starts (s buf : list Z) (o : Z) : bool :=
  bool_decide (slice buf (o + 40) (Z.of_nat (length s)) = s).

(** A block the search is safe on: nothing in its last bytes looks like an entry, and
    the entries have the length of their name at least, which has no zeros, and end in
    the block, with room for the names they are compared with. *)
Record block_fits (room : Z) (buf : list Z) : Prop := {
  bf_length : Z.of_nat (length buf) = mtd_erasesize m;
  bf_bytes : Forall is_byte buf;
  bf_head o : 0 <= o < mtd_erasesize m -> o mod 4 = 0 -> dirent_head buf o = true ->
    o + 40 <= mtd_erasesize m;
  bf_node o : 0 <= o < mtd_erasesize m -> o mod 4 = 0 -> dirent_at buf o = true ->
    o + 40 + room <= mtd_erasesize m /\
    40 + cpu_field buf (o + 28) 1 <= cpu_field buf (o + 4) 4 /\
    o + cpu_field buf (o + 4) 4 <= mtd_erasesize m /\ 0 ∉ dirent_name buf o
}.

(** The entries of a block in the order of the walk. *)
Fixpoint dirents (n : nat) (buf : list Z) (o : Z) : list Z :=
  match n with
  | O => []
  | S n =>
      if o <? mtd_erasesize m then
        if dirent_at buf o then o :: dirents n buf ((o + cpu_field buf (o + 4) 4 + 3) / 4 * 4)
        else dirents n buf (o + 4)
      else []
  end.

(** What the search returns of an entry. *)
Definition name_out (want : option bool) (buf : list Z) (o : Z) : out_name :=
  match want with
  | None => no_name
  | Some granted =>
      (if granted then Some (dirent_name buf o) else None, cpu_field buf (o + 28) 1)
  end.

Lemma cpu_load_in (buf : list Z) off len (s : chip) :
  0 <= off -> 0 <= len -> off + len <= Z.of_nat (length buf) ->
  cpu_load buf off len s = Ret (cpu_field buf off len) s.
Proof. intros. unfold cpu_load. by rewrite in_bounds_true by lia. Qed.

Lemma memcmp_in (buf : list Z) off (t : list Z) (s : chip) :
  0 <= off -> off + Z.of_nat (length t) <= Z.of_nat (length buf) ->
  memcmp_eq buf off t s = Ret (bool_decide (slice buf off (Z.of_nat (length t)) = t)) s.
Proof. intros. unfold memcmp_eq. by rewrite in_bounds_true by lia. Qed.

Lemma next_node_eq o t : 0 <= o + t <= 2 ^ 31 -> next_node o t = (o + t + 3) / 4 * 4.
Proof.
  intros H. unfold next_node. rewrite (u32_small (o + t)) by lia. rewrite u32_small by lia.
  apply (@land_align mips32 _). change (@long_bits mips32) with 32. lia.
Qed.

Lemma align_bounds x eb : eb mod 4 = 0 -> x <= eb -> x <= (x + 3) / 4 * 4 <= eb.
Proof.
  intros He Hx. apply Z.div_exact in He; [|lia].
  pose proof (Z.div_mod (x + 3) 4 ltac:(lia)). pose proof (Z.mod_pos_bound (x + 3) 4 ltac:(lia)).
  lia.
Qed.

Section block.
Context (room : Z) (buf : list Z) (Hfit : block_fits room buf).
Context (Heb : mtd_erasesize m mod 4 = 0) (Hbound : 0 < mtd_erasesize m <= 2 ^ 31).

Lemma dirent_valid_eq o (s : chip) :
  0 <= o < mtd_erasesize m -> o mod 4 = 0 ->
  jffs2_dirent_valid crc32 buf o s = Ret (dirent_at buf o) s.
Proof using Hfit Heb.
  intros Ho Ho4. pose proof (bf_length _ _ Hfit) as Hl. pose proof (bf_head _ _ Hfit o Ho Ho4) as Hh.
  assert (o + 4 <= mtd_erasesize m).
  { apply Z.div_exact in Ho4, Heb; [|lia..]. lia. }
  unfold jffs2_dirent_valid, bind, dirent_at, dirent_head in *.
  rewrite !cpu_load_in by lia. destruct (_ =? JFFS2_MAGIC_BITMASK); cbn [negb andb] in *; [|done].
  rewrite !cpu_load_in by lia. destruct (_ =? JFFS2_NODETYPE_DIRENT); cbn [negb andb] in *; [|done].
  specialize (Hh eq_refl). rewrite !cpu_load_in by lia. destruct (_ =? 0); cbn [negb andb]; [done|].
  by rewrite !cpu_load_in by lia.
Qed.

Lemma store_name_eq want o (s : chip) :
  0 <= o < mtd_erasesize m -> o mod 4 = 0 -> dirent_at buf o = true ->
  store_name want buf o s = Ret (name_out want buf o) s.
Proof using Hfit.
  intros Ho Ho4 Hd. destruct (bf_node _ _ Hfit o Ho Ho4 Hd) as (_ & Hn & Ht & Hz).
  pose proof (bf_length _ _ Hfit) as Hl.
  pose proof (cpu_field_range buf (o + 28) 1 (bf_bytes _ _ Hfit) ltac:(lia)) as Hr.
  destruct want as [g|]; [|done]. unfold store_name, kstrndup, bind.
  rewrite cpu_load_in by lia. rewrite length_slice by lia. rewrite Z.ltb_irrefl. cbn.
  unfold dirent_name in *. by rewrite c_string_id.
Qed.

Lemma find_in_block_eq name want n o valid (s : chip) :
  Z.of_nat (length name) <= room -> 9 <= room ->
  0 <= o <= mtd_erasesize m -> o mod 4 = 0 -> mtd_erasesize m - o < 4 * Z.of_nat n ->
  find_in_block crc32 m buf name want n (o, valid) s =
    Ret (match search (starts OPENWRT_NAME buf) (starts name buf) valid (dirents n buf o) with
         | inl v => inl v
         | inr (v, p) => inr (if v then (0, name_out want buf p) else (- EINVAL, no_name))
         end) s.
Proof using Hfit Heb Hbound.
  intros Hroom Hroom9. revert o valid. unfold find_in_block.
  induction n as [|n IH]; intros o valid Ho Ho4 Hn; [lia|]. cbn [loop dirents]. unfold bind at 1.
  destruct (Z.ltb_spec o (mtd_erasesize m)) as [Hlt|]; [|done]. unfold bind at 1.
  rewrite dirent_valid_eq by lia. destruct (dirent_at buf o) eqn:Hd; cbn [negb].
  2: { unfold ret at 1. rewrite u32_small by lia. apply IH; [|by apply (boundary_add 4)|lia].
       apply Z.div_exact in Ho4, Heb; [|lia..]. lia. }
  destruct (bf_node _ _ Hfit o ltac:(lia) Ho4 Hd) as (Hr & Hs & Ht & _).
  pose proof (bf_length _ _ Hfit) as Hl.
  pose proof (cpu_field_range buf (o + 28) 1 (bf_bytes _ _ Hfit) ltac:(lia)) as Hns.
  assert (Z.of_nat (length OPENWRT_NAME) = 9) as H9 by reflexivity.
  cbn [search]. unfold bind at 1. rewrite memcmp_in by lia. fold (starts OPENWRT_NAME buf o).
  unfold bind at 1.
  assert ((if starts OPENWRT_NAME buf o then ret false else memcmp_eq buf (o + 40) name) s
    = Ret (negb (starts OPENWRT_NAME buf o) && starts name buf o) s) as ->.
  { destruct (starts OPENWRT_NAME buf o); [done|]. rewrite memcmp_in by lia. done. }
  destruct (starts OPENWRT_NAME buf o); cbn [negb andb]; [|destruct (starts name buf o)].
  2: { destruct valid; cbn [negb]; [|done]. unfold bind. by rewrite store_name_eq by first [lia | exact Hd]. }
  all: unfold bind at 1; rewrite cpu_load_in by lia; unfold ret at 1; rewrite next_node_eq by lia;
    rewrite ?orb_true_r, ?orb_false_r; apply IH;
    [pose proof (align_bounds (o + cpu_field buf (o + 4) 4) _ Heb Ht); lia
    |apply Z.mod_mul; lia
    |pose proof (align_bounds (o + cpu_field buf (o + 4) 4) _ Heb Ht); lia].
Qed.
End block.
End blocks.

(** * Regions of a device with known contents *)

Section image.
Context `{A : Arch} `{!ArchLaws A} (crc32 : Z -> list Z -> Z) {chip : Type} (m : mtd_dev chip).
Context (data : list Z) `{!mtd_image m data}.

Definition wfi_block (b : Z) : list Z := slice data b (mtd_erasesize m).

(** The entries of [n] blocks from [b] on, as pairs of a block and a position in it:
    a block counts if it starts with the magic number of JFFS2. *)
Fixpoint region_entries (n : nat) (b : Z) : list (Z * Z) :=
  match n with
  | O => []
  | S n =>
      (if cpu_field data b 2 =? JFFS2_MAGIC_BITMASK
       then map (pair b) (dirents crc32 m (block_fuel m) (wfi_block b) 0) else []) ++
      region_entries n (b + mtd_erasesize m)
  end.

Definition entry_starts (s : list Z) (e : Z * Z) : bool := starts s (wfi_block e.1) e.2.

(** What a search for [name] returns, given the entries up to the offset [e]. *)
Definition search_result (want : option bool) (e : Z) (r : bool + bool * (Z * Z)) : Z * Z * out_name :=
  match r with
  | inl _ => (- ENOENT, e, no_name)
  | inr (v, (b, p)) =>
      if v then (0, b, name_out want (wfi_block b) p) else (- EINVAL, b, no_name)
  end.

(** The reference for a search in [n] blocks from [off] on: the first entry of that
    name that is no mark, and whether a mark is in front of it. *)
Definition find_spec (name : list Z) (off : Z) (n : nat) (want : option bool) : Z * Z * out_name :=
  let entries := region_entries n off in
  match list_find (hit (entry_starts OPENWRT_NAME) (entry_starts name)) entries with
  | None => (- ENOENT, off + Z.of_nat n * mtd_erasesize m, no_name)
  | Some (i, (b, p)) =>
      if existsb (entry_starts OPENWRT_NAME) (take i entries)
      then (0, b, name_out want (wfi_block b) p)
      else (- EINVAL, b, no_name)
  end.

Section region.
Context (room : Z) (Heb : mtd_erasesize m mod 4 = 0).
Context (Hfits : forall b, boundary (mtd_erasesize m) b -> 0 <= b ->
  b + mtd_erasesize m <= mtd_size m ->
  cpu_field data b 2 = JFFS2_MAGIC_BITMASK -> block_fits crc32 m room (wfi_block b)).

Lemma find_file_loop name want e fuel n off valid c :
  Z.of_nat (length name) <= room -> 9 <= room -> (n < fuel)%nat ->
  boundary (mtd_erasesize m) off -> 0 <= off -> off + Z.of_nat n * mtd_erasesize m = e ->
  e <= mtd_size m ->
  loop fuel (find_file_round crc32 m name want e) (off, valid) c =
    Ret (search_result want e
      (search (entry_starts OPENWRT_NAME) (entry_starts name) valid (region_entries n off))) c.
Proof using Hfits Heb mtd_image0.
  intros Hroom Hroom9. pose proof (mi_eb (m := m)). pose proof (mi_bound (m := m)).
  revert n off valid. induction fuel as [|fuel IH]; intros n off valid Hn Hb Hoff He Hs; [lia|].
  cbn [loop]. unfold bind at 1, find_file_round at 1.
  destruct n as [|n]; cbn [region_entries].
  { assert (off = e) as -> by lia. by rewrite Z.ltb_irrefl. }
  assert (0 <= Z.of_nat n * mtd_erasesize m) by nia.
  destruct (Z.ltb_spec off e); [|lia]. unfold bind at 1, call_mtd_read at 1.
  assert (4 <= mtd_erasesize m) by (apply Z.div_exact in Heb; lia).
  rewrite !loff_t_small by lia. rewrite mi_in by lia. rewrite length_slice by (rewrite ?mi_length; lia).
  change (negb (0 =? 0) || negb (2 =? 2)) with false. cbn iota.
  rewrite cpu_field_slice, Z.add_0_r by lia. rewrite search_app.
  destruct (Z.eqb_spec (cpu_field data off 2) JFFS2_MAGIC_BITMASK) as [Hmag|]; cbn [negb search].
  2: { apply IH; [lia|by apply boundary_add|lia..]. }
  unfold bind at 1, call_mtd_read at 1. rewrite loff_t_small by lia. rewrite mi_in by lia.
  rewrite length_slice by (rewrite ?mi_length; lia). rewrite !Z.eqb_refl. cbn [negb].
  fold (wfi_block off). unfold bind at 1.
  rewrite (find_in_block_eq crc32 m room); [|apply Hfits; (lia || done)|done|lia|done|done|lia|done|].
  2: { unfold block_fuel. pose proof (Z.div_mod (mtd_erasesize m) 2 ltac:(lia)).
       pose proof (Z.mod_pos_bound (mtd_erasesize m) 2 ltac:(lia)). lia. }
  rewrite search_map. change (entry_starts ?s ∘ pair off) with (starts s (wfi_block off)).
  destruct (search _ _ valid _) as [v|[v p]]; [|by destruct v].
  apply IH; [lia|by apply boundary_add|lia..].
Qed.

Lemma find_file_image name off n want c :
  Z.of_nat (length name) <= room -> 9 <= room -> boundary (mtd_erasesize m) off -> 0 <= off ->
  off + Z.of_nat n * mtd_erasesize m <= mtd_size m ->
  jffs2_find_file crc32 m name off (Z.of_nat n * mtd_erasesize m) want c =
    Ret (find_spec name off n want) c.
Proof using Hfits Heb mtd_image0.
  intros Hroom Hroom9 Hb Hoff Hs. pose proof (mi_eb (m := m)). pose proof (mi_bound (m := m)).
  unfold jffs2_find_file. rewrite loff_t_small by nia.
  rewrite (find_file_loop name want _ _ n); [|done|done| |done|done|done|done].
  - rewrite search_find. unfold find_spec. by destruct (list_find _ _) as [[i [b p]]|].
  - unfold eb_fuel. rewrite Z.max_r by nia. rewrite Z.div_mul by lia. lia.
Qed.
End region.
End image.

(** * The partitions *)

Section layout.
Context `{A : Arch} `{!ArchLaws A} (crc32 : Z -> list Z -> Z) {chip : Type} (m : mtd_dev chip).
Context `{!mtd_laws m}.

(** [o] is a block of the region from [off] on. *)
Definition region_block (off o : Z) : Prop := off <= o /\ boundary (mtd_erasesize m) (o - off).

Lemma region_block_next off o : region_block off o -> region_block off (o + mtd_erasesize m).
Proof using mtd_laws0.
  pose proof (ml_eb (m := m)). intros [? Hb]. split; [lia|].
  replace (o + mtd_erasesize m - off) with (o - off + mtd_erasesize m) by lia. by apply boundary_add.
Qed.

Lemma region_block_trans off o p : region_block off o -> region_block o p -> region_block off p.
Proof using mtd_laws0.
  pose proof (ml_eb (m := m)). intros [? H1] [? H2]. split; [lia|]. unfold boundary in *.
  replace (p - off) with (p - o + (o - off)) by lia. by rewrite Z.add_mod, H1, H2 by lia.
Qed.

Lemma region_boundary off o :
  boundary (mtd_erasesize m) off -> region_block off o -> boundary (mtd_erasesize m) o.
Proof using mtd_laws0.
  pose proof (ml_eb (m := m)). unfold boundary. intros H1 [_ H2]. unfold boundary in H2.
  replace o with (o - off + off) by lia. by rewrite Z.add_mod, H1, H2 by lia.
Qed.

(** The partitions of the image at [off]: the boot loader, if it is asked for, ends
    where the firmware starts; the firmware ends with the image and consists of the
    kernel and UBI.  All start at blocks of the image. *)
Definition wfi_layout (off size : Z) (cfe_part : bool) (parts : list mtd_partition) : Prop :=
  exists c k r,
    parts = (if cfe_part then [new_mtd_partition "cferam" c (k - c) MTD_WRITEABLE] else []) ++
            [mk_mtd_partition "firmware" k (off + size - k); mk_mtd_partition "kernel" k (r - k);
             mk_mtd_partition "ubi" r (off + size - r)] /\
    (cfe_part = true -> region_block off c /\ c + mtd_erasesize m <= k) /\
    region_block off k /\ k + mtd_erasesize m <= r /\ region_block off r /\ r < off + size.

Lemma wfi_layout_length off size cfe_part parts :
  wfi_layout off size cfe_part parts -> length parts = if cfe_part then 4%nat else 3%nat.
Proof. intros (c & k & r & -> & _). by destruct cfe_part. Qed.

(** The rounds of a walk over the blocks of a region. *)
Lemma region_rounds off size : (Z.to_nat ((off + size + mtd_erasesize m - off) / mtd_erasesize m)
  < eb_fuel m (Z.max 0 size))%nat.
Proof using mtd_laws0.
  pose proof (ml_eb (m := m)). unfold eb_fuel.
  replace (off + size + mtd_erasesize m - off) with (size + 1 * mtd_erasesize m) by lia.
  rewrite Z.div_add by lia.
  assert (size / mtd_erasesize m <= Z.max 0 size / mtd_erasesize m) by (apply Z.div_le_mono; lia).
  assert (0 <= Z.max 0 size / mtd_erasesize m) by (apply Z.div_pos; lia). lia.
Qed.

Lemma wp_ubifs_find off size c :
  0 <= off -> 0 <= off + size <= mtd_size m ->
  wp (ubifs_find m off size) (fun '(rc, o) _ =>
    rc <= 0 /\ (rc = 0 -> region_block off o /\ o < off + size)) c.
Proof using mtd_laws0.
  intros Hoff Hsize. pose proof (ml_eb (m := m)). pose proof (ml_bound (m := m)).
  unfold ubifs_find. rewrite loff_t_small by lia.
  apply (wp_loop (fun o (_ : chip) => region_block off o)
    (fun o _ => Z.to_nat ((off + size + mtd_erasesize m - o) / mtd_erasesize m))).
  - intros o s Ho. destruct (Z.ltb_spec o (off + size)) as [Hlt|]; [|by apply wp_ret].
    assert (off <= o) by apply Ho. rewrite loff_t_small by lia.
    pose proof (rounds_step _ _ _ ltac:(eassumption) Hlt). pose proof (region_block_next _ _ Ho).
    apply wp_bind. unfold wp, call_mtd_read. destruct (mtd_read m _ 4 s) as [[rc b] s'].
    destruct (_ || _); [done|]. by destruct (_ =? UBI_MAGIC).
  - unfold region_block, boundary. rewrite Z.sub_diag, Z.mod_0_l by lia. lia.
  - apply region_rounds.
Qed.

Section fits.
Context (room : Z) (Hroom : 9 <= room) (Heb : mtd_erasesize m mod 4 = 0).

(** Blocks that are read after their magic number fit. *)
Context (Hfits : forall o b magic c c' c'', boundary (mtd_erasesize m) o ->
  mtd_read m o 2 c = ((0, magic), c') -> cpu_field magic 0 2 = JFFS2_MAGIC_BITMASK ->
  mtd_read m o (mtd_erasesize m) c' = ((0, b), c'') ->
  Z.of_nat (length b) = mtd_erasesize m -> block_fits crc32 m room b).

Lemma wp_find_file name off size want c :
  Z.of_nat (length name) <= room -> boundary (mtd_erasesize m) off -> 0 <= off ->
  0 <= off + size <= mtd_size m ->
  wp (jffs2_find_file crc32 m name off size want) (fun '(rc, o, _) _ =>
    rc <= 0 /\ (rc = 0 -> region_block off o /\ o + mtd_erasesize m <= mtd_size m /\ o < off + size)) c.
Proof using Hroom Heb Hfits mtd_laws0.
  intros Hname Hbo Hoff Hsize. pose proof (ml_eb (m := m)). pose proof (ml_bound (m := m)).
  unfold jffs2_find_file. rewrite loff_t_small by lia.
  apply (wp_loop (fun '(o, _) (_ : chip) => region_block off o)
    (fun '(o, _) _ => Z.to_nat ((off + size + mtd_erasesize m - o) / mtd_erasesize m))).
  - intros [o valid] s Ho. unfold find_file_round.
    destruct (Z.ltb_spec o (off + size)) as [Hlt|]; [|by apply wp_ret].
    assert (off <= o) by apply Ho. rewrite loff_t_small by lia.
    pose proof (rounds_step _ _ _ ltac:(eassumption) Hlt). pose proof (region_block_next _ _ Ho).
    apply wp_bind. unfold wp at 1, call_mtd_read at 1. rewrite loff_t_small by lia.
    destruct (mtd_read m o 2 s) as [[rc mg] s'] eqn:E1.
    destruct (Z.eqb_spec rc 0) as [->|]; cbn [negb orb]; [|by apply wp_ret].
    destruct (negb _); [by apply wp_ret|].
    destruct (Z.eqb_spec (cpu_field mg 0 2) JFFS2_MAGIC_BITMASK) as [Em|]; cbn [negb]; [|by apply wp_ret].
    apply wp_bind. unfold wp at 1, call_mtd_read. rewrite loff_t_small by lia.
    destruct (mtd_read m o (mtd_erasesize m) s') as [[rc b] s''] eqn:E2.
    destruct (Z.eqb_spec rc 0) as [->|]; cbn [negb];
      [|apply wp_ret; pose proof (ml_code _ _ _ _ _ _ E2); lia].
    destruct (Z.eqb_spec (Z.of_nat (length b)) (mtd_erasesize m)) as [El|]; cbn [negb]; [|by apply wp_ret].
    destruct (ml_read _ _ _ _ _ E2 ltac:(lia) El) as (_ & _ & Hin).
    apply wp_bind. unfold wp at 1. rewrite (find_in_block_eq crc32 m room);
      [|by eapply (Hfits _ _ _ _ _ _ (region_boundary _ _ Hbo Ho))|done|lia|done|done|lia|done|].
    2: { unfold block_fuel. pose proof (Z.div_mod (mtd_erasesize m) 2 ltac:(lia)).
         pose proof (Z.mod_pos_bound (mtd_erasesize m) 2 ltac:(lia)). lia. }
    destruct (search _ _ _ _) as [v|[[|] p]]; apply wp_ret; [done|by split|done].
  - unfold region_block, boundary. rewrite Z.sub_diag, Z.mod_0_l by lia. lia.
  - apply region_rounds.
Qed.
Lemma wp_parse_bcm_wfi np granted off size cfe_part c :
  10 <= room -> cferam_name_len (cferam_name np) <= room ->
  boundary (mtd_erasesize m) off -> 0 <= off -> 0 <= size -> off + size <= mtd_size m ->
  wp (parse_bcm_wfi crc32 m np granted off size cfe_part)
    (fun r _ => parsed (wfi_layout off size cfe_part) r) c.
Proof using Hroom Heb Hfits mtd_laws0.
  intros Hroom10 Hname Hbo Hoff Hsize Hs. pose proof (ml_eb (m := m)). pose proof (ml_bound (m := m)).
  unfold parse_bcm_wfi. apply wp_bind.
  apply wp_mono with (Q := fun '(rc, c, k) (_ : chip) => rc <= 0 /\ (rc = 0 ->
    region_block off k /\ k <= mtd_size m /\ u64 c = c /\
    (cfe_part = true -> region_block off c /\ c + mtd_erasesize m <= k))).
  { destruct cfe_part.
    2: { apply wp_ret. split; [done|]. intros _. unfold region_block, boundary.
         rewrite Z.sub_diag, Z.mod_0_l by lia. split_and!; [lia|done|lia|done|done]. }
    apply wp_bind. wp_call (wp_find_file (take (Z.to_nat (cferam_name_len (cferam_name np))) (cferam_name np)));
      [rewrite length_take; lia|done|lia|lia|].
    intros [[rc o] out] s [Hrc Ho]. apply wp_ret. split; [done|]. intros Hz. destruct (Ho Hz) as (Hb & Hd & Hl).
    assert (off <= o) by apply Hb. rewrite loff_t_small, u64_small by lia.
    split_and!; [by apply region_block_next|lia|done|done]. }
  intros [[rc c1] k0] s [Hrc Hk0]. destruct (Z.eqb_spec rc 0) as [Hz|]; cbn [negb];
    [|apply wp_parse_err; lia].
  destruct (Hk0 Hz) as (Hkb & Hkm & Hc1 & Hcfe). assert (off <= k0) by apply Hkb.
  rewrite loff_t_id by lia. apply wp_bind.
  wp_call (wp_find_file KERNEL_NAME); [exact Hroom10|by eapply region_boundary|lia|lia|].
  intros [[rc2 k] out] s2 [Hrc2 Hk]. destruct (Z.eqb_spec rc2 0) as [Hz2|]; cbn [negb];
    [|apply wp_parse_err; lia].
  destruct (Hk Hz2) as (Hkk & Hkin & _). assert (k0 <= k) by apply Hkk.
  rewrite (loff_t_small (k + _)), loff_t_id by lia. apply wp_bind.
  wp_call wp_ubifs_find; [lia|lia|].
  intros [rc3 r] s3 [Hrc3 Hr]. destruct (Z.eqb_spec rc3 0) as [Hz3|]; cbn [negb];
    [|apply wp_parse_err; lia].
  destruct (Hr Hz3) as (Hrb & Hrl). assert (k + mtd_erasesize m <= r) by apply Hrb.
  destruct granted; cbn [negb]; [|by apply wp_parse_err].
  pose proof (region_block_trans _ _ _ Hkb Hkk) as Hk'.
  apply wp_ret. right. eexists. split; [done|]. exists c1, k, r. split_and!; [|..|done|done| |lia].
  - rewrite !(u64_small (size - _)), !(u64_small (r - _)), !(u64_small k), !(u64_small r) by lia.
    replace (size - (k - off)) with (off + size - k) by lia.
    replace (size - (r - off)) with (off + size - r) by lia. f_equal. destruct cfe_part; [|done].
    destruct (Hcfe eq_refl) as [[? _] ?]. rewrite Hc1. by rewrite (u64_small (k - c1)) by lia.
  - intros Hc. destruct (Hcfe Hc). split; [done|lia].
  - eapply region_block_trans; [|done]. by apply region_block_next.
Qed.
End fits.
End layout.
