(* ===== verification/MtdSplitWfiTheorems.v ===== *)
(** The theorems on the splitter for Broadcom whole flash images, on devices with
    known contents: the search for files, the choice between two images by their boot
    flags, and the partitions of the active one. *)

From stdpp Require Import base list numbers strings.
From Stdlib Require Import ZArith Lia.
From S2P Require Import Prelude Platform Bytes.
From S2P Require Import MtdSplit MtdSplitSpec MtdSplitTheorems MtdSplitWfi MtdSplitWfiSpec.
Local Open Scope Z_scope.
Local Open Scope cprog_scope.

(** The boot flag a name tells: three digits behind the prefix. *)
Definition flag_number (s : list Z) : Z :=
  char_to_num (s !!! 7%nat) * 100 + char_to_num (s !!! 8%nat) * 10 + char_to_num (s !!! 9%nat).
Definition flag_of (out : out_name) : Z :=
  match out with
  | (None, _) => - ENOENT
  | (Some s, len) =>
      if (10 <=? len) && bool_decide (take 7 s = CFE_MAGIC_PFX) then flag_number s else - ENOENT
  end.

Lemma arr_get_app {S} (l l' : list Z) i (s : S) :
  0 <= i < Z.of_nat (length l) -> arr_get (l ++ l') i s = Ret (l !!! Z.to_nat i) s.
Proof.
  intros Hi. unfold arr_get. destruct (Z.ltb_spec i 0); [lia|].
  rewrite lookup_app_l by lia. rewrite list_lookup_total_alt.
  destruct (lookup_lt_is_Some_2 l (Z.to_nat i)) as [x ->]; [lia|done].
Qed.

Lemma flag_digits_app {chip} (l l' : list Z) (s : chip) :
  10 <= Z.of_nat (length l) -> flag_digits (l ++ l') 7 s = Ret (flag_number l) s.
Proof.
  intros Hl. unfold flag_digits, bind. rewrite !arr_get_app by lia. unfold ret, flag_number.
  f_equal. change (Z.to_nat (7 + 0)) with 7%nat. change (Z.to_nat (7 + 1)) with 8%nat.
  change (Z.to_nat (7 + 2)) with 9%nat. lia.
Qed.

Lemma bootflag_eq {chip} (out : out_name) (c : chip) :
  (forall s, out.1 = Some s -> Z.of_nat (length s) = out.2) ->
  cferam_bootflag_value out.1 out.2 c = Ret (flag_of out) c.
Proof.
  destruct out as [[s|] len]; [|done]. cbn [fst snd flag_of]. intros Hl. specialize (Hl s eq_refl).
  unfold cferam_bootflag_value, CFE_MAGIC_LEN.
  replace (10 <=? len) with (negb (len <? 10)) by (by rewrite Z.leb_antisym).
  destruct (Z.ltb_spec len 10); [done|]. cbn [negb andb].
  unfold bind. assert (Z.of_nat (length CFE_MAGIC_PFX) = 7) as H7 by reflexivity.
  rewrite memcmp_in by (rewrite ?length_app; lia). rewrite H7.
  assert (slice (s ++ [0]) 0 7 = take 7 s) as ->.
  { unfold slice. cbn [Z.to_nat]. rewrite drop_0, take_app_le by lia. done. }
  destruct (bool_decide _); [|done]. apply flag_digits_app. lia.
Qed.

Section image.
Context `{A : Arch} `{!ArchLaws A} (crc32 : Z -> list Z -> Z) {chip : Type} (m : mtd_dev chip).
Context (data : list Z) `{!mtd_image m data} (room : Z).

(** The blocks that start with the magic number of JFFS2 fit. *)
Definition blocks_fit : Prop :=
  mtd_erasesize m mod 4 = 0 /\ 10 <= room /\
  forall b, boundary (mtd_erasesize m) b -> 0 <= b -> b + mtd_erasesize m <= mtd_size m ->
    cpu_field data b 2 = JFFS2_MAGIC_BITMASK -> block_fits crc32 m room (wfi_block m data b).

(** C33: [jffs2_find_file] on [n] blocks without read errors whose entries fit: of all
    entries in the order of the flash it takes the first one whose name starts with the
    given name and not with 1-openwrt.  It returns 0, the block and the name of that
    entry if an entry 1-openwrt is in front of it, [-EINVAL] if none is, and [-ENOENT]
    if no entry starts with it; it terminates and no access is outside the buffer. *)
Theorem jffs2_find_file_first name off n want c :
  blocks_fit -> Z.of_nat (length name) <= room -> boundary (mtd_erasesize m) off -> 0 <= off ->
  off + Z.of_nat n * mtd_erasesize m <= mtd_size m ->
  jffs2_find_file crc32 m name off (Z.of_nat n * mtd_erasesize m) want c =
    Ret (find_spec crc32 m data name off n want) c.
Proof using mtd_image0.
  intros (Heb & Hroom & Hfits) ? ? ? ?. eapply find_file_image; eauto. lia.
Qed.

Section fit.
Context (Hfit : blocks_fit).

(** The entries of a block and of a region are entries of the flash. *)
Lemma dirents_valid buf n o p :
  Forall is_byte buf -> 0 <= o -> o mod 4 = 0 -> p ∈ dirents crc32 m n buf o ->
  0 <= p < mtd_erasesize m /\ p mod 4 = 0 /\ dirent_at crc32 buf p = true.
Proof.
  intros Hb. revert o. induction n as [|n IH]; intros o Ho Ho4; [by intros ?%not_elem_of_nil|].
  cbn. destruct (Z.ltb_spec o (mtd_erasesize m)); [|by intros ?%not_elem_of_nil].
  destruct (dirent_at crc32 buf o) eqn:Hd.
  - intros [->|Hp]%elem_of_cons; [done|]. eapply IH; [| |done].
    + pose proof (cpu_field_range buf (o + 4) 4 Hb ltac:(lia)).
      assert (0 <= (o + cpu_field buf (o + 4) 4 + 3) / 4) by (apply Z.div_pos; lia). lia.
    + apply Z.mod_mul. lia.
  - apply IH; [lia|]. by apply (boundary_add 4).
Qed.

Lemma region_valid n b e :
  boundary (mtd_erasesize m) b -> 0 <= b -> b + Z.of_nat n * mtd_erasesize m <= mtd_size m -> e ∈ region_entries crc32 m data n b ->
  block_fits crc32 m room (wfi_block m data e.1) /\
  0 <= e.2 < mtd_erasesize m /\ e.2 mod 4 = 0 /\ dirent_at crc32 (wfi_block m data e.1) e.2 = true.
Proof using Hfit mtd_image0.
  destruct Hfit as (_ & _ & Hfits). pose proof (mi_eb (m := m)).
  revert b. induction n as [|n IH]; intros b Hbb Hb Hn; [by intros ?%not_elem_of_nil|]. cbn.
  assert (0 <= Z.of_nat n * mtd_erasesize m) by nia.
  intros [He|He]%elem_of_app; [|by apply (IH (b + mtd_erasesize m)); [apply boundary_add|lia|lia|]].
  destruct (Z.eqb_spec (cpu_field data b 2) JFFS2_MAGIC_BITMASK) as [Hm|];
    [|by apply not_elem_of_nil in He].
  apply list_elem_of_fmap in He as (p & -> & Hp). cbn.
  assert (block_fits crc32 m room (wfi_block m data b)) as Hbf by (apply Hfits; (lia || done)).
  split; [done|]. by eapply dirents_valid in Hp; [|apply (bf_bytes _ _ _ _ Hbf)|..].
Qed.

(** The name a search returns has the length it returns. *)
Lemma find_spec_name name off n s :
  boundary (mtd_erasesize m) off -> 0 <= off -> off + Z.of_nat n * mtd_erasesize m <= mtd_size m ->
  (find_spec crc32 m data name off n (Some true)).2.1 = Some s ->
  Z.of_nat (length s) = (find_spec crc32 m data name off n (Some true)).2.2.
Proof using Hfit mtd_image0.
  intros Hbo Hoff Hn. unfold find_spec. destruct (list_find _ _) as [[i [b p]]|] eqn:E; [|done].
  destruct (existsb _ _); [|done]. cbn. intros [= <-].
  apply list_find_Some in E as (He & _ & _). apply list_elem_of_lookup_2 in He.
  destruct (region_valid n off (b, p) Hbo Hoff Hn He) as (Hbf & Hp & Hp4 & Hd). cbn in *.
  destruct (bf_node _ _ _ _ Hbf p Hp Hp4 Hd) as (_ & H1 & H2 & _).
  pose proof (bf_length _ _ _ _ Hbf).
  pose proof (cpu_field_range (wfi_block m data b) (p + 28) 1 (bf_bytes _ _ _ _ Hbf) ltac:(lia)).
  unfold dirent_name. apply length_slice; lia.
Qed.

(** Reads of blocks give blocks that fit. *)
Lemma reads_fit o b magic c c' c'' :
  boundary (mtd_erasesize m) o ->
  mtd_read m o 2 c = ((0, magic), c') -> cpu_field magic 0 2 = JFFS2_MAGIC_BITMASK ->
  mtd_read m o (mtd_erasesize m) c' = ((0, b), c'') ->
  Z.of_nat (length b) = mtd_erasesize m -> block_fits crc32 m room b.
Proof using Hfit mtd_image0.
  destruct Hfit as (Heb & _ & Hfits). pose proof (mi_eb (m := m)). intros Hbo H1 Hm H2 _.
  assert (0 <= o /\ o + mtd_erasesize m <= mtd_size m) as [Ho He].
  { destruct (decide (o < 0 \/ mtd_size m < o + mtd_erasesize m)); [|lia].
    by rewrite mi_out in H2 by done. }
  assert (4 <= mtd_erasesize m) by (apply Z.div_exact in Heb; lia).
  rewrite mi_in in H1, H2 by lia. injection H1 as <- <-. injection H2 as <- <-.
  rewrite cpu_field_slice, Z.add_0_r in Hm by lia. by apply Hfits.
Qed.

(** * Success *)

Definition ubi_at (o : Z) : Prop := o + 4 <= mtd_size m /\ be_field data o 4 = UBI_MAGIC.

(** UBI in the region is found. *)
Lemma ubifs_found off size r c :
  0 <= off -> off + size <= mtd_size m -> region_block m off r -> r < off + size ->
  ubi_at r ->
  wp (ubifs_find m off size) (fun '(rc, _) _ => rc = 0) c.
Proof using Hfit mtd_image0.
  intros Hoff Hsize [Hr Hrb] Hrl [Hr4 Hu]. pose proof (mtd_image_laws m data _). pose proof (mi_eb (m := m)) as Heb. pose proof (mi_bound (m := m)).
  unfold ubifs_find. rewrite loff_t_small by lia.
  apply (wp_loop (fun o (_ : chip) => region_block m off o /\ o <= r)
    (fun o _ => Z.to_nat ((off + size + mtd_erasesize m - o) / mtd_erasesize m))).
  - intros o s [Ho Hor]. destruct (Z.ltb_spec o (off + size)) as [Hlt|]; [|lia].
    assert (off <= o) by apply Ho. pose proof (rounds_step _ _ _ Heb Hlt).
    apply wp_bind. unfold wp, call_mtd_read. rewrite !loff_t_small by lia. rewrite mi_in by lia.
    rewrite length_slice by (rewrite ?mi_length; lia). change (negb (0 =? 0) || negb (4 =? 4)) with false.
    cbn iota. unfold be_field at 1. rewrite slice_slice, Z.add_0_r by lia. fold (be_field data o 4).
    destruct (Z.eqb_spec (be_field data o 4) UBI_MAGIC); [done|]. split; [|done].
    split; [by apply (region_block_next m)|]. destruct (decide (o = r)) as [->|]; [done|].
    pose proof (boundary_lt _ (o - off) (r - off) Heb ltac:(apply Ho) Hrb). lia.
  - split; [|done]. unfold region_block, boundary. rewrite Z.sub_diag, Z.mod_0_l by lia. lia.
  - apply (region_rounds m).
Qed.

(** What an image needs: a kernel behind a mark in the [n] blocks from [o] on, with UBI
    in a block behind it; and, for images with a boot loader, the boot loader behind a
    mark in front of it. *)
Definition kernel_found (o : Z) (n : nat) : Prop :=
  exists k r, (find_spec crc32 m data KERNEL_NAME o n None).1 = (0, k) /\
    region_block m k r /\ k < r < o + Z.of_nat n * mtd_erasesize m /\ ubi_at r.

Definition cfe_search_name (np : option wfi_node) : list Z :=
  take (Z.to_nat (cferam_name_len (cferam_name np))) (cferam_name np).

Definition bootable (np : option wfi_node) (cfe_part : bool) (off : Z) (n : nat) : Prop :=
  if cfe_part then
    exists c n', (find_spec crc32 m data (cfe_search_name np) off n None).1 = (0, c) /\
      c + mtd_erasesize m + Z.of_nat n' * mtd_erasesize m = off + Z.of_nat n * mtd_erasesize m /\
      kernel_found (c + mtd_erasesize m) n'
  else kernel_found off n.

Lemma cfe_search_length np :
  cferam_name_len (cferam_name np) <= room -> Z.of_nat (length (cfe_search_name np)) <= room.
Proof using Hfit.
  destruct Hfit as (_ & ? & _). intros. unfold cfe_search_name. rewrite length_take. lia.
Qed.

(** A search that succeeds, with the place of what it found. *)
Lemma find_file_found name off n b c :
  boundary (mtd_erasesize m) off -> 0 <= off -> off + Z.of_nat n * mtd_erasesize m <= mtd_size m -> Z.of_nat (length name) <= room ->
  (find_spec crc32 m data name off n None).1 = (0, b) ->
  (exists out, jffs2_find_file crc32 m name off (Z.of_nat n * mtd_erasesize m) None c = Ret (0, b, out) c) /\
  region_block m off b /\ b + mtd_erasesize m <= mtd_size m.
Proof using Hfit mtd_image0.
  intros Hbo Hoff Hn Hl Hf. pose proof (mtd_image_laws m data _). pose proof (mi_eb (m := m)).
  destruct Hfit as (Heb & Hroom & Hfits).
  pose proof (wp_find_file crc32 m room ltac:(lia) Heb reads_fit name off
    (Z.of_nat n * mtd_erasesize m) None c Hl Hbo Hoff ltac:(nia)) as Hw.
  assert (jffs2_find_file crc32 m name off (Z.of_nat n * mtd_erasesize m) None c =
    Ret (find_spec crc32 m data name off n None) c) as E by (eapply find_file_image; eauto; lia).
  unfold wp in Hw. rewrite E in Hw |- *. destruct (find_spec _ _ _ _ _ _ _) as [[rc o] out].
  cbn in Hf. injection Hf as -> ->. destruct Hw as [_ Hw]. destruct (Hw eq_refl) as (? & ? & _).
  split; [by exists out|done].
Qed.

Lemma parse_bcm_wfi_succeeds np cfe_part off n c :
  cferam_name_len (cferam_name np) <= room -> boundary (mtd_erasesize m) off -> 0 <= off ->
  off + Z.of_nat n * mtd_erasesize m <= mtd_size m -> bootable np cfe_part off n ->
  wp (parse_bcm_wfi crc32 m np true off (Z.of_nat n * mtd_erasesize m) cfe_part)
    (fun r _ => 0 < r.1) c.
Proof using Hfit mtd_image0.
  intros Hname Hbo Hoff Hn Hboot. pose proof (mi_eb (m := m)) as Heb. pose proof (mi_bound (m := m)).
  pose proof (mtd_image_laws m data _).
  unfold parse_bcm_wfi. apply wp_bind. fold (cfe_search_name np).
  apply wp_mono with (Q := fun '(rc, _, o) (_ : chip) => rc = 0 /\
    boundary (mtd_erasesize m) o /\ off <= o <= mtd_size m /\
    exists n', o + Z.of_nat n' * mtd_erasesize m = off + Z.of_nat n * mtd_erasesize m /\ kernel_found o n').
  { destruct cfe_part; [|apply wp_ret; split_and!; [done|done|lia|nia|by exists n]].
    destruct Hboot as (cf & n' & Hf & Hn' & Hk).
    destruct (find_file_found _ _ _ _ c Hbo Hoff Hn (cfe_search_length np Hname) Hf) as ([out E] & Hc & Hcs).
    pose proof (region_boundary m _ _ Hbo Hc). destruct Hc.
    unfold wp, bind. rewrite E. cbn. rewrite loff_t_small by lia.
    split_and!; [done|by apply boundary_add|lia|lia|by exists n']. }
  intros [[rc cf] o] s (-> & Hob & Ho & n' & Hn' & k & r & Hf & [? Hr] & Hkr & Hu). cbn [Z.eqb negb].
  replace (Z.of_nat n * mtd_erasesize m - (o - off)) with (Z.of_nat n' * mtd_erasesize m) by lia.
  rewrite loff_t_small by nia. apply wp_bind.
  destruct (find_file_found KERNEL_NAME o n' k s Hob ltac:(lia) ltac:(lia)
    (proj1 (proj2 Hfit)) Hf) as ([out E] & [Hk _] & Hks).
  unfold wp at 1. rewrite E. cbn [Z.eqb negb].
  assert (k + mtd_erasesize m <= r) as Hkr'.
  { pose proof (boundary_lt _ 0 (r - k) Heb ltac:(done) Hr). lia. }
  rewrite (loff_t_small (k + _)), loff_t_id by nia. apply wp_bind.
  eapply wp_mono; [apply (ubifs_found _ _ r); [lia|lia| |lia|exact Hu]|].
  - split; [done|]. unfold boundary in *. rewrite <- (Z.mod_add _ 1) by lia.
    by replace (r - (k + mtd_erasesize m) + 1 * mtd_erasesize m) with (r - k) by lia.
  - intros [rc3 r3] s3 ->. cbn [Z.eqb negb]. apply wp_ret. cbn [fst]. by destruct cfe_part.
Qed.

(** * Two images *)

(** The flag of the image in the [n] blocks from [off] on. *)
Definition wfi_flag (n : nat) (off : Z) : Z :=
  flag_of (find_spec crc32 m data CFERAM_NAME off n (Some true)).2.

(** The result for two images of [n] blocks with the given flags.  The image with the
    higher flag, the first one if they are equal, is divided and the other one is one
    partition; or the code is negative and the array has the two images undivided. *)
Definition split_result (np : option wfi_node) (granted cfe_part : bool) (n : nat) (bf1 bf2 : Z)
    (r : parse_result) : Prop :=
  let half := Z.of_nat n * mtd_erasesize m in
  let '(active, inactive) :=
    if bf2 <=? bf1 then (0, mk_mtd_partition "img2" half half)
    else (half, mk_mtd_partition "img1" 0 half) in
  (exists parts, wfi_layout m active half cfe_part parts /\
     r = (Z.of_nat (length parts) + 1, Some (parts ++ [inactive]))) \/
  (r.1 < 0 /\ r.2 = Some [mk_mtd_partition "img1" 0 half; mk_mtd_partition "img2" half half] /\
   ~ (granted = true /\ bootable np cfe_part active n)).

Lemma half_sizes n :
  mtd_size m = 2 * (Z.of_nat n * mtd_erasesize m) ->
  let half := Z.of_nat n * mtd_erasesize m in
  img2_off m = half /\ img1_size m = half /\ img2_size m = half.
Proof using mtd_image0.
  intros Hsize half. fold half in Hsize. pose proof (mi_eb (m := m)). pose proof (mi_bound (m := m)).
  assert (0 <= half) by (subst half; nia).
  unfold img1_size, img2_size, img2_off. replace (mtd_size m / 2) with half
    by (rewrite Hsize, Z.mul_comm, Z.div_mul; lia).
  rewrite (loff_t_small half), !loff_t_small by (rewrite ?(loff_t_small half); lia). lia.
Qed.

(** The tail of the two parsers. *)
Lemma wp_active_image np granted cfe_part n bf1 bf2 c :
  cferam_name_len (cferam_name np) <= room -> mtd_size m = 2 * (Z.of_nat n * mtd_erasesize m) ->
  wp (let '((active_off, active_size), inactive) := choose_image m bf1 bf2 in
      let* r := parse_bcm_wfi crc32 m np granted active_off active_size cfe_part in
      finish_split m true inactive r) (fun r _ => split_result np granted cfe_part n bf1 bf2 r) c.
Proof using Hfit mtd_image0.
  intros Hname Hsize. pose proof (mi_eb (m := m)) as Heb. pose proof (mi_bound (m := m)).
  pose proof (mtd_image_laws m data _). set (half := Z.of_nat n * mtd_erasesize m) in *.
  assert (0 <= half) by (subst half; nia).
  destruct (half_sizes n Hsize) as (E2 & E1 & Es).
  unfold choose_image, split_result. fold half. rewrite E1, E2, Es.
  set (ch := if bf2 <=? bf1 then _ else _).
  set (sp := if bf2 <=? bf1 then _ else _).
  assert (exists active inactive, ch = ((active, half), inactive) /\ sp = (active, inactive) /\
    boundary (mtd_erasesize m) active /\ 0 <= active /\ active + half <= mtd_size m)
    as (active & inactive & -> & -> & Hab & Ha & Has).
  { subst ch sp. rewrite !u64_small by lia. destruct (bf2 <=? bf1); eexists _, _; split_and!; try (done || lia).
    apply Z.mod_mul. lia. }
  apply wp_bind. destruct Hfit as (Heb4 & Hroom & _).
  pose proof (wp_parse_bcm_wfi crc32 m room ltac:(lia) Heb4 reads_fit np granted active half cfe_part c
    Hroom Hname Hab Ha ltac:(lia) Has) as Hw.
  assert (granted = true -> bootable np cfe_part active n ->
    wp (parse_bcm_wfi crc32 m np granted active half cfe_part) (fun r _ => 0 < r.1) c) as Hs.
  { intros ->. by apply parse_bcm_wfi_succeeds. }
  unfold wp in *. destruct (parse_bcm_wfi _ _ _ _ _ _ _ c) as [[rc pp] s| |]; [|done..].
  unfold finish_split. destruct Hw as [[Hrc Hpp]|(parts & Hr & Hl)]; cbn in *.
  - destruct (Z.ltb_spec 0 rc); [lia|]. cbn. right. rewrite E1, E2, Es, !u64_small by lia.
    split_and!; [done|done|]. intros [Hg Hb]. specialize (Hs Hg Hb). lia.
  - injection Hr as -> ->. pose proof (wfi_layout_length _ _ _ _ _ Hl).
    destruct (Z.ltb_spec 0 (Z.of_nat (length parts))); [|destruct cfe_part; lia]. cbn. left.
    exists parts. split; [done|]. by rewrite Nat2Z.id, firstn_all.
Qed.
End fit.

(** C32: [mtdsplit_parse_bcm_wfi_split] on a flash with two images of [n] blocks each
    compares the numbers in the names of their boot loaders and divides the image with
    the higher one, the first one if they are equal: boot loader, firmware, kernel and
    UBI at blocks of that image, the firmware up to its end; the other image is one
    more partition.  Reads succeed; this fails only if the image is not bootable or its
    partition array cannot be allocated, and then the code is negative though the array has both images. *)
Theorem wfi_split_newest np granted n c :
  blocks_fit -> cferam_name_len (cferam_name np) <= room ->
  mtd_size m = 2 * (Z.of_nat n * mtd_erasesize m) ->
  wp (mtdsplit_parse_bcm_wfi_split crc32 m np (mk_wfi_mem true true true granted true))
    (fun r _ => split_result np granted true n (wfi_flag n 0)
                  (wfi_flag n (Z.of_nat n * mtd_erasesize m)) r) c.
Proof using mtd_image0.
  intros Hfit Hname Hsize. pose proof (mi_eb (m := m)) as Heb. pose proof (mi_bound (m := m)).
  assert (0 <= Z.of_nat n * mtd_erasesize m) by nia.
  destruct (half_sizes n Hsize) as (E2 & E1 & Es).
  unfold mtdsplit_parse_bcm_wfi_split. cbn [mem_buf mem_name1 mem_name2 mem_parse mem_parts negb].
  rewrite E1, E2, Es. unfold wfi_flag.
  assert (Z.of_nat (length CFERAM_NAME) <= room) by (etrans; [|apply Hfit]; done).
  assert (forall off, boundary (mtd_erasesize m) off -> 0 <= off ->
    off + Z.of_nat n * mtd_erasesize m <= mtd_size m -> forall s,
    jffs2_find_file crc32 m CFERAM_NAME off (Z.of_nat n * mtd_erasesize m) (Some true) s =
      Ret (find_spec crc32 m data CFERAM_NAME off n (Some true)) s) as Hfind.
  { intros. destruct Hfit as (? & ? & ?). eapply find_file_image; eauto. lia. }
  pose proof (fun off => find_spec_name Hfit CFERAM_NAME off n) as Hlen.
  assert (boundary (mtd_erasesize m) (Z.of_nat n * mtd_erasesize m)) by (apply Z.mod_mul; lia).
  apply wp_bind. eapply wp_intro; [apply Hfind; (lia || done)|]. specialize (Hlen 0) as Hlen1.
  destruct (find_spec crc32 m data CFERAM_NAME 0 n (Some true)) as [[rc1 o1] [s1 l1]].
  apply wp_bind. eapply wp_intro; [apply Hfind; (lia || done)|]. specialize (Hlen (Z.of_nat n * mtd_erasesize m)).
  destruct (find_spec crc32 m data CFERAM_NAME (Z.of_nat n * mtd_erasesize m) n (Some true))
    as [[rc2 o2] [s2 l2]]. cbn [fst snd] in *.
  apply wp_bind. eapply wp_intro; [apply (bootflag_eq (s1, l1)); intros; apply Hlen1; (lia || done)|].
  apply wp_bind. eapply wp_intro; [apply (bootflag_eq (s2, l2)); intros; apply Hlen; (lia || done)|].
  by apply wp_active_image.
Qed.

(** [mtdsplit_parse_bcm_wfi] divides the whole device in the same way. *)
Theorem wfi_parse_layout node mem c :
  blocks_fit -> cferam_name_len (cferam_name (Some node)) <= room ->
  wp (mtdsplit_parse_bcm_wfi crc32 m (Some node) mem)
    (fun r _ => parsed (wfi_layout m 0 (mtd_size m) (negb (dt_no_cferam node))) r) c.
Proof using mtd_image0.
  intros Hfit Hname. pose proof (mi_eb (m := m)). pose proof (mi_bound (m := m)).
  pose proof (mtd_image_laws m data _). pose proof (ml_size (m := m)).
  unfold mtdsplit_parse_bcm_wfi. destruct (mem_buf mem); [|by apply wp_parse_err]. cbn [negb].
  rewrite loff_t_small by lia. destruct Hfit as (Heb4 & Hroom & Hfits) eqn:E. clear E.
  apply (wp_parse_bcm_wfi crc32 m room); [lia|done| |done|done|done|lia..].
  apply reads_fit. done.
Qed.
End image.

(** * Sercomm *)

(** The flag in a partition: the digits of its first block with the prefix. *)
Fixpoint ser_flag {chip} (d : mtd_dev chip) (data : list Z) (n : nat) (o : Z) : Z :=
  match n with
  | O => - ENOENT
  | S n =>
      if o <? mtd_size d then
        if (o + 10 <=? mtd_size d) && bool_decide (slice data o 7 = SERCOMM_MAGIC_PFX)
        then flag_number (slice data o 10)
        else ser_flag d data n (o + mtd_erasesize d)
      else - ENOENT
  end.

Lemma sercomm_flag_eq {chip} (m d : mtd_dev chip) data `{!mtd_image d data} c :
  10 <= mtd_erasesize m ->
  sercomm_bootflag_value m d c = Ret (ser_flag d data (eb_fuel d (mtd_size d)) 0) c.
Proof.
  intros Hm. pose proof (mi_eb (m := d)) as Heb. pose proof (mi_bound (m := d)).
  pose proof (mtd_image_laws d data _). pose proof (ml_size (m := d)).
  pose proof (region_rounds d 0 (mtd_size d)) as Hr. rewrite Z.max_r, Z.add_0_l in Hr by done.
  unfold sercomm_bootflag_value, SERCOMM_MAGIC_LEN.
  match goal with |- loop _ ?b _ _ = _ => set (body := b) end.
  enough (forall n o, 0 <= o <= mtd_size d + mtd_erasesize d ->
    (Z.to_nat ((mtd_size d + mtd_erasesize d - o) / mtd_erasesize d) < n)%nat ->
    loop n body o c = Ret (ser_flag d data n o) c) as Hloop by (apply Hloop; [lia|done]).
  clear Hr. induction n as [|n IH]; intros o Ho Hn; [lia|].
  cbn [loop ser_flag]. unfold bind at 1, body at 1. rewrite u64_small by lia.
  destruct (Z.ltb_spec o (mtd_size d)) as [Hlt|]; [|done].
  pose proof (rounds_step _ _ _ Heb Hlt). unfold bind at 1, call_mtd_read at 1.
  rewrite !loff_t_small by lia. destruct (Z.leb_spec (o + 10) (mtd_size d)) as [H10|H10]; cbn [andb].
  2: { rewrite mi_out by lia. cbn [length]. destruct (Z.ltb_spec (mtd_erasesize m) (Z.of_nat 0)); [lia|].
       apply IH; lia. }
  rewrite mi_in by lia. pose proof (length_slice data o 10 ltac:(lia) ltac:(lia)
    ltac:(rewrite mi_length; lia)) as Hl. rewrite Hl.
  destruct (Z.ltb_spec (mtd_erasesize m) 10); [lia|]. change (negb (0 =? 0) || negb (10 =? 10)) with false.
  cbn iota. assert (Z.of_nat (length SERCOMM_MAGIC_PFX) = 7) as H7 by reflexivity.
  unfold bind at 1. rewrite memcmp_in by lia. rewrite H7, slice_slice, Z.add_0_r by lia.
  destruct (bool_decide _); cbn [negb]; [|apply IH; lia].
  unfold bind. rewrite <- (app_nil_r (slice data o 10)) at 1. by rewrite flag_digits_app by lia.
Qed.

(** [mtdsplit_parse_ser_wfi] takes the flags from two partitions of their own and
    divides the image with the higher one, without a boot loader; flags that are equal
    make the first image the active one. *)
Theorem ser_wfi_split_newest `{A : Arch} `{!ArchLaws A} crc32 {chip} (m d1 d2 : mtd_dev chip)
    data data1 data2 `{!mtd_image m data} `{!mtd_image d1 data1} `{!mtd_image d2 data2}
    room bf_erase np granted n c :
  blocks_fit crc32 m data room -> cferam_name_len (cferam_name np) <= room ->
  10 <= mtd_erasesize m -> mtd_size m = 2 * (Z.of_nat n * mtd_erasesize m) ->
  wp (mtdsplit_parse_ser_wfi crc32 m (Some d1) (Some d2) bf_erase np (mk_wfi_mem true true true granted true))
    (fun r _ => split_result crc32 m data np granted false n
      (ser_flag d1 data1 (eb_fuel d1 (mtd_size d1)) 0)
      (ser_flag d2 data2 (eb_fuel d2 (mtd_size d2)) 0) r) c.
Proof.
  intros Hfit Hname Heb Hsize. unfold mtdsplit_parse_ser_wfi. cbn [mem_buf mem_parse mem_parts negb].
  apply wp_bind. eapply wp_intro; [by apply (sercomm_flag_eq m d1 data1)|].
  apply wp_bind. eapply wp_intro; [by apply (sercomm_flag_eq m d2 data2)|].
  set (f1 := ser_flag d1 _ _ _). set (f2 := ser_flag d2 _ _ _). apply wp_bind.
  apply wp_mono with (Q := fun bf2 _ => (bf2 <=? f1) = (f2 <=? f1)).
  - destruct (Z.eqb_spec f1 f2) as [<-|]; cbn [andb]; [|by apply wp_ret].
    destruct (Z.leb_spec 0 f1); [|by apply wp_ret]. apply wp_bind, wp_modify, wp_ret.
    rewrite Z.leb_refl. apply Z.leb_le. change (- ENOENT) with (-2). lia.
  - intros bf2 s E. unfold split_result. rewrite <- E.
    by apply (wp_active_image crc32 m data room Hfit np granted false n f1 bf2).
Qed.
