(* ===== verification/MtdSplitWitness.v ===== *)
(** Concrete devices for the firmware parsers, and the theorems at work on them. *)

From stdpp Require Import base list numbers strings.
From Stdlib Require Import ZArith Lia.
From S2P Require Import Prelude Platform Bytes CStrings MtdSplit MtdSplitParsers MtdSplitSpec MtdSplitTheorems MtdSplitWfi MtdSplitWfiSpec MtdSplitWfiTheorems.
Local Open Scope Z_scope.

(** A flash device with the given contents. *)
Definition image_dev (name : string) (eb : Z) (data : list Z) : mtd_dev unit :=
  let size := Z.of_nat (length data) in
  mk_mtd_dev name size eb eb 0
    (fun off len c =>
       (if len <=? 0 then (0, [])
        else if (0 <=? off) && (off + len <=? size) then (0, slice data off len)
        else (- EINVAL, []), c)) true true.

Lemma image_dev_image name eb data :
  Forall is_byte data -> 0 < eb -> Z.of_nat (length data) + eb <= 2 ^ 32 ->
  mtd_image (image_dev name eb data) data.
Proof.
  intros Hb Heb Hsize. split; cbn -[Z.add]; [done..| | |].
  - intros off len c ? ? ?. destruct (Z.leb_spec len 0); [lia|].
    destruct (Z.leb_spec 0 off); [|lia]. by destruct (Z.leb_spec (off + len) (Z.of_nat (length data))); [|lia].
  - intros off len c ?. by destruct (Z.leb_spec len 0); [|lia].
  - intros off len c ? ?. destruct (Z.leb_spec len 0); [lia|].
    destruct (Z.leb_spec 0 off); [|done].
    by destruct (Z.leb_spec (off + len) (Z.of_nat (length data))); [lia|].
Qed.

Definition is_byteb (b : Z) : bool := (0 <=? b) && (b <? 256).

Lemma bytes_checked data : forallb is_byteb data = true -> Forall is_byte data.
Proof.
  intros H. apply Forall_forall. intros b Hb.
  rewrite forallb_forall in H. specialize (H b ltac:(by apply list_elem_of_In)).
  unfold is_byteb in H. apply andb_prop in H as [?%Z.leb_le ?%Z.ltb_lt]. by split.
Qed.

(** A block of [n] bytes that starts with the given ones. *)
Definition block (n : nat) (l : list Z) : list Z := take n (l ++ replicate n 0).

Definition squashfs_magic : list Z := [0x68; 0x73; 0x71; 0x73].

Ltac image_bytes := apply image_dev_image; [apply bytes_checked; vm_compute; reflexivity
  |vm_compute; reflexivity|vm_compute; discriminate].

(** * Witnesses *)

(** An LZMA kernel in the first block, a squashfs in the second. *)
Definition lzma_data : list Z :=
  block 256 [0x5d; 0; 0; 128; 0; 0; 0; 0; 0] ++ block 256 squashfs_magic ++ block 512 [].
Definition lzma_dev : mtd_dev unit := image_dev "firmware" 256 lzma_data.

#[local] Instance lzma_image : mtd_image lzma_dev lzma_data.
Proof. image_bytes. Qed.

Lemma lzma_result : @mtdsplit_parse_lzma aarch64 _ lzma_dev tt =
  Ret (2, Some [mk_mtd_partition "kernel" 0 256; mk_mtd_partition "rootfs" 256 768]) tt.
Proof. vm_compute. reflexivity. Qed.

Lemma front_kernel_parsers_witness :
  front_kernel lzma_dev [mk_mtd_partition "kernel" 0 256; mk_mtd_partition "rootfs" 256 768].
Proof.
  pose proof (@front_kernel_parsers aarch64 _ _ lzma_dev _ (@mtdsplit_parse_lzma aarch64 _ lzma_dev) tt
    ltac:(vm_compute; discriminate) ltac:(vm_compute; discriminate) (or_introl eq_refl)) as H.
  unfold wp in H. rewrite lzma_result in H. destruct H as [[H _]|(p & E & H)]; [discriminate H|].
  injection E as _ <-. exact H.
Defined.

Lemma find_rootfs_first_witness :
  @first_rootfs aarch64 _ lzma_dev lzma_data 256 1024 (inr (256, MTDSPLIT_PART_TYPE_SQUASHFS)).
Proof.
  pose proof (@find_rootfs_first aarch64 _ _ lzma_dev lzma_data _ 256 1024 tt ltac:(lia)
    ltac:(vm_compute; split; discriminate)) as H.
  unfold wp in H.
  assert (@mtd_find_rootfs_from aarch64 _ lzma_dev 256 1024 tt
    = Ret (inr (256, MTDSPLIT_PART_TYPE_SQUASHFS)) tt) as E by (vm_compute; reflexivity).
  rewrite E in H. destruct H as [_ H]. exact H.
Defined.

(** A uImage in the first block, a squashfs in the second. *)
Definition uimage_header (size : list Z) : list Z :=
  [0x27; 0x05; 0x19; 0x56; 0; 0; 0; 0; 0; 0; 0; 0] ++ size ++ replicate 12 0 ++ [5; 0; 2; 0].
Definition uimage_data : list Z :=
  block 256 (uimage_header [0; 0; 0; 100]) ++ block 256 squashfs_magic.
Definition uimage_dev : mtd_dev unit := image_dev "firmware" 256 uimage_data.

#[local] Instance uimage_image : mtd_image uimage_dev uimage_data.
Proof. image_bytes. Qed.

Lemma image_parsers_layout_witness :
  image_layout uimage_dev
    [mk_mtd_partition "kernel" 0 256; mk_mtd_partition "rootfs" 256 256].
Proof.
  pose proof (@image_parsers_layout aarch64 _ _ uimage_dev _ None
    (@mtdsplit_parse_uimage aarch64 _ uimage_dev None) tt
    ltac:(vm_compute; discriminate) ltac:(vm_compute; discriminate) (or_introl eq_refl)) as H.
  unfold wp in H.
  assert (@mtdsplit_parse_uimage aarch64 _ uimage_dev None tt = Ret (2,
    Some [mk_mtd_partition "kernel" 0 256; mk_mtd_partition "rootfs" 256 256]) tt) as E
    by (vm_compute; reflexivity).
  rewrite E in H. destruct H as [[H _]|(p & Ep & H)]; [discriminate H|]. injection Ep as _ <-. exact H.
Defined.

(** A root file system at the start and, in the last block, the header of a uImage
    that is larger than the device. *)
Definition past_data : list Z :=
  block 256 squashfs_magic ++ block 256 (uimage_header [0; 1; 0; 0]).
Definition past_dev : mtd_dev unit := image_dev "firmware" 256 past_data.

(** A uImage in the last erase block that is too large is refused by the scan,
    which still leaves with its size: the parser then reports a kernel partition that
    starts at the end of the device. *)
Theorem uimage_past_end :
  mtd_image past_dev past_data /\
  exists size, @mtdsplit_parse_uimage aarch64 _ past_dev None tt =
    Ret (2, Some [mk_mtd_partition "rootfs" 0 (mtd_size past_dev);
                  mk_mtd_partition "kernel" (mtd_size past_dev) size]) tt /\ 0 < size.
Proof.
  split; [image_bytes|]. exists 65600. split; [vm_compute; reflexivity|lia].
Qed.

(** A SEAMA image whose kernel ends where a squashfs starts. *)
Definition seama_data : list Z :=
  block 128 ([0x5e; 0xa3; 0xa4; 0x17; 0; 0; 0; 0; 0; 0; 0; 100]) ++ block 896 squashfs_magic.
Definition seama_dev : mtd_dev unit := image_dev "firmware" 256 seama_data.

#[local] Instance seama_image : mtd_image seama_dev seama_data.
Proof. image_bytes. Qed.

Lemma header_parsers_layout_witness :
  header_layout seama_dev
    [mk_mtd_partition "kernel" 28 100; mk_mtd_partition "rootfs" 128 896].
Proof.
  pose proof (@header_parsers_layout aarch64 _ _ seama_dev _
    (@mtdsplit_parse_seama aarch64 _ seama_dev) tt eq_refl eq_refl
    ltac:(vm_compute; discriminate) (or_intror (or_introl eq_refl))) as H.
  unfold wp in H.
  assert (@mtdsplit_parse_seama aarch64 _ seama_dev tt = Ret (2,
    Some [mk_mtd_partition "kernel" 28 100; mk_mtd_partition "rootfs" 128 896]) tt) as E
    by (vm_compute; reflexivity).
  rewrite E in H. destruct H as [[H _]|(p & Ep & H)]; [discriminate H|]. injection Ep as _ <-. exact H.
Defined.

(** A squashfs of 300 bytes in a partition of four blocks. *)
Definition squashfs_data : list Z :=
  block 1024 (squashfs_magic ++ replicate 36 0 ++ [44; 1; 0; 0; 0; 0; 0; 0]).
Definition squashfs_dev : mtd_dev unit := image_dev "rootfs" 256 squashfs_data.

#[local] Instance squashfs_image : mtd_image squashfs_dev squashfs_data.
Proof. image_bytes. Qed.

Lemma squashfs_split_aligned_witness :
  wp (@mtdsplit_parse_squashfs aarch64 _ squashfs_dev)
    (fun r _ => r = (1, Some [mk_mtd_partition "rootfs_data" 512 512])) tt /\
  boundary 256 (0 + 512).
Proof.
  pose proof (@squashfs_split_aligned aarch64 _ _ squashfs_dev squashfs_data _ tt
    ltac:(vm_compute; discriminate) ltac:(vm_compute; reflexivity) ltac:(vm_compute; discriminate)
    ltac:(vm_compute; discriminate) ltac:(vm_compute; reflexivity)) as H.
  unfold wp in H |- *.
  assert (@mtdsplit_parse_squashfs aarch64 _ squashfs_dev tt
    = Ret (1, Some [mk_mtd_partition "rootfs_data" 512 512]) tt) as E by (vm_compute; reflexivity).
  rewrite E in H |- *. split; [reflexivity|].
  destruct H as [[H _]|(p & Ep & o & sz & -> & _ & H & _)]; [discriminate H|].
  injection Ep as <- <-. exact H.
Defined.

(** A FIT image of 300 bytes in the second block, a squashfs in the fourth. *)
Definition fit_data : list Z :=
  block 256 [] ++ block 512 [0xd0; 0x0d; 0xfe; 0xed; 0; 0; 1; 44] ++ block 256 squashfs_magic.
Definition fit_dev : mtd_dev unit := image_dev "firmware" 256 fit_data.

#[local] Instance fit_image : mtd_image fit_dev fit_data.
Proof. image_bytes. Qed.

Lemma fit_parse_first_witness :
  wp (@mtdsplit_fit_parse aarch64 _ fit_dev) (fun r _ =>
    r = (2, Some [mk_mtd_partition "kernel" 256 512; mk_mtd_partition "rootfs" 768 256])) tt /\
  fit_at fit_dev fit_data 256.
Proof.
  pose proof (@fit_parse_first aarch64 _ _ fit_dev fit_data _ tt ltac:(vm_compute; discriminate)
    ltac:(vm_compute; reflexivity) ltac:(vm_compute; discriminate) ltac:(vm_compute; reflexivity)) as H.
  unfold wp in H |- *.
  assert (@mtdsplit_fit_parse aarch64 _ fit_dev tt = Ret (2,
    Some [mk_mtd_partition "kernel" 256 512; mk_mtd_partition "rootfs" 768 256]) tt) as E
    by (vm_compute; reflexivity).
  rewrite E in H |- *. split; [reflexivity|].
  destruct H as [[H _]|(p & Ep & b & o & t & -> & _ & _ & Hf & _)]; [discriminate H|].
  assert (b = 256) as -> by (unfold mk_mtd_partition in Ep; congruence). exact Hf.
Defined.

(** A [firmware] partition whose first node has the length 0, and one without nodes. *)
Definition node_data : list Z := block 512 [0x85; 0x19; 1; 0xe0; 0; 0; 0; 0].
Definition node_dev : mtd_dev unit := image_dev "firmware" 256 node_data.

#[local] Instance node_image : mtd_image node_dev node_data.
Proof. image_bytes. Qed.

Lemma cfe_bootfs_hangs_witness :
  @mtdsplit_cfe_bootfs_parse aarch64 _ node_dev 1000 tt = Diverge.
Proof.
  apply (@cfe_bootfs_hangs aarch64 _ _ node_dev node_data _); vm_compute; first [reflexivity|discriminate].
Defined.

(** Every byte is 1, so no node has the length 0. *)
Definition ones_data : list Z := replicate 512 1.
Definition ones_dev : mtd_dev unit := image_dev "firmware" 256 ones_data.

#[local] Instance ones_image : mtd_image ones_dev ones_data.
Proof. image_bytes. Qed.

Lemma ones_lengths off b c c' :
  mtd_read ones_dev off sizeof_jffs2_raw_dirent c = ((0, b), c') ->
  Z.of_nat (length b) = sizeof_jffs2_raw_dirent -> 0 < @cpu_field aarch64 b 4 4.
Proof.
  cbn -[slice ones_data]. intros H Hl.
  destruct (_ && _); [|discriminate H]. injection H as <- _.
  unfold slice, ones_data. rewrite drop_replicate, take_replicate.
  unfold slice, ones_data in Hl. rewrite drop_replicate, take_replicate, length_replicate in Hl.
  assert ((Z.to_nat sizeof_jffs2_raw_dirent `min` (512 - Z.to_nat off) = 40)%nat) as ->
    by (unfold sizeof_jffs2_raw_dirent in *; lia).
  vm_compute. reflexivity.
Qed.

Lemma cfe_bootfs_returns_witness :
  wp (@mtdsplit_cfe_bootfs_parse aarch64 _ ones_dev 200)
    (fun r _ => parsed (front_kernel ones_dev) r) tt.
Proof.
  apply (@cfe_bootfs_returns aarch64 _ _ ones_dev _); [vm_compute; discriminate|vm_compute; reflexivity|].
  exact ones_lengths.
Defined.

Lemma jffs2_magic_order_witness :
  @rootfs_magic aarch64 [0x85; 0x19; 0x03; 0x20] = None /\
  @rootfs_magic mips32 [0x19; 0x85; 0x20; 0x03] = Some MTDSPLIT_PART_TYPE_JFFS2.
Proof.
  split; [apply (@jffs2_magic_order aarch64)|apply (@jffs2_magic_order mips32)];
    first [vm_compute; reflexivity | apply bytes_checked; vm_compute; reflexivity].
Defined.

(** * Whole flash images for the Broadcom parser: a flash with two images, and blocks it does
    not survive *)

(** * Deciding that blocks fit *)

Section check.
Context `{A : Arch} (crc32 : Z -> list Z -> Z) {chip : Type} (m : mtd_dev chip) (room : Z).

Definition node_fitsb (buf : list Z) (o : Z) : bool :=
  implb (dirent_head buf o) (o + 40 <=? mtd_erasesize m) &&
  implb (dirent_at crc32 buf o)
    ((o + 40 + room <=? mtd_erasesize m) && (40 + cpu_field buf (o + 28) 1 <=? cpu_field buf (o + 4) 4) &&
     (o + cpu_field buf (o + 4) 4 <=? mtd_erasesize m) && forallb (fun b => negb (b =? 0)) (dirent_name buf o)).

Definition block_fitsb (buf : list Z) : bool :=
  (Z.of_nat (length buf) =? mtd_erasesize m) && forallb is_byteb buf &&
  forallb (fun k => node_fitsb buf (k * 4)) (seqZ 0 (mtd_erasesize m)).

Lemma block_fitsb_sound buf : 0 < mtd_erasesize m -> block_fitsb buf = true -> block_fits crc32 m room buf.
Proof.
  intros Heb [[Hl%Z.eqb_eq Hb%bytes_checked]%andb_prop Hn]%andb_prop. rewrite forallb_forall in Hn.
  assert (forall o, 0 <= o < mtd_erasesize m -> o mod 4 = 0 -> node_fitsb buf o = true) as Hnode.
  { intros o Ho Ho4. apply Z.div_exact in Ho4; [|lia]. rewrite Ho4, Z.mul_comm. apply Hn.
    apply list_elem_of_In, elem_of_seqZ. lia. }
  split; [done|done|..]; intros o Ho Ho4 Hd; specialize (Hnode o Ho Ho4);
    apply andb_prop in Hnode as [H1 H2].
  - rewrite Hd in H1. by apply Z.leb_le.
  - rewrite Hd in H2. cbn in H2. rewrite !andb_true_iff, !Z.leb_le in H2.
    destruct H2 as (((? & ?) & ?) & Hz). split_and!; [done..|]. rewrite forallb_forall in Hz.
    intros Hin. apply list_elem_of_In, Hz in Hin. done.
Qed.

Definition blocks_fitb (data : list Z) : bool :=
  forallb (fun k =>
    let b := k * mtd_erasesize m in
    implb ((b + mtd_erasesize m <=? mtd_size m) && (cpu_field data b 2 =? JFFS2_MAGIC_BITMASK))
      (block_fitsb (wfi_block m data b))) (seqZ 0 (mtd_size m)).

Lemma blocks_fitb_sound data :
  0 < mtd_erasesize m -> mtd_erasesize m mod 4 = 0 -> 10 <= room ->
  blocks_fitb data = true -> blocks_fit crc32 m data room.
Proof.
  intros Heb Heb4 Hroom Hb. split_and!; [done|done|]. intros b Hbb Hb0 Hbs Hm.
  unfold blocks_fitb in Hb. rewrite forallb_forall in Hb.
  apply Z.div_exact in Hbb; [|lia]. specialize (Hb (b / mtd_erasesize m)).
  cbv zeta in Hb. rewrite Z.mul_comm, <- Hbb in Hb.
  apply block_fitsb_sound; [done|].
  rewrite (proj2 (Z.leb_le _ _) Hbs), (proj2 (Z.eqb_eq _ _) Hm) in Hb. apply Hb.
  apply list_elem_of_In, elem_of_seqZ. split; [apply Z.div_pos; lia|].
  assert (b / mtd_erasesize m <= b) by (apply Z.div_le_upper_bound; nia). lia.
Qed.
End check.

(** * A flash with two images *)

(** The CRC of the kernel, without inversion. *)
Definition kernel_crc32 (crc : Z) (l : list Z) : Z := foldl crc_byte crc l.

(** A directory entry of a little-endian target, padded to four bytes. *)
Definition wfi_dirent (name : list Z) : list Z :=
  let n := Z.of_nat (length name) in
  let head := le_bytes 2 JFFS2_MAGIC_BITMASK ++ le_bytes 2 JFFS2_NODETYPE_DIRENT ++
    le_bytes 4 (40 + n) ++ replicate 12 0 ++ le_bytes 4 7 ++ replicate 4 0 ++ [n; 8; 0; 0] in
  let node := head ++ le_bytes 4 (kernel_crc32 0 head) ++ replicate 4 0 ++ name in
  node ++ replicate (Z.to_nat ((- Z.of_nat (length node)) mod 4)) 255.

Definition wfi_file (name : list Z) : list Z := block 128 (wfi_dirent OPENWRT_NAME ++ wfi_dirent name).
Definition wfi_image (cferam : string) : list Z :=
  wfi_file (ascii_bytes cferam) ++ wfi_file KERNEL_NAME ++ block 128 [0x55; 0x42; 0x49; 0x23].

Definition wfi_data : list Z := Eval vm_compute in wfi_image "cferam.002" ++ wfi_image "cferam.010".
Definition wfi_dev : mtd_dev unit := image_dev "flash" 128 wfi_data.

#[local] Instance wfi_dev_image : mtd_image wfi_dev wfi_data.
Proof. image_bytes. Qed.

Lemma wfi_dev_fits : @blocks_fit aarch64 kernel_crc32 unit wfi_dev wfi_data 10.
Proof. apply (@blocks_fitb_sound aarch64); [done|done|done|vm_compute; reflexivity]. Qed.

Lemma jffs2_find_file_first_witness :
  @jffs2_find_file aarch64 kernel_crc32 unit wfi_dev KERNEL_NAME 0 (Z.of_nat 3 * mtd_erasesize wfi_dev)
    None tt = Ret (@find_spec aarch64 kernel_crc32 unit wfi_dev wfi_data KERNEL_NAME 0 3 None) tt /\
  @find_spec aarch64 kernel_crc32 unit wfi_dev wfi_data KERNEL_NAME 0 3 None = (0, 128, no_name).
Proof.
  split; [|vm_compute; reflexivity].
  apply (@jffs2_find_file_first aarch64 kernel_crc32 unit wfi_dev wfi_data wfi_dev_image 10);
    [exact wfi_dev_fits|vm_compute; discriminate|reflexivity|lia|vm_compute; discriminate].
Defined.

Definition wfi_parts : list mtd_partition :=
  [new_mtd_partition "cferam" 384 128 MTD_WRITEABLE; mk_mtd_partition "firmware" 512 256;
   mk_mtd_partition "kernel" 512 128; mk_mtd_partition "ubi" 640 128;
   mk_mtd_partition "img1" 0 384].

Lemma wfi_split_newest_witness :
  @mtdsplit_parse_bcm_wfi_split aarch64 kernel_crc32 unit wfi_dev None
    (mk_wfi_mem true true true true true) tt = Ret (5, Some wfi_parts) tt /\
  @wfi_flag aarch64 kernel_crc32 unit wfi_dev wfi_data 3 0 = 2 /\
  @wfi_flag aarch64 kernel_crc32 unit wfi_dev wfi_data 3 384 = 10 /\
  @split_result aarch64 kernel_crc32 unit wfi_dev wfi_data None true true 3
    (@wfi_flag aarch64 kernel_crc32 unit wfi_dev wfi_data 3 0)
    (@wfi_flag aarch64 kernel_crc32 unit wfi_dev wfi_data 3 (Z.of_nat 3 * mtd_erasesize wfi_dev))
    (5, Some wfi_parts).
Proof.
  assert (@mtdsplit_parse_bcm_wfi_split aarch64 kernel_crc32 unit wfi_dev None
    (mk_wfi_mem true true true true true) tt = Ret (5, Some wfi_parts) tt) as E by (vm_compute; reflexivity).
  split; [exact E|]. split; [vm_compute; reflexivity|]. split; [vm_compute; reflexivity|].
  pose proof (@wfi_split_newest aarch64 kernel_crc32 unit wfi_dev wfi_data wfi_dev_image 10 None true 3 tt
    wfi_dev_fits ltac:(vm_compute; discriminate) ltac:(vm_compute; reflexivity)) as H.
  unfold wp in H. rewrite E in H. exact H.
Defined.

(** * Blocks the splitter does not survive *)

(** A block with the mark and the length 0 is walked for ever. *)
Definition zero_length_data : list Z :=
  let head := le_bytes 2 JFFS2_MAGIC_BITMASK ++ le_bytes 2 JFFS2_NODETYPE_DIRENT ++
    replicate 16 0 ++ le_bytes 4 7 ++ replicate 4 0 ++ [9; 8; 0; 0] in
  block 128 (head ++ le_bytes 4 (kernel_crc32 0 head) ++ replicate 4 0 ++ OPENWRT_NAME).

Lemma wfi_zero_length_hangs :
  @jffs2_find_file aarch64 kernel_crc32 unit (image_dev "flash" 128 zero_length_data)
    KERNEL_NAME 0 128 None tt = Diverge.
Proof. vm_compute. reflexivity. Qed.

(** The first bytes of an entry in the last word of a block: the rest of the entry is
    read behind the end of the buffer. *)
Definition tail_data : list Z :=
  le_bytes 2 JFFS2_MAGIC_BITMASK ++ replicate 122 255 ++
  le_bytes 2 JFFS2_MAGIC_BITMASK ++ le_bytes 2 JFFS2_NODETYPE_DIRENT.

Lemma wfi_tail_overrun :
  @jffs2_find_file aarch64 kernel_crc32 unit (image_dev "flash" 128 tail_data)
    KERNEL_NAME 0 128 None tt = Fault.
Proof. vm_compute. reflexivity. Qed.

(** Two images none of which is divided: the array is filled, the code is an error. *)
Lemma wfi_fallback_lost :
  @mtdsplit_parse_bcm_wfi_split aarch64 kernel_crc32 unit (image_dev "flash" 128 (block 256 [])) None
    (mk_wfi_mem true true true true true) tt =
  Ret (- ENOENT, Some [mk_mtd_partition "img1" 0 128; mk_mtd_partition "img2" 128 128]) tt.
Proof. vm_compute. reflexivity. Qed.
