(* ===== verification/RouterBoot.v ===== *)
(** The flash data of MikroTik boot loaders: [drivers/platform/mikrotik/routerboot.c] under
    [src/target/linux/generic/files].  The configuration is a list of tags in flash; the two
    drivers that show it share the search for a tag, a run-length decoder and the printing of
    payloads. *)

From stdpp Require Import base list numbers strings.
From Stdlib Require Import ZArith Lia.
From S2P Require Import Prelude Platform CStrings.
Local Open Scope Z_scope.
Local Open Scope cprog_scope.

Definition RB_MAGIC_HARD : Z := 0x64726148.
Definition RB_MAGIC_SOFT : Z := 0x74666f53.
Definition RB_MAGIC_LZOR : Z := 0x524f5a4c.
Definition RB_MAGIC_ERD : Z := 0x455244.
Definition RB_ART_SIZE : Z := 0x10000.
Definition ENOSPC : Z := 28.

(** [ALIGN(x, a)] and [ALIGN_DOWN(x, a)] for a power of two [a]. *)
Definition align_up (x a : Z) : Z := (x + (a - 1)) / a * a.
Definition align_down (x a : Z) : Z := x / a * a.

Section routerboot.
Context `{Arch}.

(** * Tags *)

(** [routerboot_tag_find(bufhead, buflen, tag_id, &pld_ofs, &pld_len)]: an error code, or the
    offset and the length of the payload.  [mem] is the memory from [bufhead] to the end of
    its object; a [buflen] that reaches beyond it is not a pointer into the object.  [d] is
    the distance of [datum] from [bufhead].  The aligned length is a [u16] again. *)
Definition tag_find_step {S} (mem : list Z) (buflen tag_id d : Z) : M S (Z + (Z + Z * Z)) :=
  if d <? buflen then
    let* node := cpu_load mem d 4 in
    let d := d + 4 in
    if node =? 0 then ret (inr (inl (- ENOENT)))
    else
      let id := Z.land node 0xffff in
      let len := Z.shiftr node 16 in
      if tag_id =? id then
        if d >=? buflen then ret (inr (inl (- ENOENT))) else ret (inr (inr (u16 d, len)))
      else ret (inl (d + u16 (align_up len 4) / 4 * 4))
  else ret (inr (inl (- ENOENT))).

Definition tag_fuel (buflen : Z) : nat := Datatypes.S (Z.to_nat (buflen / 4 + 1)).

Definition routerboot_tag_find {S} (mem : list Z) (buflen tag_id : Z) : M S (Z + Z * Z) :=
  if tag_id =? 0 then ret (inl (- EINVAL))
  else if Z.of_nat (length mem) <? buflen then fault
  else loop (tag_fuel buflen) (tag_find_step mem buflen tag_id) 0.

(** * Run lengths *)

(** The variables of [routerboot_rle_decode]: the distance of [in] from its start, [inlen],
    the output buffer, and [nbytes], which is the distance of [out] from its start whenever
    a run begins. *)
Record rle := mk_rle { rl_in : Z; rl_inlen : Z; rl_out : list Z; rl_nbytes : Z }.

Definition byte_at {S} (mem : list Z) (i : Z) : M S Z := arr_get mem i.

(** The copying of [src] to [out]. *)
Definition put_bytes {S} (out : list Z) (pos : Z) (src : list Z) : M S (list Z) :=
  if in_bounds out pos (Z.of_nat (length src)) then ret (blit out pos src) else fault.

(** One run; the result is the final state and the return value. *)
Definition rle_step {S} (mem : list Z) (outlen : Z) (r : rle) : M S (rle + (rle * Z)) :=
  if rl_inlen r >=? 2 then
    let* run := byte_at mem (rl_in r) in
    let inlen := rl_inlen r - 1 in
    if negb (Z.land run 0x80 =? 0) then
      (* Verbatim copies *)
      let run := Z.land (Z.lnot run) 0xff + 1 in
      if inlen <? run then ret (inr (mk_rle (rl_in r + 1) inlen (rl_out r) (rl_nbytes r), - ENOSPC))
      else
        let nbytes := i32 (rl_nbytes r + run) in
        if outlen <? size_t nbytes then
          ret (inr (mk_rle (rl_in r + 1) (inlen - run) (rl_out r) nbytes, - ENOSPC))
        else
          let* src := (if in_bounds mem (rl_in r + 1) run then ret (slice mem (rl_in r + 1) run) else fault) in
          let* out := put_bytes (rl_out r) (rl_nbytes r) src in
          ret (inl (mk_rle (rl_in r + 1 + run) (inlen - run) out nbytes))
    else
      (* Stream of half-words RLE: <run><byte>. run == 0 is ignored *)
      let* byte := byte_at mem (rl_in r + 1) in
      let inlen := inlen - 1 in
      let nbytes := i32 (rl_nbytes r + run) in
      if outlen <? size_t nbytes then ret (inr (mk_rle (rl_in r + 2) inlen (rl_out r) nbytes, - ENOSPC))
      else
        let* out := put_bytes (rl_out r) (rl_nbytes r) (replicate (Z.to_nat run) byte) in
        ret (inl (mk_rle (rl_in r + 2) inlen out nbytes))
  else ret (inr (r, 0)).

(** [routerboot_rle_decode(in, inlen, out, &outlen)]: the return value, the output buffer, and
    [outlen].  [mem] is the memory from [in] to the end of its object. *)
Definition routerboot_rle_decode {S} (mem : list Z) (inlen : Z) (out : list Z) (outlen : Z) : M S (Z * list Z * Z) :=
  if inlen <? 2 then ret (- EINVAL, out, outlen)
  else
    let* (r, ret_) := loop (Datatypes.S (Z.to_nat inlen)) (rle_step mem outlen) (mk_rle 0 inlen out 0) in
    ret (ret_, rl_out r, size_t (rl_nbytes r)).

(** * Printing

    The result of a function that prints: a negative error code, or the text. *)
Definition show_result : Type := Z + list Z.

(** The digits of [%0<n>x]. *)
Definition hex_digit_lower (d : Z) : Z := if d <? 10 then 48 + d else 87 + d.
Fixpoint print_hex_lower (n : nat) (v : Z) : list Z :=
  match n with
  | O => []
  | Datatypes.S n => print_hex_lower n (v / 16) ++ [hex_digit_lower (v mod 16)]
  end.

(** The string at [pld], and a new line; [scnprintf] cuts the text to [pld_len] bytes. *)
Definition routerboot_tag_show_string {S} (mem : list Z) (pld_len : Z) : M S show_result :=
  match c_str mem with
  | None => fault
  | Some s => ret (inr (take (Z.to_nat pld_len) (s ++ [10])))
  end.

(** [sprintf(out, "0x%08x\n", *data)] for each word; [pld_len] is counted down to 0 by fours
    after each word. *)
Definition show_u32 (v : Z) : list Z := [48; 120] ++ print_hex_lower 8 v ++ [10].
Fixpoint show_words {S} (n : nat) (mem : list Z) (d : Z) : M S (list Z) :=
  match n with
  | O => ret []
  | Datatypes.S n =>
      let* v := cpu_load mem d 4 in
      let* rest := show_words n mem (d + 4) in
      ret (show_u32 v ++ rest)
  end.
Definition routerboot_tag_show_u32s {S} (mem : list Z) (pld_len : Z) : M S show_result :=
  if negb (pld_len mod 4 =? 0) then ret (inl (- EINVAL))
  else
    let* text := show_words (Z.to_nat ((if pld_len =? 0 then 2 ^ 16 else pld_len) / 4)) mem 0 in
    ret (inr text).
End routerboot.
