(* ===== verification/RouterBootSpec.v ===== *)
(** What the routines on MikroTik flash data guarantee: a tag list is searched as a list of
    tags, within its buffer, and run lengths are decoded as a list of runs. *)

From stdpp Require Import base list numbers strings.
From Stdlib Require Import ZArith Lia.
From S2P Require Import Prelude Platform Bytes CStrings RouterBoot.
Local Open Scope Z_scope.
Local Open Scope cprog_scope.

Lemma u16_small z : 0 <= z < 2 ^ 16 -> u16 z = z.
Proof. apply Z.mod_small. Qed.

Lemma u16_range z : 0 <= u16 z < 2 ^ 16.
Proof. apply Z.mod_pos_bound. lia. Qed.

Section tags.
Context `{A : Arch}.

Lemma wp_cpu_load {S} buf off len (Q : Z -> S -> Prop) s :
  0 <= off -> 0 <= len -> off + len <= Z.of_nat (length buf) ->
  Q (cpu_field buf off len) s -> wp (cpu_load buf off len) Q s.
Proof. intros. unfold cpu_load. rewrite in_bounds_true by lia. done. Qed.

Lemma cpu_word_range mem d : Forall is_byte mem -> 0 <= cpu_field mem d 4 < 2 ^ 32.
Proof.
  intros H. unfold cpu_field. destruct big_endian; [apply (be_field_range mem d 4)|apply (le_field_range mem d 4)]; done || lia.
Qed.

(** The identifier and the length in a node. *)
Lemma node_parts node : 0 <= node < 2 ^ 32 ->
  Z.land node 0xffff = node mod 2 ^ 16 /\ Z.shiftr node 16 = node / 2 ^ 16 /\ 0 <= node / 2 ^ 16 < 2 ^ 16.
Proof.
  intros Hn. split_and!.
  - change 0xffff with (Z.ones 16). by rewrite Z.land_ones by lia.
  - by rewrite Z.shiftr_div_pow2 by lia.
  - apply Z.div_pos; lia.
  - apply Z.div_lt_upper_bound; lia.
Qed.

(** What a search delivers: the node of the tag is in the buffer, and so is the start of its
    payload, at a multiple of four. *)
Definition tag_at (mem : list Z) (buflen tag_id d len : Z) : Prop :=
  4 <= d < buflen /\ d mod 4 = 0 /\ 0 <= len < 2 ^ 16 /\ cpu_field mem (d - 4) 4 = tag_id + 2 ^ 16 * len.

(** On any bytes the search ends inside the buffer. *)
Lemma tag_find_safe {S} mem buflen tag_id (s : S) :
  Forall is_byte mem -> buflen mod 4 = 0 -> buflen <= Z.of_nat (length mem) ->
  wp (routerboot_tag_find mem buflen tag_id) (fun r s' => s' = s /\
    match r with
    | inl e => e = - EINVAL /\ tag_id = 0 \/ e = - ENOENT
    | inr (o, len) => exists d, o = u16 d /\ tag_at mem buflen tag_id d len
    end) s.
Proof.
  intros Hmem H4 Hlen. unfold routerboot_tag_find. destruct (Z.eqb_spec tag_id 0); [apply wp_ret; auto|].
  destruct (Z.ltb_spec (Z.of_nat (length mem)) buflen); [lia|].
  apply (wp_loop (fun d s' => s' = s /\ 0 <= d /\ d mod 4 = 0) (fun d _ => Z.to_nat (buflen / 4 + 1 - d / 4))).
  2: { split_and!; [done|lia|done]. }
  2: { unfold tag_fuel. rewrite Z.div_0_l by lia. lia. }
  intros d s' (-> & Hd & Hd4). unfold tag_find_step. destruct (Z.ltb_spec d buflen) as [Hlt|]; [|apply wp_ret; auto].
  pose proof (Z.div_mod d 4). pose proof (Z.div_mod buflen 4).
  apply wp_bind, wp_cpu_load; [lia|lia|lia|].
  pose proof (cpu_word_range mem d Hmem) as Hn. destruct (Z.eqb_spec (cpu_field mem d 4) 0); [apply wp_ret; auto|].
  destruct (node_parts _ Hn) as (-> & -> & Hr). destruct (Z.eqb_spec tag_id (cpu_field mem d 4 mod 2 ^ 16)) as [Heq|].
  - destruct (Z.geb_spec (d + 4) buflen); apply wp_ret; [auto|]. split; [done|].
    exists (d + 4). split; [done|]. split_and!; try lia.
    + rewrite Zplus_mod, Hd4. done.
    + replace (d + 4 - 4) with d by lia. rewrite Heq. pose proof (Z.div_mod (cpu_field mem d 4) (2 ^ 16)). lia.
  - apply wp_ret. pose proof (u16_range (align_up (cpu_field mem d 4 / 2 ^ 16) 4)) as Hu.
    set (k := u16 _) in *. pose proof (Z.div_pos k 4). split_and!; [done|lia| |].
    + rewrite Z.add_mod, Z.mod_mul, Z.add_0_r, Z.mod_mod, Z.add_mod, Hd4 by lia. done.
    + replace (d + 4 + k / 4 * 4) with ((d / 4 + 1 + k / 4) * 4) by lia. rewrite Z.div_mul by lia. nia.
Qed.

(** ** Lists of tags *)

Record tag := mk_tag { tg_id : Z; tg_data : list Z }.

(** Lengths above [0xfffc] do not survive the alignment, and a node of zeros ends the list. *)
Definition tag_ok (t : tag) : Prop :=
  0 <= tg_id t < 2 ^ 16 /\ Z.of_nat (length (tg_data t)) <= 0xfffc /\ (tg_id t <> 0 \/ tg_data t <> []) /\
  Forall is_byte (tg_data t).

Definition tag_size (t : tag) : Z := 4 + align_up (Z.of_nat (length (tg_data t))) 4.
Definition tag_bytes (t : tag) : list Z :=
  cpu_bytes 4 (tg_id t + 2 ^ 16 * Z.of_nat (length (tg_data t))) ++ tg_data t ++
  replicate (Z.to_nat (align_up (Z.of_nat (length (tg_data t))) 4) - length (tg_data t)) 0.

(** The first tag with an identifier: the offset of its payload, and the payload. *)
Fixpoint first_tag (ts : list tag) (id off : Z) : option (Z * list Z) :=
  match ts with
  | [] => None
  | t :: ts => if tg_id t =? id then Some (off + 4, tg_data t) else first_tag ts id (off + tag_size t)
  end.

Lemma align_up_spec n : 0 <= n -> n <= align_up n 4 <= n + 3 /\ align_up n 4 mod 4 = 0.
Proof.
  intros Hn. unfold align_up. pose proof (Z.div_mod (n + (4 - 1)) 4). pose proof (Z.mod_pos_bound (n + (4 - 1)) 4).
  split; [lia|]. apply Z.mod_mul. lia.
Qed.

Lemma length_tag t : Z.of_nat (length (tag_bytes t)) = tag_size t.
Proof.
  unfold tag_bytes, tag_size. rewrite !length_app, length_cpu_bytes, length_replicate.
  pose proof (align_up_spec (Z.of_nat (length (tg_data t)))). lia.
Qed.

Lemma tag_node t rest : tag_ok t ->
  cpu_field (tag_bytes t ++ rest) 0 4 = tg_id t + 2 ^ 16 * Z.of_nat (length (tg_data t)).
Proof.
  intros (H1 & H2 & _). unfold tag_bytes. rewrite <- app_assoc.
  apply cpu_field_head; [done|lia].
Qed.


Lemma tag_size_pos t : 4 <= tag_size t /\ tag_size t mod 4 = 0.
Proof.
  unfold tag_size. destruct (align_up_spec (Z.of_nat (length (tg_data t)))) as [H1 H2]; [lia|].
  split; [lia|]. by rewrite Z.add_mod, H2 by lia.
Qed.

Lemma length_tags_le ts : Z.of_nat (length ts) * 4 <= Z.of_nat (length (concat (tag_bytes <$> ts))).
Proof.
  induction ts as [|t ts IH]; [done|]. cbn. rewrite length_app. pose proof (length_tag t). pose proof (tag_size_pos t). lia.
Qed.

(** One round on the node of a tag. *)
Lemma tag_step_node {S} pre t rest buflen id (s : S) :
  tag_ok t -> Z.of_nat (length pre) < buflen ->
  tag_find_step (pre ++ tag_bytes t ++ rest) buflen id (Z.of_nat (length pre)) s
  = Ret (if tg_id t =? id then
           if Z.of_nat (length pre) + 4 >=? buflen then inr (inl (- ENOENT))
           else inr (inr (u16 (Z.of_nat (length pre) + 4), Z.of_nat (length (tg_data t))))
         else inl (Z.of_nat (length (pre ++ tag_bytes t)))) s.
Proof.
  intros Hok Hlt. pose proof (length_tag t) as Hl. pose proof (tag_size_pos t) as [Hs _].
  unfold tag_find_step. destruct (Z.ltb_spec (Z.of_nat (length pre)) buflen); [|lia].
  unfold bind, cpu_load. rewrite in_bounds_true by (rewrite ?length_app; lia). unfold ret.
  rewrite cpu_field_tail, Z.sub_diag, tag_node by (done || lia).
  destruct Hok as (H1 & H2 & H3 & _). set (n := Z.of_nat (length (tg_data t))) in *.
  assert (0 <= n) by lia. destruct (node_parts (tg_id t + 2 ^ 16 * n)) as (-> & -> & _); [lia|].
  replace (tg_id t + 2 ^ 16 * n) with (tg_id t + n * 2 ^ 16) by lia.
  rewrite Z.mod_add, Z.div_add, (Z.mod_small (tg_id t)), (Z.div_small (tg_id t)) by lia.
  destruct (Z.eqb_spec (tg_id t + n * 2 ^ 16) 0).
  { destruct H3 as [?|H3]; [lia|]. assert (n = 0) as Hn by lia. subst n. destruct (tg_data t); [done|cbn in Hn; lia]. }
  rewrite Z.add_0_l, (Z.eqb_sym id). destruct (tg_id t =? id); [by destruct (_ >=? _)|]. do 2 f_equal.
  destruct (align_up_spec n) as [Ha1 Ha2]; [done|]. rewrite u16_small by lia.
  rewrite length_app, Nat2Z.inj_add, Hl. unfold tag_size. fold n. pose proof (Z.div_mod (align_up n 4) 4). lia.
Qed.

Lemma tag_loop_spec {S} ts junk buflen id fuel (s : S) : forall pre,
  Forall tag_ok ts -> (length ts < fuel)%nat ->
  Z.of_nat (length (pre ++ concat (tag_bytes <$> ts))) + 4 <= buflen -> buflen <= 2 ^ 16 ->
  loop fuel (tag_find_step (pre ++ concat (tag_bytes <$> ts) ++ cpu_bytes 4 0 ++ junk) buflen id)
    (Z.of_nat (length pre)) s =
  Ret (match first_tag ts id (Z.of_nat (length pre)) with
       | Some (o, data) => inr (o, Z.of_nat (length data))
       | None => inl (- ENOENT)
       end) s.
Proof.
  revert fuel. induction ts as [|t ts IH]; intros fuel pre Hok Hfuel Hlen Hsmall; (destruct fuel as [|fuel]; [cbn in Hfuel; lia|]); cbn [loop].
  - cbn [concat fmap list_fmap app] in *. rewrite app_nil_r in Hlen. unfold bind at 1, tag_find_step at 1.
    destruct (Z.ltb_spec (Z.of_nat (length pre)) buflen); [|lia].
    unfold bind at 1, cpu_load. rewrite in_bounds_true by (rewrite ?length_app, ?length_cpu_bytes; lia). unfold ret at 1.
    rewrite cpu_field_tail, Z.sub_diag by lia. by rewrite cpu_field_head by (done || lia).
  - inversion_clear Hok as [|? ? Ht Hts]. rewrite fmap_cons in *. cbn [concat] in *. rewrite <- app_assoc.
    rewrite !length_app in Hlen. pose proof (length_tag t) as Hl. pose proof (tag_size_pos t) as [Hs _].
    cbn [first_tag]. destruct (Z.eqb_spec (tg_id t) id) as [<-|Hne].
    + unfold bind at 1. rewrite tag_step_node, Z.eqb_refl by (done || lia).
      destruct (Z.geb_spec (Z.of_nat (length pre) + 4) buflen); [lia|]. by rewrite u16_small by lia.
    + unfold bind at 1. rewrite tag_step_node by (done || lia). destruct (Z.eqb_spec (tg_id t) id); [done|].
      rewrite app_assoc. rewrite IH; [|done|cbn in Hfuel; lia|rewrite !length_app; lia|done].
      by rewrite length_app, Nat2Z.inj_add, Hl.
Qed.

(** The payload the reference finds is where it says. *)
Lemma first_tag_payload ts id rest : forall pre o data,
  first_tag ts id (Z.of_nat (length pre)) = Some (o, data) ->
  slice (pre ++ concat (tag_bytes <$> ts) ++ rest) o (Z.of_nat (length data)) = data.
Proof.
  induction ts as [|t ts IH]; intros pre o data; [done|]. cbn [first_tag]. rewrite fmap_cons. cbn [concat].
  pose proof (length_tag t) as Hl. destruct (tg_id t =? id).
  - intros [= <- <-]. rewrite slice_app_r by lia.
    replace (Z.of_nat (length pre) + 4 - Z.of_nat (length pre)) with 4 by lia. unfold tag_bytes. rewrite <- !app_assoc.
    rewrite slice_app_r, length_cpu_bytes by (rewrite length_cpu_bytes; lia).
    change (4 - Z.of_nat 4) with 0. by apply slice_head.
  - intros Hf. rewrite <- app_assoc, app_assoc. apply (IH (pre ++ tag_bytes t)).
    by rewrite length_app, Nat2Z.inj_add, Hl.
Qed.
End tags.

(** C13: [routerboot_tag_find] on the bytes of a list of tags, ended by a zero node, returns the
    offset and the length of the payload of the first tag with the identifier, and the
    payload is at that offset; it returns [-ENOENT] if there is no such tag. *)
Theorem tag_find_first `{A : Arch} {S} ts junk buflen id (s : S) :
  Forall tag_ok ts -> id <> 0 ->
  let mem := concat (tag_bytes <$> ts) ++ cpu_bytes 4 0 ++ junk in
  Z.of_nat (length (concat (tag_bytes <$> ts))) + 4 <= buflen <= Z.of_nat (length mem) -> buflen <= 2 ^ 16 ->
  match first_tag ts id 0 with
  | Some (o, data) =>
      routerboot_tag_find mem buflen id s = Ret (inr (o, Z.of_nat (length data))) s /\
      slice mem o (Z.of_nat (length data)) = data
  | None => routerboot_tag_find mem buflen id s = Ret (inl (- ENOENT)) s
  end.
Proof.
  intros Hok Hid mem Hlen Hsmall. pose proof (length_tags_le ts) as Hts.
  assert (routerboot_tag_find mem buflen id s = Ret (match first_tag ts id 0 with
    | Some (o, data) => inr (o, Z.of_nat (length data)) | None => inl (- ENOENT) end) s) as E.
  { unfold routerboot_tag_find. destruct (Z.eqb_spec id 0); [done|].
    destruct (Z.ltb_spec (Z.of_nat (length mem)) buflen); [lia|]. unfold mem.
    apply (tag_loop_spec ts junk buflen id _ s []); [done| |cbn [app]; lia|done].
    unfold tag_fuel. pose proof (Z.div_mod buflen 4). pose proof (Z.mod_pos_bound buflen 4). lia. }
  destruct (first_tag ts id 0) as [[o data]|] eqn:Ef; [|done]. split; [done|].
  by apply (first_tag_payload ts id (cpu_bytes 4 0 ++ junk) []).
Qed.

(** * Run lengths *)

Inductive run :=
| Copy (l : list Z)
| Repeat (n b : Z).

Definition run_data (r : run) : list Z :=
  match r with
  | Copy l => l
  | Repeat n b => replicate (Z.to_nat n) b
  end.
Definition runs_data (rs : list run) : list Z := concat (run_data <$> rs).

(** The runs of a string of bytes, and whether the last one is complete; a single byte at the
    end is ignored. *)
Fixpoint runs_of (n : nat) (l : list Z) : list run * bool :=
  match n, l with
  | S n, r :: b :: rest =>
      if r <? 128 then let '(rs, ok) := runs_of n rest in (Repeat r b :: rs, ok)
      else
        let c := Z.to_nat (256 - r) in
        if (length (b :: rest) <? c)%nat then ([], false)
        else let '(rs, ok) := runs_of n (drop c (b :: rest)) in (Copy (take c (b :: rest)) :: rs, ok)
  | _, _ => ([], true)
  end.

Lemma run_bit r : is_byte r -> negb (Z.land r 0x80 =? 0) = (128 <=? r) /\ Z.land (Z.lnot r) 0xff + 1 = 256 - r.
Proof.
  intros Hr. assert (forallb (fun r => Bool.eqb (negb (Z.land r 0x80 =? 0)) (128 <=? r)
    && (Z.land (Z.lnot r) 0xff + 1 =? 256 - r)) (seqZ 0 256) = true) as H by (vm_compute; reflexivity).
  rewrite forallb_forall in H. specialize (H r). rewrite <- list_elem_of_In, elem_of_seqZ in H.
  specialize (H ltac:(unfold is_byte in Hr; lia)). apply andb_true_iff in H as [H1%Bool.eqb_prop H2%Z.eqb_eq]. done.
Qed.

Lemma arr_get_middle {S} (l1 l2 : list Z) b i (s : S) :
  i = Z.of_nat (length l1) -> arr_get (l1 ++ b :: l2) i s = Ret b s.
Proof.
  intros ->. unfold arr_get. destruct (Z.ltb_spec (Z.of_nat (length l1)) 0); [lia|].
  rewrite Nat2Z.id, list_lookup_middle by done. done.
Qed.

Lemma put_bytes_end {S} (out rest src : list Z) (s : S) :
  (length src <= length rest)%nat ->
  put_bytes (out ++ rest) (Z.of_nat (length out)) src s = Ret ((out ++ src) ++ drop (length src) rest) s.
Proof.
  intros Hl. unfold put_bytes. rewrite in_bounds_true by (rewrite ?length_app; lia). unfold ret, blit.
  rewrite Nat2Z.id, take_app_length, drop_app_ge by lia. rewrite <- app_assoc. do 3 f_equal. f_equal. lia.
Qed.

Section rle.
Context `{A : Arch} `{!ArchLaws A}.

(** The end of a decoding that started with [out] in front of [rest]. *)
Definition decoded (out rest : list Z) (rs : list run) (ok : bool) (r : rle) (code : Z) : Prop :=
  let data := runs_data rs in
  if ok && (length data <=? length rest)%nat then
    code = 0 /\ rl_out r = out ++ data ++ drop (length data) rest /\
    rl_nbytes r = Z.of_nat (length out + length data)
  else code = - ENOSPC /\ length (rl_out r) = length (out ++ rest) /\ 0 <= rl_nbytes r < 2 ^ 31.

(** One more run in front. *)
Lemma decoded_cons out rest x rs ok r code :
  (length (run_data x) <= length rest)%nat ->
  decoded (out ++ run_data x) (drop (length (run_data x)) rest) rs ok r code ->
  decoded out rest (x :: rs) ok r code.
Proof.
  intros Hx. unfold decoded, runs_data. cbv zeta. rewrite fmap_cons. cbn [concat]. rewrite !length_app, !length_drop.
  destruct (Nat.leb_spec (length (concat (run_data <$> rs))) (length rest - length (run_data x))),
    (Nat.leb_spec (length (run_data x) + length (concat (run_data <$> rs))) (length rest)); try lia;
    destruct ok; cbn [andb]; rewrite ?length_app, ?length_drop; try (intros (-> & H1 & H2); split_and!; try done; lia).
  intros (-> & -> & ->). rewrite drop_drop. rewrite <- !app_assoc. split_and!; [done|done|lia].
Qed.

Lemma decoded_full out rest x rs ok r :
  (length rest < length (run_data x))%nat -> length (rl_out r) = length (out ++ rest) -> 0 <= rl_nbytes r < 2 ^ 31 ->
  decoded out rest (x :: rs) ok r (- ENOSPC).
Proof.
  intros Hx Hl Hn. unfold decoded, runs_data. cbv zeta. rewrite fmap_cons. cbn [concat]. rewrite !length_app in *.
  destruct (Nat.leb_spec (length (run_data x) + length (concat (run_data <$> rs))) (length rest)); [lia|].
  by rewrite andb_false_r.
Qed.

Lemma rle_loop_spec {S} junk outlen (s : S) : 0 <= outlen < 2 ^ 31 - 256 -> forall n fuel pre l out rest,
  Forall is_byte l -> (length l < n)%nat -> (n <= fuel)%nat -> Z.of_nat (length (out ++ rest)) = outlen ->
  exists r code,
    loop fuel (rle_step (pre ++ l ++ junk) outlen)
      (mk_rle (Z.of_nat (length pre)) (Z.of_nat (length l)) (out ++ rest) (Z.of_nat (length out))) s = Ret (r, code) s /\
    decoded out rest (runs_of n l).1 (runs_of n l).2 r code.
Proof.
  intros Hol. induction n as [|n IH]; intros fuel pre l out rest Hl Hn Hf Hout; [lia|].
  destruct fuel as [|fuel]; [lia|]. cbn [loop]. rewrite length_app in Hout.
  destruct l as [|x [|b l]].
  { eexists _, _. split; [done|]. unfold decoded, runs_data. cbn. rewrite drop_0. split_and!; [done|done|lia]. }
  { eexists _, _. split; [done|]. unfold decoded, runs_data. cbn. rewrite drop_0. split_and!; [done|done|lia]. }
  inversion_clear Hl as [|? ? Hx Hl']. destruct (run_bit x Hx) as [Hbit Hneg]. unfold is_byte in Hx.
  cbn [runs_of]. unfold bind at 1, rle_step at 1. cbn [rl_inlen rl_in rl_out rl_nbytes].
  destruct (Z.geb_spec (Z.of_nat (length (x :: b :: l))) 2) as [|Hlt]; [|cbn [length] in Hlt; lia].
  unfold bind at 1, byte_at. cbn [app]. rewrite (arr_get_middle pre _ x) by done. rewrite Hbit.
  destruct (Z.leb_spec 128 x) as [Hc|Hr], (Z.ltb_spec x 128) as [|]; try lia.
  - (* verbatim *)
    rewrite Hneg. set (c := 256 - x) in *.
    destruct (Nat.ltb_spec (length (b :: l)) (Z.to_nat c)) as [Hshort|Hfits];
      destruct (Z.ltb_spec (Z.of_nat (length (x :: b :: l)) - 1) c) as [Hs|Hs]; cbn [length] in *; try lia.
    { eexists _, _. split; [done|]. unfold decoded. cbn [andb rl_out rl_nbytes]. split_and!; [done|done|lia|lia]. }
    rewrite i32_small by lia. rewrite size_t_small by lia.
    set (src := take (Z.to_nat c) (b :: l)). assert (length src = Z.to_nat c) as Hsl.
    { unfold src. rewrite length_take. cbn [length]. lia. }
    pose proof (IH fuel (pre ++ x :: src) (drop (Z.to_nat c) (b :: l)) (out ++ src) (drop (length src) rest)) as IHn.
    destruct (runs_of n (drop (Z.to_nat c) (b :: l))) as [rs ok]. cbn [fst snd] in *.
    destruct (Z.ltb_spec outlen (Z.of_nat (length out) + c)) as [Hfull|Hroom].
    { eexists _, _. split; [done|]. apply decoded_full; cbn [run_data rl_out rl_nbytes]; [lia|done|lia]. }
    destruct IHn as (r & code & Hloop & Hdec).
    { by apply Forall_drop. }
    { rewrite length_drop. cbn [length]. lia. }
    { lia. }
    { rewrite !length_app, length_drop. lia. }
    exists r, code. split; [|apply decoded_cons; [cbn [run_data]; fold src; lia|done]].
    unfold bind at 1. rewrite in_bounds_true by (rewrite ?length_app; cbn [length]; rewrite ?length_app; lia). unfold ret at 1.
    assert (slice (pre ++ x :: b :: l ++ junk) (Z.of_nat (length pre) + 1) c = src) as ->.
    { rewrite slice_app_r by lia. replace (Z.of_nat (length pre) + 1 - Z.of_nat (length pre)) with 1 by lia.
      unfold slice. change (drop (Z.to_nat 1) (x :: b :: l ++ junk)) with ((b :: l) ++ junk).
      rewrite take_app_le by (cbn [length]; lia). done. }
    unfold bind at 1. rewrite put_bytes_end by lia. unfold ret at 1.
    assert (pre ++ x :: b :: l ++ junk = (pre ++ x :: src) ++ drop (Z.to_nat c) (b :: l) ++ junk) as ->.
    { rewrite <- app_assoc. cbn [app]. rewrite (app_assoc src). unfold src. rewrite take_drop. done. }
    rewrite <- Hloop. do 2 f_equal.
    + rewrite length_app. cbn [length]. lia.
    + rewrite length_drop. cbn [length]. lia.
    + rewrite length_app. lia.
  - (* repeated *)
    unfold bind at 1. rewrite (cons_middle x), (app_assoc pre), (arr_get_middle (pre ++ [x]) _ b) by (rewrite length_app; cbn; lia).
    rewrite i32_small by lia. rewrite size_t_small by lia. cbn [length] in *.
    set (src := replicate (Z.to_nat x) b). assert (length src = Z.to_nat x) as Hsl by apply length_replicate.
    pose proof (IH fuel (pre ++ [x; b]) l (out ++ src) (drop (length src) rest)) as IHn.
    destruct (runs_of n l) as [rs ok]. cbn [fst snd] in *.
    destruct (Z.ltb_spec outlen (Z.of_nat (length out) + x)) as [Hfull|Hroom].
    { eexists _, _. split; [done|]. apply decoded_full; cbn [run_data rl_out rl_nbytes]; [fold src; lia|done|lia]. }
    destruct IHn as (r & code & Hloop & Hdec).
    { by inversion_clear Hl'. }
    { lia. }
    { lia. }
    { rewrite !length_app, length_drop. lia. }
    exists r, code. split; [|apply decoded_cons; [cbn [run_data]; fold src; lia|done]].
    unfold bind at 1. rewrite put_bytes_end by lia. unfold ret at 1.
    rewrite <- app_assoc. cbn [app]. rewrite <- app_assoc in Hloop. cbn [app] in Hloop.
    rewrite <- Hloop. do 2 f_equal.
    + rewrite length_app. cbn [length]. lia.
    + lia.
    + rewrite length_app. lia.
Qed.
End rle.

(** ** Encoding *)

Definition run_ok (r : run) : Prop :=
  match r with
  | Copy l => (1 <= length l <= 128)%nat
  | Repeat n _ => 0 <= n < 128
  end.

Definition run_bytes (r : run) : list Z :=
  match r with
  | Copy l => 256 - Z.of_nat (length l) :: l
  | Repeat n b => [n; b]
  end.
Definition runs_bytes (rs : list run) : list Z := concat (run_bytes <$> rs).

Lemma runs_of_bytes rs tail : forall n,
  Forall run_ok rs -> (length tail < 2)%nat -> (length (runs_bytes rs ++ tail) < n)%nat ->
  runs_of n (runs_bytes rs ++ tail) = (rs, true).
Proof.
  unfold runs_bytes. induction rs as [|r rs IH]; intros n Hok Ht Hn.
  - destruct n as [|n]; [lia|]. destruct tail as [|x [|y tail]]; [done|done|cbn in Ht; lia].
  - inversion_clear Hok as [|? ? Hr Hrs]. rewrite fmap_cons in *. cbn [concat] in *. rewrite <- app_assoc in *.
    destruct n as [|n]; [lia|]. destruct r as [l|k b]; cbn [run_bytes run_ok app] in *.
    + destruct l as [|x l]; [cbn in Hr; lia|]. cbn [app runs_of]. set (c := 256 - Z.of_nat (length (x :: l))).
      destruct (Z.ltb_spec c 128) as [|]; [unfold c in *; lia|].
      assert (Z.to_nat (256 - c) = length (x :: l)) as -> by (unfold c; lia).
      cbn [length] in Hn. rewrite length_app in Hn.
      destruct (Nat.ltb_spec (length (x :: l ++ concat (run_bytes <$> rs) ++ tail)) (length (x :: l))) as [Hs|_].
      { cbn [length] in Hs. rewrite length_app in Hs. lia. }
      cbn [length take drop]. rewrite drop_app_length, take_app_length. by rewrite (IH n Hrs Ht ltac:(lia)).
    + cbn [length] in Hn. cbn [runs_of]. destruct (Z.ltb_spec k 128); [|lia]. by rewrite (IH n Hrs Ht ltac:(lia)).
Qed.

(** The decoder on any bytes, followed by other memory. *)
Lemma rle_decode_spec `{A : Arch} `{!ArchLaws A} {S} l junk out rs ok (s : S) :
  Forall is_byte l -> (2 <= length l)%nat -> Z.of_nat (length out) < 2 ^ 31 - 256 ->
  runs_of (1 + length l) l = (rs, ok) ->
  exists code out' n,
    routerboot_rle_decode (l ++ junk) (Z.of_nat (length l)) out (Z.of_nat (length out)) s = Ret (code, out', n) s /\
    if ok && (length (runs_data rs) <=? length out)%nat then
      code = 0 /\ out' = runs_data rs ++ drop (length (runs_data rs)) out /\ n = Z.of_nat (length (runs_data rs))
    else code = - ENOSPC /\ length out' = length out.
Proof.
  intros Hl Hlen Hout Er.
  destruct (rle_loop_spec junk (Z.of_nat (length out)) s ltac:(lia) (1 + length l) (Datatypes.S (Z.to_nat (Z.of_nat (length l))))
    [] l [] out Hl) as (r & code & Hloop & Hdec); [lia|lia|done|].
  rewrite Er in Hdec. cbn [fst snd app length Z.of_nat] in *. exists code, (rl_out r), (size_t (rl_nbytes r)). split.
  - unfold routerboot_rle_decode. destruct (Z.ltb_spec (Z.of_nat (length l)) 2); [lia|]. unfold bind. change (Z.of_nat 0) with 0 in Hloop. by rewrite Hloop.
  - unfold decoded in Hdec. cbn [app length Nat.add] in Hdec. destruct (ok && _) eqn:E; [|by destruct Hdec as (-> & -> & _)].
    apply andb_true_iff in E as [_ E%Nat.leb_le].
    destruct Hdec as (-> & -> & ->). split_and!; [done|done|apply size_t_small; lia].
Qed.

(** [routerboot_rle_decode] decodes a list of runs.  For any bytes (followed by other
    memory) and a buffer of the given size, it stays inside both buffers; if the bytes are
    complete runs (a single byte at the end is ignored) whose data fit into the buffer, it
    returns 0 with exactly these data at the start of the buffer and their number, and
    otherwise [-ENOSPC].  The runs it sees in an encoded list of runs are those of the list. *)
Theorem rle_decode_runs `{A : Arch} `{!ArchLaws A} {S} l junk out (s : S) :
  Forall is_byte l -> (2 <= length l)%nat -> Z.of_nat (length out) < 2 ^ 31 - 256 ->
  let '(rs, ok) := runs_of (1 + length l) l in
  (exists code out' n,
     routerboot_rle_decode (l ++ junk) (Z.of_nat (length l)) out (Z.of_nat (length out)) s = Ret (code, out', n) s /\
     if ok && (length (runs_data rs) <=? length out)%nat then
       code = 0 /\ out' = runs_data rs ++ drop (length (runs_data rs)) out /\ n = Z.of_nat (length (runs_data rs))
     else code = - ENOSPC /\ length out' = length out) /\
  (forall rs' tail, Forall run_ok rs' -> (length tail < 2)%nat -> l = runs_bytes rs' ++ tail -> (rs, ok) = (rs', true)).
Proof.
  intros Hl Hlen Hout. destruct (runs_of (1 + length l) l) as [rs ok] eqn:Er. split; [by apply rle_decode_spec|].
  intros rs' tail Hok Ht ->. rewrite <- Er. apply runs_of_bytes; [done|done|lia].
Qed.

(** ** Concrete uses *)

#[local] Existing Instance mips32.

Lemma tag_find_first_witness :
  let ts := [mk_tag 4 [1; 2; 3; 4; 5]; mk_tag 11 [65; 66; 0]; mk_tag 4 [9]] in
  let mem := concat (tag_bytes <$> ts) ++ cpu_bytes 4 0 ++ replicate 40 255 in
  match first_tag ts 11 0 with
  | Some (o, data) =>
      routerboot_tag_find mem 64 11 tt = Ret (inr (o, Z.of_nat (length data))) tt /\
      slice mem o (Z.of_nat (length data)) = data
  | None => routerboot_tag_find mem 64 11 tt = Ret (inl (- ENOENT)) tt
  end.
Proof.
  apply (tag_find_first [mk_tag 4 [1; 2; 3; 4; 5]; mk_tag 11 [65; 66; 0]; mk_tag 4 [9]] (replicate 40 255) 64 11 tt).
  - repeat constructor; unfold is_byte; cbn; try lia; by left.
  - lia.
  - vm_compute. by split.
  - lia.
Defined.

Lemma rle_decode_runs_witness :
  let l := [3; 7; 254; 1; 2; 0; 9; 5] in
  let '(rs, ok) := runs_of (1 + length l) l in
  (exists code out' n,
     routerboot_rle_decode (l ++ [8]) 8 (replicate 10 0) 10 tt = Ret (code, out', n) tt /\
     if ok && (length (runs_data rs) <=? 10)%nat then
       code = 0 /\ out' = runs_data rs ++ drop (length (runs_data rs)) (replicate 10 0) /\ n = Z.of_nat (length (runs_data rs))
     else code = - ENOSPC /\ length out' = 10%nat) /\
  (forall rs' tail, Forall run_ok rs' -> (length tail < 2)%nat -> l = runs_bytes rs' ++ tail -> (rs, ok) = (rs', true)).
Proof.
  apply (rle_decode_runs [3; 7; 254; 1; 2; 0; 9; 5] [8] (replicate 10 0) tt).
  - repeat constructor; lia.
  - cbn. lia.
  - cbn. lia.
Defined.

Example rle_example :
  routerboot_rle_decode [3; 7; 254; 1; 2; 0; 9; 5] 8 (replicate 6 0) 6 tt = Ret (0, [7; 7; 7; 1; 2; 0], 5) tt.
Proof. vm_compute. reflexivity. Qed.

(** A length above [0xfffc] becomes 0 when it is aligned: the words of the payload are read as
    nodes, and a tag that lies inside another one's payload is found. *)
Example long_payload_searched :
  let mem := cpu_bytes 4 (1 + 2 ^ 16 * 0xfffd) ++ cpu_bytes 4 (2 + 2 ^ 16 * 4) ++ replicate 56 0 in
  routerboot_tag_find mem 64 2 tt = Ret (inr (8, 4)) tt.
Proof. vm_compute. reflexivity. Qed.
