(* ===== verification/RouterBootPart.v ===== *)
(** The partition parsers outside [mtdsplit]: MikroTik's, [drivers/mtd/parsers/routerbootpart.c]
    under [src/target/linux/generic/files], and Cybertan's,
    [src/target/linux/ath79/files/drivers/mtd/parsers/parser_cybertan.c]. *)

From stdpp Require Import base list numbers strings.
From Stdlib Require Import ZArith Lia.
From S2P Require Import Prelude Platform MtdSplit MtdSplitWfi RouterBoot.
Local Open Scope Z_scope.
Local Open Scope cprog_scope.

Definition RB_BLOCK_SIZE : Z := 0x1000.
Definition OF_DT_HEADER : Z := 0xd00dfeed.
Definition MTD_POWERUP_LOCK : Z := 0x2000.
Definition sizeof_dtb_header : Z := 40.

(** [struct routerboot_dynpart]; [dp_fixup] says whether [size_fixup] is
    [routerboot_dtbsfixup] or null. *)
Record routerboot_dynpart := mk_dynpart {
  dp_name : string;
  dp_magic : Z;
  dp_fixup : bool;
  dp_offset : Z;
  dp_size : Z;
  dp_found : bool
}.

(** The nodes of the device tree that describe the partitions: the properties [label], [name],
    [reg] and [size] (as cells), [read-only] and [lock], the name of the node, and the
    numbers of cells of addresses and sizes. *)
Record rb_node := mk_rb_node {
  rn_label : option string;
  rn_name : option string;
  rn_node : string;
  rn_reg : option (list Z);
  rn_size : option (list Z);
  rn_a_cells : nat;
  rn_s_cells : nat;
  rn_read_only : bool;
  rn_lock : bool
}.

(** [of_read_number(cell, size)]. *)
Definition of_read_number (cells : list Z) (size : nat) : Z :=
  foldl (fun r c => u64 (r * 2 ^ 32 + c)) 0 (take size cells).

Section routerbootpart.
Context `{Arch} {chip : Type} (m : mtd_dev chip).

Abbreviation prog := (M chip).

(** The table [rb_dynparts]; the kernel keeps what was found in it. *)
Definition rb_dynparts : list routerboot_dynpart := [
  mk_dynpart "hard_config" RB_MAGIC_HARD false 0 RB_BLOCK_SIZE false;
  mk_dynpart "soft_config" RB_MAGIC_SOFT false 0 RB_BLOCK_SIZE false;
  mk_dynpart "dtb_config" (cpu_field (be_bytes 4 OF_DT_HEADER) 0 4) true 0 0 false].

(** [routerboot_dtbsfixup(master, rbdpart)]: an error code, or the size. *)
Definition routerboot_dtbsfixup (offset : Z) : prog (Z + Z) :=
  let* r := read_exact m offset sizeof_dtb_header in
  match r with
  | inl e => ret (inl e)
  | inr hdr =>
      let psize := be_field hdr 4 4 in
      if psize =? 0 then ret (inl (- EINVAL)) else ret (inr (size_t psize))
  end.

(** The loop over the table at one offset: [magic] is the word there; the result is the
    table, whether all partitions had been found before, and the offset. *)
Fixpoint match_dynparts (parts : list routerboot_dynpart) (magic offset : Z)
    : prog (list routerboot_dynpart * bool * Z) :=
  match parts with
  | [] => ret ([], true, offset)
  | p :: rest =>
      let next (p : routerboot_dynpart) (found : bool) : prog (list routerboot_dynpart * bool * Z) :=
        let* (rest, all, offset) := match_dynparts rest magic offset in
        ret (p :: rest, found && all, offset) in
      if dp_found p then next p true
      else if dp_magic p =? magic then
        let* size := if dp_fixup p then routerboot_dtbsfixup offset else ret (inr (dp_size p)) in
        match size with
        | inl _ => next (mk_dynpart (dp_name p) (dp_magic p) (dp_fixup p) offset (dp_size p) false) false
        | inr size =>
            let p := mk_dynpart (dp_name p) (dp_magic p) (dp_fixup p) offset size true in
            let offset :=
              if size >? RB_BLOCK_SIZE then size_t (offset + align_down (size_t (size - RB_BLOCK_SIZE)) RB_BLOCK_SIZE)
              else offset in
            ret (p :: rest, false, offset)
        end
      else next p false
  end.

(** [routerboot_find_dynparts(master)].  The loop state is the table, the variable [buf] and
    [offset].  After a read that fails, [continue] starts the next round at the same offset. *)
Definition find_dynparts_step (st : list routerboot_dynpart * list Z * Z)
    : prog ((list routerboot_dynpart * list Z * Z) + list routerboot_dynpart) :=
  let '(parts, buf, offset) := st in
  if offset <? mtd_size m then
    let* (err, bytes) := call_mtd_read m offset 4 in
    let buf := blit buf 0 (take 4 bytes) in
    if negb (err =? 0) then ret (inl (parts, buf, offset))
    else
      let* (parts, all, offset) := match_dynparts parts (cpu_field buf 0 4) offset in
      let offset := size_t (offset + RB_BLOCK_SIZE) in
      ret (if (all : bool) then inr parts else inl (parts, buf, offset))
  else ret (inr parts).

Definition routerboot_find_dynparts (fuel : nat) (stack : list Z) (parts : list routerboot_dynpart)
    : prog (list routerboot_dynpart) :=
  loop fuel find_dynparts_step (parts, stack, 0).

(** The name of a node. *)
Definition part_label (n : rb_node) : string :=
  match rn_label n with
  | Some s => s
  | None => match rn_name n with Some s => s | None => rn_node n end
  end.

(** The offset and the size of a node, before they are compared with those around it;
    [None] for a property of the wrong length. *)
Definition node_place (dyn : list routerboot_dynpart) (master_ofs : Z) (n : rb_node) : option (Z * Z) :=
  match rn_reg n with
  | Some reg =>
      (* Fixed partition *)
      if negb (length reg =? rn_a_cells n + rn_s_cells n)%nat then None
      else Some (size_t (of_read_number reg (rn_a_cells n)),
                 size_t (of_read_number (drop (rn_a_cells n) reg) (rn_s_cells n)))
  | None =>
      (* Dynamic partition *)
      let '(offset, size) :=
        match List.find (fun p => String.eqb (part_label n) (dp_name p) && dp_found p) dyn with
        | Some p => (dp_offset p, dp_size p)
        | None => (master_ofs, 0)
        end in
      match rn_size n with
      | Some sz =>
          if negb (length sz =? rn_s_cells n)%nat then None
          else Some (offset, size_t (of_read_number sz (rn_s_cells n)))
      | None => Some (offset, size)
      end
  end.

Definition node_flags (n : rb_node) : Z :=
  Z.lor (if rn_read_only n then MTD_WRITEABLE else 0) (if rn_lock n then MTD_POWERUP_LOCK else 0).

(** One node: [done] are the partitions in front of it, the last one first. *)
Definition add_node (dyn : list routerboot_dynpart) (done : list mtd_partition) (master_ofs : Z) (n : rb_node)
    : option (list mtd_partition * Z) :=
  match node_place dyn master_ofs n with
  | None => None
  | Some (offset, size) =>
      let prev :=
        match done with
        | [] => Some []
        | p :: rest =>
            if offset <? u64 (part_offset p + part_size p) then None
            else if part_size p =? 0 then
              Some (new_mtd_partition (part_name p) (part_offset p) (u64 (offset - part_offset p)) (part_mask_flags p) :: rest)
            else Some (p :: rest)
        end in
      match prev with
      | None => None
      | Some prev =>
          if size_t (offset + size) >? mtd_size m then None
          else Some (new_mtd_partition (part_label n) offset size (node_flags n) :: prev,
                     size_t (align_up (size_t (offset + size)) RB_BLOCK_SIZE))
      end
  end.

Fixpoint add_nodes (dyn : list routerboot_dynpart) (done : list mtd_partition) (master_ofs : Z) (nodes : list rb_node)
    : option (list mtd_partition) :=
  match nodes with
  | [] => Some (reverse done)
  | n :: nodes =>
      match add_node dyn done master_ofs n with
      | None => None
      | Some (done, master_ofs) => add_nodes dyn done master_ofs nodes
      end
  end.

(** [routerboot_partitions_parse(master, pparts, data)]: [nodes] are the children of the
    device tree node ([None] without one), [parts] is the table.  [kcalloc_ok] says whether
    memory is granted. *)
Definition routerboot_partitions_parse (fuel : nat) (kcalloc_ok : bool) (stack : list Z) (nodes : option (list rb_node))
    (parts : list routerboot_dynpart) : prog (parse_result * list routerboot_dynpart) :=
  match nodes with
  | None | Some [] => ret ((0, None), parts)
  | Some nodes =>
      if negb kcalloc_ok then ret ((- ENOMEM, None), parts)
      else
        let* parts := routerboot_find_dynparts fuel stack parts in
        match add_nodes parts [] 0 nodes with
        | None => ret ((- EINVAL, None), parts)
        | Some l => ret ((Z.of_nat (length l), Some l), parts)
        end
  end.

(** * parser_cybertan.c *)

Definition sizeof_cybertan_header : Z := 32.
Definition sizeof_firmware_header : Z := 124.
Definition offsetof_uimage : Z := 60.
Definition CYBERTAN_TRX_MAGIC : Z := 0x30524448.
Definition CYBERTAN_IH_MAGIC : Z := 0x27051956.

(** [cybertan_parse_partitions(master, pparts, data)].  A header with the wrong magic gives 0,
    the result of the read. *)
Definition cybertan_parse_partitions (kcalloc_ok : bool) : prog parse_result :=
  if negb kcalloc_ok then parse_err (- ENOMEM)
  else
    let* r := read_exact m 0 sizeof_firmware_header in
    match r with
    | inl e => parse_err e
    | inr header =>
        if negb (le_field header 32 4 =? CYBERTAN_TRX_MAGIC) then parse_err 0
        else if negb (be_field header offsetof_uimage 4 =? CYBERTAN_IH_MAGIC) then parse_err 0
        else
          let kernel_len := u32 (le_field header (32 + 20) 4 + sizeof_cybertan_header) in
          let kernel_size := u64 (kernel_len - offsetof_uimage) in
          parse_ok [mk_mtd_partition "header" 0 offsetof_uimage;
                    mk_mtd_partition "kernel" offsetof_uimage kernel_size;
                    mk_mtd_partition "rootfs" (u64 (offsetof_uimage + kernel_size))
                      (u64 (u64 (mtd_size m - kernel_size) - offsetof_uimage))]
    end.
End routerbootpart.
