(* ===== verification/RouterBootPartSpec.v ===== *)
(** What the partition parsers of MikroTik and Cybertan devices guarantee: where the well-known
    partitions are found, when the search does not end, and that the partitions are in order
    and inside the device. *)

From stdpp Require Import base list numbers strings.
From Stdlib Require Import ZArith Lia.
From S2P Require Import Prelude Platform Bytes MtdSplit MtdSplitSpec MtdSplitWfi MtdSplitWitness RouterBoot RouterBootSpec RouterBootPart.
Local Open Scope Z_scope.
Local Open Scope cprog_scope.

(** * The search *)

Section search.
Context `{A : Arch} `{!ArchLaws A} {chip : Type} (m : mtd_dev chip) (data : list Z) `{!mtd_image m data}.
Context (Hblocks : mtd_size m mod RB_BLOCK_SIZE = 0).
Implicit Types (p q : routerboot_dynpart) (parts : list routerboot_dynpart).

Definition magic_at (o : Z) : Z := cpu_field data o 4.

(** A block boundary of the device. *)
Definition boundary (o : Z) : Prop := 0 <= o < mtd_size m /\ o mod RB_BLOCK_SIZE = 0.

(** The offset lies behind the start of a partition that has been found, which covers the
    block there. *)
Definition covered parts (o : Z) : Prop :=
  exists q, q ∈ parts /\ dp_found q = true /\ dp_offset q < o /\ o + RB_BLOCK_SIZE <= dp_offset q + dp_size q.

(** Entries of the table that stay what they are: what is searched for. *)
Definition key p : string * Z * bool := (dp_name p, dp_magic p, dp_fixup p).

(** The table after all boundaries below [o] have been looked at. *)
Record searched (parts : list routerboot_dynpart) (o : Z) : Prop := {
  se_found p : p ∈ parts -> dp_found p = true ->
    boundary (dp_offset p) /\ magic_at (dp_offset p) = dp_magic p /\ 0 <= dp_size p < 2 ^ 32 /\
    forall a, boundary a -> a < dp_offset p -> magic_at a = dp_magic p -> dp_fixup p = true \/ covered parts a;
  se_missing p : p ∈ parts -> dp_found p = false -> dp_fixup p = false ->
    0 <= dp_size p < 2 ^ 32 /\
    forall a, boundary a -> a < o -> magic_at a = dp_magic p -> covered parts a
}.

(** Entries that have not been found. *)
Definition missing parts : nat := length (List.filter (fun p => negb (dp_found p)) parts).

Lemma covered_cons p parts o : covered parts o -> covered (p :: parts) o.
Proof. intros (q & Hq & ?). exists q. split; [by right|done]. Qed.

Lemma boundary_read o c : boundary o -> call_mtd_read m o 4 c = Ret (0, slice data o 4) c.
Proof using mtd_image0 Hblocks.
  intros [Ho H4]. pose proof (mi_bound (m := m)). pose proof (mi_eb (m := m)). unfold call_mtd_read.
  rewrite loff_t_small by lia. unfold RB_BLOCK_SIZE in *.
  pose proof (Z.div_mod o 0x1000). pose proof (Z.div_mod (mtd_size m) 0x1000).
  rewrite mi_in by lia. done.
Qed.

(** What a look at the boundary [o] makes of an entry. *)
Record becomes (o : Z) p p' : Prop := {
  be_key : key p' = key p;
  be_keep : dp_found p = true -> p' = p;
  be_new : dp_found p = false -> dp_found p' = true ->
    dp_magic p = magic_at o /\ dp_offset p' = o /\ (0 <= dp_size p < 2 ^ 32 \/ dp_fixup p = true -> 0 <= dp_size p' < 2 ^ 32);
  be_missing : dp_found p = false -> dp_found p' = false ->
    dp_size p' = dp_size p /\ (dp_fixup p = false -> dp_magic p <> magic_at o)
}.

(** Where the search goes on after a partition of [size] bytes has been found at [o]. *)
Definition after_part (o size : Z) : Z :=
  if size >? RB_BLOCK_SIZE then size_t (o + align_down (size_t (size - RB_BLOCK_SIZE)) RB_BLOCK_SIZE) else o.

Lemma fixup_spec o c : boundary o ->
  wp (routerboot_dtbsfixup m o) (fun r c' => c' = c /\ match r with inr size => 0 <= size < 2 ^ 32 | inl _ => True end) c.
Proof using mtd_image0 ArchLaws0.
  intros [Ho _]. pose proof (mi_bound (m := m)). pose proof (mi_eb (m := m)). unfold routerboot_dtbsfixup.
  apply wp_bind. unfold wp. rewrite (read_exact_image m data) by (unfold sizeof_dtb_header; lia).
  destruct (o + sizeof_dtb_header <=? mtd_size m); [|done].
  pose proof (be_field_range (slice data o sizeof_dtb_header) 4 4 (slice_bytes _ _ _ mi_bytes) ltac:(lia)) as Hr.
  destruct (_ =? 0); [done|]. unfold ret. rewrite size_t_small by lia. done.
Qed.

(** The outcome for a whole table: nothing new, or one entry found. *)
Definition matched parts (o : Z) (r : list routerboot_dynpart * bool * Z) : Prop :=
  let '(parts', all, o') := r in
  Forall2 (becomes o) parts parts' /\
  ((o' = o /\ missing parts' = missing parts /\ (all = true -> missing parts = O)) \/
   (all = false /\ S (missing parts') = missing parts /\
    exists p', p' ∈ parts' /\ dp_found p' = true /\ dp_offset p' = o /\ o' = after_part o (dp_size p'))).

Lemma becomes_refl o p : (dp_found p = false -> dp_fixup p = false -> dp_magic p <> magic_at o) -> becomes o p p.
Proof. intros H. split; [done|done|congruence|auto]. Qed.

(** An entry that is found or does not change leaves the matter to the rest. *)
Lemma matched_next o p p' parts parts' all o' :
  becomes o p p' -> dp_found p' = dp_found p -> matched parts o (parts', all, o') ->
  matched (p :: parts) o (p' :: parts', dp_found p && all, o').
Proof.
  intros Hb Hf [HF Hcase]. split; [by constructor|]. unfold missing in *. cbn [List.filter]. rewrite Hf.
  destruct Hcase as [(-> & Hm & Hall)|(-> & Hm & q & Hq & ? & ? & ->)].
  - left. split; [done|]. destruct (dp_found p); cbn [negb length andb]; (split; [lia|]); [exact Hall|discriminate].
  - right. split; [by rewrite andb_false_r|]. destruct (dp_found p); cbn [negb length];
      (split; [lia|exists q; split_and!; [by right|done..]]).
Qed.

Lemma match_dynparts_spec parts o c :
  NoDup (dp_magic <$> parts) -> boundary o ->
  wp (match_dynparts m parts (magic_at o) o) (fun r c' => c' = c /\ matched parts o r) c.
Proof using mtd_image0 ArchLaws0.
  intros Hnd Ho. induction parts as [|p parts IH]; cbn [match_dynparts].
  { apply wp_ret. split; [done|]. split; [constructor|]. by left. }
  rewrite fmap_cons in Hnd. apply NoDup_cons in Hnd as [Hout Hnd]. specialize (IH Hnd).
  assert (forall p', becomes o p p' -> dp_found p' = dp_found p ->
    wp (let* (rest, all, offset) := match_dynparts m parts (magic_at o) o in ret (p' :: rest, dp_found p && all, offset))
      (fun r c' => c' = c /\ matched (p :: parts) o r) c) as Hnext.
  { intros p' Hb Hf. apply wp_bind. eapply wp_mono; [exact IH|]. intros [[rest all] o'] c' [-> Hm]. apply wp_ret.
    split; [done|]. by apply matched_next. }
  destruct (dp_found p) eqn:Ef; [apply Hnext; [apply becomes_refl; congruence|done]|].
  destruct (Z.eqb_spec (dp_magic p) (magic_at o)) as [Em|Hne]; [|apply Hnext; [by apply becomes_refl|done]].
  assert (forall size, (0 <= dp_size p < 2 ^ 32 \/ dp_fixup p = true -> 0 <= size < 2 ^ 32) ->
    matched (p :: parts) o (mk_dynpart (dp_name p) (dp_magic p) (dp_fixup p) o size true :: parts, false, after_part o size)) as Hfound.
  { intros size Hsz. split.
    - constructor; [split; [done|cbn; congruence|by intros; split_and!|cbn; congruence]|].
      apply Forall2_same_length_lookup_2; [done|]. intros i x y Hx Hy. rewrite Hx in Hy. injection Hy as <-.
      apply becomes_refl. intros _ _ Heq. apply Hout. rewrite Em, <- Heq. apply list_elem_of_fmap. exists x.
      split; [done|]. by eapply list_elem_of_lookup_2.
    - right. split; [done|]. unfold missing. cbn [List.filter dp_found negb]. rewrite Ef. cbn [negb length]. split; [done|].
      eexists. split; [by left|]. done. }
  apply wp_bind. destruct (dp_fixup p) eqn:Ex.
  - wp_call fixup_spec; [done|]. intros [e|size] c' [-> Hsz].
    + apply Hnext; [|done]. split; cbn; [unfold key; cbn; by rewrite Ex|congruence|congruence|]. intros _ _. split; [done|congruence].
    + apply wp_ret. split; [done|]. apply Hfound. done.
  - apply wp_ret, wp_ret. split; [done|]. apply Hfound. intros [?|?]; [done|congruence].
Qed.

(** Stepping over what has been found. *)
Lemma next_boundary o size : boundary o -> 0 <= size < 2 ^ 32 ->
  let n := size_t (after_part o size + RB_BLOCK_SIZE) in
  0 <= n /\ n mod RB_BLOCK_SIZE = 0 /\
  (n <= o \/ n = o + RB_BLOCK_SIZE \/ n + RB_BLOCK_SIZE <= o + size + RB_BLOCK_SIZE).
Proof using ArchLaws0 mtd_image0.
  intros [Ho H4] Hs n. pose proof (mi_bound (m := m)). pose proof (mi_eb (m := m)).
  pose proof (long_bits_32 : 32 <= long_bits) as H32.
  assert (exists k, n = size_t (o + k * 0x1000 + 0x1000) /\ 0 <= k /\ (k = 0 \/ k * 0x1000 + 0x1000 <= size)) as (k & -> & Hk & Hk').
  { unfold n, after_part, RB_BLOCK_SIZE. destruct (Z.gtb_spec size 0x1000) as [Hg|].
    - exists ((size - 0x1000) / 0x1000). rewrite (size_t_small (size - 0x1000)) by lia. unfold align_down, size_t.
      rewrite Zplus_mod_idemp_l. pose proof (Z.div_mod (size - 0x1000) 0x1000).
      pose proof (Z.mod_pos_bound (size - 0x1000) 0x1000). pose proof (Z.div_pos (size - 0x1000) 0x1000).
      split_and!; [done|lia|right; lia].
    - exists 0. split_and!; [f_equal; lia|lia|by left]. }
  unfold RB_BLOCK_SIZE in *. assert (0 <= size_t (o + k * 0x1000 + 0x1000)) by apply size_t_range.
  assert (exists t, 2 ^ long_bits = t * 0x1000 /\ 2 ^ 32 <= 2 ^ long_bits) as (t & Et & Hbig).
  { exists (2 ^ (long_bits - 12)). split; [|apply Z.pow_le_mono_r; lia].
    change 0x1000 with (2 ^ 12). rewrite <- Z.pow_add_r by lia. f_equal. lia. }
  assert (size_t (o + k * 0x1000 + 0x1000) = o + k * 0x1000 + 0x1000 \/
    size_t (o + k * 0x1000 + 0x1000) = o + k * 0x1000 + 0x1000 - 2 ^ long_bits) as [E|E].
  { unfold size_t. destruct (Z_lt_le_dec (o + k * 0x1000 + 0x1000) (2 ^ long_bits)); [left; apply Z.mod_small; lia|].
    right. rewrite <- (Z.mod_add _ (-1)) by lia. rewrite Z.mod_small by lia. lia. }
  - rewrite E. split_and!; [lia| |lia].
    replace (o + k * 0x1000 + 0x1000) with (o + (k + 1) * 0x1000) by lia. by rewrite Z.mod_add.
  - rewrite E. split_and!; [lia| |lia].
    replace (o + k * 0x1000 + 0x1000 - 2 ^ long_bits) with (o + (k + 1 - t) * 0x1000) by lia. by rewrite Z.mod_add.
Qed.

Lemma becomes_covered parts parts' o a : Forall2 (becomes o) parts parts' -> covered parts a -> covered parts' a.
Proof.
  intros HF (q & Hq & Hf & ?). apply list_elem_of_lookup in Hq as [i Hi].
  destruct (Forall2_lookup_l _ _ _ _ _ HF Hi) as (q' & Hi' & Hb). rewrite (be_keep _ _ _ Hb Hf) in Hi'.
  exists q. split; [by eapply list_elem_of_lookup_2|done].
Qed.

(** What lies between a boundary and the one the search goes on with. *)
Lemma between_covered parts o r a :
  boundary o -> searched parts o -> matched parts o r ->
  let n := size_t (r.2 + RB_BLOCK_SIZE) in
  0 <= n /\ n mod RB_BLOCK_SIZE = 0 /\ (boundary a -> o < a < n -> covered r.1.1 a) /\
  (missing r.1.1 = missing parts -> n = o + RB_BLOCK_SIZE).
Proof using ArchLaws0 mtd_image0 Hblocks.
  destruct r as [[parts' all] o']. cbn [fst snd]. intros Ho Hs [HF Hcase]. pose proof (mi_bound (m := m)) as Hmb.
  pose proof (mi_eb (m := m)) as Hme. pose proof Ho as [Ho1 Ho2]. unfold RB_BLOCK_SIZE in *.
  assert (forall n, boundary a -> n mod 0x1000 = 0 -> o < a < n -> o + 0x1000 <= a /\ a + 0x1000 <= n) as Hstep.
  { intros n [_ Ha] Hn. unfold RB_BLOCK_SIZE in *. pose proof (Z.div_mod a 0x1000). pose proof (Z.div_mod o 0x1000).
    pose proof (Z.div_mod n 0x1000). lia. }
  destruct Hcase as [(-> & Hm & _)|(-> & Hm & q & Hq & Hf & Hqo & ->)].
  - pose proof (Z.div_mod o 0x1000). pose proof (Z.div_mod (mtd_size m) 0x1000).
    unfold RB_BLOCK_SIZE in Hblocks. rewrite size_t_small by lia.
    assert ((o + 0x1000) mod 0x1000 = 0) as Hn by (rewrite Zplus_mod, Ho2; done).
    split_and!; [lia|done| |done]. intros Hba Hlt. specialize (Hstep (o + 0x1000) Hba Hn Hlt). lia.
  - assert (0 <= dp_size q < 2 ^ 32) as Hsz.
    { apply list_elem_of_lookup in Hq as [i Hi]. destruct (Forall2_lookup_r _ _ _ _ _ HF Hi) as (q0 & Hi0 & Hb).
      apply list_elem_of_lookup_2 in Hi0. destruct (dp_found q0) eqn:E0.
      - rewrite (be_keep _ _ _ Hb E0) in *. by apply (se_found _ _ Hs _ Hi0 E0).
      - apply (be_new _ _ _ Hb E0 Hf). destruct (dp_fixup q0) eqn:Ex; [by right|left].
        by apply (se_missing _ _ Hs _ Hi0 E0 Ex). }
    destruct (next_boundary o (dp_size q) Ho Hsz) as (H1 & H2 & H3). unfold RB_BLOCK_SIZE in H1, H2, H3.
    split_and!; [done|done| |lia]. intros Hba Hlt. destruct (Hstep _ Hba H2 Hlt) as [Hl1 Hl2].
    exists q. unfold RB_BLOCK_SIZE. split_and!; [done|done|lia|lia].
Qed.

Lemma searched_step parts o r :
  boundary o -> searched parts o -> matched parts o r -> searched r.1.1 (size_t (r.2 + RB_BLOCK_SIZE)).
Proof using ArchLaws0 mtd_image0 Hblocks.
  intros Ho Hs Hm. pose proof (fun a => between_covered parts o r a Ho Hs Hm) as Hbet.
  destruct r as [[parts' all] o']. destruct Hm as [HF _]. cbn [fst snd] in *.
  assert (forall p', p' ∈ parts' -> exists p, p ∈ parts /\ becomes o p p') as Hpre.
  { intros p' (i & Hi)%list_elem_of_lookup. destruct (Forall2_lookup_r _ _ _ _ _ HF Hi) as (p & Hp & Hb).
    exists p. split; [by eapply list_elem_of_lookup_2|done]. }
  split; intros p' (p & Hp & Hb)%Hpre Hf'; pose proof (be_key _ _ _ Hb) as [= _ Ek Ex].
  - destruct (dp_found p) eqn:Ef.
    + rewrite (be_keep _ _ _ Hb Ef) in *. destruct (se_found _ _ Hs p Hp Ef) as (H1 & H2 & H3 & H4).
      do 3 (split; [done|]). intros a Ha Hlt Hma. destruct (H4 a Ha Hlt Hma); [by left|right; by eapply becomes_covered].
    + destruct (be_new _ _ _ Hb Ef Hf') as (H1 & -> & H3). rewrite Ek, Ex. split; [done|]. split; [done|]. split.
      { apply H3. destruct (dp_fixup p) eqn:Ex'; [by right|left; by apply (se_missing _ _ Hs p Hp Ef Ex')]. }
      intros a Ha Hlt Hma. destruct (dp_fixup p) eqn:Ex'; [by left|right].
      eapply becomes_covered; [done|]. by apply (se_missing _ _ Hs p Hp Ef Ex').
  - intros Hfix. destruct (dp_found p) eqn:Ef; [rewrite (be_keep _ _ _ Hb Ef) in Hf'; congruence|].
    rewrite Ex in Hfix. destruct (be_missing _ _ _ Hb Ef Hf') as [-> Hne]. specialize (Hne Hfix).
    destruct (se_missing _ _ Hs p Hp Ef Hfix) as [Hsz Hbelow]. split; [done|]. rewrite Ek. intros a Ha Hlt Hma.
    destruct (Z_lt_le_dec a o); [eapply becomes_covered; [done|]; by apply Hbelow|].
    destruct (decide (a = o)) as [->|]; [congruence|]. destruct (Hbet a) as (_ & _ & Hc & _). apply Hc; [done|lia].
Qed.

Lemma becomes_keys parts parts' o : Forall2 (becomes o) parts parts' -> key <$> parts' = key <$> parts.
Proof. induction 1 as [|p p' parts parts' Hb _ IH]; [done|]. cbn. by rewrite IH, (be_key _ _ _ Hb). Qed.

Lemma key_magics parts parts' : key <$> parts' = key <$> parts -> dp_magic <$> parts' = dp_magic <$> parts.
Proof.
  intros E. assert (forall l, dp_magic <$> l = (fun k => k.1.2) <$> (key <$> l)) as H
    by (intros l; rewrite <- list_fmap_compose; done). by rewrite !H, E.
Qed.

Lemma missing_none parts o : missing parts = O -> searched parts o -> searched parts (mtd_size m).
Proof.
  intros Hm [H1 _]. split; [done|]. intros p (i & Hi)%list_elem_of_lookup Hf.
  exfalso. unfold missing in Hm. apply length_zero_iff_nil in Hm.
  assert (p ∈ List.filter (fun p => negb (dp_found p)) parts) as Hin.
  { apply list_elem_of_In, filter_In. split; [apply list_elem_of_In; by eapply list_elem_of_lookup_2|by rewrite Hf]. }
  rewrite Hm in Hin. by apply not_elem_of_nil in Hin.
Qed.

Lemma missing_le parts : (missing parts <= length parts)%nat.
Proof. unfold missing. induction parts as [|p parts IH]; [done|]. cbn [List.filter]. destruct (negb _); cbn [length]; lia. Qed.

(** On a device of whole blocks that can be read, the search comes to an end. *)
Lemma find_dynparts_searched fuel stack parts c :
  NoDup (dp_magic <$> parts) -> length stack = 4%nat ->
  (forall p, p ∈ parts -> dp_found p = false /\ 0 <= dp_size p < 2 ^ 32) ->
  ((length parts + 1) * Z.to_nat (mtd_size m / RB_BLOCK_SIZE + 3) < fuel)%nat ->
  wp (routerboot_find_dynparts m fuel stack parts)
    (fun parts' c' => c' = c /\ key <$> parts' = key <$> parts /\ searched parts' (mtd_size m)) c.
Proof using ArchLaws0 mtd_image0 Hblocks.
  intros Hnd Hst Hp Hfuel. set (N := Z.to_nat (mtd_size m / RB_BLOCK_SIZE + 3)) in *.
  apply (wp_loop (fun '(ps, buf, o) c' => c' = c /\ key <$> ps = key <$> parts /\ searched ps o /\ length buf = 4%nat /\
      0 <= o /\ o mod RB_BLOCK_SIZE = 0)
    (fun '(ps, buf, o) _ => missing ps * N + Z.to_nat (mtd_size m / RB_BLOCK_SIZE + 1 - o / RB_BLOCK_SIZE))%nat).
  2: { split_and!; try done. split; intros p Hin Hf; destruct (Hp p Hin); [congruence|].
       intros _. split; [done|]. intros a [? _]. lia. }
  2: { rewrite Z.div_0_l by done. assert (missing parts <= length parts)%nat by apply missing_le. nia. }
  intros [[ps buf] o] c' (-> & Hkey & Hs & Hbuf & Ho & Ho4). unfold find_dynparts_step.
  destruct (Z.ltb_spec o (mtd_size m)) as [Hlt|Hge].
  2: { apply wp_ret. split_and!; [done|done|]. destruct Hs as [H1 H2]. split; [done|]. intros p Hin Hf Hfix.
       destruct (H2 p Hin Hf Hfix) as [? Hb]. split; [done|]. intros a Ha ? Hma. apply Hb; [done|lia|done]. }
  assert (boundary o) as Hbo by done. apply wp_bind. eapply wp_intro; [by apply boundary_read|]. cbn beta iota.
  change (negb (0 =? 0)) with false. cbn iota.
  assert (length (slice data o 4) = 4%nat) as Hsl.
  { pose proof (mi_length (m := m) (data := data)). apply Nat2Z.inj. rewrite length_slice; [done|lia|lia|].
    unfold RB_BLOCK_SIZE in *. pose proof (Z.div_mod o 0x1000). pose proof (Z.div_mod (mtd_size m) 0x1000). lia. }
  assert (blit buf 0 (take 4 (slice data o 4)) = slice data o 4) as ->.
  { rewrite take_ge by lia. unfold blit. change (Z.to_nat 0) with O. rewrite drop_ge by lia. by rewrite app_nil_r. }
  assert (cpu_field (slice data o 4) 0 4 = magic_at o) as ->.
  { unfold magic_at. by rewrite cpu_field_slice, Z.add_0_r by lia. }
  apply wp_bind. wp_call match_dynparts_spec; [by rewrite (key_magics _ _ Hkey)|done|].
  intros r c1 [-> Hm]. pose proof (searched_step ps o r Hbo Hs Hm) as Hs'.
  destruct (between_covered ps o r 0 Hbo Hs Hm) as (H1 & H2 & _ & Hn). destruct r as [[ps' all] o']. cbn [fst snd] in *.
  destruct Hm as [HF Hcase]. pose proof (becomes_keys _ _ _ HF) as Hk'. apply wp_ret. destruct all.
  - split_and!; [done|congruence|]. destruct Hcase as [(_ & Hm & Hall)|(? & _)]; [|done].
    eapply missing_none; [|exact Hs']. rewrite Hm. by apply Hall.
  - split; [by split_and!; try congruence|].
    destruct Hcase as [(_ & Hm & _)|(_ & Hm & _)].
    + rewrite (Hn Hm), Hm. unfold RB_BLOCK_SIZE in *. replace (o + 0x1000) with (o + 1 * 0x1000) by lia.
      rewrite Z.div_add by lia. pose proof (Z.div_lt_upper_bound o 0x1000 (mtd_size m / 0x1000)).
      pose proof (Z.div_mod (mtd_size m) 0x1000). lia.
    + rewrite <- Hm, Nat.mul_succ_l. set (e := size_t (o' + RB_BLOCK_SIZE)) in *.
      assert (Z.to_nat (mtd_size m / RB_BLOCK_SIZE + 1 - e / RB_BLOCK_SIZE) < N)%nat; [|lia].
      pose proof (Z.div_pos e RB_BLOCK_SIZE H1 ltac:(done)).
      pose proof (Z.div_pos (mtd_size m) RB_BLOCK_SIZE ltac:(lia) ltac:(done)). unfold N. lia.
Qed.

(** * The partitions *)

(** What a node describes can be added up in a [size_t]. *)
Definition node_fits (dyn : list routerboot_dynpart) (n : rb_node) : Prop :=
  forall master_ofs o s, node_place dyn master_ofs n = Some (o, s) -> 0 <= o /\ 0 <= s /\ o + s < 2 ^ long_bits.

(** Partitions, the last one first: each ends where the one behind it starts or in front of
    it, and none ends behind the device. *)
Fixpoint in_order (limit : Z) (l : list mtd_partition) : Prop :=
  match l with
  | [] => True
  | p :: rest => 0 <= part_offset p /\ 0 <= part_size p /\ part_offset p + part_size p <= limit /\
      in_order (part_offset p) rest
  end.

Lemma node_place_fits dyn ofs n o s : node_fits dyn n -> node_place dyn ofs n = Some (o, s) ->
  size_t (o + s) = o + s /\ 0 <= o /\ 0 <= s.
Proof. intros Hf E. destruct (Hf _ _ _ E) as (? & ? & ?). split; [apply Z.mod_small; lia|done]. Qed.

Lemma add_node_order dyn acc ofs n acc' ofs' :
  node_fits dyn n -> in_order (mtd_size m) acc -> add_node m dyn acc ofs n = Some (acc', ofs') ->
  in_order (mtd_size m) acc' /\ part_name <$> acc' = part_label n :: (part_name <$> acc).
Proof using mtd_image0.
  intros Hfit Hord. unfold add_node. pose proof (mi_bound (m := m)) as Hmb. pose proof (mi_eb (m := m)) as Hme.
  destruct (node_place dyn ofs n) as [[o s]|] eqn:Ep; [|done].
  destruct (node_place_fits _ _ _ _ _ Hfit Ep) as (Eos & Ho & Hs). rewrite Eos.
  assert (forall prev, in_order o prev -> part_name <$> prev = part_name <$> acc ->
    (if o + s >? mtd_size m then None
     else Some (new_mtd_partition (part_label n) o s (node_flags n) :: prev, size_t (align_up (o + s) RB_BLOCK_SIZE)))
      = Some (acc', ofs') ->
    in_order (mtd_size m) acc' /\ part_name <$> acc' = part_label n :: (part_name <$> acc)) as Hlast.
  { intros prev Hprev En. destruct (Z.gtb_spec (o + s) (mtd_size m)); [done|]. intros [= <- _].
    split; [done|]. rewrite fmap_cons, En. done. }
  destruct acc as [|p rest]; [by apply Hlast|]. destruct Hord as (Hp1 & Hp2 & Hp3 & Hrest).
  rewrite u64_small by lia. destruct (Z.ltb_spec o (part_offset p + part_size p)); [done|].
  destruct (Z.eqb_spec (part_size p) 0); [|apply Hlast; done].
  destruct (Z.gtb_spec (o + s) (mtd_size m)) as [|Hle]; [done|]. intros [= <- _].
  cbn -[Z.add]. rewrite u64_small by lia. split_and!; try done; lia.
Qed.

Lemma add_nodes_order dyn nodes : forall acc ofs l,
  Forall (node_fits dyn) nodes -> in_order (mtd_size m) acc -> add_nodes m dyn acc ofs nodes = Some l ->
  in_order (mtd_size m) (reverse l) /\ part_name <$> l = (part_name <$> reverse acc) ++ (part_label <$> nodes).
Proof using mtd_image0.
  induction nodes as [|n nodes IH]; cbn [add_nodes]; intros acc ofs l Hfit Hord.
  { intros [= <-]. rewrite reverse_involutive. by rewrite app_nil_r. }
  inversion Hfit as [|? ? Hn Hns]; subst. destruct (add_node m dyn acc ofs n) as [[acc' ofs']|] eqn:E; [|done].
  destruct (add_node_order _ _ _ _ _ _ Hn Hord E) as [Hord' En]. intros El.
  destruct (IH _ _ _ Hns Hord' El) as [H1 H2]. split; [done|]. rewrite H2, !fmap_reverse, En, reverse_cons, <- app_assoc.
  by rewrite fmap_cons.
Qed.

(** C12: on a device of whole blocks that can be read, [routerboot_partitions_parse] comes to
    an end.  The well-known partitions it has found start at block boundaries with their magic
    numbers; [hard_config] and [soft_config] at the first such boundary that no other partition
    found covers, and one of them that is not found has no such boundary.  The partitions it
    reports bear the labels of the nodes in their order, do not overlap and lie inside the
    device, if places and sizes of the nodes can be added up in a [size_t]. *)
Theorem partitions_parse_spec fuel kcalloc_ok stack nodes parts c :
  NoDup (dp_magic <$> parts) -> length stack = 4%nat ->
  (forall p, p ∈ parts -> dp_found p = false /\ 0 <= dp_size p < 2 ^ 32) ->
  ((length parts + 1) * Z.to_nat (mtd_size m / RB_BLOCK_SIZE + 3) < fuel)%nat ->
  wp (routerboot_partitions_parse m fuel kcalloc_ok stack (Some nodes) parts)
    (fun '((r, l), parts') c' => c' = c /\
      (nodes <> [] -> kcalloc_ok = true ->
        key <$> parts' = key <$> parts /\ searched parts' (mtd_size m) /\
        (l = None -> r = - EINVAL)) /\
      forall l', l = Some l' -> Forall (node_fits parts') nodes ->
        r = Z.of_nat (length nodes) /\ part_name <$> l' = part_label <$> nodes /\ in_order (mtd_size m) (reverse l')) c.
Proof using ArchLaws0 mtd_image0 Hblocks.
  intros Hnd Hst Hp Hfuel. unfold routerboot_partitions_parse.
  destruct nodes as [|n nodes]; [by apply wp_ret|]. destruct kcalloc_ok; cbn [negb]; [|by apply wp_ret].
  apply wp_bind. wp_call find_dynparts_searched; [done..|]. intros parts' c' (-> & Hk & Hs).
  destruct (add_nodes m parts' [] 0 (n :: nodes)) as [l|] eqn:El; apply wp_ret; (split; [done|]); [|done].
  split; [done|]. intros l' [= <-] Hfit. destruct (add_nodes_order _ _ _ _ _ Hfit (I : in_order _ []) El) as [H1 H2].
  assert (length l = length (n :: nodes)) as -> by (apply (f_equal length) in H2; rewrite length_app, !length_fmap in H2; done).
  done.
Qed.
End search.

(** * A device that does not answer *)

(** A [mtd_read] that keeps failing at the offset the search has come to keeps it there. *)
Theorem find_dynparts_hangs `{A : Arch} {chip} (m : mtd_dev chip) fuel stack parts (P : chip -> Prop) c :
  0 < mtd_size m -> P c ->
  (forall c, P c -> exists e bytes c', mtd_read m 0 4 c = ((e, bytes), c') /\ e <> 0 /\ P c') ->
  routerboot_find_dynparts m fuel stack parts c = Diverge.
Proof.
  intros Hsize Hc Hfail. unfold routerboot_find_dynparts. revert stack c Hc.
  induction fuel as [|fuel IH]; intros stack c Hc; [done|]. cbn [loop]. unfold bind at 1, find_dynparts_step.
  rewrite (proj2 (Z.ltb_lt _ _) Hsize). destruct (Hfail c Hc) as (e & bytes & c' & E & He & Hc').
  unfold bind, call_mtd_read. change (loff_t 0) with 0. rewrite E.
  rewrite (proj2 (Z.eqb_neq e 0) He). cbn [negb ret]. by apply IH.
Qed.

(** * Concrete devices *)

(** Three blocks: the boot loader, [hard_config] and [soft_config]. *)
Definition rb_data : list Z := block 4096 [] ++ block 4096 [72; 97; 114; 100] ++ block 4096 [83; 111; 102; 116].
Definition rb_dev : mtd_dev unit := image_dev "partition0" 4096 rb_data.

#[local] Instance rb_image : mtd_image rb_dev rb_data.
Proof. image_bytes. Qed.

Definition rb_dt_nodes : list rb_node := [
  mk_rb_node (Some "booter"%string) None "partition@0" (Some [0; 0x800]) None 1 1 true false;
  mk_rb_node None None "hard_config" None None 1 1 true false;
  mk_rb_node None (Some "soft_config"%string) "dyn" None None 1 1 false false].

Definition rb_found : list routerboot_dynpart := [
  mk_dynpart "hard_config" RB_MAGIC_HARD false 0x1000 RB_BLOCK_SIZE true;
  mk_dynpart "soft_config" RB_MAGIC_SOFT false 0x2000 RB_BLOCK_SIZE true;
  mk_dynpart "dtb_config" 0xedfe0dd0 true 0 0 false].

Lemma rb_result :
  @routerboot_partitions_parse aarch64 _ rb_dev 1000 true [0; 0; 0; 0] (Some rb_dt_nodes) (@rb_dynparts aarch64) tt =
  Ret ((3, Some [new_mtd_partition "booter" 0 0x800 MTD_WRITEABLE;
    new_mtd_partition "hard_config" 0x1000 RB_BLOCK_SIZE MTD_WRITEABLE;
    new_mtd_partition "soft_config" 0x2000 RB_BLOCK_SIZE 0]), rb_found) tt.
Proof. vm_compute. reflexivity. Qed.

Lemma rb_nodes_fit : Forall (@node_fits aarch64 rb_found) rb_dt_nodes.
Proof.
  repeat apply Forall_cons_2; [..|by apply Forall_nil]; intros ofs o s E; vm_compute in E; injection E as <- <-;
    vm_compute; (split; [discriminate|split; [discriminate|reflexivity]]).
Qed.

Lemma partitions_parse_spec_witness :
  @searched aarch64 _ rb_dev rb_data rb_found 0x3000 /\
  in_order 0x3000 (reverse [new_mtd_partition "booter" 0 0x800 MTD_WRITEABLE;
    new_mtd_partition "hard_config" 0x1000 RB_BLOCK_SIZE MTD_WRITEABLE;
    new_mtd_partition "soft_config" 0x2000 RB_BLOCK_SIZE 0]).
Proof.
  pose proof (@partitions_parse_spec aarch64 _ _ rb_dev rb_data _ eq_refl 1000 true [0; 0; 0; 0] rb_dt_nodes (@rb_dynparts aarch64) tt) as H.
  unfold wp in H. rewrite rb_result in H.
  destruct H as (_ & H1 & H2).
  - apply (bool_decide_unpack _). vm_compute. reflexivity.
  - reflexivity.
  - intros p Hp. repeat (apply elem_of_cons in Hp as [->|Hp]; [vm_compute; split; [reflexivity|split; [discriminate|reflexivity]]|]).
    by apply not_elem_of_nil in Hp.
  - apply Nat.ltb_lt. vm_compute. reflexivity.
  - destruct (H1 ltac:(discriminate) eq_refl) as (_ & Hs & _). destruct (H2 _ eq_refl rb_nodes_fit) as (_ & _ & Ho).
    split; [exact Hs|exact Ho].
Defined.

(** A chip that answers no read. *)
Definition dead_dev : mtd_dev unit := mk_mtd_dev "dead" 0x10000 4096 4096 0 (fun _ _ c => ((- EIO, []), c)) true true.

Lemma find_dynparts_hangs_witness :
  @routerboot_find_dynparts aarch64 _ dead_dev 1000 [0; 0; 0; 0] (@rb_dynparts aarch64) tt = Diverge.
Proof.
  apply (find_dynparts_hangs (A := aarch64) dead_dev 1000 _ _ (fun _ => True)); [reflexivity|exact I|].
  intros [] _. exists (- EIO), [], tt. split; [reflexivity|]. split; [discriminate|exact I].
Defined.

(** Where [size_t] has 32 bits, the sum of a fixed place and size wraps around, and a partition
    that ends far behind the device is accepted. *)
Definition far_node : rb_node := mk_rb_node (Some "far"%string) None "far" (Some [0x2000; 0xfffff000]) None 1 1 false false.

Example far_partition_accepted :
  @add_nodes mips32 _ rb_dev rb_found [] 0 [far_node] = Some [new_mtd_partition "far" 0x2000 0xfffff000 0].
Proof. vm_compute. reflexivity. Qed.
