(* ===== verification/RbConfig.v ===== *)
(** The two drivers that show the flash data of MikroTik boot loaders in sysfs,
    [rb_hardconfig.c] and [rb_softconfig.c] under
    [src/target/linux/generic/files/drivers/platform/mikrotik], and the module that starts
    them, [routerboot.c].  The hardware configuration is read only; the software configuration
    is kept in a buffer that writers change and that a commit writes to the flash. *)

From stdpp Require Import base list numbers strings.
From Stdlib Require Import ZArith Lia.
From S2P Require Import Prelude Platform CStrings NmbmBlocks RouterBoot.
Local Open Scope Z_scope.
Local Open Scope cprog_scope.

Definition EACCES : Z := 13.
Definition EFBIG : Z := 27.
Definition ENODATA : Z := 61.
Definition EOPNOTSUPP : Z := 95.

(** * What the drivers rely on *)

(** A flash partition: [mtd_read] gives an error code and the bytes delivered, [mtd_erase] an
    error code, [mtd_write] an error code and the number of bytes written. *)
Record rb_mtd (chip : Type) := mk_rb_mtd {
  rm_size : Z;
  rm_read : Z -> Z -> chip -> (Z * list Z) * chip;
  rm_erase : Z -> Z -> chip -> Z * chip;
  rm_write : Z -> list Z -> chip -> (Z * Z) * chip
}.
Arguments mk_rb_mtd {chip} _ _ _ _.
Arguments rm_size {chip} _.
Arguments rm_read {chip} _ _ _ _.
Arguments rm_erase {chip} _ _ _ _.
Arguments rm_write {chip} _ _ _ _.

(** What the kernel knows about the chip, with [CONFIG_ATH79]. *)
Record ath79_soc := mk_soc {
  soc_is_ar7161 : bool;
  soc_is_ar71xx : bool;
  soc_is_ar724x : bool;
  soc_is_ar9344 : bool;
  soc_is_qca953x : bool;
  soc_is_qca9556 : bool;
  soc_is_qca9558 : bool
}.

(** The configuration and the rest of the kernel: the partitions of the two names, the parsing
    of numbers and booleans, the comparison of strings, the decompressor (the bytes to unpack
    and the room for them give an error code and the bytes written), whether memory and
    directories are granted, and the results of [sysfs_create_file]. *)
Record rb_env (chip : Type) := mk_rb_env {
  RB_SC_HAS_WRITE_SUPPORT : bool;
  CONFIG_ATH79 : option ath79_soc;
  capable : bool;
  soft_config : option (rb_mtd chip);
  hard_config : option (rb_mtd chip);
  kstrtou32 : list Z -> Z + Z;
  kstrtobool : list Z -> Z + bool;
  sysfs_streq : list Z -> list Z -> bool;
  lzo1x_decompress_safe : list Z -> Z -> Z * list Z;
  kmalloc_buf : bool;
  kmalloc_outbuf : option (list Z);
  kmalloc_tempbuf : option (list Z);
  kobject_ok : bool;
  wlan_kobject_ok : bool;
  sysfs_create : list Z -> Z
}.
Arguments RB_SC_HAS_WRITE_SUPPORT {chip} _.
Arguments CONFIG_ATH79 {chip} _.
Arguments capable {chip} _.
Arguments soft_config {chip} _.
Arguments hard_config {chip} _.
Arguments kmalloc_buf {chip} _.
Arguments kmalloc_outbuf {chip} _.
Arguments kmalloc_tempbuf {chip} _.
Arguments kobject_ok {chip} _.
Arguments wlan_kobject_ok {chip} _.
Arguments kstrtou32 {chip} _ _.
Arguments kstrtobool {chip} _ _.
Arguments sysfs_streq {chip} _ _ _.
Arguments lzo1x_decompress_safe {chip} _ _ _.
Arguments sysfs_create {chip} _ _.

(** * The state

    The static variables of the two drivers: the buffers (null before the start and after an
    error), and for each known tag the place and the length of its payload; and the names of
    the files that exist in sysfs. *)
Record softconfig := mk_softconfig {
  sc_buf : option (list Z);
  sc_buflen : Z;
  sc_plds : list (Z * Z);
  sc_files : list (list Z)
}.

Record hardconfig := mk_hardconfig {
  hc_buf : option (list Z);
  hc_buflen : Z;
  hc_plds : list (Z * Z);
  hc_wd_solo : Z * Z;
  hc_wd_multi : list (Z * Z);
  hc_files : list (list Z)
}.

Record rb_state (chip : Type) := mk_rb_state { rb_sc : softconfig; rb_hc : hardconfig; rb_chip : chip }.
Arguments mk_rb_state {chip} _ _ _.
Arguments rb_sc {chip} _.
Arguments rb_hc {chip} _.
Arguments rb_chip {chip} _.

(** * Tables of rb_softconfig.c *)

Definition RB_SC_CRC32_OFFSET : Z := 4.
Definition RB_BOOT_DELAY_MIN : Z := 1.
Definition RB_BOOT_DELAY_MAX : Z := 9.

(** [struct sc_u32tvs]: values and their names. *)
Definition sc_u32tvs : Type := list (Z * list Z).

Definition sc_uartspeeds : sc_u32tvs := [
  (8, ascii_bytes "off"); (7, ascii_bytes "1200"); (6, ascii_bytes "2400"); (5, ascii_bytes "4800");
  (4, ascii_bytes "9600"); (3, ascii_bytes "19200"); (2, ascii_bytes "38400"); (1, ascii_bytes "57600");
  (0, ascii_bytes "115200")].

Definition sc_bootdevices : sc_u32tvs := [
  (0, ascii_bytes "eth"); (1, ascii_bytes "flasheth"); (3, ascii_bytes "ethonce");
  (5, ascii_bytes "flash"); (7, ascii_bytes "cfg"); (8, ascii_bytes "cfgonce")].

Definition sc_cpufreq_indexes_ath79_9x : sc_u32tvs := [
  (0 * 8, ascii_bytes "a"); (1 * 8, ascii_bytes "b"); (2 * 8, ascii_bytes "c");
  (3 * 8, ascii_bytes "d"); (4 * 8, ascii_bytes "e"); (5 * 8, ascii_bytes "f")].

Definition sc_cpufreq_indexes_ath79_7x : sc_u32tvs := [
  (0 * 9 * 16, ascii_bytes "a"); (1 * 9 * 16, ascii_bytes "b"); (2 * 9 * 16, ascii_bytes "c");
  (3 * 9 * 16, ascii_bytes "d"); (4 * 9 * 16, ascii_bytes "e"); (5 * 9 * 16, ascii_bytes "f");
  (6 * 9 * 16, ascii_bytes "g"); (7 * 9 * 16, ascii_bytes "h")].

Definition sc_tag_cpufreq_ath79_arraysize (soc : ath79_soc) : Z :=
  if soc_is_ar7161 soc then 7 + 1
  else if soc_is_ar724x soc then 3 + 1
  else if soc_is_ar9344 soc then 5 + 1
  else if soc_is_qca953x soc then 4 + 1
  else if soc_is_qca9556 soc then 2 + 1
  else if soc_is_qca9558 soc then 3 + 1
  else - EOPNOTSUPP.

(** The functions [tshow] and [tstore] of an attribute. *)
Inductive sc_format :=
| ScU32tvs (tvs : sc_u32tvs)
| ScBoolts (strfalse strtrue : list Z)
| ScBootdelays
| ScCpufreq
| ScString.

Record sc_attr := mk_sc_attr { sca_tag_id : Z; sca_name : list Z; sca_format : sc_format }.

Definition sc_attrs : list sc_attr := [
  mk_sc_attr 0x01 (ascii_bytes "uart_speed") (ScU32tvs sc_uartspeeds);
  mk_sc_attr 0x02 (ascii_bytes "boot_delay") ScBootdelays;
  mk_sc_attr 0x03 (ascii_bytes "boot_device") (ScU32tvs sc_bootdevices);
  mk_sc_attr 0x04 (ascii_bytes "boot_key") (ScBoolts (ascii_bytes "any") (ascii_bytes "del"));
  mk_sc_attr 0x05 (ascii_bytes "cpu_mode") (ScBoolts (ascii_bytes "powersave") (ascii_bytes "regular"));
  mk_sc_attr 0x06 (ascii_bytes "bios_version") ScString;
  mk_sc_attr 0x09 (ascii_bytes "boot_proto") (ScBoolts (ascii_bytes "bootp") (ascii_bytes "dhcp"));
  mk_sc_attr 0x0C (ascii_bytes "cpufreq_index") ScCpufreq;
  mk_sc_attr 0x0D (ascii_bytes "booter") (ScBoolts (ascii_bytes "regular") (ascii_bytes "backup"));
  mk_sc_attr 0x0F (ascii_bytes "silent_boot") (ScBoolts (ascii_bytes "off") (ascii_bytes "on"))].

(** * Tables of rb_hardconfig.c *)

Definition RB_WLAN_ERD_ID_SOLO : Z := 0x0001.
Definition RB_WLAN_ERD_ID_MULTI_8001 : Z := 0x8001.
Definition RB_WLAN_ERD_ID_MULTI_8201 : Z := 0x8201.
Definition RB_ID_WLAN_DATA : Z := 0x16.
Definition LZO_E_INPUT_NOT_CONSUMED : Z := -8.

(** What is put in front of the data of the LZOR scheme. *)
Definition hc_lzor_prefix : list Z := [
  0x00; 0x05; 0x4c; 0x4c; 0x44; 0x00; 0x34; 0xfe; 0xfe; 0x34; 0x11; 0x3c; 0x1e; 0x3c; 0x2e; 0x3c; 0x4c; 0x34; 0x00; 0x52;
  0x62; 0x92; 0xa2; 0xb2; 0xc3; 0x2a; 0x14; 0x00; 0x00; 0x05; 0xfe; 0x6a; 0x3c; 0x16; 0x32; 0x16; 0x11; 0x1e; 0x12; 0x46;
  0x32; 0x46; 0x11; 0x4e; 0x12; 0x36; 0x32; 0x36; 0x11; 0x3e; 0x12; 0x5a; 0x9a; 0x64; 0x00; 0x04; 0xfe; 0x10; 0x3c; 0x00;
  0x01; 0x00; 0x00; 0x28; 0x0c; 0x00; 0x0f; 0xfe; 0x14; 0x00; 0x24; 0x24; 0x23; 0x24; 0x24; 0x23; 0x25; 0x22; 0x21; 0x21;
  0x23; 0x22; 0x21; 0x22; 0x21; 0x2d; 0x38; 0x00; 0x0c; 0x25; 0x25; 0x24; 0x25; 0x25; 0x24; 0x23; 0x22; 0x21; 0x20; 0x23;
  0x21; 0x21; 0x22; 0x21; 0x2d; 0x38; 0x00; 0x28; 0xb0; 0x00; 0x00; 0x22; 0x00; 0x00; 0xc0; 0xfe; 0x03; 0x00; 0xc0; 0x00;
  0x62; 0xff; 0x62; 0xff; 0xfe; 0x06; 0x00; 0xbb; 0xff; 0xba; 0xff; 0xfe; 0x08; 0x00; 0x9e; 0xff; 0xfe; 0x0a; 0x00; 0x53;
  0xff; 0xfe; 0x02; 0x00; 0x20; 0xff; 0xb1; 0xfe; 0xfe; 0xb2; 0xfe; 0xfe; 0xed; 0xfe; 0xfe; 0xfe; 0x04; 0x00; 0x3a; 0xff;
  0x3a; 0xff; 0xde; 0xfd; 0x5f; 0x04; 0x33; 0xff; 0x4c; 0x74; 0x03; 0x05; 0x05; 0xff; 0x6d; 0xfe; 0xfe; 0x6d; 0xfe; 0xfe;
  0xaf; 0x08; 0x63; 0xff; 0x64; 0x6f; 0x08; 0xac; 0xff; 0xbf; 0x6d; 0x08; 0x7a; 0x6d; 0x08; 0x96; 0x74; 0x04; 0x00; 0x08;
  0x79; 0xff; 0xda; 0xfe; 0xfe; 0xdb; 0xfe; 0xfe; 0x56; 0xff; 0xfe; 0x04; 0x00; 0x5e; 0xff; 0x5e; 0xff; 0x6c; 0xfe; 0xfe;
  0xfe; 0x06; 0x00; 0x41; 0xff; 0x7f; 0x74; 0x03; 0x00; 0x11; 0x44; 0xff; 0xa9; 0xfe; 0xfe; 0xa9; 0xfe; 0xfe; 0xa5; 0x8f;
  0x01; 0x00; 0x08; 0x01; 0x01; 0x02; 0x04; 0x08; 0x02; 0x04; 0x08; 0x08; 0x01; 0x01; 0xfe; 0x22; 0x00; 0x4c; 0x60; 0x64;
  0x8c; 0x90; 0xd0; 0xd4; 0xd8; 0x5c; 0x10; 0x09; 0xd8; 0xff; 0xb0; 0xff; 0x00; 0x00; 0xba; 0xff; 0x14; 0x00; 0xba; 0xff;
  0x64; 0x00; 0x00; 0x08; 0xfe; 0x06; 0x00; 0x74; 0xff; 0x42; 0xff; 0xce; 0xff; 0x60; 0xff; 0x0a; 0x00; 0xb4; 0x00; 0xa0;
  0x00; 0xa0; 0xfe; 0x07; 0x00; 0x0a; 0x00; 0xb0; 0xff; 0x96; 0x4d; 0x00; 0x56; 0x57; 0x18; 0xa6; 0xff; 0x92; 0x70; 0x11;
  0x00; 0x12; 0x90; 0x90; 0x76; 0x5a; 0x54; 0x54; 0x4c; 0x46; 0x38; 0x00; 0x10; 0x10; 0x08; 0xfe; 0x05; 0x00; 0x38; 0x29;
  0x25; 0x23; 0x22; 0x22; 0x1f; 0x00; 0x00; 0x00; 0xf6; 0xe1; 0xdd; 0xf8; 0xfe; 0x00; 0xfe; 0x15; 0x00; 0x00; 0xd0; 0x02;
  0x74; 0x02; 0x08; 0xf8; 0xe5; 0xde; 0x02; 0x04; 0x04; 0xfd; 0x00; 0x00; 0x00; 0x07; 0x50; 0x2d; 0x01; 0x90; 0x90; 0x76;
  0x60; 0xb0; 0x07; 0x07; 0x0c; 0x0c; 0x04; 0xfe; 0x05; 0x00; 0x66; 0x66; 0x5a; 0x56; 0xbc; 0x01; 0x06; 0xfc; 0xfc; 0xf1;
  0xfe; 0x07; 0x00; 0x24; 0x95; 0x70; 0x64; 0x18; 0x06; 0x2c; 0xff; 0xb5; 0xfe; 0xfe; 0xb5; 0xfe; 0xfe; 0xe2; 0x8c; 0x24;
  0x02; 0x2f; 0xff; 0x2f; 0xff; 0xb4; 0x78; 0x02; 0x05; 0x73; 0xff; 0xed; 0xfe; 0xfe; 0x4f; 0xff; 0x36; 0x74; 0x1e; 0x09;
  0x4f; 0xff; 0x50; 0xff; 0xfe; 0x16; 0x00; 0x70; 0xac; 0x70; 0x8e; 0xac; 0x40; 0x0e; 0x01; 0x70; 0x7f; 0x8e; 0xac; 0x6c;
  0x00; 0x0b; 0xfe; 0x02; 0x00; 0xfe; 0x0a; 0x2c; 0x2a; 0x2a; 0x28; 0x26; 0x1e; 0x1e; 0xfe; 0x02; 0x20; 0x65; 0x20; 0x00;
  0x00; 0x05; 0x12; 0x00; 0x11; 0x1e; 0x11; 0x11; 0x41; 0x1e; 0x41; 0x11; 0x31; 0x1e; 0x31; 0x11; 0x70; 0x75; 0x7a; 0x7f;
  0x84; 0x89; 0x8e; 0x93; 0x98; 0x30; 0x20; 0x00; 0x02; 0x00; 0xfe; 0x06; 0x3c; 0xbc; 0x32; 0x0c; 0x00; 0x00; 0x2a; 0x12;
  0x1e; 0x12; 0x2e; 0x12; 0xcc; 0x12; 0x11; 0x1a; 0x1e; 0x1a; 0x2e; 0x1a; 0x4c; 0x10; 0x1e; 0x10; 0x11; 0x18; 0x1e; 0x42;
  0x1e; 0x42; 0x2e; 0x42; 0xcc; 0x42; 0x11; 0x4a; 0x1e; 0x4a; 0x2e; 0x4a; 0x4c; 0x40; 0x1e; 0x40; 0x11; 0x48; 0x1e; 0x32;
  0x1e; 0x32; 0x2e; 0x32; 0xcc; 0x32; 0x11; 0x3a; 0x1e; 0x3a; 0x2e; 0x3a; 0x4c; 0x30; 0x1e; 0x30; 0x11; 0x38; 0x1e; 0x27;
  0x9a; 0x01; 0x9d; 0xa2; 0x2f; 0x28; 0x00; 0x00; 0x46; 0xde; 0xc4; 0xbf; 0xa6; 0x9d; 0x81; 0x7b; 0x5c; 0x61; 0x40; 0xc7;
  0xc0; 0xae; 0xa9; 0x8c; 0x83; 0x6a; 0x62; 0x50; 0x3e; 0xce; 0xc2; 0xae; 0xa3; 0x8c; 0x7b; 0x6a; 0x5a; 0x50; 0x35; 0xd7;
  0xc2; 0xb7; 0xa4; 0x95; 0x7e; 0x72; 0x5a; 0x59; 0x37; 0xfe; 0x02; 0xf8; 0x8c; 0x95; 0x90; 0x8f; 0x00; 0xd7; 0xc0; 0xb7;
  0xa2; 0x95; 0x7b; 0x72; 0x56; 0x59; 0x32; 0xc7; 0xc3; 0xae; 0xad; 0x8c; 0x85; 0x6a; 0x63; 0x50; 0x3e; 0xce; 0xc3; 0xae;
  0xa4; 0x8c; 0x7c; 0x6a; 0x59; 0x50; 0x34; 0xd7; 0xc2; 0xb7; 0xa5; 0x95; 0x7e; 0x72; 0x59; 0x59; 0x36; 0xfc; 0x05; 0x00;
  0x02; 0xce; 0xc5; 0xae; 0xa5; 0x95; 0x83; 0x72; 0x5c; 0x59; 0x36; 0xbf; 0xc6; 0xa5; 0xab; 0x8c; 0x8c; 0x6a; 0x67; 0x50;
  0x41; 0x64; 0x07; 0x00; 0x02; 0x95; 0x8c; 0x72; 0x65; 0x59; 0x3f; 0xce; 0xc7; 0xae; 0xa8; 0x95; 0x86; 0x72; 0x5f; 0x59;
  0x39; 0xfe; 0x02; 0xf8; 0x8b; 0x7c; 0x0b; 0x09; 0xb7; 0xc2; 0x9d; 0xa4; 0x83; 0x85; 0x6a; 0x6b; 0x50; 0x44; 0xb7; 0xc1;
  0x64; 0x01; 0x00; 0x06; 0x61; 0x5d; 0x48; 0x3d; 0xae; 0xc4; 0x9d; 0xad; 0x7b; 0x85; 0x61; 0x66; 0x48; 0x46; 0xae; 0xc3;
  0x95; 0xa3; 0x72; 0x7c; 0x59; 0x56; 0x38; 0x31; 0x7c; 0x0b; 0x00; 0x0c; 0x96; 0x91; 0x8f; 0x00; 0xb7; 0xc0; 0xa5; 0xab;
  0x8c; 0x8a; 0x6a; 0x64; 0x50; 0x3c; 0xb7; 0xc0; 0x9d; 0xa0; 0x83; 0x80; 0x6a; 0x64; 0x50; 0x3d; 0xb7; 0xc5; 0x9d; 0xa5;
  0x83; 0x87; 0x6c; 0x08; 0x07; 0xae; 0xc0; 0x9d; 0xa8; 0x83; 0x88; 0x6a; 0x6d; 0x50; 0x46; 0xfc; 0x05; 0x00; 0x16; 0xbf;
  0xc0; 0xa5; 0xa2; 0x8c; 0x7f; 0x6a; 0x57; 0x50; 0x2f; 0xb7; 0xc7; 0xa5; 0xb1; 0x8c; 0x8e; 0x72; 0x6d; 0x59; 0x45; 0xbf;
  0xc6; 0xa5; 0xa8; 0x8c; 0x87; 0x6a; 0x5f; 0x50; 0x37; 0xbf; 0xc2; 0xa5; 0xa4; 0x8c; 0x83; 0x6a; 0x5c; 0x50; 0x34; 0xbc;
  0x05; 0x00; 0x0e; 0x90; 0x00; 0xc7; 0xc2; 0xae; 0xaa; 0x95; 0x82; 0x7b; 0x60; 0x61; 0x3f; 0xb7; 0xc6; 0xa5; 0xb1; 0x8c;
  0x8d; 0x72; 0x6b; 0x61; 0x51; 0xbf; 0xc4; 0xa5; 0xa5; 0x8c; 0x82; 0x72; 0x61; 0x59; 0x39; 0x6c; 0x26; 0x03; 0x95; 0x82;
  0x7b; 0x61; 0x61; 0x40; 0xfc; 0x05; 0x00; 0x00; 0x7e; 0xd7; 0xc3; 0xb7; 0xa8; 0x9d; 0x80; 0x83; 0x5d; 0x6a; 0x3f; 0xbf;
  0xc7; 0xa5; 0xa8; 0x8c; 0x84; 0x72; 0x60; 0x61; 0x46; 0xbf; 0xc2; 0xae; 0xb0; 0x9d; 0x92; 0x83; 0x6f; 0x6a; 0x50; 0xd7;
  0xc3; 0xb7; 0xa7; 0x9d; 0x80; 0x83; 0x5e; 0x6a; 0x40; 0xfe; 0x02; 0xf8; 0x8d; 0x96; 0x90; 0x90; 0xfe; 0x05; 0x00; 0x8a;
  0xc4; 0x63; 0xb8; 0x3c; 0xa6; 0x29; 0x97; 0x16; 0x81; 0x84; 0xb7; 0x5b; 0xa9; 0x33; 0x94; 0x1e; 0x83; 0x11; 0x70; 0xb8;
  0xc2; 0x70; 0xb1; 0x4d; 0xa3; 0x2a; 0x8d; 0x1b; 0x7b; 0xa8; 0xbc; 0x68; 0xab; 0x47; 0x9d; 0x27; 0x87; 0x18; 0x75; 0xae;
  0xc6; 0x7d; 0xbb; 0x4d; 0xaa; 0x1c; 0x84; 0x11; 0x72; 0xa3; 0xbb; 0x6e; 0xad; 0x3c; 0x97; 0x24; 0x85; 0x16; 0x71; 0x80;
  0xb2; 0x57; 0xa4; 0x30; 0x8e; 0x1c; 0x7c; 0x10; 0x68; 0xbb; 0xbd; 0x75; 0xac; 0x4f; 0x9e; 0x2b; 0x87; 0x1a; 0x76; 0x96;
  0xc5; 0x5e; 0xb5; 0x3e; 0xa5; 0x1f; 0x8c; 0x12; 0x7a; 0xc1; 0xc6; 0x42; 0x9f; 0x27; 0x8c; 0x16; 0x77; 0x0f; 0x67; 0x9d;
  0xbc; 0x68; 0xad; 0x36; 0x95; 0x20; 0x83; 0x11; 0x6d; 0x9b; 0xb8; 0x67; 0xa8; 0x34; 0x90; 0x1f; 0x7c; 0x10; 0x67; 0x9e;
  0xc9; 0x6a; 0xbb; 0x37; 0xa4; 0x20; 0x90; 0x11; 0x7b; 0xc6; 0xc8; 0x47; 0xa4; 0x2a; 0x90; 0x18; 0x7b; 0x10; 0x6c; 0xae;
  0xc4; 0x5d; 0xad; 0x37; 0x9a; 0x1f; 0x85; 0x13; 0x75; 0x70; 0xad; 0x42; 0x99; 0x25; 0x84; 0x17; 0x74; 0x0b; 0x56; 0x87;
  0xc8; 0x57; 0xb8; 0x2b; 0x9e; 0x19; 0x8a; 0x0d; 0x74; 0xa7; 0xc8; 0x6e; 0xb9; 0x36; 0xa0; 0x1f; 0x8b; 0x11; 0x75; 0x94;
  0xbe; 0x4b; 0xa5; 0x2a; 0x92; 0x18; 0x7c; 0x0f; 0x6b; 0xaf; 0xc0; 0x58; 0xa8; 0x34; 0x94; 0x1d; 0x7d; 0x12; 0x6d; 0x82;
  0xc0; 0x52; 0xb0; 0x25; 0x94; 0x14; 0x7f; 0x0c; 0x68; 0x84; 0xbf; 0x3e; 0xa4; 0x22; 0x8e; 0x10; 0x76; 0x0b; 0x65; 0x88;
  0xb6; 0x42; 0x9b; 0x26; 0x87; 0x14; 0x70; 0x0c; 0x5f; 0xc5; 0xc2; 0x3e; 0x97; 0x23; 0x83; 0x13; 0x6c; 0x0c; 0x5c; 0xb1;
  0xc9; 0x76; 0xbc; 0x4a; 0xaa; 0x20; 0x8d; 0x12; 0x78; 0x93; 0xbf; 0x46; 0xa3; 0x26; 0x8d; 0x14; 0x74; 0x0c; 0x62; 0xc8;
  0xc4; 0x3b; 0x97; 0x21; 0x82; 0x11; 0x6a; 0x0a; 0x59; 0xa3; 0xb9; 0x68; 0xa9; 0x30; 0x8d; 0x1a; 0x78; 0x0f; 0x61; 0xa0;
  0xc9; 0x73; 0xbe; 0x50; 0xb1; 0x30; 0x9f; 0x14; 0x80; 0x83; 0xb7; 0x3c; 0x9a; 0x20; 0x84; 0x0e; 0x6a; 0x0a; 0x57; 0xac;
  0xc2; 0x68; 0xb0; 0x2e; 0x92; 0x19; 0x7c; 0x0d; 0x63; 0x93; 0xbe; 0x62; 0xb0; 0x3c; 0x9e; 0x1a; 0x80; 0x0e; 0x6b; 0xbb;
  0x02; 0xa0; 0x02; 0xa0; 0x02; 0x6f; 0x00; 0x75; 0x00; 0x75; 0x00; 0x00; 0x00; 0xad; 0x02; 0xb3; 0x02; 0x6f; 0x00; 0x87;
  0x00; 0x85; 0xfe; 0x03; 0x00; 0xc2; 0x02; 0x82; 0x4d; 0x92; 0x6e; 0x4d; 0xb1; 0xa8; 0x84; 0x01; 0x00; 0x07; 0x7e; 0x00;
  0xa8; 0x02; 0xa4; 0x02; 0xa4; 0x02; 0xa2; 0x00; 0xa6; 0x00; 0xa6; 0x00; 0x00; 0x00; 0xb4; 0x02; 0xb4; 0x02; 0x92; 0x00;
  0x96; 0x00; 0x96; 0x46; 0x04; 0xb0; 0x02; 0x64; 0x02; 0x0a; 0x8c; 0x00; 0x90; 0x02; 0x98; 0x02; 0x98; 0x02; 0x0e; 0x01;
  0x11; 0x01; 0x11; 0x50; 0xc3; 0x08; 0x88; 0x02; 0x88; 0x02; 0x19; 0x01; 0x02; 0x01; 0x02; 0x01; 0xf3; 0x2d; 0x00; 0x00].

(** The known hardware options: bit and text. *)
Definition hc_hwopts : list (Z * list Z) := [
  (0, ascii_bytes "no UART" ++ [9; 9]); (1, ascii_bytes "has Vreg" ++ [9]); (2, ascii_bytes "has usb" ++ [9; 9]);
  (3, ascii_bytes "has ATtiny" ++ [9]); (14, ascii_bytes "no NAND" ++ [9; 9]); (15, ascii_bytes "has LCD" ++ [9; 9]);
  (16, ascii_bytes "has POE out" ++ [9]); (17, ascii_bytes "has MicroSD" ++ [9]); (18, ascii_bytes "has SIM" ++ [9; 9]);
  (20, ascii_bytes "has SFP" ++ [9; 9]); (21, ascii_bytes "has WiFi" ++ [9]); (22, ascii_bytes "has TS ADC" ++ [9]);
  (29, ascii_bytes "has PLC" ++ [9; 9])].

(** The function [tshow] of an attribute; it is null for the calibration data. *)
Inductive hc_format :=
| HcU32s
| HcMac
| HcString
| HcHwoptions
| HcWlan.

Record hc_attr := mk_hc_attr { hca_tag_id : Z; hca_name : list Z; hca_format : hc_format }.

Definition hc_attrs : list hc_attr := [
  mk_hc_attr 0x03 (ascii_bytes "flash_info") HcU32s;
  mk_hc_attr 0x04 (ascii_bytes "mac_base") HcMac;
  mk_hc_attr 0x05 (ascii_bytes "board_product_code") HcString;
  mk_hc_attr 0x06 (ascii_bytes "booter_version") HcString;
  mk_hc_attr 0x0B (ascii_bytes "board_serial") HcString;
  mk_hc_attr 0x0D (ascii_bytes "mem_size") HcU32s;
  mk_hc_attr 0x0E (ascii_bytes "mac_count") HcU32s;
  mk_hc_attr 0x15 (ascii_bytes "hw_options") HcHwoptions;
  mk_hc_attr RB_ID_WLAN_DATA [] HcWlan;
  mk_hc_attr 0x17 (ascii_bytes "board_identifier") HcString;
  mk_hc_attr 0x21 (ascii_bytes "product_name") HcString;
  mk_hc_attr 0x26 (ascii_bytes "defconf") HcString;
  mk_hc_attr 0x27 (ascii_bytes "board_revision") HcString].

(** The files of the radios: tag and name. *)
Definition hc_multi_ids : list (Z * list Z) := [
  (RB_WLAN_ERD_ID_MULTI_8001, ascii_bytes "wlan_data/data_0");
  (RB_WLAN_ERD_ID_MULTI_8201, ascii_bytes "wlan_data/data_2")].

Section drivers.
Context `{Arch} `{Crc32} {chip : Type} (e : rb_env chip).

Abbreviation prog := (M (rb_state chip)).

Definition mtd_call {R} (f : chip -> R * chip) : prog R := fun s =>
  let '(r, c) := f (rb_chip s) in Ret r (mk_rb_state (rb_sc s) (rb_hc s) c).

Definition set_sc (f : softconfig -> softconfig) : prog unit :=
  modify (fun s => mk_rb_state (f (rb_sc s)) (rb_hc s) (rb_chip s)).
Definition set_sc_buf (b : option (list Z)) (sc : softconfig) : softconfig :=
  mk_softconfig b (sc_buflen sc) (sc_plds sc) (sc_files sc).

(** * The buffer of the software configuration *)

Definition sc_mem : prog (list Z) := fun s =>
  match sc_buf (rb_sc s) with Some b => Ret b s | None => Fault end.

(** [*(u32 * )(sc_buf + ofs)], read and written. *)
Definition sc_get (ofs : Z) : prog Z := let* b := sc_mem in cpu_load b ofs 4.
Definition sc_put (ofs v : Z) : prog unit :=
  let* b := sc_mem in
  if in_bounds b ofs 4 then set_sc (set_sc_buf (Some (blit b ofs (cpu_bytes 4 v)))) else fault.

Definition RB_SC_GETCRC : prog Z := sc_get RB_SC_CRC32_OFFSET.
Definition RB_SC_SETCRC (crc : Z) : prog unit := sc_put RB_SC_CRC32_OFFSET crc.
Definition RB_SC_CLRCRC : prog unit := RB_SC_SETCRC 0.

(** * Showing and storing one tag

    [ofs] and [len] are the place of the payload in the buffer and its length. *)

Definition bracketed (here : bool) (s : list Z) : list Z := if here then [91] ++ s ++ [93; 32] else s ++ [32].

Definition sc_tag_show_u32tvs (ofs len : Z) (tvs : sc_u32tvs) (tvselmts : Z) : prog show_result :=
  if tvselmts <? 0 then let* b := sc_mem in routerboot_tag_show_u32s (drop (Z.to_nat ofs) b) len
  else if negb (len =? 4) then ret (inl (- EINVAL))
  else if Z.of_nat (length tvs) <? tvselmts then fault
  else
    let* data := sc_get ofs in
    ret (inr (concat (map (fun tv => bracketed (tv.1 =? data) tv.2) (take (Z.to_nat tvselmts) tvs)) ++ [10])).

(** The change of a payload, in one critical section. *)
Definition sc_store_word (ofs data : Z) : prog unit := do* sc_put ofs data in RB_SC_CLRCRC.

Definition sc_tag_store_u32tvs (ofs len : Z) (buf : list Z) (count : Z) (tvs : sc_u32tvs) (tvselmts : Z) : prog Z :=
  if tvselmts <? 0 then ret tvselmts
  else if negb (len =? 4) then ret (- EINVAL)
  else if Z.of_nat (length tvs) <? tvselmts then fault
  else
    match List.find (fun tv => sysfs_streq e buf tv.2) (take (Z.to_nat tvselmts) tvs) with
    | Some tv => do* sc_store_word ofs tv.1 in ret count
    | None => ret (- EINVAL)
    end.

Definition sc_tag_show_boolts (ofs len : Z) (strfalse strtrue : list Z) : prog show_result :=
  if negb (len =? 4) then ret (inl (- EINVAL))
  else
    let* data := sc_get ofs in
    ret (inr (if negb (data =? 0) then strfalse ++ [32; 91] ++ strtrue ++ [93; 10]
              else [91] ++ strfalse ++ [93; 32] ++ strtrue ++ [10])).

Definition sc_tag_store_boolts (ofs len : Z) (buf : list Z) (count : Z) (strfalse strtrue : list Z) : prog Z :=
  if negb (len =? 4) then ret (- EINVAL)
  else
    match (if sysfs_streq e buf strfalse then Some 0 else if sysfs_streq e buf strtrue then Some 1 else None) with
    | Some data => do* sc_store_word ofs data in ret count
    | None => ret (- EINVAL)
    end.

Definition sc_tag_show_bootdelays (ofs len : Z) : prog show_result :=
  if negb (len =? 4) then ret (inl (- EINVAL))
  else
    let* data := sc_get ofs in
    ret (inr (concat (map (fun i => bracketed (i =? data) [48 + i])
      (seqZ RB_BOOT_DELAY_MIN (RB_BOOT_DELAY_MAX - RB_BOOT_DELAY_MIN + 1))) ++ [10])).

Definition sc_tag_store_bootdelays (ofs len : Z) (buf : list Z) (count : Z) : prog Z :=
  if negb (len =? 4) then ret (- EINVAL)
  else
    match kstrtou32 e buf with
    | inl err => ret err
    | inr data =>
        if (data <? RB_BOOT_DELAY_MIN) || (RB_BOOT_DELAY_MAX <? data) then ret (- EINVAL)
        else do* sc_store_word ofs data in ret count
    end.

(** The table of frequencies for the chip. *)
Definition sc_cpufreq_tvs (soc : ath79_soc) : sc_u32tvs :=
  if soc_is_ar71xx soc || soc_is_ar724x soc then sc_cpufreq_indexes_ath79_7x else sc_cpufreq_indexes_ath79_9x.

Definition sc_tag_show_cpufreq_indexes (ofs len : Z) : prog show_result :=
  match CONFIG_ATH79 e with
  | Some soc => sc_tag_show_u32tvs ofs len (sc_cpufreq_tvs soc) (sc_tag_cpufreq_ath79_arraysize soc)
  | None => let* b := sc_mem in routerboot_tag_show_u32s (drop (Z.to_nat ofs) b) len
  end.

Definition tshow (f : sc_format) (ofs len : Z) : prog show_result :=
  match f with
  | ScU32tvs tvs => sc_tag_show_u32tvs ofs len tvs (Z.of_nat (length tvs))
  | ScBoolts strfalse strtrue => sc_tag_show_boolts ofs len strfalse strtrue
  | ScBootdelays => sc_tag_show_bootdelays ofs len
  | ScCpufreq => sc_tag_show_cpufreq_indexes ofs len
  | ScString => let* b := sc_mem in routerboot_tag_show_string (drop (Z.to_nat ofs) b) len
  end.

(** [None] for a null pointer. *)
Definition tstore (f : sc_format) : option (Z -> Z -> list Z -> Z -> prog Z) :=
  match f with
  | ScU32tvs tvs => Some (fun ofs len buf count => sc_tag_store_u32tvs ofs len buf count tvs (Z.of_nat (length tvs)))
  | ScBoolts strfalse strtrue => Some (fun ofs len buf count => sc_tag_store_boolts ofs len buf count strfalse strtrue)
  | ScBootdelays => Some sc_tag_store_bootdelays
  | ScCpufreq =>
      match CONFIG_ATH79 e with
      | Some soc => Some (fun ofs len buf count =>
          sc_tag_store_u32tvs ofs len buf count (sc_cpufreq_tvs soc) (sc_tag_cpufreq_ath79_arraysize soc))
      | None => None
      end
  | ScString => None
  end.

(** The attribute number [i], and where its payload is. *)
Definition sc_attr_at (i : nat) : prog (sc_attr * (Z * Z)) := fun s =>
  match sc_attrs !! i, sc_plds (rb_sc s) !! i with
  | Some a, Some p => Ret (a, p) s
  | _, _ => Fault
  end.

Definition sc_attr_show (i : nat) : prog show_result :=
  let* (a, (ofs, len)) := sc_attr_at i in
  if len =? 0 then ret (inl (- ENOENT)) else tshow (sca_format a) ofs len.

Definition sc_attr_store (i : nat) (buf : list Z) (count : Z) : prog Z :=
  if negb (RB_SC_HAS_WRITE_SUPPORT e) then ret (- EOPNOTSUPP)
  else if negb (capable e) then ret (- EACCES)
  else
    let* (a, (ofs, len)) := sc_attr_at i in
    match tstore (sca_format a) with
    | None => ret (- EOPNOTSUPP)
    | Some store => if len =? 0 then ret (- ENOENT) else store ofs len buf count
    end.

(** * Commit *)

Definition sc_commit_show : prog show_result :=
  let* crc := RB_SC_GETCRC in
  ret (inr ((if negb (crc =? 0) then ascii_bytes "clean" else ascii_bytes "dirty") ++ [10])).

(** [sc_commit_store] up to its critical section: the value returned, or [flush] and the
    partition. *)
Definition commit_enter (buf : list Z) (count : Z) : prog (Z + bool * rb_mtd chip) :=
  if negb (RB_SC_HAS_WRITE_SUPPORT e) then ret (inl (- EOPNOTSUPP))
  else
    let* crc := RB_SC_GETCRC in
    if negb (crc =? 0) then ret (inl count)
    else
      match kstrtobool e buf with
      | inl err => ret (inl err)
      | inr flush =>
          match soft_config e with
          | None => ret (inl (- ENODEV))
          | Some mtd => ret (inr (flush, mtd))
          end
      end.

(** The critical section: [ret] and [bytes_rw]. *)
Definition commit_locked (flush : bool) (mtd : rb_mtd chip) : prog (Z * Z) :=
  if negb flush then
    let* (r, bytes) := mtd_call (rm_read mtd 0 (rm_size mtd)) in
    let* b := sc_mem in
    if in_bounds b 0 (Z.of_nat (length bytes)) then
      do* set_sc (set_sc_buf (Some (blit b 0 bytes))) in ret (r, Z.of_nat (length bytes))
    else fault
  else
    let* b := sc_mem in
    let crc := u32 (Z.lnot (crc32_le 0xffffffff b)) in
    do* RB_SC_SETCRC crc in
    let* r := mtd_call (rm_erase mtd 0 (rm_size mtd)) in
    if negb (r =? 0) then ret (r, 0)
    else
      let* b := sc_mem in
      if in_bounds b 0 (rm_size mtd) then mtd_call (rm_write mtd 0 (slice b 0 (rm_size mtd))) else fault.

(** What follows: the buffer is marked dirty after a failure, outside the lock. *)
Definition commit_exit (count : Z) (r : Z * Z) : prog Z := fun s =>
  if negb (r.1 =? 0) then (do* RB_SC_CLRCRC in ret r.1) s
  else if negb (r.2 =? sc_buflen (rb_sc s)) then (do* RB_SC_CLRCRC in ret (- EIO)) s
  else ret count s.

Definition sc_commit_store (buf : list Z) (count : Z) : prog Z :=
  let* r := commit_enter buf count in
  match r with
  | inl v => ret v
  | inr (flush, mtd) =>
      let* r := commit_locked flush mtd in
      commit_exit count r
  end.

(** * Start and end of the driver *)

(** The loop over the known tags: places, lengths and the files sysfs_created. *)
Fixpoint sc_publish (attrs : list sc_attr) (mem : list Z) (buflen : Z) : prog (list (Z * Z) * list (list Z)) :=
  match attrs with
  | [] => ret ([], [])
  | a :: attrs =>
      let* r := routerboot_tag_find mem buflen (sca_tag_id a) in
      let '(place, file) :=
        match r with
        | inl _ => ((0, 0), [])
        | inr (ofs, len) =>
            ((u16 (ofs + (4 + 4)), len), if sysfs_create e (sca_name a) =? 0 then [sca_name a] else [])
        end in
      let* (places, files) := sc_publish attrs mem buflen in
      ret (place :: places, file ++ files)
  end.

Definition no_softconfig : softconfig := mk_softconfig None 0 (replicate (length sc_attrs) (0, 0)) [].

Definition rb_softconfig_init : prog Z :=
  do* set_sc (set_sc_buf None) in
  match soft_config e with
  | None => ret (- ENODEV)
  | Some mtd =>
      do* set_sc (fun sc => mk_softconfig None (rm_size mtd) (sc_plds sc) (sc_files sc)) in
      if negb (kmalloc_buf e) then ret (- ENOMEM)
      else
        let* (r, bytes) := mtd_call (rm_read mtd 0 (rm_size mtd)) in
        if negb (r =? 0) then ret r
        else if negb (Z.of_nat (length bytes) =? rm_size mtd) then ret (- EIO)
        else
          let* magic := cpu_load bytes 0 4 in
          if negb (magic =? RB_MAGIC_SOFT) then ret (- EINVAL)
          else if negb (kobject_ok e) then ret (- ENOMEM)
          else
            let* (places, files) := sc_publish sc_attrs (drop 8 bytes) (size_t (rm_size mtd - (4 + 4))) in
            let commit := ascii_bytes "commit" in
            if RB_SC_HAS_WRITE_SUPPORT e && negb (sysfs_create e commit =? 0) then
              do* set_sc (fun _ => mk_softconfig None (rm_size mtd) places []) in ret (sysfs_create e commit)
            else
              do* set_sc (fun _ => mk_softconfig (Some bytes) (rm_size mtd) places
                (files ++ if RB_SC_HAS_WRITE_SUPPORT e then [commit] else [])) in
              ret 0
  end.

Definition rb_softconfig_exit : prog unit :=
  set_sc (fun sc => mk_softconfig None (sc_buflen sc) (sc_plds sc) []).

(** * rb_hardconfig.c: printing *)

Definition set_hc (f : hardconfig -> hardconfig) : prog unit :=
  modify (fun s => mk_rb_state (rb_sc s) (f (rb_hc s)) (rb_chip s)).

Definition hc_mem : prog (list Z) := fun s =>
  match hc_buf (rb_hc s) with Some b => Ret b s | None => Fault end.

(** [sprintf(buf, "%pM\n", pld)]. *)
Definition hc_tag_show_mac (mem : list Z) (len : Z) : prog show_result :=
  if negb (len =? 8) then ret (inl (- EINVAL))
  else if in_bounds mem 0 6 then
    ret (inr (match map (print_hex_lower 2) (slice mem 0 6) with
              | [] => []
              | d :: ds => d ++ concat (map (cons 58) ds)
              end ++ [10]))
  else fault.

Definition hc_tag_show_hwoptions (mem : list Z) (len : Z) : prog show_result :=
  if negb (len =? 4) then ret (inl (- EINVAL))
  else
    let* data := cpu_load mem 0 4 in
    ret (inr (ascii_bytes "raw" ++ [9; 9] ++ ascii_bytes ": 0x" ++ print_hex_lower 8 data ++ [10; 10] ++
      concat (map (fun o => o.2 ++ ascii_bytes ": " ++
        (if Z.testbit data o.1 then ascii_bytes "true" else ascii_bytes "false") ++ [10]) hc_hwopts))).

Definition hc_tshow (f : hc_format) (mem : list Z) (len : Z) : prog show_result :=
  match f with
  | HcU32s => routerboot_tag_show_u32s mem len
  | HcMac => hc_tag_show_mac mem len
  | HcString => routerboot_tag_show_string mem len
  | HcHwoptions => hc_tag_show_hwoptions mem len
  | HcWlan => fault
  end.

Definition hc_attr_show (i : nat) : prog show_result := fun s =>
  match hc_attrs !! i, hc_plds (rb_hc s) !! i with
  | Some a, Some (ofs, len) =>
      if len =? 0 then Ret (inl (- ENOENT)) s
      else (let* mem := hc_mem in hc_tshow (hca_format a) (drop (Z.to_nat ofs) mem) len) s
  | _, _ => Fault
  end.

(** * Calibration data

    The functions that unpack give the error code, the buffer and [outlen].  [mem] is the
    memory from [inbuf] to the end of its object. *)

Definition hc_wlan_data_unpack_erd (tag_id : Z) (mem : list Z) (inlen : Z) (outbuf : list Z) (outlen : Z)
    : prog (Z * list Z * Z) :=
  let* r := routerboot_tag_find mem inlen tag_id in
  match r with
  | inl err => ret (err, outbuf, outlen)
  | inr (ofs, len) =>
      if inlen <? len then ret (- EINVAL, outbuf, outlen)
      else if in_bounds mem ofs len then
        let '(err, bytes) := lzo1x_decompress_safe e (slice mem ofs len) outlen in
        ret (err, blit outbuf 0 bytes, Z.of_nat (length bytes))
      else fault
  end.

(** The search for the magic number in the decompressed data: the distance behind it. *)
Definition needle_step (tempbuf : list Z) (templen d : Z) : prog (Z + option Z) :=
  let* w := cpu_load tempbuf d 4 in
  let d := d + 4 in
  if w =? RB_MAGIC_ERD then ret (inr (Some d))
  else if templen <=? d then ret (inr None)
  else ret (inl d).

(** [templen] bytes of [tempbuf] have been written: the rest of the function. *)
Definition unpack_needle (tag_id : Z) (tempbuf : list Z) (templen : Z) (outbuf : list Z) (outlen : Z)
    : prog (Z * list Z * Z) :=
  let* needle := loop (Datatypes.S (Z.to_nat templen)) (needle_step tempbuf templen) 0 in
  match needle with
  | None => ret (- ENODATA, outbuf, outlen)
  | Some d =>
      let templen := size_t (templen - d) in
      let* r := routerboot_tag_find (drop (Z.to_nat d) tempbuf) templen tag_id in
      match r with
      | inl err => ret (err, outbuf, outlen)
      | inr (ofs, len) =>
          if templen <? len then ret (- EINVAL, outbuf, outlen)
          else routerboot_rle_decode (drop (Z.to_nat (d + ofs)) tempbuf) len outbuf outlen
      end
  end.

Definition hc_wlan_data_unpack_lzor (tag_id : Z) (mem : list Z) (inlen : Z) (outbuf : list Z) (outlen : Z)
    : prog (Z * list Z * Z) :=
  let prefix_len := Z.of_nat (length hc_lzor_prefix) in
  let lzo_len := size_t (inlen + prefix_len) in
  if outlen <? lzo_len then ret (- EFBIG, outbuf, outlen)
  else
    match kmalloc_tempbuf e with
    | None => ret (- ENOMEM, outbuf, outlen)
    | Some tempbuf =>
        if in_bounds mem 0 inlen && in_bounds outbuf prefix_len inlen then
          let outbuf := blit (blit outbuf 0 hc_lzor_prefix) prefix_len (slice mem 0 inlen) in
          let '(err, bytes) := lzo1x_decompress_safe e (slice outbuf 0 lzo_len) outlen in
          if negb (err =? 0) && negb (err =? LZO_E_INPUT_NOT_CONSUMED) then ret (err, outbuf, outlen)
          else unpack_needle tag_id (blit tempbuf 0 bytes) (Z.of_nat (length bytes)) outbuf outlen
        else fault
    end.

Definition hc_wlan_data_unpack (tag_id tofs tlen : Z) (outbuf : list Z) (outlen : Z) : prog (Z * list Z * Z) := fun s =>
  if hc_buflen (rb_hc s) <? size_t (tofs + tlen) then Ret (- EIO, outbuf, outlen) s
  else
    (let* mem := hc_mem in
     let lbuf := drop (Z.to_nat tofs) mem in
     let* magic := cpu_load lbuf 0 4 in
     if magic =? RB_MAGIC_LZOR then hc_wlan_data_unpack_lzor tag_id (drop 4 lbuf) (size_t (tlen - 4)) outbuf outlen
     else if magic =? RB_MAGIC_ERD then hc_wlan_data_unpack_erd tag_id (drop 4 lbuf) (size_t (tlen - 4)) outbuf outlen
     else if RB_WLAN_ERD_ID_SOLO =? tag_id then routerboot_rle_decode lbuf tlen outbuf outlen
     else ret (- ENODATA, outbuf, outlen)) s.

(** [hc_wlan_data_bin_read] for the attribute of a tag and the place of its data: an error
    code, or the bytes delivered. *)
Definition hc_wlan_data_bin_read (erd_tag_id : Z) (pld : Z * Z) (off count : Z) : prog show_result :=
  let '(pld_ofs, pld_len) := pld in
  if pld_len =? 0 then ret (inl (- ENOENT))
  else if RB_ART_SIZE <? pld_len then ret (inl (- EFBIG))
  else
    match kmalloc_outbuf e with
    | None => ret (inl (- ENOMEM))
    | Some outbuf =>
        let* (err, outbuf, outlen) := hc_wlan_data_unpack erd_tag_id pld_ofs pld_len outbuf RB_ART_SIZE in
        if negb (err =? 0) then ret (inl err)
        else if outlen <=? off then ret (inr [])
        else
          let count := if outlen <? u64 (off + count) then outlen - off else count in
          if in_bounds outbuf off count then ret (inr (slice outbuf off count)) else fault
    end.

(** The files of the calibration data. *)
Definition hc_solo_read (off count : Z) : prog show_result := fun s =>
  hc_wlan_data_bin_read RB_WLAN_ERD_ID_SOLO (hc_wd_solo (rb_hc s)) off count s.
Definition hc_multi_read (j : nat) (off count : Z) : prog show_result := fun s =>
  match hc_multi_ids !! j, hc_wd_multi (rb_hc s) !! j with
  | Some (id, _), Some pld => hc_wlan_data_bin_read id pld off count s
  | _, _ => Fault
  end.

(** * Start and end *)

Definition sysfs_created (name : list Z) : list (list Z) := if sysfs_create e name =? 0 then [name] else [].

(** The places of the tags of several radios, and the files in [wlan_data]; [outbuf] is the
    buffer the data is unpacked to, on trial. *)
Fixpoint publish_multi (ids : list (Z * list Z)) (pld : Z * Z) (outbuf : list Z)
    : prog (list (Z * Z) * list (list Z)) :=
  match ids with
  | [] => ret ([], [])
  | (id, name) :: ids =>
      let* (err, outbuf, _) := hc_wlan_data_unpack id pld.1 pld.2 outbuf RB_ART_SIZE in
      let '(place, file) := if negb (err =? 0) then ((0, 0), []) else (pld, sysfs_created name) in
      let* (places, files) := publish_multi ids pld outbuf in
      ret (place :: places, file ++ files)
  end.

(** The calibration data at [pld]: one file for all, or one for each radio. *)
Definition publish_wlan (pld : Z * Z) : prog (list (list Z)) :=
  match kmalloc_outbuf e with
  | None => ret []
  | Some outbuf =>
      let* (err, outbuf, _) := hc_wlan_data_unpack RB_WLAN_ERD_ID_SOLO pld.1 pld.2 outbuf RB_ART_SIZE in
      if err =? 0 then
        do* set_hc (fun hc => mk_hardconfig (hc_buf hc) (hc_buflen hc) (hc_plds hc) pld (hc_wd_multi hc) (hc_files hc)) in
        ret (sysfs_created (ascii_bytes "wlan_data"))
      else if negb (wlan_kobject_ok e) then ret []
      else
        let* (places, files) := publish_multi hc_multi_ids pld outbuf in
        do* set_hc (fun hc => mk_hardconfig (hc_buf hc) (hc_buflen hc) (hc_plds hc) (hc_wd_solo hc) places (hc_files hc)) in
        ret files
  end.

Fixpoint hc_publish (attrs : list hc_attr) (mem : list Z) (buflen : Z) : prog (list (Z * Z) * list (list Z)) :=
  match attrs with
  | [] => ret ([], [])
  | a :: attrs =>
      let* r := routerboot_tag_find mem buflen (hca_tag_id a) in
      let place := match r with inl _ => (0, 0) | inr (ofs, len) => (u16 (ofs + 4), len) end in
      let* file :=
        match r with
        | inl _ => ret []
        | inr _ =>
            if (hca_tag_id a =? RB_ID_WLAN_DATA) && negb (place.2 =? 0) then publish_wlan place
            else ret (sysfs_created (hca_name a))
        end in
      let* (places, files) := hc_publish attrs mem buflen in
      ret (place :: places, file ++ files)
  end.

Definition no_hardconfig : hardconfig :=
  mk_hardconfig None 0 (replicate (length hc_attrs) (0, 0)) (0, 0) (replicate (length hc_multi_ids) (0, 0)) [].

Definition set_hc_buf (b : option (list Z)) (n : Z) (hc : hardconfig) : hardconfig :=
  mk_hardconfig b n (hc_plds hc) (hc_wd_solo hc) (hc_wd_multi hc) (hc_files hc).

Definition rb_hardconfig_init : prog Z :=
  do* set_hc (fun hc => set_hc_buf None (hc_buflen hc) hc) in
  match hard_config e with
  | None => ret (- ENODEV)
  | Some mtd =>
      let buflen := rm_size mtd in
      do* set_hc (set_hc_buf None buflen) in
      if negb (kmalloc_buf e) then ret (- ENOMEM)
      else
        let* (r, bytes) := mtd_call (rm_read mtd 0 buflen) in
        if negb (r =? 0) then ret r
        else if negb (Z.of_nat (length bytes) =? buflen) then ret (- EIO)
        else
          let* magic := cpu_load bytes 0 4 in
          if negb (magic =? RB_MAGIC_HARD) then ret (- EINVAL)
          else if negb (kobject_ok e) then ret (- ENOMEM)
          else
            do* set_hc (set_hc_buf (Some bytes) buflen) in
            let* (places, files) := hc_publish hc_attrs (drop 4 bytes) (size_t (buflen - 4)) in
            do* set_hc (fun hc => mk_hardconfig (hc_buf hc) buflen places (hc_wd_solo hc) (hc_wd_multi hc) files) in
            ret 0
  end.

Definition rb_hardconfig_exit : prog unit :=
  set_hc (fun hc => mk_hardconfig None (hc_buflen hc) (hc_plds hc) (hc_wd_solo hc) (hc_wd_multi hc) []).

(** * The module *)

Definition routerboot_init (kobject_granted : bool) : prog Z :=
  if negb kobject_granted then ret (- ENOMEM)
  else do* rb_hardconfig_init in do* rb_softconfig_init in ret 0.

Definition routerboot_exit : prog unit := do* rb_softconfig_exit in rb_hardconfig_exit.
End drivers.
