(* ===== verification/RbConfigSpec.v ===== *)
(** What the two sysfs drivers of MikroTik boards guarantee: a setting that is stored is the one
    shown, a buffer that is called clean is what the flash holds, a commit seals the buffer with
    its checksum, and calibration data read in pieces is the decoded data. *)

From stdpp Require Import base list numbers strings gmap.
From Stdlib Require Import ZArith Lia.
From S2P Require Import Prelude Platform Bytes CStrings NmbmBlocks NmbmSim MtdSplitWitness RouterBoot RouterBootSpec RbConfig.
Local Open Scope Z_scope.
Local Open Scope cprog_scope.

(** * The buffer of the software configuration *)

Section buffer.
Context `{A : Arch} {chip : Type}.
Implicit Types (s : rb_state chip) (b : list Z).

Definition with_buf s b : rb_state chip := mk_rb_state (set_sc_buf (Some b) (rb_sc s)) (rb_hc s) (rb_chip s).

Lemma sc_put_eq s b ofs v :
  sc_buf (rb_sc s) = Some b -> 0 <= ofs -> ofs + 4 <= Z.of_nat (length b) ->
  sc_put ofs v s = Ret tt (with_buf s (blit b ofs (cpu_bytes 4 v))).
Proof. intros E ? ?. unfold sc_put, bind, sc_mem. rewrite E, in_bounds_true by lia. done. Qed.

Lemma sc_get_eq s b ofs :
  sc_buf (rb_sc s) = Some b -> 0 <= ofs -> ofs + 4 <= Z.of_nat (length b) ->
  sc_get ofs s = Ret (cpu_field b ofs 4) s.
Proof. intros E ? ?. unfold sc_get, bind, sc_mem, cpu_load. rewrite E, in_bounds_true by lia. done. Qed.

Lemma length_put b ofs v : 0 <= ofs -> ofs + 4 <= Z.of_nat (length b) -> length (blit b ofs (cpu_bytes 4 v)) = length b.
Proof. intros. apply length_blit; rewrite ?length_cpu_bytes; lia. Qed.

Lemma field_put b ofs v : 0 <= ofs -> ofs + 4 <= Z.of_nat (length b) -> 0 <= v < 2 ^ 32 ->
  cpu_field (blit b ofs (cpu_bytes 4 v)) ofs 4 = v.
Proof.
  intros ? ? Hv. rewrite (cpu_field_bytes _ ofs 4 v 4); [by apply Z.mod_small| |done].
  apply slice_blit_len; rewrite ?length_cpu_bytes; lia.
Qed.

Lemma field_put_before b ofs v o : 0 <= o -> o + 4 <= ofs -> ofs + 4 <= Z.of_nat (length b) ->
  cpu_field (blit b ofs (cpu_bytes 4 v)) o 4 = cpu_field b o 4.
Proof. intros. unfold cpu_field, be_field, le_field. by rewrite slice_blit_before by (rewrite ?length_cpu_bytes; lia). Qed.

Lemma field_put_after b ofs v o : 0 <= ofs -> ofs + 4 <= o -> ofs + 4 <= Z.of_nat (length b) ->
  cpu_field (blit b ofs (cpu_bytes 4 v)) o 4 = cpu_field b o 4.
Proof. intros. unfold cpu_field, be_field, le_field. by rewrite slice_blit_after by (rewrite ?length_cpu_bytes; lia). Qed.

Lemma lookup_put b ofs v o : 0 <= ofs -> ofs + 4 <= Z.of_nat (length b) -> ~ (ofs <= Z.of_nat o < ofs + 4) ->
  blit b ofs (cpu_bytes 4 v) !! o = b !! o.
Proof.
  intros ? ? Ho. unfold blit. destruct (decide (o < Z.to_nat ofs)%nat).
  - rewrite lookup_app_l by (rewrite length_take; lia). by rewrite lookup_take_lt by lia.
  - rewrite lookup_app_r by (rewrite length_take; lia). rewrite length_take.
    rewrite lookup_app_r, lookup_drop, length_cpu_bytes by (rewrite ?length_cpu_bytes; lia). f_equal. lia.
Qed.

(** Setting the checksum word twice, and to what it is. *)
Lemma put_put b ofs v w : 0 <= ofs -> ofs + 4 <= Z.of_nat (length b) ->
  blit (blit b ofs (cpu_bytes 4 v)) ofs (cpu_bytes 4 w) = blit b ofs (cpu_bytes 4 w).
Proof.
  intros ? Hb. destruct (split_at b (Z.to_nat ofs)) as (l & r & -> & Hl); [lia|]. rewrite length_app in Hb.
  destruct (split_at r 4) as (old & r' & -> & Ho); [lia|].
  rewrite !(blit_middle l) by (rewrite ?length_cpu_bytes; lia). done.
Qed.

Lemma bytes_zero b ofs : Forall is_byte b -> 0 <= ofs -> ofs + 4 <= Z.of_nat (length b) -> cpu_field b ofs 4 = 0 ->
  blit b ofs (cpu_bytes 4 0) = b.
Proof.
  intros Hb ? Hl Hz. destruct (split_at b (Z.to_nat ofs)) as (l & r & -> & Hlen); [lia|]. rewrite length_app in Hl.
  destruct (split_at r 4) as (old & r' & -> & Ho); [lia|]. rewrite blit_middle by (rewrite ?length_cpu_bytes; lia).
  do 2 f_equal. apply Forall_app in Hb as [_ [Hb _]%Forall_app].
  assert (slice (l ++ old ++ r') ofs 4 = old) as E.
  { rewrite slice_app_r by lia. replace (ofs - Z.of_nat (length l)) with 0 by lia. apply slice_head. lia. }
  unfold cpu_field, be_field, le_field in Hz. rewrite E in Hz. unfold cpu_bytes. clear E.
  destruct old as [|x0 [|x1 [|x2 [|x3 [|]]]]]; cbn in Ho; try lia.
  repeat match goal with H : Forall _ (_ :: _) |- _ => apply Forall_cons in H as [? H] end. unfold is_byte in *.
  destruct big_endian; cbn in Hz; assert (x0 = 0 /\ x1 = 0 /\ x2 = 0 /\ x3 = 0) as (-> & -> & -> & ->) by lia; done.
Qed.
End buffer.

(** * Settings *)

(** The values of a setting and their names, in the order in which they are shown. *)
Definition cpufreq_options (c : option ath79_soc) : sc_u32tvs :=
  match c with
  | Some soc => take (Z.to_nat (sc_tag_cpufreq_ath79_arraysize soc)) (sc_cpufreq_tvs soc)
  | None => []
  end.
Definition sc_options (c : option ath79_soc) (f : sc_format) : sc_u32tvs :=
  match f with
  | ScU32tvs tvs => tvs
  | ScBoolts strfalse strtrue => [(0, strfalse); (1, strtrue)]
  | ScBootdelays => (fun i => (i, [48 + i])) <$> seqZ 1 9
  | ScCpufreq => cpufreq_options c
  | ScString => []
  end.

(** The value an input stands for. *)
Definition chosen {chip} (e : rb_env chip) (f : sc_format) (input : list Z) : option Z :=
  match f with
  | ScBootdelays =>
      match kstrtou32 e input with
      | inr v => if (1 <=? v) && (v <=? 9) then Some v else None
      | inl _ => None
      end
  | _ => fst <$> List.find (fun tv => sysfs_streq e input tv.2) (sc_options (CONFIG_ATH79 e) f)
  end.

(** The names, the one of the value in brackets; booleans have no blank at the end. *)
Definition menu (opts : sc_u32tvs) (v : Z) : list Z := concat ((fun tv => bracketed (tv.1 =? v) tv.2) <$> opts).
Definition shown (c : option ath79_soc) (f : sc_format) (v : Z) : list Z :=
  match f with
  | ScBoolts _ _ => removelast (menu (sc_options c f) v) ++ [10]
  | _ => menu (sc_options c f) v ++ [10]
  end.

(** The kernel's predicates on chips exclude each other where the driver needs it. *)
Definition soc_sane (c : option ath79_soc) : Prop :=
  forall soc, c = Some soc -> soc_is_ar7161 soc = true -> soc_is_ar71xx soc = true.

(** A format with a value: those that can be stored and shown as a menu. *)
Definition has_menu (c : option ath79_soc) (f : sc_format) : bool :=
  match f with
  | ScString => false
  | ScCpufreq => match c with Some soc => 0 <=? sc_tag_cpufreq_ath79_arraysize soc | None => false end
  | _ => true
  end.

Lemma arraysize_range c soc : soc_sane c -> c = Some soc ->
  sc_tag_cpufreq_ath79_arraysize soc <= Z.of_nat (length (sc_cpufreq_tvs soc)).
Proof.
  intros Hs ->. specialize (Hs soc eq_refl). unfold sc_tag_cpufreq_ath79_arraysize, sc_cpufreq_tvs.
  destruct (soc_is_ar7161 soc); [rewrite Hs by done; cbn; lia|].
  destruct (soc_is_ar724x soc); [rewrite orb_true_r; cbn; lia|].
  destruct (soc_is_ar71xx soc), (soc_is_ar9344 soc), (soc_is_qca953x soc), (soc_is_qca9556 soc), (soc_is_qca9558 soc);
    unfold EOPNOTSUPP; cbn; lia.
Qed.

Section settings.
Context `{A : Arch} {chip : Type} (e : rb_env chip).
Implicit Types (s : rb_state chip) (b : list Z).

Lemma removelast_bracketed l h t : removelast (l ++ bracketed h t) = l ++ removelast (bracketed h t).
Proof. apply removelast_app. unfold bracketed. destruct h; [done|by destruct t]. Qed.

(** What [tshow] makes of a value. *)
Lemma tshow_eq f ofs s b :
  soc_sane (CONFIG_ATH79 e) -> has_menu (CONFIG_ATH79 e) f = true -> sc_buf (rb_sc s) = Some b ->
  0 <= ofs -> ofs + 4 <= Z.of_nat (length b) ->
  (forall x y, f = ScBoolts x y -> 0 <= cpu_field b ofs 4 <= 1) ->
  tshow e f ofs 4 s = Ret (inr (shown (CONFIG_ATH79 e) f (cpu_field b ofs 4))) s.
Proof.
  intros Hsane Hmenu Hb Ho Hl Hbool. destruct f as [tvs|x y| | |]; [| | | |done]; cbn [tshow has_menu] in *.
  - unfold sc_tag_show_u32tvs. destruct (Z.ltb_spec (Z.of_nat (length tvs)) 0); [lia|]. change (negb (4 =? 4)) with false. cbn beta iota.
    rewrite Z.ltb_irrefl. unfold bind. rewrite (sc_get_eq s b) by done. rewrite Nat2Z.id, take_ge by done. done.
  - specialize (Hbool x y eq_refl). unfold sc_tag_show_boolts, bind. change (negb (4 =? 4)) with false. cbn beta iota.
    rewrite (sc_get_eq s b) by done. unfold shown, menu. cbn [sc_options fmap list_fmap concat fst snd].
    rewrite app_nil_r, removelast_bracketed.
    assert (cpu_field b ofs 4 = 0 \/ cpu_field b ofs 4 = 1) as [-> | ->] by lia; unfold ret, bracketed; cbn -[removelast];
      do 2 f_equal.
    + rewrite removelast_app by done. cbn. by rewrite <- !app_assoc.
    + change (91 :: y ++ [93; 32]) with ([91] ++ y ++ [93] ++ [32]). rewrite !app_assoc, removelast_last. by rewrite <- !app_assoc.
  - unfold sc_tag_show_bootdelays, bind. change (negb (4 =? 4)) with false. cbn beta iota. rewrite (sc_get_eq s b) by done. done.
  - unfold sc_tag_show_cpufreq_indexes. destruct (CONFIG_ATH79 e) as [soc|] eqn:Ec; [|done].
    pose proof (arraysize_range _ soc Hsane eq_refl) as Hn. apply Z.leb_le in Hmenu. unfold sc_tag_show_u32tvs.
    destruct (Z.ltb_spec (sc_tag_cpufreq_ath79_arraysize soc) 0); [lia|]. change (negb (4 =? 4)) with false. cbn beta iota.
    destruct (Z.ltb_spec (Z.of_nat (length (sc_cpufreq_tvs soc))) (sc_tag_cpufreq_ath79_arraysize soc)); [lia|].
    unfold bind. rewrite (sc_get_eq s b) by done. done.
Qed.

(** The buffer after a value has been stored. *)
Definition stored b ofs v : list Z := blit (blit b ofs (cpu_bytes 4 v)) RB_SC_CRC32_OFFSET (cpu_bytes 4 0).

Lemma store_word_eq s b ofs v :
  sc_buf (rb_sc s) = Some b -> 0 <= ofs -> ofs + 4 <= Z.of_nat (length b) -> 8 <= Z.of_nat (length b) ->
  sc_store_word ofs v s = Ret tt (with_buf s (stored b ofs v)).
Proof.
  intros Hb ? ? ?. unfold sc_store_word, bind. rewrite (sc_put_eq s b) by done.
  unfold RB_SC_CLRCRC, RB_SC_SETCRC. rewrite (sc_put_eq _ (blit b ofs (cpu_bytes 4 v))); [done|done|done|].
  rewrite length_put by lia. unfold RB_SC_CRC32_OFFSET. lia.
Qed.

(** What [tstore] does with an input. *)
Lemma tstore_eq f store ofs input count s b :
  soc_sane (CONFIG_ATH79 e) -> tstore e f = Some store -> sc_buf (rb_sc s) = Some b ->
  0 <= ofs -> ofs + 4 <= Z.of_nat (length b) -> 8 <= Z.of_nat (length b) ->
  match chosen e f input with
  | Some v => has_menu (CONFIG_ATH79 e) f = true -> store ofs 4 input count s = Ret count (with_buf s (stored b ofs v))
  | None => exists err, store ofs 4 input count s = Ret err s
  end.
Proof.
  intros Hsane Hstore Hb ? ? ?. assert (forall v, (do* sc_store_word ofs v in ret count) s = Ret count (with_buf s (stored b ofs v))) as Hput
    by (intros v; unfold bind; by rewrite (store_word_eq s b)).
  destruct f as [tvs|x y| | |]; cbn [tstore chosen sc_options has_menu] in *; simplify_eq.
  - unfold sc_tag_store_u32tvs. destruct (Z.ltb_spec (Z.of_nat (length tvs)) 0); [lia|]. change (negb (4 =? 4)) with false. cbn beta iota.
    rewrite Z.ltb_irrefl, Nat2Z.id, take_ge by done. destruct (List.find _ tvs); cbn; eauto.
  - unfold sc_tag_store_boolts. change (negb (4 =? 4)) with false. cbn beta iota. cbn [List.find fst snd].
    destruct (sysfs_streq e input x); [cbn; eauto|]. destruct (sysfs_streq e input y); cbn; eauto.
  - unfold sc_tag_store_bootdelays, RB_BOOT_DELAY_MIN, RB_BOOT_DELAY_MAX. change (negb (4 =? 4)) with false. cbn beta iota.
    destruct (kstrtou32 e input) as [err|v]; [eauto|].
    destruct (Z.leb_spec 1 v), (Z.leb_spec v 9), (Z.ltb_spec v 1), (Z.ltb_spec 9 v); try lia; cbn [andb orb]; eauto.
  - destruct (CONFIG_ATH79 e) as [soc|] eqn:Ec; [|done]. injection Hstore as <-.
    pose proof (arraysize_range _ soc Hsane eq_refl) as Hn. cbn [cpufreq_options]. unfold sc_tag_store_u32tvs.
    destruct (Z.ltb_spec (sc_tag_cpufreq_ath79_arraysize soc) 0).
    + destruct (List.find _ _); cbn [fmap option_fmap option_map]; [|eauto]. intros ?%Z.leb_le. lia.
    + change (negb (4 =? 4)) with false. cbn beta iota.
      destruct (Z.ltb_spec (Z.of_nat (length (sc_cpufreq_tvs soc))) (sc_tag_cpufreq_ath79_arraysize soc)); [lia|].
      destruct (List.find _ _); cbn; eauto.
Qed.

(** Values that can be chosen are words, and those of the menu. *)
Lemma chosen_option f input v : chosen e f input = Some v -> exists name, (v, name) ∈ sc_options (CONFIG_ATH79 e) f.
Proof.
  assert (forall l, fst <$> List.find (fun tv : Z * list Z => sysfs_streq e input tv.2) l = Some v -> exists name, (v, name) ∈ l) as Hfind.
  { intros l. destruct (List.find _ l) as [[v' name]|] eqn:E; [|done]. intros [= <-]. exists name.
    apply find_some in E as [E _]. by apply list_elem_of_In. }
  destruct f; cbn [chosen]; try apply Hfind. destruct (kstrtou32 e input) as [|w]; [done|].
  destruct (Z.leb_spec 1 w), (Z.leb_spec w 9); try done. intros [= <-]. exists [48 + w]. cbn [sc_options].
  apply list_elem_of_fmap. exists w. split; [done|]. apply elem_of_seqZ. lia.
Qed.
End settings.

Lemma words_checked (l : sc_u32tvs) :
  forallb (fun tv => (0 <=? tv.1) && (tv.1 <? 2 ^ 32)) l = true -> Forall (fun tv => 0 <= tv.1 < 2 ^ 32) l.
Proof.
  intros H. apply Forall_forall. intros tv Hin. rewrite forallb_forall in H. specialize (H tv ltac:(by apply list_elem_of_In)).
  apply andb_prop in H as [?%Z.leb_le ?%Z.ltb_lt]. done.
Qed.

(** The values of the known settings are words. *)
Lemma option_words c i a : sc_attrs !! i = Some a -> Forall (fun tv => 0 <= tv.1 < 2 ^ 32) (sc_options c (sca_format a)).
Proof.
  intros Hi. assert (Forall (fun tv : Z * list Z => 0 <= tv.1 < 2 ^ 32) (cpufreq_options c)) as Hc.
  { destruct c as [soc|]; cbn [cpufreq_options]; [|done]. apply Forall_take. unfold sc_cpufreq_tvs.
    destruct (soc_is_ar71xx soc || soc_is_ar724x soc); apply words_checked; vm_compute; reflexivity. }
  do 10 (destruct i as [|i]; [injection Hi as <-; first [exact Hc|apply words_checked; vm_compute; reflexivity]|]). done.
Qed.

(** The driver is running: the buffer is as long as the partition, and the payloads lie behind
    the magic number and the checksum. *)
Record sc_ok (size : Z) (sc : softconfig) (b : list Z) : Prop := {
  ok_buf : sc_buf sc = Some b;
  ok_length : Z.of_nat (length b) = size;
  ok_buflen : sc_buflen sc = size;
  ok_size : 8 <= size;
  ok_bytes : Forall is_byte b;
  ok_plds : length (sc_plds sc) = length sc_attrs;
  ok_place i ofs len : sc_plds sc !! i = Some (ofs, len) -> len <> 0 -> 8 <= ofs /\ ofs + 4 <= size
}.

(** The checksum word tells whether there are changes to be committed. *)
Definition crc_word `{Arch} (b : list Z) : Z := cpu_field b RB_SC_CRC32_OFFSET 4.

Section soft.
Context `{A : Arch} {chip : Type} (e : rb_env chip).
Implicit Types (s : rb_state chip) (b : list Z).

Lemma with_buf_ok size s b b' : sc_ok size (rb_sc s) b -> length b' = length b -> Forall is_byte b' ->
  sc_ok size (rb_sc (with_buf s b')) b'.
Proof. intros [? ? ? ? ? ? ?] E Hb. split; cbn; try done. by rewrite E. Qed.

Lemma stored_ok size s b ofs v : sc_ok size (rb_sc s) b -> 0 <= ofs -> ofs + 4 <= size ->
  sc_ok size (rb_sc (with_buf s (stored b ofs v))) (stored b ofs v) /\ crc_word (stored b ofs v) = 0.
Proof.
  intros Hok Ho Hs. pose proof (ok_length _ _ _ Hok). pose proof (ok_size _ _ _ Hok). unfold stored, RB_SC_CRC32_OFFSET.
  assert (length (blit b ofs (cpu_bytes 4 v)) = length b) as Hl by (apply length_put; lia). split.
  - eapply with_buf_ok; [done| |].
    + rewrite length_put by (rewrite ?Hl; lia). done.
    + apply blit_bytes; [|apply cpu_bytes_range]. apply blit_bytes; [by eapply ok_bytes|apply cpu_bytes_range].
  - unfold crc_word, RB_SC_CRC32_OFFSET. apply field_put; rewrite ?Hl; lia.
Qed.

(** C10: a setting that is stored is the one that is shown.  For a known setting whose payload is
    a word, [sc_attr_store] either refuses the input and changes nothing, or returns [count]:
    then the word of the payload is the value the input stands for, one of the menu, the file
    shows the menu with its name in brackets, the buffer is dirty, and all other bytes are
    unchanged. *)
Theorem store_then_show size s b i a ofs input count :
  sc_ok size (rb_sc s) b -> soc_sane (CONFIG_ATH79 e) ->
  RB_SC_HAS_WRITE_SUPPORT e = true -> capable e = true ->
  sc_attrs !! i = Some a -> has_menu (CONFIG_ATH79 e) (sca_format a) = true -> sc_plds (rb_sc s) !! i = Some (ofs, 4) ->
  match chosen e (sca_format a) input with
  | Some v => exists b' name,
      (v, name) ∈ sc_options (CONFIG_ATH79 e) (sca_format a) /\
      sc_attr_store e i input count s = Ret count (with_buf s b') /\ sc_ok size (rb_sc (with_buf s b')) b' /\
      cpu_field b' ofs 4 = v /\
      sc_attr_show e i (with_buf s b') = Ret (inr (shown (CONFIG_ATH79 e) (sca_format a) v)) (with_buf s b') /\
      sc_commit_show (with_buf s b') = Ret (inr (ascii_bytes "dirty" ++ [10])) (with_buf s b') /\
      forall o : nat, ~ (4 <= Z.of_nat o < 8) -> ~ (ofs <= Z.of_nat o < ofs + 4) -> b' !! o = b !! o
  | None => exists err, sc_attr_store e i input count s = Ret err s
  end.
Proof.
  intros Hok Hsane Hw Hcap Ha Hmenu Hp. destruct (ok_place _ _ _ Hok i ofs 4 Hp ltac:(lia)) as [Ho1 Ho2].
  pose proof (ok_length _ _ _ Hok) as Hlen. pose proof (ok_size _ _ _ Hok) as Hsize. pose proof (ok_buf _ _ _ Hok) as Hbuf.
  assert (exists store, tstore e (sca_format a) = Some store) as [store Hst].
  { destruct (sca_format a); cbn in Hmenu |- *; try done; eauto. destruct (CONFIG_ATH79 e); eauto. done. }
  assert (sc_attr_store e i input count s = store ofs 4 input count s) as Estore.
  { unfold sc_attr_store. rewrite Hw, Hcap. cbn [negb]. unfold bind, sc_attr_at. by rewrite Ha, Hp, Hst. }
  rewrite Estore. pose proof (tstore_eq e _ store ofs input count s b Hsane Hst Hbuf ltac:(lia) ltac:(lia) ltac:(lia)) as Hs.
  destruct (chosen e (sca_format a) input) as [v|] eqn:Ec; [|exact Hs].
  destruct (chosen_option _ _ _ _ Ec) as [name Hname]. specialize (Hs Hmenu).
  destruct (stored_ok size s b ofs v Hok ltac:(lia) ltac:(lia)) as [Hok' Hcrc].
  pose proof (option_words (CONFIG_ATH79 e) i a Ha) as Hwords. rewrite Forall_forall in Hwords. specialize (Hwords _ Hname). cbn in Hwords.
  assert (cpu_field (stored b ofs v) ofs 4 = v) as Hv.
  { unfold stored. rewrite field_put_after by (rewrite ?length_put; unfold RB_SC_CRC32_OFFSET; lia). apply field_put; lia. }
  exists (stored b ofs v), name. split; [done|]. split; [done|]. split; [done|]. split; [done|]. split; [|split].
  - unfold sc_attr_show, bind, sc_attr_at. rewrite Ha. change (sc_plds (rb_sc (with_buf s _))) with (sc_plds (rb_sc s)). rewrite Hp.
    change (4 =? 0) with false. cbn iota. rewrite (tshow_eq e _ ofs _ (stored b ofs v)); [by rewrite Hv|done|done|done|lia| |].
    { rewrite (ok_length _ _ _ Hok'). lia. }
    intros x y Ef. rewrite Hv. rewrite Ef in Hname. cbn in Hname. rewrite !elem_of_cons in Hname.
    destruct Hname as [[= -> _]|[[= -> _]|Hn]]; [lia|lia|by apply not_elem_of_nil in Hn].
  - unfold sc_commit_show, bind, RB_SC_GETCRC. rewrite (sc_get_eq _ (stored b ofs v)); [|done|done|].
    2: { rewrite (ok_length _ _ _ Hok'). unfold RB_SC_CRC32_OFFSET. lia. }
    fold (crc_word (stored b ofs v)). by rewrite Hcrc.
  - intros o H1 H2. unfold stored. rewrite lookup_put by (rewrite ?length_put; unfold RB_SC_CRC32_OFFSET; lia). apply lookup_put; lia.
Qed.
End soft.

(** * The partition *)

(** What is known of the partition: [content] is what a complete read delivers, reading does
    not change it, and a complete write behind a successful erasure of the whole partition
    leaves the data written. *)
Class soft_flash {chip} (m : rb_mtd chip) (content : chip -> list Z) : Prop := {
  sf_size : 8 <= rm_size m <= 2 ^ 16 /\ rm_size m mod 4 = 0;
  sf_content c : Forall is_byte (content c) /\ Z.of_nat (length (content c)) = rm_size m;
  sf_read c r bytes c' : rm_read m 0 (rm_size m) c = ((r, bytes), c') ->
    content c' = content c /\ Forall is_byte bytes /\ Z.of_nat (length bytes) <= rm_size m /\
    (r = 0 -> Z.of_nat (length bytes) = rm_size m -> bytes = content c);
  sf_write c0 c data r n c' : Z.of_nat (length data) = rm_size m -> Forall is_byte data ->
    rm_erase m 0 (rm_size m) c0 = (0, c) -> rm_write m 0 data c = ((r, n), c') ->
    r = 0 -> n = rm_size m -> content c' = data
}.

(** The buffer with its checksum, which is computed over the buffer with a zero word. *)
Definition sealed `{Arch} `{Crc32} (b : list Z) : list Z :=
  blit b RB_SC_CRC32_OFFSET (cpu_bytes 4 (u32 (Z.lnot (crc32_le 0xffffffff (blit b RB_SC_CRC32_OFFSET (cpu_bytes 4 0)))))).

(** The checksum in the data is that of the data with a zero word. *)
Definition crc_valid `{Arch} `{Crc32} (b : list Z) : Prop :=
  crc_word b = u32 (Z.lnot (crc32_le 0xffffffff (blit b RB_SC_CRC32_OFFSET (cpu_bytes 4 0)))).

(** The critical section has gone wrong. *)
Definition failed (size : Z) (r : Z * Z) : Prop := r.1 <> 0 \/ r.2 <> size.

Section commit.
Context `{A : Arch} `{C : Crc32} {chip : Type} (e : rb_env chip) (m : rb_mtd chip) (content : chip -> list Z).
Context `{!soft_flash m content}.
Implicit Types (s : rb_state chip) (b : list Z).

Lemma crc_put_ok s b v : sc_ok (rm_size m) (rb_sc s) b ->
  RB_SC_SETCRC v s = Ret tt (with_buf s (blit b 4 (cpu_bytes 4 v))) /\
  sc_ok (rm_size m) (rb_sc (with_buf s (blit b 4 (cpu_bytes 4 v)))) (blit b 4 (cpu_bytes 4 v)).
Proof.
  intros Hok. pose proof (ok_length _ _ _ Hok). pose proof (ok_size _ _ _ Hok). unfold RB_SC_SETCRC, RB_SC_CRC32_OFFSET. split.
  - apply sc_put_eq; [by eapply ok_buf|lia|lia].
  - eapply with_buf_ok; [done| |]; [apply length_put; lia|]. apply blit_bytes; [by eapply ok_bytes|apply cpu_bytes_range].
Qed.

Lemma crc_get_ok s b : sc_ok (rm_size m) (rb_sc s) b -> RB_SC_GETCRC s = Ret (crc_word b) s.
Proof.
  intros Hok. pose proof (ok_length _ _ _ Hok). pose proof (ok_size _ _ _ Hok).
  apply sc_get_eq; [by eapply ok_buf|done|unfold RB_SC_CRC32_OFFSET; lia].
Qed.

Lemma sealed_valid b : 8 <= Z.of_nat (length b) -> crc_valid (sealed b).
Proof.
  intros Hl. unfold crc_valid, sealed, crc_word, RB_SC_CRC32_OFFSET. rewrite put_put by lia.
  apply field_put; [lia|lia|apply u32_range].
Qed.

(** Changing the chip does not concern the buffer. *)
Definition with_chip s (c : chip) : rb_state chip := mk_rb_state (rb_sc s) (rb_hc s) c.

(** The critical section of a commit: unless it goes wrong, buffer and flash agree. *)
Lemma commit_locked_spec flush s b :
  sc_ok (rm_size m) (rb_sc s) b ->
  wp (commit_locked flush m) (fun r s' => exists b' c', s' = with_chip (with_buf s b') c' /\
    sc_ok (rm_size m) (rb_sc s') b' /\
    (failed (rm_size m) r \/ r = (0, rm_size m) /\ content c' = b') /\
    (if flush then b' = blit b 4 (cpu_bytes 4 (u32 (Z.lnot (crc32_le 0xffffffff b))))
     else content c' = content (rb_chip s))) s.
Proof using soft_flash0.
  intros Hok. pose proof (ok_length _ _ _ Hok) as Hlen. pose proof (ok_buf _ _ _ Hok) as Hbuf. pose proof sf_size as [Hsize _].
  unfold commit_locked. destruct flush; cbn [negb].
  - apply wp_bind. eapply wp_intro; [unfold sc_mem; by rewrite Hbuf|]. apply wp_bind.
    set (b' := blit b 4 _). destruct (crc_put_ok s b (u32 (Z.lnot (crc32_le 0xffffffff b))) Hok) as [Eput Hok']. fold b' in Eput, Hok'.
    eapply wp_intro; [exact Eput|]. apply wp_bind. unfold wp at 1, mtd_call.
    destruct (rm_erase m 0 (rm_size m) (rb_chip (with_buf s b'))) as [r c1] eqn:Ee. destruct (Z.eqb_spec r 0) as [->|Hr]; cbn [negb].
    + apply wp_bind. eapply wp_intro; [done|]. pose proof (ok_length _ _ _ Hok') as Hl'. pose proof (ok_bytes _ _ _ Hok') as Hb'.
      rewrite in_bounds_true by lia.
      assert (slice b' 0 (rm_size m) = b') as -> by (unfold slice; rewrite drop_0, take_ge by lia; done).
      unfold wp, rb_chip at 1. destruct (rm_write m 0 b' c1) as [[r n] c2] eqn:Ew. exists b', c2.
      split; [done|]. split; [done|]. split; [|done].
      destruct (decide (r = 0)) as [->|]; [|left; by left]. destruct (decide (n = rm_size m)) as [->|]; [|left; by right].
      right. split; [done|]. by eapply sf_write.
    + unfold ret. exists b', c1. split; [done|]. split; [done|]. split; [left; by left|done].
  - apply wp_bind. unfold wp at 1, mtd_call. destruct (rm_read m 0 (rm_size m) (rb_chip s)) as [[r bytes] c1] eqn:Er.
    destruct (sf_read _ _ _ _ Er) as (Hc & Hby & Hn & Hfull). apply wp_bind. eapply wp_intro; [unfold sc_mem; cbn; by rewrite Hbuf|].
    rewrite in_bounds_true by lia. apply wp_bind, wp_modify, wp_ret. exists (blit b 0 bytes), c1. split; [done|].
    split; [|split; [|done]].
    { eapply (with_buf_ok _ (with_chip s c1) b); [done|apply length_blit; lia|]. apply blit_bytes; [by eapply ok_bytes|done]. }
    destruct (decide (r = 0)) as [->|]; [|left; by left]. destruct (decide (Z.of_nat (length bytes) = rm_size m)) as [En|]; [|left; by right].
    right. rewrite En. split; [done|]. rewrite Hc, <- (Hfull eq_refl En). unfold blit. cbn [take Z.to_nat app].
    rewrite drop_ge by lia. by rewrite app_nil_r.
Qed.

(** The end of a commit: after a failure the buffer is dirty. *)
Lemma commit_exit_spec count r s b :
  sc_ok (rm_size m) (rb_sc s) b ->
  wp (commit_exit count r) (fun v s' =>
    (failed (rm_size m) r /\ s' = with_buf s (blit b 4 (cpu_bytes 4 0)) /\ v = (if r.1 =? 0 then - EIO else r.1)) \/
    (r = (0, rm_size m) /\ s' = s /\ v = count)) s.
Proof.
  intros Hok. destruct (crc_put_ok s b 0 Hok) as [Eput _]. unfold commit_exit, wp, bind, RB_SC_CLRCRC. rewrite Eput.
  rewrite (ok_buflen _ _ _ Hok). destruct r as [r n]. cbn [fst snd]. destruct (Z.eqb_spec r 0) as [->|]; cbn [negb].
  - destruct (Z.eqb_spec n (rm_size m)) as [->|]; cbn [negb]; [by right|]. left. split; [by right|done].
  - left. split; [by left|done].
Qed.

(** The start of a commit changes nothing, and goes on only with a dirty buffer. *)
Lemma commit_enter_spec input count s b :
  soft_config e = Some m -> RB_SC_HAS_WRITE_SUPPORT e = true -> sc_ok (rm_size m) (rb_sc s) b ->
  commit_enter e input count s = Ret
    (if negb (crc_word b =? 0) then inl count
     else match kstrtobool e input with inl err => inl err | inr flush => inr (flush, m) end) s.
Proof.
  intros Hm Hw Hok. unfold commit_enter. rewrite Hw. cbn [negb]. unfold bind. rewrite (crc_get_ok s b Hok), Hm.
  destruct (negb _); [done|]. by destruct (kstrtobool e input).
Qed.
End commit.

Section commit_theorems.
Context `{A : Arch} `{C : Crc32} {chip : Type} (e : rb_env chip) (m : rb_mtd chip) (content : chip -> list Z).
Context `{!soft_flash m content}.
Implicit Types (s : rb_state chip) (b : list Z).

Lemma sealed_ok s b : sc_ok (rm_size m) (rb_sc s) b -> sc_ok (rm_size m) (rb_sc (with_buf s (sealed b))) (sealed b).
Proof using.
  intros Hok. pose proof (ok_length _ _ _ Hok). pose proof (ok_size _ _ _ Hok). unfold sealed, RB_SC_CRC32_OFFSET.
  eapply with_buf_ok; [done|apply length_put; lia|]. apply blit_bytes; [by eapply ok_bytes|apply cpu_bytes_range].
Qed.

(** Clearing the checksum of a sealed buffer gives the buffer back. *)
Lemma unsealed s b : sc_ok (rm_size m) (rb_sc s) b -> crc_word b = 0 -> blit (sealed b) 4 (cpu_bytes 4 0) = b.
Proof using.
  intros Hok Hz. pose proof (ok_length _ _ _ Hok). pose proof (ok_size _ _ _ Hok). unfold sealed, RB_SC_CRC32_OFFSET.
  rewrite put_put by lia. apply bytes_zero; [by eapply ok_bytes|lia|lia|done].
Qed.

Lemma with_buf_back s b b' c : sc_buf (rb_sc s) = Some b ->
  with_buf (with_chip (with_buf s b') c) b = with_chip s c.
Proof using. destruct s as [[] ? ?]. cbn. by intros ->. Qed.

(** The critical section of a commit with a true input, on a buffer whose checksum word is
    zero: the partition is erased and the sealed buffer written. *)
Lemma commit_locked_flush s b : sc_ok (rm_size m) (rb_sc s) b -> crc_word b = 0 ->
  commit_locked true m s =
  let '(re, c1) := rm_erase m 0 (rm_size m) (rb_chip s) in
  let s1 := with_chip (with_buf s (sealed b)) in
  if negb (re =? 0) then Ret (re, 0) (s1 c1)
  else let '(r, c2) := rm_write m 0 (sealed b) c1 in Ret r (s1 c2).
Proof using.
  intros Hok Hz. pose proof (ok_length _ _ _ Hok) as Hlen. pose proof (ok_size _ _ _ Hok) as Hsize.
  assert (blit b 4 (cpu_bytes 4 0) = b) as Ezero by (apply bytes_zero; [by eapply ok_bytes|lia|lia|done]).
  unfold commit_locked. cbn [negb]. unfold bind, sc_mem. rewrite (ok_buf _ _ _ Hok).
  destruct (crc_put_ok m s b (u32 (Z.lnot (crc32_le 0xffffffff b))) Hok) as [-> Hok'].
  assert (blit b 4 (cpu_bytes 4 (u32 (Z.lnot (crc32_le 0xffffffff b)))) = sealed b) as E
    by (unfold sealed, RB_SC_CRC32_OFFSET; by rewrite Ezero).
  rewrite E in *. unfold mtd_call. cbn [with_buf rb_chip rb_sc rb_hc]. destruct (rm_erase _ _ _ _) as [re c1].
  destruct (negb (re =? 0)); [done|]. cbn [set_sc_buf sc_buf rb_sc rb_chip rb_hc].
  assert (Z.of_nat (length (sealed b)) = rm_size m) as Hl by apply (ok_length _ _ _ Hok').
  rewrite in_bounds_true by lia. unfold slice. rewrite drop_0, take_ge by lia. by destruct (rm_write _ _ _ _).
Qed.

(** With a false input the partition is read into the buffer. *)
Lemma commit_locked_reread s b : sc_ok (rm_size m) (rb_sc s) b ->
  let '((r, bytes), c1) := rm_read m 0 (rm_size m) (rb_chip s) in
  commit_locked false m s = Ret (r, Z.of_nat (length bytes)) (with_chip (with_buf s (blit b 0 bytes)) c1) /\
  sc_ok (rm_size m) (rb_sc (with_buf s (blit b 0 bytes))) (blit b 0 bytes).
Proof using soft_flash0.
  intros Hok. pose proof (ok_length _ _ _ Hok) as Hlen. destruct (rm_read _ _ _ _) as [[r bytes] c1] eqn:Er.
  destruct (sf_read _ _ _ _ Er) as (_ & Hby & Hn & _). unfold commit_locked. cbn [negb]. unfold bind, mtd_call, sc_mem.
  rewrite Er. cbn [rb_sc]. rewrite (ok_buf _ _ _ Hok), in_bounds_true by lia. split; [done|].
  eapply with_buf_ok; [done|apply length_blit; lia|]. apply blit_bytes; [by eapply ok_bytes|done].
Qed.

(** C9: a commit.  A clean buffer makes it return at once, as does an input that is no boolean.
    A true input erases the partition and writes the buffer with its checksum: when both work
    in full, [count] is returned, and flash and buffer hold the settings with a valid checksum;
    when erasing or writing fails, its error is returned, or [-EIO] for a short write, and the
    buffer is as before, dirty and with all settings.  A false input reads the partition: when
    that works in full, [count] is returned and the buffer is what the flash holds; otherwise
    its error or [-EIO] is returned and the buffer, with the bytes that were read, is dirty. *)
Theorem commit_seals input count s b :
  soft_config e = Some m -> RB_SC_HAS_WRITE_SUPPORT e = true -> sc_ok (rm_size m) (rb_sc s) b ->
  wp (sc_commit_store e input count) (fun v s' =>
    if negb (crc_word b =? 0) then v = count /\ s' = s
    else match kstrtobool e input with
    | inl err => v = err /\ s' = s
    | inr true => exists re c1, rm_erase m 0 (rm_size m) (rb_chip s) = (re, c1) /\
        (re <> 0 /\ v = re /\ s' = with_chip s c1 \/
         re = 0 /\ exists rw n c2, rm_write m 0 (sealed b) c1 = ((rw, n), c2) /\
          (rw <> 0 /\ v = rw /\ s' = with_chip s c2 \/
           rw = 0 /\ n <> rm_size m /\ v = - EIO /\ s' = with_chip s c2 \/
           rw = 0 /\ n = rm_size m /\ v = count /\ s' = with_chip (with_buf s (sealed b)) c2 /\
             content c2 = sealed b /\ crc_valid (sealed b)))
    | inr false => exists r bytes c1, rm_read m 0 (rm_size m) (rb_chip s) = ((r, bytes), c1) /\
        content c1 = content (rb_chip s) /\
        (r = 0 /\ Z.of_nat (length bytes) = rm_size m /\ v = count /\ s' = with_chip (with_buf s (content c1)) c1 \/
         (r <> 0 /\ v = r \/ r = 0 /\ Z.of_nat (length bytes) <> rm_size m /\ v = - EIO) /\
           exists b', s' = with_chip (with_buf s b') c1 /\ crc_word b' = 0 /\ b' = blit (blit b 0 bytes) 4 (cpu_bytes 4 0))
    end) s.
Proof using soft_flash0.
  intros Hm Hw Hok. pose proof (ok_length _ _ _ Hok) as Hlen. pose proof (ok_size _ _ _ Hok) as Hsize.
  unfold sc_commit_store. apply wp_bind. eapply wp_intro; [by eapply commit_enter_spec|].
  destruct (negb (crc_word b =? 0)) eqn:Ez; [by apply wp_ret|]. apply negb_false_iff, Z.eqb_eq in Ez.
  destruct (kstrtobool e input) as [err|[|]]; [by apply wp_ret| |]; apply wp_bind.
  - pose proof (commit_locked_flush s b Hok Ez) as Hc. destruct (rm_erase _ _ _ _) as [re c1] eqn:Ee.
    assert (sc_ok (rm_size m) (rb_sc (with_buf s (sealed b))) (sealed b)) as Hok1 by apply (sealed_ok s b Hok).
    assert (blit (sealed b) 4 (cpu_bytes 4 0) = b) as Eback by (apply (unsealed s b Hok Ez)).
    destruct (Z.eqb_spec re 0) as [->|Hre]; cbn [negb] in Hc.
    + destruct (rm_write _ _ _ _) as [[rw n] c2] eqn:Ew. eapply wp_intro; [exact Hc|].
      wp_call (commit_exit_spec m count (rw, n) (with_chip (with_buf s (sealed b)) c2) (sealed b) Hok1). cbn [fst snd].
      intros v s' H. exists 0, c1. split; [done|]. right. split; [done|]. exists rw, n, c2. split; [done|].
      destruct H as [(Hf & -> & ->)|([= -> ->] & -> & ->)].
      * rewrite Eback, (with_buf_back s b) by apply (ok_buf _ _ _ Hok). destruct (Z.eqb_spec rw 0) as [->|Hrw]; [|by left].
        right. left. destruct Hf as [Hf|Hf]; [done|]. done.
      * right. right. split_and!; try done; [|apply sealed_valid; lia].
        eapply (sf_write (rb_chip s) c1 (sealed b) 0 (rm_size m) c2); try done; [apply (ok_length _ _ _ Hok1)|apply (ok_bytes _ _ _ Hok1)].
    + eapply wp_intro; [exact Hc|].
      wp_call (commit_exit_spec m count (re, 0) (with_chip (with_buf s (sealed b)) c1) (sealed b) Hok1). cbn [fst snd].
      intros v s' [(Hf & -> & ->)|([= -> _] & _)]; [|done]. exists re, c1. split; [done|]. left.
      rewrite Eback, (with_buf_back s b) by apply (ok_buf _ _ _ Hok). by destruct (Z.eqb_spec re 0).
  - pose proof (commit_locked_reread s b Hok) as Hc. destruct (rm_read _ _ _ _) as [[r bytes] c1] eqn:Er.
    destruct Hc as [Hc Hok1]. destruct (sf_read _ _ _ _ Er) as (Hcc & Hby & Hn & Hfull). eapply wp_intro; [exact Hc|].
    wp_call (commit_exit_spec m count (r, Z.of_nat (length bytes)) (with_chip (with_buf s (blit b 0 bytes)) c1) (blit b 0 bytes) Hok1).
    cbn [fst snd]. intros v s' H. exists r, bytes, c1. split; [done|]. split; [done|].
    destruct H as [(Hf & -> & ->)|([= -> En] & -> & ->)].
    + right. split. { destruct (Z.eqb_spec r 0) as [->|]; [right|by left]. destruct Hf as [Hf|Hf]; done. }
      eexists. split; [done|]. split; [|done]. apply field_put; unfold RB_SC_CRC32_OFFSET; rewrite ?length_blit by lia; lia.
    + left. split_and!; try done. rewrite Hcc, <- (Hfull eq_refl En). do 2 f_equal. unfold blit. cbn [take Z.to_nat app].
      rewrite drop_ge by lia. by rewrite app_nil_r.
Qed.
End commit_theorems.

(** * Several writers

    Files in sysfs are used by several programs at once; only the critical sections of the
    driver are in sequence.  A program inside [sc_commit_store] has passed the first check, or
    has left the critical section. *)
Inductive pc (chip : Type) :=
| Entered (count : Z) (flush : bool) (m : rb_mtd chip)
| Left (count : Z) (r : Z * Z).
Arguments Entered {chip} _ _ _.
Arguments Left {chip} _ _.

Record system (chip : Type) := mk_system { sy_state : rb_state chip; sy_threads : gmap nat (pc chip) }.
Arguments mk_system {chip} _ _.
Arguments sy_state {chip} _.
Arguments sy_threads {chip} _.

Inductive sys_step `{Arch} `{Crc32} {chip} (e : rb_env chip) : system chip -> system chip -> Prop :=
| step_store s ts i input count v s' :
    sc_attr_store e i input count s = Ret v s' -> sys_step e (mk_system s ts) (mk_system s' ts)
| step_refused s ts input count v s' :
    commit_enter e input count s = Ret (inl v) s' -> sys_step e (mk_system s ts) (mk_system s' ts)
| step_enter s ts t input count flush m s' :
    ts !! t = None -> commit_enter e input count s = Ret (inr (flush, m)) s' ->
    sys_step e (mk_system s ts) (mk_system s' (<[t := Entered count flush m]> ts))
| step_locked s ts t count flush m r s' :
    ts !! t = Some (Entered count flush m) -> commit_locked flush m s = Ret r s' ->
    sys_step e (mk_system s ts) (mk_system s' (<[t := Left count r]> ts))
| step_leave s ts t count r v s' :
    ts !! t = Some (Left count r) -> commit_exit count r s = Ret v s' ->
    sys_step e (mk_system s ts) (mk_system s' (delete t ts)).

Section system.
Context `{A : Arch} `{!ArchLaws A} `{C : Crc32} {chip : Type} (e : rb_env chip) (m : rb_mtd chip) (content : chip -> list Z).
Context `{!soft_flash m content} (Hm : soft_config e = Some m) (Hw : RB_SC_HAS_WRITE_SUPPORT e = true).
Context (Hsane : soc_sane (CONFIG_ATH79 e)).
Implicit Types (s : rb_state chip) (b : list Z).

(** A program that has to mark the buffer dirty. *)
Definition failing (ts : gmap nat (pc chip)) : Prop :=
  exists t count r, ts !! t = Some (Left count r) /\ failed (rm_size m) r.

Definition in_sync s b (ts : gmap nat (pc chip)) : Prop :=
  crc_word b <> 0 -> b = content (rb_chip s) \/ failing ts.

Record sys_inv (sy : system chip) : Prop := {
  inv_buffer : exists b, sc_ok (rm_size m) (rb_sc (sy_state sy)) b /\ in_sync (sy_state sy) b (sy_threads sy);
  inv_threads t count flush m' : sy_threads sy !! t = Some (Entered count flush m') -> m' = m
}.

(** Any store leaves the driver as it is, or dirty. *)
Lemma store_cases i input count s b v s' :
  sc_ok (rm_size m) (rb_sc s) b -> sc_attr_store e i input count s = Ret v s' ->
  s' = s \/ exists b', sc_ok (rm_size m) (rb_sc s') b' /\ crc_word b' = 0 /\ rb_chip s' = rb_chip s.
Proof using Hsane.
  intros Hok. pose proof (ok_length _ _ _ Hok) as Hlen. pose proof (ok_size _ _ _ Hok) as Hsize.
  unfold sc_attr_store. destruct (negb (RB_SC_HAS_WRITE_SUPPORT e)); [intros [= _ <-]; by left|].
  destruct (negb (capable e)); [intros [= _ <-]; by left|]. unfold bind, sc_attr_at.
  destruct (sc_attrs !! i) as [a|]; [|done]. destruct (sc_plds (rb_sc s) !! i) as [[ofs len]|] eqn:Ep; [|done].
  destruct (tstore e (sca_format a)) as [store|] eqn:Est; [|intros [= _ <-]; by left].
  destruct (Z.eqb_spec len 0) as [|Hl0]; [intros [= _ <-]; by left|].
  destruct (ok_place _ _ _ Hok i ofs len Ep Hl0) as [H1 H2].
  destruct (decide (len = 4)) as [->|Hl4].
  - pose proof (tstore_eq e _ store ofs input count s b Hsane Est (ok_buf _ _ _ Hok) ltac:(lia) ltac:(lia) ltac:(lia)) as Ht.
    destruct (chosen e (sca_format a) input) as [w|] eqn:Ec; [|destruct Ht as [err ->]; intros [= _ <-]; by left].
    destruct (has_menu (CONFIG_ATH79 e) (sca_format a)) eqn:Em.
    + rewrite Ht by done. intros [= _ <-]. right. destruct (stored_ok (rm_size m) s b ofs w Hok ltac:(lia) H2) as [? ?]. eauto.
    + destruct (sca_format a); try discriminate. cbn [tstore has_menu] in *. destruct (CONFIG_ATH79 e) as [soc|]; [|done].
      apply Z.leb_gt in Em. injection Est as <-. unfold sc_tag_store_u32tvs. rewrite (proj2 (Z.ltb_lt _ _) Em). intros [= _ <-]. by left.
  - apply Z.eqb_neq in Hl4. destruct (sca_format a); cbn [tstore] in Est; [| | |destruct (CONFIG_ATH79 e); [|done]|done];
      injection Est as <-; unfold sc_tag_store_u32tvs, sc_tag_store_boolts, sc_tag_store_bootdelays; rewrite ?Hl4; cbn [negb];
      repeat case_match; intros [= _ <-]; by left.
Qed.
(** What the start of the driver finds of the tags. *)
Lemma publish_places attrs mem buflen s :
  Forall is_byte mem -> buflen mod 4 = 0 -> 0 <= buflen <= Z.of_nat (length mem) -> buflen + 8 <= 2 ^ 16 ->
  wp (sc_publish e attrs mem buflen) (fun '(places, files) s' => s' = s /\ length places = length attrs /\
    forall i ofs len, places !! i = Some (ofs, len) -> len <> 0 -> 8 <= ofs /\ ofs + 4 <= buflen + 8) s.
Proof.
  intros Hmem H4 Hl H16. induction attrs as [|a attrs IH]; cbn [sc_publish].
  { apply wp_ret. split; [done|]. split; [done|]. intros i ofs len E. by rewrite lookup_nil in E. }
  apply wp_bind. wp_call (@tag_find_safe A (rb_state chip)); [done|done|lia|]. intros r s' [-> Hr].
  assert (exists place file, (match r with
    | inl _ => ((0, 0), [])
    | inr (ofs, len) => ((u16 (ofs + (4 + 4)), len), if sysfs_create e (sca_name a) =? 0 then [sca_name a] else [])
    end) = (place, file) /\ (place.2 <> 0 -> 8 <= place.1 /\ place.1 + 4 <= buflen + 8)) as (place & file & -> & Hplace).
  { destruct r as [err|[o len]]; [by exists (0, 0), []|].
    destruct Hr as (d & -> & Hd & Hd4 & _). eexists _, _. split; [done|]. intros _. cbn [fst].
    pose proof (Z.div_mod d 4). pose proof (Z.div_mod buflen 4). rewrite !u16_small by (rewrite ?u16_small; lia). lia. }
  apply wp_bind. eapply wp_mono; [exact IH|]. intros [places files] s' (-> & Hlen & Hall). apply wp_ret.
  split; [done|]. split; [by cbn; rewrite Hlen|]. intros [|i] ofs len; cbn; [|apply Hall].
  intros [= ->]. exact Hplace.
Qed.

Lemma softconfig_init_ok s :
  wp (rb_softconfig_init e) (fun r s' => r = 0 ->
    exists b, sc_ok (rm_size m) (rb_sc s') b /\ b = content (rb_chip s')) s.
Proof using soft_flash0 ArchLaws0 Hm.
  pose proof sf_size as [Hsize H4]. unfold rb_softconfig_init. rewrite Hm. apply wp_bind, wp_modify, wp_bind, wp_modify.
  destruct (kmalloc_buf e); cbn [negb]; [|by apply wp_ret]. apply wp_bind. unfold wp at 1, mtd_call.
  destruct (rm_read m 0 (rm_size m) _) as [[r bytes] c'] eqn:Er. destruct (Z.eqb_spec r 0) as [->|]; cbn [negb]; [|by intros ?].
  destruct (sf_read _ _ _ _ Er) as (Hc & Hby & _ & Hfull).
  destruct (Z.eqb_spec (Z.of_nat (length bytes)) (rm_size m)) as [Hn|]; cbn [negb]; [|by intros ?]. specialize (Hfull eq_refl Hn).
  apply wp_bind, wp_cpu_load; [lia|lia|lia|]. destruct (negb _); [by intros ?|]. destruct (kobject_ok e); cbn [negb]; [|by intros ?].
  rewrite size_t_small by lia. apply wp_bind. wp_call publish_places.
  { by apply Forall_drop. }
  { by rewrite Zminus_mod, H4. }
  { rewrite length_drop. lia. }
  { lia. }
  intros [places files] s' (-> & Hlen & Hplaces). destruct (RB_SC_HAS_WRITE_SUPPORT e && _) eqn:Ew.
  - apply wp_bind, wp_modify, wp_ret. intros E. exfalso. rewrite E in Ew. by rewrite andb_false_r in Ew.
  - apply wp_bind, wp_modify, wp_ret. intros _. exists bytes. cbn. split; [|by rewrite Hc].
    split; cbn; try done; [lia|]. intros i ofs len Hi Hne. specialize (Hplaces i ofs len Hi Hne). lia.
Qed.

Lemma inv_step sy sy' : sys_inv sy -> sys_step e sy sy' -> sys_inv sy'.
Proof using soft_flash0 Hm Hw Hsane.
  intros [(b & Hok & Hsync) Hthreads] Hstep.
  destruct Hstep as [s ts i input count v s' E|s ts input count v s' E|s ts t input count flush m' s' Ht E|
    s ts t count flush m' r s' Ht E|s ts t count r v s' Ht E]; cbn [sy_state sy_threads] in *.
  - split; cbn [sy_state sy_threads]; [|done]. destruct (store_cases _ _ _ _ _ _ _ Hok E) as [->|(b' & Hok' & Hz & _)]; [by exists b|].
    exists b'. split; [done|]. by intros ?.
  - rewrite (commit_enter_spec e m input count s b Hm Hw Hok) in E. injection E as _ <-.
    split; cbn [sy_state sy_threads]; [by exists b|done].
  - rewrite (commit_enter_spec e m input count s b Hm Hw Hok) in E. injection E as E <-.
    destruct (negb (crc_word b =? 0)) eqn:Ez; [done|]. apply negb_false_iff, Z.eqb_eq in Ez.
    assert (m' = m) as -> by (destruct (kstrtobool e input); congruence).
    split; cbn [sy_state sy_threads]; [exists b; split; [done|by intros ?]|]. intros t' ? ? m' [[_ [= _ _ ->]]|[_ H]]%lookup_insert_Some; [done|].
    by eapply Hthreads.
  - rewrite (Hthreads _ _ _ _ Ht) in E. pose proof (commit_locked_spec m content flush s b Hok) as Hl. unfold wp in Hl. rewrite E in Hl.
    destruct Hl as (b' & c' & -> & Hok' & Hr & _). split; cbn [sy_state sy_threads].
    + exists b'. split; [done|]. intros _. destruct Hr as [Hf|[_ Hc]]; [|left; by rewrite <- Hc].
      right. exists t, count, r. by rewrite lookup_insert_eq.
    + intros t' ? ? ? [[_ [=]]|[_ H]]%lookup_insert_Some. by eapply Hthreads.
  - pose proof (commit_exit_spec m count r s b Hok) as Hl. unfold wp in Hl. rewrite E in Hl. split; cbn [sy_state sy_threads].
    2: { intros t' ? ? ? [_ H]%lookup_delete_Some. by eapply Hthreads. }
    destruct Hl as [(_ & -> & _)|(Hr & -> & _)].
    + pose proof (ok_length _ _ _ Hok). pose proof (ok_size _ _ _ Hok). destruct (crc_put_ok m s b 0 Hok) as [_ Hok'].
      eexists. split; [exact Hok'|]. intros Hne. exfalso. apply Hne. apply field_put; unfold RB_SC_CRC32_OFFSET; lia.
    + exists b. split; [done|]. intros Hne. destruct (Hsync Hne) as [?|(t' & n' & r' & Ht' & Hf)]; [by left|right].
      exists t', n', r'. split; [|done]. rewrite lookup_delete_ne; [done|]. intros <-. rewrite Ht in Ht'. injection Ht' as _ <-.
      destruct Hf as [Hf|Hf]; rewrite Hr in Hf; done.
Qed.

(** The operations of the driver do not touch memory outside the buffer. *)
Lemma store_returns i input count s b :
  (i < length sc_attrs)%nat -> sc_ok (rm_size m) (rb_sc s) b -> wp (sc_attr_store e i input count) (fun _ _ => True) s.
Proof using Hsane.
  intros Hi Hok. pose proof (ok_length _ _ _ Hok) as Hlen. pose proof (ok_size _ _ _ Hok) as Hsize. pose proof (ok_plds _ _ _ Hok) as Hpl.
  unfold wp, sc_attr_store. destruct (negb (RB_SC_HAS_WRITE_SUPPORT e)); [done|]. destruct (negb (capable e)); [done|].
  unfold bind, sc_attr_at. destruct (sc_attrs !! i) as [a|] eqn:Ea; [|apply lookup_ge_None in Ea; lia].
  destruct (sc_plds (rb_sc s) !! i) as [[ofs len]|] eqn:Ep; [|apply lookup_ge_None in Ep; lia].
  destruct (tstore e (sca_format a)) as [store|] eqn:Est; [|done]. destruct (Z.eqb_spec len 0) as [|Hl0]; [done|].
  destruct (ok_place _ _ _ Hok i ofs len Ep Hl0) as [H1 H2]. destruct (decide (len = 4)) as [->|Hl4].
  - pose proof (tstore_eq e _ store ofs input count s b Hsane Est (ok_buf _ _ _ Hok) ltac:(lia) ltac:(lia) ltac:(lia)) as Ht.
    destruct (chosen e (sca_format a) input) as [w|]; [|by destruct Ht as [err ->]].
    destruct (has_menu (CONFIG_ATH79 e) (sca_format a)) eqn:Em; [by rewrite Ht|].
    destruct (sca_format a); try discriminate. cbn [tstore has_menu] in *. destruct (CONFIG_ATH79 e) as [soc|]; [|done].
    apply Z.leb_gt in Em. injection Est as <-. unfold sc_tag_store_u32tvs. by rewrite (proj2 (Z.ltb_lt _ _) Em).
  - apply Z.eqb_neq in Hl4. destruct (sca_format a); cbn [tstore] in Est; [| | |destruct (CONFIG_ATH79 e); [|done]|done];
      injection Est as <-; unfold sc_tag_store_u32tvs, sc_tag_store_boolts, sc_tag_store_bootdelays; rewrite ?Hl4; cbn [negb];
      by repeat case_match.
Qed.

(** C8: however stores and commits of several programs interleave after a successful start, the
    buffer is as long as the partition, and if it is called clean the flash holds just its
    bytes, unless a program whose flash access went wrong is about to mark it dirty; with no
    program inside, clean means that buffer and flash agree.  No store and no commit reaches
    outside the buffer. *)
Theorem softconfig_in_sync s0 s sy :
  rb_softconfig_init e s0 = Ret 0 s -> rtc (sys_step e) (mk_system s ∅) sy ->
  exists b, sc_ok (rm_size m) (rb_sc (sy_state sy)) b /\
    (crc_word b <> 0 -> b = content (rb_chip (sy_state sy)) \/ failing (sy_threads sy)) /\
    (sy_threads sy = ∅ -> sc_commit_show (sy_state sy) = Ret (inr (ascii_bytes "clean" ++ [10])) (sy_state sy) ->
      b = content (rb_chip (sy_state sy))) /\
    (forall i input count, (i < length sc_attrs)%nat -> wp (sc_attr_store e i input count) (fun _ _ => True) (sy_state sy)) /\
    (forall input count, wp (sc_commit_store e input count) (fun _ _ => True) (sy_state sy)).
Proof using soft_flash0 ArchLaws0 Hm Hw Hsane.
  intros Hinit Hreach. assert (sys_inv (mk_system s ∅)) as Hinv.
  { pose proof (softconfig_init_ok s0) as H. unfold wp in H. rewrite Hinit in H. destruct (H eq_refl) as (b & Hok & Hb).
    split; cbn [sy_state sy_threads]; [exists b; split; [done|by left]|done]. }
  assert (sys_inv sy) as [(b & Hok & Hsync) _] by (clear Hinit; induction Hreach as [|x y z Hxy _ IH]; [done|by eapply IH, inv_step]).
  exists b. split; [done|]. split; [done|]. split; [|split].
  - intros Hnone Hclean. destruct Hsync as [?|(t & n & r & Ht & _)]; [|done|by rewrite Hnone in Ht].
    unfold sc_commit_show, bind in Hclean. rewrite (crc_get_ok m _ b Hok) in Hclean. intros Hz. rewrite Hz in Hclean. discriminate Hclean.
  - intros. by eapply store_returns.
  - intros input count. unfold sc_commit_store. apply wp_bind. eapply wp_intro; [by eapply commit_enter_spec|].
    destruct (negb _); [done|]. destruct (kstrtobool e input) as [|flush]; [done|].
    apply wp_bind. wp_call (commit_locked_spec m content); [done|]. intros r s1 (b1 & c1 & -> & Hok1 & _).
    wp_call (commit_exit_spec m); [done|]. done.
Qed.
End system.

(** * Calibration data *)

(** Reading a file from [off] on, [count] bytes at a time, until nothing is delivered. *)
Fixpoint read_file {S} (fuel : nat) (read : Z -> Z -> M S show_result) (off count : Z) : M S show_result :=
  match fuel with
  | O => fun _ => Diverge
  | Datatypes.S fuel =>
      let* r := read off count in
      match r with
      | inl err => ret (inl err)
      | inr [] => ret (inr [])
      | inr bytes =>
          let* rest := read_file fuel read (off + Z.of_nat (length bytes)) count in
          ret (match rest with inl err => inl err | inr l => inr (bytes ++ l) end)
      end
  end.

Section wlan.
Context `{A : Arch} `{!ArchLaws A} {chip : Type} (e : rb_env chip).
Implicit Types (s : rb_state chip).

Lemma bin_read_eq id ofs len out0 out n s off count :
  0 < len <= RB_ART_SIZE -> kmalloc_outbuf e = Some out0 ->
  hc_wlan_data_unpack e id ofs len out0 RB_ART_SIZE s = Ret (0, out, n) s ->
  0 <= n <= Z.of_nat (length out) -> 0 <= off -> 0 < count -> off + count < 2 ^ 64 ->
  hc_wlan_data_bin_read e id (ofs, len) off count s = Ret (inr (slice (take (Z.to_nat n) out) off count)) s.
Proof.
  intros Hlen Hout Hun Hn Hoff Hcount H64. unfold hc_wlan_data_bin_read. destruct (Z.eqb_spec len 0); [lia|].
  destruct (Z.ltb_spec RB_ART_SIZE len); [lia|]. rewrite Hout. unfold bind. rewrite Hun. cbn [Z.eqb negb].
  assert (slice (take (Z.to_nat n) out) off count = slice out off (Z.min count (n - off))) as ->.
  { unfold slice. rewrite skipn_firstn_comm, take_take. f_equal. lia. }
  destruct (Z.leb_spec n off).
  - unfold slice. by replace (Z.to_nat (Z.min count (n - off))) with O by lia.
  - rewrite u64_small by lia. destruct (Z.ltb_spec n (off + count)).
    + rewrite in_bounds_true by lia. by rewrite Z.min_r by lia.
    + rewrite in_bounds_true by lia. by rewrite Z.min_l by lia.
Qed.

(** A file of which every read delivers the bytes at hand, read in pieces. *)
Lemma read_file_all {S} (read : Z -> Z -> M S show_result) (data : list Z) count (s : S) :
  0 < count -> (forall off, 0 <= off <= Z.of_nat (length data) -> read off count s = Ret (inr (slice data off count)) s) ->
  forall fuel off, 0 <= off <= Z.of_nat (length data) -> (length data < fuel + Z.to_nat off)%nat ->
  read_file fuel read off count s = Ret (inr (drop (Z.to_nat off) data)) s.
Proof.
  intros Hc Hread. induction fuel as [|fuel IH]; intros off Hoff Hfuel; [lia|]. cbn [read_file]. unfold bind.
  rewrite Hread by done. destruct (slice data off count) as [|x bytes] eqn:Es.
  - unfold ret. do 2 f_equal. assert (length (slice data off count) = 0%nat) as Hl by (by rewrite Es).
    unfold slice in Hl. rewrite length_take, length_drop in Hl. rewrite drop_ge by lia. done.
  - assert (drop (Z.to_nat off) data = slice data off count ++ drop (length (slice data off count)) (drop (Z.to_nat off) data)) as E.
    { unfold slice. rewrite length_take, length_drop. rewrite <- (take_drop (Z.to_nat count) (drop (Z.to_nat off) data)) at 1. f_equal.
      destruct (decide (Z.to_nat count <= length data - Z.to_nat off)%nat); [by rewrite Nat.min_l by lia|].
      rewrite Nat.min_r by lia. rewrite !drop_ge by (rewrite length_drop; lia). done. }
    assert (Z.of_nat (length (slice data off count)) + off <= Z.of_nat (length data)) as Hle.
    { unfold slice. rewrite length_take, length_drop. lia. }
    rewrite Es in E, Hle. rewrite IH by (cbn [length] in *; lia). unfold ret. do 2 f_equal. rewrite E. f_equal. rewrite drop_drop. f_equal. lia.
Qed.

(** C11: calibration data that is a list of runs in the tag itself is shown decoded: whatever the
    size of the pieces a program reads, the file of the data holds the data of the runs, if
    they fit into the buffer of the driver. *)
Theorem wlan_data_read s mem ofs rs tail rest out0 count :
  hc_buf (rb_hc s) = Some mem -> hc_buflen (rb_hc s) = Z.of_nat (length mem) -> Z.of_nat (length mem) < 2 ^ 31 ->
  Forall is_byte mem -> 0 <= ofs -> drop (Z.to_nat ofs) mem = runs_bytes rs ++ tail ++ rest ->
  Forall run_ok rs -> (length tail < 2)%nat -> (4 <= length (runs_bytes rs ++ tail))%nat ->
  hc_wd_solo (rb_hc s) = (ofs, Z.of_nat (length (runs_bytes rs ++ tail))) ->
  cpu_field mem ofs 4 <> RB_MAGIC_LZOR -> cpu_field mem ofs 4 <> RB_MAGIC_ERD ->
  Z.of_nat (length (runs_bytes rs ++ tail)) <= RB_ART_SIZE -> Z.of_nat (length (runs_data rs)) <= RB_ART_SIZE ->
  kmalloc_outbuf e = Some out0 -> Z.of_nat (length out0) = RB_ART_SIZE -> 0 < count < 2 ^ 62 ->
  forall fuel, (length (runs_data rs) < fuel)%nat ->
  read_file fuel (hc_solo_read e) 0 count s = Ret (inr (runs_data rs)) s.
Proof using ArchLaws0.
  intros Hbuf Hbl Hsmall Hbytes Hofs Hdrop Hok Htail H4 Hsolo Hm1 Hm2 Hart Hdata Hout Hout0 Hcount fuel Hfuel.
  set (l := runs_bytes rs ++ tail) in *. rewrite app_assoc in Hdrop. fold l in Hdrop.
  assert (ofs + Z.of_nat (length l) <= Z.of_nat (length mem)) as Hin.
  { apply (f_equal length) in Hdrop. rewrite length_drop, length_app in Hdrop. lia. }
  assert (runs_of (1 + length l) l = (rs, true)) as Hruns by (apply runs_of_bytes; [done|done|unfold l; lia]).
  assert (Forall is_byte l) as Hl.
  { pose proof (Forall_drop _ (Z.to_nat ofs) _ Hbytes) as Hd. rewrite Hdrop in Hd. by apply Forall_app in Hd as [? _]. }
  destruct (rle_decode_spec l rest out0 rs true s Hl ltac:(lia) ltac:(unfold RB_ART_SIZE in *; lia) Hruns) as (code & out & n & Erle & Hcase).
  rewrite (proj2 (Nat.leb_le _ _)) in Hcase by lia. cbn [andb] in Hcase. destruct Hcase as (-> & -> & ->).
  assert (hc_wlan_data_unpack e RB_WLAN_ERD_ID_SOLO ofs (Z.of_nat (length l)) out0 RB_ART_SIZE s =
    Ret (0, runs_data rs ++ drop (length (runs_data rs)) out0, Z.of_nat (length (runs_data rs))) s) as Hun.
  { unfold hc_wlan_data_unpack. rewrite Hbl, size_t_small by lia. destruct (Z.ltb_spec (Z.of_nat (length mem)) (ofs + Z.of_nat (length l))); [lia|].
    unfold bind at 1, hc_mem. rewrite Hbuf. rewrite Hdrop. unfold bind at 1, cpu_load. rewrite in_bounds_true by (rewrite ?length_app; lia).
    cbn [ret]. assert (cpu_field (l ++ rest) 0 4 = cpu_field mem ofs 4) as ->.
    { rewrite <- Hdrop. unfold cpu_field, be_field, le_field, slice. by rewrite drop_0. }
    rewrite (proj2 (Z.eqb_neq _ _) Hm1), (proj2 (Z.eqb_neq _ _) Hm2), Z.eqb_refl, <- Hout0. exact Erle. }
  change (drop (Z.to_nat 0) (runs_data rs)) with (runs_data rs).
  rewrite (read_file_all _ (runs_data rs) count s); [done|lia| |lia|lia].
  intros off Hoff. unfold hc_solo_read. rewrite Hsolo.
  rewrite (bin_read_eq _ ofs (Z.of_nat (length l)) _ _ _ _ _ _ ltac:(lia) Hout Hun) by (rewrite ?length_app, ?length_drop; unfold RB_ART_SIZE in *; lia).
  rewrite Nat2Z.id, take_app_length. done.
Qed.
End wlan.

(** * Concrete uses *)

#[local] Existing Instance aarch64.

(** A partition of 32 bytes. *)
Definition small_content (c : list Z) : list Z := (fun b => b mod 256) <$> take 32 (c ++ replicate 32 0).
Definition small_flash (write_ok : bool) : rb_mtd (list Z) := mk_rb_mtd 32
  (fun _ _ c => ((0, small_content c), c))
  (fun _ _ _ => (0, replicate 32 255))
  (fun _ data c => if write_ok then ((0, Z.of_nat (length data)), data) else ((- EIO, 0), c)).

#[local] Instance small_flash_laws w : soft_flash (small_flash w) small_content.
Proof.
  assert (forall c, Forall is_byte (small_content c) /\ Z.of_nat (length (small_content c)) = 32) as Hc.
  { intros c. unfold small_content. split.
    - apply Forall_fmap, Forall_forall. intros b _. apply Z.mod_pos_bound. lia.
    - rewrite length_fmap, length_take, length_app, length_replicate. lia. }
  split; cbn [rm_size rm_read rm_erase rm_write small_flash].
  - split; [lia|done].
  - exact Hc.
  - intros c r bytes c' [= <- <- <-]. destruct (Hc c) as [? ->]. done.
  - intros c0 c data r n c' Hl Hb _ Hw -> ->. destruct w; [|done]. injection Hw as _ <-. unfold small_content.
    rewrite take_app_le, take_ge by lia. clear Hl. induction Hb as [|b data Hb _ IH]; [done|]. cbn. rewrite IH.
    by rewrite Z.mod_small by done.
Qed.

(** A boot delay of 5 seconds and the fastest serial line. *)
Definition small_chip : list Z :=
  [0x53; 0x6f; 0x66; 0x74; 1; 2; 3; 4; 2; 0; 4; 0; 5; 0; 0; 0; 1; 0; 4; 0; 0; 0; 0; 0].

Definition small_env (write_ok : bool) : rb_env (list Z) := mk_rb_env _ true None true (Some (small_flash write_ok)) None
  (fun buf => match buf with d :: _ => inr (d - 48) | [] => inl (- EINVAL) end)
  (fun buf => match buf with 49 :: _ => inr true | 48 :: _ => inr false | _ => inl (- EINVAL) end)
  (fun buf s => bool_decide (buf = s) || bool_decide (buf = s ++ [10]))
  (fun _ _ => (- EINVAL, [])) true (Some (replicate (Z.to_nat RB_ART_SIZE) 0)) None true true (fun _ => 0).

Definition final {S R} (o : outcome S R) (s : S) : S := match o with Ret _ s' => s' | _ => s end.

Definition state0 : rb_state (list Z) := mk_rb_state no_softconfig no_hardconfig small_chip.
Definition state1 : rb_state (list Z) := final (rb_softconfig_init (small_env true) state0) state0.

Lemma state1_init : rb_softconfig_init (small_env true) state0 = Ret 0 state1.
Proof. vm_compute. reflexivity. Qed.

Lemma state1_ok : sc_ok 32 (rb_sc state1) (small_content small_chip).
Proof.
  split; try (vm_compute; reflexivity); try (vm_compute; discriminate).
  - apply (sf_content (m := small_flash true)).
  - intros i ofs len Hi Hl. do 10 (destruct i as [|i]; [vm_compute in Hi; injection Hi as <- <-; first [done|lia]|]). done.
Qed.

Lemma store_then_show_witness :
  exists b' name, (3, name) ∈ sc_options None ScBootdelays /\ cpu_field b' 12 4 = 3 /\
    sc_attr_store (small_env true) 1 [51; 10] 2 state1 = Ret 2 (with_buf state1 b') /\
    sc_attr_show (small_env true) 1 (with_buf state1 b') = Ret (inr (ascii_bytes "1 2 [3] 4 5 6 7 8 9 " ++ [10])) (with_buf state1 b').
Proof.
  destruct (store_then_show (small_env true) 32 state1 (small_content small_chip) 1
    (mk_sc_attr 0x02 (ascii_bytes "boot_delay") ScBootdelays) 12 [51; 10] 2 state1_ok ltac:(discriminate)
    eq_refl eq_refl eq_refl eq_refl eq_refl) as (b' & name & H1 & H2 & _ & Hv & H3 & _).
  exists b', name. split; [exact H1|]. split; [exact Hv|]. split; [exact H2|]. rewrite H3. vm_compute. reflexivity.
Defined.

Definition state2 : rb_state (list Z) := final (sc_attr_store (small_env true) 1 [51; 10] 2 state1) state1.
Definition stored_buf : list Z := stored (small_content small_chip) 12 3.

Lemma state2_ok : sc_ok 32 (rb_sc state2) stored_buf.
Proof. destruct (stored_ok 32 state1 (small_content small_chip) 12 3 state1_ok) as [H _]; [lia|lia|]. exact H. Qed.

Lemma commit_seals_witness :
  small_content (rb_chip (final (sc_commit_store (small_env true) [49] 2 state2) state2)) = sealed stored_buf /\
  crc_valid (sealed stored_buf).
Proof.
  pose proof (commit_seals (small_env true) (small_flash true) small_content [49] 2 state2 stored_buf eq_refl eq_refl state2_ok) as H.
  unfold wp in H. destruct (sc_commit_store (small_env true) [49] 2 state2) as [v s'| |] eqn:E; [|destruct H|destruct H].
  change (negb (crc_word stored_buf =? 0)) with false in H. cbn [kstrtobool small_env] in H.
  destruct H as (re & c1 & He & [(Hre & _)|(_ & rw & n & c2 & Hw & H)]); cbn [rm_erase small_flash] in He.
  { injection He as <- _. destruct (Hre eq_refl). }
  cbn [rm_write small_flash] in Hw. injection Hw as <- <- <-.
  destruct H as [(Hrw & _)|[(_ & Hn & _)|(_ & _ & _ & -> & Hc & Hv)]]; [destruct (Hrw eq_refl)|destruct Hn; vm_compute; reflexivity|].
  split; [exact Hc|exact Hv].
Defined.

(** One program stores a setting and commits it, step by step. *)
Definition state3 : rb_state (list Z) := final (commit_locked true (small_flash true) state2) state2.

Lemma softconfig_in_sync_witness :
  exists b, sc_ok 32 (rb_sc state3) b /\ b = small_content (rb_chip state3).
Proof.
  destruct (softconfig_in_sync (small_env true) (small_flash true) small_content eq_refl eq_refl ltac:(discriminate)
    state0 state1 (mk_system state3 ∅) state1_init) as (b & Hok & _ & Hsync & _).
  - eapply rtc_l. { apply (step_store (small_env true) state1 ∅ 1 [51; 10] 2 2 state2). vm_compute. reflexivity. }
    eapply rtc_l. { apply (step_enter (small_env true) state2 ∅ 7 [49] 2 true (small_flash true) state2); [reflexivity|vm_compute; reflexivity]. }
    eapply rtc_l. { apply (step_locked (small_env true) state2 _ 7 2 true (small_flash true) (0, 32) state3);
      [reflexivity|vm_compute; reflexivity]. }
    eapply rtc_l. { apply (step_leave (small_env true) state3 _ 7 2 (0, 32) 2 state3); [reflexivity|vm_compute; reflexivity]. }
    exact (rtc_refl _ _).
  - exists b. split; [exact Hok|]. apply Hsync; [reflexivity|]. vm_compute. reflexivity.
Defined.

(** Two programs commit at once: both have seen a dirty buffer, and the second computes its
    checksum over a buffer that holds that of the first.  The flash ends up with a checksum
    that is not valid. *)
Definition overlapping_commits : M (rb_state (list Z)) Z :=
  let e := small_env true in
  let* r1 := commit_enter e [49] 2 in
  let* r2 := commit_enter e [49] 2 in
  let* v1 := commit_locked true (small_flash true) in
  let* _ := commit_exit 2 v1 in
  let* v2 := commit_locked true (small_flash true) in
  commit_exit 2 v2.

Example overlapping_commits_invalid :
  match overlapping_commits state2 with
  | Ret v s => v = 2 /\ crc_word (small_content (rb_chip s)) <> 0 /\ ~ crc_valid (small_content (rb_chip s))
  | _ => False
  end.
Proof. vm_compute. split; [reflexivity|]. split; intros H; discriminate H. Qed.

(** A write that fails: until the program marks the buffer dirty, outside the lock, it is called
    clean, although the flash has been erased. *)
Example failed_commit_looks_clean :
  match (let* _ := commit_locked true (small_flash false) in sc_commit_show) state2 with
  | Ret text s => text = inr (ascii_bytes "clean" ++ [10]) /\ small_content (rb_chip s) = replicate 32 255
  | _ => False
  end.
Proof. vm_compute. split; reflexivity. Qed.

(** A hardware configuration whose calibration data is three runs. *)
Definition wlan_mem : list Z := [0x48; 0x61; 0x72; 0x64; 0x16; 0; 7; 0; 3; 7; 254; 1; 2; 0; 9; 0; 0; 0; 0; 0].
Definition wlan_runs : list run := [Repeat 3 7; Copy [1; 2]; Repeat 0 9].
Definition wlan_state : rb_state (list Z) :=
  mk_rb_state no_softconfig (mk_hardconfig (Some wlan_mem) 20 [] (8, 7) [] []) [].

Lemma wlan_data_read_witness :
  read_file 100 (hc_solo_read (small_env true)) 0 2 wlan_state = Ret (inr [7; 7; 7; 1; 2]) wlan_state.
Proof.
  apply (wlan_data_read (small_env true) wlan_state wlan_mem 8 wlan_runs [] [0; 0; 0; 0; 0] (replicate (Z.to_nat RB_ART_SIZE) 0) 2);
    [reflexivity|reflexivity|reflexivity| |discriminate|reflexivity| |cbn; lia|cbn; lia|reflexivity|vm_compute; discriminate
    |vm_compute; discriminate|vm_compute; discriminate|vm_compute; discriminate|reflexivity| |lia|apply Nat.ltb_lt; reflexivity].
  - apply bytes_checked. reflexivity.
  - repeat apply Forall_cons_2; [..|by apply Forall_nil]; cbn; lia.
  - rewrite length_replicate. reflexivity.
Defined.

(** The length of an LZO payload is checked, but not its place: the data are read behind the
    buffer. *)
Example erd_overrun :
  hc_wlan_data_unpack_erd (small_env true) 1 ([1; 0; 8; 0] ++ [1; 2; 3; 4]) 8 [] 100 wlan_state = Fault.
Proof. vm_compute. reflexivity. Qed.
