(* ===== verification/NvramLib.v ===== *)
(** The NVRAM library [src/package/utils/nvram/src]: [nvram.c] without the access to
    devices, [crc.c], [nvram.h], [sdinitvals.h].  Variables live in a hash table of
    tuples, and in a memory-mapped flash partition as name=value strings behind a
    header with a CRC-8. *)

From stdpp Require Import base list numbers strings.
From Stdlib Require Import ZArith Lia.
From S2P Require Import Prelude Platform CStrings.
Local Open Scope Z_scope.
Local Open Scope cprog_scope.

(** * Constants *)

Definition NVRAM_MIN_SPACE : Z := 0x8000.
Definition NVRAM_MAGIC : Z := 0x48534C46.
Definition NVRAM_VERSION : Z := 1.
Definition NVRAM_CRC_START_POSITION : Z := 9.
Definition NVRAM_ROUNDUP (x y : Z) : Z := Z.quot (x + (y - 1)) y * y.
Definition sizeof_nvram_header : Z := 20.
Definition hash_size : Z := 257.

Definition SDRAM_REF_EN : Z := 0x8000.
Definition SDRAM_REF (p : Z) : Z := Z.lor (Z.land p 0xff) SDRAM_REF_EN.
Definition MEM4MX16X2 : Z := 0x419.
Definition SDRAM_INIT : Z := MEM4MX16X2.
Definition SDRAM_BURSTFULL : Z := 0x0000.
Definition SDRAM_CONFIG : Z := SDRAM_BURSTFULL.
Definition SDRAM_REFRESH : Z := SDRAM_REF 0x40.

(** * Strings

    A C string is the list of its bytes without the terminating zero; [char] is signed
    or not, depending on the target. *)
Class Char := char_signed : bool.
Definition char_val `{Char} (b : Z) : Z := if char_signed && (128 <=? b) then b - 256 else b.

(** * crc.c *)

Definition crc8_table : list Z := [
  0x00; 0xf7; 0xb9; 0x4e; 0x25; 0xd2; 0x9c; 0x6b; 0x4a; 0xbd; 0xf3; 0x04; 0x6f; 0x98; 0xd6; 0x21;
  0x94; 0x63; 0x2d; 0xda; 0xb1; 0x46; 0x08; 0xff; 0xde; 0x29; 0x67; 0x90; 0xfb; 0x0c; 0x42; 0xb5;
  0x7f; 0x88; 0xc6; 0x31; 0x5a; 0xad; 0xe3; 0x14; 0x35; 0xc2; 0x8c; 0x7b; 0x10; 0xe7; 0xa9; 0x5e;
  0xeb; 0x1c; 0x52; 0xa5; 0xce; 0x39; 0x77; 0x80; 0xa1; 0x56; 0x18; 0xef; 0x84; 0x73; 0x3d; 0xca;
  0xfe; 0x09; 0x47; 0xb0; 0xdb; 0x2c; 0x62; 0x95; 0xb4; 0x43; 0x0d; 0xfa; 0x91; 0x66; 0x28; 0xdf;
  0x6a; 0x9d; 0xd3; 0x24; 0x4f; 0xb8; 0xf6; 0x01; 0x20; 0xd7; 0x99; 0x6e; 0x05; 0xf2; 0xbc; 0x4b;
  0x81; 0x76; 0x38; 0xcf; 0xa4; 0x53; 0x1d; 0xea; 0xcb; 0x3c; 0x72; 0x85; 0xee; 0x19; 0x57; 0xa0;
  0x15; 0xe2; 0xac; 0x5b; 0x30; 0xc7; 0x89; 0x7e; 0x5f; 0xa8; 0xe6; 0x11; 0x7a; 0x8d; 0xc3; 0x34;
  0xab; 0x5c; 0x12; 0xe5; 0x8e; 0x79; 0x37; 0xc0; 0xe1; 0x16; 0x58; 0xaf; 0xc4; 0x33; 0x7d; 0x8a;
  0x3f; 0xc8; 0x86; 0x71; 0x1a; 0xed; 0xa3; 0x54; 0x75; 0x82; 0xcc; 0x3b; 0x50; 0xa7; 0xe9; 0x1e;
  0xd4; 0x23; 0x6d; 0x9a; 0xf1; 0x06; 0x48; 0xbf; 0x9e; 0x69; 0x27; 0xd0; 0xbb; 0x4c; 0x02; 0xf5;
  0x40; 0xb7; 0xf9; 0x0e; 0x65; 0x92; 0xdc; 0x2b; 0x0a; 0xfd; 0xb3; 0x44; 0x2f; 0xd8; 0x96; 0x61;
  0x55; 0xa2; 0xec; 0x1b; 0x70; 0x87; 0xc9; 0x3e; 0x1f; 0xe8; 0xa6; 0x51; 0x3a; 0xcd; 0x83; 0x74;
  0xc1; 0x36; 0x78; 0x8f; 0xe4; 0x13; 0x5d; 0xaa; 0x8b; 0x7c; 0x32; 0xc5; 0xae; 0x59; 0x17; 0xe0;
  0x2a; 0xdd; 0x93; 0x64; 0x0f; 0xf8; 0xb6; 0x41; 0x60; 0x97; 0xd9; 0x2e; 0x45; 0xb2; 0xfc; 0x0b;
  0xbe; 0x49; 0x07; 0xf0; 0x9b; 0x6c; 0x22; 0xd5; 0xf4; 0x03; 0x4d; 0xba; 0xd1; 0x26; 0x68; 0x9f].

(** [hndcrc8(pdata, nbytes, crc)] on the object [pdata]. *)
Fixpoint hndcrc8 {S} (pdata : list Z) (nbytes : nat) (crc : Z) : M S Z :=
  match nbytes with
  | O => ret crc
  | Datatypes.S nbytes =>
      match pdata with
      | [] => fault
      | b :: pdata =>
          let* crc := arr_get crc8_table (Z.land (Z.lxor crc b) 0xff) in
          hndcrc8 pdata nbytes crc
      end
  end.

(** * Handles *)

Record nvram_tuple := mk_nvram_tuple { t_name : list Z; t_value : option (list Z) }.

(** [nv_addr] is the address of the mapping, [nv_mmap] the bytes mapped there. *)
Record nvram_handle := mk_nvram_handle {
  nv_fd : Z;
  nv_addr : Z;
  nv_mmap : list Z;
  nv_length : Z;
  nv_offset : Z;
  nvram_hash : list (list nvram_tuple);
  nvram_dead : list nvram_tuple
}.

Definition set_mmap (b : list Z) (h : nvram_handle) : nvram_handle :=
  mk_nvram_handle (nv_fd h) (nv_addr h) b (nv_length h) (nv_offset h) (nvram_hash h) (nvram_dead h).
Definition set_hash (t : list (list nvram_tuple)) (h : nvram_handle) : nvram_handle :=
  mk_nvram_handle (nv_fd h) (nv_addr h) (nv_mmap h) (nv_length h) (nv_offset h) t (nvram_dead h).
Definition set_dead (d : list nvram_tuple) (h : nvram_handle) : nvram_handle :=
  mk_nvram_handle (nv_fd h) (nv_addr h) (nv_mmap h) (nv_length h) (nv_offset h) (nvram_hash h) d.

(** What the library needs of the machine [K]: memory from [malloc] and [realloc], and
    writing a mapping back ([msync] and [fsync]). *)
Class NvMem (K : Type) := {
  nv_malloc : Z -> K -> bool * K;
  nv_sync : nvram_handle -> K -> K
}.

(** The state of a library call: the global [nvram_part_size], the handle, the machine. *)
Record lib (K : Type) := mk_lib { l_part_size : Z; l_h : nvram_handle; l_k : K }.
Arguments mk_lib {K} _ _ _.
Arguments l_part_size {K} _.
Arguments l_h {K} _.
Arguments l_k {K} _.

Section nvram.
Context `{Arch} `{Char} {K : Type} `{NvMem K}.

Abbreviation prog := (M (lib K)).

Definition handle {A} (f : nvram_handle -> A) : prog A := gets (fun s => f (l_h s)).
Definition upd (f : nvram_handle -> nvram_handle) : prog unit :=
  modify (fun s => mk_lib (l_part_size s) (f (l_h s)) (l_k s)).
Definition malloc (n : Z) : prog bool := fun s =>
  let '(ok, k) := nv_malloc n (l_k s) in Ret ok (mk_lib (l_part_size s) (l_h s) k).

(** * Helper functions *)

Fixpoint hash_from (h : Z) (s : list Z) : Z :=
  match s with
  | [] => h
  | c :: s => hash_from (u32 (31 * h + char_val c)) s
  end.
Definition hash (s : list Z) : Z := hash_from 0 s.

Definition bucket_of (name : list Z) : nat := Z.to_nat (hash name mod hash_size).

Definition get_bucket (i : nat) : prog (list nvram_tuple) :=
  let* t := handle nvram_hash in
  match t !! i with Some b => ret b | None => fault end.
Definition put_bucket (i : nat) (b : list nvram_tuple) : prog unit :=
  upd (fun h => set_hash (<[i := b]> (nvram_hash h)) h).

(** The walk along a chain: the tuples in front of the first one with the name, that
    tuple, and the rest. *)
Fixpoint find_tuple (name : list Z) (b : list nvram_tuple) :
    option (list nvram_tuple * nvram_tuple * list nvram_tuple) :=
  match b with
  | [] => None
  | t :: b =>
      if bool_decide (t_name t = name) then Some ([], t, b)
      else '(pre, u, post) ← find_tuple name b; Some (t :: pre, u, post)
  end.

Definition _nvram_free : prog unit :=
  do* upd (set_hash (replicate (Z.to_nat hash_size) [])) in
  upd (set_dead []).

(** [_nvram_realloc(h, t, name, value)]: whether it returns a tuple, and the tuple
    afterwards, if there is one.  A tuple that exists is changed in place, also by a
    [realloc] that fails. *)
Definition _nvram_realloc (t : option nvram_tuple) (name value : list Z) :
    prog (bool * option nvram_tuple) :=
  let* len := handle nv_length in
  let* off := handle nv_offset in
  if u32 (len - off) <? size_t (strlen value + 1) then ret (false, t)
  else
    let* t' :=
      match t with
      | Some _ => ret t
      | None =>
          let* ok := malloc (size_t (3 * (long_bits / 8) + strlen name + 1)) in
          ret (if ok then Some (mk_nvram_tuple name None) else None)
      end in
    match t' with
    | None => ret (false, None)
    | Some u =>
        if bool_decide (t_value u = Some value) then ret (true, Some u)
        else
          let* ok := malloc (size_t (strlen value + 1)) in
          if ok then ret (true, Some (mk_nvram_tuple (t_name u) (Some value)))
          else ret (false, Some (mk_nvram_tuple (t_name u) None))
    end.

(** * Public functions *)

(** [nvram_get(h, name)] with a name: the value the pointer refers to. *)
Definition nvram_get (name : list Z) : prog (option (list Z)) :=
  let* b := get_bucket (bucket_of name) in
  ret (match find_tuple name b with
       | Some (_, t, _) => t_value t
       | None => None
       end).

(** [_nvram_realloc] returns the tuple it was given, so the move to the dead table never
    happens; a tuple that could not be completed is lost. *)
Definition nvram_set (name value : list Z) : prog Z :=
  let i := bucket_of name in
  let* b := get_bucket i in
  match find_tuple name b with
  | Some (pre, t, post) =>
      let* (ok, t') := _nvram_realloc (Some t) name value in
      do* put_bucket i (pre ++ default t t' :: post) in
      ret (if ok then 0 else - ENOMEM)
  | None =>
      let* (ok, u) := _nvram_realloc None name value in
      match ok, u with
      | true, Some u => do* put_bucket i (u :: b) in ret 0
      | _, _ => ret (- ENOMEM)
      end
  end.

Definition nvram_unset (name : list Z) : prog Z :=
  let i := bucket_of name in
  let* b := get_bucket i in
  match find_tuple name b with
  | Some (pre, t, post) =>
      do* put_bucket i (pre ++ post) in
      do* upd (fun h => set_dead (t :: nvram_dead h) h) in
      ret 0
  | None => ret 0
  end.

(** [nvram_getall(h)]: a list of copies; memory that runs out ends the walk of one chain
    only. *)
Fixpoint getall_chain (b : list nvram_tuple) (l : list nvram_tuple) : prog (list nvram_tuple) :=
  match b with
  | [] => ret l
  | t :: b =>
      let* ok := malloc (3 * (long_bits / 8)) in
      if ok then getall_chain b (t :: l) else ret l
  end.
Fixpoint getall_chains (t : list (list nvram_tuple)) (l : list nvram_tuple) : prog (list nvram_tuple) :=
  match t with
  | [] => ret l
  | b :: t => let* l := getall_chain b l in getall_chains t l
  end.
Definition nvram_getall : prog (list nvram_tuple) :=
  let* t := handle nvram_hash in getall_chains t [].

(** * The mapping *)

(** Fields of the header at [nv_offset]. *)
Definition mem_get (off len : Z) : prog Z :=
  let* b := handle nv_mmap in
  if in_bounds b off len then ret (cpu_field b off len) else fault.
Definition mem_put (off : Z) (bytes : list Z) : prog unit :=
  let* b := handle nv_mmap in
  if in_bounds b off (Z.of_nat (length bytes)) then upd (set_mmap (blit b off bytes)) else fault.

(** The loop over the strings "name=value"; the separator is overwritten during
    [nvram_set] and put back. *)
Definition parse_step (p : Z) : prog (Z + unit) :=
  let* b := handle nv_mmap in
  let mem := drop (Z.to_nat p) b in
  match mem with
  | [] => fault
  | c :: _ =>
      if c =? 0 then ret (inr tt)
      else
        match strchr 61 mem with
        | None => fault
        | Some (_, false) => ret (inr tt)
        | Some (name, true) =>
            match c_str (drop (Z.to_nat (p + strlen name + 1)) b) with
            | None => fault
            | Some value =>
                do* nvram_set name value in
                ret (inl (p + strlen name + 1 + strlen value + 1))
            end
        end
  end.

Definition str_sdram_init : list Z := ascii_bytes "sdram_init".
Definition str_sdram_config : list Z := ascii_bytes "sdram_config".
Definition str_sdram_refresh : list Z := ascii_bytes "sdram_refresh".
Definition str_sdram_ncdl : list Z := ascii_bytes "sdram_ncdl".

Definition set_missing (name value : list Z) : prog unit :=
  let* v := nvram_get name in
  match v with
  | Some _ => ret tt
  | None => do* nvram_set name value in ret tt
  end.

Definition _nvram_rehash : prog Z :=
  do* _nvram_free in
  let* off := handle nv_offset in
  let* b := handle nv_mmap in
  do* loop (S (length b)) parse_step (off + sizeof_nvram_header) in
  let* crc_ver_init := mem_get (off + 8) 4 in
  let* config_refresh := mem_get (off + 12) 4 in
  let* config_ncdl := mem_get (off + 16) 4 in
  do* set_missing str_sdram_init (print_hex 4 (u16 (Z.shiftr crc_ver_init 16))) in
  do* set_missing str_sdram_config (print_hex 4 (u16 (Z.land config_refresh 0xffff))) in
  do* set_missing str_sdram_refresh (print_hex 4 (u16 (Z.land (Z.shiftr config_refresh 16) 0xffff))) in
  do* set_missing str_sdram_ncdl (print_hex 8 config_ncdl) in
  ret 0.

(** * Regenerating *)

(** One tuple: [inr] when there is no room, which ends the chain. *)
Definition put_tuple (end_ : Z) (t : nvram_tuple) (ptr : Z) : prog (Z + Z) :=
  match t_value t with
  | None => fault
  | Some value =>
      if end_ <? ptr + strlen (t_name t) + 1 + strlen value + 1 then ret (inr ptr)
      else
        do* mem_put ptr (t_name t ++ 61 :: value ++ [0]) in
        ret (inl (ptr + strlen (t_name t) + 1 + strlen value + 1))
  end.
Fixpoint put_chain (end_ : Z) (b : list nvram_tuple) (ptr : Z) : prog Z :=
  match b with
  | [] => ret ptr
  | t :: b =>
      let* r := put_tuple end_ t ptr in
      match r with
      | inl ptr => put_chain end_ b ptr
      | inr ptr => ret ptr
      end
  end.
Fixpoint put_chains (end_ : Z) (t : list (list nvram_tuple)) (ptr : Z) : prog Z :=
  match t with
  | [] => ret ptr
  | b :: t => let* ptr := put_chain end_ b ptr in put_chains end_ t ptr
  end.

(** The values of the header words. *)
Definition header_words : prog (Z * Z * Z) :=
  let* init := nvram_get str_sdram_init in
  let* config := nvram_get str_sdram_config in
  let* refresh := nvram_get str_sdram_refresh in
  let* ncdl := nvram_get str_sdram_ncdl in
  let ver := Z.shiftl NVRAM_VERSION 8 in
  match init, config, refresh, ncdl with
  | Some init, Some config, Some refresh, Some ncdl =>
      ret (u32 (Z.lor ver (Z.shiftl (Z.land (strtoul0 init) 0xffff) 16)),
           u32 (Z.lor (Z.land (strtoul0 config) 0xffff) (Z.shiftl (Z.land (strtoul0 refresh) 0xffff) 16)),
           u32 (strtoul0 ncdl))
  | _, _, _, _ =>
      ret (u32 (Z.lor ver (Z.shiftl SDRAM_INIT 16)),
           u32 (Z.lor SDRAM_CONFIG (Z.shiftl SDRAM_REFRESH 16)), 0)
  end.

(** The terminating zero, the padding (computed from the address as an [int]) and the
    length. *)
Definition finish_data (off ptr : Z) : prog Z :=
  do* mem_put ptr [0] in
  let ptr := ptr + 1 in
  let* addr := handle nv_addr in
  let rem := Z.rem (i32 (addr + ptr)) 4 in
  do* (if rem =? 0 then ret tt else mem_put ptr (replicate (Z.to_nat (4 - rem)) 0)) in
  let ptr := ptr + 1 in
  ret (u32 (NVRAM_ROUNDUP (ptr - off) 4)).

(** The cleared data area with the tuples in it. *)
Definition write_tuples (off size : Z) : prog Z :=
  let ptr := off + sizeof_nvram_header in
  do* mem_put ptr (replicate (Z.to_nat (size_t (size - off - sizeof_nvram_header))) 0xff) in
  let end_ := off + (size - off) - 2 in
  let* t := handle nvram_hash in
  put_chains end_ t ptr.

(** The length, and the checksum over the last 11 bytes of the header and the data. *)
Definition seal (off len crc_ver_init config_refresh config_ncdl : Z) : prog unit :=
  do* mem_put (off + 4) (cpu_bytes 4 len) in
  let tmp := replicate 8 0 ++ cpu_bytes 4 crc_ver_init ++ cpu_bytes 4 config_refresh ++
             cpu_bytes 4 config_ncdl in
  let* crc := hndcrc8 (drop (Z.to_nat NVRAM_CRC_START_POSITION) tmp)
                (Z.to_nat (sizeof_nvram_header - NVRAM_CRC_START_POSITION)) 0xff in
  let* b := handle nv_mmap in
  let* crc := hndcrc8 (drop (Z.to_nat (off + sizeof_nvram_header)) b)
                (Z.to_nat (u32 (len - sizeof_nvram_header))) crc in
  mem_put (off + 8) (cpu_bytes 4 (Z.lor crc_ver_init crc)).

Definition sync : prog unit := modify (fun s => mk_lib (l_part_size s) (l_h s) (nv_sync (l_h s) (l_k s))).

Definition nvram_commit : prog Z :=
  let* off := handle nv_offset in
  let* size := gets l_part_size in
  do* mem_put off (cpu_bytes 4 NVRAM_MAGIC) in
  let* (crc_ver_init, config_refresh, config_ncdl) := header_words in
  do* mem_put (off + 8) (cpu_bytes 4 crc_ver_init) in
  do* mem_put (off + 12) (cpu_bytes 4 config_refresh) in
  do* mem_put (off + 16) (cpu_bytes 4 config_ncdl) in
  let* ptr := write_tuples off size in
  let* len := finish_data off ptr in
  do* seal off len crc_ver_init config_refresh config_ncdl in
  do* sync in
  _nvram_rehash.
End nvram.
