(* ===== verification/NvramCli.v ===== *)
(** The NVRAM tool [src/package/utils/nvram/src]: finding and opening the partition or
    its staging file ([nvram.c]), and the commands ([cli.c]). *)

From stdpp Require Import base list numbers strings pretty.
From Stdlib Require Import ZArith Lia Ascii.
From S2P Require Import Prelude Platform CStrings NvramLib.
Local Open Scope Z_scope.
Local Open Scope cprog_scope.

Definition NVRAM_STAGING : string := "/tmp/.nvram".
Definition S_IFBLK : Z := 0x6000.
Definition S_IFREG : Z := 0x8000.

(** [nvram_open]'s second argument, and the ways files are opened. *)
Inductive nvram_mode := NVRAM_RW | NVRAM_RO.
Inductive open_mode := O_RDONLY | O_WRONLY_CREAT | O_WRONLY_SYNC | O_RDWR.

#[export] Instance nvram_mode_eq_dec : EqDecision nvram_mode.
Proof. solve_decision. Defined.

(** The system calls, on a machine [K].  [nv_mmap_fd] maps a file privately or shared
    and gives the address and the bytes; [nv_munmap] takes the handle with the bytes at
    the end; a read gives its return value and the bytes. *)
Class NvOs (K : Type) := {
  nv_mem :: NvMem K;
  nv_proc_mtd : K -> option (list string);
  nv_stat : string -> K -> option Z * K;            (* [st_mode] *)
  nv_open : string -> open_mode -> K -> Z * K;
  nv_mmap_fd : Z -> Z -> nvram_mode -> K -> option (Z * list Z) * K;
  nv_munmap : nvram_handle -> K -> K;
  nv_close : Z -> K -> K;
  nv_read : Z -> Z -> K -> (Z * list Z) * K;
  nv_write : Z -> list Z -> K -> Z * K;
  nv_fsync : Z -> K -> K;
  nv_unlink : string -> K -> Z * K
}.

(** What the tool prints on its standard output. *)
Inductive output :=
| Line (s : list Z)
| Info (magic len offset crc calculated version init config refresh ncdl used available : Z).

Record cli (K : Type) := mk_cli { c_part_size : Z; c_out : list output; c_k : K }.
Arguments mk_cli {K} _ _ _.
Arguments c_part_size {K} _.
Arguments c_out {K} _.
Arguments c_k {K} _.

(** [sscanf(dev, "mtd%d: %08x", &i, &part_size)]: the numbers it converts.  A sign and the
    prefix [0x] are part of the eight columns, and a digit has to follow them. *)
Definition hex_val (c : Ascii.ascii) : option Z :=
  let d := digit_val (Z.of_nat (Ascii.nat_of_ascii c)) in if d <? 16 then Some d else None.
Fixpoint scan_hex (n : nat) (s : string) (acc : Z) : Z :=
  match n, s with
  | S n, String c s => match hex_val c with Some d => scan_hex n s (acc * 16 + d) | None => acc end
  | _, _ => acc
  end.
Definition hex_digits (n : nat) (s : string) : option Z :=
  match n, s with
  | S _, String c _ => match hex_val c with Some _ => Some (scan_hex n s 0) | None => None end
  | _, _ => None
  end.
Definition scan_hex_prefix (n : nat) (s : string) : option Z :=
  match s with
  | String "0" (String "x" s) | String "0" (String "X" s) => hex_digits (n - 2) s
  | _ => hex_digits n s
  end.
Definition scan_hex8 (s : string) : option Z :=
  match s with
  | String "-" s => Z.opp <$> scan_hex_prefix 7 s
  | String "+" s => scan_hex_prefix 7 s
  | _ => scan_hex_prefix 8 s
  end.
Fixpoint drop_digits (s : string) : string :=
  match s with
  | String c s' => match digit c with Some _ => drop_digits s' | None => s end
  | EmptyString => s
  end.
Definition scan_mtd_size (dev : string) : option (Z * option Z) :=
  match dev with
  | String "m" (String "t" (String "d" s)) =>
      let s := skip_spaces s in
      match scan_int s with
      | None => None
      | Some i =>
          let rest := match s with String "-" s | String "+" s => drop_digits s | s => drop_digits s end in
          match rest with
          | String ":" rest => Some (i, scan_hex8 (skip_spaces rest))
          | _ => Some (i, None)
          end
      end
  | _ => None
  end.

Section cli.
Context `{Arch} `{Char} {K : Type} `{NvOs K}.

Abbreviation prog := (M (cli K)).

Definition os {A} (f : K -> A * K) : prog A := fun s =>
  let '(a, k) := f (c_k s) in Ret a (mk_cli (c_part_size s) (c_out s) k).
Definition os_ (f : K -> K) : prog unit := os (fun k => (tt, f k)).
Definition print (o : output) : prog unit :=
  modify (fun s => mk_cli (c_part_size s) (c_out s ++ [o]) (c_k s)).
Definition set_part_size (n : Z) : prog unit :=
  modify (fun s => mk_cli n (c_out s) (c_k s)).

(** A library call on a handle: its result and the handle afterwards. *)
Definition on {A} (h : nvram_handle) (m : M (lib K) A) : prog (A * nvram_handle) := fun s =>
  match m (mk_lib (c_part_size s) h (c_k s)) with
  | Ret a l => Ret (a, l_h l) (mk_cli (c_part_size s) (c_out s) (l_k l))
  | Fault => Fault
  | Diverge => Diverge
  end.

(** * Devices *)

Definition block_dev (i : Z) : string := ("/dev/mtdblock" ++ pretty i)%string.

(** [part_size] is the local variable: uninitialised at first, and what an earlier line
    set it to when a line has a number only. *)
Fixpoint find_nvram (lines : list string) (part_size : option Z) : prog (option string) :=
  match lines with
  | [] => ret None
  | dev :: lines =>
      if strstr dev "nvram" then
        match scan_mtd_size dev with
        | None => find_nvram lines part_size
        | Some (i, size) =>
            let part_size := match size with Some n => Some (i32 n) | None => part_size end in
            match part_size with
            | None => fault
            | Some n =>
                do* set_part_size (size_t n) in
                let* st := os (nv_stat (block_dev i)) in
                match st with
                | Some mode =>
                    if Z.land mode S_IFBLK =? 0 then find_nvram lines part_size
                    else
                      let* ok := os (nv_malloc (Z.of_nat (String.length (block_dev i)) + 1)) in
                      if ok then ret (Some (block_dev i)) else find_nvram lines part_size
                | None => find_nvram lines part_size
                end
            end
        end
      else find_nvram lines part_size
  end.

Definition nvram_find_mtd : prog (option string) :=
  let* lines := gets (fun s => nv_proc_mtd (c_k s)) in
  match lines with
  | Some lines => find_nvram lines None
  | None => ret None
  end.

Definition nvram_find_staging : prog (option string) :=
  let* st := os (nv_stat NVRAM_STAGING) in
  ret (match st with
       | Some mode => if Z.land mode S_IFREG =? 0 then None else Some NVRAM_STAGING
       | None => None
       end).

(** The search for the magic number, a word at a time. *)
Definition find_magic (size : Z) (mem : list Z) : prog (option Z) :=
  loop (S (length mem)) (fun i =>
    if i <=? size_t (size - NVRAM_MIN_SPACE) / 4 then
      if in_bounds mem (i * 4) 4 then
        if cpu_field mem (i * 4) 4 =? NVRAM_MAGIC then ret (inr (Some (i * 4))) else ret (inl (i + 1))
      else fault
    else ret (inr None)) 0.

(** What [nvram_open] does with a mapping: the handle, or nothing after it has been
    unmapped (the mapping stays when there is no memory for the handle). *)
Definition open_mapping (fd size : Z) (rdonly : nvram_mode) (addr : Z) (mem : list Z) :
    prog (option nvram_handle) :=
  let* offset := find_magic size mem in
  let h0 := mk_nvram_handle fd addr mem (u32 size) (u32 (default 0 offset))
              (replicate (Z.to_nat hash_size) []) [] in
  match offset with
  | None => do* os_ (nv_munmap h0) in ret None
  | Some offset =>
      let* ok := os (nv_malloc (8 * 257 + 32)) in
      if negb ok then ret None
      else if negb (in_bounds mem offset sizeof_nvram_header) then fault
      else if (cpu_field mem offset 4 =? NVRAM_MAGIC) &&
              (bool_decide (rdonly = NVRAM_RO) ||
               (cpu_field mem (offset + 4) 4 <? u32 (nv_length h0 - nv_offset h0)))
      then
        let* (_, h) := on h0 _nvram_rehash in ret (Some h)
      else do* os_ (nv_munmap h0) in ret None
  end.

(** [nvram_open(file, rdonly)]; [None] for a null [file]. *)
Definition nvram_open (file : option string) (rdonly : nvram_mode) : prog (option nvram_handle) :=
  let* size := gets c_part_size in
  let* mtd := if (size =? 0) || bool_decide (file = None) then nvram_find_mtd else ret None in
  let* size' := gets c_part_size in
  if ((size =? 0) || bool_decide (file = None)) && (bool_decide (mtd = None) || (size' =? 0)) then ret None
  else
    match file, mtd with
    | None, None => fault
    | Some path, _ | None, Some path =>
        let* fd := os (nv_open path O_RDWR) in
        if fd <=? -1 then do* os_ (nv_close fd) in ret None
        else
          let* area := os (nv_mmap_fd fd size' rdonly) in
          let* h :=
            match area with
            | Some (addr, mem) => open_mapping fd size' rdonly addr mem
            | None => ret None
            end in
          match h with
          | Some h => ret (Some h)
          | None => do* os_ (nv_close fd) in ret None
          end
    end.

Definition nvram_close (h : nvram_handle) : prog Z :=
  let* (_, h) := on h _nvram_free in
  do* os_ (nv_munmap h) in
  do* os_ (nv_close (nv_fd h)) in
  ret 0.

(** Copying all of one file to another one, as far as it is opened and read in full. *)
Definition copy_file (from to : string) (mode : open_mode) (size : Z) : prog Z :=
  let* fd_from := os (nv_open from O_RDONLY) in
  if fd_from <=? -1 then ret (-1)
  else
    let* (n, bytes) := os (nv_read fd_from size) in
    let* stat :=
      (if size_t n =? size then
         let* fd_to := os (nv_open to mode) in
         if fd_to <=? -1 then ret (-1)
         else
           let* _ := os (nv_write fd_to bytes) in
           do* os_ (nv_fsync fd_to) in
           do* os_ (nv_close fd_to) in
           ret 0
       else ret (-1)) in
    do* os_ (nv_close fd_from) in
    ret stat.

Definition nvram_to_staging : prog Z :=
  let* mtd := nvram_find_mtd in
  let* size := gets c_part_size in
  match mtd with
  | Some mtd => if 0 <? size then copy_file mtd NVRAM_STAGING O_WRONLY_CREAT size else ret (-1)
  | None => ret (-1)
  end.

(** The staging file is removed after it has been opened and copied. *)
Definition staging_to_nvram : prog Z :=
  let* mtd := nvram_find_mtd in
  let* size := gets c_part_size in
  match mtd with
  | Some mtd =>
      if 0 <? size then
        let* stat := copy_file NVRAM_STAGING mtd O_WRONLY_SYNC size in
        if stat =? 0 then
          let* r := os (nv_unlink NVRAM_STAGING) in
          ret (if r =? 0 then 0 else 1)
        else ret stat
      else ret (-1)
  | None => ret (-1)
  end.

(** * cli.c *)

Definition nvram_open_rdonly : prog (option nvram_handle) :=
  let* staging := nvram_find_staging in
  let* file := match staging with Some f => ret (Some f) | None => nvram_find_mtd end in
  match file with
  | Some _ => nvram_open file NVRAM_RO
  | None => ret None
  end.

Definition nvram_open_staging : prog (option nvram_handle) :=
  let* staging := nvram_find_staging in
  let* ok := match staging with
             | Some _ => ret true
             | None => let* r := nvram_to_staging in ret (r =? 0)
             end in
  if ok then nvram_open (Some NVRAM_STAGING) NVRAM_RW else ret None.

Fixpoint show_tuples (l : list nvram_tuple) : prog unit :=
  match l with
  | [] => ret tt
  | t :: l =>
      match t_value t with
      | Some v => do* print (Line (t_name t ++ 61 :: v)) in show_tuples l
      | None => fault
      end
  end.

Definition do_show (h : nvram_handle) : prog (Z * nvram_handle) :=
  let* (l, h) := on h nvram_getall in
  do* show_tuples l in
  ret (if bool_decide (l = []) then 1 else 0, h).

Definition do_get (h : nvram_handle) (var : list Z) : prog (Z * nvram_handle) :=
  let* (val, h) := on h (nvram_get var) in
  match val with
  | Some v => do* print (Line v) in ret (0, h)
  | None => ret (1, h)
  end.

Definition do_unset (h : nvram_handle) (var : list Z) : prog (Z * nvram_handle) := on h (nvram_unset var).

Definition do_set (h : nvram_handle) (pair : list Z) : prog (Z * nvram_handle) :=
  match strchr 61 (pair ++ [0]) with
  | Some (var, true) => on h (nvram_set var (drop (S (length var)) pair))
  | _ => ret (1, h)
  end.

Definition info : M (lib K) output :=
  let* off := handle nv_offset in
  let* length := handle nv_length in
  let* magic := mem_get off 4 in
  let* len := mem_get (off + 4) 4 in
  let* crc_ver_init := mem_get (off + 8) 4 in
  let* config_refresh := mem_get (off + 12) 4 in
  let* config_ncdl := mem_get (off + 16) 4 in
  let* b := handle nv_mmap in
  let* crc := hndcrc8 (drop (Z.to_nat (off + NVRAM_CRC_START_POSITION)) b)
                (Z.to_nat (u32 (len - NVRAM_CRC_START_POSITION))) 0xff in
  ret (Info magic len off (Z.land crc_ver_init 0xff) crc
         (Z.land (Z.shiftr crc_ver_init 8) 0xff) (Z.land (Z.shiftr crc_ver_init 16) 0xffff)
         (Z.land config_refresh 0xffff) (Z.land (Z.shiftr config_refresh 16) 0xffff) config_ncdl
         (i32 len) (i32 (length - off - len))).

Definition do_info (h : nvram_handle) : prog (Z * nvram_handle) :=
  let* (o, h) := on h info in
  do* print o in
  ret (0, h).

(** The state of the loop over the arguments: [stat], [done], [commit] and the handle. *)
Record args_state := mk_args_state { a_stat : Z; a_done : Z; a_commit : bool; a_h : nvram_handle }.

Definition is_arg (arg : list Z) (s : string) : bool := bool_decide (arg = ascii_bytes s).

Fixpoint do_args (argv : list (list Z)) (a : args_state) : prog args_state :=
  match argv with
  | [] => ret a
  | arg :: argv =>
      let next r := mk_args_state r.1 (a_done a + 1) (a_commit a) r.2 in
      if is_arg arg "show" then let* r := do_show (a_h a) in do_args argv (next r)
      else if is_arg arg "info" then let* r := do_info (a_h a) in do_args argv (next r)
      else if is_arg arg "get" || is_arg arg "unset" || is_arg arg "set" then
        match argv with
        | [] => ret (mk_args_state (a_stat a) 0 (a_commit a) (a_h a))
        | var :: argv =>
            let* r :=
              if is_arg arg "get" then do_get (a_h a) var
              else if is_arg arg "unset" then do_unset (a_h a) var
              else do_set (a_h a) var in
            do_args argv (next r)
        end
      else if is_arg arg "commit" then
        do_args argv (mk_args_state (a_stat a) (a_done a + 1) true (a_h a))
      else ret (mk_args_state (a_stat a) 0 (a_commit a) (a_h a))
  end.

(** [argv] without the name of the program. *)
Definition writes (argv : list (list Z)) : bool :=
  match argv with
  | [] => false
  | arg :: rest =>
      (is_arg arg "set" && negb (bool_decide (rest = []))) ||
      (is_arg arg "unset" && negb (bool_decide (rest = []))) || is_arg arg "commit"
  end.

Definition main (argv : list (list Z)) : prog Z :=
  if bool_decide (argv = []) then ret 1
  else
    let write := writes argv in
    let* nvram := if write then nvram_open_staging else nvram_open_rdonly in
    match nvram with
    | None => ret 1
    | Some h =>
        let* a := do_args argv (mk_args_state 1 0 false h) in
        let* (stat, h) := if write then on (a_h a) nvram_commit else ret (a_stat a, a_h a) in
        let* _ := nvram_close h in
        let* stat := if a_commit a then staging_to_nvram else ret stat in
        ret (if a_done a =? 0 then 1 else stat)
    end.
End cli.
