(* ===== verification/NvramSpec.v ===== *)
(** The hash table of the NVRAM library as a finite map from names to values. *)

From stdpp Require Import base list gmap numbers strings.
From Stdlib Require Import ZArith Lia.
From S2P Require Import Prelude Platform CStrings NvramLib.
Local Open Scope Z_scope.
Local Open Scope cprog_scope.

Lemma list_elem_of_concat {A} (x : A) ls : x ∈ concat ls <-> exists l, x ∈ l /\ l ∈ ls.
Proof.
  rewrite list_elem_of_In, in_concat. split; intros (l & H1 & H2); exists l;
    rewrite !list_elem_of_In in *; auto.
Qed.

Section table.
Context `{A : Arch} `{!ArchLaws A} `{Ch : Char} {K : Type} `{Mem : NvMem K}.
Implicit Types (name value : list Z) (b : list nvram_tuple) (s : lib K).

(** * Chains *)

Definition chain_get name b : option (list Z) := '(_, t, _) ← find_tuple name b; t_value t.

Lemma find_tuple_spec name b :
  match find_tuple name b with
  | Some (pre, t, post) => b = pre ++ t :: post /\ t_name t = name /\ name ∉ t_name <$> pre
  | None => name ∉ t_name <$> b
  end.
Proof.
  induction b as [|t b IH]; [apply not_elem_of_nil|]. cbn [find_tuple].
  destruct (bool_decide_reflect (t_name t = name)) as [E|Hne].
  { split_and!; [done|done|apply not_elem_of_nil]. }
  destruct (find_tuple name b) as [[[pre u] post]|]; cbn.
  - destruct IH as (-> & Hu & Hpre). split_and!; [done|done|].
    rewrite not_elem_of_cons. split; [congruence|done].
  - rewrite not_elem_of_cons. split; [congruence|done].
Qed.

(** The value of a name decides the lookup. *)
Lemma chain_get_app name b1 b2 :
  chain_get name (b1 ++ b2) = if decide (name ∈ t_name <$> b1) then chain_get name b1 else chain_get name b2.
Proof.
  induction b1 as [|t b1 IH].
  { rewrite decide_False by apply not_elem_of_nil. done. }
  unfold chain_get in *. cbn [app find_tuple fmap list_fmap].
  destruct (bool_decide_reflect (t_name t = name)) as [E|Hne]; cbn [mbind option_bind].
  { rewrite decide_True by (rewrite E; by left). done. }
  assert (forall o : option (list nvram_tuple * nvram_tuple * list nvram_tuple),
    ('(_, t0, _) ← ('(pre, u, post) ← o; Some (t :: pre, u, post)); t_value t0)
    = '(_, t0, _) ← o; t_value t0) as Ho by (by intros [[[? ?] ?]|]).
  rewrite !Ho, IH. destruct (decide (name ∈ t_name <$> b1)) as [Hin|Hin].
  - rewrite decide_True by (by right). done.
  - rewrite decide_False; [done|]. rewrite not_elem_of_cons. split; [congruence|done].
Qed.

Lemma chain_get_cons name t b :
  chain_get name (t :: b) = if decide (t_name t = name) then t_value t else chain_get name b.
Proof.
  unfold chain_get. cbn [find_tuple]. destruct (bool_decide_reflect (t_name t = name)) as [E|Hne].
  - by rewrite decide_True by done.
  - rewrite decide_False by done. by destruct (find_tuple name b) as [[[? ?] ?]|].
Qed.

Lemma chain_get_not_in name b : name ∉ t_name <$> b -> chain_get name b = None.
Proof.
  intros Hn. unfold chain_get. pose proof (find_tuple_spec name b) as Hf.
  destruct (find_tuple name b) as [[[pre t] post]|]; [|done].
  destruct Hf as (-> & <- & _). exfalso. apply Hn. rewrite fmap_app, elem_of_app. right. by left.
Qed.

(** * The table *)

Definition vars_at (h : nvram_handle) name : option (list Z) :=
  b ← nvram_hash h !! bucket_of name; chain_get name b.

(** The names of a chain belong there, each occurs once, and all have values. *)
Definition chain_ok (i : nat) b : Prop :=
  NoDup (t_name <$> b) /\ forall t, t ∈ b -> bucket_of (t_name t) = i /\ is_Some (t_value t).

Definition table_ok (h : nvram_handle) : Prop :=
  length (nvram_hash h) = Z.to_nat hash_size /\
  forall i b, nvram_hash h !! i = Some b -> chain_ok i b.

(** The handle [h] holds the variables [vs]. *)
Definition holds (h : nvram_handle) (vs : gmap (list Z) (list Z)) : Prop :=
  table_ok h /\ forall name, vs !! name = vars_at h name.

Lemma bucket_of_lt name : (bucket_of name < Z.to_nat hash_size)%nat.
Proof. unfold bucket_of, hash_size. pose proof (Z.mod_pos_bound (hash name) 257 ltac:(lia)). lia. Qed.

Lemma table_bucket h name : table_ok h -> exists b, nvram_hash h !! bucket_of name = Some b.
Proof. intros [Hl _]. apply lookup_lt_is_Some_2. rewrite Hl. apply bucket_of_lt. Qed.

(** Changing one chain. *)
Lemma table_ok_put h i b :
  table_ok h -> chain_ok i b -> table_ok (set_hash (<[i := b]> (nvram_hash h)) h).
Proof.
  intros [Hl Hc] Hb. split; [cbn; by rewrite length_insert|]. cbn. intros j c.
  rewrite list_lookup_insert_Some. intros [(-> & -> & _)|(_ & Hj)]; [done|by apply Hc].
Qed.

Lemma vars_at_put h i b name :
  table_ok h -> (i < Z.to_nat hash_size)%nat ->
  vars_at (set_hash (<[i := b]> (nvram_hash h)) h) name =
    if decide (bucket_of name = i) then chain_get name b else vars_at h name.
Proof.
  intros [Hl _] Hi. unfold vars_at. cbn [nvram_hash set_hash]. case_decide as E.
  - rewrite E, list_lookup_insert_eq by lia. done.
  - by rewrite list_lookup_insert_ne by congruence.
Qed.

(** Changing the tuple of one name changes its value only. *)
Lemma holds_put h vs name b b' v :
  holds h vs -> nvram_hash h !! bucket_of name = Some b -> chain_ok (bucket_of name) b' ->
  chain_get name b' = v -> (forall n, n <> name -> chain_get n b' = chain_get n b) ->
  holds (set_hash (<[bucket_of name := b']> (nvram_hash h)) h) (partial_alter (fun _ => v) name vs).
Proof.
  intros [Ht Hv] Hb Hb' Hname Hother. split; [by apply table_ok_put|]. intros n.
  rewrite vars_at_put by (done || apply bucket_of_lt).
  destruct (decide (n = name)) as [->|Hn].
  - rewrite lookup_partial_alter_eq. by rewrite decide_True.
  - rewrite lookup_partial_alter_ne by done. case_decide as E; [|apply Hv].
    rewrite Hother by done. rewrite Hv. unfold vars_at. by rewrite E, Hb.
Qed.

Lemma holds_dead h vs d : holds h vs -> holds (set_dead d h) vs.
Proof. done. Qed.
Lemma holds_mmap h vs (mem : list Z) : holds h vs -> holds (set_mmap mem h) vs.
Proof. done. Qed.

(** What a call leaves alone: everything but the table. *)
Definition same_map (h h' : nvram_handle) : Prop :=
  nv_fd h' = nv_fd h /\ nv_addr h' = nv_addr h /\ nv_mmap h' = nv_mmap h /\
  nv_length h' = nv_length h /\ nv_offset h' = nv_offset h.

Lemma same_map_trans h1 h2 h3 : same_map h1 h2 -> same_map h2 h3 -> same_map h1 h3.
Proof. intros (? & ? & ? & ? & ?) (? & ? & ? & ? & ?). split_and!; congruence. Qed.

(** The machine changes by requests for memory only. *)
Definition mallocs : relation K := rtc (fun k k' => exists n, k' = (nv_malloc n k).2).

Definition lib_same s s' : Prop :=
  same_map (l_h s) (l_h s') /\ l_part_size s' = l_part_size s /\ mallocs (l_k s) (l_k s').

Lemma lib_same_trans s1 s2 s3 : lib_same s1 s2 -> lib_same s2 s3 -> lib_same s1 s3.
Proof.
  intros (? & ? & ?) (? & ? & ?). split_and!; [by eapply same_map_trans|congruence|by etrans].
Qed.

(** * Operations *)

Lemma wp_get_bucket name (Q : list nvram_tuple -> lib K -> Prop) s :
  table_ok (l_h s) ->
  (forall b, nvram_hash (l_h s) !! bucket_of name = Some b -> Q b s) -> wp (get_bucket (bucket_of name)) Q s.
Proof.
  intros Ht HQ. destruct (table_bucket _ name Ht) as [b Hb]. unfold get_bucket, handle.
  apply wp_bind, wp_gets. rewrite Hb. apply wp_ret. by apply HQ.
Qed.

Lemma wp_nvram_get name vs s :
  holds (l_h s) vs -> wp (nvram_get name) (fun r s' => s' = s /\ r = vs !! name) s.
Proof.
  intros [Ht Hv]. unfold nvram_get. apply wp_bind, wp_get_bucket; [done|]. intros b Hb. apply wp_ret.
  split; [done|]. rewrite Hv. unfold vars_at, chain_get. rewrite Hb. cbn.
  by destruct (find_tuple name b) as [[[? ?] ?]|].
Qed.

Lemma wp_nvram_unset name vs s :
  holds (l_h s) vs ->
  wp (nvram_unset name) (fun r s' => r = 0 /\ holds (l_h s') (delete name vs) /\
    lib_same s s') s.
Proof.
  intros Hh. pose proof Hh as [Ht Hv]. unfold nvram_unset. apply wp_bind, wp_get_bucket; [done|].
  intros b Hb. pose proof (find_tuple_spec name b) as Hf.
  destruct (find_tuple name b) as [[[pre t] post]|] eqn:Ef.
  2: { apply wp_ret. split_and!; [done| |done..]. rewrite delete_id; [done|].
       rewrite Hv. unfold vars_at, chain_get. by rewrite Hb; cbn; rewrite Ef. }
  destruct Hf as (-> & <- & Hpre). destruct (proj2 Ht _ _ Hb) as [Hnd Hok].
  rewrite fmap_app, fmap_cons in Hnd. apply NoDup_app in Hnd as (Hn1 & Hn12 & [Hn2 Hn3]%NoDup_cons).
  apply wp_bind, wp_modify, wp_bind, wp_modify, wp_ret. split_and!; [done| |done..]. apply holds_dead.
  eapply (holds_put _ _ (t_name t)); [done|exact Hb| | |].
  - split.
    + rewrite fmap_app. apply NoDup_app. split_and!; [done| |done]. intros x Hx Hx'.
      eapply Hn12; [done|]. by right.
    + intros u [Hu|Hu]%elem_of_app; apply Hok; rewrite elem_of_app; [by left|right; by right].
  - rewrite chain_get_app, decide_False by done. by apply chain_get_not_in.
  - intros n Hn. rewrite !chain_get_app, chain_get_cons. rewrite (decide_False (P := t_name t = n)) by done.
    done.
Qed.

(** Memory is always granted. *)
Class MemGranted := granted n k : (nv_malloc n k).1 = true.

(** [nvram_set] when the value fits and memory is granted. *)
Lemma wp_malloc `{!MemGranted} n (Q : bool -> lib K -> Prop) s :
  (forall k, mallocs (l_k s) k -> Q true (mk_lib (l_part_size s) (l_h s) k)) -> wp (malloc n) Q s.
Proof.
  intros HQ. unfold wp, malloc. pose proof (granted n (l_k s)) as Hg.
  destruct (nv_malloc n (l_k s)) as [ok k] eqn:E. cbn in Hg. subst ok. apply HQ.
  apply rtc_once. exists n. by rewrite E.
Qed.

Definition value_fits (h : nvram_handle) value : Prop :=
  size_t (strlen value + 1) <= u32 (nv_length h - nv_offset h).

Lemma wp_realloc `{!MemGranted} t name value s :
  value_fits (l_h s) value -> (forall u, t = Some u -> t_name u = name) ->
  wp (_nvram_realloc t name value) (fun r s' => r = (true, Some (mk_nvram_tuple name (Some value))) /\
    l_h s' = l_h s /\ l_part_size s' = l_part_size s /\ mallocs (l_k s) (l_k s')) s.
Proof.
  unfold value_fits. intros Hf Ht. unfold _nvram_realloc, handle. apply wp_bind, wp_gets, wp_bind, wp_gets.
  destruct (Z.ltb_spec (u32 (nv_length (l_h s) - nv_offset (l_h s))) (size_t (strlen value + 1))); [lia|].
  apply wp_bind. apply wp_mono with (Q := fun t' s' => (exists u, t' = Some u /\ t_name u = name) /\
    l_h s' = l_h s /\ l_part_size s' = l_part_size s /\ mallocs (l_k s) (l_k s')).
  { destruct t as [u|]; [apply wp_ret; split; [exists u; auto|done]|].
    apply wp_bind, wp_malloc. intros k Hk. apply wp_ret. split; [|done]. by eexists. }
  intros t' s' ((u & -> & Hu) & Hh & Hp & Hk).
  destruct (bool_decide_reflect (t_value u = Some value)) as [Ev|_].
  - apply wp_ret. split; [|done]. destruct u as [n v]. cbn in *. by subst.
  - apply wp_bind, wp_malloc. intros k Hk'. apply wp_ret. rewrite Hu. split_and!; [done..|by etrans].
Qed.

Lemma wp_nvram_set `{!MemGranted} name value vs s :
  holds (l_h s) vs -> value_fits (l_h s) value ->
  wp (nvram_set name value) (fun r s' => r = 0 /\ holds (l_h s') (<[name := value]> vs) /\
    lib_same s s') s.
Proof.
  intros Hh Hfit. pose proof Hh as [Ht Hv]. unfold nvram_set. apply wp_bind, wp_get_bucket; [done|].
  intros b Hb. pose proof (find_tuple_spec name b) as Hf. destruct (proj2 Ht _ _ Hb) as [Hnd Hok].
  destruct (find_tuple name b) as [[[pre t] post]|] eqn:Ef.
  - destruct Hf as (-> & Hn & Hpre). apply wp_bind. wp_call wp_realloc; [done|by intros u [= <-]|].
    intros [ok t'] s' (E & El & Ep & Ek). injection E as -> ->. cbn [default id].
    apply wp_bind, wp_modify, wp_ret. unfold lib_same. cbn. rewrite El. split_and!; [done| |done..].
    eapply holds_put; [done|exact Hb| | |].
    + rewrite fmap_app, fmap_cons, Hn in Hnd. split; [by rewrite fmap_app|].
      intros u [Hu|[->|Hu]%elem_of_cons]%elem_of_app; [|cbn; by eauto|];
        apply Hok; rewrite elem_of_app; [by left|right; by right].
    + rewrite chain_get_app, decide_False, chain_get_cons by done. by rewrite decide_True.
    + intros n Hne. rewrite !chain_get_app, !chain_get_cons. cbn [t_name].
      by rewrite !(decide_False (P := _ = n)) by congruence.
  - apply wp_bind. wp_call wp_realloc; [done|done|]. intros [ok t'] s' (E & El & Ep & Ek). injection E as -> ->.
    apply wp_bind, wp_modify, wp_ret. unfold lib_same. cbn. rewrite El. split_and!; [done| |done..].
    eapply holds_put; [done|exact Hb| | |].
    + split; [by apply NoDup_cons|]. intros u [->|Hu]%elem_of_cons; [cbn; by eauto|by apply Hok].
    + rewrite chain_get_cons. by rewrite decide_True.
    + intros n Hne. rewrite chain_get_cons. cbn [t_name]. by rewrite decide_False by congruence.
Qed.

(** The empty table. *)
Lemma holds_empty h : holds (set_hash (replicate (Z.to_nat hash_size) []) h) ∅.
Proof.
  split.
  - split; [cbn; by rewrite length_replicate|]. cbn. intros i b Hb.
    apply lookup_replicate_1 in Hb as [-> _]. split; [constructor|]. intros t Ht.
    by apply not_elem_of_nil in Ht.
  - intros name. rewrite lookup_empty. unfold vars_at. cbn [nvram_hash set_hash].
    by rewrite lookup_replicate_2 by apply bucket_of_lt.
Qed.

Lemma wp_nvram_free s :
  wp _nvram_free (fun _ s' => holds (l_h s') ∅ /\ lib_same s s') s.
Proof. apply wp_bind, wp_modify, wp_modify. split_and!; [|done..]. apply holds_dead, holds_empty. Qed.

(** The tuples of a table are those of the map. *)
Definition tuples (h : nvram_handle) : list (list Z * list Z) :=
  (fun t => (t_name t, default [] (t_value t))) <$> concat (nvram_hash h).

Lemma tuples_elem h name value :
  table_ok h -> (name, value) ∈ tuples h <-> vars_at h name = Some value.
Proof.
  intros [Hl Hc]. unfold tuples. rewrite list_elem_of_fmap. split.
  - intros (t & [= -> ->] & (b & Ht & [i Hb]%list_elem_of_lookup)%list_elem_of_concat).
    destruct (Hc _ _ Hb) as [Hnd Hok]. destruct (Hok t Ht) as [Hi [v Hval]].
    unfold vars_at. rewrite Hi, Hb. cbn. rewrite Hval. cbn.
    apply list_elem_of_split in Ht as (b1 & b2 & ->). rewrite fmap_app, fmap_cons in Hnd.
    apply NoDup_app in Hnd as (_ & Hn & _). rewrite chain_get_app, decide_False, chain_get_cons.
    + by rewrite decide_True.
    + intros Hin. eapply Hn; [done|by left].
  - unfold vars_at, chain_get. destruct (nvram_hash h !! bucket_of name) as [b|] eqn:Hb; [|done]. cbn.
    pose proof (find_tuple_spec name b) as Hf. destruct (find_tuple name b) as [[[pre t] post]|]; [|done].
    destruct Hf as (-> & <- & _). cbn. intros Hv. exists t. rewrite Hv. split; [done|].
    apply list_elem_of_concat. eexists. split; [|by eapply list_elem_of_lookup_2].
    rewrite elem_of_app. right. by left.
Qed.

Lemma tuples_nodup h : table_ok h -> NoDup (tuples h).*1.
Proof.
  intros [_ Hc]. unfold tuples. rewrite <- list_fmap_compose.
  assert (forall k l, (forall i b, l !! i = Some b -> chain_ok (k + i) b) ->
    NoDup ((fst ∘ (fun t => (t_name t, default [] (t_value t)))) <$> concat l) /\
    forall t, t ∈ concat l -> (k <= bucket_of (t_name t))%nat) as Hgen;
    [|by apply (Hgen 0%nat)].
  intros k l. revert k. induction l as [|b l IH]; intros k Hl.
  { split; [constructor|]. by intros t ?%not_elem_of_nil. }
  destruct (IH (S k)) as [IH1 IH2]. { intros i c Hi. rewrite Nat.add_succ_comm. by apply (Hl (S i)). }
  destruct (Hl 0%nat b eq_refl) as [Hnd Hok]. rewrite Nat.add_0_r in Hok. cbn [concat]. split.
  - rewrite fmap_app. apply NoDup_app. split_and!; [exact Hnd| |done]. intros n Hb Hin.
    apply list_elem_of_fmap in Hb as (t & -> & Ht), Hin as (u & Hu & Hin). cbn in Hu.
    destruct (Hok t Ht) as [E _]. specialize (IH2 u Hin). rewrite <- Hu, E in IH2. lia.
  - intros t [Ht|Ht]%elem_of_app; [by destruct (Hok t Ht) as [-> _]|]. specialize (IH2 t Ht). lia.
Qed.

Lemma tuples_map h vs : holds h vs -> list_to_map (tuples h) = vs.
Proof.
  intros [Ht Hv]. apply map_eq. intros n. apply option_eq. intros v.
  rewrite Hv, <- tuples_elem by done. symmetry. apply elem_of_list_to_map. by apply tuples_nodup.
Qed.

Lemma tuples_perm h vs : holds h vs -> tuples h ≡ₚ map_to_list vs.
Proof.
  intros Hh. rewrite <- (tuples_map _ _ Hh). symmetry. apply map_to_list_to_map.
  apply tuples_nodup, Hh.
Qed.

(** [nvram_getall] lists them, the last one first. *)
Lemma wp_getall_chain `{!MemGranted} b l s :
  wp (getall_chain b l) (fun r s' => r = rev b ++ l /\ l_h s' = l_h s /\ lib_same s s') s.
Proof.
  revert l s. induction b as [|t b IH]; intros l s; [by apply wp_ret|]. cbn [getall_chain].
  apply wp_bind, wp_malloc. intros k Hk. wp_call IH. intros r s' (-> & Hh & Hm & Hp & Hk'). cbn in *.
  rewrite <- app_assoc. split_and!; [done..|]. split_and!; [done..|by etrans].
Qed.

Lemma wp_nvram_getall `{!MemGranted} vs s :
  holds (l_h s) vs ->
  wp nvram_getall (fun r s' => (fun t => (t_name t, default [] (t_value t))) <$> r ≡ₚ map_to_list vs /\
    (forall t, t ∈ r -> is_Some (t_value t)) /\ l_h s' = l_h s /\ lib_same s s') s.
Proof.
  intros Hh. apply wp_bind, wp_gets.
  apply wp_mono with (Q := fun r s' => r = rev (concat (nvram_hash (l_h s))) /\ l_h s' = l_h s /\
    lib_same s s').
  - rewrite <- (app_nil_r (rev _)). generalize (@nil nvram_tuple) as l. generalize (nvram_hash (l_h s)) as t.
    intros t. induction t as [|b t IH] in s |- *; intros l; [by apply wp_ret|]. cbn [getall_chains].
    apply wp_bind. wp_call wp_getall_chain. intros r s' (-> & Hl & Hp). rewrite <- Hl.
    wp_call IH. intros r s2 (-> & Hl2 & Hp2). split_and!; [|done|by eapply lib_same_trans].
    cbn [concat]. by rewrite rev_app_distr, <- app_assoc.
  - intros r s' (-> & Hl & Hp). split_and!; [|intros t Ht|done|done].
    + rewrite <- Permutation_rev. by apply tuples_perm.
    + apply list_elem_of_In, in_rev, list_elem_of_In, list_elem_of_concat in Ht as (b & Ht & [i Hb]%list_elem_of_lookup).
      by apply (proj2 (proj1 Hh) _ _ Hb).
Qed.
End table.
