(* ===== verification/NvramFormat.v ===== *)
(** The text of the variables in flash: writing it ([nvram_commit]) and reading it
    back ([_nvram_rehash]). *)

From stdpp Require Import base list gmap numbers strings.
From Stdlib Require Import ZArith Lia.
From S2P Require Import Prelude Platform Bytes CStrings NvramLib NvramSpec.
Local Open Scope Z_scope.
Local Open Scope cprog_scope.

(** A variable as name=value with a terminating zero. *)
Definition entry (p : list Z * list Z) : list Z := p.1 ++ 61 :: p.2 ++ [0].
Definition text (l : list (list Z * list Z)) : list Z := concat (entry <$> l).

Lemma text_cons p l : text (p :: l) = p.1 ++ 61 :: p.2 ++ 0 :: text l.
Proof.
  unfold text. rewrite fmap_cons. cbn [concat]. unfold entry at 1. rewrite <- app_assoc. cbn [app].
  by rewrite <- app_assoc.
Qed.

Lemma text_app l1 l2 : text (l1 ++ l2) = text l1 ++ text l2.
Proof. unfold text. by rewrite fmap_app, concat_app. Qed.

Lemma length_text_cons p l :
  Z.of_nat (length (text (p :: l))) = strlen p.1 + 1 + strlen p.2 + 1 + Z.of_nat (length (text l)).
Proof. rewrite text_cons. rewrite length_app. cbn. rewrite length_app. cbn. unfold strlen. lia. Qed.

(** Names without = and strings without zeros: these come back from the text. *)
Definition clean (p : list Z * list Z) : Prop := (61 ∉ p.1) /\ (0 ∉ p.1) /\ (0 ∉ p.2).

Lemma strchr_here name rest : 61 ∉ name -> 0 ∉ name -> strchr 61 (name ++ 61 :: rest) = Some (name, true).
Proof.
  induction name as [|b name IH]; [done|].
  intros [Hb H1]%not_elem_of_cons [Hb0 H2]%not_elem_of_cons. cbn.
  destruct (Z.eqb_spec b 61); [done|]. destruct (Z.eqb_spec b 0); [done|]. by rewrite IH.
Qed.

Lemma c_str_here s rest : 0 ∉ s -> c_str (s ++ 0 :: rest) = Some s.
Proof.
  induction s as [|b s IH]; [done|]. intros [Hb Hs]%not_elem_of_cons. cbn.
  destruct (Z.eqb_spec b 0); [done|]. by rewrite IH.
Qed.

(** The header words a map of variables asks for, and the variables they stand for. *)
Definition words_of `{Arch} (vs : gmap (list Z) (list Z)) : Z * Z * Z :=
  let ver := Z.shiftl NVRAM_VERSION 8 in
  match vs !! str_sdram_init, vs !! str_sdram_config, vs !! str_sdram_refresh, vs !! str_sdram_ncdl with
  | Some init, Some config, Some refresh, Some ncdl =>
      (u32 (Z.lor ver (Z.shiftl (Z.land (strtoul0 init) 0xffff) 16)),
       u32 (Z.lor (Z.land (strtoul0 config) 0xffff) (Z.shiftl (Z.land (strtoul0 refresh) 0xffff) 16)),
       u32 (strtoul0 ncdl))
  | _, _, _, _ =>
      (u32 (Z.lor ver (Z.shiftl SDRAM_INIT 16)), u32 (Z.lor SDRAM_CONFIG (Z.shiftl SDRAM_REFRESH 16)), 0)
  end.

Definition header_vars (w : Z * Z * Z) : gmap (list Z) (list Z) :=
  let '(crc_ver_init, config_refresh, config_ncdl) := w in
  {[ str_sdram_init := print_hex 4 (u16 (Z.shiftr crc_ver_init 16)) ]} ∪
  {[ str_sdram_config := print_hex 4 (u16 (Z.land config_refresh 0xffff)) ]} ∪
  {[ str_sdram_refresh := print_hex 4 (u16 (Z.land (Z.shiftr config_refresh 16) 0xffff)) ]} ∪
  {[ str_sdram_ncdl := print_hex 8 config_ncdl ]}.

(** The checksum of a list of bytes. *)
Definition crc8_step (crc b : Z) : Z := crc8_table !!! Z.to_nat (Z.land (Z.lxor crc b) 0xff).
Definition crc8 (crc : Z) (l : list Z) : Z := foldl crc8_step crc l.

Lemma length_hex_digits n v : length (hex_digits n v) = n.
Proof. revert v. induction n as [|n IH]; intros v; [done|]. cbn. rewrite length_app, IH. cbn. lia. Qed.

Section format.
Context `{A : Arch} `{!ArchLaws A} `{Ch : Char} {K : Type} `{Mem : NvMem K} `{!MemGranted}.
Implicit Types (s : lib K) (vs : gmap (list Z) (list Z)).

(** * Reading *)

Definition insert_pair vs (p : list Z * list Z) : gmap (list Z) (list Z) := <[p.1 := p.2]> vs.

Lemma wp_parse l rest p fuel vs s :
  Forall clean l -> Forall (fun e => value_fits (l_h s) e.2) l -> holds (l_h s) vs ->
  0 <= p -> drop (Z.to_nat p) (nv_mmap (l_h s)) = text l ++ 0 :: rest -> (length l < fuel)%nat ->
  wp (loop fuel parse_step p) (fun _ s' => holds (l_h s') (foldl insert_pair vs l) /\
    lib_same s s') s.
Proof.
  revert p fuel vs s. induction l as [|[n v] l IH]; intros p fuel vs s Hc Hf Hh Hp Hd Hl;
    (destruct fuel as [|fuel]; [lia|]); cbn [loop]; apply wp_bind, wp_bind, wp_gets; rewrite Hd.
  { apply wp_ret. by apply wp_ret. }
  apply Forall_cons in Hc as [(H61 & H0 & Hv0) Hc], Hf as [Hf Hfs]. cbn [fst snd] in *.
  rewrite text_cons. cbn [fst snd].
  rewrite <- app_assoc. cbn [app]. rewrite <- app_assoc. cbn [app].
  assert (exists c r, n ++ 61 :: v ++ 0 :: text l ++ 0 :: rest = c :: r /\ c <> 0) as (c & r & Ec & Hc0).
  { destruct n as [|c n]; [by exists 61, (v ++ 0 :: text l ++ 0 :: rest)|].
    exists c, (n ++ 61 :: v ++ 0 :: text l ++ 0 :: rest). split; [done|]. intros ->. apply H0. by left. }
  rewrite Ec. destruct (Z.eqb_spec c 0); [done|]. rewrite <- Ec. rewrite strchr_here by done.
  assert (drop (Z.to_nat (p + strlen n + 1)) (nv_mmap (l_h s)) = v ++ 0 :: text l ++ 0 :: rest) as Ev.
  { unfold strlen. replace (Z.to_nat (p + Z.of_nat (length n) + 1)) with (Z.to_nat p + (length n + 1))%nat by lia.
    rewrite <- drop_drop, Hd, text_cons. cbn [fst snd]. rewrite <- app_assoc. cbn [app].
    rewrite <- app_assoc. cbn [app]. rewrite drop_app_ge by lia.
    by replace (length n + 1 - length n)%nat with 1%nat by lia. }
  rewrite Ev, c_str_here by done. apply wp_bind. wp_call wp_nvram_set; [done..|].
  intros r0 s' (_ & Hh' & Hs). apply wp_ret.
  destruct (proj1 Hs) as (Hm1 & Hm2 & Hm3 & Hm4 & Hm5).
  eapply wp_mono; [apply (IH _ _ (<[n:=v]> vs))|].
  - done.
  - eapply Forall_impl; [exact Hfs|]. intros e. unfold value_fits. by rewrite Hm4, Hm5.
  - done.
  - unfold strlen. lia.
  - rewrite Hm3. unfold strlen in *.
    replace (Z.to_nat (p + Z.of_nat (length n) + 1 + Z.of_nat (length v) + 1))
      with (Z.to_nat (p + Z.of_nat (length n) + 1) + (length v + 1))%nat by lia.
    rewrite <- drop_drop, Ev. rewrite drop_app_ge by lia.
    by replace (length v + 1 - length v)%nat with 1%nat by lia.
  - cbn in Hl. lia.
  - intros u s2 (? & ?). split; [done|by eapply lib_same_trans].
Qed.

Lemma wp_set_missing name value vs s :
  holds (l_h s) vs -> value_fits (l_h s) value ->
  wp (set_missing name value) (fun _ s' => holds (l_h s') (vs ∪ {[name := value]}) /\
    lib_same s s') s.
Proof.
  intros Hh Hf. unfold set_missing. apply wp_bind. eapply wp_mono; [by eapply wp_nvram_get|].
  intros r s' [-> ->]. destruct (vs !! name) as [v|] eqn:Ev.
  - apply wp_ret. split; [|done]. enough (vs ∪ {[name := value]} = vs) as -> by done.
    apply map_eq. intros n. rewrite lookup_union. destruct (vs !! n) eqn:En; [by rewrite union_Some_l|].
    rewrite lookup_singleton_ne; [done|]. intros ->. congruence.
  - apply wp_bind. wp_call wp_nvram_set; [done..|]. intros r s' (_ & Hh' & Hm). apply wp_ret.
    split; [|done]. rewrite <- (insert_empty name value), <- insert_union_r, (right_id_L ∅ (∪)) by done.
    done.
Qed.
(** The fields of the header, as they are in memory. *)
Definition words_at (b : list Z) (off : Z) : Z * Z * Z :=
  (cpu_field b (off + 8) 4, cpu_field b (off + 12) 4, cpu_field b (off + 16) 4).

Lemma wp_mem_get off len (Q : Z -> lib K -> Prop) s :
  0 <= off -> 0 <= len -> off + len <= Z.of_nat (length (nv_mmap (l_h s))) ->
  Q (cpu_field (nv_mmap (l_h s)) off len) s -> wp (mem_get off len) Q s.
Proof. intros. apply wp_bind, wp_gets. rewrite in_bounds_true by done. by apply wp_ret. Qed.

Lemma value_fits_same h h' v : same_map h h' -> value_fits h v -> value_fits h' v.
Proof. intros (_ & _ & _ & E1 & E2). unfold value_fits. by rewrite E1, E2. Qed.

Lemma text_count l : (length l <= length (text l))%nat.
Proof. induction l as [|p l IH]; [done|]. rewrite text_cons, !length_app. cbn. rewrite length_app. cbn. lia. Qed.

Lemma hex_fits h n v : (n <= 8)%nat -> 20 <= u32 (nv_length h - nv_offset h) -> value_fits h (print_hex n v).
Proof.
  intros Hn Hr. unfold value_fits, strlen, print_hex. cbn [app length]. rewrite length_hex_digits.
  rewrite size_t_small by lia. lia.
Qed.

Lemma wp_rehash l rest s :
  let h := l_h s in
  Forall clean l -> Forall (fun e => value_fits h e.2) l -> 0 <= nv_offset h ->
  20 <= u32 (nv_length h - nv_offset h) ->
  drop (Z.to_nat (nv_offset h + 20)) (nv_mmap h) = text l ++ 0 :: rest ->
  wp _nvram_rehash (fun r s' => r = 0 /\
    holds (l_h s') (foldl insert_pair ∅ l ∪ header_vars (words_at (nv_mmap h) (nv_offset h))) /\
    lib_same s s') s.
Proof.
  intros h Hc Hf Hoff Hroom Hd. subst h. unfold _nvram_rehash.
  apply wp_bind. eapply wp_mono; [apply wp_nvram_free|]. intros [] s1 (Hh1 & Hs1).
  pose proof (proj1 Hs1) as Hm1. pose proof Hm1 as (_ & _ & Em & El & Eo).
  apply wp_bind, wp_gets, wp_bind, wp_gets. rewrite Eo, Em.
  assert (Z.of_nat (length (nv_mmap (l_h s))) = nv_offset (l_h s) + 20 + Z.of_nat (length (text l ++ 0 :: rest))) as Hlen.
  { pose proof (f_equal length Hd) as Hdl. rewrite length_drop, length_app in *. cbn in *. lia. }
  rewrite length_app in Hlen. cbn [length] in Hlen. pose proof (text_count l).
  apply wp_bind. eapply wp_mono; [apply (wp_parse l rest _ _ ∅)|].
  { done. }
  { eapply Forall_impl; [exact Hf|]. intros e. by apply value_fits_same. }
  { done. }
  { unfold sizeof_nvram_header. lia. }
  { rewrite Em. exact Hd. }
  { lia. }
  intros [] s2 (Hh2 & Hs2). pose proof (lib_same_trans _ _ _ Hs1 Hs2) as Hs.
  pose proof (proj1 Hs) as (_ & _ & Em2 & El2 & Eo2).
  do 3 (apply wp_bind, wp_mem_get; [lia|lia|rewrite Em2; lia|]). rewrite Em2.
  unfold words_at, header_vars. rewrite !(assoc_L (∪)).
  assert (forall name n v vs s', lib_same s s' -> holds (l_h s') vs -> (n <= 8)%nat ->
    wp (set_missing name (print_hex n v)) (fun _ s2 => holds (l_h s2) (vs ∪ {[name := print_hex n v]}) /\
      lib_same s s2) s') as Hset.
  { intros name n v vs s' Hs' Hh' Hn. eapply wp_mono; [apply wp_set_missing; [exact Hh'|]|].
    - eapply value_fits_same; [apply Hs'|]. by apply hex_fits.
    - intros [] s3 [Hh3 Hs3]. split; [done|by eapply lib_same_trans]. }
  do 4 (apply wp_bind; eapply wp_mono; [eapply Hset; [eassumption|eassumption|lia]|];
    clear dependent s2; intros [] s2 [Hh2 Hs2]).
  by apply wp_ret.
Qed.

(** * Writing *)

(** Overwriting a part of the mapping. *)
Lemma wp_mem_put off bytes l old r (Q : unit -> lib K -> Prop) s :
  nv_mmap (l_h s) = l ++ old ++ r -> Z.of_nat (length l) = off -> length bytes = length old ->
  Q tt (mk_lib (l_part_size s) (set_mmap (l ++ bytes ++ r) (l_h s)) (l_k s)) -> wp (mem_put off bytes) Q s.
Proof.
  intros Hb Ho Hl HQ. apply wp_bind, wp_gets. rewrite Hb.
  rewrite in_bounds_true by (rewrite ?length_app; lia). apply wp_modify.
  by rewrite (blit_middle l old r bytes off) by done.
Qed.

Definition pairs (b : list nvram_tuple) : list (list Z * list Z) :=
  (fun t => (t_name t, default [] (t_value t))) <$> b.

Lemma wp_put_chain end_ b ptr l r s :
  (forall t, t ∈ b -> is_Some (t_value t)) ->
  nv_mmap (l_h s) = l ++ r -> Z.of_nat (length l) = ptr ->
  ptr + Z.of_nat (length (text (pairs b))) <= end_ -> end_ <= ptr + Z.of_nat (length r) ->
  wp (put_chain end_ b ptr) (fun ptr' s' => ptr' = ptr + Z.of_nat (length (text (pairs b))) /\
    s' = mk_lib (l_part_size s)
      (set_mmap (l ++ text (pairs b) ++ drop (length (text (pairs b))) r) (l_h s)) (l_k s)) s.
Proof.
  revert ptr l r s. induction b as [|t b IH]; intros ptr l r s Hv Hb Hl Hend Hr.
  { apply wp_ret. split; [cbn; lia|]. cbn. destruct s as [p h k]. cbn in *. f_equal.
    destruct h; cbn in *. by subst. }
  destruct (Hv t ltac:(by left)) as [v Ev]. cbn [put_chain]. unfold put_tuple. rewrite Ev.
  assert (pairs (t :: b) = (t_name t, v) :: pairs b) as Ep by (unfold pairs; cbn; by rewrite Ev).
  rewrite Ep in *. rewrite length_text_cons in *. cbn [fst snd] in *.
  destruct (Z.ltb_spec end_ (ptr + strlen (t_name t) + 1 + strlen v + 1)); [lia|].
  set (e := t_name t ++ 61 :: v ++ [0]).
  assert (Z.of_nat (length e) = strlen (t_name t) + 1 + strlen v + 1) as He.
  { unfold e, strlen. rewrite !length_app. cbn. rewrite !length_app. cbn. lia. }
  apply wp_bind, wp_bind. apply (wp_mem_put _ _ l (take (length e) r) (drop (length e) r)).
  { by rewrite take_drop. } { done. } { rewrite length_take. lia. }
  apply wp_ret. eapply wp_mono; [apply (IH _ (l ++ e) (drop (length e) r))|].
  - intros u Hu. apply Hv. by right.
  - cbn. by rewrite app_assoc.
  - rewrite length_app. lia.
  - lia.
  - rewrite length_drop. lia.
  - intros ptr' s' [-> ->]. split; [lia|].
    assert (text ((t_name t, v) :: pairs b) = e ++ text (pairs b)) as ->.
    { rewrite text_cons. cbn [fst snd]. unfold e. rewrite <- app_assoc. cbn. by rewrite <- app_assoc. }
    unfold set_mmap. cbn. by rewrite drop_drop, <- !app_assoc, length_app.
Qed.

Lemma wp_put_chains end_ t ptr l r s :
  (forall u, u ∈ concat t -> is_Some (t_value u)) ->
  nv_mmap (l_h s) = l ++ r -> Z.of_nat (length l) = ptr ->
  ptr + Z.of_nat (length (text (pairs (concat t)))) <= end_ -> end_ <= ptr + Z.of_nat (length r) ->
  wp (put_chains end_ t ptr) (fun ptr' s' => ptr' = ptr + Z.of_nat (length (text (pairs (concat t)))) /\
    s' = mk_lib (l_part_size s)
      (set_mmap (l ++ text (pairs (concat t)) ++ drop (length (text (pairs (concat t)))) r) (l_h s)) (l_k s)) s.
Proof.
  revert ptr l r s. induction t as [|b t IH]; intros ptr l r s Hv Hb Hl Hend Hr.
  { apply wp_ret. split; [cbn; lia|]. cbn. destruct s as [p h k]. cbn in *. f_equal.
    destruct h; cbn in *. by subst. }
  assert (text (pairs (concat (b :: t))) = text (pairs b) ++ text (pairs (concat t))) as Et.
  { cbn [concat]. unfold pairs. by rewrite fmap_app, text_app. }
  rewrite Et in *. rewrite length_app in *. cbn [put_chains]. apply wp_bind.
  eapply wp_mono; [apply (wp_put_chain _ _ _ l r)|].
  { intros u Hu. apply Hv. cbn. rewrite elem_of_app. by left. } { done. } { done. } { lia. } { lia. }
  intros ptr' s' [-> ->]. eapply wp_mono; [apply (IH _ (l ++ text (pairs b)) (drop (length (text (pairs b))) r))|].
  - intros u Hu. apply Hv. cbn. rewrite elem_of_app. by right.
  - cbn. by rewrite app_assoc.
  - rewrite length_app. lia.
  - lia.
  - rewrite length_drop. lia.
  - intros p2 s2 [-> ->]. split; [lia|]. unfold set_mmap. cbn.
    by rewrite drop_drop, <- !app_assoc.
Qed.
End format.
