(* ===== verification/NvramCommitSpec.v ===== *)
(** [nvram_commit]: the image it leaves in the mapping, its checksum, and the variables
    of the table read back from it. *)

From stdpp Require Import base list gmap numbers strings.
From Stdlib Require Import ZArith Lia.
From S2P Require Import Prelude Platform Bytes CStrings NvramLib NvramSpec NvramFormat.
Local Open Scope Z_scope.
Local Open Scope cprog_scope.

(** * The checksum *)

(** CRC-8 with the reflected polynomial, bit by bit. *)
Definition crc8_bit (crc : Z) : Z :=
  if Z.odd crc then Z.lxor (Z.shiftr crc 1) 0xab else Z.shiftr crc 1.

Lemma crc8_table_entries : crc8_table = (fun i => Nat.iter 8 crc8_bit i) <$> seqZ 0 256.
Proof. vm_compute. reflexivity. Qed.

Lemma crc8_table_lookup i : 0 <= i < 256 -> crc8_table !! Z.to_nat i = Some (Nat.iter 8 crc8_bit i).
Proof.
  intros Hi. rewrite crc8_table_entries, list_lookup_fmap, lookup_seqZ_lt by lia.
  by rewrite Z.add_0_l, Z2Nat.id by lia.
Qed.

Lemma crc8_index crc b : 0 <= Z.land (Z.lxor crc b) 0xff < 256.
Proof. change 0xff with (Z.ones 8). rewrite Z.land_ones by lia. by apply Z.mod_pos_bound. Qed.

Lemma crc8_step_range crc b : 0 <= crc8_step crc b < 256.
Proof.
  unfold crc8_step. rewrite list_lookup_total_alt. rewrite crc8_table_lookup by apply crc8_index.
  cbn [default id]. pose proof (crc8_index crc b) as Hi. revert Hi.
  generalize (Z.land (Z.lxor crc b) 0xff). intros i Hi.
  assert (forall x, 0 <= x < 256 -> 0 <= crc8_bit x < 256) as Hbit.
  { intros x Hx. unfold crc8_bit. assert (0 <= Z.shiftr x 1 < 128).
    { rewrite Z.shiftr_div_pow2 by lia. split; [apply Z.div_pos; lia|apply Z.div_lt_upper_bound; lia]. }
    destruct (Z.odd x); [|lia]. apply (lxor_width 8); lia. }
  cbn. by repeat apply Hbit.
Qed.

Lemma crc8_range crc l : 0 <= crc < 256 -> 0 <= crc8 crc l < 256.
Proof.
  revert crc. induction l as [|b l IH]; intros crc Hc; [done|]. apply IH, crc8_step_range.
Qed.

Lemma hndcrc8_run {S} l n crc (s : S) : (n <= length l)%nat -> hndcrc8 l n crc s = Ret (crc8 crc (take n l)) s.
Proof.
  revert n crc. induction l as [|b l IH]; intros [|n] crc Hn; cbn in *; try done; [lia|].
  unfold bind, arr_get. pose proof (crc8_index crc b) as Hi.
  destruct (Z.ltb_spec (Z.land (Z.lxor crc b) 255) 0); [lia|].
  assert (crc8_table !! Z.to_nat (Z.land (Z.lxor crc b) 255) = Some (crc8_step crc b)) as ->.
  { unfold crc8_step. rewrite list_lookup_total_alt, crc8_table_lookup by done. done. }
  apply IH. lia.
Qed.

Lemma crc8_app crc l1 l2 : crc8 crc (l1 ++ l2) = crc8 (crc8 crc l1) l2.
Proof. apply foldl_app. Qed.

(** * Images *)

(** The twenty bytes of a header. *)
Definition header_bytes `{Arch} (len c r n : Z) : list Z :=
  cpu_bytes 4 NVRAM_MAGIC ++ cpu_bytes 4 len ++ cpu_bytes 4 c ++ cpu_bytes 4 r ++ cpu_bytes 4 n.

(** The bytes [b] of a mapping have at [off] an image of the variables [l] with the
    header words [w]: the text ends with a second zero, the length covers it, and the
    checksum is that of the header without length and checksum and of the data. *)
Definition nvram_image `{Arch} (b : list Z) (off : Z) (l : list (list Z * list Z)) (w : Z * Z * Z) : Prop :=
  let '(c, r, n) := w in
  exists pre len rest,
    let data := text l ++ 0 :: rest in
    let crc := crc8 (crc8 0xff (drop 9 (header_bytes 0 c r n))) (take (Z.to_nat (len - 20)) data) in
    b = pre ++ header_bytes len (Z.lor c crc) r n ++ data /\
    Z.of_nat (length pre) = off /\
    22 + Z.of_nat (length (text l)) <= len <= 25 + Z.of_nat (length (text l)) /\
    len < Z.of_nat (length b) - off.

Lemma length_nvram_header `{Arch} len c r n : length (header_bytes len c r n) = 20%nat.
Proof. unfold header_bytes. by rewrite !length_app, !length_cpu_bytes. Qed.

(** The fields of an image, read back. *)
Lemma header_field `{Arch} (pre : list Z) len c r n rest k v :
  0 <= v < 2 ^ 32 ->
  In (k, v) [(0, NVRAM_MAGIC); (4, len); (8, c); (12, r); (16, n)] ->
  cpu_field (pre ++ header_bytes len c r n ++ rest) (Z.of_nat (length pre) + k) 4 = v.
Proof.
  intros Hv Hin.
  assert (0 <= k) by (destruct Hin as [E|[E|[E|[E|[E|[]]]]]]; injection E as <- <-; lia).
  rewrite cpu_field_tail by lia. unfold header_bytes.
  replace (Z.of_nat (length pre) + k - Z.of_nat (length pre)) with k by lia. rewrite <- !app_assoc.
  destruct Hin as [E|[E|[E|[E|[E|[]]]]]]; injection E as <- <-;
    repeat (rewrite cpu_field_tail by (rewrite length_cpu_bytes; lia); rewrite length_cpu_bytes;
            cbn -[cpu_field cpu_bytes]);
    by apply cpu_field_head.
Qed.

Lemma roundup_range x : 0 <= x -> x <= NVRAM_ROUNDUP x 4 <= x + 3.
Proof.
  intros Hx. unfold NVRAM_ROUNDUP. rewrite Z.quot_div_nonneg by lia.
  pose proof (Z.div_mod (x + (4 - 1)) 4 ltac:(lia)). pose proof (Z.mod_pos_bound (x + (4 - 1)) 4 ltac:(lia)). lia.
Qed.

Lemma rem4_range x : -3 <= Z.rem x 4 <= 3.
Proof. pose proof (Z.rem_bound_abs x 4 ltac:(lia)). lia. Qed.

Section commit.
Context `{A : Arch} `{!ArchLaws A} `{Ch : Char} {K : Type} `{Mem : NvMem K} `{!MemGranted}.
Implicit Types (s : lib K) (vs : gmap (list Z) (list Z)).

Lemma wp_header_words vs s :
  holds (l_h s) vs -> wp header_words (fun w s' => s' = s /\ w = words_of vs) s.
Proof.
  intros Hh. unfold header_words.
  do 4 (apply wp_bind; eapply wp_mono; [by eapply wp_nvram_get|]; intros ? ? [-> ->]).
  unfold words_of.
  destruct (vs !! str_sdram_init), (vs !! str_sdram_config), (vs !! str_sdram_refresh), (vs !! str_sdram_ncdl);
    by apply wp_ret.
Qed.

(** The state with other bytes in the mapping. *)
Definition with_mmap (b : list Z) s : lib K := mk_lib (l_part_size s) (set_mmap b (l_h s)) (l_k s).

Lemma wp_finish_data off l r s :
  nv_mmap (l_h s) = l ++ r -> 8 <= Z.of_nat (length r) ->
  wp (finish_data off (Z.of_nat (length l))) (fun len s' =>
    len = u32 (NVRAM_ROUNDUP (Z.of_nat (length l) + 2 - off) 4) /\
    exists rest, s' = with_mmap (l ++ 0 :: rest) s /\ S (length rest) = length r) s.
Proof.
  intros Hb Hr. destruct r as [|x r]; [cbn in Hr; lia|]. cbn [length] in Hr. unfold finish_data.
  apply wp_bind. apply (wp_mem_put _ _ l [x] r); [done|done|done|].
  cbv zeta. apply wp_bind, wp_gets. cbn [l_h nv_addr set_mmap].
  pose proof (rem4_range (i32 (nv_addr (l_h s) + (Z.of_nat (length l) + 1)))) as Hrem. revert Hrem.
  generalize (Z.rem (i32 (nv_addr (l_h s) + (Z.of_nat (length l) + 1))) 4). intros rem Hrem.
  apply wp_bind. apply wp_mono with (Q := fun _ s' => exists rest, s' = with_mmap (l ++ 0 :: rest) s /\
    length rest = length r).
  - destruct (Z.eqb_spec rem 0); [apply wp_ret; by exists r|].
    destruct (split_at r (Z.to_nat (4 - rem))) as (old & r' & -> & Hold); [lia|].
    apply (wp_mem_put _ _ (l ++ [0]) old r').
    + cbn. by rewrite <- app_assoc.
    + rewrite length_app. cbn. lia.
    + by rewrite length_replicate.
    + exists (replicate (Z.to_nat (4 - rem)) 0 ++ r'). unfold with_mmap. cbn. rewrite <- app_assoc.
      split; [done|]. by rewrite !length_app, length_replicate, Hold.
  - intros [] s' (rest & -> & Hl). apply wp_ret. split; [do 2 f_equal; lia|].
    exists rest. split; [done|]. cbn. by rewrite Hl.
Qed.

Lemma foldl_insert_pair vs l : foldl insert_pair vs l = list_to_map (rev l) ∪ vs.
Proof.
  revert vs. induction l as [|[n v] l IH]; intros vs; cbn; [by rewrite (left_id_L ∅ (∪))|].
  rewrite IH, list_to_map_app, <- (assoc_L (∪)). f_equal. cbn.
  by rewrite insert_empty, <- insert_union_singleton_l.
Qed.

Lemma read_back h vs : holds h vs -> foldl insert_pair ∅ (tuples h) = vs.
Proof.
  intros Hh. rewrite foldl_insert_pair, (right_id_L ∅ (∪)). rewrite <- (tuples_map _ _ Hh).
  apply list_to_map_proper; [|symmetry; apply Permutation_rev].
  rewrite <- Permutation_rev. apply tuples_nodup, Hh.
Qed.

Lemma text_elem l e : e ∈ l -> strlen e.2 + 1 <= Z.of_nat (length (text l)).
Proof.
  induction l as [|p l IH]; [by intros ?%not_elem_of_nil|]. rewrite length_text_cons. unfold strlen in *.
  intros [->|He]%elem_of_cons; [lia|]. specialize (IH He). lia.
Qed.

Lemma header_vars_crc c r n crc : 0 <= crc < 256 -> header_vars (Z.lor c crc, r, n) = header_vars (c, r, n).
Proof.
  intros Hc. unfold header_vars. rewrite Z.shiftr_lor.
  assert (Z.shiftr crc 16 = 0) as ->; [|by rewrite Z.lor_0_r].
  rewrite Z.shiftr_div_pow2 by lia. apply Z.div_small. lia.
Qed.

Lemma words_of_range vs :
  0 <= (words_of vs).1.1 < 2 ^ 32 /\ 0 <= (words_of vs).1.2 < 2 ^ 32 /\ 0 <= (words_of vs).2 < 2 ^ 32.
Proof.
  unfold words_of.
  destruct (vs !! str_sdram_init), (vs !! str_sdram_config), (vs !! str_sdram_refresh), (vs !! str_sdram_ncdl);
    cbn [fst snd]; (split_and!; try apply u32_range; lia).
Qed.

(** The words of an image, as they are in memory. *)
Lemma image_vars b off l w :
  0 <= w.1.1 < 2 ^ 32 -> 0 <= w.1.2 < 2 ^ 32 -> 0 <= w.2 < 2 ^ 32 -> nvram_image b off l w ->
  header_vars (words_at b off) = header_vars w.
Proof.
  destruct w as [[c r] n]. cbn [fst snd]. intros Hc Hr Hn (pre & len & rest & -> & <- & _ & _).
  set (crc := crc8 _ _). assert (0 <= crc < 256) as Hcrc by (apply crc8_range; by apply crc8_range).
  rewrite <- (header_vars_crc c r n crc) by done. f_equal. unfold words_at.
  assert (0 <= Z.lor c crc < 2 ^ 32).
  { apply lor_width; lia. }
  f_equal; [f_equal|]; (apply header_field; [done|cbn; tauto]).
Qed.

(** The file a mapping belongs to. *)
Definition committed (s s' : lib K) : Prop :=
  nv_fd (l_h s') = nv_fd (l_h s) /\ nv_addr (l_h s') = nv_addr (l_h s) /\
  nv_length (l_h s') = nv_length (l_h s) /\ nv_offset (l_h s') = nv_offset (l_h s) /\
  length (nv_mmap (l_h s')) = length (nv_mmap (l_h s)) /\
  (forall k, k <= nv_offset (l_h s) -> take (Z.to_nat k) (nv_mmap (l_h s')) = take (Z.to_nat k) (nv_mmap (l_h s))) /\
  l_part_size s' = l_part_size s /\
  exists h, nv_mmap h = nv_mmap (l_h s') /\ nv_fd h = nv_fd (l_h s) /\ nv_addr h = nv_addr (l_h s) /\
    mallocs (nv_sync h (l_k s)) (l_k s').

Lemma with_mmap_eta s : with_mmap (nv_mmap (l_h s)) s = s.
Proof. by destruct s as [p [] k]. Qed.

Lemma wp_put_at off bytes l old r b (Q : unit -> lib K -> Prop) s :
  b = l ++ old ++ r -> Z.of_nat (length l) = off -> length bytes = length old ->
  Q tt (with_mmap (l ++ bytes ++ r) s) -> wp (mem_put off bytes) Q (with_mmap b s).
Proof. intros. by eapply (wp_mem_put _ _ l old r). Qed.

(** The header of a mapping, and the data behind it. *)
Lemma split_header (b : list Z) off :
  0 <= off -> off + 20 <= Z.of_nat (length b) ->
  exists pre w0 w1 w2 w3 w4 data, b = pre ++ w0 ++ w1 ++ w2 ++ w3 ++ w4 ++ data /\
    Z.of_nat (length pre) = off /\
    length w0 = 4%nat /\ length w1 = 4%nat /\ length w2 = 4%nat /\ length w3 = 4%nat /\ length w4 = 4%nat.
Proof.
  intros Hoff Hlen.
  destruct (split_at b (Z.to_nat off)) as (pre & b0 & -> & Hp); [lia|]. rewrite length_app in Hlen.
  destruct (split_at b0 4) as (w0 & b1 & -> & H0); [lia|]. rewrite length_app in Hlen.
  destruct (split_at b1 4) as (w1 & b2 & -> & H1); [lia|]. rewrite length_app in Hlen.
  destruct (split_at b2 4) as (w2 & b3 & -> & H2); [lia|]. rewrite length_app in Hlen.
  destruct (split_at b3 4) as (w3 & b4 & -> & H3); [lia|]. rewrite length_app in Hlen.
  destruct (split_at b4 4) as (w4 & data & -> & H4); [lia|].
  exists pre, w0, w1, w2, w3, w4, data. split_and!; try done. lia.
Qed.

Lemma pairs_tuples h : pairs (concat (nvram_hash h)) = tuples h.
Proof. done. Qed.

(** Reading the variables back from an image. *)
Lemma wp_rehash_image l w s :
  let h := l_h s in
  0 <= w.1.1 < 2 ^ 32 -> 0 <= w.1.2 < 2 ^ 32 -> 0 <= w.2 < 2 ^ 32 ->
  nvram_image (nv_mmap h) (nv_offset h) l w -> Forall clean l ->
  nv_length h = Z.of_nat (length (nv_mmap h)) -> nv_length h < 2 ^ 31 ->
  wp _nvram_rehash (fun r s' => r = 0 /\
    holds (l_h s') (foldl insert_pair ∅ l ∪ header_vars w) /\ lib_same s s') s.
Proof.
  intros h H1 H2 H3 Himg Hclean Hlen Hbound. subst h.
  pose proof (image_vars _ _ _ _ H1 H2 H3 Himg) as <-. destruct w as [[c r] n].
  destruct Himg as (pre & len & rest & Eb & Hoff & Hl & Hin).
  set (w := Z.lor c _) in *. rewrite <- Hlen in Hin.
  assert (u32 (nv_length (l_h s) - nv_offset (l_h s)) = nv_length (l_h s) - nv_offset (l_h s)) as Eu
    by (apply u32_small; lia).
  apply (wp_rehash l rest s).
  - done.
  - apply Forall_forall. intros e He. apply text_elem in He. unfold value_fits. rewrite Eu.
    unfold strlen in *. rewrite size_t_small by lia. lia.
  - lia.
  - rewrite Eu. lia.
  - rewrite Eb, app_assoc, drop_app_ge by (rewrite length_app, length_nvram_header; lia).
    rewrite length_app, length_nvram_header.
    by replace (Z.to_nat (nv_offset (l_h s) + 20) - (length pre + 20))%nat with 0%nat by lia.
Qed.

Ltac put l old r :=
  apply wp_bind; apply (wp_put_at _ _ l old r);
  [rewrite <- ?app_assoc; reflexivity
  |rewrite ?length_app, ?length_cpu_bytes; lia
  |rewrite ?length_cpu_bytes, ?length_replicate; lia|];
  rewrite <- ?app_assoc.

Lemma wp_write_tuples hdr data vs s :
  let h := l_h s in
  let size := Z.of_nat (length hdr + length data) in
  holds h vs -> Z.of_nat (length hdr) = nv_offset h + 20 -> 0 <= nv_offset h -> size < 2 ^ 31 ->
  Z.of_nat (length (text (tuples h))) + 2 <= Z.of_nat (length data) ->
  wp (write_tuples (nv_offset h) size) (fun ptr s' =>
    ptr = Z.of_nat (length (hdr ++ text (tuples h))) /\
    exists r, s' = with_mmap (hdr ++ text (tuples h) ++ r) s /\
      (length (text (tuples h)) + length r = length data)%nat) (with_mmap (hdr ++ data) s).
Proof.
  intros h size Hh Hhdr Hoff Hsize Hroom. unfold write_tuples, sizeof_nvram_header.
  rewrite size_t_small by lia. set (fill := replicate _ 0xff).
  assert (length fill = length data) as Hfill by (unfold fill; rewrite length_replicate; lia).
  apply wp_bind. apply (wp_put_at _ _ hdr data []); [by rewrite app_nil_r|done|done|]. rewrite app_nil_r.
  apply wp_bind, wp_gets. cbn [with_mmap l_h nvram_hash set_mmap].
  eapply wp_mono; [apply (wp_put_chains _ _ _ hdr fill)|].
  - intros u (b & Hu & [i Hi]%list_elem_of_lookup)%list_elem_of_concat.
    by apply (proj2 (proj1 Hh) _ _ Hi).
  - done.
  - done.
  - rewrite pairs_tuples. fold h. lia.
  - lia.
  - rewrite pairs_tuples. fold h. intros ptr s' [-> ->]. split; [rewrite length_app; lia|].
    eexists. split; [done|]. rewrite length_drop. lia.
Qed.

Lemma header_tail c r n :
  take (Z.to_nat (sizeof_nvram_header - NVRAM_CRC_START_POSITION))
    (drop (Z.to_nat NVRAM_CRC_START_POSITION)
       (replicate 8 0 ++ cpu_bytes 4 c ++ cpu_bytes 4 r ++ cpu_bytes 4 n)) =
  drop 9 (header_bytes 0 c r n).
Proof.
  unfold NVRAM_CRC_START_POSITION, sizeof_nvram_header, header_bytes.
  rewrite (app_assoc (cpu_bytes 4 NVRAM_MAGIC)). rewrite (drop_app_ge (replicate 8 0)) by (cbn; lia).
  rewrite (drop_app_ge (_ ++ _)) by (rewrite length_app, !length_cpu_bytes; lia).
  rewrite length_app, !length_cpu_bytes, length_replicate. apply take_ge.
  rewrite length_drop, !length_app, !length_cpu_bytes. lia.
Qed.

Lemma wp_seal pre w1 len c r n data s :
  let off := Z.of_nat (length pre) in
  let crc := crc8 (crc8 0xff (drop 9 (header_bytes 0 c r n))) (take (Z.to_nat (len - 20)) data) in
  length w1 = 4%nat -> 20 <= len <= 20 + Z.of_nat (length data) -> len < 2 ^ 32 ->
  wp (seal off len c r n) (fun _ s' => s' = with_mmap (pre ++ header_bytes len (Z.lor c crc) r n ++ data) s)
    (with_mmap (pre ++ cpu_bytes 4 NVRAM_MAGIC ++ w1 ++ cpu_bytes 4 c ++ cpu_bytes 4 r ++ cpu_bytes 4 n ++ data) s).
Proof.
  intros off crc Hw1 Hlen Hmax. unfold seal.
  set (m := cpu_bytes 4 NVRAM_MAGIC). assert (length m = 4%nat) as Hm by apply length_cpu_bytes.
  put (pre ++ m) w1 (cpu_bytes 4 c ++ cpu_bytes 4 r ++ cpu_bytes 4 n ++ data).
  apply wp_bind. eapply wp_intro.
  { apply hndcrc8_run. unfold sizeof_nvram_header, NVRAM_CRC_START_POSITION.
    rewrite length_drop, !length_app, !length_cpu_bytes, length_replicate. lia. }
  apply wp_bind, wp_gets. cbn [with_mmap l_h nv_mmap set_mmap].
  assert (drop (Z.to_nat (off + sizeof_nvram_header))
    (pre ++ m ++ cpu_bytes 4 len ++ cpu_bytes 4 c ++ cpu_bytes 4 r ++ cpu_bytes 4 n ++ data) = data) as ->.
  { replace (Z.to_nat (off + sizeof_nvram_header))
      with (length (pre ++ m ++ cpu_bytes 4 len ++ cpu_bytes 4 c ++ cpu_bytes 4 r ++ cpu_bytes 4 n)).
    2: { unfold sizeof_nvram_header. rewrite !length_app, !length_cpu_bytes. lia. }
    rewrite !(app_assoc _ _ data) || idtac. rewrite <- (drop_app_length (pre ++ m ++ cpu_bytes 4 len ++ cpu_bytes 4 c ++ cpu_bytes 4 r ++ cpu_bytes 4 n) data) at 2.
    by rewrite <- !app_assoc. }
  rewrite u32_small by (unfold sizeof_nvram_header; lia).
  apply wp_bind. eapply wp_intro; [apply hndcrc8_run; unfold sizeof_nvram_header; lia|].
  apply (wp_put_at _ _ (pre ++ m ++ cpu_bytes 4 len) (cpu_bytes 4 c) (cpu_bytes 4 r ++ cpu_bytes 4 n ++ data)).
  - by rewrite <- !app_assoc.
  - rewrite !length_app, length_cpu_bytes. lia.
  - by rewrite !length_cpu_bytes.
  - unfold header_bytes. rewrite <- !app_assoc. subst crc. do 7 f_equal. f_equal. 
    by rewrite header_tail.
Qed.

(** The data area of an image: text, a second zero, and a length that covers both. *)
Lemma wp_write_text {B} hdr data vs (k : Z -> M (lib K) B) (Q : B -> lib K -> Prop) s :
  let h := l_h s in
  let l := tuples h in
  let size := Z.of_nat (length hdr + length data) in
  holds h vs -> Z.of_nat (length hdr) = nv_offset h + 20 -> 0 <= nv_offset h -> size < 2 ^ 31 ->
  Z.of_nat (length (text l)) + 8 <= Z.of_nat (length data) ->
  (forall len rest,
    22 + Z.of_nat (length (text l)) <= len <= 25 + Z.of_nat (length (text l)) ->
    length (text l ++ 0 :: rest) = length data ->
    wp (k len) Q (with_mmap (hdr ++ text l ++ 0 :: rest) s)) ->
  wp (let* ptr := write_tuples (nv_offset h) size in
      let* len := finish_data (nv_offset h) ptr in
      k len) Q (with_mmap (hdr ++ data) s).
Proof.
  intros h l size Hh Hhdr Hoff Hsize Hroom Hk.
  apply wp_bind. eapply wp_mono; [apply (wp_write_tuples hdr data vs s); (done || (fold h l; lia))|].
  fold h l. intros ptr s' (-> & r1 & -> & Hr1).
  apply wp_bind. eapply wp_mono; [apply (wp_finish_data _ (hdr ++ text l) r1)|].
  { cbn. by rewrite app_assoc. } { lia. }
  intros len s' [Hlen (rest & -> & Hrest)].
  replace (with_mmap _ _) with (with_mmap (hdr ++ text l ++ 0 :: rest) s) by (by rewrite <- !app_assoc).
  apply Hk; [|rewrite length_app; cbn; lia].
  pose proof (roundup_range (Z.of_nat (length (text l)) + 22) ltac:(lia)) as Hr.
  rewrite length_app in Hlen.
  replace (_ + 2 - nv_offset h) with (Z.of_nat (length (text l)) + 22) in Hlen by lia.
  rewrite u32_small in Hlen by lia. lia.
Qed.

(** The header of an image without length and checksum. *)
Lemma wp_write_header {B} vs (k : Z * Z * Z -> M (lib K) B) (Q : B -> lib K -> Prop) s :
  let h := l_h s in
  holds h vs -> 0 <= nv_offset h -> nv_offset h + 20 <= Z.of_nat (length (nv_mmap h)) ->
  (forall pre w1 data c r n, words_of vs = (c, r, n) ->
    pre = take (Z.to_nat (nv_offset h)) (nv_mmap h) -> length w1 = 4%nat ->
    Z.of_nat (length data) = Z.of_nat (length (nv_mmap h)) - nv_offset h - 20 ->
    wp (k (c, r, n)) Q (with_mmap ((pre ++ cpu_bytes 4 NVRAM_MAGIC ++ w1 ++ cpu_bytes 4 c ++
      cpu_bytes 4 r ++ cpu_bytes 4 n) ++ data) s)) ->
  wp (do* mem_put (nv_offset h) (cpu_bytes 4 NVRAM_MAGIC) in
      let* (crc_ver_init, config_refresh, config_ncdl) := header_words in
      do* mem_put (nv_offset h + 8) (cpu_bytes 4 crc_ver_init) in
      do* mem_put (nv_offset h + 12) (cpu_bytes 4 config_refresh) in
      do* mem_put (nv_offset h + 16) (cpu_bytes 4 config_ncdl) in
      k (crc_ver_init, config_refresh, config_ncdl)) Q s.
Proof.
  intros h Hh Hoff Hlen Hk.
  destruct (split_header (nv_mmap h) (nv_offset h))
    as (pre & w0 & w1 & w2 & w3 & w4 & data & Eb & Hpre & Hw0 & Hw1 & Hw2 & Hw3 & Hw4); [lia|lia|].
  destruct (words_of vs) as [[c r] n] eqn:Ew.
  rewrite <- (with_mmap_eta s). fold h. rewrite Eb.
  put pre w0 (w1 ++ w2 ++ w3 ++ w4 ++ data). set (w0' := cpu_bytes 4 NVRAM_MAGIC).
  assert (length w0' = 4%nat) as Hw0' by apply length_cpu_bytes.
  apply wp_bind. eapply wp_mono; [by apply (wp_header_words vs)|]. intros w s' [-> ->]. rewrite Ew.
  put (pre ++ w0' ++ w1) w2 (w3 ++ w4 ++ data). put (pre ++ w0' ++ w1 ++ cpu_bytes 4 c) w3 (w4 ++ data).
  put (pre ++ w0' ++ w1 ++ cpu_bytes 4 c ++ cpu_bytes 4 r) w4 data.
  assert (pre = take (Z.to_nat (nv_offset h)) (nv_mmap h)) as Hp.
  { rewrite Eb. replace (Z.to_nat (nv_offset h)) with (length pre) by lia. by rewrite take_app_length. }
  replace (pre ++ _) with ((pre ++ w0' ++ w1 ++ cpu_bytes 4 c ++ cpu_bytes 4 r ++ cpu_bytes 4 n) ++ data)
    by (by rewrite <- !app_assoc).
  apply Hk; [done..|]. rewrite Eb, !length_app. lia.
Qed.

Lemma wp_commit vs s :
  let h := l_h s in
  let l := tuples h in
  holds h vs -> Forall clean l ->
  l_part_size s = Z.of_nat (length (nv_mmap h)) -> nv_length h = l_part_size s -> l_part_size s < 2 ^ 31 ->
  0 <= nv_offset h -> nv_offset h + 20 + Z.of_nat (length (text l)) + 8 <= l_part_size s ->
  wp nvram_commit (fun r s' => r = 0 /\ nvram_image (nv_mmap (l_h s')) (nv_offset h) l (words_of vs) /\
    holds (l_h s') (vs ∪ header_vars (words_of vs)) /\ committed s s') s.
Proof.
  intros h l Hh Hclean Hsize Hlen Hbound Hoff Hroom. subst h.
  pose proof (words_of_range vs) as Hrange. unfold nvram_commit. apply wp_bind, wp_gets, wp_bind, wp_gets.
  apply (wp_write_header vs (fun w => let '(c, r, n) := w in
    let* ptr := write_tuples (nv_offset (l_h s)) (l_part_size s) in
    let* len := finish_data (nv_offset (l_h s)) ptr in
    do* seal (nv_offset (l_h s)) len c r n in do* sync in _nvram_rehash)); [done..|lia|].
  intros pre w1 data c r n Ew Hpre Hw1 Hdata. rewrite Ew in *. destruct Hrange as (Hcr & Hrr & Hnr).
  assert (Z.of_nat (length pre) = nv_offset (l_h s)) as Hoff' by (rewrite Hpre, length_take; lia).
  set (hdr := pre ++ _). assert (Z.of_nat (length hdr) = nv_offset (l_h s) + 20) as Hhdr.
  { unfold hdr. rewrite !length_app, !length_cpu_bytes. lia. }
  replace (l_part_size s) with (Z.of_nat (length hdr + length data)) by lia.
  apply (wp_write_text hdr data vs (fun len => do* seal (nv_offset (l_h s)) len c r n in do* sync in _nvram_rehash));
    [done|done|done|lia|fold l; lia|].
  fold l. intros len rest Hl Hrest.
  pose proof (wp_seal pre w1 len c r n (text l ++ 0 :: rest) s Hw1) as Hseal. cbv zeta in Hseal.
  rewrite Hoff' in Hseal. unfold hdr. rewrite <- !app_assoc.
  apply wp_bind. eapply wp_mono; [apply Hseal; lia|]. clear Hseal hdr Hhdr. intros [] s' ->.
  set (crc := crc8 _ _). set (b := pre ++ header_bytes len (Z.lor c crc) r n ++ text l ++ 0 :: rest).
  assert (length b = length (nv_mmap (l_h s))) as Hb.
  { unfold b. rewrite !length_app, length_nvram_header in *. lia. }
  assert (nvram_image b (nv_offset (l_h s)) l (c, r, n)) as Himg.
  { exists pre, len, rest. split_and!; [done|done|lia|lia|]. rewrite Hb. lia. }
  apply wp_bind, wp_modify. set (s3 := mk_lib _ _ _).
  eapply wp_mono; [apply (wp_rehash_image l (c, r, n) s3); try done; cbn; lia|].
  intros r0 s' (-> & Hh' & (E1 & E2 & E3 & E4 & E5) & Ep & Hk).
  cbn in E1, E2, E3, E4, E5, Ep. unfold committed. rewrite E3. split_and!; try done.
  - unfold l in Hh'. by rewrite (read_back _ _ Hh) in Hh'.
  - intros k Hkoff. unfold b. rewrite take_app_le, Hpre, take_take by lia. f_equal. lia.
  - exists (set_mmap b (l_h s)). by split_and!.
Qed.
End commit.
