(* ===== verification/NvramKeepSpec.v ===== *)
(** The commands of the NVRAM tool that only read: they change no file and no device. *)

From stdpp Require Import base list numbers strings relations.
From Stdlib Require Import ZArith Lia.
From S2P Require Import Prelude Platform CStrings NvramLib NvramCli.
Local Open Scope Z_scope.
Local Open Scope cprog_scope.

(** The contents of the files of a machine, and the private mappings by their address. *)
Class NvView (K : Type) := {
  nv_files : K -> string -> option (list Z);
  nv_private : Z -> K -> Prop
}.

(** Nothing is written, and private mappings stay private. *)
Definition quiet `{NvView K} : relation K := fun k k' =>
  nv_files k' = nv_files k /\ forall a, nv_private a k -> nv_private a k'.

#[export] Instance quiet_preorder `{NvView K} : PreOrder quiet.
Proof.
  split; [by intros k|]. intros k1 k2 k3 (E1 & H1) (E2 & H2). split; [by rewrite E2, E1|eauto].
Qed.

(** Which system calls write: opening for writing, writing, removing, and giving back a
    shared mapping. *)
Class NvKeepLaws (K : Type) `{O : NvOs K} `{V : NvView K} := {
  keep_malloc n k : quiet k (nv_malloc (NvMem := nv_mem) n k).2;
  keep_stat path k : quiet k (nv_stat path k).2;
  keep_open path mode k :
    mode = O_RDONLY \/ mode = O_RDWR -> quiet k (nv_open path mode k).2;
  keep_close fd k : quiet k (nv_close fd k);
  keep_mmap fd size mode k : quiet k (nv_mmap_fd fd size mode k).2;
  mmap_private fd size k addr mem k' :
    nv_mmap_fd fd size NVRAM_RO k = (Some (addr, mem), k') -> nv_private addr k';
  munmap_private h k : nv_private (nv_addr h) k -> nv_files (nv_munmap h k) = nv_files k
}.

Section keep.
Context `{A : Arch} `{Ch : Char} {K : Type} `{L : NvKeepLaws K}.
#[local] Existing Instance nv_mem.

(** * The library *)

(** The library asks for memory and leaves the mapping where it is. *)
Definition lib_quiet : relation (lib K) := fun s s' =>
  quiet (l_k s) (l_k s') /\ nv_addr (l_h s') = nv_addr (l_h s).

#[local] Instance lib_quiet_preorder : PreOrder lib_quiet.
Proof.
  split; [by intros s|]. intros s1 s2 s3 (Q1 & E1) (Q2 & E2). split; [by etrans|congruence].
Qed.

Lemma within_handle {B} (f : nvram_handle -> B) : within lib_quiet (handle f).
Proof. unfold handle. within. Qed.
Lemma within_upd f : (forall h, nv_addr (f h) = nv_addr h) -> within lib_quiet (upd f).
Proof. intros Hf. apply within_modify. intros s. by split; [|apply Hf]. Qed.
Lemma within_malloc n : within lib_quiet (malloc n).
Proof.
  intros s b s'. unfold malloc. pose proof (keep_malloc n (l_k s)) as Hq.
  destruct (nv_malloc n (l_k s)) as [ok k]. intros E. by injection E as <- <-.
Qed.
Hint Resolve within_handle within_malloc : within.
Hint Extern 2 (within lib_quiet (upd _)) => apply within_upd; reflexivity : within.

Lemma within_get_bucket i : within lib_quiet (get_bucket i).
Proof. unfold get_bucket. within. Qed.
Lemma within_put_bucket i b : within lib_quiet (put_bucket i b).
Proof. unfold put_bucket. within. Qed.
Hint Resolve within_get_bucket within_put_bucket : within.

Lemma within_free : within lib_quiet _nvram_free.
Proof. unfold _nvram_free. within. Qed.
Lemma within_get name : within lib_quiet (nvram_get name).
Proof. unfold nvram_get. within. Qed.
Lemma within_realloc t name value : within lib_quiet (_nvram_realloc t name value).
Proof. unfold _nvram_realloc. within. Qed.
Hint Resolve within_free within_get within_realloc : within.
Lemma within_set name value : within lib_quiet (nvram_set name value).
Proof. unfold nvram_set. within. Qed.
Lemma within_unset name : within lib_quiet (nvram_unset name).
Proof. unfold nvram_unset. within. Qed.
Lemma within_getall_chain b l : within lib_quiet (getall_chain b l).
Proof. revert l. induction b as [|t b IH]; intros l; cbn [getall_chain]; within. Qed.
Hint Resolve within_set within_unset within_getall_chain : within.
Lemma within_getall : within lib_quiet nvram_getall.
Proof.
  unfold nvram_getall. within. generalize (@nil nvram_tuple). induction a as [|b t IH]; intros l; cbn [getall_chains]; within.
Qed.
Lemma within_mem_get off len : within lib_quiet (mem_get off len).
Proof. unfold mem_get. within. Qed.
Hint Resolve within_getall within_mem_get : within.
Lemma within_rehash : within lib_quiet _nvram_rehash.
Proof. unfold _nvram_rehash, parse_step, set_missing. within. Qed.
Lemma within_crc l n crc : within lib_quiet (hndcrc8 l n crc).
Proof. revert l crc. induction n as [|n IH]; intros [|b l] crc; cbn [hndcrc8]; within. Qed.
Hint Resolve within_rehash within_crc : within.
Lemma within_info : within lib_quiet info.
Proof. unfold info. within. Qed.
Hint Resolve within_info : within.

(** * The tool *)

Definition cli_quiet : relation (cli K) := fun c c' => quiet (c_k c) (c_k c').

#[local] Instance cli_quiet_preorder : PreOrder cli_quiet.
Proof. split; [by intros c; unfold cli_quiet|]. intros c1 c2 c3. unfold cli_quiet. by etrans. Qed.

Lemma within_os {B} (f : K -> B * K) : (forall k, quiet k (f k).2) -> within cli_quiet (os f).
Proof.
  intros Hf c b c'. unfold os. specialize (Hf (c_k c)). destruct (f (c_k c)) as [b1 k].
  intros E. by injection E as <- <-.
Qed.
Lemma within_print o : within cli_quiet (print o).
Proof. by apply within_modify. Qed.
Lemma within_set_part_size n : within cli_quiet (set_part_size n).
Proof. by apply within_modify. Qed.
Hint Resolve within_print within_set_part_size : within.
Hint Extern 2 (within cli_quiet (os (nv_malloc _))) => apply within_os; apply keep_malloc : within.
Hint Extern 2 (within cli_quiet (os (nv_stat _))) => apply within_os; apply keep_stat : within.
Hint Extern 2 (within cli_quiet (os (nv_mmap_fd _ _ _))) => apply within_os; apply keep_mmap : within.
Hint Extern 2 (within cli_quiet (os_ (nv_close _))) => apply within_os; intros ?; apply keep_close : within.
Hint Extern 2 (within cli_quiet (os (nv_open _ O_RDWR))) => apply within_os; intros ?; apply keep_open; by right : within.

Lemma within_find_nvram lines part : within cli_quiet (find_nvram lines part).
Proof. revert part. induction lines as [|dev lines IH]; intros part; cbn [find_nvram]; within. Qed.
Hint Resolve within_find_nvram : within.
Lemma within_find_mtd : within cli_quiet nvram_find_mtd.
Proof. unfold nvram_find_mtd. within. Qed.
Lemma within_find_staging : within cli_quiet nvram_find_staging.
Proof. unfold nvram_find_staging. within. Qed.
Lemma within_find_magic size mem : within cli_quiet (find_magic size mem).
Proof. unfold find_magic. within. Qed.
Hint Resolve within_find_mtd within_find_staging within_find_magic : within.

(** A call of the library on a handle gives a handle of the same mapping. *)
Definition same_addr {B} (h : nvram_handle) (m : M (cli K) (B * nvram_handle)) : Prop :=
  forall c r c', m c = Ret r c' -> cli_quiet c c' /\ nv_addr r.2 = nv_addr h.

Lemma on_same {B} h (m : M (lib K) B) : within lib_quiet m -> same_addr h (on h m).
Proof.
  intros Hm c r c'. unfold on. destruct (m _) as [a l| |] eqn:E; try done. intros E'. injection E' as <- <-.
  destruct (Hm _ _ _ E) as [Hq Ha]. done.
Qed.

Lemma same_bind {B C} h (m : M (cli K) (B * nvram_handle)) (k : B * nvram_handle -> M (cli K) (C * nvram_handle)) :
  same_addr h m -> (forall b h', nv_addr h' = nv_addr h -> same_addr h (k (b, h'))) -> same_addr h (bind m k).
Proof.
  intros Hm Hk c r c' ([b h'] & c1 & E1 & E2)%bind_run. destruct (Hm _ _ _ E1) as [Hq1 Ha].
  destruct (Hk b h' Ha _ _ _ E2) as [Hq2 Ha2]. split; [by etrans|done].
Qed.

Lemma same_then {B C} h (m : M (cli K) B) (k : B -> M (cli K) (C * nvram_handle)) :
  within cli_quiet m -> (forall b, same_addr h (k b)) -> same_addr h (bind m k).
Proof.
  intros Hm Hk c r c' (b & c1 & E1 & E2)%bind_run. specialize (Hm _ _ _ E1).
  destruct (Hk b _ _ _ E2) as [Hq2 Ha2]. split; [by etrans|done].
Qed.

Lemma same_ret {B} h (b : B) h' : nv_addr h' = nv_addr h -> same_addr h (ret (b, h')).
Proof. intros Ha c r c' E. by injection E as <- <-. Qed.

Lemma within_show l : within cli_quiet (show_tuples l).
Proof. induction l as [|t l IH]; cbn [show_tuples]; within. Qed.

(** One command on a handle. *)
Lemma command_same h arg var :
  same_addr h (do_show h) /\ same_addr h (do_info h) /\
  same_addr h (if is_arg arg "get" then do_get h var else if is_arg arg "unset" then do_unset h var else do_set h var).
Proof.
  split_and!.
  - apply same_bind; [apply on_same, within_getall|]. intros l h' Ha.
    apply same_then; [apply within_show|]. intros []. by apply same_ret.
  - apply same_bind; [apply on_same, within_info|]. intros o h' Ha.
    apply same_then; [apply within_print|]. intros []. by apply same_ret.
  - destruct (is_arg arg "get"); [|destruct (is_arg arg "unset")].
    + apply same_bind; [apply on_same, within_get|]. intros [v|] h' Ha; [|by apply same_ret].
      apply same_then; [apply within_print|]. intros []. by apply same_ret.
    + apply on_same, within_unset.
    + unfold do_set. destruct (strchr 61 (var ++ [0])) as [[v []]|]; [|by apply same_ret..].
      apply on_same, within_set.
Qed.

Lemma do_args_run argv a c a' c' :
  do_args argv a c = Ret a' c' ->
  cli_quiet c c' /\ nv_addr (a_h a') = nv_addr (a_h a) /\
  (a_commit a' = true -> a_commit a = true \/ In (ascii_bytes "commit") argv).
Proof.
  remember (length argv) as n eqn:Hn. revert argv Hn a c.
  induction n as [n IH] using (well_founded_induction lt_wf). intros [|arg argv] Hn a c; cbn [length] in Hn.
  { intros E. injection E as <- <-. split_and!; [done|done|by left]. }
  assert (forall rest r c1, (length rest < n)%nat ->
    (forall x, In x rest -> In x (arg :: argv)) -> nv_addr r.2 = nv_addr (a_h a) -> cli_quiet c c1 ->
    do_args rest (mk_args_state r.1 (a_done a + 1) (a_commit a) r.2) c1 = Ret a' c' ->
    cli_quiet c c' /\ nv_addr (a_h a') = nv_addr (a_h a) /\
    (a_commit a' = true -> a_commit a = true \/ In (ascii_bytes "commit") (arg :: argv))) as Hnext.
  { intros rest r c1 Hlt Hin Ha Hq E. destruct (IH _ Hlt rest eq_refl _ _ E) as (Hq2 & Ha2 & Hc).
    cbn in Ha2, Hc. split_and!; [by etrans|congruence|]. intros [H|H]%Hc; [by left|right; by apply Hin]. }
  cbn [do_args].
  destruct (is_arg arg "show").
  { intros (r & c1 & E1 & E2)%bind_run. destruct (proj1 (command_same (a_h a) arg arg) _ _ _ E1) as [Hq Ha].
    eapply (Hnext argv r c1); [lia|intros x Hx; by right|done|done|exact E2]. }
  destruct (is_arg arg "info").
  { intros (r & c1 & E1 & E2)%bind_run. destruct (proj1 (proj2 (command_same (a_h a) arg arg)) _ _ _ E1) as [Hq Ha].
    eapply (Hnext argv r c1); [lia|intros x Hx; by right|done|done|exact E2]. }
  destruct (is_arg arg "get" || is_arg arg "unset" || is_arg arg "set").
  { destruct argv as [|var argv]; [intros E; injection E as <- <-; split_and!; [done|done|by left]|].
    intros (r & c1 & E1 & E2)%bind_run.
    destruct (proj2 (proj2 (command_same (a_h a) arg var)) _ _ _ E1) as [Hq Ha]. cbn [length] in Hn.
    eapply (Hnext argv r c1); [lia|intros x Hx; do 2 right; done|done|done|exact E2]. }
  destruct (is_arg arg "commit") eqn:Ec.
  - intros E. assert (length argv < n)%nat as Hlt by lia. destruct (IH _ Hlt argv eq_refl _ _ E) as (Hq & Ha & _).
    split_and!; [done|done|]. intros _. right. left. by apply bool_decide_eq_true in Ec.
  - intros E. injection E as <- <-. split_and!; [done|done|by left].
Qed.

(** * Opening and closing *)

(** The run [E] of a program from the database is quiet. *)
Ltac quiet_run E Hq :=
  match type of E with
  | ?m ?c = Ret _ _ => assert (within cli_quiet m) as Hq by within; specialize (Hq _ _ _ E)
  end.

(** What opening returns: nothing, or a handle of a private mapping; no file has changed. *)
Definition opened (c : cli K) (o : option nvram_handle) (c' : cli K) : Prop :=
  nv_files (c_k c') = nv_files (c_k c) /\ forall h, o = Some h -> nv_private (nv_addr h) (c_k c').

Lemma opened_none c c' : nv_files (c_k c') = nv_files (c_k c) -> opened c None c'.
Proof. done. Qed.
Lemma opened_trans c c1 o c' : nv_files (c_k c1) = nv_files (c_k c) -> opened c1 o c' -> opened c o c'.
Proof. intros Hq [Hq1 Hp]. split; [congruence|done]. Qed.

Lemma munmap_run h c u c' :
  nv_private (nv_addr h) (c_k c) -> os_ (nv_munmap h) c = Ret u c' -> nv_files (c_k c') = nv_files (c_k c).
Proof. intros Hp E. injection E as <- <-. by apply munmap_private. Qed.

Lemma open_mapping_run fd size mode addr mem c o c' :
  nv_private addr (c_k c) -> open_mapping fd size mode addr mem c = Ret o c' -> opened c o c'.
Proof.
  intros Hp (off & c1 & E1 & E)%bind_run. quiet_run E1 Hq1. apply (opened_trans c c1); [apply Hq1|].
  apply Hq1 in Hp. clear E1 Hq1 c. set (h0 := mk_nvram_handle _ _ _ _ _ _ _) in E.
  assert (forall c2, nv_private addr (c_k c2) -> (do* os_ (nv_munmap h0) in ret None) c2 = Ret o c' -> opened c2 o c') as Hunmap.
  { intros c2 Hp2 (u & c3 & E3 & E4)%bind_run. injection E4 as <- <-. apply opened_none. eapply (munmap_run h0); [exact Hp2|exact E3]. }
  destruct off as [off|]; [|by eapply Hunmap].
  apply bind_run in E as (ok & c2 & E2 & E). quiet_run E2 Hq2. apply (opened_trans c1 c2); [apply Hq2|].
  apply Hq2 in Hp. destruct ok; cbn [negb] in E; [|injection E as <- <-; done].
  destruct (in_bounds mem off sizeof_nvram_header); cbn [negb] in E; [|done].
  destruct ((_ =? _) && _); [|by eapply Hunmap].
  apply bind_run in E as ([r h] & c3 & E3 & E). injection E as <- <-.
  destruct (on_same h0 _ within_rehash _ _ _ E3) as [Hq3 Ha]. cbn in Ha.
  split; [apply Hq3|]. intros h' [= <-]. rewrite Ha. by apply Hq3.
Qed.

Lemma close_run fd c o c' :
  (do* os_ (nv_close fd) in ret (A := option nvram_handle) None) c = Ret o c' -> opened c o c'.
Proof. intros (u & c2 & E & E2)%bind_run. injection E2 as <- <-. quiet_run E Hq2. apply opened_none, Hq2. Qed.

Lemma open_path_run path size c o c' :
  (let* fd := os (nv_open path O_RDWR) in
   if fd <=? -1 then do* os_ (nv_close fd) in ret None
   else
     let* area := os (nv_mmap_fd fd size NVRAM_RO) in
     let* h :=
       match area with
       | Some (addr, mem) => open_mapping fd size NVRAM_RO addr mem
       | None => ret None
       end in
     match h with
     | Some h => ret (Some h)
     | None => do* os_ (nv_close fd) in ret None
     end) c = Ret o c' -> opened c o c'.
Proof.
  intros (fd & c1 & E1 & E)%bind_run. quiet_run E1 Hq1. apply (opened_trans c c1); [apply Hq1|].
  destruct (fd <=? -1); [by eapply close_run|].
  apply bind_run in E as (area & c2 & E2 & E). quiet_run E2 Hq2. apply (opened_trans c1 c2); [apply Hq2|].
  apply bind_run in E as (oh & c3 & E3 & E).
  destruct area as [[addr mem]|]; [|injection E3 as <- <-; by eapply close_run].
  assert (nv_private addr (c_k c2)) as Hp.
  { unfold os in E2. destruct (nv_mmap_fd _ _ _ _) as [a k] eqn:Em. injection E2 as -> <-.
    by eapply mmap_private. }
  pose proof (open_mapping_run _ _ _ _ _ _ _ _ Hp E3) as Ho.
  destruct oh as [h|]; [by injection E as <- <-|]. eapply opened_trans; [apply Ho|by eapply close_run].
Qed.

Lemma open_run file c o c' : nvram_open file NVRAM_RO c = Ret o c' -> opened c o c'.
Proof.
  intros (size & c0 & E0 & E)%bind_run. injection E0 as <- <-.
  apply bind_run in E as (mtd & c1 & E1 & E). quiet_run E1 Hq1. apply (opened_trans c c1); [apply Hq1|].
  apply bind_run in E as (size' & c2 & E2 & E). injection E2 as <- <-.
  destruct (_ && _); [injection E as <- <-; split; done|].
  destruct file as [path|], mtd as [path'|]; try done; by eapply open_path_run.
Qed.

Lemma open_rdonly_run c o c' : nvram_open_rdonly c = Ret o c' -> opened c o c'.
Proof.
  intros (st & c1 & E1 & E)%bind_run. quiet_run E1 Hq1. apply (opened_trans c c1); [apply Hq1|].
  apply bind_run in E as (file & c2 & E2 & E). quiet_run E2 Hq2. apply (opened_trans c1 c2); [apply Hq2|].
  destruct file as [path|]; [|injection E as <- <-; split; done]. by eapply open_run.
Qed.

Lemma close_handle_run h c r c' :
  nv_private (nv_addr h) (c_k c) -> nvram_close h c = Ret r c' -> nv_files (c_k c') = nv_files (c_k c).
Proof.
  intros Hp ([u h'] & c1 & E1 & E)%bind_run. destruct (on_same h _ within_free _ _ _ E1) as [Hq1 Ha].
  apply bind_run in E as (u2 & c2 & E2 & E). cbn in Ha.
  apply bind_run in E as (u3 & c3 & E3 & E). quiet_run E3 Hq3. injection E as <- <-.
  rewrite (proj1 Hq3). rewrite <- (proj1 Hq1). eapply munmap_run; [|exact E2]. rewrite Ha. by apply Hq1.
Qed.
End keep.
