(* ===== verification/NvramTheorems.v ===== *)
(** The properties of the NVRAM library: the hash table against finite maps, the
    checksum, and the way of the variables through the flash partition. *)

From stdpp Require Import base list gmap numbers strings.
From Stdlib Require Import ZArith Lia.
From S2P Require Import Prelude Platform Bytes CStrings NvramLib NvramCli NvramSpec NvramFormat NvramCommitSpec NvramKeepSpec.
Local Open Scope Z_scope.
Local Open Scope cprog_scope.

(** * Sequences of calls *)

Inductive nv_op := OpGet (name : list Z) | OpSet (name value : list Z) | OpUnset (name : list Z) | OpGetall.
Inductive nv_res := ResGet (v : option (list Z)) | ResCode (r : Z) | ResAll (l : list nvram_tuple).

Definition nv_call `{Arch} `{Char} {K} `{NvMem K} (o : nv_op) : M (lib K) nv_res :=
  match o with
  | OpGet name => let* v := nvram_get name in ret (ResGet v)
  | OpSet name value => let* r := nvram_set name value in ret (ResCode r)
  | OpUnset name => let* r := nvram_unset name in ret (ResCode r)
  | OpGetall => let* l := nvram_getall in ret (ResAll l)
  end.

Fixpoint nv_calls `{Arch} `{Char} {K} `{NvMem K} (l : list nv_op) : M (lib K) (list nv_res) :=
  match l with
  | [] => ret []
  | o :: l => let* r := nv_call o in let* rs := nv_calls l in ret (r :: rs)
  end.

(** The specification: a finite map, and a bound on the length of values. *)
Inductive map_step (room : Z) (vs : gmap (list Z) (list Z)) : nv_op -> nv_res -> gmap (list Z) (list Z) -> Prop :=
| step_get name : map_step room vs (OpGet name) (ResGet (vs !! name)) vs
| step_set name value :
    strlen value < room -> map_step room vs (OpSet name value) (ResCode 0) (<[name := value]> vs)
| step_set_long name value :
    room <= strlen value -> map_step room vs (OpSet name value) (ResCode (- ENOMEM)) vs
| step_unset name : map_step room vs (OpUnset name) (ResCode 0) (delete name vs)
| step_getall l :
    (fun t => (t_name t, default [] (t_value t))) <$> l ≡ₚ map_to_list vs ->
    (forall t, t ∈ l -> is_Some (t_value t)) -> map_step room vs OpGetall (ResAll l) vs.

Inductive map_steps (room : Z) : gmap (list Z) (list Z) -> list nv_op -> list nv_res -> gmap (list Z) (list Z) -> Prop :=
| steps_nil vs : map_steps room vs [] [] vs
| steps_cons vs vs' vs'' o r l rs :
    map_step room vs o r vs' -> map_steps room vs' l rs vs'' -> map_steps room vs (o :: l) (r :: rs) vs''.

Definition op_size (o : nv_op) : Z := match o with OpSet _ value => strlen value | _ => 0 end.

Section calls.
Context `{A : Arch} `{!ArchLaws A} `{Ch : Char} {K : Type} `{Mem : NvMem K} `{!MemGranted}.
Implicit Types (s : lib K) (vs : gmap (list Z) (list Z)).

Lemma wp_nvram_set_long name value vs s :
  holds (l_h s) vs -> ~ value_fits (l_h s) value ->
  wp (nvram_set name value) (fun r s' => r = - ENOMEM /\ holds (l_h s') vs /\ lib_same s s') s.
Proof.
  intros Hh Hfit. unfold value_fits in Hfit.
  assert (forall t, wp (_nvram_realloc t name value) (fun r s' => r = (false, t) /\ s' = s) s) as Hre.
  { intros t. apply wp_bind, wp_gets, wp_bind, wp_gets.
    destruct (Z.ltb_spec (u32 (nv_length (l_h s) - nv_offset (l_h s))) (size_t (strlen value + 1))); [by apply wp_ret|lia]. }
  unfold nvram_set. apply wp_bind, wp_get_bucket; [apply Hh|]. intros b Hb.
  pose proof (find_tuple_spec name b) as Hf.
  destruct (find_tuple name b) as [[[pre t] post]|] eqn:Ef.
  - apply wp_bind. wp_call Hre. intros [ok u] s' [[= -> ->] ->]. cbn [default id].
    apply wp_bind, wp_modify, wp_ret. destruct Hf as (-> & _).
    assert (set_hash (<[bucket_of name := pre ++ t :: post]> (nvram_hash (l_h s))) (l_h s) = l_h s) as E.
    { rewrite list_insert_id by done. by destruct (l_h s). }
    split; [done|]. unfold lib_same. cbn [l_h l_part_size l_k]. rewrite E. by split_and!.
  - apply wp_bind. wp_call Hre. intros [ok u] s' [[= -> ->] ->]. by apply wp_ret.
Qed.

Lemma wp_nv_call o vs s :
  holds (l_h s) vs -> op_size o < 2 ^ 32 - 1 ->
  wp (nv_call o) (fun r s' => exists vs', map_step (u32 (nv_length (l_h s) - nv_offset (l_h s))) vs o r vs' /\
    holds (l_h s') vs' /\ lib_same s s') s.
Proof.
  intros Hh Hsize. destruct o as [name|name value|name|]; cbn [nv_call op_size] in *; apply wp_bind.
  - eapply wp_mono; [by apply wp_nvram_get|]. intros r s' [-> ->]. apply wp_ret. exists vs.
    split; [constructor|done].
  - assert (value_fits (l_h s) value <-> strlen value < u32 (nv_length (l_h s) - nv_offset (l_h s))) as Hfit.
    { unfold value_fits. rewrite size_t_small by (unfold strlen in *; lia). lia. }
    destruct (decide (strlen value < u32 (nv_length (l_h s) - nv_offset (l_h s)))) as [Hf|Hf].
    + eapply wp_mono; [apply wp_nvram_set; [done|by apply Hfit]|]. intros r s' (-> & Hh' & Hs).
      apply wp_ret. eexists. split; [by constructor|done].
    + eapply wp_mono; [apply wp_nvram_set_long; [done|by rewrite Hfit]|]. intros r s' (-> & Hh' & Hs).
      apply wp_ret. eexists. split; [constructor; lia|done].
  - eapply wp_mono; [by apply wp_nvram_unset|]. intros r s' (-> & Hh' & Hs). apply wp_ret.
    eexists. split; [constructor|done].
  - eapply wp_mono; [by apply wp_nvram_getall|]. intros r s' (Hp & Hv & El & Hs). apply wp_ret.
    exists vs. split; [by constructor|]. rewrite El. done.
Qed.

(** C36: Any sequence of calls of nvram_get, nvram_set, nvram_unset and nvram_getall on a
    hash table that holds a finite map, with memory granted ([MemGranted]), behaves like
    the map: it terminates, every result
    is the one of the map (a value, the code 0, -ENOMEM for a value that is longer than
    the partition, a list of all variables in some order), and the table holds the map the
    calls lead to. *)
Theorem table_refines_map ops vs s :
  holds (l_h s) vs -> Forall (fun o => op_size o < 2 ^ 32 - 1) ops ->
  wp (nv_calls ops) (fun rs s' => exists vs',
    map_steps (u32 (nv_length (l_h s) - nv_offset (l_h s))) vs ops rs vs' /\
    holds (l_h s') vs' /\ same_map (l_h s) (l_h s')) s.
Proof.
  revert vs s. induction ops as [|o ops IH]; intros vs s Hh Hsize.
  { apply wp_ret. exists vs. split; [constructor|done]. }
  apply Forall_cons in Hsize as [Ho Hops]. cbn [nv_calls]. apply wp_bind.
  eapply wp_mono; [by apply wp_nv_call|]. intros r s1 (vs1 & Hstep & Hh1 & (Hm1 & _)).
  apply wp_bind. eapply wp_mono; [by apply (IH vs1)|]. intros rs s2 (vs2 & Hsteps & Hh2 & Hm2).
  apply wp_ret. pose proof Hm1 as (_ & _ & _ & El & Eo). rewrite El, Eo in Hsteps. exists vs2.
  split; [by econstructor|]. split; [done|by eapply same_map_trans].
Qed.
End calls.

(** * The checksum *)

(** hndcrc8 computes the CRC-8 with the reflected polynomial 0xab bit by bit: for
    every start value and bytes, the table-driven loop ends with the value of the shift
    register. *)
Theorem hndcrc8_shift_register {S} pdata nbytes crc (s : S) :
  Forall is_byte pdata -> 0 <= crc < 256 -> (nbytes <= length pdata)%nat ->
  hndcrc8 pdata nbytes crc s =
    Ret (foldl (fun crc b => Nat.iter 8 crc8_bit (Z.lxor crc b)) crc (take nbytes pdata)) s.
Proof.
  intros Hb Hc Hn. rewrite hndcrc8_run by done. f_equal. clear Hn s.
  assert (Forall is_byte (take nbytes pdata)) as Hb' by (by apply Forall_take).
  revert crc Hc. induction Hb' as [|b l Hb1 _ IH]; intros crc Hc; [done|]. cbn [crc8 foldl].
  assert (crc8_step crc b = Nat.iter 8 crc8_bit (Z.lxor crc b)) as E.
  { unfold crc8_step. rewrite list_lookup_total_alt, crc8_table_lookup by apply crc8_index.
    cbn [default id]. f_equal. change 0xff with (Z.ones 8). rewrite Z.land_ones by lia.
    apply Z.mod_small, (lxor_width 8); [lia|done|exact Hb1]. }
  rewrite <- E. apply IH, crc8_step_range.
Qed.

(** * Opening *)

(** The word of the magic number at [off] is the first one. *)
Definition first_magic `{Arch} (b : list Z) (off : Z) : Prop :=
  off mod 4 = 0 /\ 0 <= off <= Z.of_nat (length b) - NVRAM_MIN_SPACE /\
  cpu_field b off 4 = NVRAM_MAGIC /\
  forall i, 0 <= i < off -> i mod 4 = 0 -> cpu_field b i 4 <> NVRAM_MAGIC.

Lemma first_magic_unique `{Arch} b o1 o2 : first_magic b o1 -> first_magic b o2 -> o1 = o2.
Proof.
  intros (A1 & B1 & C1 & D1) (A2 & B2 & C2 & D2).
  destruct (Z.lt_total o1 o2) as [Hlt|[E|Hlt]]; [|done|].
  - by destruct (D2 o1 ltac:(lia) A1).
  - by destruct (D1 o2 ltac:(lia) A2).
Qed.

Section opening.
Context `{A : Arch} `{!ArchLaws A} `{Ch : Char} {K : Type} `{Os : NvOs K}.
Context `{Hgranted : !MemGranted (Mem := nv_mem)}.
Implicit Types (c : cli K) (vs : gmap (list Z) (list Z)).

Lemma wp_on {B} h (m : M (lib K) B) (Q : B * nvram_handle -> cli K -> Prop) c :
  wp m (fun a s => Q (a, l_h s) (mk_cli (c_part_size c) (c_out c) (l_k s)))
    (mk_lib (c_part_size c) h (c_k c)) -> wp (on h m) Q c.
Proof. unfold wp, on. by destruct (m _). Qed.

(** The search: a position exactly when there is a magic number far enough from the end. *)
Lemma wp_find_magic b c :
  NVRAM_MIN_SPACE <= Z.of_nat (length b) < 2 ^ 31 ->
  wp (find_magic (Z.of_nat (length b)) b) (fun r c' => c' = c /\
    match r with
    | Some off => first_magic b off
    | None => forall off, ~ first_magic b off
    end) c.
Proof.
  unfold NVRAM_MIN_SPACE. intros Hlen. unfold find_magic.
  apply (wp_loop (fun i c' => c' = c /\ 0 <= i /\ forall j, 0 <= j < i * 4 -> j mod 4 = 0 -> cpu_field b j 4 <> NVRAM_MAGIC)
    (fun i _ => Z.to_nat (Z.of_nat (length b) - i))).
  2: { split_and!; [done|done|lia]. }
  2: { lia. }
  intros i c' (-> & Hi & Hno). unfold NVRAM_MIN_SPACE. rewrite size_t_small by lia.
  pose proof (Z.div_mod (Z.of_nat (length b) - 0x8000) 4 ltac:(lia)).
  pose proof (Z.mod_pos_bound (Z.of_nat (length b) - 0x8000) 4 ltac:(lia)).
  assert (i * 4 mod 4 = 0) as Hmod by (apply Z.mod_mul; lia).
  destruct (Z.leb_spec i ((Z.of_nat (length b) - 0x8000) / 4)) as [Hle|Hgt].
  - rewrite in_bounds_true by lia. destruct (Z.eqb_spec (cpu_field b (i * 4) 4) NVRAM_MAGIC) as [E|Hne]; apply wp_ret.
    + split; [done|]. split_and!; try done; unfold NVRAM_MIN_SPACE; lia.
    + split; [|lia]. split_and!; [done|lia|]. intros j Hj Hj4.
      destruct (Z.eq_dec j (i * 4)) as [->|]; [done|]. apply Hno; [|done].
      pose proof (Z.div_mod j 4 ltac:(lia)). lia.
  - apply wp_ret. split; [done|]. intros off (Hmod4 & Hr & Hmagic & _). unfold NVRAM_MIN_SPACE in *.
    eapply (Hno off); [|done|done]. pose proof (Z.div_mod off 4 ltac:(lia)). lia.
Qed.

Lemma wp_os_malloc n (Q : bool -> cli K -> Prop) c :
  (forall k, Q true (mk_cli (c_part_size c) (c_out c) k)) -> wp (os (nv_malloc n)) Q c.
Proof.
  intros HQ. unfold wp, os. pose proof (granted n (c_k c)) as Hg.
  destruct (nv_malloc n (c_k c)) as [ok k]. cbn in Hg. subst ok. apply HQ.
Qed.

(** Reading the partition a commit has written. *)
Lemma wp_open_image fd addr mode b off l w c :
  0 <= w.1.1 < 2 ^ 32 -> 0 <= w.1.2 < 2 ^ 32 -> 0 <= w.2 < 2 ^ 32 ->
  nvram_image b off l w -> first_magic b off -> Forall clean l -> Z.of_nat (length b) < 2 ^ 31 ->
  wp (open_mapping fd (Z.of_nat (length b)) mode addr b) (fun r _ => exists h, r = Some h /\
    holds h (foldl insert_pair ∅ l ∪ header_vars w) /\
    nv_fd h = fd /\ nv_addr h = addr /\ nv_mmap h = b /\ nv_length h = Z.of_nat (length b) /\ nv_offset h = off) c.
Proof.
  intros H1 H2 H3 Himg Hfirst Hclean Hlen. pose proof Hfirst as (_ & Hoff & Hmagic & _).
  unfold open_mapping. apply wp_bind.
  eapply wp_mono; [apply wp_find_magic; unfold NVRAM_MIN_SPACE in *; lia|].
  intros [off'|] c' [-> Hr]; [|by destruct (Hr off)].
  apply (first_magic_unique _ _ _ Hr) in Hfirst. subst off'. clear Hr.
  apply wp_bind, wp_os_malloc. intros k. cbn [negb default id].
  unfold NVRAM_MIN_SPACE, sizeof_nvram_header in *.
  rewrite (u32_small (Z.of_nat (length b))), (u32_small off) by lia.
  rewrite in_bounds_true by lia. cbn [negb]. rewrite Hmagic, Z.eqb_refl. cbn [andb nv_length nv_offset].
  assert ((cpu_field b (off + 4) 4 <? u32 (Z.of_nat (length b) - off)) = true) as ->.
  { rewrite u32_small by lia. apply Z.ltb_lt. destruct w as [[cr rr] nr].
    destruct Himg as (pre & len & rest & -> & <- & Hl & Hin).
    rewrite (header_field pre len _ rr nr _ 4 len); [done| |cbn; tauto]. lia. }
  rewrite orb_true_r. apply wp_bind, wp_on.
  eapply wp_mono; [apply (wp_rehash_image l w); done|].
  intros r s' (_ & Hh & Hs). apply wp_ret. destruct (proj1 Hs) as (E1 & E2 & E3 & E4 & E5).
  eexists. split; [done|]. by split_and!.
Qed.

(** C35: Committing variables and opening the partition again gives them back.  If the
    table holds a map, its names and values are free of separators, they fit with eight
    bytes to spare, and memory is granted ([MemGranted]), then
    nvram_commit returns 0, writes the mapping back, changes no byte in front of the
    header, and leaves an image with the magic number, the length and a checksum over
    header and data; opening the mapping again, for reading or for writing, finds a handle
    that holds the same variables, and the four SDRAM variables of the header where the
    map does not set them. *)
Theorem commit_reopen fd addr mode vs (s : lib K) c :
  let h := l_h s in
  holds h vs -> Forall clean (tuples h) ->
  l_part_size s = Z.of_nat (length (nv_mmap h)) -> nv_length h = l_part_size s -> l_part_size s < 2 ^ 31 ->
  nv_offset h + 20 + Z.of_nat (length (text (tuples h))) + 8 <= l_part_size s ->
  first_magic (nv_mmap h) (nv_offset h) ->
  wp nvram_commit (fun r s' => r = 0 /\ committed s s' /\
    nvram_image (nv_mmap (l_h s')) (nv_offset h) (tuples h) (words_of vs) /\
    wp (open_mapping fd (l_part_size s) mode addr (nv_mmap (l_h s'))) (fun o _ => exists h', o = Some h' /\
      holds h' (vs ∪ header_vars (words_of vs)) /\ nv_fd h' = fd /\ nv_addr h' = addr) c) s.
Proof.
  intros h Hh Hclean Hsize Hlen Hbound Hroom Hfirst. pose proof Hfirst as (Hm4 & Hoff & _ & Hno).
  eapply wp_mono; [apply (wp_commit vs); (done || (fold h; lia))|]. cbv zeta. fold h.
  intros r s' (-> & Himg & Hh' & Hc). split_and!; [done..|].
  destruct Hc as (_ & _ & _ & _ & El & Hpre & _). fold h in El, Hpre.
  assert (first_magic (nv_mmap (l_h s')) (nv_offset h)) as Hf.
  { split_and!; [done|lia|rewrite El; lia| |].
    - destruct (words_of vs) as [[cr rr] nr]. destruct Himg as (pre & len & rest & -> & <- & _).
      rewrite <- (Z.add_0_r (Z.of_nat (length pre))). apply header_field; [done|cbn; tauto].
    - intros i Hi Hi4. specialize (Hno i Hi Hi4). pose proof (Z.div_mod i 4 ltac:(lia)).
      pose proof (Z.div_mod (nv_offset h) 4 ltac:(lia)).
      rewrite <- (cpu_field_take _ (nv_offset h)), Hpre, cpu_field_take by lia. done. }
  replace (l_part_size s) with (Z.of_nat (length (nv_mmap (l_h s')))) by lia.
  pose proof (words_of_range vs) as (? & ? & ?).
  eapply wp_mono; [apply (wp_open_image _ _ _ _ (nv_offset h) (tuples h) (words_of vs)); (done || lia)|].
  intros o c' (h' & -> & Hhh & E1 & E2 & _). exists h'. rewrite (read_back h vs Hh) in Hhh. done.
Qed.
End opening.

(** * The info command *)

Section info.
Context `{A : Arch} `{!ArchLaws A} `{Ch : Char} {K : Type} `{Mem : NvMem K} `{!MemGranted}.
Implicit Types (s : lib K) (vs : gmap (list Z) (list Z)).

(** On a little-endian machine the checksum is the first byte of the third word, which
    the sum over the header leaves out. *)
Lemma header_tail_crc len c r n crc :
  big_endian = false -> 0 <= crc < 256 -> 0 <= c ->
  drop 9 (header_bytes len (Z.lor c crc) r n) = drop 9 (header_bytes 0 c r n).
Proof.
  intros He Hcrc Hc. unfold header_bytes.
  assert (forall v rest, drop 9 (cpu_bytes 4 NVRAM_MAGIC ++ cpu_bytes 4 v ++ rest) = drop 1 rest) as Hd.
  { intros v rest. rewrite app_assoc, drop_app_ge by (rewrite length_app, !length_cpu_bytes; lia).
    by rewrite length_app, !length_cpu_bytes. }
  rewrite !Hd. unfold cpu_bytes. rewrite He. cbn [le_bytes app drop].
  assert (Z.lor c crc / 256 = c / 256) as ->; [|done].
  change 256 with (2 ^ 8). rewrite <- !Z.shiftr_div_pow2, Z.shiftr_lor by lia.
  rewrite (Z.shiftr_div_pow2 crc), Z.div_small by lia. apply Z.lor_0_r.
Qed.

(** The low half of the third word: the version, and no checksum yet. *)
Lemma version_word vs : Z.land (words_of vs).1.1 0xffff = 0x100.
Proof.
  assert (forall v, Z.land (u32 (Z.lor (Z.shiftl NVRAM_VERSION 8) (Z.shiftl v 16))) 0xffff = 0x100) as Hv.
  { intros v. change 0xffff with (Z.ones 16). apply Z.bits_inj'. intros i Hi.
    rewrite Z.land_spec. unfold u32. destruct (Z.ltb_spec i 16).
    - rewrite Z.mod_pow2_bits_low, Z.lor_spec, (Z.shiftl_spec_low v), Z.ones_spec_low by lia.
      by rewrite orb_false_r, andb_true_r.
    - rewrite Z.ones_spec_high, andb_false_r by lia. symmetry. apply Z.bits_above_log2; [lia|]. change (Z.log2 0x100) with 8. lia. }
  unfold words_of.
  destruct (vs !! str_sdram_init), (vs !! str_sdram_config), (vs !! str_sdram_refresh), (vs !! str_sdram_ncdl);
    apply Hv.
Qed.

Lemma crc_word c crc :
  Z.land c 0xffff = 0x100 -> 0 <= crc < 256 ->
  Z.land (Z.lor c crc) 0xff = crc /\ Z.land (Z.shiftr (Z.lor c crc) 8) 0xff = NVRAM_VERSION.
Proof.
  intros Hc Hcrc. assert (Z.land c 0xff = 0) as Hlow.
  { change 0xff with (Z.land 0xffff 0xff). by rewrite Z.land_assoc, Hc. }
  split.
  - rewrite Z.land_lor_distr_l, Hlow, Z.lor_0_l. change 0xff with (Z.ones 8).
    rewrite Z.land_ones by lia. apply Z.mod_small. lia.
  - rewrite Z.shiftr_lor, (Z.shiftr_div_pow2 crc), (Z.div_small crc), Z.lor_0_r by lia.
    change 0xff with (Z.shiftr 0xffff 8). by rewrite <- Z.shiftr_land, Hc.
Qed.

(** The command on an image. *)
Lemma wp_info_image l w s :
  let h := l_h s in
  big_endian = false ->
  0 <= w.1.1 < 2 ^ 32 -> 0 <= w.1.2 < 2 ^ 32 -> 0 <= w.2 < 2 ^ 32 -> Z.land w.1.1 0xffff = 0x100 ->
  nvram_image (nv_mmap h) (nv_offset h) l w -> 0 <= nv_offset h -> Z.of_nat (length (nv_mmap h)) < 2 ^ 31 ->
  wp info (fun o _ => exists len crc init config refresh ncdl used available,
    o = Info NVRAM_MAGIC len (nv_offset h) crc crc NVRAM_VERSION init config refresh ncdl used available /\
    22 + Z.of_nat (length (text l)) <= len <= 25 + Z.of_nat (length (text l))) s.
Proof.
  intros h He. destruct w as [[c rr] n]. cbn [fst snd]. intros Hcr Hrr Hnr Hver Himg Hoff Hbound.
  destruct Himg as (pre & len & rest & Eb & Hpre & Hl & Hin). set (data := text _ ++ _) in *.
  set (crc := crc8 _ (take _ data)) in *.
  assert (0 <= crc < 256) as Hcrc by (apply crc8_range; by apply crc8_range).
  assert (0 <= Z.lor c crc < 2 ^ 32) as Hw by (apply lor_width; lia).
  assert (forall k v, 0 <= v < 2 ^ 32 ->
    In (k, v) [(0, NVRAM_MAGIC); (4, len); (8, Z.lor c crc); (12, rr); (16, n)] ->
    cpu_field (nv_mmap h) (nv_offset h + k) 4 = v) as Hfield.
  { intros k v Hv Hkv. rewrite Eb, <- Hpre. by apply header_field. }
  pose proof (Hfield 0 NVRAM_MAGIC ltac:(done) ltac:(cbn; tauto)) as Hmagic. rewrite Z.add_0_r in Hmagic.
  unfold info. apply wp_bind, wp_gets, wp_bind, wp_gets.
  do 5 (apply wp_bind, wp_mem_get; [fold h; lia|lia|fold h; lia|]). fold h. rewrite Hmagic.
  rewrite (Hfield 4 len), (Hfield 8 (Z.lor c crc)), (Hfield 12 rr), (Hfield 16 n) by (lia || (cbn; tauto)).
  apply wp_bind, wp_gets. fold h. unfold NVRAM_CRC_START_POSITION. rewrite u32_small by lia.
  assert (drop (Z.to_nat (nv_offset h + 9)) (nv_mmap h) = drop 9 (header_bytes len (Z.lor c crc) rr n) ++ data) as Ed.
  { rewrite Eb. replace (Z.to_nat (nv_offset h + 9)) with (length pre + 9)%nat by lia.
    rewrite drop_app_add, drop_app_le by (rewrite length_nvram_header; lia). done. }
  assert (length (nv_mmap h) = (length pre + (20 + length data))%nat) as Elen.
  { rewrite Eb, !length_app, length_nvram_header. done. }
  apply wp_bind. eapply wp_intro.
  { apply hndcrc8_run. rewrite Ed, length_app, length_drop, length_nvram_header. lia. }
  apply wp_ret. rewrite Ed. destruct (crc_word c crc Hver Hcrc) as [-> ->].
  rewrite take_app_ge by (rewrite length_drop, length_nvram_header; lia).
  rewrite length_drop, length_nvram_header, crc8_app, header_tail_crc by (done || lia).
  replace (Z.to_nat (len - 9) - (20 - 9))%nat with (Z.to_nat (len - 20)) by lia.
  fold crc. repeat eexists; lia.
Qed.

(** After a commit on a little-endian machine the info command reports the magic
    number, version 1, and a checksum that agrees with the one it calculates over the
    last eleven bytes of the header and the data. *)
Theorem commit_info_agrees vs s :
  let h := l_h s in
  big_endian = false ->
  holds h vs -> Forall clean (tuples h) ->
  l_part_size s = Z.of_nat (length (nv_mmap h)) -> nv_length h = l_part_size s -> l_part_size s < 2 ^ 31 ->
  0 <= nv_offset h -> nv_offset h + 20 + Z.of_nat (length (text (tuples h))) + 8 <= l_part_size s ->
  wp (do* nvram_commit in info) (fun o s' => exists len crc init config refresh ncdl used available,
    o = Info NVRAM_MAGIC len (nv_offset h) crc crc NVRAM_VERSION init config refresh ncdl used available /\
    22 + Z.of_nat (length (text (tuples h))) <= len <= 25 + Z.of_nat (length (text (tuples h)))) s.
Proof.
  intros h He Hh Hclean Hsize Hlen Hbound Hoff Hroom. apply wp_bind.
  eapply wp_mono; [by apply (wp_commit vs)|]. cbv zeta. fold h.
  intros r s' (_ & Himg & _ & (_ & _ & _ & Eo & El & _)). fold h in Eo, El.
  pose proof (words_of_range vs) as (? & ? & ?). rewrite <- Eo in *.
  eapply wp_mono; [apply (wp_info_image (tuples h) (words_of vs)); try done|].
  - apply version_word.
  - rewrite El. lia.
  - done.
Qed.
End info.

(** * Reading commands *)

(** C37: A run of the tool whose first argument is not a command that writes (set or
    unset with an argument, commit) and that has no argument commit leaves the contents
    of all files and devices as they were, whatever the outcome: also later set and unset
    arguments stay in the private mapping. *)
Theorem reading_keeps_files `{Arch} `{Char} {K} `{NvKeepLaws K} argv (c : cli K) r c' :
  writes argv = false -> ~ In (ascii_bytes "commit") argv ->
  NvramCli.main argv c = Ret r c' -> nv_files (c_k c') = nv_files (c_k c).
Proof.
  intros Hw Hcommit. unfold NvramCli.main. rewrite Hw.
  destruct (bool_decide _); [intros E; by injection E as <- <-|].
  intros (o & c1 & E1 & E)%bind_run. destruct (open_rdonly_run _ _ _ E1) as [Ef1 Hp].
  destruct o as [h|]; [|injection E as <- <-; exact Ef1]. specialize (Hp h eq_refl).
  apply bind_run in E as (a & c2 & E2 & E). destruct (do_args_run _ _ _ _ _ E2) as (Hq2 & Ha & Hc).
  apply bind_run in E as ([st h'] & c3 & E3 & E). injection E3 as <- <- <-.
  apply bind_run in E as (u & c4 & E4 & E).
  assert (nv_files (c_k c4) = nv_files (c_k c2)) as Ef4.
  { eapply close_handle_run; [|exact E4]. rewrite Ha. by apply Hq2. }
  destruct (a_commit a) eqn:Ea; [by destruct (Hc eq_refl)|].
  injection E as <- <-. pose proof (proj1 Hq2). congruence.
Qed.
