(* ===== verification/NvramWitness.v ===== *)
(** Runs of the NVRAM tool on a machine with one partition, and uses of the properties
    of [NvramTheorems]. *)

From stdpp Require Import base list gmap numbers strings.
From Stdlib Require Import ZArith Lia.
From S2P Require Import Prelude Platform Bytes CStrings NvramLib NvramCli NvramSpec NvramFormat NvramCommitSpec NvramKeepSpec NvramTheorems.
Local Open Scope Z_scope.
Local Open Scope cprog_scope.

(** * A machine

    Files, open files, and mappings that are written back when they are shared.  It satisfies
    the laws of [NvramKeepSpec]. *)

Record box := mk_box {
  bx_files : gmap string (list Z);
  bx_fds : gmap Z string;
  bx_maps : gmap Z (string * nvram_mode)
}.

Definition set_files (f : gmap string (list Z)) (k : box) : box := mk_box f (bx_fds k) (bx_maps k).

(** A shared mapping goes back to its file. *)
Definition box_sync (h : nvram_handle) (k : box) : box :=
  match bx_maps k !! nv_addr h with
  | Some (path, NVRAM_RW) => set_files (<[path := nv_mmap h]> (bx_files k)) k
  | _ => k
  end.

Definition box_open (path : string) (mode : open_mode) (k : box) : Z * box :=
  let fd := fresh (dom (bx_fds k)) in
  let opened files := (fd, mk_box files (<[fd := path]> (bx_fds k)) (bx_maps k)) in
  match bx_files k !! path, mode with
  | Some _, _ => opened (bx_files k)
  | None, O_WRONLY_CREAT => opened (<[path := []]> (bx_files k))
  | None, _ => (-1, k)
  end.

Definition box_mmap (fd size : Z) (mode : nvram_mode) (k : box) : option (Z * list Z) * box :=
  match bx_fds k !! fd with
  | Some path =>
      match bx_files k !! path with
      | Some b =>
          let addr := fresh (dom (bx_maps k)) in
          (Some (addr, take (Z.to_nat size) b), mk_box (bx_files k) (bx_fds k) (<[addr := (path, mode)]> (bx_maps k)))
      | None => (None, k)
      end
  | None => (None, k)
  end.

Definition box_read (fd n : Z) (k : box) : Z * list Z :=
  let b := match bx_fds k !! fd with
           | Some path => take (Z.to_nat n) (default [] (bx_files k !! path))
           | None => []
           end in
  (Z.of_nat (length b), b).

Definition box_write (fd : Z) (bytes : list Z) (k : box) : Z * box :=
  match bx_fds k !! fd with
  | Some path => (Z.of_nat (length bytes),
                  set_files (<[path := blit (default [] (bx_files k !! path)) 0 bytes]> (bx_files k)) k)
  | None => (-1, k)
  end.

Definition box_mem : NvMem box := {| nv_malloc n k := (true, k); nv_sync := box_sync |}.

(** One partition of 36 KiB, and the staging file when it has been made. *)
#[export] Instance box_os : NvOs box := {|
  nv_mem := box_mem;
  nv_proc_mtd _ := Some ["mtd0: 00020000 00010000 boot"; "mtd4: 00009000 00001000 nvram"];
  nv_stat path k := (match bx_files k !! path with
                     | Some _ => Some (if bool_decide (path = NVRAM_STAGING) then S_IFREG else S_IFBLK)
                     | None => None
                     end, k);
  nv_open := box_open;
  nv_mmap_fd := box_mmap;
  nv_munmap h k := let k := box_sync h k in mk_box (bx_files k) (bx_fds k) (delete (nv_addr h) (bx_maps k));
  nv_close fd k := mk_box (bx_files k) (delete fd (bx_fds k)) (bx_maps k);
  nv_read fd n k := (box_read fd n k, k);
  nv_write := box_write;
  nv_fsync _ k := k;
  nv_unlink path k := (0, set_files (delete path (bx_files k)) k)
|}.

#[export] Existing Instance nv_mem.

#[export] Instance box_granted : MemGranted (Mem := nv_mem).
Proof. done. Qed.

#[export] Instance box_view : NvView box := {|
  nv_files k path := bx_files k !! path;
  nv_private a k := exists path, bx_maps k !! a = Some (path, NVRAM_RO)
|}.

#[export] Instance box_laws : NvKeepLaws box.
Proof.
  assert (forall k, quiet k k) as Hrefl by (intros k; reflexivity). split.
  - done.
  - done.
  - intros path mode k Hmode. cbn. unfold box_open.
    destruct (bx_files k !! path), mode; try (by apply Hrefl); by (destruct Hmode || split).
  - done.
  - intros fd size mode k. cbn. unfold box_mmap. destruct (bx_fds k !! fd) as [path|]; [|done].
    destruct (bx_files k !! path) as [b|]; [|done]. split; [done|]. cbn. intros a [p Ha]. exists p.
    rewrite lookup_insert_ne; [done|]. intros <-.
    apply (is_fresh (dom (bx_maps k))). by apply elem_of_dom_2 in Ha.
  - intros fd size k addr mem k'. cbn. unfold box_mmap. destruct (bx_fds k !! fd) as [path|]; [|done].
    destruct (bx_files k !! path) as [b|]; [|done]. intros E. injection E as <- <- <-. exists path.
    cbn. apply lookup_insert_eq.
  - intros h k [path Ha]. cbn. unfold box_sync. by rewrite Ha.
Qed.

(** A little-endian MIPS router with signed characters. *)
#[local] Instance mipsel : Arch := {| long_bits := 32; big_endian := false |}.
#[local] Instance mipsel_laws : ArchLaws mipsel.
Proof. discriminate. Qed.
#[local] Instance signed_char : Char := true.

(** * Runs *)

Definition run {S A} (m : M S A) (s : S) : S := match m s with Ret _ s' => s' | _ => s end.
Definition returns {S A} (m : M S A) (s : S) : bool := match m s with Ret _ _ => true | _ => false end.

Lemma wp_run {S A} (m : M S A) (P : S -> Prop) s : wp m (fun _ => P) s -> P (run m s).
Proof. unfold wp, run. by destruct (m s). Qed.

Lemma returns_run {S A} (m : M S A) s : returns m s = true -> exists a, m s = Ret a (run m s).
Proof. unfold returns, run. destruct (m s) as [a s'| |]; [by exists a|done..]. Qed.

(** * The partition *)

Definition str := ascii_bytes.
Definition first_text : list Z := text [(str "lan_ipaddr", str "192.168.1.1"); (str "boardtype", str "0x0467")].
Definition partition : list Z :=
  replicate 1024 0 ++ header_bytes 76 0x04190100 0x80400000 0x12345678 ++ first_text ++ replicate 64 0 ++
  replicate (Z.to_nat (0x9000 - 1024 - 20 - 64) - length first_text)%nat 0xff.

Definition machine : box := mk_box {[ "/dev/mtdblock4"%string := partition ]} ∅ ∅.
Definition fresh_cli : cli box := mk_cli 0 [] machine.
Definition args (l : list string) : list (list Z) := map str l.
Definition printed (l : list (list string)) (k : box) : list output :=
  c_out (foldl (fun c argv => run (NvramCli.main (args argv)) (mk_cli 0 (c_out c) (c_k c))) (mk_cli 0 [] k) l).

(** What is set and committed is there afterwards, from another process. *)
Example set_commit_get :
  printed [["get"; "lan_ipaddr"]; ["set"; "lan_ipaddr=10.0.0.1"; "set"; "x=a=b"; "commit"]; ["get"; "lan_ipaddr"];
           ["get"; "x"]; ["get"; "boardtype"]] machine =
    Line <$> [str "192.168.1.1"; str "10.0.0.1"; str "a=b"; str "0x0467"].
Proof. vm_compute. reflexivity. Qed.

(** What a reading command sets is gone afterwards. *)
Example get_set_get :
  printed [["get"; "lan_ipaddr"; "set"; "lan_ipaddr=10.0.0.1"; "get"; "lan_ipaddr"]; ["get"; "lan_ipaddr"]] machine =
    Line <$> [str "192.168.1.1"; str "10.0.0.1"; str "192.168.1.1"].
Proof. vm_compute. reflexivity. Qed.

(** * Uses of the properties *)

(** A handle of the partition with two variables in its table. *)
Definition empty_handle : nvram_handle := mk_nvram_handle 3 0x1000 partition 0x9000 1024 [] [].
Definition lib0 : lib box :=
  mk_lib 0x9000 (set_hash (replicate (Z.to_nat hash_size) []) empty_handle) machine.
Definition fill : M (lib box) Z :=
  do* nvram_set (str "lan_ipaddr") (str "10.0.0.1") in nvram_set (str "x") (str "a=b").
Definition lib1 : lib box := run fill lib0.
Definition vars1 : gmap (list Z) (list Z) := {[ str "x" := str "a=b"; str "lan_ipaddr" := str "10.0.0.1" ]}.

Lemma lib1_ok : holds (l_h lib1) vars1 /\ lib_same lib0 lib1.
Proof.
  apply (wp_run fill (fun s => holds (l_h s) vars1 /\ lib_same lib0 s)).
  apply wp_bind. eapply wp_mono; [apply (wp_nvram_set _ _ ∅)|].
  - apply holds_empty.
  - vm_compute. discriminate.
  - intros r s (_ & Hh & Hs). eapply wp_mono; [apply (wp_nvram_set _ _ _ _ Hh)|].
    + eapply value_fits_same; [apply Hs|]. vm_compute. discriminate.
    + intros r2 s2 (_ & Hh2 & Hs2). split; [|by eapply lib_same_trans].
      rewrite insert_empty in Hh2. exact Hh2.
Qed.

Opaque lib1 fresh_cli.

Definition first_magicb (b : list Z) (off : Z) : bool :=
  (off mod 4 =? 0) && (0 <=? off) && (off <=? Z.of_nat (length b) - NVRAM_MIN_SPACE) &&
  (cpu_field b off 4 =? NVRAM_MAGIC) &&
  forallb (fun i => negb (cpu_field b i 4 =? NVRAM_MAGIC)) (seqZ 0 off).

Lemma first_magicb_sound b off : first_magicb b off = true -> first_magic b off.
Proof.
  unfold first_magicb. rewrite !andb_true_iff, !Z.eqb_eq, !Z.leb_le, forallb_forall.
  intros ((((? & ?) & ?) & ?) & Hn). split_and!; try done. intros i Hi _.
  specialize (Hn i ltac:(apply list_elem_of_In, elem_of_seqZ; lia)).
  by apply negb_true_iff, Z.eqb_neq in Hn.
Qed.

Definition cleanb (p : list Z * list Z) : bool :=
  negb (existsb (Z.eqb 61) p.1) && negb (existsb (Z.eqb 0) p.1) && negb (existsb (Z.eqb 0) p.2).

Lemma cleanb_sound l : forallb cleanb l = true -> Forall clean l.
Proof.
  rewrite forallb_forall, Forall_forall. intros Hl p Hp. specialize (Hl p (proj1 (list_elem_of_In _ _) Hp)).
  unfold cleanb in Hl. rewrite !andb_true_iff, !negb_true_iff in Hl. destruct Hl as ((H1 & H2) & H3).
  assert (forall c (l : list Z), existsb (Z.eqb c) l = false -> c ∉ l) as Hno.
  { intros c m Hm Hin. apply not_true_iff_false in Hm. apply Hm, existsb_exists. exists c.
    split; [by apply list_elem_of_In|apply Z.eqb_refl]. }
  split_and!; by apply Hno.
Qed.

Definition ops1 : list nv_op :=
  [OpGet (str "x"); OpSet (str "y") (str "1"); OpSet (str "z") (replicate (Z.to_nat 0x9000) 65); OpUnset (str "x"); OpGetall].

Lemma table_refines_map_witness :
  wp (nv_calls ops1) (fun rs s' => exists vs',
    map_steps (u32 (nv_length (l_h lib1) - nv_offset (l_h lib1))) vars1 ops1 rs vs' /\
    holds (l_h s') vs' /\ same_map (l_h lib1) (l_h s')) lib1.
Proof.
  apply (table_refines_map ops1 vars1 lib1); [apply lib1_ok|].
  repeat (apply Forall_cons; split; [vm_compute; reflexivity|]). apply Forall_nil_2.
Defined.

Lemma hndcrc8_shift_register_witness :
  hndcrc8 [1; 2; 3; 4] 3 0xff tt =
    Ret (foldl (fun crc b => Nat.iter 8 crc8_bit (Z.lxor crc b)) 0xff [1; 2; 3]) tt.
Proof.
  apply (hndcrc8_shift_register [1; 2; 3; 4]); [|done|cbn; lia].
  repeat constructor; discriminate.
Defined.

Lemma commit_reopen_witness :
  wp nvram_commit (fun r s' => r = 0 /\ committed lib1 s' /\
    nvram_image (nv_mmap (l_h s')) (nv_offset (l_h lib1)) (tuples (l_h lib1)) (words_of vars1) /\
    wp (open_mapping 5 (l_part_size lib1) NVRAM_RW 0x2000 (nv_mmap (l_h s'))) (fun o _ => exists h', o = Some h' /\
      holds h' (vars1 ∪ header_vars (words_of vars1)) /\ nv_fd h' = 5 /\ nv_addr h' = 0x2000) fresh_cli) lib1.
Proof.
  apply (commit_reopen 5 0x2000 NVRAM_RW vars1 lib1 fresh_cli).
  - apply lib1_ok.
  - apply cleanb_sound. vm_compute. reflexivity.
  - vm_compute. reflexivity.
  - vm_compute. reflexivity.
  - vm_compute. reflexivity.
  - vm_compute. discriminate.
  - apply first_magicb_sound. vm_compute. reflexivity.
Defined.

Lemma commit_info_agrees_witness :
  wp (do* nvram_commit in info) (fun o s' => exists len crc init config refresh ncdl used available,
    o = Info NVRAM_MAGIC len (nv_offset (l_h lib1)) crc crc NVRAM_VERSION init config refresh ncdl used available /\
    22 + Z.of_nat (length (text (tuples (l_h lib1)))) <= len <= 25 + Z.of_nat (length (text (tuples (l_h lib1))))) lib1.
Proof.
  apply (commit_info_agrees vars1 lib1).
  - reflexivity.
  - apply lib1_ok.
  - apply cleanb_sound. vm_compute. reflexivity.
  - vm_compute. reflexivity.
  - vm_compute. reflexivity.
  - vm_compute. reflexivity.
  - vm_compute. discriminate.
  - vm_compute. discriminate.
Defined.

Lemma reading_keeps_files_witness :
  let argv := args ["get"; "lan_ipaddr"; "set"; "lan_ipaddr=10.0.0.1"] in
  exists r, NvramCli.main argv fresh_cli = Ret r (run (NvramCli.main argv) fresh_cli) /\
    nv_files (c_k (run (NvramCli.main argv) fresh_cli)) = nv_files machine.
Proof.
  intros argv. assert (returns (NvramCli.main argv) fresh_cli = true) as Hr by (vm_compute; reflexivity).
  apply returns_run in Hr as [r E]. exists r. split; [exact E|].
  apply (reading_keeps_files argv fresh_cli r _).
  - vm_compute. reflexivity.
  - clear E. intros [E|[E|[E|[E|[]]]]]; vm_compute in E; discriminate E.
  - exact E.
Defined.

(** * What does not fit

    A commit of variables that do not fit into the partition returns 0; the variable that
    was left out is missing in the partition and, after the table has been rebuilt from
    it, also in the process. *)
Definition small : lib box :=
  mk_lib 64 (set_hash (replicate (Z.to_nat hash_size) []) (mk_nvram_handle 3 0x1000 (replicate 64 0) 64 0 [] [])) machine.
Definition overfill : M (lib box) (option (list Z) * Z * option (list Z) * option (list Z)) :=
  do* nvram_set (str "a") (replicate 30 65) in
  do* nvram_set (str "b") (replicate 20 66) in
  let* before := nvram_get (str "b") in
  let* r := nvram_commit in
  let* a := nvram_get (str "a") in
  let* b := nvram_get (str "b") in
  ret (before, r, a, b).

Example commit_drops_variables :
  match overfill small with
  | Ret res _ => res = (Some (replicate 20 66), 0, Some (replicate 30 65), None)
  | _ => False
  end.
Proof. vm_compute. reflexivity. Qed.
