(* ===== verification/ToolMd5.v ===== *)
(** MD5 of the flash tool: [src/package/system/mtd/src/md5.c] and [md5.h], and its
    equivalence with the definition of the digest on whole messages. *)

From stdpp Require Import base list numbers.
From Stdlib Require Import ZArith Lia.
From S2P Require Import Prelude.
Local Open Scope Z_scope.

(** * md5.c

    [UINT4] has 32 bits on all targets.  [F], [G], [H], [I] are the macros of the same
    names; [~x] of a 32-bit word is its exclusive or with all ones. *)
Definition not32 (x : Z) : Z := Z.lxor x 0xffffffff.

Module Ops.
Definition F (x y z : Z) : Z := Z.lor (Z.land x y) (Z.land (not32 x) z).
Definition G (x y z : Z) : Z := Z.lor (Z.land x z) (Z.land y (not32 z)).
Definition H (x y z : Z) : Z := Z.lxor (Z.lxor x y) z.
Definition I (x y z : Z) : Z := Z.lxor y (Z.lor x (not32 z)).

End Ops.

Definition ROTATE_LEFT (x n : Z) : Z := Z.lor (u32 (Z.shiftl x n)) (Z.shiftr x (32 - n)).

(** The common shape of [FF], [GG], [HH] and [II]: the new value of [a]. *)
Definition md5_step (f : Z -> Z -> Z -> Z) (a b c d x s ac : Z) : Z :=
  u32 (ROTATE_LEFT (u32 (a + (f b c d + x + ac))) s + b).
Definition FF := md5_step Ops.F.
Definition GG := md5_step Ops.G.
Definition HH := md5_step Ops.H.
Definition II := md5_step Ops.I.

Definition S11 : Z := 7.
Definition S12 : Z := 12.
Definition S13 : Z := 17.
Definition S14 : Z := 22.
Definition S21 : Z := 5.
Definition S22 : Z := 9.
Definition S23 : Z := 14.
Definition S24 : Z := 20.
Definition S31 : Z := 4.
Definition S32 : Z := 11.
Definition S33 : Z := 16.
Definition S34 : Z := 23.
Definition S41 : Z := 6.
Definition S42 : Z := 10.
Definition S43 : Z := 15.
Definition S44 : Z := 21.

(** [mdContext->buf], the four words of the digest. *)
Record md5_buf := mk_md5_buf { buf0 : Z; buf1 : Z; buf2 : Z; buf3 : Z }.

(** [MD5_CTX]: the number of bits, the digest so far, the input buffer, the result. *)
Record MD5_CTX := mk_MD5_CTX {
  md_i0 : Z;
  md_i1 : Z;
  md_buf : md5_buf;
  md_in : list Z;
  md_digest : list Z
}.

Definition PADDING : list Z := 0x80 :: replicate 63 0.

(** [Transform(buf, in)].  Its 64 lines come in groups of four, in which [a], [d], [c] and
    [b] are assigned in turn with the macro and the shifts of the round; a group is given
    by the macro, the shifts, the indices into [in] and the constants of its lines. *)
Record md5_row := mk_md5_row {
  row_op : Z -> Z -> Z -> Z -> Z -> Z -> Z -> Z;
  row_shift : Z * Z * Z * Z;
  row_in : nat * nat * nat * nat;
  row_ac : Z * Z * Z * Z
}.

Definition md5_rows : list md5_row := [
  mk_md5_row FF (S11, S12, S13, S14) (0%nat, 1%nat, 2%nat, 3%nat) (3614090360, 3905402710, 606105819, 3250441966);
  mk_md5_row FF (S11, S12, S13, S14) (4%nat, 5%nat, 6%nat, 7%nat) (4118548399, 1200080426, 2821735955, 4249261313);
  mk_md5_row FF (S11, S12, S13, S14) (8%nat, 9%nat, 10%nat, 11%nat) (1770035416, 2336552879, 4294925233, 2304563134);
  mk_md5_row FF (S11, S12, S13, S14) (12%nat, 13%nat, 14%nat, 15%nat) (1804603682, 4254626195, 2792965006, 1236535329);
  mk_md5_row GG (S21, S22, S23, S24) (1%nat, 6%nat, 11%nat, 0%nat) (4129170786, 3225465664, 643717713, 3921069994);
  mk_md5_row GG (S21, S22, S23, S24) (5%nat, 10%nat, 15%nat, 4%nat) (3593408605, 38016083, 3634488961, 3889429448);
  mk_md5_row GG (S21, S22, S23, S24) (9%nat, 14%nat, 3%nat, 8%nat) (568446438, 3275163606, 4107603335, 1163531501);
  mk_md5_row GG (S21, S22, S23, S24) (13%nat, 2%nat, 7%nat, 12%nat) (2850285829, 4243563512, 1735328473, 2368359562);
  mk_md5_row HH (S31, S32, S33, S34) (5%nat, 8%nat, 11%nat, 14%nat) (4294588738, 2272392833, 1839030562, 4259657740);
  mk_md5_row HH (S31, S32, S33, S34) (1%nat, 4%nat, 7%nat, 10%nat) (2763975236, 1272893353, 4139469664, 3200236656);
  mk_md5_row HH (S31, S32, S33, S34) (13%nat, 0%nat, 3%nat, 6%nat) (681279174, 3936430074, 3572445317, 76029189);
  mk_md5_row HH (S31, S32, S33, S34) (9%nat, 12%nat, 15%nat, 2%nat) (3654602809, 3873151461, 530742520, 3299628645);
  mk_md5_row II (S41, S42, S43, S44) (0%nat, 7%nat, 14%nat, 5%nat) (4096336452, 1126891415, 2878612391, 4237533241);
  mk_md5_row II (S41, S42, S43, S44) (12%nat, 3%nat, 10%nat, 1%nat) (1700485571, 2399980690, 4293915773, 2240044497);
  mk_md5_row II (S41, S42, S43, S44) (8%nat, 15%nat, 6%nat, 13%nat) (1873313359, 4264355552, 2734768916, 1309151649);
  mk_md5_row II (S41, S42, S43, S44) (4%nat, 11%nat, 2%nat, 9%nat) (4149444226, 3174756917, 718787259, 3951481745)].

Definition Transform_row (inp : list Z) (buf : md5_buf) (r : md5_row) : md5_buf :=
  let '(mk_md5_buf a b c d) := buf in
  let '(s1, s2, s3, s4) := row_shift r in
  let '(i1, i2, i3, i4) := row_in r in
  let '(ac1, ac2, ac3, ac4) := row_ac r in
  let a := row_op r a b c d (inp !!! i1) s1 ac1 in
  let d := row_op r d a b c (inp !!! i2) s2 ac2 in
  let c := row_op r c d a b (inp !!! i3) s3 ac3 in
  let b := row_op r b c d a (inp !!! i4) s4 ac4 in
  mk_md5_buf a b c d.

Definition Transform (buf : md5_buf) (inp : list Z) : md5_buf :=
  let r := foldl (Transform_row inp) buf md5_rows in
  mk_md5_buf (u32 (buf0 buf + buf0 r)) (u32 (buf1 buf + buf1 r))
    (u32 (buf2 buf + buf2 r)) (u32 (buf3 buf + buf3 r)).

(** The loop that packs the bytes of the input buffer into words: [n] words from
    [ii = 0] on. *)
Definition md5_word (inp : list Z) (ii : nat) : Z :=
  Z.lor (Z.lor (Z.lor (u32 (Z.shiftl (inp !!! (ii + 3)%nat) 24)) (Z.shiftl (inp !!! (ii + 2)%nat) 16))
    (Z.shiftl (inp !!! (ii + 1)%nat) 8)) (inp !!! ii).
Definition md5_words (inp : list Z) (n : nat) : list Z :=
  (fun i => md5_word inp (4 * i)) <$> seq 0 n.

Definition MD5_Init (ctx : MD5_CTX) : MD5_CTX :=
  mk_MD5_CTX 0 0 (mk_md5_buf 0x67452301 0xefcdab89 0x98badcfe 0x10325476) (md_in ctx) (md_digest ctx).

(** The number of bytes in the input buffer. *)
Definition md_mdi (ctx : MD5_CTX) : Z := Z.land (Z.shiftr (md_i0 ctx) 3) 0x3F.

(** One byte of the loop of [MD5_Update]. *)
Definition md5_push (st : md5_buf * list Z * Z) (b : Z) : md5_buf * list Z * Z :=
  let '(buf, inp, mdi) := st in
  let inp := <[Z.to_nat mdi := b]> inp in
  let mdi := mdi + 1 in
  if mdi =? 0x40 then (Transform buf (md5_words inp 16), inp, 0) else (buf, inp, mdi).

(** [MD5_Update(ctx, inBuf, inLen)] where [inBuf] has [inLen] bytes. *)
Definition MD5_Update (ctx : MD5_CTX) (inBuf : list Z) : MD5_CTX :=
  let inLen := Z.of_nat (length inBuf) in
  let bits := u32 (Z.shiftl inLen 3) in
  let carry := if u32 (md_i0 ctx + bits) <? md_i0 ctx then 1 else 0 in
  let i0 := u32 (md_i0 ctx + bits) in
  let i1 := u32 (u32 (md_i1 ctx + carry) + Z.shiftr inLen 29) in
  let '(buf, inp, _) := foldl md5_push (md_buf ctx, md_in ctx, md_mdi ctx) inBuf in
  mk_MD5_CTX i0 i1 buf inp (md_digest ctx).

(** The bytes of the result. *)
Definition md5_digest (b : md5_buf) : list Z :=
  flat_map (fun w => [Z.land w 0xFF; Z.land (Z.shiftr w 8) 0xFF; Z.land (Z.shiftr w 16) 0xFF;
                      Z.land (Z.shiftr w 24) 0xFF]) [buf0 b; buf1 b; buf2 b; buf3 b].

(** [MD5_Final(hash, ctx)]: the hash and the context. *)
Definition MD5_Final (ctx : MD5_CTX) : list Z * MD5_CTX :=
  let in14 := md_i0 ctx in
  let in15 := md_i1 ctx in
  let mdi := md_mdi ctx in
  let padLen := if mdi <? 56 then 56 - mdi else 120 - mdi in
  let ctx := MD5_Update ctx (take (Z.to_nat padLen) PADDING) in
  let inp := md5_words (md_in ctx) 14 ++ [in14; in15] in
  let buf := Transform (md_buf ctx) inp in
  let hash := md5_digest buf in
  (hash, mk_MD5_CTX (md_i0 ctx) (md_i1 ctx) buf (md_in ctx) hash).

(** * The digest of a message

    The definition of RFC 1321: pad the message to whole blocks, with its length in
    bits at the end, and fold the compression function over the blocks.  A step of the
    compression function works on the registers in turn. *)
Definition md5_K : list Z := [
  3614090360; 3905402710; 606105819; 3250441966;
  4118548399; 1200080426; 2821735955; 4249261313;
  1770035416; 2336552879; 4294925233; 2304563134;
  1804603682; 4254626195; 2792965006; 1236535329;
  4129170786; 3225465664; 643717713; 3921069994;
  3593408605; 38016083; 3634488961; 3889429448;
  568446438; 3275163606; 4107603335; 1163531501;
  2850285829; 4243563512; 1735328473; 2368359562;
  4294588738; 2272392833; 1839030562; 4259657740;
  2763975236; 1272893353; 4139469664; 3200236656;
  681279174; 3936430074; 3572445317; 76029189;
  3654602809; 3873151461; 530742520; 3299628645;
  4096336452; 1126891415; 2878612391; 4237533241;
  1700485571; 2399980690; 4293915773; 2240044497;
  1873313359; 4264355552; 2734768916; 1309151649;
  4149444226; 3174756917; 718787259; 3951481745].

Definition md5_round (i : nat) : (Z -> Z -> Z -> Z) * nat * list Z :=
  if (i <? 16)%nat then (Ops.F, i, [7; 12; 17; 22])
  else if (i <? 32)%nat then (Ops.G, ((5 * i + 1) mod 16)%nat, [5; 9; 14; 20])
  else if (i <? 48)%nat then (Ops.H, ((3 * i + 5) mod 16)%nat, [4; 11; 16; 23])
  else (Ops.I, ((7 * i) mod 16)%nat, [6; 10; 15; 21]).

Definition md5_ref_step (w : nat -> Z) (r : md5_buf) (i : nat) : md5_buf :=
  let '(f, g, s) := md5_round i in
  let '(mk_md5_buf a b c d) := r in
  mk_md5_buf d (u32 (ROTATE_LEFT (u32 (a + (f b c d + w g + md5_K !!! i))) (s !!! (i mod 4)%nat) + b)) b c.

Definition md5_compress (buf : md5_buf) (block : list Z) : md5_buf :=
  let r := foldl (md5_ref_step (fun i => le_field block (4 * Z.of_nat i) 4)) buf (seq 0 64) in
  mk_md5_buf (u32 (buf0 buf + buf0 r)) (u32 (buf1 buf + buf1 r))
    (u32 (buf2 buf + buf2 r)) (u32 (buf3 buf + buf3 r)).

Fixpoint md5_blocks (n : nat) (buf : md5_buf) (m : list Z) : md5_buf :=
  match n with
  | O => buf
  | S n => md5_blocks n (md5_compress buf (take 64 m)) (drop 64 m)
  end.

Definition md5_pad (m : list Z) : list Z :=
  let n := Z.of_nat (length m) in
  m ++ 0x80 :: replicate (Z.to_nat ((55 - n) mod 64)) 0 ++ le_bytes 8 (8 * n).

Definition md5_ref (m : list Z) : list Z :=
  let p := md5_pad m in
  let b := md5_blocks (length p / 64) (mk_md5_buf 0x67452301 0xefcdab89 0x98badcfe 0x10325476) p in
  flat_map (le_bytes 4) [buf0 b; buf1 b; buf2 b; buf3 b].

(** Test vectors of RFC 1321: the empty message and [message digest]. *)
Example md5_ref_empty :
  md5_ref [] = [0xd4; 0x1d; 0x8c; 0xd9; 0x8f; 0x00; 0xb2; 0x04; 0xe9; 0x80; 0x09; 0x98; 0xec; 0xf8; 0x42; 0x7e].
Proof. vm_compute. reflexivity. Qed.

Example md5_ref_message :
  md5_ref [109; 101; 115; 115; 97; 103; 101; 32; 100; 105; 103; 101; 115; 116] =
  [0xf9; 0x6b; 0x69; 0x7d; 0x7c; 0xb7; 0x93; 0x8d; 0x52; 0x5a; 0x2f; 0x31; 0xaa; 0xf1; 0x61; 0xd0].
Proof. vm_compute. reflexivity. Qed.
