(* ===== verification/ToolMd5Spec.v ===== *)
(** The streaming MD5 of the flash tool computes the digest of the concatenated
    message, however the message is cut into calls of [MD5_Update]. *)

From stdpp Require Import base list numbers sets.
From Stdlib Require Import ZArith Lia.
From S2P Require Import Prelude ToolMd5.
Local Open Scope Z_scope.

(** * The compression function *)

(** Four lines of [Transform] are four steps of the reference. *)
Lemma transform_rows inp :
  Forall2 (fun r l => forall buf,
      Transform_row inp buf r = foldl (md5_ref_step (fun i => inp !!! i)) buf l)
    md5_rows [seq 0 4; seq 4 4; seq 8 4; seq 12 4; seq 16 4; seq 20 4; seq 24 4; seq 28 4;
      seq 32 4; seq 36 4; seq 40 4; seq 44 4; seq 48 4; seq 52 4; seq 56 4; seq 60 4].
Proof. repeat constructor; intros [a b c d]; reflexivity. Qed.

Lemma foldl_rows {A B C} (f : A -> B -> A) (g : A -> C -> A) rs ls a :
  Forall2 (fun r l => forall a, f a r = foldl g a l) rs ls ->
  foldl f a rs = foldl g a (concat ls).
Proof.
  intros Hr. revert a. induction Hr as [|r l rs ls E _ IH]; intros a; [done|].
  cbn [concat foldl]. rewrite foldl_app, <- E. apply IH.
Qed.

Lemma foldl_ext_in {A B} (f g : A -> B -> A) l a :
  (forall a b, b ∈ l -> f a b = g a b) -> foldl f a l = foldl g a l.
Proof.
  revert a. induction l as [|b l IH]; intros a E; [done|]. cbn [foldl].
  rewrite E by set_solver. apply IH. set_solver.
Qed.

Lemma md5_ref_step_ext w w' r i :
  (i < 64)%nat -> (forall g, (g < 16)%nat -> w g = w' g) -> md5_ref_step w r i = md5_ref_step w' r i.
Proof.
  intros Hi E. unfold md5_ref_step, md5_round.
  repeat case_match; simplify_eq; rewrite E; try done; try (apply Nat.mod_upper_bound; lia).
  all: repeat match goal with Hx : (_ <? _)%nat = true |- _ => apply Nat.ltb_lt in Hx end; lia.
Qed.

(** [Transform] on the words of a block is the compression function. *)
Lemma transform_compress buf inp block :
  (forall i, (i < 16)%nat -> inp !!! i = le_field block (4 * Z.of_nat i) 4) ->
  Transform buf inp = md5_compress buf block.
Proof.
  intros E. unfold Transform, md5_compress.
  rewrite (foldl_rows _ _ _ _ _ (transform_rows inp)).
  change (concat _) with (seq 0 64).
  rewrite (foldl_ext_in _ (md5_ref_step (fun i => le_field block (4 * Z.of_nat i) 4)));
    [done|].
  intros r i Hi%elem_of_seq. apply md5_ref_step_ext; [lia|exact E].
Qed.

(** * Bytes and words *)

Lemma slice_4 (l : list Z) (k : nat) :
  (k + 4 <= length l)%nat ->
  slice l (Z.of_nat k) 4 = [l !!! k; l !!! (k + 1)%nat; l !!! (k + 2)%nat; l !!! (k + 3)%nat].
Proof.
  intros Hk. unfold slice. rewrite Nat2Z.id. change (Z.to_nat 4) with 4%nat.
  replace (k + 3)%nat with (S (S (S k))) by lia. replace (k + 2)%nat with (S (S k)) by lia.
  replace (k + 1)%nat with (S k) by lia.
  repeat (erewrite drop_S by (apply list_lookup_lookup_total_lt; lia)). by cbn [take].
Qed.

Lemma md5_word_field inp k :
  Forall is_byte inp -> (k + 4 <= length inp)%nat -> md5_word inp k = le_field inp (Z.of_nat k) 4.
Proof.
  intros Hb Hk. unfold le_field. rewrite slice_4 by done. unfold md5_word.
  assert (forall j, (j < length inp)%nat -> is_byte (inp !!! j)) as Hj.
  { intros j Hj. eapply Forall_lookup_1; [exact Hb|]. apply list_lookup_lookup_total_lt. lia. }
  generalize (Hj k ltac:(lia)) (Hj (k + 1)%nat ltac:(lia)) (Hj (k + 2)%nat ltac:(lia))
    (Hj (k + 3)%nat ltac:(lia)).
  generalize (inp !!! k) (inp !!! (k + 1)%nat) (inp !!! (k + 2)%nat)
    (inp !!! (k + 3)%nat). unfold is_byte. intros b0 b1 b2 b3 R0 R1 R2 R3.
  unfold u32. rewrite Z.shiftl_mul_pow2, Z.mod_small, <- Z.shiftl_mul_pow2 by lia.
  replace (Z.shiftl b3 24) with (Z.shiftl (Z.shiftl b3 8) 16) by now rewrite Z.shiftl_shiftl by lia.
  rewrite <- Z.shiftl_lor, (lor_shiftl_add b2 b3 8) by lia.
  replace (Z.shiftl (b3 * 2 ^ 8 + b2) 16) with (Z.shiftl (Z.shiftl (b3 * 2 ^ 8 + b2) 8) 8)
    by now rewrite Z.shiftl_shiftl by lia.
  rewrite <- Z.shiftl_lor, (lor_shiftl_add b1 _ 8), (lor_shiftl_add b0 _ 8) by lia.
  cbn [le_val]. lia.
Qed.

Lemma md5_words_lookup inp n i :
  Forall is_byte inp -> (4 * n <= length inp)%nat -> (i < n)%nat ->
  md5_words inp n !!! i = le_field inp (4 * Z.of_nat i) 4.
Proof.
  intros Hb Hn Hi. unfold md5_words. apply list_lookup_total_correct.
  rewrite list_lookup_fmap, lookup_seq_lt by done. cbn [fmap option_fmap option_map].
  rewrite md5_word_field by (done || lia). f_equal. f_equal. lia.
Qed.

Lemma md5_digest_bytes b : md5_digest b = flat_map (le_bytes 4) [buf0 b; buf1 b; buf2 b; buf3 b].
Proof.
  unfold md5_digest. apply flat_map_ext. intros w. cbn [le_bytes].
  change 0xFF with (Z.ones 8). rewrite !Z.land_ones, !Z.shiftr_div_pow2 by lia.
  rewrite !Z.div_div by lia. done.
Qed.

(** * Blocks of a message *)

Definition md5_start : md5_buf := mk_md5_buf 0x67452301 0xefcdab89 0x98badcfe 0x10325476.

Lemma md5_blocks_snoc n buf m :
  md5_blocks (S n) buf m = md5_compress (md5_blocks n buf m) (take 64 (drop (64 * n) m)).
Proof.
  revert buf m. induction n as [|n IH]; intros buf m; [done|].
  change (md5_blocks (S (S n)) buf m)
    with (md5_blocks (S n) (md5_compress buf (take 64 m)) (drop 64 m)).
  rewrite IH, drop_drop. cbn [md5_blocks]. do 3 f_equal. lia.
Qed.

Lemma md5_blocks_app n buf m l :
  (64 * n <= length m)%nat -> md5_blocks n buf (m ++ l) = md5_blocks n buf m.
Proof.
  revert buf m. induction n as [|n IH]; intros buf m Hm; [done|]. cbn [md5_blocks].
  rewrite take_app_le, drop_app_le by lia. apply IH. rewrite length_drop. lia.
Qed.

(** [md5_part m st]: the digest, the input buffer and its fill level after the bytes
    [m]: the whole blocks of [m] are digested, the rest is in the buffer. *)
Definition md5_part (m : list Z) (st : md5_buf * list Z * Z) : Prop :=
  let '(buf, inp, mdi) := st in
  let q := (length m / 64)%nat in
  buf = md5_blocks q md5_start m /\ length inp = 64%nat /\ Forall is_byte inp /\
  mdi = Z.of_nat (length m mod 64) /\ take (length m mod 64) inp = drop (64 * q) m.

Lemma div_mod_S n :
  (S n mod 64 = S (n mod 64) /\ S n / 64 = n / 64 /\ n mod 64 < 63)%nat \/
  (S n mod 64 = 0 /\ S n / 64 = S (n / 64) /\ n mod 64 = 63)%nat.
Proof.
  pose proof (Nat.div_mod_eq n 64). pose proof (Nat.mod_upper_bound n 64 ltac:(lia)).
  destruct (decide (n mod 64 = 63)%nat) as [E|E]; [right|left].
  - assert (S n = S (n / 64) * 64 + 0)%nat as E2 by lia. split_and!; [| |done].
    + rewrite E2, Nat.add_comm. by rewrite Nat.Div0.mod_add.
    + rewrite E2, Nat.div_add_l by lia. cbn. lia.
  - assert (S n = (n / 64) * 64 + S (n mod 64))%nat as E2 by lia. split_and!; [| |lia].
    + rewrite E2 at 1. rewrite Nat.add_comm, Nat.Div0.mod_add. apply Nat.mod_small. lia.
    + rewrite E2 at 1. rewrite Nat.div_add_l, (Nat.div_small (S _)) by lia. lia.
Qed.

Lemma take_S_insert {A} (l : list A) k x :
  (k < length l)%nat -> take (S k) (<[k := x]> l) = take k l ++ [x].
Proof.
  intros Hk. rewrite (take_S_r _ _ x) by (by apply list_lookup_insert_eq).
  by rewrite take_insert_ge by lia.
Qed.

(** One byte. *)
Lemma md5_push_part m st b :
  is_byte b -> md5_part m st -> md5_part (m ++ [b]) (md5_push st b).
Proof.
  destruct st as [[buf inp] mdi]. intros Hb (-> & Hlen & Hbytes & -> & Hin).
  pose proof (Nat.div_mod_eq (length m) 64) as Hdm.
  pose proof (Nat.mod_upper_bound (length m) 64 ltac:(lia)) as Hub.
  unfold md5_push, md5_part. rewrite length_app, Nat.add_1_r, Nat2Z.id.
  set (k := (length m mod 64)%nat) in *. set (q := (length m / 64)%nat) in *.
  assert (take (S k) (<[k := b]> inp) = drop (64 * q) (m ++ [b])) as Htake.
  { rewrite take_S_insert by lia. rewrite drop_app_le by lia. by rewrite Hin. }
  assert (Forall is_byte (<[k := b]> inp)) as Hall by (by apply Forall_insert).
  destruct (div_mod_S (length m)) as [(-> & -> & Hk)|(-> & -> & Hk)]; fold k q in Hk |- *.
  - rewrite (proj2 (Z.eqb_neq _ _)) by lia. rewrite md5_blocks_app by lia.
    split_and!; [done|by rewrite length_insert|done|lia|done].
  - rewrite (proj2 (Z.eqb_eq _ _)) by lia.
    assert (<[k := b]> inp = take 64 (drop (64 * q) (m ++ [b]))) as Hblock.
    { rewrite <- Htake, take_take, take_ge; [done|]. by rewrite length_insert, Hlen, Hk. }
    split_and!; [|by rewrite length_insert|done|done|].
    + rewrite md5_blocks_snoc, md5_blocks_app by lia. rewrite <- Hblock.
      apply transform_compress. intros i Hi. apply md5_words_lookup; [done| |done].
      rewrite length_insert. lia.
    + rewrite drop_ge; [by destruct (<[k := b]> inp)|]. rewrite length_app. cbn [length]. lia.
Qed.

Lemma md5_push_bytes l m st :
  Forall is_byte l -> md5_part m st -> md5_part (m ++ l) (foldl md5_push st l).
Proof.
  revert m st. induction l as [|b l IH]; intros m st Hl Hp; [by rewrite app_nil_r|].
  apply Forall_cons_1 in Hl as [Hb Hl]. change (b :: l) with ([b] ++ l). rewrite app_assoc.
  apply IH; [done|]. by apply md5_push_part.
Qed.

(** * Contexts *)

(** [md5_ctx m ctx]: [ctx] has taken in the bytes [m]. *)
Definition md5_ctx (m : list Z) (ctx : MD5_CTX) : Prop :=
  md_i0 ctx = u32 (8 * Z.of_nat (length m)) /\
  md_i1 ctx = u32 (8 * Z.of_nat (length m) / 2 ^ 32) /\
  md5_part m (md_buf ctx, md_in ctx, md_mdi ctx).

(** The fill level is computed from the low word of the bit count. *)
Lemma mdi_length i0 n : i0 = u32 (8 * Z.of_nat n) -> Z.land (Z.shiftr i0 3) 0x3F = Z.of_nat (n mod 64).
Proof.
  intros ->. change 0x3F with (Z.ones 6). rewrite Z.land_ones, Z.shiftr_div_pow2 by lia.
  unfold u32. change (2 ^ 32) with (8 * (2 ^ 6 * 2 ^ 23)). rewrite Z.mul_mod_distr_l by lia.
  change (2 ^ 3) with 8. rewrite Z.mul_comm, Z.div_mul by lia.
  rewrite Z.rem_mul_r, (Z.mul_comm (2 ^ 6)), Z.mod_add, Z.mod_mod by lia.
  rewrite Nat2Z.inj_mod. done.
Qed.

Lemma md5_init_ctx ctx :
  length (md_in ctx) = 64%nat -> Forall is_byte (md_in ctx) -> md5_ctx [] (MD5_Init ctx).
Proof. intros Hl Hb. repeat split; done. Qed.

(** The two words of the bit count, with the carry between them. *)
Lemma bit_count_add x y i0 i1 :
  0 <= x -> 0 <= y < 2 ^ 32 -> i0 = u32 (8 * x) -> i1 = u32 (8 * x / 2 ^ 32) ->
  let bits := u32 (Z.shiftl y 3) in
  u32 (i0 + bits) = u32 (8 * (x + y)) /\
  u32 (u32 (i1 + (if u32 (i0 + bits) <? i0 then 1 else 0)) + Z.shiftr y 29) =
    u32 (8 * (x + y) / 2 ^ 32).
Proof.
  intros Hx Hy -> ->. cbn zeta. rewrite Z.shiftl_mul_pow2, Z.shiftr_div_pow2 by lia.
  unfold u32. change (2 ^ 3) with 8. set (W := 2 ^ 32). assert (W = 4294967296) as HW by done.
  rewrite <- Z.add_mod by lia. split; [f_equal; lia|].
  rewrite Z.add_mod_idemp_l by lia. rewrite <- Z.add_assoc, Z.add_mod_idemp_l by lia. f_equal.
  assert (y / 2 ^ 29 = (y * 8) / W) as ->.
  { change W with (2 ^ 29 * 8). by rewrite Z.div_mul_cancel_r by lia. }
  replace (8 * (x + y)) with (8 * x + y * 8) by lia.
  pose proof (Z.div_mod (8 * x) W ltac:(lia)). pose proof (Z.mod_pos_bound (8 * x) W ltac:(lia)).
  pose proof (Z.div_mod (y * 8) W ltac:(lia)). pose proof (Z.mod_pos_bound (y * 8) W ltac:(lia)).
  pose proof (Z.div_mod (8 * x + y * 8) W ltac:(lia)).
  pose proof (Z.mod_pos_bound (8 * x + y * 8) W ltac:(lia)).
  destruct (Z.ltb_spec ((8 * x + y * 8) mod W) ((8 * x) mod W)); nia.
Qed.

(** One call of [MD5_Update]. *)
Lemma md5_update_ctx m ctx l :
  Forall is_byte l -> Z.of_nat (length l) < 2 ^ 32 -> md5_ctx m ctx ->
  md5_ctx (m ++ l) (MD5_Update ctx l).
Proof.
  intros Hl Hn (H0 & H1 & Hp). pose proof (md5_push_bytes l m _ Hl Hp) as Hq.
  unfold MD5_Update.
  destruct (foldl md5_push _ l) as [[buf inp] mdi] eqn:E.
  destruct (bit_count_add (Z.of_nat (length m)) (Z.of_nat (length l)) _ _ ltac:(lia) ltac:(lia) H0 H1)
    as [E0 E1].
  unfold md5_ctx. cbn [md_i0 md_i1 md_buf md_in]. rewrite length_app, Nat2Z.inj_add.
  split_and!; [exact E0|exact E1|]. destruct Hq as (Hb & Hi & Hbytes & Hm & Ht).
  unfold md5_part. rewrite length_app in *. split_and!; try done.
  apply mdi_length. cbn [md_i0]. by rewrite E0, Nat2Z.inj_add.
Qed.

Lemma md5_updates_ctx chunks m ctx :
  Forall (fun l => Forall is_byte l /\ Z.of_nat (length l) < 2 ^ 32) chunks -> md5_ctx m ctx ->
  md5_ctx (m ++ concat chunks) (foldl MD5_Update ctx chunks).
Proof.
  intros Hc. revert m ctx. induction Hc as [|l chunks [Hb Hn] _ IH]; intros m ctx Hm; cbn [concat foldl].
  - by rewrite app_nil_r.
  - rewrite app_assoc. apply IH. by apply md5_update_ctx.
Qed.

(** * The final block *)

(** The bytes [MD5_Final] appends before the length. *)
Definition final_pad (n : nat) : list Z :=
  take (if (n mod 64 <? 56)%nat then 56 - n mod 64 else 120 - n mod 64)%nat PADDING.

Lemma length_final_pad n :
  length (final_pad n) = (if (n mod 64 <? 56)%nat then 56 - n mod 64 else 120 - n mod 64)%nat.
Proof.
  unfold final_pad. rewrite length_take. pose proof (Nat.mod_upper_bound n 64 ltac:(lia)).
  change (length PADDING) with 64%nat. destruct (Nat.ltb_spec (n mod 64) 56); lia.
Qed.

Lemma final_pad_zeros n :
  final_pad n = 0x80 :: replicate (Z.to_nat ((55 - Z.of_nat n) mod 64)) 0.
Proof.
  pose proof (Nat.mod_upper_bound n 64 ltac:(lia)) as Hub.
  pose proof (Nat.div_mod_eq n 64) as Hdm. set (k := (n mod 64)%nat) in *.
  assert ((55 - Z.of_nat n) mod 64 = if (k <? 56)%nat then 55 - Z.of_nat k else 119 - Z.of_nat k) as E.
  { symmetry. apply Z.mod_unique with (if (k <? 56)%nat then - Z.of_nat (n / 64) else - Z.of_nat (n / 64) - 1);
      destruct (Nat.ltb_spec k 56); lia. }
  rewrite E. unfold final_pad. fold k. unfold PADDING.
  destruct (Nat.ltb_spec k 56).
  - replace (56 - k)%nat with (S (55 - k)) by lia. cbn [take]. rewrite take_replicate. do 2 f_equal. lia.
  - replace (120 - k)%nat with (S (119 - k)) by lia. cbn [take]. rewrite take_replicate. do 2 f_equal. lia.
Qed.

Lemma final_pad_length_mod n : ((n + length (final_pad n)) mod 64 = 56)%nat.
Proof.
  rewrite length_final_pad. pose proof (Nat.mod_upper_bound n 64 ltac:(lia)).
  pose proof (Nat.div_mod_eq n 64). destruct (Nat.ltb_spec (n mod 64) 56).
  - symmetry. apply Nat.mod_unique with (n / 64)%nat; lia.
  - symmetry. apply Nat.mod_unique with (S (n / 64))%nat; lia.
Qed.

Lemma final_pad_bytes n : Forall is_byte (final_pad n).
Proof.
  apply Forall_take. unfold PADDING. constructor; [done|]. apply Forall_replicate. done.
Qed.

Lemma md5_pad_app m :
  md5_pad m = (m ++ final_pad (length m)) ++ le_bytes 8 (8 * Z.of_nat (length m)).
Proof. unfold md5_pad. rewrite final_pad_zeros. by rewrite <- !app_assoc. Qed.

(** The words of the last block: those of the buffer, then the bit count. *)
Lemma final_block_words inp v i :
  Forall is_byte inp -> length inp = 64%nat -> (i < 16)%nat ->
  (md5_words inp 14 ++ [u32 v; u32 (v / 2 ^ 32)]) !!! i =
    le_field (take 56 inp ++ le_bytes 8 v) (4 * Z.of_nat i) 4.
Proof.
  intros Hb Hl Hi.
  assert (length (take 56 inp) = 56%nat) as Ht by (rewrite length_take; lia).
  destruct (decide (i < 14)%nat) as [Hlt|Hge].
  - rewrite lookup_total_app_l by (unfold md5_words; rewrite length_fmap, length_seq; lia).
    rewrite md5_words_lookup by (done || lia). unfold le_field, slice. f_equal.
    rewrite drop_app_le, take_app_le by (rewrite ?length_drop; lia).
    rewrite skipn_firstn_comm, take_take. f_equal. lia.
  - rewrite lookup_total_app_r by (unfold md5_words; rewrite length_fmap, length_seq; lia).
    rewrite le_field_skip by lia. rewrite Ht. unfold md5_words at 1. rewrite length_fmap, length_seq.
    destruct (decide (i = 14%nat)) as [->|]; [|replace i with 15%nat by lia].
    + change (le_bytes 8 v) with (le_bytes (4 + 4) v). rewrite le_bytes_app.
      change (4 * Z.of_nat 14 - Z.of_nat 56) with 0. by rewrite le_field_here.
    + change (le_bytes 8 v) with (le_bytes (4 + 4) v). rewrite le_bytes_app.
      rewrite le_field_skip by (rewrite length_le_bytes; lia). rewrite length_le_bytes.
      change (4 * Z.of_nat 15 - Z.of_nat 56 - Z.of_nat 4) with 0.
      rewrite <- (app_nil_r (le_bytes 4 (v / _))). by rewrite le_field_here.
Qed.

(** [MD5_Final] delivers the digest of the bytes taken in. *)
Lemma md5_final_digest m ctx : md5_ctx m ctx -> fst (MD5_Final ctx) = md5_ref m.
Proof.
  intros Hc. set (n := length m). pose proof Hc as (Hi0 & Hi1 & _ & _ & _ & Hmdi & _).
  fold n in Hi0, Hi1, Hmdi.
  assert (take (Z.to_nat (if md_mdi ctx <? 56 then 56 - md_mdi ctx else 120 - md_mdi ctx)) PADDING =
    final_pad n) as Hpad.
  { unfold final_pad. rewrite Hmdi. f_equal.
    destruct (Z.ltb_spec (Z.of_nat (n mod 64)) 56), (Nat.ltb_spec (n mod 64) 56); lia. }
  unfold MD5_Final. rewrite Hpad. cbn [fst].
  pose proof (md5_update_ctx m ctx (final_pad n) (final_pad_bytes n)) as Hu.
  destruct Hu as (_ & _ & Hbuf & Hlen & Hbytes & _ & Htake); [|exact Hc|].
  { rewrite length_final_pad. destruct (n mod 64 <? 56)%nat; lia. }
  rewrite length_app in Hbuf, Htake. fold n in Hbuf, Htake.
  rewrite final_pad_length_mod in Htake. rewrite Hi0, Hi1, Hbuf.
  set (q := ((n + length (final_pad n)) / 64)%nat) in *.
  pose proof (Nat.div_mod_eq (n + length (final_pad n)) 64) as Hdm.
  rewrite final_pad_length_mod in Hdm. fold q in Hdm.
  rewrite (transform_compress _ _ _ (fun i => final_block_words _ _ i Hbytes Hlen)).
  unfold md5_ref. rewrite md5_pad_app. fold n.
  rewrite !length_app, length_le_bytes. fold n.
  replace ((n + length (final_pad n) + 8) / 64)%nat with (S q)
    by (apply Nat.div_unique with 0%nat; lia).
  fold md5_start. rewrite md5_blocks_snoc.
  rewrite (md5_blocks_app q _ (m ++ _)) by (rewrite length_app; lia).
  rewrite drop_app_le by (rewrite length_app; lia). rewrite <- Htake.
  rewrite (take_ge (_ ++ _)), md5_digest_bytes; [done|].
  rewrite length_app, length_take, length_le_bytes. lia.
Qed.

(** The digest of a sequence of updates, as the callers compute it. *)
Definition md5_stream (ctx : MD5_CTX) (chunks : list (list Z)) : list Z :=
  fst (MD5_Final (foldl MD5_Update (MD5_Init ctx) chunks)).

Lemma md5_stream_ref ctx chunks :
  length (md_in ctx) = 64%nat -> Forall is_byte (md_in ctx) ->
  Forall (fun l => Forall is_byte l /\ Z.of_nat (length l) < 2 ^ 32) chunks ->
  md5_stream ctx chunks = md5_ref (concat chunks).
Proof.
  intros Hl Hb Hc. apply md5_final_digest.
  exact (md5_updates_ctx chunks [] _ Hc (md5_init_ctx ctx Hl Hb)).
Qed.

Lemma length_md5_ref m : length (md5_ref m) = 16%nat.
Proof. done. Qed.

Lemma md5_ref_bytes m : Forall is_byte (md5_ref m).
Proof.
  unfold md5_ref. cbn [flat_map]. rewrite app_nil_r. repeat apply Forall_app_2; apply le_bytes_range.
Qed.
