(* ===== verification/ToolOs.v ===== *)
(** The environment of the flash tool [src/package/system/mtd/src]: the system calls and
    [ioctl] requests it makes, the process state (its global variables), and the monad
    its functions are written in, in which a process can exit. *)

From stdpp Require Import base list numbers strings pretty.
From Stdlib Require Import ZArith Lia Ascii.
From S2P Require Import Prelude Platform CStrings.
Local Open Scope Z_scope.
Local Open Scope cprog_scope.

(** * System calls

    The kernel and the C library are not part of the sources: each call is a function of
    the state [K] of the rest of the machine.  A call that can fail with an error number
    the tool looks at returns [inl errno]; memory comes with arbitrary contents. *)
Inductive whence := SEEK_SET | SEEK_CUR.

(** [struct mtd_info_user] of [mtd/mtd-user.h]. *)
Record mtd_info_user := mk_mtd_info_user {
  info_type : Z;
  info_size : Z;
  info_erasesize : Z;
  info_writesize : Z
}.

(** [struct stat], the fields [add_file] and [mtd_verify] use. *)
Record stat := mk_stat { st_mode : Z; st_size : Z; st_atime : Z; st_mtime : Z; st_ctime : Z }.

Class Os (K : Type) := {
  proc_mtd : K -> option (list string);             (* the lines of [/proc/mtd] *)
  sys_open : string -> bool -> K -> Z * K;          (* for writing, or read only *)
  sys_close : Z -> K -> K;
  sys_stat : string -> K -> option stat * K;
  sys_lseek : Z -> Z -> whence -> K -> K;
  sys_read : Z -> Z -> K -> (Z + list Z) * K;
  sys_write : Z -> list Z -> K -> Z * K;
  sys_pread : Z -> Z -> Z -> K -> (Z + list Z) * K; (* fd, count, offset *)
  sys_pwrite : Z -> list Z -> Z -> K -> Z * K;      (* fd, bytes, offset *)
  mem_getinfo : Z -> K -> option mtd_info_user * K;
  mem_getbadblock : Z -> Z -> K -> Z * K;
  mem_unlock : Z -> Z -> Z -> K -> Z * K;           (* fd, start, length *)
  mem_erase : Z -> Z -> Z -> K -> Z * K;
  sys_mmap : Z -> Z -> K -> option (list Z) * K;    (* fd, length: the mapped bytes *)
  sys_msync : Z -> list Z -> K -> K;                (* fd, the mapped bytes *)
  sys_malloc : Z -> K -> option (list Z) * K;
  stack_bytes : Z -> K -> list Z;                   (* an uninitialised local array *)
  sys_sync : K -> K;
  sys_reboot : K -> K;
  md5sum_file : string -> K -> option (list Z) * K; (* [md5sum] of libubox *)
  md5_bytes : list Z -> list Z;                     (* [md5_begin], [md5_hash]..., [md5_end] *)
  strtoul : string -> Z * bool                      (* value, [errno] set *)
}.

(** * The process *)

Inductive mtd_image_format :=
| MTD_IMAGE_FORMAT_UNKNOWN
| MTD_IMAGE_FORMAT_TRX
| MTD_IMAGE_FORMAT_SEAMA
| MTD_IMAGE_FORMAT_WRG
| MTD_IMAGE_FORMAT_WRGG03.

#[export] Instance mtd_image_format_eq_dec : EqDecision mtd_image_format.
Proof. solve_decision. Defined.

(** [mtdsize], [erasesize], [mtdtype]: the device opened last. *)
Record devinfo := mk_devinfo { mtdsize : Z; erasesize : Z; mtdtype : Z }.

(** [buf], [buflen], [imageformat]: the image read so far. *)
Record image := mk_image { buf : option (list Z); buflen : Z; imageformat : mtd_image_format }.

(** The options of the command line. *)
Record options := mk_options {
  no_erase : bool;
  jffs2file : option string;
  jffs2dir : string;
  jffs2_skip_bytes : Z;
  opt_trxmagic : Z;
  tpl_uboot_args_part : option string
}.

(** The static variables of [jffs2.c]. *)
Record jffs2 := mk_jffs2 {
  last_ino : Z;
  last_version : Z;
  j_buf : option (list Z);
  j_ofs : Z;
  outfd : Z;
  mtdofs : Z;
  target_ino : Z
}.

Record tool := mk_tool {
  t_dev : devinfo;
  t_img : image;
  t_opt : options;
  t_jffs2 : jffs2
}.

Definition set_dev (d : devinfo) (t : tool) : tool := mk_tool d (t_img t) (t_opt t) (t_jffs2 t).
Definition set_img (i : image) (t : tool) : tool := mk_tool (t_dev t) i (t_opt t) (t_jffs2 t).
Definition set_opt (o : options) (t : tool) : tool := mk_tool (t_dev t) (t_img t) o (t_jffs2 t).
Definition set_jffs2 (j : jffs2) (t : tool) : tool := mk_tool (t_dev t) (t_img t) (t_opt t) j.

Record world (K : Type) := mk_world { w_tool : tool; w_os : K }.
Arguments mk_world {K} _ _.
Arguments w_tool {K} _.
Arguments w_os {K} _.

(** * Programs that can exit

    [inl code] is a process that has called [exit(code)]. *)
Definition X (K A : Type) : Type := M (world K) (Z + A).

Section programs.
Context {K : Type}.

Definition xret {A} (a : A) : X K A := ret (inr a).
Definition exit {A} (code : Z) : X K A := ret (inl code).
Definition xfault {A} : X K A := fault.
Definition xbind {A B} (m : X K A) (k : A -> X K B) : X K B :=
  let* r := m in
  match r with
  | inl code => ret (inl code)
  | inr a => k a
  end.

(** A system call. *)
Definition sys {A} (f : K -> A * K) : X K A := fun w =>
  let '(a, k) := f (w_os w) in Ret (inr a) (mk_world (w_tool w) k).
Definition sys_ (f : K -> K) : X K unit := sys (fun k => (tt, f k)).

Definition get {A} (f : tool -> A) : X K A := fun w => Ret (inr (f (w_tool w))) w.
Definition put (f : tool -> tool) : X K unit := fun w => Ret (inr tt) (mk_world (f (w_tool w)) (w_os w)).

(** A computation on values only, such as a checksum. *)
Definition pure {A} (m : M (world K) A) : X K A := let* a := m in ret (inr a).

(** A loop whose body can exit. *)
Definition xloop {L R} (fuel : nat) (body : L -> X K (L + R)) (l : L) : X K R :=
  loop fuel (fun l =>
    let* r := body l in
    match r with
    | inl code => ret (inr (inl code))
    | inr (inl l) => ret (inl l)
    | inr (inr r) => ret (inr (inr r))
    end) l.
End programs.

Notation "'let!' x ':=' m 'in' k" := (xbind m (fun x => k))
  (at level 10, x pattern, m at level 100, k at level 200,
   format "'[v' 'let!'  x  ':='  m  'in' '/' k ']'") : cprog_scope.
Notation "'do!' m 'in' k" := (xbind m (fun _ => k))
  (at level 10, m at level 100, k at level 200,
   format "'[v' 'do!'  m  'in' '/' k ']'") : cprog_scope.

Definition set_buf (b : option (list Z)) (i : image) : image := mk_image b (buflen i) (imageformat i).
Definition set_buflen (n : Z) (i : image) : image := mk_image (buf i) n (imageformat i).
Definition set_imageformat (f : mtd_image_format) (i : image) : image := mk_image (buf i) (buflen i) f.
Definition upd_img (f : image -> image) (t : tool) : tool := set_img (f (t_img t)) t.
Definition upd_opt (f : options -> options) (t : tool) : tool := set_opt (f (t_opt t)) t.
Definition upd_jffs2 (f : jffs2 -> jffs2) (t : tool) : tool := set_jffs2 (f (t_jffs2 t)) t.

(** [memcpy] into a buffer and out of it, with the access checked. *)
Definition store {K} (b : list Z) (off : Z) (src : list Z) : X K (list Z) :=
  if in_bounds b off (Z.of_nat (length src)) then xret (blit b off src) else xfault.
Definition load {K} (b : list Z) (off len : Z) : X K (list Z) :=
  if in_bounds b off len then xret (slice b off len) else xfault.

(** A pointer that has to be valid. *)
Definition deref {K A} (p : option A) : X K A :=
  match p with Some a => xret a | None => xfault end.

(** * Weakest preconditions

    [xwp m E Q w]: [m] returns with a result in [Q], or exits with a code in [E]. *)
Definition xwp {K A} (m : X K A) (E : Z -> world K -> Prop) (Q : A -> world K -> Prop) (w : world K) : Prop :=
  wp m (fun r w' => match r with inl code => E code w' | inr a => Q a w' end) w.

Section xwp_rules.
Context {K : Type}.
Implicit Types (w : world K).

Lemma xwp_mono {A} (m : X K A) (E E' : Z -> world K -> Prop) (Q Q' : A -> world K -> Prop) w :
  xwp m E Q w -> (forall c w', E c w' -> E' c w') -> (forall a w', Q a w' -> Q' a w') ->
  xwp m E' Q' w.
Proof. intros Hm HE HQ. eapply wp_mono; [exact Hm|]. intros [c|a] w'; auto. Qed.

(** The calls of a function share the postcondition of its exits. *)
Lemma xwp_call {A} (m : X K A) E (Q Q' : A -> world K -> Prop) w :
  xwp m E Q w -> (forall a w', Q a w' -> Q' a w') -> xwp m E Q' w.
Proof. intros Hm HQ. eapply xwp_mono; eauto. Qed.

Lemma xwp_ret {A} (a : A) E (Q : A -> world K -> Prop) w : Q a w -> xwp (xret a) E Q w.
Proof. done. Qed.

Lemma xwp_exit {A} c (E : Z -> world K -> Prop) (Q : A -> world K -> Prop) w : E c w -> xwp (exit c) E Q w.
Proof. done. Qed.

Lemma xwp_bind {A B} (m : X K A) (k : A -> X K B) E Q w :
  xwp m E (fun a w' => xwp (k a) E Q w') w -> xwp (xbind m k) E Q w.
Proof.
  intros Hm. apply wp_bind. eapply wp_mono; [exact Hm|]. by intros [c|a] w'.
Qed.

Lemma xwp_sys {A} (f : K -> A * K) E (Q : A -> world K -> Prop) w :
  (forall a k, f (w_os w) = (a, k) -> Q a (mk_world (w_tool w) k)) -> xwp (sys f) E Q w.
Proof. intros HQ. unfold xwp, wp, sys. destruct (f (w_os w)) as [a k] eqn:Ef. by apply HQ. Qed.

Lemma xwp_sys_ (f : K -> K) E (Q : unit -> world K -> Prop) w :
  Q tt (mk_world (w_tool w) (f (w_os w))) -> xwp (sys_ f) E Q w.
Proof. done. Qed.

Lemma xwp_get {A} (f : tool -> A) E (Q : A -> world K -> Prop) w : Q (f (w_tool w)) w -> xwp (get f) E Q w.
Proof. done. Qed.

Lemma xwp_put (f : tool -> tool) E (Q : unit -> world K -> Prop) w :
  Q tt (mk_world (f (w_tool w)) (w_os w)) -> xwp (put f) E Q w.
Proof. done. Qed.

Lemma xwp_store b off src E (Q : list Z -> world K -> Prop) w :
  0 <= off -> off + Z.of_nat (length src) <= Z.of_nat (length b) ->
  Q (blit b off src) w -> xwp (store b off src) E Q w.
Proof. intros. unfold store. by rewrite in_bounds_true by lia. Qed.

Lemma xwp_load b off len E (Q : list Z -> world K -> Prop) w :
  0 <= off -> 0 <= len -> off + len <= Z.of_nat (length b) ->
  Q (slice b off len) w -> xwp (load b off len) E Q w.
Proof. intros. unfold load. by rewrite in_bounds_true by lia. Qed.

(** Total correctness of a loop whose body can exit. *)
Lemma xwp_loop {L R} (I : L -> world K -> Prop) (meas : L -> world K -> nat)
    (body : L -> X K (L + R)) E (Q : R -> world K -> Prop) :
  (forall l w, I l w ->
     xwp (body l) E (fun r w' =>
       match r with
       | inl l' => I l' w' /\ (meas l' w' < meas l w)%nat
       | inr r => Q r w'
       end) w) ->
  forall fuel l w, I l w -> (meas l w < fuel)%nat -> xwp (xloop fuel body l) E Q w.
Proof.
  intros Hbody fuel l w HI Hm. unfold xwp, xloop. eapply (wp_loop I meas); [|done|done].
  intros l1 w1 H1. apply wp_bind. eapply wp_mono; [by apply Hbody|].
  intros [c|[l2|r]] w2; cbn; auto.
Qed.

(** What is known of every return and exit holds of the one that happened. *)
Lemma xwp_inv {A} (m : X K A) E (Q : A -> world K -> Prop) w :
  xwp m E Q w -> exists w', (exists c, m w = Ret (inl c) w' /\ E c w') \/ (exists a, m w = Ret (inr a) w' /\ Q a w').
Proof. unfold xwp. intros ([c|a] & w' & Em & H)%wp_inv; exists w'; [left|right]; eauto. Qed.
End xwp_rules.

(** [xwp_step] runs straight-line code; [xwp_call L] applies a specification to the call at
    the head of the program. *)
Ltac xwp_step :=
  match goal with
  | |- xwp (xbind _ _) _ _ _ => apply xwp_bind
  | |- xwp (xret _) _ _ _ => apply xwp_ret
  | |- xwp (exit _) _ _ _ => apply xwp_exit
  | |- xwp (get _) _ _ _ => apply xwp_get
  | |- xwp (put _) _ _ _ => apply xwp_put
  | |- xwp (sys_ _) _ _ _ => apply xwp_sys_
  end; cbn beta.

(** * Devices

    [src/package/system/mtd/src/mtd.c]: opening a device, bad blocks, erasing and writing a
    block. *)

Definition PATH_MAX : Z := 4096.
Definition MTD_NANDFLASH : Z := 4.

(** * Strings *)

(** [strchr(mtd, ':')]: the name before the first colon, and what follows it. *)
Fixpoint split_colon (s : string) : string * option string :=
  match s with
  | EmptyString => (EmptyString, None)
  | String c s =>
      if Ascii.eqb c ":"%char then (EmptyString, Some s)
      else let '(a, rest) := split_colon s in (String c a, rest)
  end.

(** The devices of an argument [<device>[:<device>...]], in the order in which the loops of
    [mtd_check], [mtd_unlock] and [mtd_write] take them from it: [next] is the rest. *)
Fixpoint devices_n (n : nat) (s : string) : list string :=
  match n with
  | O => []
  | S n =>
      match split_colon s with
      | (a, None) => [a]
      | (a, Some next) => a :: devices_n n next
      end
  end.
Definition devices (s : string) : list string := devices_n (S (String.length s)) s.

(** [sscanf(dev, "mtd%d:", &i)] when it converts a number.  (It returns [EOF] when the
    line ends before a number starts; [mtd_open] goes on then, but such a line contains no
    quoted name.) *)
Definition sscanf_mtd (dev : string) : option Z :=
  match dev with
  | String "m" (String "t" (String "d" s)) => scan_int (skip_spaces s)
  | _ => None
  end.

(** [snprintf(dev, sizeof(dev), ...)] cuts the text to the buffer. *)
Definition snprintf (n : Z) (s : string) : string := String.substring 0 (Z.to_nat (n - 1)) s.

Definition quoted (mtd : string) : string :=
  let q := String (Ascii.ascii_of_nat 34) EmptyString in (q ++ mtd ++ q)%string.

Section mtd_dev.
Context `{Arch} {K : Type} `{Os K}.

Abbreviation prog := (X K).

(** [mtd_open(mtd, block)]. *)
Definition dev_node (block : bool) (sep : string) (i : Z) : string :=
  snprintf PATH_MAX ("/dev/mtd" ++ (if block then "block" else "") ++ sep ++ pretty i).

Fixpoint find_mtd (lines : list string) (name : string) : option Z :=
  match lines with
  | [] => None
  | dev :: lines =>
      match sscanf_mtd dev with
      | Some i => if strstr dev name then Some i else find_mtd lines name
      | None => find_mtd lines name
      end
  end.

Definition mtd_open (mtd : string) (block : bool) : prog Z :=
  let name := snprintf PATH_MAX (quoted mtd) in
  let! lines := sys (fun k => (proc_mtd k, k)) in
  match lines ≫= fun lines => find_mtd lines name with
  | Some i =>
      let! ret := sys (sys_open (dev_node block "/" i) true) in
      if ret <? 0 then sys (sys_open (dev_node block "" i) true) else xret ret
  | None => sys (sys_open mtd true)
  end.

(** [mtd_check_open(mtd)]: the file descriptor, or [-1]; sets [mtdsize], [erasesize] and
    [mtdtype]. *)
Definition mtd_check_open (mtd : string) : prog Z :=
  let! fd := mtd_open mtd false in
  if fd <? 0 then xret (-1)
  else
    let! info := sys (mem_getinfo fd) in
    match info with
    | None => do! sys_ (sys_close fd) in xret (-1)
    | Some info =>
        do! put (set_dev (mk_devinfo (i32 (info_size info)) (i32 (info_erasesize info)) (info_type info))) in
        xret fd
    end.

(** [mtd_block_is_bad(fd, offset)], [offset] an [int]. *)
Definition mtd_block_is_bad (fd offset : Z) : prog Z :=
  let! mtdtype := get (fun t => mtdtype (t_dev t)) in
  if mtdtype =? MTD_NANDFLASH then
    let! r := sys (mem_getbadblock fd (loff_t (i32 offset))) in
    if r <? 0 then exit 1 else xret r
  else xret 0.

(** [mtd_erase_block(fd, offset)]. *)
Definition mtd_erase_block (fd offset : Z) : prog Z :=
  let! erasesize := get (fun t => erasesize (t_dev t)) in
  let start := u32 (i32 offset) in
  let length := u32 erasesize in
  do! sys (mem_unlock fd start length) in
  let! r := sys (mem_erase fd start length) in
  if r <? 0 then xret (-1) else xret 0.

(** [mtd_write_buffer(fd, buf, offset, length)]: neither the seek nor the write is checked. *)
Definition mtd_write_buffer (fd : Z) (buf : list Z) (offset len : Z) : prog Z :=
  do! sys_ (sys_lseek fd (i32 offset) SEEK_SET) in
  let! bytes := load buf 0 len in
  do! sys (sys_write fd bytes) in
  xret 0.
End mtd_dev.
