(* ===== verification/ToolFix.v ===== *)
(** Image headers on flash: [trx.c], [seama.c], [wrg.c] and [wrgg.c] of
    [src/package/system/mtd/src].  The length and the checksum of a header are made to match
    the data that follow it, and the erase block of the header is rewritten. *)

From stdpp Require Import base list numbers strings.
From Stdlib Require Import ZArith Lia.
From S2P Require Import Prelude Platform ToolOs ToolCrc ToolMd5.
Local Open Scope Z_scope.
Local Open Scope cprog_scope.

Section headers.
Context `{Arch} {K : Type} `{Os K}.

Abbreviation prog := (X K).

Definition get_erasesize : prog Z := get (fun t => erasesize (t_dev t)).
Definition get_mtdsize : prog Z := get (fun t => mtdsize (t_dev t)).
Definition get_trxmagic : prog Z := get (fun t => opt_trxmagic (t_opt t)).

(** [offset & ~(erasesize - 1)]: the complement is an [int] that is extended to [size_t]. *)
Definition block_start (offset erasesize : Z) : Z := Z.land offset (size_t (Z.lnot (erasesize - 1))).

(** A [pread] that has to deliver all [len] bytes. *)
Definition pread_all (fd len off : Z) : prog (option (list Z)) :=
  let! r := sys (sys_pread fd (size_t len) off) in
  match r with
  | inl _ => xret None
  | inr bytes => xret (if Z.of_nat (length bytes) =? size_t len then Some bytes else None)
  end.

(** Erasing the block of the header and writing it back. *)
Definition rewrite_block (fd : Z) (block : list Z) (block_offset : Z) : prog unit :=
  let! r := mtd_erase_block fd block_offset in
  if negb (r =? 0) then exit 1
  else
    let! erasesize := get_erasesize in
    let! bytes := load block 0 erasesize in
    let! w := sys (sys_pwrite fd bytes block_offset) in
    if negb (w =? erasesize) then exit 1 else xret tt.

(** The first block, read into memory from [malloc]. *)
Definition read_first_block (fd block_offset : Z) : prog (list Z) :=
  let! erasesize := get_erasesize in
  let! first_block := sys (sys_malloc (size_t erasesize)) in
  match first_block with
  | None => exit 1
  | Some b =>
      let! r := pread_all fd erasesize block_offset in
      match r with
      | None => exit 1
      | Some bytes => store b 0 bytes
      end
  end.

(** * trx.c *)

Definition TRX_CRC32_DATA_OFFSET : Z := 12.
Definition TRX_CRC32_DATA_SIZE : Z := 16.
(** [sizeof(struct trx_header)]; [magic], [len] and [crc32] are at 0, 4 and 8. *)
Definition sizeof_trx_header : Z := 28.

(** [STORE32_LE(X)] of a [size_t]: on a big-endian machine the result has 32 bits, on a
    little-endian one it is [X] itself.  Compared with or stored in a field, it is the
    little-endian reading of the field. *)
Definition STORE32_LE (x : Z) : Z := if big_endian then u32 x else size_t x.

Definition trx_fixup (fd : Z) (name : string) : prog Z :=
  let! info := sys (mem_getinfo fd) in
  match info with
  | None => xret (-1)
  | Some info =>
      let len := info_size info in
      if len <=? 0 then xret (-1)
      else
        let! bfd := mtd_open name true in
        let! ptr := sys (sys_mmap bfd len) in
        match ptr with
        | None => do! sys_ (sys_close bfd) in xret (-1)
        | Some m =>
            let! magic := load m 0 4 in
            let! opt_trxmagic := get_trxmagic in
            if negb (le_val (reverse magic) =? opt_trxmagic) then xret (-1)
            else
              let! h := load m 0 12 in
              let! crc := pure (crc32buf (drop 12 m) (cpu_field h 4 4 - 12)) in
              do! sys_ (sys_msync bfd (blit m 8 (cpu_bytes 4 crc))) in
              do! sys_ (sys_close bfd) in
              xret 0
        end
  end.

(** [trx_check(imagefd, mtd, buf, &buflen)]: reads the header into the image buffer.  An
    error of [read] is added to [*len] as [-1]. *)
Definition trx_check (imagefd : Z) (mtd : string) : prog Z :=
  if negb (bool_decide (mtd = "firmware"%string)) then xret 1
  else
    let! b := get (fun t => buf (t_img t)) in
    let! b := deref b in
    let! len := get (fun t => buflen (t_img t)) in
    let! (b, len) :=
      if len <? 32 then
        let! r := sys (sys_read imagefd (size_t (32 - len))) in
        match r with
        | inl _ => xret (b, len - 1)
        | inr bytes => let! b := store b len bytes in xret (b, len + Z.of_nat (length bytes))
        end
      else xret (b, len) in
    do! put (upd_img (fun i => set_buf (Some b) (set_buflen len i))) in
    if len <? 32 then xret 0
    else
      let! h := load b 0 8 in
      let! opt_trxmagic := get_trxmagic in
      if negb (be_field h 0 4 =? opt_trxmagic) || (cpu_field h 4 4 <? sizeof_trx_header) then xret 0
      else
        let! fd := mtd_check_open mtd in
        if fd <? 0 then exit 1
        else
          let! mtdsize := get_mtdsize in
          do! sys_ (sys_close fd) in
          xret (if u32 mtdsize <? cpu_field h 4 4 then 0 else 1).

(** The loop of [mtd_fixtrx] that collects the data from the good blocks: [to] is the number
    of bytes in [buf]. *)
Record trx_read := mk_trx_read { tr_buf : list Z; tr_to : Z; tr_off : Z; tr_left : Z }.

Definition trx_read_step (fd : Z) (st : trx_read) : prog (trx_read + trx_read) :=
  if tr_left st =? 0 then xret (inr st)
  else
    let! erasesize := get_erasesize in
    let read_block_offset := block_start (tr_off st) erasesize in
    let read_chunk := Z.min (size_t (erasesize - Z.land (tr_off st) (size_t (erasesize - 1)))) (tr_left st) in
    let! bad := mtd_block_is_bad fd read_block_offset in
    let! (b, to) :=
      if bad =? 0 then
        let! r := pread_all fd read_chunk (tr_off st) in
        match r with
        | None => exit 1
        | Some bytes => let! b := store (tr_buf st) (tr_to st) bytes in xret (b, tr_to st + read_chunk)
        end
      else xret (tr_buf st, tr_to st) in
    xret (inl (mk_trx_read b to (size_t (tr_off st + read_chunk)) (tr_left st - read_chunk))).

(** [mtd_fixtrx] from the second [malloc] on: the data are read and the header is made to
    match them.  [fuel] bounds the blocks read. *)
Definition fix_trx_header (fuel : nat) (fd : Z) (first_block : list Z)
    (block_offset offset data_offset data_size : Z) : prog Z :=
  let! b := sys (sys_malloc data_size) in
  match b with
  | None => exit 1
  | Some b =>
      let! st := xloop fuel (trx_read_step fd) (mk_trx_read b 0 data_offset data_size) in
      let data_size := tr_to st in
      let! crc := pure (crc32buf (tr_buf st) data_size) in
      let! h := load first_block offset 12 in
      if (le_field h 4 4 =? STORE32_LE (data_size + TRX_CRC32_DATA_OFFSET))
         && (le_field h 8 4 =? STORE32_LE crc)
      then do! sys_ (sys_close fd) in xret 0
      else
        let first_block :=
          blit (blit first_block (offset + 4) (le_bytes 4 (data_size + 12))) (offset + 8) (le_bytes 4 crc) in
        do! rewrite_block fd first_block block_offset in
        do! sys_ (sys_close fd) in
        do! sys_ sys_sync in
        xret 0
  end.

(** [mtd_fixtrx(mtd, offset, data_size)]. *)
Definition mtd_fixtrx (fuel : nat) (mtd : string) (offset data_size : Z) : prog Z :=
  let! fd := mtd_check_open mtd in
  if fd <? 0 then exit 1
  else
    let! erasesize := get_erasesize in
    let! mtdsize := get_mtdsize in
    let data_offset := size_t (offset + TRX_CRC32_DATA_OFFSET) in
    let data_size := if negb (data_size =? 0) then size_t (data_size + TRX_CRC32_DATA_SIZE)
                     else size_t (erasesize - TRX_CRC32_DATA_OFFSET) in
    let block_offset := block_start offset erasesize in
    let offset := size_t (offset - block_offset) in
    if size_t (data_offset + data_size) >? size_t mtdsize then exit 1
    else
      let! first_block := read_first_block fd block_offset in
      let! magic := load first_block offset 4 in
      let! opt_trxmagic := get_trxmagic in
      if negb (le_val (reverse magic) =? opt_trxmagic) then exit 1
      else fix_trx_header fuel fd first_block block_offset offset data_offset data_size.

(** * The headers with an MD5 digest

    [seama.c], [wrg.c] and [wrgg.c] are copies of each other with a different header.  The
    differences: where the fields are and how they are read and stored, and which header
    bytes the digest covers besides the data. *)
Record md5_header := mk_md5_header {
  mh_sizeof : Z;                        (* [sizeof] the structure *)
  mh_magic_off : Z;
  mh_magic : list Z -> bool;            (* its four bytes are right *)
  mh_size : list Z -> Z;                (* the image size *)
  mh_size_off : Z;
  mh_size_bytes : Z -> list Z;          (* how the size is stored *)
  mh_digest_off : Z;
  mh_extra : list Z -> Z;               (* bytes between the structure and the data *)
  mh_hashed : list Z -> list (list Z)   (* header fields that are hashed before the data *)
}.

Definition SEAMA_MAGIC : Z := 0x5ea3a417.
Definition WRG_MAGIC : Z := 0x20040220.
Definition WRGG03_MAGIC : Z := 0x20080321.

(** [struct seama_entity_header]: big-endian. *)
Definition seama_entity_header : md5_header := {|
  mh_sizeof := 28;
  mh_magic_off := 0;
  mh_magic b := le_val (reverse b) =? SEAMA_MAGIC;
  mh_size h := be_field h 8 4;
  mh_size_off := 8;
  mh_size_bytes := be_bytes 4;
  mh_digest_off := 12;
  mh_extra h := be_field h 6 2;
  mh_hashed h := []
|}.

(** [struct wrg_header]: little-endian; [offset] and [devname] are hashed. *)
Definition wrg_header : md5_header := {|
  mh_sizeof := 96;
  mh_magic_off := 32;
  mh_magic b := le_val b =? WRG_MAGIC;
  mh_size h := le_field h 40 4;
  mh_size_off := 40;
  mh_size_bytes := le_bytes 4;
  mh_digest_off := 80;
  mh_extra h := 0;
  mh_hashed h := [slice h 44 4; slice h 48 32]
|}.

(** [struct wrgg03_header]: the magic is little-endian, the size in the order of the CPU. *)
Definition wrgg03_header : md5_header := {|
  mh_sizeof := 160;
  mh_magic_off := 32;
  mh_magic b := le_val b =? WRGG03_MAGIC;
  mh_size h := cpu_field h 104 4;
  mh_size_off := 104;
  mh_size_bytes := cpu_bytes 4;
  mh_digest_off := 144;
  mh_extra h := 0;
  mh_hashed h := [slice h 108 4; slice h 112 32]
|}.

(** [seama_fix_md5], [wrg_fix_md5], [wrgg_fix_md5]: an error code, or the header with the new
    size and digest.  Callers test the result for zero only. *)
Definition fix_md5 (fmt : md5_header) (shdr : list Z) (fd data_offset data_size : Z) : prog (Z + list Z) :=
  let! b := sys (sys_malloc data_size) in
  match b with
  | None => xret (inl (- ENOMEM))
  | Some b =>
      let! r := pread_all fd data_size data_offset in
      match r with
      | None => xret (inl (- EIO))
      | Some bytes =>
          let! b := store b 0 bytes in
          let! data := load b 0 (u32 data_size) in
          let! garbage := sys (fun k => (stack_bytes 64 k, k)) in
          let ctx := MD5_Init (mk_MD5_CTX 0 0 (mk_md5_buf 0 0 0 0) garbage []) in
          let digest := fst (MD5_Final (foldl MD5_Update ctx (mh_hashed fmt shdr ++ [data]))) in
          if bool_decide (digest = slice shdr (mh_digest_off fmt) 16) then xret (inl (-1))
          else xret (inr (blit (blit shdr (mh_size_off fmt) (mh_size_bytes fmt (u32 data_size)))
                            (mh_digest_off fmt) digest))
      end
  end.

(** [mtd_fixseama], [mtd_fixwrg], [mtd_fixwrgg].  The block offset is computed before the
    device is opened, with the [erasesize] of the device opened last. *)
Definition fix_header (fmt : md5_header) (mtd : string) (offset data_size : Z) : prog Z :=
  let! old_erasesize := get_erasesize in
  let block_offset := block_start offset old_erasesize in
  let offset := size_t (offset - block_offset) in
  let! fd := mtd_check_open mtd in
  if fd <? 0 then exit 1
  else
    let! erasesize := get_erasesize in
    let! mtdsize := get_mtdsize in
    if size_t (block_offset + erasesize) >? size_t mtdsize then exit 1
    else
      let! first_block := read_first_block fd block_offset in
      let! magic := load first_block (offset + mh_magic_off fmt) 4 in
      if negb (mh_magic fmt magic) then exit 1
      else
      let! shdr := load first_block offset (mh_sizeof fmt) in
      if mh_size fmt shdr =? 0 then exit 1
      else
        let data_offset := size_t (offset + mh_sizeof fmt + mh_extra fmt shdr) in
        let data_size := if data_size =? 0 then size_t (mtdsize - data_offset) else data_size in
        let data_size := if data_size >? mh_size fmt shdr then mh_size fmt shdr else data_size in
        let! r := fix_md5 fmt shdr fd data_offset data_size in
        do! match r with
            | inl _ => xret tt
            | inr shdr => rewrite_block fd (blit first_block offset shdr) block_offset
            end in
        do! sys_ (sys_close fd) in
        do! sys_ sys_sync in
        xret 0.

Definition seama_fix_md5 := fix_md5 seama_entity_header.
Definition wrg_fix_md5 := fix_md5 wrg_header.
Definition wrgg_fix_md5 := fix_md5 wrgg03_header.
Definition mtd_fixseama := fix_header seama_entity_header.
Definition mtd_fixwrg := fix_header wrg_header.
Definition mtd_fixwrgg := fix_header wrgg03_header.
End headers.
