(* ===== verification/ToolTag.v ===== *)
(** Image tags on flash: [src/package/system/mtd/src/imagetag.c], which targets with a
    Broadcom boot loader link instead of [trx.c].  A tag of 256 bytes in front of kernel and
    root file system holds their lengths as decimal numbers and checksums of both and of
    itself; it is made to cover the kernel only. *)

From stdpp Require Import base list numbers strings.
From Stdlib Require Import ZArith Lia.
From S2P Require Import Prelude Platform CStrings ToolOs ToolCrc ToolFix.
Local Open Scope Z_scope.
Local Open Scope cprog_scope.

(** * [struct bcm_tag] *)

Definition IMAGE_LEN : Z := 10.
Definition CRC_START : Z := 0xFFFFFFFF.
Definition sizeof_bcm_tag : Z := 256.
Definition tag_total_length : Z := 62.
Definition tag_cfe_length : Z := 84.
Definition tag_root_length : Z := 106.
Definition tag_kernel_length : Z := 128.
Definition tag_fskernel_crc : Z := 196.
Definition tag_image_crc : Z := 216.
Definition tag_rootfs_crc : Z := 220.
Definition tag_kernel_crc : Z := 224.
Definition tag_header_crc : Z := 236.
(** The part of the tag in front of its last field, which is not used. *)
Definition tag_used : Z := 240.

Section tag.
Context `{Arch} {K : Type} `{Os K}.

Abbreviation prog := (X K).

(** [strntoul(str, NULL, 10, len)] on the bytes of the field; 0 when there is no memory. *)
Definition strntoul (field : list Z) : prog Z :=
  let! newstr := sys (sys_malloc (size_t (Z.of_nat (length field) + 1))) in
  match newstr with
  | Some _ => xret (u32 (strtoul10 (until_zero field)))
  | None => xret 0
  end.

(** [compute_crc32(crc, start, compute_len, fd)].  A failing [pread] returns -1, which
    [crc32] takes for an empty buffer and the loop for a byte that was given back. *)
Definition pread_crc (fd count offset crc : Z) : prog (Z * Z) :=
  let! r := sys (sys_pread fd count offset) in
  match r with
  | inl _ => xret (crc, -1)
  | inr bytes =>
      let! crc := pure (crc32 crc bytes (Z.of_nat (length bytes))) in
      xret (crc, Z.of_nat (length bytes))
  end.

Definition crc_step (fd : Z) (st : Z * Z * Z) : prog ((Z * Z * Z) + (Z * Z * Z)) :=
  let '(crc, offset, compute_len) := st in
  if negb (fd =? 0) && (1024 <=? compute_len) then
    let! (crc, res) := pread_crc fd 1024 offset crc in
    xret (inl (crc, offset + res, size_t (compute_len - res)))
  else xret (inr st).

Definition compute_crc32 (fuel : nat) (crc start compute_len fd : Z) : prog Z :=
  let! (crc, offset, compute_len) := xloop fuel (crc_step fd) (crc, start, compute_len) in
  if negb (fd =? 0) && (0 <? compute_len) then
    let! (crc, _) := pread_crc fd compute_len offset crc in
    xret crc
  else xret crc.

(** The tag as [trx_fixup] and [mtd_fixtrx] leave it: no root file system, the total length
    and the image checksums those of the kernel. *)
Definition shrink_tag (tag : list Z) : prog (list Z) :=
  let tag := blit tag tag_root_length [48; 0] in
  let tag := blit tag tag_total_length (strncpy_bytes 10 (slice tag tag_kernel_length IMAGE_LEN)) in
  let tag := blit tag tag_image_crc (slice tag tag_kernel_crc 4) in
  let tag := blit tag tag_fskernel_crc (slice tag tag_kernel_crc 4) in
  let tag := blit tag tag_rootfs_crc (cpu_bytes 4 CRC_START) in
  let! headercrc := pure (crc32 CRC_START tag tag_header_crc) in
  xret (blit tag tag_header_crc (cpu_bytes 4 headercrc)).

(** [trx_fixup(fd, name)]. *)
Definition trx_fixup (fuel : nat) (fd : Z) (name : string) : prog Z :=
  let! info := sys (mem_getinfo fd) in
  match info with
  | None => xret (-1)
  | Some info =>
      let len := info_size info in
      if len <=? 0 then xret (-1)
      else
        let! bfd := mtd_open name true in
        let! ptr := sys (sys_mmap bfd len) in
        match ptr with
        | None => do! sys_ (sys_close bfd) in xret (-1)
        | Some m =>
            let! tag := load m 0 tag_used in
            let! cfelen := strntoul (slice tag tag_cfe_length IMAGE_LEN) in
            if negb (cfelen =? 0) then exit 1
            else
              let! headercrc := compute_crc32 fuel CRC_START 0 tag_header_crc fd in
              if negb (headercrc =? cpu_field tag tag_header_crc 4) then exit 1
              else
                let! tag := shrink_tag tag in
                do! sys_ (sys_msync bfd (blit m 0 tag)) in
                do! sys_ (sys_close bfd) in
                xret 0
        end
  end.

(** [trx_check(imagefd, mtd, buf, &len)]: the tag is read to the start of the image buffer.
    The length -1 of a failing [read] is larger than [sizeof] as a [size_t]. *)
Definition trx_check (imagefd : Z) (mtd : string) : prog Z :=
  if negb (bool_decide (mtd = "linux"%string)) then xret 1
  else
    let! b := get (fun t => buf (t_img t)) in
    let! b := deref b in
    let! r := sys (sys_read imagefd sizeof_bcm_tag) in
    let! (b, len) :=
      match r with
      | inl _ => xret (b, -1)
      | inr bytes => let! b := store b 0 bytes in xret (b, Z.of_nat (length bytes))
      end in
    do! put (upd_img (fun i => set_buf (Some b) (set_buflen len i))) in
    if size_t len <? sizeof_bcm_tag then xret 0
    else
      let! tag := load b 0 tag_used in
      let! headerCRC := pure (crc32buf tag tag_header_crc) in
      if negb (cpu_field tag tag_header_crc 4 =? headerCRC) then xret 0
      else
        let! fd := mtd_check_open mtd in
        if fd <? 0 then exit 1
        else
          let! imageLen := strntoul (slice tag tag_total_length IMAGE_LEN) in
          let! mtdsize := get_mtdsize in
          do! sys_ (sys_close fd) in
          xret (if u32 mtdsize <? imageLen then 0 else 1).

(** [mtd_fixtrx(mtd, offset, data_size)]; the data size is not used.  The block offset is
    computed with the [erasesize] of the device opened last, and the checksum of the tag is
    read at its offset in the block, not in the device. *)
Definition mtd_fixtrx (fuel : nat) (mtd : string) (offset data_size : Z) : prog Z :=
  let! old_erasesize := get_erasesize in
  let block_offset := block_start offset old_erasesize in
  let offset := size_t (offset - block_offset) in
  let! fd := mtd_check_open mtd in
  if fd <? 0 then exit 1
  else
    let! erasesize := get_erasesize in
    let! mtdsize := get_mtdsize in
    if size_t (block_offset + erasesize) >? size_t mtdsize then exit 1
    else
      let! block := read_first_block fd block_offset in
      let! tag := load block offset tag_used in
      let! cfelen := strntoul (slice tag tag_cfe_length IMAGE_LEN) in
      if negb (cfelen =? 0) then exit 1
      else
        let! headercrc := compute_crc32 fuel CRC_START offset tag_header_crc fd in
        if negb (headercrc =? cpu_field tag tag_header_crc 4) then exit 1
        else
          let! rootfslen := strntoul (slice tag tag_root_length IMAGE_LEN) in
          if rootfslen =? 0 then do! sys_ (sys_close fd) in xret 0
          else
            let! tag := shrink_tag tag in
            do! rewrite_block fd (blit block offset tag) block_offset in
            do! sys_ (sys_close fd) in
            do! sys_ sys_sync in
            xret 0.

(** * The object file a target links *)

Inductive trx_object := trx_o | imagetag_o.

Definition linked_trx_fixup (fuel : nat) (o : trx_object) (fd : Z) (name : string) : prog Z :=
  match o with
  | trx_o => ToolFix.trx_fixup fd name
  | imagetag_o => trx_fixup fuel fd name
  end.
Definition linked_trx_check (o : trx_object) (imagefd : Z) (mtd : string) : prog Z :=
  match o with
  | trx_o => ToolFix.trx_check imagefd mtd
  | imagetag_o => trx_check imagefd mtd
  end.
Definition linked_mtd_fixtrx (fuel : nat) (o : trx_object) (mtd : string) (offset data_size : Z) : prog Z :=
  match o with
  | trx_o => ToolFix.mtd_fixtrx fuel mtd offset data_size
  | imagetag_o => mtd_fixtrx fuel mtd offset data_size
  end.
End tag.
