(* ===== verification/ToolFis.v ===== *)
(** FIS directories: [src/package/system/mtd/src/fis.c].  RedBoot keeps a table of the flash
    partitions in an erase block; [mtd] replaces the entries of the partitions it writes by
    new ones. *)

From stdpp Require Import base list numbers strings.
From Stdlib Require Import ZArith Lia.
From S2P Require Import Prelude Platform CStrings ToolOs ToolFix.
Local Open Scope Z_scope.
Local Open Scope cprog_scope.

(** [struct fis_part] ([offset] is not used), and [struct fis_image_desc], 256 bytes: the
    name, six words, padding, and two checksums at the end. *)
Record fis_part := mk_fis_part {
  fp_name : list Z;
  fp_loadaddr : Z;
  fp_size : Z;
  fp_length : Z;
  fp_crc : Z
}.

Definition sizeof_fis_image_desc : Z := 256.
Definition fis_name_len : nat := 16.

(** The static variables of [fis.c]. *)
Record fis := mk_fis { fis_fd : Z; fis_desc : option (list Z); fis_erasesize : Z }.
Definition fis_init : fis := mk_fis (-1) None 0.

(** [strncmp(a, b, 16) != 0] on names of 16 bytes. *)
Definition name_key (n : list Z) : list Z := until_zero (take fis_name_len n).
Definition name_eq (a b : list Z) : bool := bool_decide (name_key a = name_key b).

Section fis.
Context `{Arch} {K : Type} `{Os K}.

Abbreviation prog := (X K).

(** Entry [i] of the mapped block, and its fields. *)
Definition entry_at (m : list Z) (i : Z) : list Z := slice m (i * sizeof_fis_image_desc) sizeof_fis_image_desc.
Definition entry_name (e : list Z) : list Z := take fis_name_len e.
Definition entry_base (e : list Z) : Z := cpu_field e 16 4.
Definition entry_size (e : list Z) : Z := cpu_field e 24 4.

(** The end of the table: a name that starts with 0 or 0xff. *)
Definition entry_end (e : list Z) : bool :=
  match e with [] => true | b :: _ => (b =? 0) || (b =? 0xff) end.

Definition fis_close (f : fis) : prog fis :=
  do! (if 0 <=? fis_fd f then sys_ (sys_close (fis_fd f)) else xret tt) in
  xret (mk_fis (-1) None (fis_erasesize f)).

Definition fis_open (f : fis) : prog fis :=
  let! f := if 0 <=? fis_fd f then fis_close f else xret f in
  let! fd := mtd_check_open "FIS directory" in
  if fd <? 0 then fis_close (mk_fis fd (fis_desc f) (fis_erasesize f))
  else
    do! sys_ (sys_close fd) in
    let! fd := mtd_open "FIS directory" true in
    if fd <? 0 then fis_close (mk_fis fd (fis_desc f) (fis_erasesize f))
    else
      let! erasesize := get_erasesize in
      let! desc := sys (sys_mmap fd erasesize) in
      match desc with
      | Some m => xret (mk_fis fd (Some m) erasesize)
      | None => fis_close (mk_fis fd (fis_desc f) erasesize)
      end.

(** The entries of the table: the loop [while (desc < end)] with its [break].  The loop goes
    on while an entry starts inside the block; the block is whole entries. *)
Fixpoint table_entries (n : nat) (m : list Z) (i : Z) : list (list Z) :=
  match n with
  | O => []
  | S n =>
      let e := entry_at m i in
      if entry_end e then [] else e :: table_entries n m (i + 1)
  end.
Definition table (m : list Z) (erasesize : Z) : list (list Z) :=
  table_entries (Z.to_nat (erasesize / sizeof_fis_image_desc)) m 0.

Definition is_old (old : list fis_part) (e : list Z) : bool :=
  existsb (fun p => name_eq (entry_name e) (fp_name p)) old.

(** [fis_validate(old, n_old, new, n_new)]: 1 or -1. *)
Definition fis_validate (f : fis) (old new : list fis_part) : prog (Z * fis) :=
  let! f := fis_open f in
  match fis_desc f with
  | None => xret (-1, f)
  | Some m =>
      let r :=
        if existsb (fun p => fp_size p =? 0) (take (length new - 1) new) then -1
        else if (length (List.filter (is_old old) (table m (fis_erasesize f))) =? length old)%nat then 1 else -1 in
      let! f := fis_close f in
      xret (r, f)
  end.

(** One new entry. *)
Definition fis_entry (p : fis_part) (offset size : Z) : list Z :=
  let entry_size := if 0 <? fp_size p then fp_size p else size in
  take fis_name_len (fp_name p) ++ cpu_bytes 4 offset ++ cpu_bytes 4 (fp_loadaddr p) ++ cpu_bytes 4 entry_size ++
  cpu_bytes 4 (fp_loadaddr p) ++ cpu_bytes 4 (if 0 <? fp_length p then fp_length p else entry_size) ++
  replicate 212 0 ++ cpu_bytes 4 0 ++ cpu_bytes 4 (fp_crc p).

Fixpoint fis_entries (new : list fis_part) (offset size : Z) : list Z :=
  match new with
  | [] => []
  | p :: new =>
      let entry_size := if 0 <? fp_size p then fp_size p else size in
      fis_entry p offset size ++ fis_entries new (u32 (offset + entry_size)) (u32 (size - entry_size))
  end.

(** The positions of the first and the last entry with an old name. *)
Definition old_positions (old : list fis_part) (t : list (list Z)) : list nat :=
  List.filter (fun i => match t !! i with Some e => is_old old e | None => false end) (seq 0 (length t)).

(** The highest base, and the lowest one above [lo]. *)
Definition max_base (t : list (list Z)) : Z := foldl (fun o e => if o <? entry_base e then entry_base e else o) 0 t.
Definition next_base (lo : Z) (t : list (list Z)) (o : Z) : Z :=
  foldl (fun o e => if (lo <? entry_base e) && (entry_base e <? o) then entry_base e else o) o t.

(** The entries behind [last] are moved to follow [n_new] entries from [first] on.  When
    there are fewer new entries than before, the length of the [memset] that clears the rest
    is negative, a huge [size_t]. *)
Definition move_rest (m : list Z) (first last n_new : Z) : prog (list Z) :=
  let desc := first + n_new in
  let last := last + 1 in
  if desc =? last then xret m
  else
    let tmp := Z.max desc last * sizeof_fis_image_desc in
    let end_ := Z.of_nat (length m) in
    let! bytes := load m (last * sizeof_fis_image_desc) (size_t (end_ - tmp)) in
    let! m := store m (desc * sizeof_fis_image_desc) bytes in
    if desc <? last then
      let tmp := end_ - (last - desc) * sizeof_fis_image_desc in
      store m tmp (replicate (Z.to_nat (size_t (tmp - end_))) 0xff)
    else xret m.

(** [fis_remap(old, n_old, new, n_new)]: the mapped block is updated and written back.
    Without an entry with an old name [first] is a null pointer. *)
Definition fis_remap (f : fis) (old new : list fis_part) : prog (Z * fis) :=
  let! f := fis_open f in
  match fis_desc f with
  | None => xret (-1, f)
  | Some m =>
      let t := table m (fis_erasesize f) in
      let pos := old_positions old t in
      match head pos, List.last pos 0%nat with
      | None, _ => xfault
      | Some first, last =>
          let base i := entry_base (entry_at m (Z.of_nat i)) in
          let first_fb := Z.min (base first) (base last) in
          let last_fb := Z.max (base first) (base last) in
          let size := u32 (next_base last_fb t (max_base t) - first_fb) in
          let! m := move_rest m (Z.of_nat first) (Z.of_nat last) (Z.of_nat (length new)) in
          let! m := store m (Z.of_nat first * sizeof_fis_image_desc) (fis_entries new first_fb size) in
          do! sys_ (sys_msync (fis_fd f) m) in
          let! f := fis_close f in
          xret (0, f)
      end
  end.

End fis.
