(* ===== verification/ToolFlags.v ===== *)
(** Boot loader flags on flash: the boot counter of Linksys devices
    ([linksys_bootcount.c]) and the recovery flag of TP-Link devices
    ([tpl_ramips_recoveryflag.c]) of [src/package/system/mtd/src]. *)

From stdpp Require Import base list numbers strings.
From Stdlib Require Import ZArith Lia.
From S2P Require Import Prelude Platform ToolOs.
Local Open Scope Z_scope.
Local Open Scope cprog_scope.

Section flags.
Context `{Arch} {K : Type} `{Os K}.

Abbreviation prog := (X K).

(** * linksys_bootcount.c *)

Definition BOOTCOUNT_MAGIC : Z := 0x20110811.
Definition BC_OFFSET_INCREMENT_MIN : Z := 16.
(** [sizeof(struct bootcounter)]: [magic], [count] and [checksum]. *)
Definition sizeof_bootcounter : Z := 12.
(** [static char page[2048]]; [curr] points to it. *)
Definition page0 : list Z := replicate 2048 0.

Definition bc_offset_increment (info : mtd_info_user) : Z :=
  if info_writesize info <? BC_OFFSET_INCREMENT_MIN then BC_OFFSET_INCREMENT_MIN
  else info_writesize info.

(** The result of a [pread] that is not checked: what was delivered is in the buffer. *)
Definition pread_unchecked (fd len off : Z) (b : list Z) : prog (list Z) :=
  let! r := sys (sys_pread fd len off) in
  match r with
  | inl _ => xret b
  | inr bytes => store b 0 bytes
  end.

(** The loop over the records from number [i] on: the page, the number of the record it stops
    at and [last_count], or [None] for an unexpected magic. *)
Fixpoint bc_scan (fd inc : Z) (rounds : nat) (i : Z) (page : list Z) (last_count : Z) :
    prog (option (list Z * Z * Z)) :=
  match rounds with
  | O => xret (Some (page, i, last_count))
  | S rounds =>
      let! page := pread_unchecked fd sizeof_bootcounter (u32 (i * inc)) page in
      let! curr := load page 0 sizeof_bootcounter in
      let magic := cpu_field curr 0 4 in
      if negb (magic =? BOOTCOUNT_MAGIC) && negb (magic =? 0xffffffff) then xret None
      else if magic =? 0xffffffff then xret (Some (page, i, last_count))
      else bc_scan fd inc rounds (i + 1) page (i32 (cpu_field curr 4 4))
  end.

(** The record that is written: all ones but for the three fields. *)
Definition bc_record (page : list Z) (inc : Z) : prog (list Z) :=
  let! page := store page 0 (replicate (Z.to_nat inc) 0xff) in
  store page 0 (cpu_bytes 4 BOOTCOUNT_MAGIC ++ cpu_bytes 4 0 ++ cpu_bytes 4 BOOTCOUNT_MAGIC).

Definition mtd_resetbc (mtd : string) : prog Z :=
  let! fd := mtd_check_open mtd in
  let! info := sys (mem_getinfo fd) in
  match info with
  | None => do! sys_ (sys_close fd) in xret (-1)
  | Some info =>
      let inc := bc_offset_increment info in
      let num_bc := i32 (info_size info / inc) in
      let! r := bc_scan fd inc (Z.to_nat (u32 num_bc)) 0 page0 0 in
      match r with
      | None => do! sys_ (sys_close fd) in xret (-2)
      | Some (page, i, last_count) =>
          if last_count =? 0 then do! sys_ (sys_close fd) in xret 0
          else
            let! erased :=
              if i =? u32 num_bc then sys (mem_erase fd 0 (info_size info)) else xret 0 in
            if erased <? 0 then do! sys_ (sys_close fd) in xret (-3)
            else
              let i := if i =? u32 num_bc then 0 else i in
              let! page := bc_record page inc in
              let! bytes := load page 0 inc in
              let! ret := sys (sys_pwrite fd bytes (u32 (i * inc))) in
              if ret <? 0 then do! sys_ (sys_close fd) in xret (-4)
              else do! sys_ sys_sync in do! sys_ (sys_close fd) in xret 0
      end
  end.

(** * tpl_ramips_recoveryflag.c *)

Definition TPL_RECOVER_MAGIC : Z := 0x89abcdef.
Definition TPL_NO_RECOVER_MAGIC : Z := 0x00000000.

Definition recover_magic (recovery_active : bool) : Z :=
  if recovery_active then TPL_RECOVER_MAGIC else TPL_NO_RECOVER_MAGIC.

(** [mtd_tpl_recoverflag_write(mtd, recovery_active)].  The memory has the size of an erase
    block of the device opened before; opening the partition changes [erasesize]. *)
Definition mtd_tpl_recoverflag_write (mtd : string) (recovery_active : bool) : prog Z :=
  let! old_erasesize := get (fun t => erasesize (t_dev t)) in
  let! args := sys (sys_malloc (size_t old_erasesize)) in
  match args with
  | None => xret (-1)
  | Some args =>
      let! fd := mtd_check_open mtd in
      if fd <? 0 then do! sys_ (sys_close fd) in xret (-1)
      else
        let! erasesize := get (fun t => erasesize (t_dev t)) in
        let! args := pread_unchecked fd (size_t erasesize) 0 args in
        let magic := recover_magic recovery_active in
        let! word := load args 0 4 in
        if magic =? cpu_field word 0 4 then do! sys_ (sys_close fd) in xret 0
        else
          let! ret := sys (mem_erase fd 0 (u32 erasesize)) in
          if ret <? 0 then do! sys_ (sys_close fd) in xret ret
          else
            let! args := store args 0 (cpu_bytes 4 magic) in
            let! bytes := load args 0 (size_t erasesize) in
            let! ret := sys (sys_pwrite fd bytes 0) in
            do! sys_ sys_sync in
            do! sys_ (sys_close fd) in
            xret (i32 ret)
  end.
End flags.
