(* ===== verification/ToolJffs2.v ===== *)
(** Appending files to a JFFS2 file system: [jffs2.c] and [jffs2.h] of
    [src/package/system/mtd/src].  Nodes are collected in a buffer of one erase block, which
    is written to the next good block of the device when it is full. *)

From stdpp Require Import base list numbers strings.
From Stdlib Require Import ZArith Lia Ascii.
From S2P Require Import Prelude Platform ToolOs ToolCrc ToolFix ToolTag.
Local Open Scope Z_scope.
Local Open Scope cprog_scope.

Definition NODE_MAGIC : Z := 0x1985.
Definition KSAMTIB_CIGAM_2SFFJ : Z := 0x8519.
Definition JFFS2_NODETYPE_DIRENT : Z := 0xe001.
Definition JFFS2_NODETYPE_INODE : Z := 0xe002.
Definition JFFS2_EOF : list Z := [0xde; 0xad; 0xc0; 0xde].
Definition sizeof_raw_dirent : Z := 40.
Definition sizeof_raw_inode : Z := 68.
Definition S_IFDIR : Z := 0x4000.
Definition DT_DIR : Z := 4.
Definition DT_REG : Z := 8.

(** [PAD(x)] of a 32-bit field. *)
Definition PAD (x : Z) : Z := Z.land (u32 (x + 3)) 0xfffffffc.

Definition str_bytes (s : string) : list Z :=
  (fun c => Z.of_nat (nat_of_ascii c)) <$> Stdlib.Strings.String.list_ascii_of_string s.

(** [strrchr(name, '/')]: the part after the last slash. *)
Fixpoint basename (s : string) (cur : string) : string :=
  match s with
  | EmptyString => cur
  | String c s => if Ascii.eqb c "/"%char then basename s s else basename s cur
  end.

(** [struct jffs2_raw_inode], the fields the tool sets. *)
Record raw_inode := mk_raw_inode {
  ri_ino : Z; ri_version : Z; ri_mode : Z; ri_isize : Z; ri_atime : Z; ri_mtime : Z;
  ri_ctime : Z; ri_offset : Z; ri_dsize : Z
}.

(** The variables of [jffs2.c]. *)
Definition set_last_ino (n : Z) (j : jffs2) : jffs2 :=
  mk_jffs2 n (last_version j) (j_buf j) (j_ofs j) (outfd j) (mtdofs j) (target_ino j).
Definition set_last_version (n : Z) (j : jffs2) : jffs2 :=
  mk_jffs2 (last_ino j) n (j_buf j) (j_ofs j) (outfd j) (mtdofs j) (target_ino j).
Definition set_j_buf (b : option (list Z)) (j : jffs2) : jffs2 :=
  mk_jffs2 (last_ino j) (last_version j) b (j_ofs j) (outfd j) (mtdofs j) (target_ino j).
Definition set_j_ofs (n : Z) (j : jffs2) : jffs2 :=
  mk_jffs2 (last_ino j) (last_version j) (j_buf j) n (outfd j) (mtdofs j) (target_ino j).
Definition set_outfd (n : Z) (j : jffs2) : jffs2 :=
  mk_jffs2 (last_ino j) (last_version j) (j_buf j) (j_ofs j) n (mtdofs j) (target_ino j).
Definition set_mtdofs (n : Z) (j : jffs2) : jffs2 :=
  mk_jffs2 (last_ino j) (last_version j) (j_buf j) (j_ofs j) (outfd j) n (target_ino j).
Definition set_target_ino (n : Z) (j : jffs2) : jffs2 :=
  mk_jffs2 (last_ino j) (last_version j) (j_buf j) (j_ofs j) (outfd j) (mtdofs j) n.

Section jffs2.
Context `{Arch} {K : Type} `{Os K}.

Abbreviation prog := (X K).

Definition jget {A} (f : jffs2 -> A) : prog A := get (fun t => f (t_jffs2 t)).
Definition jput (f : jffs2 -> jffs2) : prog unit := put (upd_jffs2 f).

(** [memcpy(buf + ofs, src, len)] and [memset]. *)
Definition jstore (ofs : Z) (src : list Z) : prog unit :=
  let! b := jget j_buf in
  let! b := deref b in
  let! b := store b ofs src in
  jput (set_j_buf (Some b)).

Definition CLEANMARKER : list Z :=
  if big_endian then [0x19; 0x85; 0x20; 0x03; 0x00; 0x00; 0x00; 0x0c; 0xf0; 0x60; 0xdc; 0x98]
  else [0x85; 0x19; 0x03; 0x20; 0x0c; 0x00; 0x00; 0x00; 0xb1; 0xb0; 0x1e; 0xe4].

(** * The buffer *)

(** The loop of [pad] over bad blocks; [fuel] bounds their number. *)
Definition skip_bad_block (_ : unit) : prog (unit + unit) :=
  let! fd := jget outfd in
  let! o := jget mtdofs in
  let! bad := mtd_block_is_bad fd o in
  let! mtdsize := get_mtdsize in
  if negb (bad =? 0) && (o <? mtdsize) then
    let! erasesize := get_erasesize in
    do! jput (set_mtdofs (i32 (o + erasesize))) in
    do! sys_ (sys_lseek fd erasesize SEEK_CUR) in
    xret (inl tt)
  else xret (inr tt).

(** Writing the buffer to the next good block; neither call is checked. *)
Definition flush_block (fuel : nat) : prog unit :=
  do! xloop fuel skip_bad_block tt in
  let! fd := jget outfd in
  let! o := jget mtdofs in
  do! mtd_erase_block fd o in
  let! erasesize := get_erasesize in
  let! b := jget j_buf in
  let! b := deref b in
  let! bytes := load b 0 erasesize in
  do! sys (sys_write fd bytes) in
  jput (set_mtdofs (i32 (o + erasesize))).

Definition pad (fuel : nat) (size : Z) : prog unit :=
  let! ofs := jget j_ofs in
  let! erasesize := get_erasesize in
  if (Z.rem ofs size =? 0) && (ofs <? erasesize) then xret tt
  else
    let n := size - Z.rem ofs size in
    do! (if ofs <? erasesize then
           do! jstore ofs (replicate (Z.to_nat n) 0xff) in
           jput (set_j_ofs (ofs + n))
         else xret tt) in
    let! ofs := jget j_ofs in
    do! jput (set_j_ofs (Z.rem ofs erasesize)) in
    if Z.rem ofs erasesize =? 0 then flush_block fuel else xret tt.

Definition rbytes : prog Z :=
  let! ofs := jget j_ofs in
  let! erasesize := get_erasesize in
  xret (erasesize - Z.rem ofs erasesize).

(** [prep_eraseblock()]: it and [add_data] call each other; with less room than a clean
    marker the recursion does not end. *)
Definition prep_eraseblock : prog unit :=
  let! ofs := jget j_ofs in
  if ofs >? 0 then xret tt
  else
    let! erasesize := get_erasesize in
    if ofs + Z.of_nat (length CLEANMARKER) >? erasesize then (fun _ => Diverge)
    else
      do! jstore ofs CLEANMARKER in
      jput (set_j_ofs (ofs + Z.of_nat (length CLEANMARKER))).

Definition add_data (fuel : nat) (data : list Z) : prog unit :=
  let len := Z.of_nat (length data) in
  let! ofs := jget j_ofs in
  let! erasesize := get_erasesize in
  do! (if ofs + len >? erasesize then do! pad fuel erasesize in prep_eraseblock else xret tt) in
  let! ofs := jget j_ofs in
  do! jstore ofs data in
  jput (set_j_ofs (ofs + len)).

(** * Nodes

    The bytes of a node in the order of the CPU.  [hdr_crc] covers magic, type and length,
    [node_crc] the node up to the last two words, the third CRC the name or the data. *)
Definition node_header (nodetype totlen : Z) : prog (list Z) :=
  let h := cpu_bytes 2 NODE_MAGIC ++ cpu_bytes 2 nodetype ++ cpu_bytes 4 totlen in
  let! crc := pure (crc32 0 h 8) in
  xret (h ++ cpu_bytes 4 crc).

Definition dirent_node (name : list Z) (type parent ino version : Z) : prog (list Z) :=
  let n := Z.of_nat (length name) in
  let! name_crc := pure (crc32 0 name n) in
  let! h := node_header JFFS2_NODETYPE_DIRENT (u32 (sizeof_raw_dirent + n)) in
  let b := h ++ cpu_bytes 4 parent ++ cpu_bytes 4 version ++ cpu_bytes 4 ino ++ cpu_bytes 4 0
             ++ [u8 n; type; 0; 0] in
  let! node_crc := pure (crc32 0 b 32) in
  xret (b ++ cpu_bytes 4 node_crc ++ cpu_bytes 4 name_crc ++ name).

Definition inode_node (ri : raw_inode) (data_crc : Z) : prog (list Z) :=
  let! h := node_header JFFS2_NODETYPE_INODE (u32 (sizeof_raw_inode + ri_dsize ri)) in
  let b := h ++ cpu_bytes 4 (ri_ino ri) ++ cpu_bytes 4 (ri_version ri) ++ cpu_bytes 4 (ri_mode ri)
             ++ cpu_bytes 2 0 ++ cpu_bytes 2 0 ++ cpu_bytes 4 (ri_isize ri)
             ++ cpu_bytes 4 (ri_atime ri) ++ cpu_bytes 4 (ri_mtime ri) ++ cpu_bytes 4 (ri_ctime ri)
             ++ cpu_bytes 4 (ri_offset ri) ++ cpu_bytes 4 (ri_dsize ri) ++ cpu_bytes 4 (ri_dsize ri)
             ++ [0; 0] ++ cpu_bytes 2 0 in
  let! node_crc := pure (crc32 0 b 60) in
  xret (b ++ cpu_bytes 4 data_crc ++ cpu_bytes 4 node_crc).

(** [add_dirent(name, type, parent)]: the inode number.  The test for room compares the
    difference of two [int]s as a [size_t]. *)
Definition add_dirent (fuel : nat) (name : list Z) (type parent : Z) : prog Z :=
  let n := Z.of_nat (length name) in
  let! ofs := jget j_ofs in
  let! erasesize := get_erasesize in
  do! (if size_t (ofs - erasesize) <? size_t (sizeof_raw_dirent + n) then pad fuel erasesize else xret tt) in
  do! prep_eraseblock in
  let! ino := jget last_ino in
  let ino := i32 (ino + 1) in
  let! version := jget last_version in
  do! jput (set_last_ino (i32 (ino + 1))) in
  do! jput (set_last_version (i32 (version + 1))) in
  let! node := dirent_node name type parent ino version in
  let! ofs := jget j_ofs in
  do! jstore ofs node in
  do! jput (set_j_ofs (ofs + sizeof_raw_dirent + u8 n)) in
  do! pad fuel 4 in
  xret ino.

(** [add_dir(name, parent)]. *)
Definition add_dir (fuel : nat) (name : list Z) (parent : Z) : prog Z :=
  let! inode := add_dirent fuel name DT_DIR parent in
  let! r := rbytes in
  let! erasesize := get_erasesize in
  do! (if size_t r <? sizeof_raw_inode then pad fuel erasesize else xret tt) in
  do! prep_eraseblock in
  let! node := inode_node (mk_raw_inode inode 1 (Z.lor S_IFDIR 0x1ed) 0 0 0 0 0 0) 0 in
  do! add_data fuel node in
  do! pad fuel 4 in
  xret inode.

(** The inner loop of [add_file]: room for more than 128 bytes of data. *)
Definition room_step (fuel : nat) (_ : unit) : prog (unit + Z) :=
  let! r := rbytes in
  let len := i32 (size_t (r - sizeof_raw_inode)) in
  if len >? 128 then xret (inr len)
  else
    let! erasesize := get_erasesize in
    do! pad fuel erasesize in
    do! prep_eraseblock in
    xret (inl tt).

(** One round of the copying loop; the loop state is [f_offset]. *)
Definition copy_step (fuel : nat) (fd inode : Z) (st : stat) (f_offset : Z) : prog (Z + unit) :=
  let! len := xloop fuel (room_step fuel) tt in
  let len := if len >? 4096 then 4096 else len in
  let! r := sys (sys_read fd len) in
  match r with
  | inl _ => xret (inr tt)
  | inr [] => xret (inr tt)
  | inr wbuf =>
      let len := Z.of_nat (length wbuf) in
      let! version := jget last_version in
      let version := i32 (version + 1) in
      do! jput (set_last_version version) in
      let! data_crc := pure (crc32 0 wbuf len) in
      let! node := inode_node (mk_raw_inode inode version (st_mode st) (st_size st) (st_atime st)
                                 (st_mtime st) (st_ctime st) f_offset len) data_crc in
      do! add_data fuel node in
      do! add_data fuel wbuf in
      do! pad fuel 4 in
      do! prep_eraseblock in
      xret (inl (i32 (f_offset + len)))
  end.

(** [add_file(name, parent)]. *)
Definition add_file (fuel : nat) (name : string) (parent : Z) : prog unit :=
  let! st := sys (sys_stat name) in
  match st with
  | None => xret tt
  | Some st =>
      let fname := basename name name in
      let! inode := add_dirent fuel (str_bytes fname) DT_REG parent in
      let! fd := sys (sys_open name false) in
      if fd <? 0 then xret tt
      else
        do! xloop fuel (copy_step fuel fd inode st) 0 in
        sys_ (sys_close fd)
  end.

(** Adding the file and the end marker, each padded to an erase block. *)
Definition add_file_eof (fuel : nat) (filename : string) : prog unit :=
  let! parent := jget target_ino in
  do! add_file fuel filename parent in
  let! erasesize := get_erasesize in
  do! pad fuel erasesize in
  do! add_data fuel JFFS2_EOF in
  pad fuel erasesize.

(** [mtd_replace_jffs2(mtd, fd, ofs, filename)]; its parameter [ofs] hides the variable of the
    file. *)
Definition mtd_replace_jffs2 (fuel : nat) (fd ofs : Z) (filename : string) : prog Z :=
  do! jput (set_outfd fd) in
  do! jput (set_mtdofs ofs) in
  let! erasesize := get_erasesize in
  let! b := sys (sys_malloc (size_t erasesize)) in
  do! jput (set_j_buf b) in
  do! jput (set_target_ino 1) in
  do! jput (fun j => if last_ino j =? 0 then set_last_ino 1 j else j) in
  do! add_file_eof fuel filename in
  do! jput (set_j_buf None) in
  let! o := jget mtdofs in
  xret (i32 (o - ofs)).

(** * Reading a file system *)

(** [!strncmp(name, dir, n)], [name] in the buffer, [dir] a string. *)
Fixpoint strncmp_eq (n : nat) (name dir : list Z) : prog bool :=
  match n with
  | O => xret true
  | S n =>
      match name with
      | [] => xfault
      | c :: name =>
          match dir with
          | [] => xret (c =? 0)
          | d :: dir => if negb (c =? d) then xret false else if c =? 0 then xret true else strncmp_eq n name dir
          end
      end
  end.

(** One node; the loop state is [ofs]. *)
Definition parse_node (b : list Z) (dir : string) (ofs : Z) : prog (Z + unit) :=
  let! erasesize := get_erasesize in
  if ofs >=? u32 erasesize then xret (inr tt)
  else
    let! magic := load b ofs 2 in
    if negb (cpu_field magic 0 2 =? NODE_MAGIC) then xret (inr tt)
    else
      let! node := load b ofs 8 in
      let ofs' := u32 (ofs + PAD (cpu_field node 4 4)) in
      if negb (cpu_field node 2 2 =? JFFS2_NODETYPE_DIRENT) then xret (inl ofs')
      else
        let! de := load b ofs 24 in
        let! same :=
          if negb (String.eqb dir EmptyString) && (cpu_field de 12 4 =? 1) then
            let! nsize := load b (ofs + 28) 1 in
            strncmp_eq (Z.to_nat (le_val nsize)) (drop (Z.to_nat (ofs + sizeof_raw_dirent)) b) (str_bytes dir)
          else xret false in
        do! jput (fun j => if (same : bool) then set_target_ino (i32 (cpu_field de 20 4)) j else j) in
        do! jput (fun j => if u32 (last_ino j) <? cpu_field de 20 4 then set_last_ino (i32 (cpu_field de 20 4)) j else j) in
        do! jput (fun j => if u32 (last_version j) <? cpu_field de 16 4 then set_last_version (i32 (cpu_field de 16 4)) j else j) in
        xret (inl ofs').

(** [mtd_parse_jffs2data(buf, dir)]; [fuel] bounds the nodes. *)
Definition mtd_parse_jffs2data (fuel : nat) (b : list Z) (dir : string) : prog unit :=
  xloop fuel (parse_node b dir) 0.

(** The loop of [mtd_write_jffs2] that looks for the end of the file system. *)
Inductive jffs2_end := FoundEnd | FdEof | WrongEndian.

Definition find_end_step (fuel : nat) (dir : string) (_ : unit) : prog (unit + jffs2_end) :=
  let! fd := jget outfd in
  let! erasesize := get_erasesize in
  let! r := sys (sys_read fd erasesize) in
  match r with
  | inl _ => xret (inr FdEof)
  | inr bytes =>
      do! jstore 0 bytes in
      if negb (Z.of_nat (length bytes) =? erasesize) then xret (inr FdEof)
      else
        do! jput (fun j => set_mtdofs (i32 (mtdofs j + erasesize)) j) in
        let! b := jget j_buf in
        let! b := deref b in
        let! magic := load b 0 2 in
        if cpu_field magic 0 2 =? KSAMTIB_CIGAM_2SFFJ then xret (inr WrongEndian)
        else if negb (cpu_field magic 0 2 =? NODE_MAGIC) then xret (inr FoundEnd)
        else
          do! mtd_parse_jffs2data fuel b dir in
          xret (inl tt)
  end.

(** [mtd_write_jffs2(mtd, filename, dir)]; [trx]: the file that
    defines the weak symbol [trx_fixup]. *)
Definition mtd_write_jffs2 (fuel : nat) (trx : option trx_object) (mtd filename dir : string) : prog Z :=
  let! fd := mtd_check_open mtd in
  do! jput (set_outfd fd) in
  if fd <? 0 then xret (-1)
  else
    let! erasesize := get_erasesize in
    let! b := sys (sys_malloc (size_t erasesize)) in
    do! jput (set_j_buf b) in
    match b with
    | None => do! sys_ (sys_close fd) in xret (-1)
    | Some _ =>
        do! jput (fun j => if String.eqb dir EmptyString then set_target_ino 1 j else j) in
        let! e := xloop fuel (find_end_step fuel dir) tt in
        let! err :=
          match e with
          | FdEof | WrongEndian => xret (-1)
          | FoundEnd =>
              do! jput (fun j => set_mtdofs (i32 (mtdofs j - erasesize)) j) in
              let! o := jget mtdofs in
              do! sys_ (sys_lseek fd o SEEK_SET) in
              do! jput (set_j_ofs 0) in
              do! jput (fun j => if last_ino j =? 0 then set_last_ino 1 j else j) in
              let! t := jget target_ino in
              do! (if t =? 0 then
                     let! ino := add_dir fuel (str_bytes dir) 1 in
                     jput (set_target_ino ino)
                   else xret tt) in
              do! add_file_eof fuel filename in
              do! match trx with
                  | Some o => let! _ := linked_trx_fixup fuel o fd mtd in xret tt
                  | None => xret tt
                  end in
              xret 0
          end in
        do! sys_ (sys_close fd) in
        do! jput (set_j_buf None) in
        xret err
    end.
End jffs2.
