(* ===== verification/ToolMtd.v ===== *)
(** The flash tool, [src/package/system/mtd/src/mtd.c]: its commands and [main].  The
    configuration modelled is the one without [FIS_SUPPORT]. *)

From stdpp Require Import base list numbers strings.
From Stdlib Require Import ZArith Lia Ascii.
From S2P Require Import Prelude Platform ToolOs ToolFix ToolTag ToolFlags ToolJffs2.
Local Open Scope Z_scope.
Local Open Scope cprog_scope.

Definition TRX_MAGIC : Z := 0x48445230.
Definition MAX_ARGS : nat := 8.

(** The files a target links in: the weak symbols that are defined. *)
Record target := mk_target {
  trx_file : option trx_object;  (* [trx_fixup], [trx_check], [mtd_fixtrx] *)
  has_seama : bool;
  has_wrg : bool;
  has_wrgg : bool;
  has_resetbc : bool;
  has_recoverflag : bool;
  target_brcm : bool
}.

Section mtd.
Context `{Arch} {K : Type} `{Os K} (tg : target).

Abbreviation prog := (X K).

Definition iget {A} (f : image -> A) : prog A := get (fun t => f (t_img t)).
Definition oget {A} (f : options -> A) : prog A := get (fun t => f (t_opt t)).
Definition iput (f : image -> image) : prog unit := put (upd_img f).

(** * Checking the image *)

(** The loop that reads the magic: it ends with the first call that delivers nothing. *)
Definition read_magic_step (imagefd : Z) (_ : unit) : prog (unit + unit) :=
  let! buflen := iget buflen in
  if buflen >=? 4 then xret (inr tt)
  else
    let! r := sys (sys_read imagefd (4 - buflen)) in
    match r with
    | inl _ => xret (inr tt)
    | inr bytes =>
        if Z.of_nat (length bytes) <? 1 then xret (inr tt)
        else
          let! b := iget buf in
          let! b := deref b in
          let! b := store b buflen bytes in
          do! iput (fun i => set_buf (Some b) (set_buflen (buflen + Z.of_nat (length bytes)) i)) in
          xret (inl tt)
    end.

Definition image_format (magic : list Z) (opt_trxmagic : Z) (old : mtd_image_format) : mtd_image_format :=
  if le_val (reverse magic) =? opt_trxmagic then MTD_IMAGE_FORMAT_TRX
  else if le_val (reverse magic) =? SEAMA_MAGIC then MTD_IMAGE_FORMAT_SEAMA
  else if le_val magic =? WRG_MAGIC then MTD_IMAGE_FORMAT_WRG
  else if le_val magic =? WRGG03_MAGIC then MTD_IMAGE_FORMAT_WRGG03
  else old.

(** [image_check(imagefd, mtd)]. *)
Definition image_check (imagefd : Z) (mtd : string) : prog Z :=
  do! xloop 5 (read_magic_step imagefd) tt in
  let! buflen := iget buflen in
  if buflen <? 4 then xret 0
  else
    let! b := iget buf in
    let! b := deref b in
    let! magic := load b 0 4 in
    let! opt_trxmagic := oget opt_trxmagic in
    do! iput (fun i => set_imageformat (image_format magic opt_trxmagic (imageformat i)) i) in
    let! format := iget imageformat in
    match format with
    | MTD_IMAGE_FORMAT_TRX =>
        match trx_file tg with Some o => linked_trx_check o imagefd mtd | None => xret 1 end
    | MTD_IMAGE_FORMAT_SEAMA | MTD_IMAGE_FORMAT_WRG | MTD_IMAGE_FORMAT_WRGG03 => xret 1
    | MTD_IMAGE_FORMAT_UNKNOWN =>
        xret (if target_brcm tg && String.eqb mtd "firmware" then 0 else 1)
    end.

(** [mtd_check(mtd)]: every device of the list can be opened; the image buffer gets the size
    of an erase block of the first. *)
Fixpoint check_devices (names : list string) : prog Z :=
  match names with
  | [] => xret 1
  | mtd :: next =>
      let! fd := mtd_check_open mtd in
      if fd <? 0 then xret 0
      else
        let! b := iget buf in
        do! match b with
            | Some _ => xret tt
            | None =>
                let! erasesize := get_erasesize in
                let! b := sys (sys_malloc (size_t erasesize)) in
                iput (set_buf b)
            end in
        do! sys_ (sys_close fd) in
        check_devices next
  end.
Definition mtd_check (mtd : string) : prog Z := check_devices (devices mtd).

(** * Unlocking, erasing *)

Fixpoint unlock_devices (names : list string) : prog Z :=
  match names with
  | [] => xret 0
  | mtd :: next =>
      let! fd := mtd_check_open mtd in
      if fd <? 0 then exit 1
      else
        let! mtdsize := get_mtdsize in
        do! sys (mem_unlock fd 0 (u32 mtdsize)) in
        do! sys_ (sys_close fd) in
        unlock_devices next
  end.
Definition mtd_unlock (mtd : string) : prog Z := unlock_devices (devices mtd).

(** One round of the loop of [mtd_erase]; the loop state is [mtdEraseInfo.start]. *)
Definition erase_step (fd : Z) (start : Z) : prog (Z + unit) :=
  let! mtdsize := get_mtdsize in
  if start >=? u32 mtdsize then xret (inr tt)
  else
    let! erasesize := get_erasesize in
    let! bad := mtd_block_is_bad fd start in
    do! (if bad =? 0 then
           do! sys (mem_unlock fd start (u32 erasesize)) in
           do! sys (mem_erase fd start (u32 erasesize)) in
           xret tt
         else xret tt) in
    xret (inl (u32 (start + erasesize))).

Definition mtd_erase (fuel : nat) (mtd : string) : prog Z :=
  let! fd := mtd_check_open mtd in
  if fd <? 0 then exit 1
  else
    do! xloop fuel (erase_step fd) 0 in
    do! sys_ (sys_close fd) in
    xret 0.

(** * Reading *)

(** One round of the loop of [mtd_dump]; the loop state is [size] and [offset]. *)
Definition dump_step (fd : Z) (b : list Z) (st : Z * Z) : prog ((Z * Z) + Z) :=
  let '(size, offset) := st in
  let again size offset := if size >? 0 then inl (size, offset) else inr 0 in
  let! erasesize := get_erasesize in
  let len := if size >? erasesize then erasesize else size in
  let! r := sys (sys_read fd len) in
  match r with
  | inl e => xret (if e =? EINTR then again size offset else inr (-1))
  | inr bytes =>
      let! _ := store b 0 bytes in
      let rlen := Z.of_nat (length bytes) in
      if (rlen =? 0) || negb (rlen =? len) then xret (inr 0)
      else
        let! bad := mtd_block_is_bad fd offset in
        if negb (bad =? 0) then xret (again size (i32 (offset + rlen)))
        else
          do! sys (sys_write 1 bytes) in
          xret (again (size - rlen) (i32 (offset + rlen)))
  end.

(** [mtd_dump(mtd, part_offset, size)]. *)
Definition mtd_dump (fuel : nat) (mtd : string) (part_offset size : Z) : prog Z :=
  let! fd := mtd_check_open mtd in
  if fd <? 0 then xret (-1)
  else
    let! mtdsize := get_mtdsize in
    let size := if size =? 0 then mtdsize else size in
    do! (if negb (part_offset =? 0) then sys_ (sys_lseek fd part_offset SEEK_SET) else xret tt) in
    let! erasesize := get_erasesize in
    let! b := sys (sys_malloc (size_t erasesize)) in
    match b with
    | None => xret (-1)
    | Some b =>
        let! ret := xloop fuel (dump_step fd b) (size, 0) in
        do! sys_ (sys_close fd) in
        xret ret
    end.

(** One round of the loop of [mtd_verify]: [st_size], and the bytes hashed so far. *)
Definition verify_step (fd : Z) (st : Z * list Z) : prog ((Z * list Z) + option (list Z)) :=
  let '(size, hashed) := st in
  let again size hashed := if size >? 0 then inl (size, hashed) else inr (Some hashed) in
  let len := if size >? 256 then 256 else size in
  let! r := sys (sys_read fd len) in
  match r with
  | inl e => xret (if e =? EINTR then again size hashed else inr None)
  | inr bytes =>
      let rlen := Z.of_nat (length bytes) in
      if rlen =? 0 then xret (inr (Some hashed))
      else xret (again (size - rlen) (hashed ++ bytes))
  end.

(** [mtd_verify(mtd, file)]; the result of [memcmp] matters only in being zero. *)
Definition mtd_verify (fuel : nat) (mtd file : string) : prog Z :=
  let! s := sys (sys_stat file) in
  match s with
  | None => xret (-1)
  | Some s =>
      let! f_md5 := sys (md5sum_file file) in
      match f_md5 with
      | None => xret (-1)
      | Some f_md5 =>
          let! fd := mtd_check_open mtd in
          if fd <? 0 then xret (-1)
          else
            let! r := xloop fuel (verify_step fd) (st_size s, []) in
            do! sys_ (sys_close fd) in
            match r with
            | None => xret (-1)
            | Some hashed => xret (if bool_decide (f_md5 = md5_bytes hashed) then 0 else 1)
            end
      end
  end.

(** * Writing an image

    The variables of [mtd_write] that live across rounds of its loop: the device and those
    that follow it in the list ([next]), the bytes written [w] and erased [e], [skip],
    [offset], [skip_bad_blocks], [jffs2_replaced].  ([buflen_raw] is for [FIS_SUPPORT].) *)
Record wstate := mk_wstate {
  ws_mtd : string;
  ws_next : list string;
  ws_fd : Z;
  ws_w : Z;
  ws_e : Z;
  ws_skip : Z;
  ws_offset : Z;
  ws_skip_bad : Z;
  ws_replaced : bool
}.

(** From the label [resume] to the loop: opening the device, seeking, the recovery flag. *)
Definition write_resume (mtd : string) (part_offset : Z) : prog Z :=
  let! fd := mtd_check_open mtd in
  if fd <? 0 then exit 1
  else
    do! (if part_offset >? 0 then sys_ (sys_lseek fd part_offset SEEK_SET) else xret tt) in
    let! part := oget tpl_uboot_args_part in
    match part with
    | Some p =>
        if has_recoverflag tg then
          let! result := mtd_tpl_recoverflag_write p true in
          if result <? 0 then exit 1 else xret fd
        else xret fd
    | None => xret fd
    end.

(** The loop that fills the buffer. *)
Definition fill_step (imagefd : Z) (_ : unit) : prog (unit + unit) :=
  let! erasesize := get_erasesize in
  let! buflen := iget buflen in
  if buflen >=? erasesize then xret (inr tt)
  else
    let! r := sys (sys_read imagefd (erasesize - buflen)) in
    match r with
    | inl e => xret (if (e =? EINTR) || (e =? EAGAIN) then inl tt else inr tt)
    | inr [] => xret (inr tt)
    | inr bytes =>
        let! b := iget buf in
        let! b := deref b in
        let! b := store b buflen bytes in
        do! iput (fun i => set_buf (Some b) (set_buflen (buflen + Z.of_nat (length bytes)) i)) in
        xret (inl tt)
    end.

(** Padding the buffer to an erase block. *)
Definition pad_buffer : prog unit :=
  let! erasesize := get_erasesize in
  let! buflen := iget buflen in
  if buflen <? erasesize then
    let! b := iget buf in
    let! b := deref b in
    let! b := store b buflen (replicate (Z.to_nat (erasesize - buflen)) 0xff) in
    iput (fun i => set_buf (Some b) (set_buflen erasesize i))
  else xret tt.

(** The loop that erases ahead.  It ends with the numbers [e] and [skip_bad_blocks], or with
    the failure to erase the block at [e], which keeps what was skipped before it. *)
Inductive erase_result := Erased (e skip_bad : Z) | EraseFailed (e skip_bad : Z).

Definition erase_ahead_step (fd part_offset w : Z) (st : Z * Z) : prog ((Z * Z) + erase_result) :=
  let '(e, skip_bad) := st in
  let! erasesize := get_erasesize in
  let! buflen := iget buflen in
  if ssize_t (w + buflen) >? ssize_t (e - skip_bad) then
    let! bad := mtd_block_is_bad fd e in
    if negb (bad =? 0) then
      do! sys_ (sys_lseek fd erasesize SEEK_CUR) in
      xret (inl (ssize_t (e + erasesize), i32 (skip_bad + erasesize)))
    else
      let! r := mtd_erase_block fd (size_t (e + part_offset)) in
      if r <? 0 then xret (inr (EraseFailed e skip_bad))
      else xret (inl (ssize_t (e + erasesize), skip_bad))
  else xret (inr (Erased e skip_bad)).

(** The branch for JFFS2 data: [None] when the block has to be written. *)
Definition write_jffs2_block (fuel : nat) (st : wstate) : prog (option wstate) :=
  let! file := oget jffs2file in
  let! skip_bytes := oget jffs2_skip_bytes in
  match file with
  | Some file =>
      if ws_w st >=? skip_bytes then
        let! b := iget buf in
        let! b := deref b in
        let! magic := load b 0 4 in
        if bool_decide (magic = JFFS2_EOF) then
          let! skip := mtd_replace_jffs2 fuel (ws_fd st) (i32 (ws_e st)) file in
          do! put (upd_opt (fun o => mk_options (no_erase o) None (jffs2dir o) (jffs2_skip_bytes o)
                              (opt_trxmagic o) (tpl_uboot_args_part o))) in
          let! buflen := iget buflen in
          do! iput (set_buflen 0) in
          xret (Some (mk_wstate (ws_mtd st) (ws_next st) (ws_fd st) (ssize_t (ws_w st + skip))
                        (ssize_t (ws_e st + skip)) (ssize_t (skip - buflen)) 0 (ws_skip_bad st) true))
        else
          let! dir := oget jffs2dir in
          do! mtd_parse_jffs2data fuel b dir in
          xret None
      else xret None
  | None => xret None
  end.

(** Going on with the next device after a block could not be erased: [w] and [e] start anew,
    [skip_bad_blocks] does not. *)
Definition write_next_device (part_offset e skip_bad : Z) (st : wstate) : prog wstate :=
  match ws_next st with
  | [] => exit 1
  | mtd :: next =>
      let! offset :=
        if ws_w st <? e then
          let! b := iget buf in
          let! b := deref b in
          let! bytes := load b (ws_offset st) (size_t (e - ws_w st)) in
          do! sys (sys_write (ws_fd st) bytes) in
          xret (u32 (e - ws_w st))
        else xret (ws_offset st) in
      do! sys_ (sys_close (ws_fd st)) in
      let! fd := write_resume mtd part_offset in
      xret (mk_wstate mtd next fd 0 0 (ws_skip st) offset skip_bad (ws_replaced st))
  end.

(** Writing the buffer. *)
Definition write_block (st : wstate) : prog wstate :=
  let! b := iget buf in
  let! b := deref b in
  let! buflen := iget buflen in
  let! bytes := load b (ws_offset st) buflen in
  let! result := sys (sys_write (ws_fd st) bytes) in
  if result <? buflen then exit 1
  else
    do! iput (set_buflen 0) in
    xret (mk_wstate (ws_mtd st) (ws_next st) (ws_fd st) (ssize_t (ws_w st + buflen)) (ws_e st)
            (ws_skip st) 0 (ws_skip_bad st) (ws_replaced st)).

(** A full buffer: erase what it needs and write it, or go on with the next device. *)
Definition erase_and_write (fuel : nat) (part_offset : Z) (st : wstate) : prog wstate :=
  let! no_erase := oget no_erase in
  if no_erase then write_block st
  else
    let! r := xloop fuel (erase_ahead_step (ws_fd st) part_offset (ws_w st)) (ws_e st, ws_skip_bad st) in
    match r with
    | EraseFailed e skip_bad => write_next_device part_offset e skip_bad st
    | Erased e skip_bad =>
        write_block (mk_wstate (ws_mtd st) (ws_next st) (ws_fd st) (ws_w st) e (ws_skip st)
                       (ws_offset st) skip_bad (ws_replaced st))
    end.

(** One round of the loop [for (;;)]. *)
Definition write_round (fuel : nat) (imagefd part_offset : Z) (st : wstate) : prog (wstate + wstate) :=
  do! xloop fuel (fill_step imagefd) tt in
  let! len := iget buflen in
  if len =? 0 then xret (inr st)
  else
    do! pad_buffer in
    let! len := iget buflen in
    if ws_skip st >? 0 then
      do! iput (set_buflen 0) in
      xret (inl (mk_wstate (ws_mtd st) (ws_next st) (ws_fd st) (ws_w st) (ws_e st)
                   (ssize_t (ws_skip st - len)) (ws_offset st) (ws_skip_bad st) (ws_replaced st)))
    else
      let! r := write_jffs2_block fuel st in
      match r with
      | Some st => xret (inl st)
      | None => let! st := erase_and_write fuel part_offset st in xret (inl st)
      end.

(** The checksums of the image after JFFS2 data have been put into it. *)
Definition write_fixup (fuel : nat) (st : wstate) : prog unit :=
  if ws_replaced st then
    let! format := iget imageformat in
    match format with
    | MTD_IMAGE_FORMAT_TRX =>
        match trx_file tg with
        | Some o => let! _ := linked_trx_fixup fuel o (ws_fd st) (ws_mtd st) in xret tt
        | None => xret tt
        end
    | MTD_IMAGE_FORMAT_SEAMA =>
        if has_seama tg then let! _ := mtd_fixseama (ws_mtd st) 0 0 in xret tt else xret tt
    | MTD_IMAGE_FORMAT_WRG =>
        if has_wrg tg then let! _ := mtd_fixwrg (ws_mtd st) 0 0 in xret tt else xret tt
    | MTD_IMAGE_FORMAT_WRGG03 =>
        if has_wrgg tg then let! _ := mtd_fixwrgg (ws_mtd st) 0 0 in xret tt else xret tt
    | MTD_IMAGE_FORMAT_UNKNOWN => xret tt
    end
  else xret tt.

(** [mtd_write(imagefd, mtd, NULL, part_offset)]. *)
Definition mtd_write (fuel : nat) (imagefd : Z) (mtd : string) (part_offset : Z) : prog Z :=
  match devices mtd with
  | [] => xfault
  | name :: next =>
      let! fd := write_resume name part_offset in
      let! st := xloop fuel (write_round fuel imagefd part_offset) (mk_wstate name next fd 0 0 0 0 0 false) in
      do! write_fixup fuel st in
      do! sys_ (sys_close (ws_fd st)) in
      let! part := oget tpl_uboot_args_part in
      match part with
      | Some p =>
          if has_recoverflag tg then
            let! result := mtd_tpl_recoverflag_write p false in
            if result <? 0 then exit 1 else xret 0
          else xret 0
      | None => xret 0
      end
  end.

(** * The command line *)

(** The local variables of [main] that options set; [erase] without its final [NULL]. *)
Record main_args := mk_main_args {
  a_force : bool;
  a_boot : bool;
  a_erase : list string;
  a_offset : Z;
  a_data_size : Z;
  a_part_offset : Z;
  a_dump_len : Z
}.

(** [usage()]. *)
Definition usage {A} : prog A := exit 1.

(** A numeric option. *)
Definition number (s : string) : prog Z :=
  let '(v, err) := strtoul s in
  if (err : bool) then usage else xret v.

(** One option that [getopt] delivers, with [optarg]. *)
Definition main_option (a : main_args) (ch : ascii) (optarg : string) : prog main_args :=
  let '(mk_main_args f bt er off ds po dl) := a in
  let opt g := do! put (upd_opt g) in xret a in
  if Ascii.eqb ch "f" then xret (mk_main_args true bt er off ds po dl)
  else if Ascii.eqb ch "r" then xret (mk_main_args f true er off ds po dl)
  else if Ascii.eqb ch "n" then
    opt (fun o => mk_options true (jffs2file o) (jffs2dir o) (jffs2_skip_bytes o) (opt_trxmagic o) (tpl_uboot_args_part o))
  else if Ascii.eqb ch "j" then
    opt (fun o => mk_options (no_erase o) (Some optarg) (jffs2dir o) (jffs2_skip_bytes o) (opt_trxmagic o) (tpl_uboot_args_part o))
  else if Ascii.eqb ch "s" then
    let! v := number optarg in
    opt (fun o => mk_options (no_erase o) (jffs2file o) (jffs2dir o) (i32 v) (opt_trxmagic o) (tpl_uboot_args_part o))
  else if Ascii.eqb ch "q" then xret a
  else if Ascii.eqb ch "e" then
    (* [erase] has room for eight pointers, one of them [NULL] *)
    if (length er + 1 <? MAX_ARGS)%nat then xret (mk_main_args f bt (er ++ [optarg]) off ds po dl) else xfault
  else if Ascii.eqb ch "d" then
    opt (fun o => mk_options (no_erase o) (jffs2file o) optarg (jffs2_skip_bytes o) (opt_trxmagic o) (tpl_uboot_args_part o))
  else if Ascii.eqb ch "p" then let! v := number optarg in xret (mk_main_args f bt er off ds (size_t v) dl)
  else if Ascii.eqb ch "l" then let! v := number optarg in xret (mk_main_args f bt er off ds po (size_t v))
  else if Ascii.eqb ch "M" then
    let! v := number optarg in
    opt (fun o => mk_options (no_erase o) (jffs2file o) (jffs2dir o) (jffs2_skip_bytes o) (u32 v) (tpl_uboot_args_part o))
  else if Ascii.eqb ch "o" then let! v := number optarg in xret (mk_main_args f bt er (size_t v) ds po dl)
  else if Ascii.eqb ch "c" then let! v := number optarg in xret (mk_main_args f bt er off (size_t v) po dl)
  else if Ascii.eqb ch "t" then
    opt (fun o => mk_options (no_erase o) (jffs2file o) (jffs2dir o) (jffs2_skip_bytes o) (opt_trxmagic o) (Some optarg))
  else usage.

Fixpoint main_options (a : main_args) (opts : list (ascii * string)) : prog main_args :=
  match opts with
  | [] => xret a
  | (ch, optarg) :: opts => let! a := main_option a ch optarg in main_options a opts
  end.

Inductive command :=
| CMD_ERASE | CMD_WRITE (imagefd : Z) | CMD_UNLOCK | CMD_JFFS2WRITE (imagefile : string)
| CMD_FIXTRX | CMD_FIXSEAMA | CMD_FIXWRG | CMD_FIXWRGG | CMD_VERIFY (imagefile : string)
| CMD_DUMP | CMD_RESETBC.

(** The commands with one argument, and whether the target has them. *)
Definition device_command (name : string) : option command :=
  if String.eqb name "unlock" then Some CMD_UNLOCK
  else if String.eqb name "erase" then Some CMD_ERASE
  else if String.eqb name "resetbc" && has_resetbc tg then Some CMD_RESETBC
  else if String.eqb name "fixtrx" && bool_decide (is_Some (trx_file tg)) then Some CMD_FIXTRX
  else if String.eqb name "fixseama" && has_seama tg then Some CMD_FIXSEAMA
  else if String.eqb name "fixwrg" && has_wrg tg then Some CMD_FIXWRG
  else if String.eqb name "fixwrgg" && has_wrgg tg then Some CMD_FIXWRGG
  else if String.eqb name "dump" then Some CMD_DUMP
  else None.

(** The choice of the command; [write] opens and checks the image before anything is erased. *)
Definition main_command (force : bool) (argv : list string) : prog (command * string) :=
  match argv with
  | [name; device] =>
      match device_command name with
      | Some cmd => xret (cmd, device)
      | None => usage
      end
  | [name; imagefile; device] =>
      if String.eqb name "verify" then xret (CMD_VERIFY imagefile, device)
      else if String.eqb name "write" then
        let! imagefd :=
          if String.eqb imagefile "-" then xret 0
          else
            let! fd := sys (sys_open imagefile false) in
            if fd <? 0 then exit 1 else xret fd in
        let! ok := mtd_check device in
        if ok =? 0 then exit 1
        else
          let! ok := image_check imagefd device in
          if (ok =? 0) && negb force then exit 1 else xret (CMD_WRITE imagefd, device)
      else if String.eqb name "jffs2write" then
        let! ok := mtd_check device in
        if ok =? 0 then exit 1 else xret (CMD_JFFS2WRITE imagefile, device)
      else usage
  | _ => usage
  end.

(** The devices of the options [-e]; the result says whether [device] is among them. *)
Fixpoint erase_devices (fuel : nat) (device : string) (erase : list string) (unlocked : bool) : prog bool :=
  match erase with
  | [] => xret unlocked
  | d :: erase =>
      do! mtd_unlock d in
      do! mtd_erase fuel d in
      erase_devices fuel device erase (unlocked || String.eqb d device)
  end.

(** The last [switch] of [main]; the results of the commands are not looked at. *)
Definition run_command (fuel : nat) (a : main_args) (cmd : command) (device : string) (unlocked : bool) : prog unit :=
  let unlock : prog unit := if unlocked then xret tt else do! mtd_unlock device in xret tt in
  let drop (m : prog Z) : prog unit := do! m in xret tt in
  match cmd with
  | CMD_UNLOCK => unlock
  | CMD_VERIFY file => drop (mtd_verify fuel device file)
  | CMD_DUMP => drop (mtd_dump fuel device (i32 (a_offset a)) (i32 (a_dump_len a)))
  | CMD_ERASE => do! unlock in drop (mtd_erase fuel device)
  | CMD_WRITE imagefd => do! unlock in drop (mtd_write fuel imagefd device (a_part_offset a))
  | CMD_JFFS2WRITE file =>
      do! unlock in
      let! dir := oget jffs2dir in
      drop (mtd_write_jffs2 fuel (trx_file tg) device file dir)
  | CMD_FIXTRX =>
      match trx_file tg with
      | Some o => drop (linked_mtd_fixtrx fuel o device (a_offset a) (a_data_size a))
      | None => xret tt
      end
  | CMD_RESETBC => drop (mtd_resetbc device)
  | CMD_FIXSEAMA => drop (mtd_fixseama device 0 (a_data_size a))
  | CMD_FIXWRG => drop (mtd_fixwrg device 0 (a_data_size a))
  | CMD_FIXWRGG => drop (mtd_fixwrgg device 0 (a_data_size a))
  end.

(** [main], after [getopt] has split the arguments into options and the rest. *)
Definition main (fuel : nat) (opts : list (ascii * string)) (argv : list string) : prog Z :=
  let! a := main_options (mk_main_args false false [] 0 0 0 0) opts in
  let! (cmd, device) := main_command (a_force a) argv in
  do! sys_ sys_sync in
  let! unlocked := erase_devices fuel device (a_erase a) false in
  do! run_command fuel a cmd device unlocked in
  do! sys_ sys_sync in
  do! (if a_boot a then sys_ sys_reboot else xret tt) in
  xret 0.
End mtd.
