(* ===== verification/ToolMtdFis.v ===== *)
(** The flash tool built with [FIS_SUPPORT] ([src/package/system/mtd/src/mtd.c]): the option
    [-F] describes the partitions an image consists of, [mtd_write] measures them while it
    writes, and replaces their entries in the FIS directory at the end. *)

From stdpp Require Import base list numbers strings.
From Stdlib Require Import ZArith Lia Ascii.
From S2P Require Import Prelude Platform CStrings ToolCrc ToolOs ToolFix ToolFis ToolFlags ToolJffs2 ToolMtd.
Local Open Scope Z_scope.
Local Open Scope cprog_scope.

(** The tokens [strtok] takes from a string one after the other: runs of other characters. *)
Fixpoint tokens_from (delim : ascii) (cur s : string) : list string :=
  let flush := if String.eqb cur "" then [] else [cur] in
  match s with
  | EmptyString => flush
  | String c s =>
      if Ascii.eqb c delim then flush ++ tokens_from delim "" s
      else tokens_from delim (cur ++ String c "")%string s
  end.
Definition tokens (delim : ascii) (s : string) : list string := tokens_from delim "" s.

(** [strtoul(s, NULL, 16)]. *)
Definition read_hex (s : list Z) : Z :=
  match s with
  | 48 :: 120 :: s | 48 :: 88 :: s => read_digits 16 0 s
  | s => read_digits 16 0 s
  end.
Definition strtoul16 `{Arch} : list Z -> Z := strtoul_with read_hex.

(** The variables of [mtd_write] for FIS: the arrays with the numbers of elements in use,
    [cur_part] (an index into [new_parts]), and the statics of [fis.c]. *)
Record fis_write := mk_fis_write {
  fw_old : list fis_part;
  fw_new : list fis_part;
  fw_n_new : nat;
  fw_cur : option nat;
  fw_fis : fis
}.

Definition zero_part : fis_part := mk_fis_part (replicate fis_name_len 0) 0 0 0 0.

Section mtd_fis.
Context `{Arch} {K : Type} `{Os K} (tg : target).

Abbreviation prog := (X K).

(** * The partitions on the command line *)

(** The old partitions: the names of the devices. *)
Definition old_part (name : string) : prog fis_part :=
  let bytes := ascii_bytes name in
  if (length bytes <=? fis_name_len)%nat then
    xret (mk_fis_part (bytes ++ replicate (fis_name_len - length bytes) 0) 0 0 0 0)
  else xfault.

(** One new partition, [<part>[:<size>[:<loadaddr>]]]. *)
Definition new_part (word : string) : prog fis_part :=
  match tokens ":" word with
  | [] => xfault
  | name :: rest =>
      let name := strncpy_bytes 15 (ascii_bytes name) ++ [0] in
      xret (mk_fis_part name
        (match rest with _ :: a :: _ => u32 (strtoul16 (ascii_bytes a)) | _ => 0 end)
        (match rest with sz :: _ => u32 (strtoul0 (ascii_bytes sz)) | [] => 0 end) 0 0)
  end.

Fixpoint parts_of (parse : string -> prog fis_part) (n : nat) (words : list string) : prog (list fis_part) :=
  match words with
  | [] => xret []
  | word :: words =>
      match n with
      | O => xfault
      | S n => let! p := parse word in let! ps := parts_of parse n words in xret (p :: ps)
      end
  end.

(** The first part of [mtd_write]: [None] without the option. *)
Definition fis_prepare (mtd : string) (fis_layout : option string) (part_offset : Z) : prog (option fis_write) :=
  match fis_layout with
  | None => xret None
  | Some layout =>
      let! old := parts_of old_part MAX_ARGS (devices mtd) in
      let! new := parts_of new_part MAX_ARGS (tokens "," layout) in
      let! (ret, f) := fis_validate fis_init old new in
      if ret <? 0 then exit 1
      else
        xret (Some (mk_fis_write old (new ++ replicate (MAX_ARGS - length new) zero_part) (length new)
                      (if part_offset =? 0 then Some O else None) f))
  end.

(** * Measuring the partitions *)

(** What one block of [raw] bytes of the image adds: [cur_part] goes on when the block does
    not fit into its partition. *)
Definition next_part (parts : list fis_part) (cur : nat) (raw : Z) : nat :=
  match parts !! cur with
  | Some p =>
      if negb (fp_size p =? 0) && (cur <? MAX_ARGS - 1)%nat && (u32 (fp_length p + raw) >? fp_size p)
      then S cur else cur
  | None => cur
  end.

Definition count_block (b : list Z) (raw : Z) (parts : list fis_part) (cur : nat) : prog (list fis_part * nat) :=
  let cur := next_part parts cur raw in
  let! p := deref (parts !! cur) in
  let! crc := pure (crc32 (fp_crc p) b raw) in
  xret (<[cur := mk_fis_part (fp_name p) (fp_loadaddr p) (fp_size p) (u32 (fp_length p + raw)) crc]> parts, cur).

Definition fis_count (b : list Z) (raw : Z) (fw : option fis_write) : prog (option fis_write) :=
  match fw with
  | None => xret None
  | Some fw =>
      match fw_cur fw with
      | None => xret (Some fw)
      | Some cur =>
          let! (parts, cur) := count_block b raw (fw_new fw) cur in
          xret (Some (mk_fis_write (fw_old fw) parts (fw_n_new fw) (Some cur) (fw_fis fw)))
      end
  end.

(** * Writing *)

(** Writing the buffer ([write_block]), and measuring it. *)
Definition fis_write_block (raw : Z) (fw : option fis_write) (st : wstate) : prog (wstate * Z * option fis_write) :=
  let! b := iget buf in
  let! b := deref b in
  let! st := write_block st in
  let! fw := fis_count b raw fw in
  xret (st, 0, fw).

Definition fis_erase_and_write (fuel : nat) (part_offset raw : Z) (fw : option fis_write) (st : wstate)
    : prog (wstate * Z * option fis_write) :=
  let! no_erase := oget no_erase in
  if no_erase then fis_write_block raw fw st
  else
    let! r := xloop fuel (erase_ahead_step (ws_fd st) part_offset (ws_w st)) (ws_e st, ws_skip_bad st) in
    match r with
    | EraseFailed e skip_bad => let! st := write_next_device tg part_offset e skip_bad st in xret (st, raw, fw)
    | Erased e skip_bad =>
        fis_write_block raw fw
          (mk_wstate (ws_mtd st) (ws_next st) (ws_fd st) (ws_w st) e (ws_skip st)
             (ws_offset st) skip_bad (ws_replaced st))
    end.

(** One round of the loop [for (;;)]; [raw] is [buflen_raw]. *)
Definition fis_write_round (fuel : nat) (imagefd part_offset : Z) (l : wstate * Z * option fis_write)
    : prog ((wstate * Z * option fis_write) + (wstate * option fis_write)) :=
  let '(st, raw, fw) := l in
  do! xloop fuel (fill_step imagefd) tt in
  let! len := iget buflen in
  let raw := if raw =? 0 then len else raw in
  if len =? 0 then xret (inr (st, fw))
  else
    do! pad_buffer in
    let! len := iget buflen in
    if ws_skip st >? 0 then
      do! iput (set_buflen 0) in
      xret (inl (mk_wstate (ws_mtd st) (ws_next st) (ws_fd st) (ws_w st) (ws_e st)
                   (ssize_t (ws_skip st - len)) (ws_offset st) (ws_skip_bad st) (ws_replaced st), 0, fw))
    else
      let! r := write_jffs2_block fuel st in
      match r with
      | Some st => xret (inl (st, 0, fw))
      | None => let! l := fis_erase_and_write fuel part_offset raw fw st in xret (inl l)
      end.

(** The update of the directory; a failure is only reported. *)
Definition fis_finish (fw : option fis_write) : prog unit :=
  match fw with
  | None => xret tt
  | Some fw => let! _ := fis_remap (fw_fis fw) (fw_old fw) (take (fw_n_new fw) (fw_new fw)) in xret tt
  end.

(** [mtd_write(imagefd, mtd, fis_layout, part_offset)]. *)
Definition fis_mtd_write (fuel : nat) (imagefd : Z) (mtd : string) (fis_layout : option string) (part_offset : Z) : prog Z :=
  let! fw := fis_prepare mtd fis_layout part_offset in
  match devices mtd with
  | [] => xfault
  | name :: next =>
      let! fd := write_resume tg name part_offset in
      let! (st, fw) := xloop fuel (fis_write_round fuel imagefd part_offset)
                         (mk_wstate name next fd 0 0 0 0 0 false, 0, fw) in
      do! write_fixup tg fuel st in
      do! fis_finish fw in
      do! sys_ (sys_close (ws_fd st)) in
      let! part := oget tpl_uboot_args_part in
      match part with
      | Some p =>
          if has_recoverflag tg then
            let! result := mtd_tpl_recoverflag_write p false in
            if result <? 0 then exit 1 else xret 0
          else xret 0
      | None => xret 0
      end
  end.

(** * The command line *)

Fixpoint fis_main_options (a : main_args) (fis_layout : option string) (opts : list (ascii * string))
    : prog (main_args * option string) :=
  match opts with
  | [] => xret (a, fis_layout)
  | (ch, optarg) :: opts =>
      if Ascii.eqb ch "F" then fis_main_options a (Some optarg) opts
      else let! a := main_option a ch optarg in fis_main_options a fis_layout opts
  end.

Definition fis_run_command (fuel : nat) (a : main_args) (fis_layout : option string) (cmd : command)
    (device : string) (unlocked : bool) : prog unit :=
  match cmd with
  | CMD_WRITE imagefd =>
      do! (if unlocked then xret tt else do! mtd_unlock device in xret tt) in
      do! fis_mtd_write fuel imagefd device fis_layout (a_part_offset a) in
      xret tt
  | _ => run_command tg fuel a cmd device unlocked
  end.

Definition fis_main (fuel : nat) (opts : list (ascii * string)) (argv : list string) : prog Z :=
  let! (a, fis_layout) := fis_main_options (mk_main_args false false [] 0 0 0 0) None opts in
  let! (cmd, device) := main_command tg (a_force a) argv in
  do! sys_ sys_sync in
  let! unlocked := erase_devices fuel device (a_erase a) false in
  do! fis_run_command fuel a fis_layout cmd device unlocked in
  do! sys_ sys_sync in
  do! (if a_boot a then sys_ sys_reboot else xret tt) in
  xret 0.
End mtd_fis.
