(* ===== verification/ToolOsSpec.v ===== *)
(** What the flash tool relies on of the system calls: an abstract state of the kernel, with
    flash devices and open files, and the documented effect of each call on it. *)

From stdpp Require Import base list numbers strings gmap.
From Stdlib Require Import ZArith Lia.
From S2P Require Import Prelude Platform ToolOs.
Local Open Scope Z_scope.
Local Open Scope cprog_scope.

(** * The abstract state of the kernel *)

(** A flash device: what [MEMGETINFO] says, its bytes, the offsets of its bad blocks. *)
Record flash := mk_flash {
  f_info : mtd_info_user;
  f_data : list Z;
  f_bad : list Z
}.

(** An open file: a flash device with the file position; a readable file with the bytes still
    to come and the number of interruptions still to come; anything else. *)
Inductive vfd :=
| FdFlash (dev : string) (pos : Z)
| FdStream (rest : list Z) (interrupts : nat)
| FdOther.

Record view := mk_view {
  v_flash : gmap string flash;
  v_fds : gmap Z vfd;
  (* the hardware carries out every request that is in range *)
  v_reliable : bool
}.

Definition set_fds (m : gmap Z vfd) (v : view) : view := mk_view (v_flash v) m (v_reliable v).
Definition set_flash (d : string) (f : flash) (v : view) : view :=
  mk_view (<[d := f]> (v_flash v)) (v_fds v) (v_reliable v).
Definition set_pos (fd : Z) (d : string) (p : Z) (v : view) : view :=
  set_fds (<[fd := FdFlash d p]> (v_fds v)) v.
Definition set_data (b : list Z) (f : flash) : flash := mk_flash (f_info f) b (f_bad f).

Definition f_size (f : flash) : Z := info_size (f_info f).
Definition f_eb (f : flash) : Z := info_erasesize (f_info f).

(** [fd] is the flash device [d], whose state is [f], at position [p]. *)
Definition flash_at (v : view) (fd : Z) (d : string) (f : flash) (p : Z) : Prop :=
  v_fds v !! fd = Some (FdFlash d p) /\ v_flash v !! d = Some f.

(** Outside [off, off + len) nothing has changed. *)
Definition same_outside (b b' : list Z) (off len : Z) : Prop :=
  length b' = length b /\
  forall i, 0 <= i -> i < off \/ off + len <= i -> b' !! Z.to_nat i = b !! Z.to_nat i.

(** A well-formed device: whole erase blocks, sizes an [int] can hold. *)
Record flash_ok (f : flash) : Prop := {
  fo_length : Z.of_nat (length (f_data f)) = f_size f;
  fo_bytes : Forall is_byte (f_data f);
  fo_eb : 0 < f_eb f;
  fo_size : 0 < f_size f;
  fo_small : f_size f + f_eb f < 2 ^ 31;
  fo_blocks : (f_eb f | f_size f);
  fo_bad : info_type (f_info f) = MTD_NANDFLASH \/ f_bad f = []
}.

Definition view_ok (v : view) : Prop := forall d f, v_flash v !! d = Some f -> flash_ok f.

(** The outcome of programming [bytes] at [p]: a failure, which can only have changed that
    range; or success, with the bytes stored if the range was erased. *)
Definition programmed (f : flash) (p : Z) (bytes : list Z) (f' : flash) (ok : bool) : Prop :=
  exists b', f' = set_data b' f /\
    (Forall is_byte (f_data f) -> Forall is_byte bytes -> Forall is_byte b') /\
    same_outside (f_data f) b' p (Z.of_nat (length bytes)) /\
    (ok = true -> Forall (eq 0xff) (slice (f_data f) p (Z.of_nat (length bytes))) ->
      b' = blit (f_data f) p bytes).

Definition erased (f : flash) (s l : Z) (f' : flash) (ok : bool) : Prop :=
  exists b', f' = set_data b' f /\ (Forall is_byte (f_data f) -> Forall is_byte b') /\
    same_outside (f_data f) b' s l /\
    (ok = true -> b' = blit (f_data f) s (replicate (Z.to_nat l) 0xff)).

(** * The calls

    [OsLaws] relates each call to the abstract state.  Nothing is said about calls on files of
    another kind. *)
Class OsView (K : Type) := view_of : K -> view.

Class OsLaws (K : Type) {O : Os K} {V : OsView K} : Prop := {
  law_open path w k r k' :
    sys_open path w k = (r, k') ->
    (r < 0 /\ view_of k' = view_of k) \/
    (0 <= r /\ v_fds (view_of k) !! r = None /\ exists h,
       view_of k' = set_fds (<[r := h]> (v_fds (view_of k))) (view_of k) /\
       match h with FdFlash d p => p = 0 /\ is_Some (v_flash (view_of k) !! d) | _ => True end);
  law_close fd k :
    view_of (sys_close fd k) = set_fds (delete fd (v_fds (view_of k))) (view_of k);
  law_getinfo fd k r k' :
    mem_getinfo fd k = (r, k') ->
    view_of k' = view_of k /\
    (forall info, r = Some info -> exists d f p, flash_at (view_of k) fd d f p /\ f_info f = info) /\
    (forall d f p, flash_at (view_of k) fd d f p -> v_reliable (view_of k) = true -> r = Some (f_info f));
  law_lseek fd off wh k d f p :
    flash_at (view_of k) fd d f p ->
    let t := match wh with SEEK_SET => off | SEEK_CUR => p + off end in
    0 <= t <= f_size f -> view_of (sys_lseek fd off wh k) = set_pos fd d t (view_of k);
  law_read_stream fd n k rest m r k' :
    v_fds (view_of k) !! fd = Some (FdStream rest m) -> 0 < n -> sys_read fd n k = (r, k') ->
    exists rest' m', view_of k' = set_fds (<[fd := FdStream rest' m']> (v_fds (view_of k))) (view_of k) /\
    match r with
    | inl e => (e = EINTR \/ e = EAGAIN) /\ rest' = rest /\ (m' < m)%nat
    | inr bytes => rest = bytes ++ rest' /\ Z.of_nat (length bytes) <= n /\ (m' <= m)%nat /\
        (bytes = [] -> rest = [])
    end;
  law_read_flash fd n k d f p r k' :
    flash_at (view_of k) fd d f p -> flash_ok f -> 0 <= n -> sys_read fd n k = (r, k') ->
    match r with
    | inl e => view_of k' = view_of k /\ v_reliable (view_of k) = false
    | inr bytes => bytes = slice (f_data f) p n /\
        view_of k' = set_pos fd d (p + Z.of_nat (length bytes)) (view_of k)
    end;
  law_read fd n k r k' :
    sys_read fd n k = (r, k') -> v_flash (view_of k') = v_flash (view_of k);
  law_write fd bytes k d f p r k' :
    flash_at (view_of k) fd d f p -> flash_ok f -> 0 <= p -> sys_write fd bytes k = (r, k') ->
    r <= Z.of_nat (length bytes) /\
    exists f' p', view_of k' = set_pos fd d p' (set_flash d f' (view_of k)) /\
      programmed f p bytes f' (r =? Z.of_nat (length bytes)) /\
      (r = Z.of_nat (length bytes) -> p' = p + r) /\
      (r <> Z.of_nat (length bytes) -> v_reliable (view_of k) = true ->
         f_size f < p + Z.of_nat (length bytes));
  law_pread fd n off k d f p r k' :
    flash_at (view_of k) fd d f p -> flash_ok f -> 0 <= n -> 0 <= off -> sys_pread fd n off k = (r, k') ->
    view_of k' = view_of k /\
    match r with
    | inl e => v_reliable (view_of k) = true -> f_size f < off + n
    | inr bytes => bytes = slice (f_data f) off n
    end;
  law_pwrite fd bytes off k d f p r k' :
    flash_at (view_of k) fd d f p -> flash_ok f -> 0 <= off -> sys_pwrite fd bytes off k = (r, k') ->
    r <= Z.of_nat (length bytes) /\
    exists f', view_of k' = set_flash d f' (view_of k) /\
      programmed f off bytes f' (r =? Z.of_nat (length bytes)) /\
      (r <> Z.of_nat (length bytes) -> v_reliable (view_of k) = true ->
         f_size f < off + Z.of_nat (length bytes));
  law_getbadblock fd o k d f p r k' :
    flash_at (view_of k) fd d f p -> mem_getbadblock fd o k = (r, k') ->
    view_of k' = view_of k /\
    (0 <= r -> 0 <= o < f_size f /\ r = if bool_decide (o ∈ f_bad f) then 1 else 0) /\
    (r < 0 -> v_reliable (view_of k) = true -> ~ 0 <= o < f_size f);
  law_unlock fd s l k r k' : mem_unlock fd s l k = (r, k') -> view_of k' = view_of k;
  law_erase fd s l k d f p r k' :
    flash_at (view_of k) fd d f p -> flash_ok f -> 0 <= s -> 0 <= l -> mem_erase fd s l k = (r, k') ->
    exists f', view_of k' = set_flash d f' (view_of k) /\ erased f s l f' (0 <=? r) /\
      (0 <= r -> s + l <= f_size f) /\
      (r < 0 -> v_reliable (view_of k) = true -> (f_eb f | s) -> (f_eb f | l) -> f_size f < s + l);
  law_malloc n k r k' :
    0 <= n -> sys_malloc n k = (r, k') -> view_of k' = view_of k /\
    (forall b, r = Some b -> Z.of_nat (length b) = n /\ Forall is_byte b) /\
    (r = None -> v_reliable (view_of k) = true -> 2 ^ 31 <= n);
  law_stack n k : length (stack_bytes n k) = Z.to_nat n /\ Forall is_byte (stack_bytes n k);
  law_sync k : view_of (sys_sync k) = view_of k;
  law_reboot k : v_flash (view_of (sys_reboot k)) = v_flash (view_of k);
  law_stat path k r k' : sys_stat path k = (r, k') -> view_of k' = view_of k;
  law_md5sum path k r k' : md5sum_file path k = (r, k') -> view_of k' = view_of k
}.

(** * Device operations of the tool *)

(** The variables [mtdsize], [erasesize] and [mtdtype] for a device. *)
Definition dev_vars (f : flash) : devinfo :=
  mk_devinfo (i32 (f_size f)) (i32 (f_eb f)) (info_type (f_info f)).

(** Copying a whole block. *)
Lemma blit_block d o x :
  (o + length x <= length d)%nat -> blit d (Z.of_nat o) x = take o d ++ x ++ drop (o + length x) d.
Proof. intros. unfold blit. by rewrite Nat2Z.id. Qed.

Lemma take_blit d o x n : (o + length x <= length d)%nat -> n = (o + length x)%nat ->
  take n (blit d (Z.of_nat o) x) = take o d ++ x.
Proof.
  intros Hl ->. rewrite blit_block by done. rewrite app_assoc.
  rewrite take_app_length'; [done|]. rewrite length_app, length_take. lia.
Qed.

Lemma drop_blit d o x n : (o + length x <= length d)%nat -> n = (o + length x)%nat ->
  drop n (blit d (Z.of_nat o) x) = drop n d.
Proof.
  intros Hl ->. rewrite blit_block by done. rewrite app_assoc.
  rewrite drop_app_length'; [done|]. rewrite length_app, length_take. lia.
Qed.

Lemma length_blit_nat d o x : (o + length x <= length d)%nat -> length (blit d (Z.of_nat o) x) = length d.
Proof. intros. apply length_blit; lia. Qed.

Lemma blit_blit_block d o x y :
  (o + length x <= length d)%nat -> length y = length x ->
  blit (blit d (Z.of_nat o) x) (Z.of_nat o) y = blit d (Z.of_nat o) y.
Proof.
  intros Hl Hy. rewrite (blit_block (blit _ _ _)) by (rewrite length_blit_nat; lia).
  rewrite drop_blit by lia. rewrite (blit_block d o y) by lia. f_equal.
  rewrite blit_block by done. rewrite take_app_le by (rewrite length_take; lia).
  rewrite take_take. f_equal. lia.
Qed.

Lemma blit_outside d o x :
  (o + length x <= length d)%nat -> same_outside d (blit d (Z.of_nat o) x) (Z.of_nat o) (Z.of_nat (length x)).
Proof.
  intros Hl. split; [by apply length_blit_nat|]. intros i Hi Hout.
  destruct Hout.
  - rewrite <- (lookup_take_lt (blit _ _ _) o), <- (lookup_take_lt d o) by lia.
    rewrite blit_block by done. rewrite take_app_le by (rewrite length_take; lia). by rewrite take_take, Nat.min_id.
  - replace (Z.to_nat i) with (o + length x + (Z.to_nat i - (o + length x)))%nat by lia.
    rewrite <- !lookup_drop. by rewrite drop_blit.
Qed.

Lemma blit_blit d o x y :
  0 <= o -> o + Z.of_nat (length x) <= Z.of_nat (length d) -> length y = length x ->
  blit (blit d o x) o y = blit d o y.
Proof. intros Ho Hl Hy. rewrite <- (Z2Nat.id o) by done. apply blit_blit_block; lia. Qed.

Lemma eb_le_size f : flash_ok f -> f_eb f <= f_size f.
Proof. intros Hok. apply Z.divide_pos_le; apply Hok. Qed.

Lemma dev_vars_ok f : flash_ok f -> dev_vars f = mk_devinfo (f_size f) (f_eb f) (info_type (f_info f)).
Proof.
  intros Hok. pose proof (eb_le_size f Hok). destruct Hok.
  unfold dev_vars. by rewrite !i32_small by lia.
Qed.

Lemma flash_ok_data f' b :
  flash_ok f' -> length b = length (f_data f') -> Forall is_byte b -> flash_ok (set_data b f').
Proof. intros [] Hl Hb. split; cbn; try done. by rewrite Hl. Qed.

Lemma flash_at_set_pos v fd d f p q : flash_at v fd d f p -> flash_at (set_pos fd d q v) fd d f q.
Proof. intros [Hf Hd]. split; [apply lookup_insert_eq|done]. Qed.

Lemma flash_at_set_flash v fd d f p f' : flash_at v fd d f p -> flash_at (set_flash d f' v) fd d f' p.
Proof. intros [Hf Hd]. split; [done|apply lookup_insert_eq]. Qed.

Section device.
Context `{A : Arch} `{!ArchLaws A} {K : Type} `{L : OsLaws K}.
Implicit Types (w : world K) (fd : Z) (d : string) (f : flash).

(** [mtd_check_open] sets the variables of the device it has opened. *)
Lemma check_open_vars mtd w fd w1 :
  mtd_check_open mtd w = Ret (inr fd) w1 -> 0 <= fd ->
  exists d f p, flash_at (view_of (w_os w1)) fd d f p /\
    w_tool w1 = set_dev (dev_vars f) (w_tool w).
Proof using L.
  unfold mtd_check_open, xbind, bind. intros E Hfd.
  assert (xwp (mtd_open mtd false) (fun _ _ => False) (fun _ w' => w_tool w' = w_tool w) w) as Hopen.
  { unfold mtd_open. apply xwp_bind, xwp_sys. intros lines k _.
    destruct (lines ≫= _) as [i|].
    - apply xwp_bind, xwp_sys. intros r k' _. destruct (r <? 0); [|done]. by apply xwp_sys.
    - by apply xwp_sys. }
  apply wp_inv in Hopen as ([c|r] & w2 & E2 & Ht); [done|]. rewrite E2 in E.
  destruct (Z.ltb_spec r 0); [injection E as <- _; lia|].
  unfold sys in E. destruct (mem_getinfo r (w_os w2)) as [info k] eqn:Ei.
  destruct (law_getinfo r (w_os w2) info k Ei) as (Hv & Hi & _).
  destruct info as [info|]; [|cbn in E; injection E as <- _; lia].
  destruct (Hi info eq_refl) as (d & f & p & Hat & <-).
  cbn in E. injection E as <- <-. cbn [w_tool w_os]. rewrite Hv, Ht. by exists d, f, p.
Qed.

(** A check for a bad block: the device must be a NAND device for the check to be made. *)
Lemma block_is_bad_spec fd o w d f p E (Q : Z -> world K -> Prop) :
  flash_at (view_of (w_os w)) fd d f p -> flash_ok f -> t_dev (w_tool w) = dev_vars f ->
  0 <= o < 2 ^ 31 ->
  (forall k, view_of k = view_of (w_os w) -> let w' := mk_world (w_tool w) k in
     (f_size f <= o \/ v_reliable (view_of (w_os w)) = false -> E 1 w') /\
     ((info_type (f_info f) = MTD_NANDFLASH -> o < f_size f) -> o ∈ f_bad f -> Q 1 w') /\
     ((info_type (f_info f) = MTD_NANDFLASH -> o < f_size f) -> o ∉ f_bad f -> Q 0 w')) ->
  xwp (mtd_block_is_bad fd o) E Q w.
Proof using L.
  intros Hat Hok Ht Ho HQ. unfold mtd_block_is_bad. xwp_step. xwp_step. rewrite Ht. cbn [mtdtype dev_vars].
  destruct (Z.eqb_spec (info_type (f_info f)) MTD_NANDFLASH) as [Hn|Hn].
  - apply xwp_bind, xwp_sys. intros r k Hr.
    rewrite i32_small in Hr by lia. unfold loff_t in Hr. rewrite u64_small in Hr by lia.
    destruct (Z.ltb_spec o (2 ^ 63)); [|lia].
    destruct (law_getbadblock fd o _ d f p r k Hat Hr) as (Hv & Hge & Hlt).
    destruct (HQ k Hv) as (HE & HQ1 & HQ0). destruct (Z.ltb_spec r 0) as [Hneg|Hpos].
    + apply xwp_exit, HE. destruct (v_reliable _); [|by right]. left. specialize (Hlt Hneg eq_refl). lia.
    + apply xwp_ret. destruct (Hge Hpos) as (Hin & ->).
      case_bool_decide; [apply HQ1|apply HQ0]; done || (intros; lia).
  - apply xwp_ret. destruct (fo_bad f Hok) as [|Hb]; [done|].
    destruct w as [t k]. destruct (HQ k eq_refl) as (_ & _ & HQ0). apply HQ0; [done|].
    rewrite Hb. by apply not_elem_of_nil.
Qed.

(** Erasing a block. *)
Lemma erase_block_spec fd o w d f p E (Q : Z -> world K -> Prop) :
  flash_at (view_of (w_os w)) fd d f p -> flash_ok f -> t_dev (w_tool w) = dev_vars f ->
  0 <= o < 2 ^ 31 -> (f_eb f | o) ->
  (forall k f' ok, view_of k = set_flash d f' (view_of (w_os w)) -> erased f o (f_eb f) f' ok ->
     (ok = true -> o + f_eb f <= f_size f) ->
     (ok = false -> v_reliable (view_of (w_os w)) = true -> f_size f < o + f_eb f) ->
     Q (if ok then 0 else -1) (mk_world (w_tool w) k)) ->
  xwp (mtd_erase_block fd o) E Q w.
Proof using L.
  intros Hat Hok Ht Ho Hdiv HQ. unfold mtd_erase_block. do 2 xwp_step. rewrite Ht, dev_vars_ok by done. cbn [erasesize].
  pose proof (fo_eb f Hok). pose proof (fo_size f Hok). pose proof (fo_small f Hok).
  pose proof (eb_le_size f Hok).
  rewrite i32_small, !u32_small by lia.
  apply xwp_bind, xwp_sys. intros r1 k1 Hu. pose proof (law_unlock _ _ _ _ _ _ Hu) as Hv1.
  apply xwp_bind, xwp_sys. intros r2 k2 He. cbn [w_os w_tool] in *.
  rewrite <- Hv1 in Hat. assert (0 <= f_eb f) as Hl by lia.
  destruct (law_erase fd o (f_eb f) _ _ _ _ _ _ Hat Hok (proj1 Ho) Hl He)
    as (f' & Hv2 & Her & Hin & Hrel). rewrite Hv1 in *.
  destruct (Z.ltb_spec r2 0); apply xwp_ret.
  - apply (HQ k2 f' false); try done; [|intros _ Hr; by apply Hrel].
    destruct (Z.leb_spec 0 r2); [lia|done].
  - apply (HQ k2 f' true); try done; [|intros _; by apply Hin].
    destruct (Z.leb_spec 0 r2); [done|lia].
Qed.
End device.
