(* ===== verification/ToolWriteSpec.v ===== *)
(** Writing an image: where its bytes go.  The reference definition places the image on the
    good blocks of a device in order; the loop of [mtd_write] implements it. *)

From stdpp Require Import base list numbers strings gmap.
From Stdlib Require Import ZArith Lia.
From S2P Require Import Prelude Platform ToolOs ToolFix ToolFlags ToolJffs2 ToolMtd ToolOsSpec.
Local Open Scope Z_scope.
Local Open Scope cprog_scope.

(** [tool_step] also runs the accesses to the variables of [mtd.c]. *)
Ltac tool_step :=
  first
    [ xwp_step
    | match goal with
      | |- xwp (iget _) _ _ _ => apply xwp_get
      | |- xwp (oget _) _ _ _ => apply xwp_get
      | |- xwp (iput _) _ _ _ => apply xwp_put
      | |- xwp get_mtdsize _ _ _ => apply xwp_get
      end; cbn beta ].

(** * The reference *)

(** An erase block full of [l], padded with ones. *)
Definition pad_block (eb : nat) (l : list Z) : list Z := take eb l ++ replicate (eb - length l) 0xff.

(** [place eb bads data img]: the contents of the device [data], whose blocks are bad or not
    according to [bads], after [img] has been written to it. *)
Fixpoint place (eb : nat) (bads : list bool) (data img : list Z) : list Z :=
  match bads with
  | [] => data
  | bad :: bads =>
      if bool_decide (img = []) then data
      else if (bad : bool) then take eb data ++ place eb bads (drop eb data) img
      else pad_block eb img ++ place eb bads (drop eb data) (drop eb img)
  end.

(** The bytes that fit on the good blocks. *)
Definition good_blocks (bads : list bool) : nat := length (filter (eq false) bads).
Definition room (eb : nat) (bads : list bool) : Z := Z.of_nat (eb * good_blocks bads).

(** The blocks of a device, in order: is it bad? *)
Definition f_ebn (f : flash) : nat := Z.to_nat (f_eb f).
Definition f_blocks (f : flash) : nat := Z.to_nat (f_size f / f_eb f).
Definition bad_flags (f : flash) : list bool :=
  (fun i => bool_decide (Z.of_nat i * f_eb f ∈ f_bad f)) <$> seq 0 (f_blocks f).

(** Every bad block has the contents it had. *)
Definition bad_kept (f f' : flash) : Prop :=
  forall o, o ∈ f_bad f -> 0 <= o -> (f_eb f | o) ->
    slice (f_data f') o (f_eb f) = slice (f_data f) o (f_eb f).

Lemma length_bad_flags f : length (bad_flags f) = f_blocks f.
Proof. unfold bad_flags. by rewrite length_fmap, length_seq. Qed.

Lemma blocks_size f : flash_ok f -> Z.of_nat (f_blocks f) * f_eb f = f_size f.
Proof.
  intros Hok. unfold f_blocks. pose proof (fo_eb f Hok). pose proof (fo_size f Hok).
  rewrite Z2Nat.id by (apply Z.div_pos; lia).
  destruct (fo_blocks f Hok) as [q Hq]. by rewrite Hq, Z.div_mul by lia.
Qed.

Lemma drop_bad_flags f k :
  (k < f_blocks f)%nat ->
  drop k (bad_flags f) = bool_decide (Z.of_nat k * f_eb f ∈ f_bad f) :: drop (S k) (bad_flags f).
Proof.
  intros Hk. apply drop_S. unfold bad_flags. by rewrite list_lookup_fmap, lookup_seq_lt.
Qed.

Lemma good_blocks_app l1 l2 : good_blocks (l1 ++ l2) = (good_blocks l1 + good_blocks l2)%nat.
Proof. unfold good_blocks. by rewrite filter_app, length_app. Qed.

Lemma take_S_bad_flags f k :
  (k < f_blocks f)%nat ->
  good_blocks (take (S k) (bad_flags f)) =
    (good_blocks (take k (bad_flags f)) + if bool_decide (Z.of_nat k * f_eb f ∈ f_bad f)%Z then 0 else 1)%nat.
Proof.
  intros Hk. erewrite take_S_r; [rewrite good_blocks_app; f_equal|].
  2: { unfold bad_flags. by rewrite list_lookup_fmap, lookup_seq_lt. }
  cbn [Nat.add]. case_bool_decide; reflexivity.
Qed.

Lemma length_pad_block eb l : length (pad_block eb l) = eb.
Proof. unfold pad_block. rewrite length_app, length_take, length_replicate. lia. Qed.

(** What is written has the size of the device, and bad blocks keep their contents. *)
Lemma length_place eb bads data img :
  (eb * length bads <= length data)%nat -> length (place eb bads data img) = length data.
Proof.
  revert data img. induction bads as [|bad bads IH]; intros data img Hl; [done|].
  cbn [place]. case_bool_decide; [done|].
  cbn [length] in Hl. destruct bad; rewrite length_app, IH by (rewrite length_drop; lia).
  - rewrite length_take, length_drop. lia.
  - rewrite length_pad_block, length_drop. lia.
Qed.

(** * The state of the device between two blocks

    [written f img k f' rem]: the first [k] blocks of [f'] are done with, [rem] is what is left
    of the image. *)
Record written (f : flash) (img : list Z) (k : nat) (f' : flash) (rem : list Z) : Prop := {
  wr_flash : f' = set_data (f_data f') f;
  wr_k : (k <= f_blocks f)%nat;
  wr_rest : drop (k * f_ebn f) (f_data f') = drop (k * f_ebn f) (f_data f);
  wr_length : length (f_data f') = length (f_data f);
  wr_bytes : Forall is_byte (f_data f');
  wr_bad : bad_kept f f';
  wr_place : place (f_ebn f) (bad_flags f) (f_data f) img =
    take (k * f_ebn f) (f_data f') ++
    place (f_ebn f) (drop k (bad_flags f)) (drop (k * f_ebn f) (f_data f)) rem;
  wr_count : rem <> [] ->
    Z.of_nat (length img) = room (f_ebn f) (take k (bad_flags f)) + Z.of_nat (length rem);
  wr_room : rem = [] -> Z.of_nat (length img) <= room (f_ebn f) (take k (bad_flags f))
}.

Lemma set_data_id f : set_data (f_data f) f = f.
Proof. by destruct f. Qed.

Lemma written_start f img : flash_ok f -> img <> [] -> written f img 0 f img.
Proof.
  intros Hok Hne. split; try done.
  - by rewrite set_data_id.
  - lia.
  - apply Hok.
  - intros _. unfold room. rewrite take_0. unfold good_blocks. cbn. lia.
Qed.

(** The image is stored when nothing is left of it. *)
Lemma written_done f img k f' : written f img k f' [] ->
  f' = set_data (place (f_ebn f) (bad_flags f) (f_data f) img) f.
Proof.
  intros Hw. rewrite (wr_flash _ _ _ _ _ Hw). f_equal. rewrite (wr_place _ _ _ _ _ Hw).
  assert (place (f_ebn f) (drop k (bad_flags f)) (drop (k * f_ebn f) (f_data f)) [] =
    drop (k * f_ebn f) (f_data f)) as ->.
  { destruct (drop k (bad_flags f)); [done|]. cbn [place]. by rewrite bool_decide_true. }
  rewrite <- (wr_rest _ _ _ _ _ Hw). by rewrite take_drop.
Qed.

Lemma slice_outside b b' s l o n :
  same_outside b b' s l -> 0 <= o -> 0 <= n -> o + n <= s \/ s + l <= o -> slice b' o n = slice b o n.
Proof.
  intros [_ Hs] Ho Hn Hd. unfold slice. apply list_eq. intros i.
  destruct (decide (i < Z.to_nat n)%nat).
  - rewrite !lookup_take_lt, !lookup_drop by done.
    specialize (Hs (o + Z.of_nat i)). replace (Z.to_nat o + i)%nat with (Z.to_nat (o + Z.of_nat i)) by lia.
    apply Hs; lia.
  - by rewrite !lookup_take_ge by lia.
Qed.

(** Blocks do not overlap. *)
Lemma blocks_apart eb o o' : 0 < eb -> (eb | o) -> (eb | o') -> o <> o' -> o + eb <= o' \/ o' + eb <= o.
Proof.
  intros He [a ->] [b ->] Hne. destruct (Z_lt_le_dec a b); [left; nia|right].
  assert (b < a); [|nia]. destruct (Z.eq_dec a b) as [->|]; [done|lia].
Qed.

(** Changes inside a good block keep the bad ones. *)
Lemma bad_kept_outside f f' b' o :
  flash_ok f -> bad_kept f f' -> o ∉ f_bad f -> (f_eb f | o) ->
  same_outside (f_data f') b' o (f_eb f) -> bad_kept f (set_data b' f').
Proof.
  intros Hok Hk Hgood Hdiv Hs o' Hbad Hpos Hdiv'. rewrite <- Hk by done. cbn [set_data f_data].
  pose proof (fo_eb f Hok). eapply slice_outside; [exact Hs|lia|lia|].
  apply blocks_apart; [lia|done|done|]. congruence.
Qed.

Lemma f_ebn_eb f : flash_ok f -> Z.of_nat (f_ebn f) = f_eb f.
Proof. intros Hok. pose proof (fo_eb f Hok). unfold f_ebn. lia. Qed.

Lemma f_data_blocks f : flash_ok f -> length (f_data f) = (f_blocks f * f_ebn f)%nat.
Proof.
  intros Hok. pose proof (blocks_size f Hok). pose proof (f_ebn_eb f Hok).
  pose proof (fo_length f Hok). nia.
Qed.

Lemma block_offset f k : flash_ok f -> Z.of_nat k * f_eb f = Z.of_nat (k * f_ebn f).
Proof. intros Hok. rewrite Nat2Z.inj_mul, f_ebn_eb; done. Qed.

Lemma take_block_S {B} (l : list B) k n : take (S k * n) l = take (k * n) l ++ take n (drop (k * n) l).
Proof. rewrite Nat.mul_succ_l. by rewrite take_take_drop. Qed.

(** A bad block is passed over. *)
Lemma written_skip f img k f' rem :
  flash_ok f -> written f img k f' rem -> rem <> [] -> (k < f_blocks f)%nat ->
  Z.of_nat k * f_eb f ∈ f_bad f -> written f img (S k) f' rem.
Proof.
  intros Hok Hw Hne Hk Hbad. pose proof (wr_place _ _ _ _ _ Hw) as Hp.
  rewrite drop_bad_flags in Hp by done. rewrite bool_decide_true in Hp by done. cbn [place] in Hp.
  rewrite bool_decide_false in Hp by done.
  assert (room (f_ebn f) (take (S k) (bad_flags f)) = room (f_ebn f) (take k (bad_flags f))) as Hr.
  { unfold room. rewrite take_S_bad_flags by done. rewrite bool_decide_true by done. do 2 f_equal. lia. }
  destruct Hw. split; try done.
  - rewrite Nat.mul_succ_l, <- !drop_drop. congruence.
  - rewrite take_block_S, <- app_assoc, wr_rest0. rewrite Nat.mul_succ_l, <- drop_drop. done.
  - by rewrite Hr.
Qed.

(** A good block gets the next part of the image. *)
Lemma written_block f img k f' rem :
  flash_ok f -> written f img k f' rem -> rem <> [] -> (k < f_blocks f)%nat ->
  Z.of_nat k * f_eb f ∉ f_bad f -> Forall is_byte rem ->
  written f img (S k)
    (set_data (blit (f_data f') (Z.of_nat (k * f_ebn f)) (pad_block (f_ebn f) rem)) f')
    (drop (f_ebn f) rem).
Proof.
  intros Hok Hw Hne Hk Hgood Hb. pose proof (wr_place _ _ _ _ _ Hw) as Hp.
  rewrite drop_bad_flags in Hp by done. rewrite bool_decide_false in Hp by done. cbn [place] in Hp.
  rewrite bool_decide_false in Hp by done. pose proof (f_data_blocks f Hok) as Hlen.
  assert (room (f_ebn f) (take (S k) (bad_flags f)) =
    room (f_ebn f) (take k (bad_flags f)) + Z.of_nat (f_ebn f)) as Hr.
  { unfold room. rewrite take_S_bad_flags by done. rewrite bool_decide_false by done. lia. }
  assert (k * f_ebn f + length (pad_block (f_ebn f) rem) <= length (f_data f'))%nat as Hin.
  { rewrite length_pad_block, (wr_length _ _ _ _ _ Hw), Hlen. nia. }
  pose proof Hin as Hin'. rewrite length_pad_block in Hin'.
  pose proof (wr_count _ _ _ _ _ Hw Hne) as Hc. pose proof (f_ebn_eb f Hok) as He.
  destruct Hw. cbn [set_data f_data f_info f_bad]. split; cbn [set_data f_data].
  - by rewrite wr_flash0.
  - lia.
  - rewrite Nat.mul_succ_l. rewrite drop_blit by (rewrite ?length_pad_block; lia).
    rewrite <- !drop_drop. congruence.
  - by rewrite length_blit_nat.
  - unfold blit, pad_block.
    repeat apply Forall_app_2; [by apply Forall_take|by apply Forall_take|by apply Forall_replicate|by apply Forall_drop].
  - apply (bad_kept_outside f f' _ (Z.of_nat k * f_eb f)); [done|done|done|by exists (Z.of_nat k)|].
    rewrite block_offset, <- He by done. pose proof (blit_outside _ _ _ Hin) as Ho.
    by rewrite length_pad_block in Ho.
  - rewrite Hp. rewrite Nat.mul_succ_l, take_blit by (rewrite ?length_pad_block; lia).
    by rewrite <- app_assoc, drop_drop.
  - intros Hne'. rewrite Hr, Hc. rewrite length_drop.
    destruct (decide (length rem <= f_ebn f)%nat); [|lia]. by rewrite drop_ge in Hne'.
  - intros Hnil. rewrite Hr, Hc.
    assert (length (drop (f_ebn f) rem) = 0%nat) as Hz by by rewrite Hnil. rewrite length_drop in Hz. lia.
Qed.

(** * The loop of [mtd_write]

    One device [d] with contents [f] at first, open as [fd]; the image [img] is what is in
    the buffer and what [imagefd] still delivers.  No JFFS2 file and no recovery flag. *)
Section loop.
Context `{A : Arch} `{!ArchLaws A} {K : Type} `{L : OsLaws K} (tg : target).
Context (fd imagefd : Z) (d : string) (f : flash) (img : list Z) (rel : bool) (opts : options).
Context (Hfds : imagefd <> fd) (Hok : flash_ok f).
Context (Hopts : no_erase opts = false /\ jffs2file opts = None /\ tpl_uboot_args_part opts = None).
Implicit Types (w : world K).

(** The variables and the device, apart from the image. *)
Record sys_at (f' : flash) (pos : Z) w : Prop := {
  sa_dev : t_dev (w_tool w) = dev_vars f;
  sa_opt : t_opt (w_tool w) = opts;
  sa_flash : flash_at (view_of (w_os w)) fd d f' pos;
  sa_rel : v_reliable (view_of (w_os w)) = rel
}.

(** The image: [buflen] bytes of [buf], then [rest] with at most [m] interruptions. *)
Record image_at (b : list Z) (bl : Z) (rest : list Z) (m : nat) w : Prop := {
  ia_buf : buf (t_img (w_tool w)) = Some b;
  ia_len : buflen (t_img (w_tool w)) = bl;
  ia_stream : exists n, v_fds (view_of (w_os w)) !! imagefd = Some (FdStream rest n) /\ (n <= m)%nat;
  ia_size : Z.of_nat (length b) = f_eb f;
  ia_range : 0 <= bl <= f_eb f;
  ia_bytes : Forall is_byte (take (Z.to_nat bl) b ++ rest)
}.

Definition image_left (b : list Z) (bl : Z) (rest : list Z) : list Z := take (Z.to_nat bl) b ++ rest.

(** The number of interruptions to come. *)
Definition interrupts_of w : nat :=
  match v_fds (view_of (w_os w)) !! imagefd with Some (FdStream _ n) => n | _ => O end.

Lemma get_erasesize_spec w f' pos E (Q : Z -> world K -> Prop) :
  sys_at f' pos w -> Q (f_eb f) w -> xwp get_erasesize E Q w.
Proof using Hok.
  intros Hs HQ. apply xwp_get. rewrite (sa_dev _ _ _ Hs), dev_vars_ok by exact Hok. exact HQ.
Qed.

(** Reading the image leaves the rest alone. *)
Lemma sys_at_stream f' pos w k h t :
  sys_at f' pos w -> view_of k = set_fds (<[imagefd := h]> (v_fds (view_of (w_os w)))) (view_of (w_os w)) ->
  t_dev t = t_dev (w_tool w) -> t_opt t = t_opt (w_tool w) -> sys_at f' pos (mk_world t k).
Proof using Hfds.
  intros [Hd Ho [Hf Hm] Hr] Hv Ht1 Ht2. split; cbn [w_tool w_os]; [congruence|congruence| |by rewrite Hv].
  rewrite Hv. split; [|done]. cbn [set_fds v_fds]. by rewrite lookup_insert_ne.
Qed.

(** Filling the buffer: what is left of the image does not change. *)
Lemma fill_buffer_spec fuel f' pos b bl rest m w E :
  sys_at f' pos w -> image_at b bl rest m w -> (Z.to_nat (f_eb f) + m < fuel)%nat ->
  xwp (xloop fuel (fill_step imagefd) tt) E (fun _ w' =>
    sys_at f' pos w' /\ exists b' bl' rest', image_at b' bl' rest' m w' /\
      image_left b' bl' rest' = image_left b bl rest /\ (bl' = f_eb f \/ rest' = [])) w.
Proof using Hfds Hok L.
  intros Hs Hi Hfuel. remember (image_left b bl rest) as rem eqn:Erem.
  eapply (xwp_loop (fun _ w' => sys_at f' pos w' /\ exists b' bl' rest', image_at b' bl' rest' m w' /\
      image_left b' bl' rest' = rem)
    (fun _ w' => Z.to_nat (f_eb f - buflen (t_img (w_tool w'))) + interrupts_of w')%nat).
  2: { split; [done|]. subst rem. by exists b, bl, rest. }
  2: { destruct Hi as [_ -> (n & Hn & Hle) _ ? _]. unfold interrupts_of. rewrite Hn. lia. }
  clear w b bl rest Hs Hi Hfuel Erem. intros [] w (Hs & b & bl & rest & Hi & Hleft).
  unfold fill_step. apply xwp_bind, (get_erasesize_spec w f' pos); [done|]. do 2 tool_step.
  destruct Hi as [Hb Hbl (n & Hn & Hnm) Hsz Hr Hby]. rewrite Hbl.
  destruct (Z.geb_spec bl (f_eb f)) as [Hfull|Hpart].
  { apply xwp_ret. split; [done|]. exists b, bl, rest.
    split_and!; [split; try done; by exists n|done|left; lia]. }
  apply xwp_bind, xwp_sys. intros r k Hread.
  assert (0 < f_eb f - bl) as Hpos by lia.
  destruct (law_read_stream imagefd (f_eb f - bl) (w_os w) rest n r k Hn Hpos Hread)
    as (rest' & n' & Hv & Hres).
  assert (v_fds (view_of k) !! imagefd = Some (FdStream rest' n')) as Hn'.
  { rewrite Hv. cbn [set_fds v_fds]. apply lookup_insert_eq. }
  assert (interrupts_of w = n) as Hiw by (unfold interrupts_of; by rewrite Hn).
  destruct r as [e|bytes].
  - destruct Hres as (He & -> & Hlt).
    assert ((e =? EINTR) || (e =? EAGAIN) = true) as ->.
    { apply orb_true_iff. rewrite !Z.eqb_eq. exact He. }
    apply xwp_ret. split; [split; [by eapply sys_at_stream|]|].
    + exists b, bl, rest. split; [|done]. split; try done. exists n'. split; [done|lia].
    + unfold interrupts_of at 1. cbn [w_os]. rewrite Hn', Hiw. cbn [w_tool]. lia.
  - destruct Hres as (-> & Hlen & Hle & Hnil). destruct bytes as [|c bytes].
    { apply xwp_ret. split; [by eapply sys_at_stream|]. exists b, bl, rest'.
      split_and!; [split; try done; exists n'; split; [done|lia]|done|right; by apply Hnil]. }
    set (cs := c :: bytes) in *. assert (0 < Z.of_nat (length cs)) by (cbn; lia).
    do 3 tool_step. cbn [w_tool]. rewrite Hb. unfold deref. do 2 tool_step.
    apply xwp_store; [lia|lia|]. do 3 tool_step.
    split; [split; [by eapply sys_at_stream|]|].
    + exists (blit b bl cs), (bl + Z.of_nat (length cs)), rest'.
      assert (take (Z.to_nat (bl + Z.of_nat (length cs))) (blit b bl cs) = take (Z.to_nat bl) b ++ cs) as Ht.
      { rewrite <- (Z2Nat.id bl) at 2 by lia. apply take_blit; lia. }
      split; [|unfold image_left in *; rewrite Ht, <- Hleft; by rewrite <- app_assoc].
      split; try done.
      * exists n'. split; [done|lia].
      * rewrite length_blit by lia. lia.
      * lia.
      * rewrite Ht, <- app_assoc. exact Hby.
    + unfold interrupts_of at 1. cbn [w_tool w_os t_img upd_img set_img set_buf set_buflen buflen].
      rewrite Hn', Hiw. lia.
Qed.

(** Padding: the buffer is the next block of the image. *)
Lemma pad_buffer_spec f' pos b bl rest m w E :
  sys_at f' pos w -> image_at b bl rest m w -> image_left b bl rest <> [] ->
  (bl = f_eb f \/ rest = []) ->
  xwp pad_buffer E (fun _ w' =>
    sys_at f' pos w' /\
    image_at (pad_block (f_ebn f) (image_left b bl rest)) (f_eb f) (drop (f_ebn f) (image_left b bl rest)) m w') w.
Proof using Hok.
  intros Hs Hi Hne Hend. pose proof (f_ebn_eb f Hok) as He.
  destruct Hi as [Hb Hbl Hst Hsz Hr Hby]. unfold image_left in *.
  assert (length (take (Z.to_nat bl) b) = Z.to_nat bl) as Htl by (rewrite length_take; lia).
  unfold pad_buffer. apply xwp_bind, (get_erasesize_spec w f' pos); [done|]. do 2 tool_step. rewrite Hbl.
  destruct (Z.ltb_spec bl (f_eb f)) as [Hlt|Hge].
  - destruct Hend as [?| ->]; [lia|]. rewrite app_nil_r in *.
    do 2 tool_step. rewrite Hb. unfold deref. do 2 tool_step.
    assert (length (replicate (Z.to_nat (f_eb f - bl)) 0xff) = Z.to_nat (f_eb f - bl)) as Hrl
      by (apply length_replicate).
    apply xwp_bind, xwp_store; [lia|lia|]. tool_step.
    assert (blit b bl (replicate (Z.to_nat (f_eb f - bl)) 0xff) = pad_block (f_ebn f) (take (Z.to_nat bl) b)) as ->.
    { rewrite <- (Z2Nat.id bl) at 1 by lia. rewrite blit_block, Hrl by lia. unfold pad_block.
      rewrite drop_ge, app_nil_r, Htl, take_take by lia. f_equal; f_equal; lia. }
    split; [by destruct Hs|]. split; try done; cbn [w_tool w_os t_img upd_img set_img set_buf set_buflen buflen].
    + by rewrite drop_ge by lia.
    + rewrite length_pad_block. lia.
    + lia.
    + apply Forall_app_2; [|by apply Forall_drop]. apply Forall_take. unfold pad_block.
      apply Forall_app_2; [by apply Forall_take|by apply Forall_replicate].
  - apply xwp_ret. split; [done|]. assert (bl = f_eb f) as -> by lia.
    assert (Z.to_nat (f_eb f) = length b) as Hl by lia. rewrite Hl, firstn_all in *.
    assert (f_ebn f = length b) as Hn by (unfold f_ebn; lia).
    assert (pad_block (f_ebn f) (b ++ rest) = b) as Hpad.
    { unfold pad_block. rewrite Hn, take_app_length, length_app.
      replace (length b - (length b + length rest))%nat with O by lia. apply app_nil_r. }
    rewrite Hpad. rewrite Hn, drop_app_length.
    split; try done. by rewrite Hl, firstn_all.
Qed.

(** * Erasing ahead *)

(** What is known when the tool exits: code 1, bad blocks untouched; and hardware without
    failures has been filled. *)
Definition write_exit (code : Z) w : Prop :=
  code = 1 /\ exists f', v_flash (view_of (w_os w)) !! d = Some f' /\ bad_kept f f' /\
    (rel = true -> room (f_ebn f) (bad_flags f) < Z.of_nat (length img)).

(** [erase_inv w0 rem ws e sb w]: [k] blocks are done, or the block after them is erased. *)
Definition erase_inv (rem : list Z) (ws e sb : Z) w : Prop :=
  exists k f', written f img k f' rem /\ rem <> [] /\ ws = room (f_ebn f) (take k (bad_flags f)) /\
    ((e = Z.of_nat k * f_eb f /\ e - sb = ws /\ sys_at f' e w) \/
     (exists f'', (k < f_blocks f)%nat /\ (Z.of_nat k * f_eb f ∉ f_bad f) /\
        e = Z.of_nat (S k) * f_eb f /\ e - sb = ws + f_eb f /\ sys_at f'' (Z.of_nat k * f_eb f) w /\
        f'' = set_data (blit (f_data f') (Z.of_nat (k * f_ebn f)) (replicate (f_ebn f) 0xff)) f')).

(** The image buffer is ready. *)
Definition buffer_at (rem : list Z) (m : nat) w : Prop :=
  image_at (pad_block (f_ebn f) rem) (f_eb f) (drop (f_ebn f) rem) m w.

Lemma buffer_at_view rem m w w' :
  buffer_at rem m w -> t_img (w_tool w') = t_img (w_tool w) ->
  v_fds (view_of (w_os w')) !! imagefd = v_fds (view_of (w_os w)) !! imagefd -> buffer_at rem m w'.
Proof. intros [? ? ? ? ? ?] Ht Hv. split; rewrite ?Ht, ?Hv; done. Qed.

Lemma room_take_bound k : (k <= f_blocks f)%nat -> room (f_ebn f) (take k (bad_flags f)) <= Z.of_nat k * f_eb f.
Proof using Hok.
  intros Hk. unfold room. rewrite <- (f_ebn_eb f Hok), <- Nat2Z.inj_mul.
  apply Nat2Z.inj_le. rewrite Nat.mul_comm. apply Nat.mul_le_mono_r.
  unfold good_blocks. etransitivity; [apply length_filter|]. rewrite length_take. lia.
Qed.

Lemma room_bound k : (k <= f_blocks f)%nat ->
  room (f_ebn f) (take k (bad_flags f)) <= room (f_ebn f) (bad_flags f).
Proof.
  intros Hk. unfold room. rewrite <- (take_drop k (bad_flags f)) at 2. rewrite good_blocks_app. lia.
Qed.

(** All blocks are used up and something is left: the image is too long. *)
Lemma no_room_left f' rem : written f img (f_blocks f) f' rem -> rem <> [] ->
  room (f_ebn f) (bad_flags f) < Z.of_nat (length img).
Proof.
  intros Hw Hne. rewrite (wr_count _ _ _ _ _ Hw Hne).
  rewrite take_ge by (by rewrite length_bad_flags). destruct rem; [done|]. cbn [length]. lia.
Qed.

Lemma written_ok k f' rem : written f img k f' rem -> flash_ok f'.
Proof using Hok.
  intros Hw. rewrite (wr_flash _ _ _ _ _ Hw).
  apply flash_ok_data; [exact Hok|exact (wr_length _ _ _ _ _ Hw)|exact (wr_bytes _ _ _ _ _ Hw)].
Qed.

Lemma written_vars k f' rem : written f img k f' rem ->
  dev_vars f' = dev_vars f /\ f_eb f' = f_eb f /\ f_size f' = f_size f /\ f_bad f' = f_bad f /\
  f_info f' = f_info f.
Proof. intros Hw. by rewrite (wr_flash _ _ _ _ _ Hw). Qed.

Lemma block_in_range k : Z.of_nat k * f_eb f + f_eb f <= f_size f -> (k < f_blocks f)%nat.
Proof using Hok. intros Hk. pose proof (blocks_size f Hok). pose proof (fo_eb f Hok). nia. Qed.

Lemma block_below_end k : Z.of_nat k * f_eb f < f_size f -> (k < f_blocks f)%nat.
Proof using Hok. intros Hk. pose proof (blocks_size f Hok). pose proof (fo_eb f Hok). nia. Qed.

Lemma block_end k : (k < f_blocks f)%nat -> Z.of_nat k * f_eb f + f_eb f <= f_size f.
Proof using Hok. intros Hk. pose proof (blocks_size f Hok). pose proof (fo_eb f Hok). nia. Qed.

Lemma block_offset_bound k : (k <= f_blocks f)%nat -> 0 <= Z.of_nat k * f_eb f <= f_size f.
Proof using Hok. intros Hk. pose proof (blocks_size f Hok). pose proof (fo_eb f Hok). nia. Qed.

Definition erase_post (rem : list Z) (ws : Z) (m : nat) (r : erase_result) w : Prop :=
  match r with
  | Erased e sb => buffer_at rem m w /\ exists k f' f'',
      written f img k f' rem /\ (k < f_blocks f)%nat /\ (Z.of_nat k * f_eb f ∉ f_bad f) /\
      ws = room (f_ebn f) (take k (bad_flags f)) /\ e = Z.of_nat (S k) * f_eb f /\ e - sb = ws + f_eb f /\
      sys_at f'' (Z.of_nat k * f_eb f) w /\
      f'' = set_data (blit (f_data f') (Z.of_nat (k * f_ebn f)) (replicate (f_ebn f) 0xff)) f'
  | EraseFailed _ _ => write_exit 1 w
  end.

(** A good block is erased. *)
Lemma erase_good_block rem k f' w m sb E :
  written f img k f' rem -> rem <> [] -> sys_at f' (Z.of_nat k * f_eb f) w -> buffer_at rem m w ->
  Z.of_nat k * f_eb f ∉ f_bad f -> 
  let e := Z.of_nat k * f_eb f in
  let ws := room (f_ebn f) (take k (bad_flags f)) in
  e - sb = ws ->
  xwp (mtd_erase_block fd e) E (fun r w' =>
    (r = 0 /\ (k < f_blocks f)%nat /\ buffer_at rem m w' /\ erase_inv rem ws (e + f_eb f) sb w') \/
    (r = -1 /\ write_exit 1 w')) w.
Proof using Hfds Hok L.
  intros Hw Hne Hs Hb Hgood e ws Hsb. destruct Hs as [Hd Ho Hf Hr].
  destruct (written_vars _ _ _ Hw) as (Hv & Heb & Hsize & Hbad & Hinfo).
  pose proof (block_offset_bound k (wr_k _ _ _ _ _ Hw)). pose proof (fo_small f Hok).
  pose proof (f_ebn_eb f Hok) as He.
  eapply erase_block_spec; [exact Hf|by eapply written_ok|congruence|lia|rewrite Heb; by exists (Z.of_nat k)|].
  intros k' f2 ok Hv' Her Hin Hout. rewrite Heb, Hsize in *.
  destruct Her as (b2 & -> & Hbytes & Hsame & Hdata).
  assert (flash_at (view_of k') fd d (set_data b2 f') e) as Hf'.
  { rewrite Hv'. by eapply flash_at_set_flash. }
  destruct ok.
  - left. specialize (Hin eq_refl). specialize (Hdata eq_refl). pose proof (block_in_range k Hin).
    split_and!; [done|done| |].
    + eapply buffer_at_view; [exact Hb|done|]. cbn [w_os]. by rewrite Hv'.
    + exists k, f'. split_and!; [done|done|done|]. right. exists (set_data b2 f').
      split_and!; [done|done|lia|lia| |].
      * split; cbn [w_tool w_os]; [done|done|done|]. by rewrite Hv'.
      * f_equal. rewrite Hdata. unfold e, f_ebn. by rewrite block_offset.
  - right. split; [done|]. split; [done|]. exists (set_data b2 f'). split; [by destruct Hf'|].
    split.
    + eapply (bad_kept_outside f f' b2 e); [done|exact (wr_bad _ _ _ _ _ Hw)|done| |exact Hsame].
      by exists (Z.of_nat k).
    + intros Hrel. specialize (Hout eq_refl ltac:(congruence)).
      assert (k = f_blocks f) as ->; [|by eapply no_room_left].
      pose proof (wr_k _ _ _ _ _ Hw). destruct (decide (k < f_blocks f)%nat) as [Hlt|]; [|lia].
      pose proof (block_end k Hlt). lia.
Qed.

(** One round of the loop that erases ahead. *)
Lemma erase_ahead_round rem ws e sb m w :
  erase_inv rem ws e sb w -> buffer_at rem m w ->
  xwp (erase_ahead_step fd 0 ws (e, sb)) write_exit (fun r w' =>
    match r with
    | inl (e', sb') => erase_inv rem ws e' sb' w' /\ buffer_at rem m w' /\
        (Z.to_nat (f_size f - e') < Z.to_nat (f_size f - e))%nat
    | inr r => erase_post rem ws m r w'
    end) w.
Proof using Hfds Hok L ArchLaws0.
  intros (k & f' & Hw & Hne & -> & Hinv) Hb.
  pose proof (fo_eb f Hok). pose proof (fo_small f Hok). pose proof (eb_le_size f Hok).
  pose proof (wr_k _ _ _ _ _ Hw) as Hk. pose proof (block_offset_bound k Hk) as Hoff.
  pose proof (room_take_bound k Hk) as Hroom. unfold erase_ahead_step.
  assert (0 <= room (f_ebn f) (take k (bad_flags f))) as Hr0 by apply Nat2Z.is_nonneg.
  destruct Hinv as [(-> & Hsb & Hs)|(f'' & Hlt & Hgood & -> & Hsb & Hs & ->)].
  2: { pose proof (block_end k Hlt).
    apply xwp_bind, (get_erasesize_spec w _ _ _ _ Hs). do 2 tool_step. rewrite (ia_len _ _ _ _ _ Hb).
    rewrite !ssize_t_small by lia. rewrite Hsb, Z.gtb_ltb, Z.ltb_irrefl.
    apply xwp_ret. split; [done|]. exists k, f'. eexists. split_and!; [exact Hw|exact Hlt|exact Hgood|done|done|lia|exact Hs|done]. }
  apply xwp_bind, (get_erasesize_spec w _ _ _ _ Hs). do 2 tool_step. rewrite (ia_len _ _ _ _ _ Hb).
  rewrite !ssize_t_small by lia. rewrite Hsb.
  rewrite (proj2 (Z.gtb_lt _ _)) by lia.
  destruct (written_vars _ _ _ Hw) as (Hv & Heb & Hsize & Hbad & Hinfo).
  pose proof Hs as [Hd Ho Hf Hr]. set (e := Z.of_nat k * f_eb f) in *.
  apply xwp_bind. eapply block_is_bad_spec; [exact Hf|by eapply written_ok|congruence|lia|].
  intros k1 Hv1 w1. assert (sys_at f' e w1) as Hs1 by (split; cbn; rewrite ?Hv1; done).
  assert (buffer_at rem m w1) as Hb1 by (eapply buffer_at_view; [exact Hb|done|cbn; by rewrite Hv1]).
  rewrite Hsize, Hbad, Hinfo. split_and!.
  - intros Hex. split; [done|]. exists f'. split; [destruct Hf; cbn; by rewrite Hv1|].
    split; [exact (wr_bad _ _ _ _ _ Hw)|]. intros Hrel. destruct Hex as [Hend|]; [|congruence].
    assert (k = f_blocks f) as ->; [|by eapply no_room_left].
    destruct (decide (k < f_blocks f)%nat) as [Hlt|]; [|lia]. pose proof (block_end k Hlt). lia.
  - intros Hend Hin. assert (e < f_size f) as Hlt.
    { apply Hend. destruct (fo_bad f Hok) as [|Hnil]; [done|]. rewrite Hnil in Hin. by apply not_elem_of_nil in Hin. }
    pose proof (block_below_end k Hlt) as Hkl. pose proof (block_end k Hkl).
    cbn [negb Z.eqb]. apply xwp_bind, xwp_sys_. unfold w1. cbn [w_os w_tool]. apply xwp_ret.
    rewrite i32_small by lia.
    pose proof (law_lseek fd (f_eb f) SEEK_CUR k1 d f' e) as Hseek. cbn zeta in Hseek.
    specialize (Hseek (sa_flash _ _ _ Hs1) ltac:(lia)). 
    split; [|split; [|lia]].
    + exists (S k), f'. split_and!; [by apply written_skip|done| |].
      { unfold room. rewrite take_S_bad_flags, bool_decide_true by done. f_equal. lia. }
      left. split_and!; [lia|lia|]. split; cbn [w_os w_tool]; [done|done| |by rewrite Hseek, Hv1].
      rewrite Hseek. eapply flash_at_set_pos. apply (sa_flash _ _ _ Hs1).
    + eapply buffer_at_view; [exact Hb1|done|]. cbn [w_os]. rewrite Hseek.
      cbn [set_pos set_fds v_fds]. by rewrite lookup_insert_ne by done.
  - intros Hend Hgood. cbn [negb Z.eqb]. rewrite Z.add_0_r, size_t_small by lia.
    apply xwp_bind. eapply xwp_call; [by eapply erase_good_block|].
    intros r w2 [(-> & Hkl & Hb2 & He2)|(-> & Hx)]; cbn [Z.ltb Z.compare].
    + apply xwp_ret. pose proof (block_end k Hkl).
      split; [exact He2|]. split; [done|lia].
    + by apply xwp_ret.
Qed.

Lemma erase_ahead_spec fuel rem ws e sb m w :
  erase_inv rem ws e sb w -> buffer_at rem m w -> 0 <= e -> (Z.to_nat (f_size f) < fuel)%nat ->
  xwp (xloop fuel (erase_ahead_step fd 0 ws) (e, sb)) write_exit (erase_post rem ws m) w.
Proof using Hfds Hok L ArchLaws0.
  intros He Hb He0 Hfuel.
  apply (xwp_loop (fun '(e, sb) w => erase_inv rem ws e sb w /\ buffer_at rem m w)
    (fun '(e, sb) _ => Z.to_nat (f_size f - e))); [|done|lia].
  clear e sb w He Hb He0 Hfuel. intros [e sb] w [He Hb]. eapply xwp_call; [by apply (erase_ahead_round rem ws e sb m)|].
  intros [[e' sb']|r] w'; [|done]. intros (? & ? & ?). done.
Qed.

(** * The rounds of the loop *)

(** [head k f' rem m st w]: the top of the loop, [k] blocks done and [rem] left. *)
Definition head (name : string) (k : nat) (f' : flash) (rem : list Z) (m : nat) (st : wstate) w : Prop :=
  written f img k f' rem /\ sys_at f' (Z.of_nat k * f_eb f) w /\
  (exists b bl rest, image_at b bl rest m w /\ image_left b bl rest = rem) /\
  exists sb, st = mk_wstate name [] fd (room (f_ebn f) (take k (bad_flags f))) (Z.of_nat k * f_eb f) 0 0 sb false /\
    Z.of_nat k * f_eb f - sb = room (f_ebn f) (take k (bad_flags f)).

Lemma slice_whole l n : Z.of_nat (length l) = n -> slice l 0 n = l.
Proof. intros <-. unfold slice. rewrite drop_0, Nat2Z.id. apply firstn_all. Qed.

(** Writing the block that has been erased. *)
Lemma write_block_spec name rem m k f' sb w :
  written f img k f' rem -> rem <> [] -> (k < f_blocks f)%nat -> Z.of_nat k * f_eb f ∉ f_bad f ->
  sys_at (set_data (blit (f_data f') (Z.of_nat (k * f_ebn f)) (replicate (f_ebn f) 0xff)) f')
    (Z.of_nat k * f_eb f) w ->
  buffer_at rem m w -> Forall is_byte rem ->
  let ws := room (f_ebn f) (take k (bad_flags f)) in
  Z.of_nat (S k) * f_eb f - sb = ws + f_eb f ->
  xwp (write_block (mk_wstate name [] fd ws (Z.of_nat (S k) * f_eb f) 0 0 sb false)) write_exit
    (fun st' w' => exists f2, head name (S k) f2 (drop (f_ebn f) rem) m st' w') w.
Proof using Hfds Hok L ArchLaws0.
  intros Hw Hne Hk Hgood Hs Hb Hby ws Hsb.
  pose proof (fo_eb f Hok). pose proof (fo_small f Hok). pose proof (f_ebn_eb f Hok) as He.
  pose proof (block_end k Hk). pose proof (room_take_bound k ltac:(lia)) as Hroom.
  assert (0 <= room (f_ebn f) (take k (bad_flags f))) as Hr0 by (apply Nat2Z.is_nonneg).
  destruct (written_vars _ _ _ Hw) as (Hv & Heb & Hsize & Hbad & Hinfo).
  assert (k * f_ebn f + f_ebn f <= length (f_data f'))%nat as Hin.
  { rewrite (wr_length _ _ _ _ _ Hw), (f_data_blocks f Hok). nia. }
  destruct Hs as [Hd Ho Hf Hr]. set (ff := replicate (f_ebn f) 0xff) in *.
  assert (length ff = f_ebn f) as Hffl by apply length_replicate.
  set (y := pad_block (f_ebn f) rem) in *. assert (length y = f_ebn f) as Hyl by apply length_pad_block.
  pose proof Hb as [Hbuf Hbl Hst Hbsz _ _]. fold y in Hbuf, Hbsz.
  unfold write_block. do 2 tool_step. rewrite Hbuf. unfold deref. do 4 tool_step. rewrite Hbl.
  cbn [ws_offset ws_fd ws_w ws_e ws_skip ws_skip_bad ws_replaced ws_mtd ws_next].
  apply xwp_bind, xwp_load; [lia|lia|lia|]. rewrite slice_whole by done.
  apply xwp_bind, xwp_sys. intros r k1 Hwr.
  assert (flash_ok (set_data (blit (f_data f') (Z.of_nat (k * f_ebn f)) ff) f')) as Hokf.
  { apply flash_ok_data; [by eapply written_ok|apply length_blit_nat; lia|].
    unfold blit. repeat apply Forall_app_2; [|by apply Forall_replicate|].
    - apply Forall_take, Hw.
    - apply Forall_drop, Hw. }
  assert (0 <= Z.of_nat k * f_eb f) as Hp0 by lia.
  destruct (law_write fd y _ d _ _ r k1 Hf Hokf Hp0 Hwr) as (Hle & f2 & p2 & Hv1 & Hpr & Hpos & Hshort).
  destruct Hpr as (b2 & -> & Hb2 & Hsame & Hstored). cbn [set_data f_data] in *.
  assert (Z.of_nat k * f_eb f = Z.of_nat (k * f_ebn f)) as Hoff by by apply block_offset.
  rewrite Hbsz in *. destruct (Z.ltb_spec r (f_eb f)) as [Hlt|Hge].
  - tool_step. split; [done|]. exists (set_data b2 f'). split; [cbn [w_os]; rewrite Hv1; apply lookup_insert_eq|].
    split; [|intros Hrel; specialize (Hshort ltac:(lia) ltac:(congruence)); unfold f_size in *; cbn in Hshort; rewrite Hinfo in *; lia].
    apply (bad_kept_outside f (set_data (blit (f_data f') (Z.of_nat (k * f_ebn f)) ff) f') b2 (Z.of_nat k * f_eb f));
      [done| |done|by exists (Z.of_nat k)|done].
    eapply (bad_kept_outside f f' _ (Z.of_nat k * f_eb f)); [done|exact (wr_bad _ _ _ _ _ Hw)|done|by exists (Z.of_nat k)|].
    rewrite Hoff, <- He, <- Hffl. apply blit_outside. lia.
  - assert (r = f_eb f) as -> by lia. rewrite Z.eqb_refl in Hstored.
    assert (b2 = blit (f_data f') (Z.of_nat (k * f_ebn f)) y) as ->.
    { rewrite Hstored; [|done|].
      - rewrite Hoff. apply blit_blit_block; lia.
      - rewrite Hoff. replace (f_eb f) with (Z.of_nat (length ff)) by lia.
        rewrite slice_blit_eq by lia. by apply Forall_replicate. }
    apply xwp_bind, xwp_put. tool_step. rewrite ssize_t_small by lia.
    exists (set_data (blit (f_data f') (Z.of_nat (k * f_ebn f)) y) f').
    split; [by apply written_block|]. split; [|split].
    + split; cbn [w_tool w_os]; [done|done| |by rewrite Hv1]. rewrite Hv1, Hpos by done.
      replace (Z.of_nat (S k) * f_eb f) with (Z.of_nat k * f_eb f + f_eb f) by lia.
      split; cbn; by rewrite lookup_insert_eq.
    + exists y, 0, (drop (f_ebn f) rem). split; [|done]. split; cbn [w_tool w_os upd_img set_img t_img set_buflen buf buflen]; try done.
      * rewrite Hv1. cbn [set_pos set_fds v_fds]. by rewrite lookup_insert_ne by done.
      * lia.
      * by apply Forall_drop.
    + exists sb. unfold room. rewrite take_S_bad_flags, bool_decide_false by done.
      unfold ws, room in *. split; [f_equal; lia|lia].
Qed.

Lemma jffs2_branch_spec fuel st w E (Q : option wstate -> world K -> Prop) :
  t_opt (w_tool w) = opts -> Q None w -> xwp (write_jffs2_block fuel st) E Q w.
Proof using Hopts.
  intros Ho HQ. unfold write_jffs2_block. do 4 tool_step. rewrite Ho.
  destruct Hopts as (_ & -> & _). by apply xwp_ret.
Qed.

Lemma image_left_bytes b bl rest m w : image_at b bl rest m w -> Forall is_byte (image_left b bl rest).
Proof. by intros []. Qed.

(** One round: the image has ended, or its next block has been written. *)
Lemma write_round_spec fuel name k f' rem m st w :
  head name k f' rem m st w -> (Z.to_nat (f_size f) + m < fuel)%nat ->
  xwp (write_round tg fuel imagefd 0 st) write_exit (fun r w' =>
    match r with
    | inl st' => (exists k' f2 rem', head name k' f2 rem' m st' w') /\
        (Z.to_nat (f_size f - ws_w st') < Z.to_nat (f_size f - ws_w st))%nat
    | inr st' => head name k f' [] m st' w'
    end) w.
Proof using Hfds Hopts Hok L ArchLaws0.
  intros (Hw & Hs & (b & bl & rest & Hi & <-) & sb & -> & Hsb) Hfuel.
  pose proof (fo_eb f Hok). pose proof (eb_le_size f Hok). unfold write_round.
  pose proof (wr_k _ _ _ _ _ Hw) as Hk. pose proof (block_offset_bound k Hk) as Hoff.
  apply xwp_bind. eapply xwp_call; [apply (fill_buffer_spec fuel f' _ b bl rest m w _ Hs Hi); lia|].
  clear Hi. intros [] w1 (Hs1 & b1 & bl1 & rest1 & Hi & Hleft & Hend). rewrite <- Hleft in *. clear Hleft.
  do 2 tool_step. rewrite (ia_len _ _ _ _ _ Hi). pose proof (ia_range _ _ _ _ _ Hi) as Hrange.
  destruct (Z.eqb_spec bl1 0) as [->|Hbl].
  { destruct Hend as [?| ->]; [lia|]. apply xwp_ret. split; [exact Hw|]. split; [done|].
    split; [by exists b1, 0, []|]. by exists sb. }
  assert (image_left b1 bl1 rest1 <> []) as Hne.
  { intros Hnil. apply (f_equal length) in Hnil. pose proof (ia_size _ _ _ _ _ Hi).
    unfold image_left in Hnil. rewrite length_app, length_take in Hnil. cbn in Hnil. lia. }
  apply xwp_bind. eapply xwp_call; [by eapply pad_buffer_spec|]. intros [] w2 (Hs2 & Hb2).
  pose proof (image_left_bytes _ _ _ _ _ Hi) as Hby. fold (buffer_at (image_left b1 bl1 rest1) m w2) in Hb2.
  revert Hw Hby Hne Hb2. generalize (image_left b1 bl1 rest1) as rm. intros rm Hw Hby Hne Hb2.
  do 2 tool_step. cbn [ws_skip]. change (0 >? 0) with false.
  apply xwp_bind, jffs2_branch_spec; [by destruct Hs2|]. apply xwp_bind. unfold erase_and_write.
  do 2 tool_step. rewrite (sa_opt _ _ _ Hs2). destruct Hopts as (-> & _ & _).
  apply xwp_bind. cbn [ws_fd ws_w ws_e ws_skip_bad].
  eapply xwp_call; [apply (erase_ahead_spec fuel rm); [|exact Hb2|lia|lia]|].
  { exists k, f'. split_and!; [done|done|done|]. by left. }
  intros [e sb'|e sb'] w3 Hpost; cbn [erase_post] in Hpost.
  2: { unfold write_next_device. cbn [ws_next]. by apply xwp_exit. }
  destruct Hpost as (Hb3 & k2 & f2 & f3 & Hw2 & Hk2 & Hgood & Hws & -> & Hsb2 & Hs3 & ->).
  rewrite Hws in *. eapply xwp_call; [by eapply write_block_spec|].
  intros st' w4 (f4 & Hhead). apply xwp_ret. split; [by exists (S k2), f4, (drop (f_ebn f) rm)|].
  destruct Hhead as (_ & _ & _ & sb3 & -> & _). cbn [ws_w]. pose proof (block_end k2 Hk2).
  pose proof (room_take_bound (S k2) ltac:(lia)). pose proof (f_ebn_eb f Hok).
  unfold room in *. rewrite take_S_bad_flags, bool_decide_false in * by done. lia.
Qed.

Lemma write_loop_spec fuel name m st w :
  (exists k f' rem, head name k f' rem m st w) -> 0 <= ws_w st -> (Z.to_nat (f_size f) + m < fuel)%nat ->
  xwp (xloop fuel (write_round tg fuel imagefd 0) st) write_exit
    (fun st' w' => exists k f', head name k f' [] m st' w') w.
Proof using Hfds Hopts Hok L ArchLaws0.
  intros Hh Hw Hfuel.
  apply (xwp_loop (fun st w => exists k f' rem, head name k f' rem m st w)
    (fun st _ => Z.to_nat (f_size f - ws_w st))); [|done|lia].
  clear st w Hh Hw. intros st w (k & f' & rem & Hh). eapply xwp_call; [by apply (write_round_spec fuel name k f' rem m)|].
  intros [st'|st'] w'; [done|]. by exists k, f'.
Qed.
End loop.
