(* ===== verification/ToolFixSpec.v ===== *)
(** Header repair and boot flags: specifications of the steps and of the whole commands. *)

From stdpp Require Import base list numbers strings gmap.
From Stdlib Require Import ZArith Lia.
From S2P Require Import Prelude Platform Bytes ToolOs ToolCrc ToolMd5 ToolMd5Spec.
From S2P Require Import ToolFix ToolFlags ToolOsSpec.
Local Open Scope Z_scope.
Local Open Scope cprog_scope.

(** [device_at fd d f rel w]: [fd] is the device [d] in state [f], its variables are set. *)
Record device_at (fd : Z) (d : string) (f : flash) (rel : bool) {K} `{OsView K} (w : world K) : Prop := {
  da_vars : t_dev (w_tool w) = dev_vars f;
  da_at : exists p, flash_at (view_of (w_os w)) fd d f p;
  da_ok : flash_ok f;
  da_rel : v_reliable (view_of (w_os w)) = rel
}.

Section steps.
Context `{A : Arch} `{!ArchLaws A} {K : Type} `{L : OsLaws K}.
Implicit Types (w : world K).

(** A step that does not change what the kernel sees. *)
Lemma device_at_view fd d f rel w t k :
  device_at fd d f rel w -> view_of k = view_of (w_os w) -> t_dev t = t_dev (w_tool w) ->
  device_at fd d f rel (mk_world t k).
Proof. intros [? [p ?] ? ?] Hv Ht. split; cbn; rewrite ?Hv, ?Ht; eauto. Qed.

Lemma erasesize_spec fd d f rel w E (Q : Z -> world K -> Prop) :
  device_at fd d f rel w -> Q (f_eb f) w -> xwp get_erasesize E Q w.
Proof. intros Hd HQ. apply xwp_get. rewrite (da_vars _ _ _ _ _ Hd), dev_vars_ok by exact (da_ok _ _ _ _ _ Hd). exact HQ. Qed.

Lemma mtdsize_spec fd d f rel w E (Q : Z -> world K -> Prop) :
  device_at fd d f rel w -> Q (f_size f) w -> xwp get_mtdsize E Q w.
Proof. intros Hd HQ. apply xwp_get. rewrite (da_vars _ _ _ _ _ Hd), dev_vars_ok by exact (da_ok _ _ _ _ _ Hd). exact HQ. Qed.

(** Reading part of the device: all of it inside the device, or nothing. *)
Lemma pread_all_spec fd d f rel len off w E (Q : option (list Z) -> world K -> Prop) :
  device_at fd d f rel w -> 0 <= len < 2 ^ 32 -> 0 <= off ->
  (forall w', device_at fd d f rel w' -> w_tool w' = w_tool w ->
     view_of (w_os w') = view_of (w_os w) ->
     (off + len <= f_size f \/ len = 0 -> Q (Some (slice (f_data f) off len)) w') /\
     ((rel = true -> f_size f < off + len) -> Q None w')) ->
  xwp (pread_all fd len off) E Q w.
Proof using L ArchLaws0.
  intros Hd Hlen Hoff HQ. unfold pread_all. pose proof Hd as [_ [p Hat] Hok Hrel].
  pose proof (fo_length f Hok) as Hl. rewrite !size_t_small by lia.
  apply xwp_bind, xwp_sys. intros r k Hr. assert (0 <= len) as Hl0 by lia.
  destruct (law_pread fd len off _ d f p r k Hat Hok Hl0 Hoff Hr) as [Hv Hres].
  destruct (HQ (mk_world (w_tool w) k)) as [HS HN]; [by eapply device_at_view|done|done|].
  destruct r as [e|bytes]; apply xwp_ret.
  - apply HN. intros Ht. apply Hres. congruence.
  - rewrite Hres. destruct (Z_le_gt_dec (off + len) (f_size f)) as [Hin|Hout].
    + rewrite length_slice by lia. rewrite Z.eqb_refl. apply HS. by left.
    + destruct (Z.eqb_spec (Z.of_nat (length (slice (f_data f) off len))) len) as [Heq|].
      * destruct (Z.eq_dec len 0) as [->|]; [apply HS; by right|].
        unfold slice in Heq. rewrite length_take, length_drop in Heq. lia.
      * apply HN. intros. lia.
Qed.

Lemma malloc_spec n w E (Q : option (list Z) -> world K -> Prop) :
  0 <= n ->
  (forall k b, view_of k = view_of (w_os w) -> Z.of_nat (length b) = n -> Forall is_byte b ->
     Q (Some b) (mk_world (w_tool w) k)) ->
  (forall k, view_of k = view_of (w_os w) ->
     (v_reliable (view_of (w_os w)) = true -> 2 ^ 31 <= n) -> Q None (mk_world (w_tool w) k)) ->
  xwp (sys (sys_malloc n)) E Q w.
Proof using L.
  intros Hn HS HN. apply xwp_sys. intros r k Hr. destruct (law_malloc n _ r k Hn Hr) as (Hv & Hb & Hnone).
  destruct r as [b|]; [|by apply HN; [|apply Hnone]]. destruct (Hb b eq_refl). by apply HS.
Qed.

(** The device [d] differs from [f] inside [off, off + len) only. *)
Definition changed_inside (d : string) (f : flash) (off len : Z) w : Prop :=
  exists f', v_flash (view_of (w_os w)) !! d = Some f' /\ f_info f' = f_info f /\ f_bad f' = f_bad f /\
    same_outside (f_data f) (f_data f') off len.

Lemma changed_nothing fd d f rel off len w : device_at fd d f rel w -> changed_inside d f off len w.
Proof. intros [_ [p [_ Hd]] _ _]. exists f. split_and!; done. Qed.

Lemma same_outside_trans b1 b2 b3 off len :
  same_outside b1 b2 off len -> same_outside b2 b3 off len -> same_outside b1 b3 off len.
Proof. intros [E1 H1] [E2 H2]. split; [congruence|]. intros. rewrite H2, H1; done. Qed.

(** Rewriting the block at [off]: it has the new contents, or the tool exits and only that
    block has changed. *)
Lemma rewrite_block_spec fd d f rel block off w (E : Z -> world K -> Prop) (Q : unit -> world K -> Prop) :
  device_at fd d f rel w -> Z.of_nat (length block) = f_eb f -> Forall is_byte block ->
  0 <= off -> (f_eb f | off) -> off + f_eb f <= f_size f ->
  (forall w', rel <> true -> changed_inside d f off (f_eb f) w' -> E 1 w') ->
  (forall w', device_at fd d (set_data (blit (f_data f) off block) f) rel w' ->
     w_tool w' = w_tool w -> Q tt w') ->
  xwp (rewrite_block fd block off) E Q w.
Proof using L ArchLaws0.
  intros Hd Hlen Hby Hoff Hdiv Hin HE HQ. unfold rewrite_block. pose proof Hd as [Hvars [p Hat] Hok Hrel].
  pose proof (fo_eb f Hok). pose proof (fo_small f Hok). pose proof (fo_length f Hok) as Hfl.
  apply xwp_bind. eapply erase_block_spec; [exact Hat|done|done|lia|done|].
  intros k f1 ok Hv1 Her Hok1 Hbad. destruct Her as (b1 & -> & Hb1 & Hsame1 & Hdata1).
  destruct ok; cbn [Z.eqb negb].
  2: { apply xwp_exit, HE; [intros ->; specialize (Hbad eq_refl Hrel); lia|].
       exists (set_data b1 f). cbn [w_os]. rewrite Hv1. split_and!; try done. apply lookup_insert_eq. }
  specialize (Hdata1 eq_refl). apply xwp_bind, xwp_get. cbn [w_tool]. rewrite Hvars, dev_vars_ok by done.
  cbn [erasesize]. apply xwp_bind, xwp_load; [lia|lia|lia|].
  assert (slice block 0 (f_eb f) = block) as ->.
  { unfold slice. rewrite drop_0, take_ge by lia. done. }
  apply xwp_bind, xwp_sys. intros r k2 Hw2. cbn [w_os] in Hw2.
  assert (length (replicate (Z.to_nat (f_eb f)) 0xff) = Z.to_nat (f_eb f)) as Hrl by apply length_replicate.
  assert (flash_ok (set_data b1 f)) as Hokf.
  { apply flash_ok_data; [done|apply Hsame1|apply Hb1, Hok]. }
  assert (flash_at (view_of k) fd d (set_data b1 f) p) as Hat1.
  { rewrite Hv1. by eapply flash_at_set_flash. }
  destruct (law_pwrite fd block off k d _ p r k2 Hat1 Hokf Hoff Hw2) as (Hle & f2 & Hv2 & Hpr & Hshort).
  destruct Hpr as (b2 & -> & Hb2 & Hsame2 & Hstored). cbn [set_data f_data] in *.
  rewrite Hlen in *. destruct (Z.eqb_spec r (f_eb f)) as [->|Hne]; cbn [negb].
  - apply xwp_ret, HQ; [|done]. rewrite Hstored in Hv2; [|done|].
    2: { rewrite Hdata1. replace (f_eb f) with (Z.of_nat (length (replicate (Z.to_nat (f_eb f)) 0xff))) at 2 by lia.
         rewrite slice_blit_eq by lia. by apply Forall_replicate. }
    assert (blit b1 off block = blit (f_data f) off block) as Hbb by (rewrite Hdata1; apply blit_blit; lia).
    rewrite Hbb in Hv2. split; cbn [w_tool w_os].
    + by rewrite Hvars.
    + exists p. rewrite Hv2. split; [cbn; rewrite Hv1; apply Hat|apply lookup_insert_eq].
    + apply flash_ok_data; [done|apply length_blit; lia|].
      unfold blit. repeat apply Forall_app_2; [apply Forall_take, Hok|done|apply Forall_drop, Hok].
    + rewrite Hv2. cbn. by rewrite Hv1.
  - apply xwp_exit, HE.
    + intros ->. assert (v_reliable (view_of k) = true) as Hk by by rewrite Hv1.
      specialize (Hshort Hne Hk). change (f_size (set_data b1 f)) with (f_size f) in Hshort. lia.
    + exists (set_data b2 f). cbn [w_os]. rewrite Hv2. split_and!; try done; [apply lookup_insert_eq|].
      by eapply same_outside_trans.
Qed.
End steps.

(** * Headers with a digest *)

(** What the three formats have in common: the new size and digest do not disturb the rest. *)
Definition new_header (fmt : md5_header) (h : list Z) (n : Z) (dg : list Z) : list Z :=
  blit (blit h (mh_size_off fmt) (mh_size_bytes fmt n)) (mh_digest_off fmt) dg.

Class HeaderLaws (fmt : md5_header) := {
  hl_sizeof : 0 < mh_sizeof fmt < 2 ^ 16;
  hl_magic : 0 <= mh_magic_off fmt /\ mh_magic_off fmt + 4 <= mh_sizeof fmt;
  hl_size h : Forall is_byte h -> 0 <= mh_size fmt h < 2 ^ 32;
  hl_extra h : Forall is_byte h -> 0 <= mh_extra fmt h < 2 ^ 16;
  hl_hashed h : Forall is_byte h ->
    Forall (fun l => Forall is_byte l /\ Z.of_nat (length l) < 2 ^ 32) (mh_hashed fmt h);
  hl_new h n dg : Z.of_nat (length h) = mh_sizeof fmt -> Forall is_byte h -> 0 <= n < 2 ^ 32 ->
    length dg = 16%nat -> Forall is_byte dg ->
    let h' := new_header fmt h n dg in
    Z.of_nat (length h') = mh_sizeof fmt /\ Forall is_byte h' /\
    mh_size fmt h' = n /\ slice h' (mh_digest_off fmt) 16 = dg /\
    mh_hashed fmt h' = mh_hashed fmt h /\ mh_extra fmt h' = mh_extra fmt h
}.

(** Slices of a new header away from its size and digest, and those two. *)
Lemma new_header_slice fmt h n dg o l :
  length dg = 16%nat -> length (mh_size_bytes fmt n) = 4%nat -> 0 <= mh_size_off fmt ->
  mh_size_off fmt + 4 <= mh_digest_off fmt -> mh_digest_off fmt + 16 <= Z.of_nat (length h) ->
  0 <= o -> 0 <= l ->
  o + l <= mh_size_off fmt \/ (mh_size_off fmt + 4 <= o /\ o + l <= mh_digest_off fmt) \/ mh_digest_off fmt + 16 <= o ->
  slice (new_header fmt h n dg) o l = slice h o l.
Proof.
  intros Hdg Hn H0 H1 H2 Ho Hl Hc. unfold new_header.
  assert (length (blit h (mh_size_off fmt) (mh_size_bytes fmt n)) = length h) as Hlen by (apply length_blit; lia).
  destruct Hc as [|[|]].
  - rewrite slice_blit_before, slice_blit_before by lia. done.
  - rewrite slice_blit_before, slice_blit_after by lia. done.
  - rewrite slice_blit_after, slice_blit_after by lia. done.
Qed.

Lemma new_header_size fmt h n dg :
  length dg = 16%nat -> length (mh_size_bytes fmt n) = 4%nat -> 0 <= mh_size_off fmt ->
  mh_size_off fmt + 4 <= mh_digest_off fmt -> mh_digest_off fmt + 16 <= Z.of_nat (length h) ->
  length (new_header fmt h n dg) = length h /\
  slice (new_header fmt h n dg) (mh_size_off fmt) 4 = mh_size_bytes fmt n /\
  slice (new_header fmt h n dg) (mh_digest_off fmt) 16 = dg.
Proof.
  intros Hdg Hn H0 H1 H2. unfold new_header.
  assert (length (blit h (mh_size_off fmt) (mh_size_bytes fmt n)) = length h) as Hlen by (apply length_blit; lia).
  split_and!.
  - rewrite length_blit by lia. done.
  - rewrite slice_blit_before by lia. apply slice_blit_len; lia.
  - apply slice_blit_len; lia.
Qed.

(** Discharging the laws of a format: every field is a slice. *)
Ltac header_slices :=
  repeat match goal with
  | |- context [slice (new_header ?fmt ?h ?n ?dg) ?o ?l] =>
      rewrite (new_header_slice fmt h n dg o l) by (cbn; rewrite ?length_be_bytes, ?length_le_bytes, ?length_cpu_bytes; lia)
  end.

Ltac header_laws off :=
  intros h n dg Hl Hh Hn Hdg Hdb h'; subst h'; cbn in Hl;
  destruct (new_header_size off h n dg) as (Hlen & Hsz & Hd);
  [done|cbn; rewrite ?length_be_bytes, ?length_le_bytes, ?length_cpu_bytes; done|cbn; lia|cbn; lia|cbn; lia|];
  split_and!;
  [rewrite Hlen; exact Hl
  |unfold new_header; repeat apply blit_bytes; try done;
   first [exact (be_bytes_range 4 n)|exact (le_bytes_range 4 n)|exact (cpu_bytes_range 4 n)]
  | |exact Hd| |].

#[export] Instance seama_laws : HeaderLaws seama_entity_header.
Proof.
  split; [cbn; lia|cbn; lia| | |constructor|].
  - intros h Hh. apply (be_field_range h 8 4 Hh). lia.
  - intros h Hh. apply (be_field_range h 6 2 Hh). lia.
  - header_laws seama_entity_header; [|done|].
    + change (be_field (new_header seama_entity_header h n dg) 8 4 = n). unfold be_field.
      rewrite (Hsz : slice _ 8 4 = be_bytes 4 n), le_val_be_bytes. by rewrite Z.mod_small by lia.
    + change (be_field (new_header seama_entity_header h n dg) 6 2 = be_field h 6 2). unfold be_field. by header_slices.
Qed.

#[export] Instance wrg_laws : HeaderLaws wrg_header.
Proof.
  split; [cbn; lia|cbn; lia| |cbn; lia| |].
  - intros h Hh. apply (le_field_range h 40 4 Hh). lia.
  - intros h Hh. repeat constructor; try (by apply slice_bytes).
    + pose proof (length_slice_le h 44 4). lia.
    + pose proof (length_slice_le h 48 32). lia.
  - header_laws wrg_header; [| |done].
    + change (le_field (new_header wrg_header h n dg) 40 4 = n). unfold le_field.
      rewrite (Hsz : slice _ 40 4 = le_bytes 4 n), le_val_bytes. by rewrite Z.mod_small by lia.
    + cbn [mh_hashed wrg_header wrgg03_header]. by header_slices.
Qed.

#[export] Instance wrgg_laws `{Arch} : HeaderLaws wrgg03_header.
Proof.
  split; [cbn; lia|cbn; lia| |cbn; lia| |].
  - intros h Hh. cbn. unfold cpu_field.
    destruct big_endian; [apply (be_field_range h 104 4 Hh)|apply (le_field_range h 104 4 Hh)]; lia.
  - intros h Hh. repeat constructor; try (by apply slice_bytes).
    + pose proof (length_slice_le h 108 4). lia.
    + pose proof (length_slice_le h 112 32). lia.
  - header_laws wrgg03_header; [| |done].
    + change (cpu_field (new_header wrgg03_header h n dg) 104 4 = n).
      rewrite (cpu_field_bytes _ _ _ n 4); [by rewrite Z.mod_small by lia|exact Hsz|done].
    + cbn [mh_hashed wrg_header wrgg03_header]. by header_slices.
Qed.

(** The digest a header should have, when it stands at the start of [data] and covers [n]
    bytes of data; and whether it has it. *)
Definition header_at (fmt : md5_header) (data : list Z) : list Z := slice data 0 (mh_sizeof fmt).
Definition data_start (fmt : md5_header) (h : list Z) : Z := mh_sizeof fmt + mh_extra fmt h.
Definition header_digest (fmt : md5_header) (h data : list Z) (n : Z) : list Z :=
  md5_ref (concat (mh_hashed fmt h) ++ slice data (data_start fmt h) n).
Definition header_fixed (fmt : md5_header) (data : list Z) (n : Z) : Prop :=
  slice (header_at fmt data) (mh_digest_off fmt) 16 = header_digest fmt (header_at fmt data) data n.

(** How many bytes of data the digest covers. *)
Definition data_length (fmt : md5_header) (h : list Z) (size data_size : Z) : Z :=
  Z.min (if data_size =? 0 then size - data_start fmt h else data_size) (mh_size fmt h).

Section header_commands.
Context `{A : Arch} `{!ArchLaws A} {K : Type} `{L : OsLaws K}.
Context (fmt : md5_header) `{!HeaderLaws fmt}.
Implicit Types (w : world K).

(** [seama_fix_md5] and its copies. *)
Lemma fix_md5_spec fd d f rel h n w E (Q : Z + list Z -> world K -> Prop) :
  device_at fd d f rel w -> Forall is_byte h -> 0 <= n < 2 ^ 32 ->
  (forall w' r, device_at fd d f rel w' -> w_tool w' = w_tool w ->
     match r with
     | inl _ => slice h (mh_digest_off fmt) 16 = header_digest fmt h (f_data f) n \/
         (rel = true -> f_size f < data_start fmt h + n \/ 2 ^ 31 <= n)
     | inr h' => h' = new_header fmt h n (header_digest fmt h (f_data f) n) /\
         slice h (mh_digest_off fmt) 16 <> header_digest fmt h (f_data f) n
     end -> Q r w') ->
  xwp (fix_md5 fmt h fd (data_start fmt h) n) E Q w.
Proof using L ArchLaws0 HeaderLaws0.
  intros Hd Hh Hn HQ. pose proof (hl_extra h Hh) as Hx. pose proof (hl_sizeof (fmt := fmt)) as Hs.
  unfold fix_md5. apply xwp_bind. apply malloc_spec; [lia| |].
  2: { intros k Hv Hbig. apply xwp_ret, HQ; [by eapply device_at_view|done|]. right. intros Hr. right.
       apply Hbig. rewrite (da_rel _ _ _ _ _ Hd). done. }
  intros k b Hv Hb _. apply xwp_bind. unfold data_start in *.
  eapply pread_all_spec; [by eapply device_at_view|lia|lia|]. intros w1 Hd1 Ht1 Hv1. split.
  2: { intros Hout. apply xwp_ret, HQ; [done|done|]. right. intros Hr. left. by apply Hout. }
  intros Hin. assert (Z.of_nat (length (slice (f_data f) (mh_sizeof fmt + mh_extra fmt h) n)) = n) as Hl.
  { pose proof (fo_length f (da_ok _ _ _ _ _ Hd)). destruct Hin as [?| ->]; [by apply length_slice; lia|].
    unfold slice. done. }
  assert (Forall is_byte (slice (f_data f) (mh_sizeof fmt + mh_extra fmt h) n)) as Hby.
  { apply slice_bytes, (fo_bytes f (da_ok _ _ _ _ _ Hd)). }
  apply xwp_bind, xwp_store; [lia|lia|]. apply xwp_bind. rewrite u32_small by lia.
  assert (blit b 0 (slice (f_data f) (mh_sizeof fmt + mh_extra fmt h) n) = slice (f_data f) (mh_sizeof fmt + mh_extra fmt h) n) as ->.
  { unfold blit. rewrite take_0, drop_ge, app_nil_r by lia. done. }
  apply xwp_load; [lia|lia|lia|].
  replace (slice (slice (f_data f) (mh_sizeof fmt + mh_extra fmt h) n) 0 n) with (slice (f_data f) (mh_sizeof fmt + mh_extra fmt h) n).
  2: { unfold slice at 2. rewrite drop_0, take_ge by lia. done. }
  apply xwp_bind, xwp_sys. intros garbage k2 Hg. injection Hg as <- <-.
  destruct (law_stack 64 (w_os w1)) as [Hg1 Hg2].
  set (dg := fst (MD5_Final _)). assert (dg = header_digest fmt h (f_data f) n) as Hdg.
  { unfold dg. pose proof (md5_stream_ref (mk_MD5_CTX 0 0 (mk_md5_buf 0 0 0 0) (stack_bytes 64 (w_os w1)) [])) as Hm.
    unfold md5_stream in Hm. rewrite Hm; [|done|done|].
    - unfold header_digest, data_start. rewrite concat_app. cbn [concat]. by rewrite app_nil_r.
    - apply Forall_app_2; [by apply hl_hashed|]. constructor; [|constructor]. split; [done|lia]. }
  destruct w1 as [t1 k1]. case_bool_decide as Heq; apply xwp_ret, HQ; try done.
  - left. by rewrite <- Hdg.
  - by rewrite <- Hdg.
Qed.

Lemma block_start_0 eb : block_start 0 eb = 0.
Proof. unfold block_start. apply Z.land_0_l. Qed.

Lemma read_first_block_spec fd d f rel off w (E : Z -> world K -> Prop) (Q : list Z -> world K -> Prop) :
  device_at fd d f rel w -> 0 <= off -> off + f_eb f <= f_size f ->
  (forall w', device_at fd d f rel w' -> w_tool w' = w_tool w ->
     (rel <> true -> E 1 w') /\ Q (slice (f_data f) off (f_eb f)) w') ->
  xwp (read_first_block fd off) E Q w.
Proof using L ArchLaws0.
  intros Hd Hoff Hin HQ. pose proof (da_ok _ _ _ _ _ Hd) as Hok. pose proof (fo_eb f Hok). pose proof (fo_small f Hok).
  pose proof (eb_le_size f Hok). pose proof (fo_length f Hok).
  unfold read_first_block. apply xwp_bind, (erasesize_spec fd d f rel w); [done|]. rewrite size_t_small by lia.
  apply xwp_bind, malloc_spec; [lia| |].
  2: { intros k Hv Hbig. destruct (HQ (mk_world (w_tool w) k)) as [HE _]; [by eapply device_at_view|done|].
       apply xwp_exit, HE. intros Hr. pose proof (Hbig ltac:(rewrite (da_rel _ _ _ _ _ Hd); done)). lia. }
  intros k b Hv Hb _. apply xwp_bind. eapply pread_all_spec; [by eapply device_at_view|lia|lia|].
  intros w1 Hd1 Ht1 _. destruct (HQ w1 Hd1 Ht1) as [HE HS]. split.
  - intros _. assert (Z.of_nat (length (slice (f_data f) off (f_eb f))) = f_eb f) as Hl by (apply length_slice; lia).
    apply xwp_store; [lia|lia|]. unfold blit. rewrite take_0, drop_ge, app_nil_r by lia. exact HS.
  - intros Hout. apply xwp_exit, HE. intros Hr. specialize (Hout Hr). lia.
Qed.

(** Replacing the header of the first block on the device. *)
Lemma blit_first_block data eb h :
  0 <= eb <= Z.of_nat (length data) -> Z.of_nat (length h) <= eb ->
  blit data 0 (blit (slice data 0 eb) 0 h) = blit data 0 h.
Proof.
  intros Heb Hh. unfold blit, slice. change (Z.to_nat 0) with O.
  rewrite !take_0, !drop_0. cbn [app Nat.add].
  rewrite length_app, length_drop, length_take, <- app_assoc. f_equal.
  rewrite <- (take_drop (Z.to_nat eb - length h) (drop (length h) data)). f_equal.
  - rewrite skipn_firstn_comm. done.
  - rewrite drop_drop. f_equal. lia.
Qed.

Lemma header_at_blit data h :
  Z.of_nat (length h) = mh_sizeof fmt -> Z.of_nat (length h) <= Z.of_nat (length data) ->
  header_at fmt (blit data 0 h) = h.
Proof. intros Hl Hd. unfold header_at. rewrite <- Hl. apply slice_blit_eq; lia. Qed.

(** The digest of the data does not change when the header is replaced. *)
Lemma header_fixed_new data n :
  Forall is_byte data -> mh_sizeof fmt <= Z.of_nat (length data) -> 0 <= n < 2 ^ 32 ->
  let h := header_at fmt data in
  let data' := blit data 0 (new_header fmt h n (header_digest fmt h data n)) in
  header_fixed fmt data' n /\ mh_size fmt (header_at fmt data') = n.
Proof using HeaderLaws0.
  intros Hb Hl Hn h data'. pose proof (hl_sizeof (fmt := fmt)).
  assert (Z.of_nat (length h) = mh_sizeof fmt) as Hh by (apply length_slice; lia).
  assert (Forall is_byte h) as Hhb by (by apply slice_bytes).
  pose proof (hl_extra h Hhb).
  destruct (hl_new h n (header_digest fmt h data n) Hh Hhb Hn (length_md5_ref _) (md5_ref_bytes _))
    as (Hl' & _ & Hs & Hd & Hhash & Hx).
  assert (header_at fmt data' = new_header fmt h n (header_digest fmt h data n)) as E by (apply header_at_blit; lia).
  split; [|by rewrite E]. unfold header_fixed. rewrite E, Hd.
  unfold data' in *. clear data' E. revert Hl' Hhash Hx. generalize (new_header fmt h n (header_digest fmt h data n)).
  intros h' Hl' Hhash Hx. unfold header_digest, data_start. rewrite Hhash, Hx. do 2 f_equal.
  symmetry. apply slice_blit_after; lia.
Qed.

Definition header_ok (data : list Z) : Prop :=
  mh_magic fmt (slice data (mh_magic_off fmt) 4) = true /\ mh_size fmt (header_at fmt data) <> 0.

(** The device after a repair that covers [n] bytes of data. *)
Definition repaired (d : string) (f : flash) (rel : bool) (n : Z) w : Prop :=
  changed_inside d f 0 (f_eb f) w /\
  exists f', v_flash (view_of (w_os w)) !! d = Some f' /\
    (header_fixed fmt (f_data f) n -> f' = f) /\
    (f' <> f -> mh_size fmt (header_at fmt (f_data f')) = n) /\
    (rel = true -> data_start fmt (header_at fmt (f_data f)) + n <= f_size f -> n < 2 ^ 31 ->
       header_fixed fmt (f_data f') n).

Lemma close_sync_spec fd E (Q : Z -> world K -> Prop) w :
  (forall w', v_flash (view_of (w_os w')) = v_flash (view_of (w_os w)) -> Q 0 w') ->
  xwp (do! sys_ (sys_close fd) in do! sys_ sys_sync in xret 0) E Q w.
Proof using L.
  intros HQ. do 2 xwp_step. cbn [w_os w_tool]. do 3 xwp_step. apply HQ. cbn [w_os].
  by rewrite law_sync, law_close.
Qed.

(** The end of [mtd_fixseama] and its copies: the header is rewritten if it has changed. *)
Lemma fix_header_finish fd d f rel n (r : Z + list Z) w (E : Z -> world K -> Prop) :
  device_at fd d f rel w -> mh_sizeof fmt <= f_eb f -> 0 <= n < 2 ^ 32 ->
  let h := header_at fmt (f_data f) in
  match r with
  | inl _ => slice h (mh_digest_off fmt) 16 = header_digest fmt h (f_data f) n \/
      (rel = true -> f_size f < data_start fmt h + n \/ 2 ^ 31 <= n)
  | inr h' => h' = new_header fmt h n (header_digest fmt h (f_data f) n) /\
      slice h (mh_digest_off fmt) 16 <> header_digest fmt h (f_data f) n
  end ->
  (forall w', rel <> true -> changed_inside d f 0 (f_eb f) w' -> E 1 w') ->
  xwp (do! match r with
           | inl _ => xret tt
           | inr shdr => rewrite_block fd (blit (slice (f_data f) 0 (f_eb f)) 0 shdr) 0
           end in
       do! sys_ (sys_close fd) in do! sys_ sys_sync in xret 0) E
    (fun res w' => res = 0 /\ repaired d f rel n w') w.
Proof using L ArchLaws0 HeaderLaws0.
  intros Hd Hsz Hn h Hr HE. pose proof (da_ok _ _ _ _ _ Hd) as Hok. pose proof (eb_le_size f Hok).
  pose proof (fo_length f Hok). pose proof (fo_eb f Hok). pose proof (hl_sizeof (fmt := fmt)).
  assert (Forall is_byte h) as Hhb by (apply slice_bytes, Hok).
  assert (Z.of_nat (length h) = mh_sizeof fmt) as Hlh by (apply length_slice; lia).
  destruct r as [e|h'].
  - apply xwp_bind, xwp_ret, close_sync_spec. intros w' Hv. destruct (da_at _ _ _ _ _ Hd) as [p [_ Hf]].
    split; [done|]. split.
    + exists f. rewrite Hv. by split_and!.
    + exists f. rewrite Hv. split_and!; [done|done|done|]. intros Hrel Hin Hbig.
      destruct Hr as [Hr|Hr]; [exact Hr|]. specialize (Hr Hrel). unfold h in Hr. lia.
  - destruct Hr as [-> Hne]. apply xwp_bind.
    destruct (hl_new h n (header_digest fmt h (f_data f) n) Hlh Hhb Hn (length_md5_ref _) (md5_ref_bytes _))
      as (Hl' & Hb' & _).
    assert (Z.of_nat (length (slice (f_data f) 0 (f_eb f))) = f_eb f) as Hbl by (apply length_slice; lia).
    eapply rewrite_block_spec; [exact Hd|rewrite length_blit; lia| |lia|apply Z.divide_0_r|lia|exact HE|].
    { apply blit_bytes; [apply slice_bytes, Hok|done]. }
    intros w' Hd' _. apply close_sync_spec. intros w2 Hv. split; [done|].
    rewrite blit_first_block in Hd' by lia. destruct (da_at _ _ _ _ _ Hd') as [p [_ Hf]].
    destruct (header_fixed_new (f_data f) n (fo_bytes f Hok) ltac:(lia) Hn) as [Hfix Hsize].
    split; eexists; rewrite Hv; (split_and!; [exact Hf| | |]); try done.
    cbn [set_data f_data]. split; [apply length_blit; lia|]. intros i Hi [|Hout]; [lia|].
    unfold blit. change (Z.to_nat 0) with O. rewrite take_0. cbn [app Nat.add].
    rewrite lookup_app_r, lookup_drop by lia. f_equal. lia.
Qed.
End header_commands.
