(* ===== verification/ToolFlagsSpec.v ===== *)
(** Boot counter and recovery flag: what the boot loader reads after the tool has run. *)

From stdpp Require Import base list numbers strings gmap.
From Stdlib Require Import ZArith Lia.
From S2P Require Import Prelude Platform Bytes ToolOs ToolFix ToolFlags ToolOsSpec ToolFixSpec.
Local Open Scope Z_scope.
Local Open Scope cprog_scope.

(** * The boot counter log

    A log of records [inc] bytes apart; the last one before the first erased record counts.
    [log_scan] gives the number of records and the last count, or [None] for a record with
    another magic. *)
Section log.
Context `{A : Arch}.

Definition record_at (data : list Z) (inc i : Z) : list Z := slice data (i * inc) sizeof_bootcounter.
Definition record_magic (data : list Z) (inc i : Z) : Z := cpu_field (record_at data inc i) 0 4.
Definition record_count (data : list Z) (inc i : Z) : Z := i32 (cpu_field (record_at data inc i) 4 4).

Fixpoint log_scan (data : list Z) (inc : Z) (rounds : nat) (i last : Z) : option (Z * Z) :=
  match rounds with
  | O => Some (i, last)
  | S rounds =>
      if record_magic data inc i =? 0xffffffff then Some (i, last)
      else if record_magic data inc i =? BOOTCOUNT_MAGIC
           then log_scan data inc rounds (i + 1) (record_count data inc i)
           else None
  end.

Definition log_inc (f : flash) : Z := bc_offset_increment (f_info f).
Definition log_size (f : flash) : nat := Z.to_nat (f_size f / log_inc f).
Definition boot_log (f : flash) : option (Z * Z) := log_scan (f_data f) (log_inc f) (log_size f) 0 0.

(** The boot count a boot loader finds. *)
Definition boot_count (f : flash) : option Z := snd <$> boot_log f.

(** The free part of the log, from record [i] on, is erased. *)
Definition log_free (f : flash) (i : Z) : Prop :=
  forall j, i <= j < Z.of_nat (log_size f) -> Forall (eq 0xff) (slice (f_data f) (j * log_inc f) (log_inc f)).

Lemma log_scan_range data inc rounds i last j c :
  log_scan data inc rounds i last = Some (j, c) -> i <= j <= i + Z.of_nat rounds.
Proof.
  revert i last. induction rounds as [|n IH]; intros i last; cbn [log_scan].
  - intros E. injection E as <- <-. lia.
  - destruct (_ =? 0xffffffff); [intros E; injection E as <- <-; lia|].
    destruct (_ =? BOOTCOUNT_MAGIC); [|done]. intros E. apply IH in E. lia.
Qed.

(** A log whose first records are unchanged, then has a record with the count zero, and ends
    there. *)
Lemma log_scan_append data data' inc rounds i last j c :
  log_scan data inc rounds i last = Some (j, c) -> j < i + Z.of_nat rounds ->
  (forall n, i <= n < j -> record_at data' inc n = record_at data inc n) ->
  record_magic data' inc j = BOOTCOUNT_MAGIC -> record_count data' inc j = 0 ->
  (j + 1 < i + Z.of_nat rounds -> record_magic data' inc (j + 1) = 0xffffffff) ->
  log_scan data' inc rounds i last = Some (j + 1, 0).
Proof.
  revert i last. induction rounds as [|n IH]; intros i last E Hj Hsame Hm Hc Hend;
    [cbn in E; injection E as <- <-; lia|].
  cbn [log_scan] in *. pose proof (log_scan_range data inc (S n) i last j c) as Hr. cbn [log_scan] in Hr.
  specialize (Hr E). destruct (Z.eq_dec i j) as [->|Hne].
  - rewrite Hm, Hc. change (BOOTCOUNT_MAGIC =? 0xffffffff) with false. rewrite Z.eqb_refl.
    destruct n as [|n]; [done|]. cbn [log_scan]. rewrite Hend by lia. by rewrite Z.eqb_refl.
  - assert (record_magic data' inc i = record_magic data inc i /\ record_count data' inc i = record_count data inc i)
      as [-> ->] by (unfold record_magic, record_count; by rewrite Hsame by lia).
    destruct (_ =? 0xffffffff); [injection E as -> _; done|].
    destruct (_ =? BOOTCOUNT_MAGIC); [|done].
    apply (IH (i + 1)); [exact E|lia|intros; apply Hsame; lia|done|done|intros; apply Hend; lia].
Qed.

(** The record that is written, in bytes. *)
Definition zero_record (inc : Z) : list Z :=
  blit (replicate (Z.to_nat inc) 0xff) 0
    (cpu_bytes 4 BOOTCOUNT_MAGIC ++ cpu_bytes 4 0 ++ cpu_bytes 4 BOOTCOUNT_MAGIC).

Lemma length_zero_fields :
  length (cpu_bytes 4 BOOTCOUNT_MAGIC ++ cpu_bytes 4 0 ++ cpu_bytes 4 BOOTCOUNT_MAGIC) = 12%nat.
Proof. by rewrite !length_app, !length_cpu_bytes. Qed.

Lemma length_zero_record inc : 12 <= inc -> Z.of_nat (length (zero_record inc)) = inc.
Proof.
  intros. unfold zero_record. rewrite length_blit; rewrite ?length_replicate, ?length_zero_fields; lia.
Qed.

Lemma zero_record_head inc rest : 12 <= inc ->
  slice (zero_record inc ++ rest) 0 12 = cpu_bytes 4 BOOTCOUNT_MAGIC ++ cpu_bytes 4 0 ++ cpu_bytes 4 BOOTCOUNT_MAGIC.
Proof.
  intros. unfold zero_record, blit. change (Z.to_nat 0) with O. rewrite take_0. cbn [app].
  unfold slice. rewrite drop_0. rewrite <- app_assoc. rewrite take_app_length'; [done|].
  by rewrite length_zero_fields.
Qed.

(** Reading the record back. *)
Lemma zero_record_read data inc i :
  0 <= i -> 16 <= inc -> i * inc + inc <= Z.of_nat (length data) ->
  let data' := blit data (i * inc) (zero_record inc) in
  record_magic data' inc i = BOOTCOUNT_MAGIC /\ record_count data' inc i = 0.
Proof.
  intros Hi Hinc Hlen data'. pose proof (length_zero_record inc ltac:(lia)) as Hz.
  assert (record_at data' inc i = cpu_bytes 4 BOOTCOUNT_MAGIC ++ cpu_bytes 4 0 ++ cpu_bytes 4 BOOTCOUNT_MAGIC) as E.
  { unfold record_at, data', blit. rewrite slice_app_r by (rewrite length_take; nia).
    replace (i * inc - Z.of_nat (length (take (Z.to_nat (i * inc)) data))) with 0 by (rewrite length_take; nia).
    apply zero_record_head. lia. }
  unfold record_magic, record_count. rewrite E. split.
  - rewrite (cpu_field_bytes _ 0 4 BOOTCOUNT_MAGIC 4); [done| |done].
    rewrite slice_app_l by (rewrite ?length_cpu_bytes; lia). unfold slice. rewrite drop_0.
    apply take_ge. by rewrite length_cpu_bytes.
  - rewrite (cpu_field_bytes _ 4 4 0 4); [done| |done].
    rewrite slice_app_r by (rewrite length_cpu_bytes; lia). rewrite length_cpu_bytes.
    rewrite slice_app_l by (rewrite ?length_cpu_bytes; lia). unfold slice. rewrite drop_0.
    apply take_ge. by rewrite length_cpu_bytes.
Qed.

(** An erased record ends the log. *)
Lemma erased_record_magic data inc i :
  16 <= inc -> 0 <= i * inc -> i * inc + inc <= Z.of_nat (length data) ->
  Forall (eq 0xff) (slice data (i * inc) inc) -> record_magic data inc i = 0xffffffff.
Proof.
  intros Hinc Hi Hl Hf. unfold record_magic, record_at.
  assert (slice (slice data (i * inc) sizeof_bootcounter) 0 4 = [0xff; 0xff; 0xff; 0xff]) as E.
  { unfold sizeof_bootcounter. rewrite slice_slice by lia. rewrite Z.add_0_r.
    assert (slice data (i * inc) 4 = slice (slice data (i * inc) inc) 0 4) as -> by (rewrite slice_slice, Z.add_0_r by lia; done).
    assert (Z.of_nat (length (slice (slice data (i * inc) inc) 0 4)) = 4) as H4.
    { apply length_slice; [lia|lia|]. rewrite length_slice; lia. }
    assert (Forall (eq 0xff) (slice (slice data (i * inc) inc) 0 4)) as H5 by (by apply Forall_take, Forall_drop).
    destruct (slice (slice data (i * inc) inc) 0 4) as [|a [|b [|c [|e [|]]]]]; cbn in H4; try lia.
    by repeat match goal with Hx : Forall _ (_ :: _) |- _ => apply Forall_cons_1 in Hx as [<- Hx] end. }
  unfold cpu_field, be_field, le_field. rewrite E. by destruct big_endian.
Qed.
End log.

Section resetbc.
Context `{A : Arch} `{!ArchLaws A} {K : Type} `{L : OsLaws K}.
Implicit Types (w : world K).

(** The parameters of the log on a device. *)
Record log_ok (f : flash) : Prop := {
  lo_flash : flash_ok f;
  lo_ws : 0 <= info_writesize (f_info f) <= 2048
}.

Lemma log_inc_range f : log_ok f -> 16 <= log_inc f <= 2048.
Proof.
  intros [_ Hw]. unfold log_inc, bc_offset_increment, BC_OFFSET_INCREMENT_MIN.
  destruct (Z.ltb_spec (info_writesize (f_info f)) 16); lia.
Qed.

Lemma log_size_bound f : log_ok f -> Z.of_nat (log_size f) * log_inc f <= f_size f.
Proof.
  intros Hl. pose proof (log_inc_range f Hl). pose proof (fo_size f (lo_flash f Hl)). unfold log_size.
  rewrite Z2Nat.id by (apply Z.div_pos; lia). rewrite Z.mul_comm. apply Z.mul_div_le. lia.
Qed.

(** An unchecked read on working hardware. *)
Lemma pread_unchecked_spec fd d f len off b w E (Q : list Z -> world K -> Prop) :
  device_at fd d f true w -> 0 <= len -> 0 <= off -> off + len <= f_size f -> len <= Z.of_nat (length b) ->
  (forall w', device_at fd d f true w' -> w_tool w' = w_tool w ->
     Q (blit b 0 (slice (f_data f) off len)) w') ->
  xwp (pread_unchecked fd len off b) E Q w.
Proof using L.
  intros Hd Hlen Hoff Hin Hb HQ. unfold pread_unchecked. pose proof Hd as [_ [p Hat] Hok Hrel].
  pose proof (fo_length f Hok). apply xwp_bind, xwp_sys. intros r k Hr.
  destruct (law_pread fd len off _ d f p r k Hat Hok Hlen Hoff Hr) as [Hv Hres].
  destruct r as [e|bytes]; [specialize (Hres Hrel); lia|]. rewrite Hres.
  apply xwp_store; [lia|rewrite length_slice; lia|]. apply HQ; [by eapply device_at_view|done].
Qed.

Lemma bc_scan_spec fd d f n i page last w E (Q : option (list Z * Z * Z) -> world K -> Prop) :
  device_at fd d f true w -> log_ok f -> length page = 2048%nat -> 0 <= i ->
  i + Z.of_nat n <= Z.of_nat (log_size f) ->
  (forall w' page', device_at fd d f true w' -> w_tool w' = w_tool w -> length page' = 2048%nat ->
     Q ((fun '(j, c) => (page', j, c)) <$> log_scan (f_data f) (log_inc f) n i last) w') ->
  xwp (bc_scan fd (log_inc f) n i page last) E Q w.
Proof using L.
  intros Hd Hl. pose proof (log_inc_range f Hl). pose proof (log_size_bound f Hl).
  pose proof (fo_small f (lo_flash f Hl)). pose proof (fo_length f (lo_flash f Hl)). pose proof (fo_eb f (lo_flash f Hl)).
  revert w i page last Hd Q. induction n as [|n IH]; intros w i page last Hd Q Hp Hi Hn HQ; cbn [bc_scan log_scan].
  { apply xwp_ret. by apply (HQ w page). }
  assert (i * log_inc f + log_inc f <= f_size f) as Hin by nia.
  rewrite u32_small by nia. unfold sizeof_bootcounter.
  assert (Z.of_nat (length (slice (f_data f) (i * log_inc f) 12)) = 12) as H12 by (apply length_slice; nia).
  apply xwp_bind. eapply pread_unchecked_spec; [exact Hd|lia|nia|lia|lia|]. intros w1 Hd1 Ht1.
  assert (length (blit page 0 (slice (f_data f) (i * log_inc f) 12)) = 2048%nat) as Hpl by (rewrite length_blit; lia).
  apply xwp_bind, xwp_load; [lia|lia|lia|]. rewrite slice_blit_len by lia.
  change (slice (f_data f) (i * log_inc f) 12) with (record_at (f_data f) (log_inc f) i) in *.
  fold (record_magic (f_data f) (log_inc f) i). fold (record_count (f_data f) (log_inc f) i).
  revert HQ. cbn [log_scan].
  destruct (Z.eqb_spec (record_magic (f_data f) (log_inc f) i) 0xffffffff) as [Em|Hne].
  { intros HQ. rewrite andb_false_r. apply xwp_ret. by apply (HQ w1 _ Hd1 Ht1 Hpl). }
  destruct (Z.eqb_spec (record_magic (f_data f) (log_inc f) i) BOOTCOUNT_MAGIC) as [Em|Hne2]; cbn [negb andb]; intros HQ.
  - apply IH; [done|done|lia|lia|]. intros w2 page' Hd2 Ht2 Hpl2. apply HQ; [done|congruence|done].
  - apply xwp_ret. by apply (HQ w1 _ Hd1 Ht1 Hpl).
Qed.

(** The new record in the page. *)
Lemma bc_record_spec page inc w E (Q : list Z -> world K -> Prop) :
  length page = 2048%nat -> 16 <= inc <= 2048 ->
  (forall page', length page' = 2048%nat -> slice page' 0 inc = zero_record inc -> Q page' w) ->
  xwp (bc_record page inc) E Q w.
Proof.
  intros Hp Hinc HQ. unfold bc_record.
  assert (length (replicate (Z.to_nat inc) 0xff) = Z.to_nat inc) as Hr by apply length_replicate.
  apply xwp_bind, xwp_store; [lia|lia|].
  assert (length (blit page 0 (replicate (Z.to_nat inc) 0xff)) = 2048%nat) as Hl by (rewrite length_blit; lia).
  pose proof length_zero_fields as Hz. apply xwp_store; [lia|lia|].
  apply HQ; [rewrite length_blit; lia|]. unfold zero_record, blit, slice.
  change (Z.to_nat 0) with O. rewrite !take_0, !drop_0. cbn [app Nat.add]. rewrite Hz, Hr.
  rewrite drop_app_le, take_app_ge by lia. f_equal. rewrite take_app_le by (rewrite length_drop; lia).
  apply take_ge. rewrite length_drop. lia.
Qed.

(** Writing to an erased part of a device, and erasing blocks, on working hardware. *)
Lemma pwrite_erased_spec fd d f bytes off w E (Q : Z -> world K -> Prop) :
  device_at fd d f true w -> Forall is_byte bytes -> 0 <= off -> off + Z.of_nat (length bytes) <= f_size f ->
  Forall (eq 0xff) (slice (f_data f) off (Z.of_nat (length bytes))) ->
  (forall w', device_at fd d (set_data (blit (f_data f) off bytes) f) true w' -> w_tool w' = w_tool w ->
     Q (Z.of_nat (length bytes)) w') ->
  xwp (sys (sys_pwrite fd bytes off)) E Q w.
Proof using L.
  intros Hd Hb Hoff Hin Her HQ. pose proof Hd as [Hvars [p Hat] Hok Hrel]. pose proof (fo_length f Hok).
  apply xwp_sys. intros r k Hw.
  destruct (law_pwrite fd bytes off _ d f p r k Hat Hok Hoff Hw) as (Hle & f' & Hv & Hpr & Hshort).
  destruct (Z.eq_dec r (Z.of_nat (length bytes))) as [->|Hne]; [|specialize (Hshort Hne Hrel); lia].
  destruct Hpr as (b' & -> & _ & _ & Hst). rewrite Z.eqb_refl in Hst. rewrite Hst in Hv by done.
  apply HQ; [|done]. split; cbn [w_tool w_os].
  - by rewrite Hvars.
  - exists p. rewrite Hv. by eapply flash_at_set_flash.
  - apply flash_ok_data; [done|apply length_blit; lia|]. apply blit_bytes; [apply Hok|done].
  - by rewrite Hv.
Qed.

Lemma mem_erase_spec fd d f s l w E (Q : Z -> world K -> Prop) :
  device_at fd d f true w -> 0 <= s -> 0 <= l -> (f_eb f | s) -> (f_eb f | l) -> s + l <= f_size f ->
  (forall r w', 0 <= r ->
     device_at fd d (set_data (blit (f_data f) s (replicate (Z.to_nat l) 0xff)) f) true w' ->
     w_tool w' = w_tool w -> Q r w') ->
  xwp (sys (mem_erase fd s l)) E Q w.
Proof using L.
  intros Hd Hs Hl Ds Dl Hin HQ. pose proof Hd as [Hvars [p Hat] Hok Hrel]. pose proof (fo_length f Hok).
  apply xwp_sys. intros r k He.
  destruct (law_erase fd s l _ d f p r k Hat Hok Hs Hl He) as (f' & Hv & (b' & -> & _ & _ & Hb) & _ & Hbad).
  destruct (Z_lt_le_dec r 0) as [Hneg|Hpos]; [specialize (Hbad Hneg Hrel Ds Dl); lia|].
  destruct (Z.leb_spec 0 r); [|lia]. rewrite Hb in Hv by done.
  assert (length (replicate (Z.to_nat l) 0xff) = Z.to_nat l) as Hr by apply length_replicate.
  apply HQ; [done| |done]. split; cbn [w_tool w_os].
  - by rewrite Hvars.
  - exists p. rewrite Hv. by eapply flash_at_set_flash.
  - apply flash_ok_data; [done|apply length_blit; lia|]. apply blit_bytes; [apply Hok|by apply Forall_replicate].
  - by rewrite Hv.
Qed.

Lemma zero_record_bytes inc : Forall is_byte (zero_record inc).
Proof.
  apply blit_bytes; [by apply Forall_replicate|]. repeat apply Forall_app_2; apply cpu_bytes_range.
Qed.

(** Appending the record to a log with [j] records. *)
Lemma boot_count_appended f j c :
  log_ok f -> boot_log f = Some (j, c) -> j < Z.of_nat (log_size f) -> log_free f j ->
  boot_count (set_data (blit (f_data f) (j * log_inc f) (zero_record (log_inc f))) f) = Some 0.
Proof.
  intros Hl Hb Hj Hfree. pose proof (log_inc_range f Hl). pose proof (log_size_bound f Hl).
  pose proof (fo_length f (lo_flash f Hl)). pose proof (length_zero_record (log_inc f) ltac:(lia)) as Hz.
  pose proof (log_scan_range _ _ _ _ _ _ _ Hb) as Hr.
  destruct (zero_record_read (f_data f) (log_inc f) j) as [Hm Hc]; [lia|lia|nia|].
  unfold boot_count, boot_log. change (log_inc (set_data _ f)) with (log_inc f).
  change (log_size (set_data _ f)) with (log_size f). cbn [set_data f_data].
  rewrite (log_scan_append (f_data f) _ (log_inc f) (log_size f) 0 0 j c Hb); [done|lia| |done|done|].
  - intros n Hn. unfold record_at. apply slice_blit_before; unfold sizeof_bootcounter; nia.
  - intros Hn. apply erased_record_magic; [lia|nia|rewrite length_blit; nia|].
    rewrite slice_blit_after by nia. apply Hfree. lia.
Qed.

Lemma slice_blit_ff data len o n :
  0 <= o -> 0 <= n -> o + n <= len -> len <= Z.of_nat (length data) ->
  Forall (eq 0xff) (slice (blit data 0 (replicate (Z.to_nat len) 0xff)) o n).
Proof.
  intros. unfold blit. change (Z.to_nat 0) with O. rewrite take_0. cbn [app].
  rewrite slice_app_l by (rewrite ?length_replicate; lia). by apply Forall_take, Forall_drop, Forall_replicate.
Qed.

(** A full log after the device has been erased. *)
Lemma log_erased f :
  log_ok f -> let f' := set_data (blit (f_data f) 0 (replicate (Z.to_nat (f_size f)) 0xff)) f in
  (0 < log_size f)%nat -> log_ok f' /\ boot_log f' = Some (0, 0) /\ log_free f' 0.
Proof.
  intros Hl f' Hpos. pose proof (log_inc_range f Hl). pose proof (log_size_bound f Hl).
  pose proof (fo_length f (lo_flash f Hl)). pose proof (fo_size f (lo_flash f Hl)).
  assert (length (replicate (Z.to_nat (f_size f)) 0xff) = Z.to_nat (f_size f)) as Hr by apply length_replicate.
  assert (log_free f' 0) as Hfree.
  { intros j Hj. apply slice_blit_ff; change (log_inc f') with (log_inc f); change (log_size f') with (log_size f) in Hj; nia. }
  split_and!; [|..|done].
  - destruct Hl as [Hok Hw]. split; [|done]. apply flash_ok_data; [done|apply length_blit; lia|].
    apply blit_bytes; [apply Hok|by apply Forall_replicate].
  - unfold boot_log. change (log_size f') with (log_size f). destruct (log_size f) as [|n]; [lia|]. cbn [log_scan].
    rewrite erased_record_magic; [done|change (log_inc f') with (log_inc f); lia|lia| |].
    + cbn [f' set_data f_data]. change (log_inc f') with (log_inc f). rewrite length_blit; lia.
    + apply slice_blit_ff; change (log_inc f') with (log_inc f); lia.
Qed.

(** Making room: a full log is erased. *)
Lemma make_room_spec fd d f j c w E :
  device_at fd d f true w -> log_ok f -> (0 < log_size f)%nat -> boot_log f = Some (j, c) -> log_free f j ->
  xwp (if j =? Z.of_nat (log_size f) then sys (mem_erase fd 0 (f_size f)) else xret 0) E
    (fun r w' => 0 <= r /\ exists f1 c1, device_at fd d f1 true w' /\ log_ok f1 /\ f_info f1 = f_info f /\
       let i := if j =? Z.of_nat (log_size f) then 0 else j in
       0 <= i < Z.of_nat (log_size f) /\ boot_log f1 = Some (i, c1) /\ log_free f1 i) w.
Proof using L.
  intros Hd Hl Hpos Hlog Hfree. pose proof (log_scan_range _ _ _ _ _ _ _ Hlog).
  pose proof (fo_size f (lo_flash f Hl)).
  destruct (Z.eqb_spec j (Z.of_nat (log_size f))) as [->|Hne].
  - eapply mem_erase_spec; [exact Hd|lia|lia|apply Z.divide_0_r|apply (lo_flash f Hl)|lia|].
    intros r w' Hr Hd' _. split; [done|]. destruct (log_erased f Hl Hpos) as (Hl' & Hlog' & Hfree').
    eexists _, 0. split; [exact Hd'|]. split; [exact Hl'|]. split; [done|]. cbn zeta. split; [lia|done].
  - apply xwp_ret. split; [done|]. exists f, c. cbn zeta. split_and!; try done; lia.
Qed.

(** Appending the record with count zero. *)
Lemma append_record_spec {T : Type} fd d f page i c w E (k : Z -> X K T) (Q : T -> world K -> Prop) :
  device_at fd d f true w -> log_ok f -> length page = 2048%nat ->
  boot_log f = Some (i, c) -> 0 <= i < Z.of_nat (log_size f) -> log_free f i ->
  (forall r w' f', 0 <= r -> device_at fd d f' true w' -> boot_count f' = Some 0 -> xwp (k r) E Q w') ->
  xwp (let! page := bc_record page (log_inc f) in
       let! bytes := load page 0 (log_inc f) in
       let! ret := sys (sys_pwrite fd bytes (u32 (i * log_inc f))) in k ret) E Q w.
Proof using L.
  intros Hd Hl Hp Hlog Hi Hfree HQ. pose proof (log_inc_range f Hl). pose proof (log_size_bound f Hl).
  pose proof (fo_small f (lo_flash f Hl)). pose proof (fo_eb f (lo_flash f Hl)).
  pose proof (length_zero_record (log_inc f) ltac:(lia)) as Hz.
  apply xwp_bind. apply bc_record_spec; [done|lia|]. intros page' Hp' Hrec.
  apply xwp_bind, xwp_load; [lia|lia|lia|]. rewrite Hrec, u32_small by nia.
  apply xwp_bind. eapply pwrite_erased_spec; [exact Hd|apply zero_record_bytes|nia|nia| |].
  - rewrite Hz. apply Hfree. lia.
  - intros w' Hd' _. eapply HQ; [lia|exact Hd'|]. apply (boot_count_appended f i c); [done|done|lia|done].
Qed.
End resetbc.
