(* ===== verification/ToolTrxSpec.v ===== *)
(** Repairing a TRX header: the data it covers are those on good blocks. *)

From stdpp Require Import base list numbers strings gmap.
From Stdlib Require Import ZArith Lia.
From S2P Require Import Prelude Platform Bytes ToolOs ToolCrc ToolFix ToolOsSpec ToolWriteSpec ToolFixSpec.
Local Open Scope Z_scope.
Local Open Scope cprog_scope.

(** * The reference *)

(** The byte at [i] if it is on a good block; the bytes of [n] addresses from [o] on. *)
Definition good_byte (f : flash) (i : Z) : list Z :=
  if bool_decide (i / f_eb f * f_eb f ∈ f_bad f) then [] else slice (f_data f) i 1.
Definition good_bytes (f : flash) (o n : Z) : list Z := flat_map (good_byte f) (seqZ o n).

(** The header at [o] describes the data behind it, up to [n] bytes from the field
    [flag_version] on. *)
Definition trx_crc (f : flash) (o n : Z) : Z := foldl crc_byte 0xffffffff (good_bytes f (o + TRX_CRC32_DATA_OFFSET) n).
Definition trx_len (f : flash) (o n : Z) : Z :=
  Z.of_nat (length (good_bytes f (o + TRX_CRC32_DATA_OFFSET) n)) + TRX_CRC32_DATA_OFFSET.
Definition trx_fixed (f : flash) (o n : Z) : Prop :=
  le_field (slice (f_data f) o 12) 4 4 = trx_len f o n /\ le_field (slice (f_data f) o 12) 8 4 = trx_crc f o n.
Definition trx_magic_at (f : flash) (o : Z) : Z := le_val (reverse (slice (f_data f) o 4)).

Lemma good_bytes_app f o n m : 0 <= n -> 0 <= m -> good_bytes f o (n + m) = good_bytes f o n ++ good_bytes f (o + n) m.
Proof. intros. unfold good_bytes. by rewrite seqZ_app, flat_map_app. Qed.

Lemma good_bytes_0 f o : good_bytes f o 0 = [].
Proof. done. Qed.

Lemma slice_cons (l : list Z) i n : 0 <= i -> 0 < n -> slice l i n = slice l i 1 ++ slice l (i + 1) (n - 1).
Proof.
  intros. unfold slice. replace (Z.to_nat n) with (1 + Z.to_nat (n - 1))%nat by lia.
  rewrite <- take_take_drop, drop_drop. do 3 f_equal; lia.
Qed.

(** Inside one block. *)
Lemma good_bytes_block f b o n :
  0 < f_eb f -> 0 <= b -> b * f_eb f <= o -> 0 <= n -> o + n <= b * f_eb f + f_eb f ->
  good_bytes f o n = if bool_decide (b * f_eb f ∈ f_bad f) then [] else slice (f_data f) o n.
Proof.
  intros Heb Hb Ho Hn. rewrite <- (Z2Nat.id n) by done. generalize (Z.to_nat n) as k. clear n Hn.
  intros k. revert o Ho. induction k as [|k IH]; intros o Ho Hin.
  { unfold good_bytes. cbn. by destruct (bool_decide _). }
  unfold good_bytes in *. rewrite seqZ_cons by lia. cbn [flat_map].
  replace (Z.pred (Z.of_nat (S k))) with (Z.of_nat k) by lia. rewrite IH by lia. unfold good_byte.
  assert (o / f_eb f = b) as ->.
  { symmetry. apply (Z.div_unique o (f_eb f) b (o - b * f_eb f)); [left; lia|lia]. }
  case_bool_decide; [done|]. rewrite (slice_cons _ o (Z.of_nat (S k))) by nia. do 2 f_equal. lia.
Qed.

Lemma good_bytes_range f o n : Forall is_byte (f_data f) -> Forall is_byte (good_bytes f o n).
Proof.
  intros Hd. unfold good_bytes. apply Forall_flat_map, Forall_true. intros i. unfold good_byte.
  case_bool_decide; [done|by apply slice_bytes].
Qed.

Lemma length_good_bytes f o n : 0 <= n -> Z.of_nat (length (good_bytes f o n)) <= n.
Proof.
  intros Hn. rewrite <- (Z2Nat.id n) by done. generalize (Z.to_nat n) as k. clear n Hn.
  intros k. revert o. induction k as [|k IH]; intros o; [by cbn|].
  rewrite Nat2Z.inj_succ, <- Z.add_1_l, good_bytes_app, length_app by lia. specialize (IH (o + 1)).
  assert (good_bytes f o 1 = good_byte f o) as ->.
  { unfold good_bytes. rewrite seqZ_cons by lia. cbn [Z.pred flat_map]. by rewrite app_nil_r. }
  unfold good_byte.
  pose proof (length_slice_le (f_data f) o 1). case_bool_decide; cbn [length]; lia.
Qed.

(** What is behind the header does not depend on it. *)
Lemma good_bytes_blit f o n src off :
  0 <= off -> off + Z.of_nat (length src) <= o -> off + Z.of_nat (length src) <= Z.of_nat (length (f_data f)) ->
  good_bytes (set_data (blit (f_data f) off src) f) o n = good_bytes f o n.
Proof.
  intros Hoff Ho Hl. unfold good_bytes. rewrite !flat_map_concat_map. f_equal. apply map_ext_in.
  intros i [Hi _]%list_elem_of_In%elem_of_seqZ. unfold good_byte.
  change (f_eb (set_data _ f)) with (f_eb f). cbn [set_data f_bad f_data].
  case_bool_decide; [done|]. apply slice_blit_after; lia.
Qed.

(** * Masks: erase blocks are powers of two *)

Lemma land_mask e x : 0 <= e -> Z.land x (2 ^ e - 1) = x mod 2 ^ e.
Proof. intros. rewrite <- Z.land_ones by done. by rewrite Z.ones_equiv, <- Z.sub_1_r. Qed.

Lemma block_start_spec `{A : Arch} `{!ArchLaws A} e x :
  0 <= e -> 0 <= x < 2 ^ 32 -> block_start x (2 ^ e) = x / 2 ^ e * 2 ^ e.
Proof.
  intros He Hx. unfold block_start, size_t. pose proof (long_bits_32 : 32 <= long_bits).
  assert (2 ^ 32 <= 2 ^ long_bits) by (apply Z.pow_le_mono_r; lia).
  rewrite <- (Z.land_ones (Z.lnot _)), Z.land_comm, <- Z.land_assoc, (Z.land_comm (Z.ones _)), Z.land_ones by lia.
  rewrite Z.mod_small by lia. rewrite Z.land_comm, <- Z.ldiff_land, Z.sub_1_r, <- Z.ones_equiv.
  rewrite Z.ldiff_ones_r, Z.shiftl_mul_pow2, Z.shiftr_div_pow2 by lia. done.
Qed.

(** * The steps of [mtd_fixtrx] *)

Section trx.
Context `{A : Arch} `{!ArchLaws A} {K : Type} `{L : OsLaws K}.
Context (fd : Z) (d : string) (f : flash) (rel : bool) (e : Z).
Context (Heb : f_eb f = 2 ^ e) (He : 0 <= e) (Hok : flash_ok f).
Implicit Types (w : world K).

(** The data read so far: those from [o] to the current offset. *)
Definition trx_reading (o n : Z) (st : trx_read) w : Prop :=
  device_at fd d f rel w /\ Z.of_nat (length (tr_buf st)) = n /\ Forall is_byte (tr_buf st) /\
  o <= tr_off st /\ 0 <= tr_left st /\ tr_off st + tr_left st = o + n /\ 
  tr_to st = Z.of_nat (length (good_bytes f o (tr_off st - o))) /\
  slice (tr_buf st) 0 (tr_to st) = good_bytes f o (tr_off st - o).

Lemma slice_blit_upto (b : list Z) o src :
  0 <= o -> o + Z.of_nat (length src) <= Z.of_nat (length b) ->
  slice (blit b o src) 0 (o + Z.of_nat (length src)) = slice b 0 o ++ src.
Proof.
  intros. unfold slice. change (Z.to_nat 0) with O. rewrite !drop_0.
  rewrite <- (Z2Nat.id o) at 2 by done. apply take_blit; lia.
Qed.

(** One round: the rest of a block. *)
Lemma trx_read_round o n st w (E : Z -> world K -> Prop) :
  trx_reading o n st w -> 0 <= o -> o + n <= f_size f ->
  (forall w', rel <> true -> device_at fd d f rel w' -> E 1 w') ->
  xwp (trx_read_step fd st) E (fun r w' =>
    match r with
    | inl st' => trx_reading o n st' w' /\
        (Z.to_nat (o + n - tr_off st') < Z.to_nat (o + n - tr_off st))%nat
    | inr st' => tr_left st' = 0 /\ trx_reading o n st' w'
    end) w.
Proof using L ArchLaws0 Heb He Hok.
  intros (Hd & Hbl & Hby & Hoff & Hleft & Hsum & Hto & Hbuf) Ho Hin HE.
  pose proof (fo_eb f Hok) as Heb0. pose proof (fo_small f Hok). pose proof (eb_le_size f Hok).
  unfold trx_read_step. destruct (Z.eqb_spec (tr_left st) 0) as [Hz|Hnz]; [by apply xwp_ret|].
  apply xwp_bind. eapply erasesize_spec; [exact Hd|]. rewrite (size_t_small (f_eb f - 1)) by lia.
  set (b := tr_off st / f_eb f). pose proof (Z.div_mod (tr_off st) (f_eb f) ltac:(lia)) as Hdm. fold b in Hdm.
  pose proof (Z.mod_pos_bound (tr_off st) (f_eb f) Heb0) as Hmod.
  assert (0 <= b) as Hb by (apply Z.div_pos; lia).
  assert (block_start (tr_off st) (f_eb f) = b * f_eb f) as ->.
  { rewrite Heb. rewrite block_start_spec by lia. by rewrite <- Heb. }
  assert (Z.land (tr_off st) (f_eb f - 1) = tr_off st mod f_eb f) as ->.
  { rewrite Heb. by apply land_mask. }
  rewrite size_t_small by lia. set (c := Z.min (f_eb f - tr_off st mod f_eb f) (tr_left st)).
  assert (0 < c <= tr_left st /\ tr_off st + c <= b * f_eb f + f_eb f) as [Hc Hcb] by lia.
  pose proof (good_bytes_block f b (tr_off st) c Heb0 Hb ltac:(lia) ltac:(lia) ltac:(lia)) as Hg.
  assert (good_bytes f o (tr_off st + c - o) = good_bytes f o (tr_off st - o) ++ good_bytes f (tr_off st) c) as Happ.
  { replace (tr_off st + c - o) with (tr_off st - o + c) by lia. rewrite good_bytes_app by lia.
    do 2 f_equal. lia. }
  rewrite (size_t_small (tr_off st + c)) by lia. pose proof Hd as [Hv [p Hat] _ Hrel].
  apply xwp_bind. eapply block_is_bad_spec; [exact Hat|done|done|nia|].
  intros k1 Hv1 w1. assert (device_at fd d f rel w1) as Hd1 by (by eapply device_at_view).
  split_and!; [intros [|Hr]; [nia|]; apply HE; [congruence|done]|..]; intros _ Hbad; cbn [Z.eqb].
  - apply xwp_bind, xwp_ret, xwp_ret. rewrite bool_decide_true in Hg by done.
    split; [|cbn [tr_off]; lia]. unfold trx_reading. cbn [tr_buf tr_off tr_left tr_to].
    rewrite Happ, Hg, app_nil_r. split_and!; try done; lia.
  - apply xwp_bind, xwp_bind. rewrite bool_decide_false in Hg by done.
    eapply pread_all_spec; [exact Hd1|lia|lia|]. intros w2 Hd2 _ _. split; [|intros Hf; apply xwp_exit, HE; [intros Hr; specialize (Hf Hr); lia|done]].
    intros _. rewrite <- Hg. assert (Z.of_nat (length (good_bytes f (tr_off st) c)) = c) as Hgl.
    { rewrite Hg. pose proof (fo_length f Hok). rewrite length_slice; lia. }
    pose proof (length_good_bytes f o (tr_off st - o) ltac:(lia)).
    apply xwp_bind, xwp_store; [lia|lia|]. apply xwp_ret, xwp_ret. split; [|cbn [tr_off]; lia].
    unfold trx_reading. cbn [tr_buf tr_off tr_left tr_to]. rewrite Happ, length_app, Nat2Z.inj_add, Hgl, <- Hto, <- Hbuf.
    split_and!; try done; try lia.
    + rewrite length_blit; lia.
    + apply blit_bytes; [done|]. apply good_bytes_range, Hok.
    + rewrite <- Hgl at 2. apply slice_blit_upto; lia.
Qed.

Lemma trx_read_spec fuel o n b w (E : Z -> world K -> Prop) :
  device_at fd d f rel w -> Z.of_nat (length b) = n -> Forall is_byte b -> 0 <= o -> o + n <= f_size f ->
  (Z.to_nat n < fuel)%nat -> (forall w', rel <> true -> device_at fd d f rel w' -> E 1 w') ->
  xwp (xloop fuel (trx_read_step fd) (mk_trx_read b 0 o n)) E (fun st w' =>
    device_at fd d f rel w' /\ tr_to st = Z.of_nat (length (good_bytes f o n)) /\
    Forall is_byte (tr_buf st) /\ tr_to st <= Z.of_nat (length (tr_buf st)) /\
    slice (tr_buf st) 0 (tr_to st) = good_bytes f o n) w.
Proof using L ArchLaws0 Heb He Hok.
  intros Hd Hb Hby Ho Hin Hfuel HE.
  apply (xwp_loop (trx_reading o n) (fun st _ => Z.to_nat (o + n - tr_off st))).
  - intros st w' Hst. eapply xwp_call; [by apply (trx_read_round o n)|]. intros [st'|st'] w''; [done|].
    intros (Hz & Hd' & Hl & Hby' & H1 & H2 & H3 & H4 & H5). replace (tr_off st' - o) with n in * by lia.
    split_and!; try done. rewrite H4. pose proof (length_good_bytes f o n ltac:(lia)). lia.
  - unfold trx_reading. cbn [tr_buf tr_off tr_left tr_to]. rewrite Z.sub_diag. split_and!; try done; lia.
  - cbn [tr_off]. lia.
Qed.
End trx.

(** * Changing fields of a block *)

Lemma blit_adjacent (b : list Z) o x y :
  0 <= o -> o + Z.of_nat (length x) + Z.of_nat (length y) <= Z.of_nat (length b) ->
  blit (blit b o x) (o + Z.of_nat (length x)) y = blit b o (x ++ y).
Proof.
  intros Ho Hl. rewrite <- (Z2Nat.id o) by done. unfold blit at 1. rewrite !take_blit by lia.
  replace (Z.to_nat (Z.of_nat (Z.to_nat o) + Z.of_nat (length x)) + length y)%nat
    with ((Z.to_nat o + length x) + length y)%nat by lia.
  rewrite <- drop_drop, drop_blit by lia. unfold blit. rewrite drop_drop, length_app, <- !app_assoc, Nat2Z.id.
  do 4 f_equal. lia.
Qed.

Lemma blit_in_slice (data : list Z) a n o x :
  0 <= a -> 0 <= o -> o + Z.of_nat (length x) <= n -> a + n <= Z.of_nat (length data) ->
  blit data a (blit (slice data a n) o x) = blit data (a + o) x.
Proof.
  intros Ha Ho Hn Hl. assert (Z.of_nat (length (slice data a n)) = n) as Hs by (apply length_slice; lia).
  unfold blit at 1. rewrite length_blit by lia. unfold blit, slice.
  rewrite take_take, skipn_firstn_comm, drop_drop, <- !app_assoc, app_assoc, take_take_drop.
  f_equal; [f_equal; lia|]. f_equal.
  replace (Z.to_nat a + length (take (Z.to_nat n) (drop (Z.to_nat a) data)))%nat
    with ((Z.to_nat a + (Z.to_nat o + length x)) + (Z.to_nat n - (Z.to_nat o + length x)))%nat
    by (rewrite length_take, length_drop; lia).
  rewrite <- (drop_drop data (Z.to_nat n - (Z.to_nat o + length x))), take_drop. f_equal. lia.
Qed.

Lemma slice_in_blit (b : list Z) o src k l :
  0 <= o -> 0 <= k -> 0 <= l -> k + l <= Z.of_nat (length src) -> o + Z.of_nat (length src) <= Z.of_nat (length b) ->
  slice (blit b o src) (o + k) l = slice src k l.
Proof.
  intros. rewrite <- (slice_blit_eq b o src) at 2 by lia. by rewrite slice_slice by lia.
Qed.

Lemma trx_crc_range f o n : 0 <= trx_crc f o n < 2 ^ 32.
Proof. apply crc_bytes_range. done. Qed.

Lemma trx_len_range f o n : 0 <= n < 2 ^ 31 -> 12 <= trx_len f o n < 2 ^ 32.
Proof.
  intros. pose proof (length_good_bytes f (o + TRX_CRC32_DATA_OFFSET) n ltac:(lia)).
  unfold trx_len, TRX_CRC32_DATA_OFFSET in *. lia.
Qed.

(** The device with new fields in the header. *)
Definition trx_repair (f : flash) (o n : Z) : flash :=
  set_data (blit (f_data f) (o + 4) (le_bytes 4 (trx_len f o n) ++ le_bytes 4 (trx_crc f o n))) f.

Lemma trx_repair_fixed f o n :
  flash_ok f -> 0 <= o -> o + 12 <= f_size f -> 0 <= n < 2 ^ 31 ->
  trx_fixed (trx_repair f o n) o n /\ same_outside (f_data f) (f_data (trx_repair f o n)) (o + 4) 8.
Proof.
  intros Hok Ho Hin Hn. pose proof (fo_length f Hok). pose proof (trx_len_range f o n Hn). pose proof (trx_crc_range f o n).
  set (new := le_bytes 4 (trx_len f o n) ++ le_bytes 4 (trx_crc f o n)).
  assert (length new = 8%nat) as Hl by (unfold new; by rewrite length_app, !length_le_bytes).
  assert (good_bytes (trx_repair f o n) (o + TRX_CRC32_DATA_OFFSET) n = good_bytes f (o + TRX_CRC32_DATA_OFFSET) n) as Hg.
  { apply good_bytes_blit; fold new; unfold TRX_CRC32_DATA_OFFSET; lia. }
  assert (forall k, 0 <= k -> k + 4 <= 8 -> le_field (slice (f_data (trx_repair f o n)) o 12) (k + 4) 4 = le_val (slice new k 4)) as Hf.
  { intros k Hk Hk'. unfold le_field. f_equal. rewrite slice_slice by lia. replace (o + (k + 4)) with (o + 4 + k) by lia.
    apply slice_in_blit; fold new; lia. }
  split.
  - assert (trx_len (trx_repair f o n) o n = trx_len f o n /\ trx_crc (trx_repair f o n) o n = trx_crc f o n) as [El Ec]
      by (unfold trx_len, trx_crc; by rewrite Hg).
    unfold trx_fixed. rewrite El, Ec. split.
    + change 4 with (0 + 4) at 1. rewrite (Hf 0) by lia. change (le_val (slice new 0 4)) with (le_field new 0 4). unfold new.
      rewrite le_field_here by done. apply Z.mod_small. lia.
    + change 8 with (4 + 4). rewrite (Hf 4) by lia. change (le_val (slice new 4 4)) with (le_field new 4 4). unfold new.
      rewrite le_field_skip by (by rewrite length_le_bytes). rewrite length_le_bytes.
      rewrite <- (app_nil_r (le_bytes 4 (trx_crc f o n))), le_field_here by done. apply Z.mod_small. lia.
  - rewrite <- (Z2Nat.id (o + 4)) by lia. replace 8 with (Z.of_nat (length new)) by lia.
    unfold trx_repair. fold new. cbn [set_data f_data]. rewrite <- (Z2Nat.id (o + 4)) at 1 by lia.
    apply blit_outside. lia.
Qed.

Section finish.
Context `{A : Arch} `{!ArchLaws A} {K : Type} `{L : OsLaws K}.
Implicit Types (w : world K).

(** What [mtd_fixtrx] leaves on the device. *)
Definition trx_post (d : string) (f : flash) (o n : Z) w : Prop :=
  exists f', v_flash (view_of (w_os w)) !! d = Some f' /\ trx_fixed f' o n /\
    same_outside (f_data f) (f_data f') (o + 4) 8 /\ (trx_fixed f o n -> f' = f).

Lemma STORE32_LE_small x : 0 <= x < 2 ^ 32 -> STORE32_LE x = x.
Proof using ArchLaws0. intros. unfold STORE32_LE. destruct big_endian; [by apply u32_small|by apply size_t_small]. Qed.

(** The end of [mtd_fixtrx], for a header [oo] bytes into the block at [bo]. *)
Lemma trx_finish fd d f rel bo oo o n w (E : Z -> world K -> Prop) :
  device_at fd d f rel w -> 0 <= bo -> (f_eb f | bo) -> 0 <= oo -> oo + 12 <= f_eb f -> bo + f_eb f <= f_size f -> 0 <= n < 2 ^ 31 ->
  o = bo + oo ->
  let h := slice (f_data f) o 12 in
  (forall w', rel <> true -> changed_inside d f bo (f_eb f) w' -> E 1 w') ->
  xwp (if (le_field h 4 4 =? STORE32_LE (trx_len f o n)) && (le_field h 8 4 =? STORE32_LE (trx_crc f o n))
       then do! sys_ (sys_close fd) in xret 0
       else
         do! rewrite_block fd (blit (blit (slice (f_data f) bo (f_eb f)) (oo + 4) (le_bytes 4 (trx_len f o n)))
                                 (oo + 8) (le_bytes 4 (trx_crc f o n))) bo in
         do! sys_ (sys_close fd) in do! sys_ sys_sync in xret 0) E
    (fun r w' => r = 0 /\ trx_post d f o n w') w.
Proof using L ArchLaws0.
  intros Hd Hbo Hdiv Hoo Hin Hsz Hn Ho h HE. pose proof (da_ok _ _ _ _ _ Hd) as Hok. pose proof (fo_eb f Hok).
  pose proof (fo_length f Hok). rewrite !STORE32_LE_small by (apply trx_crc_range || (pose proof (trx_len_range f o n Hn); lia)).
  destruct (_ && _) eqn:Hfix.
  - apply andb_true_iff in Hfix as [H1%Z.eqb_eq H2%Z.eqb_eq]. do 2 xwp_step. apply xwp_ret. split; [done|].
    destruct (da_at _ _ _ _ _ Hd) as [p [_ Hf]]. exists f. cbn [w_os]. rewrite law_close. by split_and!.
  - assert (Z.of_nat (length (slice (f_data f) bo (f_eb f))) = f_eb f) as Hsl by (apply length_slice; lia).
    assert (forall v, length (le_bytes 4 v) = 4%nat) as H4 by (intros; apply length_le_bytes).
    replace (oo + 8) with (oo + 4 + Z.of_nat (length (le_bytes 4 (trx_len f o n)))) by (rewrite H4; lia).
    rewrite blit_adjacent by (rewrite ?H4; lia).
    set (new := le_bytes 4 (trx_len f o n) ++ le_bytes 4 (trx_crc f o n)).
    assert (length new = 8%nat) as Hnl by (unfold new; by rewrite length_app, !H4).
    apply xwp_bind. eapply rewrite_block_spec; [exact Hd| | |done|done|done|done|].
    + rewrite length_blit; lia.
    + apply blit_bytes; [apply slice_bytes, Hok|]. apply Forall_app_2; apply le_bytes_range.
    + intros w' Hd' _. apply close_sync_spec. intros w2 Hv2. split; [done|].
      destruct (da_at _ _ _ _ _ Hd') as [p [_ Hf]]. rewrite blit_in_slice in Hf by lia.
      destruct (trx_repair_fixed f o n Hok) as [Hfx Hs]; [lia|lia|done|].
      exists (trx_repair f o n). rewrite Hv2. split_and!; [|done|done|].
      * rewrite Hf. unfold trx_repair. fold new. do 3 f_equal. lia.
      * intros [E1 E2]. unfold h in Hfix. rewrite E1, E2, !Z.eqb_refl in Hfix. done.
Qed.

(** The header is made to match the data. *)
Lemma fix_trx_header_spec fuel fd d f rel e bo o n w (E : Z -> world K -> Prop) :
  device_at fd d f rel w -> f_eb f = 2 ^ e -> 0 <= e ->
  0 <= bo -> (f_eb f | bo) -> bo <= o -> o - bo + 12 <= f_eb f -> bo + f_eb f <= f_size f ->
  0 <= n -> o + 12 + n <= f_size f -> (Z.to_nat n < fuel)%nat ->
  (forall w', rel <> true -> changed_inside d f bo (f_eb f) w' -> E 1 w') ->
  xwp (fix_trx_header fuel fd (slice (f_data f) bo (f_eb f)) bo (o - bo) (o + 12) n) E
    (fun r w' => r = 0 /\ trx_post d f o n w') w.
Proof using L ArchLaws0.
  intros Hd Heb He Hbo Hdiv Ho Hhdr Hblock Hn Hfit Hfuel HE. pose proof (da_ok _ _ _ _ _ Hd) as Hok.
  pose proof (fo_eb f Hok). pose proof (fo_small f Hok). pose proof (fo_length f Hok).
  assert (Z.of_nat (length (slice (f_data f) bo (f_eb f))) = f_eb f) as Hsl by (apply length_slice; lia).
  unfold fix_trx_header. apply xwp_bind, malloc_spec; [lia| |].
  2: { intros k Hv Hnone. pose proof (da_rel _ _ _ _ _ Hd) as Hr. eapply device_at_view in Hd; [|exact Hv|reflexivity].
       apply xwp_exit, HE; [intros ->; specialize (Hnone Hr); lia|]. by eapply changed_nothing. }
  intros k b Hv Hb Hby. eapply device_at_view in Hd; [|exact Hv|reflexivity]. apply xwp_bind.
  eapply xwp_call; [apply (trx_read_spec fd d f rel e Heb He Hok fuel (o + 12) n b); [exact Hd|done|done|lia|lia|done|]|].
  { intros w' Hr Hd'. apply HE; [done|by eapply changed_nothing]. }
  clear Hd. intros st w3 (Hd & Hto & Hbst & Hle & Hdata). pose proof (length_good_bytes f (o + 12) n ltac:(lia)).
  apply xwp_bind. unfold crc32buf. eapply wp_intro; [unfold pure, bind; rewrite crc32_spec by (done || lia); reflexivity|].
  cbn beta iota. rewrite Hdata. apply xwp_bind, xwp_load; [lia|lia|lia|]. rewrite slice_slice by lia.
  rewrite Hto. change (Z.of_nat (length (good_bytes f (o + 12) n)) + 12) with (trx_len f o n).
  change (foldl crc_byte 4294967295 (good_bytes f (o + 12) n)) with (trx_crc f o n).
  replace (bo + (o - bo)) with o by lia. unfold TRX_CRC32_DATA_OFFSET.
  eapply (trx_finish fd d f rel bo (o - bo) o n); [exact Hd|lia|done|lia|lia|lia|lia|lia|done].
Qed.
End finish.
