(* ===== verification/ToolCmdSpec.v ===== *)
(** Erasing and verifying a device, the recovery flag, and the checks before anything is
    written: specifications of the steps. *)

From stdpp Require Import base list numbers strings gmap.
From Stdlib Require Import ZArith Lia.
From S2P Require Import Prelude Platform Bytes ToolOs ToolCrc ToolFix ToolFlags ToolJffs2 ToolMtd.
From S2P Require Import ToolOsSpec ToolWriteSpec ToolFixSpec ToolFlagsSpec ToolTrxSpec.
Local Open Scope Z_scope.
Local Open Scope cprog_scope.

(** * Erasing *)

(** The first [k] blocks of [f'] are erased, but for the bad ones, which are kept. *)
Record erased_upto (f : flash) (rel : bool) (k : Z) (f' : flash) : Prop := {
  eu_flash : f' = set_data (f_data f') f;
  eu_bad : bad_kept f f';
  eu_good : rel = true -> forall j, 0 <= j < k -> j * f_eb f ∉ f_bad f ->
    slice (f_data f') (j * f_eb f) (f_eb f) = replicate (f_ebn f) 0xff
}.

Lemma erased_upto_start f rel : erased_upto f rel 0 f.
Proof. split; [by rewrite set_data_id|done|intros; lia]. Qed.

Lemma erased_upto_skip f rel k f' : erased_upto f rel k f' -> k * f_eb f ∈ f_bad f -> erased_upto f rel (k + 1) f'.
Proof.
  intros [? ? Hg] Hb. split; [done..|]. intros Hr j Hj Hn. apply Hg; [done| |done].
  destruct (Z.eq_dec j k) as [->|]; [done|lia].
Qed.

(** Erasing block [k]: its contents, or with a failure only a change of that block. *)
Lemma erased_upto_block f rel k f' f'' ok :
  flash_ok f -> flash_ok f' -> erased_upto f rel k f' -> 0 <= k -> k * f_eb f ∉ f_bad f -> k * f_eb f + f_eb f <= f_size f ->
  erased f' (k * f_eb f) (f_eb f) f'' ok -> (rel = true -> ok = true) -> erased_upto f rel (k + 1) f''.
Proof.
  intros Hok Hok' [Hf Hbad Hg] Hk Hn Hin (b & -> & _ & Hs & Hb) Hrel. pose proof (fo_eb f Hok).
  pose proof (fo_length f' Hok') as Hl. assert (f_size f' = f_size f) as Hsz by (rewrite Hf; done).
  split; [by rewrite Hf| |].
  - apply (bad_kept_outside f f' b (k * f_eb f)); [done..| |done]. by exists k.
  - intros Hr j Hj Hjn. cbn [set_data f_data]. destruct (Z.eq_dec j k) as [->|].
    + rewrite Hb by auto. assert (length (replicate (f_ebn f) 0xff) = f_ebn f) as Hrl by apply length_replicate.
      pose proof (f_ebn_eb f Hok). change (Z.to_nat (f_eb f)) with (f_ebn f).
      replace (f_eb f) with (Z.of_nat (length (replicate (f_ebn f) 0xff))) at 3 by lia. apply slice_blit_eq; lia.
    + rewrite (slice_outside (f_data f') b (k * f_eb f) (f_eb f)); [apply Hg; [done|lia|done]|done|nia|lia|left; nia].
Qed.

Section erase.
Context `{A : Arch} `{!ArchLaws A} {K : Type} `{L : OsLaws K}.
Implicit Types (w : world K).

Definition erase_exit (d : string) (f : flash) (rel : bool) (code : Z) w : Prop :=
  code = 1 /\ rel = false /\ exists f', v_flash (view_of (w_os w)) !! d = Some f' /\ bad_kept f f'.

Lemma erase_step_spec fd d f rel k f' w :
  flash_ok f -> device_at fd d f' rel w -> erased_upto f rel k f' -> 0 <= k -> k * f_eb f <= f_size f ->
  xwp (erase_step fd (k * f_eb f)) (erase_exit d f rel) (fun r w' =>
    match r with
    | inl start => k * f_eb f < f_size f /\ start = (k + 1) * f_eb f /\ exists f'', device_at fd d f'' rel w' /\ erased_upto f rel (k + 1) f''
    | inr _ => w' = w /\ k * f_eb f = f_size f
    end) w.
Proof using L.
  intros Hok Hd Hu Hk Hin. pose proof (fo_eb f Hok). pose proof (fo_small f Hok). pose proof (eb_le_size f Hok).
  assert (f_size f' = f_size f /\ f_eb f' = f_eb f /\ f_bad f' = f_bad f) as (Hsz & Heb & Hbad)
    by (rewrite (eu_flash _ _ _ _ Hu); done).
  unfold erase_step. apply xwp_bind. eapply mtdsize_spec; [exact Hd|]. rewrite Hsz, u32_small by lia.
  destruct (Z.geb_spec (k * f_eb f) (f_size f)) as [Hge|Hlt]; [apply xwp_ret; split; [done|lia]|].
  assert (k * f_eb f + f_eb f <= f_size f) as Hend.
  { destruct (fo_blocks f Hok) as [q Hq]. assert (k < q) by nia. nia. }
  apply xwp_bind. eapply erasesize_spec; [exact Hd|]. pose proof Hd as [Hv [p Hat] Hok' Hrel].
  apply xwp_bind. eapply block_is_bad_spec; [exact Hat|done|done|lia|].
  intros k1 Hv1 w1. assert (device_at fd d f' rel w1) as Hd1 by (by eapply device_at_view).
  rewrite Hsz, Hbad, Heb. split_and!.
  - intros [|Hr]; [lia|]. split; [done|]. split; [congruence|]. exists f'.
    split; [cbn; rewrite Hv1; apply Hat|apply Hu].
  - intros _ Hb. cbn [Z.eqb]. apply xwp_bind, xwp_ret, xwp_ret. split; [done|]. rewrite u32_small by lia.
    split; [lia|]. exists f'. split; [done|by apply erased_upto_skip].
  - intros _ Hg. cbn [Z.eqb]. rewrite !u32_small by lia. apply xwp_bind, xwp_bind, xwp_sys. intros r2 k2 Hu2.
    assert (flash_at (view_of k1) fd d f' p) as Hat1 by by rewrite Hv1.
    pose proof (law_unlock _ _ _ _ _ _ Hu2 : view_of k2 = view_of k1) as Hv2. rewrite <- Hv2 in Hat1.
    apply xwp_bind, xwp_sys. intros r3 k3 Hk3. apply xwp_ret, xwp_ret. split; [done|]. split; [lia|].
    assert (0 <= k * f_eb f) as Hpos by nia. assert (0 <= f_eb f) as Hpe by lia.
    destruct (law_erase _ _ _ _ _ _ _ _ _ Hat1 Hok' Hpos Hpe Hk3) as (f3 & Hv3 & Her & Hfit & Hfail).
    rewrite Heb, Hsz in *. assert (v_reliable (view_of k2) = rel) as Hrel2 by (rewrite Hv2, Hv1; done).
    exists f3. split.
    + assert (f3 = set_data (f_data f3) f') as E3 by (destruct Her as (? & -> & _); done).
      split; cbn [w_tool w_os].
      * rewrite E3. done.
      * exists p. rewrite Hv3. by eapply flash_at_set_flash.
      * destruct Her as (b & -> & Hb & Hs & _). apply flash_ok_data; [done|apply Hs|apply Hb, Hok'].
      * by rewrite Hv3.
    + eapply erased_upto_block; [done|exact Hok'|done|done|done|done|exact Her|].
      intros ->. destruct (Z.leb_spec 0 r3) as [|Hneg]; [done|]. specialize (Hfail Hneg Hrel2).
      assert ((f_eb f | k * f_eb f)) as Hdv by by exists k. specialize (Hfail Hdv (Z.divide_refl _)). lia.
Qed.

Lemma erase_loop_spec fuel fd d f rel w :
  device_at fd d f rel w -> (f_blocks f < fuel)%nat ->
  xwp (xloop fuel (erase_step fd) 0) (erase_exit d f rel) (fun _ w' =>
    exists f', device_at fd d f' rel w' /\ erased_upto f rel (Z.of_nat (f_blocks f)) f') w.
Proof using L.
  intros Hd Hfuel. pose proof (da_ok _ _ _ _ _ Hd) as Hok. pose proof (blocks_size f Hok) as Hbs.
  pose proof (fo_eb f Hok).
  apply (xwp_loop (fun start w => exists k f', start = k * f_eb f /\ 0 <= k <= Z.of_nat (f_blocks f) /\
      device_at fd d f' rel w /\ erased_upto f rel k f')
    (fun start _ => (f_blocks f - Z.to_nat (start / f_eb f))%nat)).
  - clear w Hd Hfuel. intros start w (k & f' & -> & Hk & Hd & Hu).
    eapply xwp_call; [eapply erase_step_spec; [done|exact Hd|exact Hu|lia|nia]|].
    intros [start|[]] w'.
    + intros (Hlt & -> & f'' & Hd' & Hu'). rewrite !Z.div_mul by lia. split; [|nia].
      exists (k + 1), f''. split_and!; [done|lia|nia|done|done].
    + intros [-> Hend]. exists f'. split; [done|]. assert (k = Z.of_nat (f_blocks f)) as <- by nia. done.
  - exists 0, f. split_and!; [lia|lia|lia|done|apply erased_upto_start].
  - lia.
Qed.
End erase.

(** * Verifying *)

Section verify.
Context `{A : Arch} {K : Type} `{L : OsLaws K}.
Implicit Types (w : world K).

(** The state of the loop: [pos] bytes of the device have been read and hashed. *)
Definition verify_at (fd : Z) (d : string) (f : flash) (total : Z) (fl : gmap string flash) (st : Z * list Z) w : Prop :=
  exists pos, flash_at (view_of (w_os w)) fd d f pos /\ v_reliable (view_of (w_os w)) = true /\
    v_flash (view_of (w_os w)) = fl /\
    0 <= pos <= f_size f /\ 0 <= fst st /\ fst st + pos = total /\ snd st = slice (f_data f) 0 pos.

Lemma slice_past_end (l : list Z) p n : Z.of_nat (length l) <= p -> slice l p n = [].
Proof. intros. unfold slice. rewrite drop_ge by lia. apply take_nil. Qed.

Lemma slice_extend (l : list Z) p n :
  0 <= p <= Z.of_nat (length l) -> 0 <= n ->
  slice l 0 p ++ slice l p n = slice l 0 (p + Z.of_nat (length (slice l p n))).
Proof.
  intros Hp Hn. unfold slice. change (Z.to_nat 0) with O. rewrite !drop_0, take_take_drop.
  rewrite length_take, length_drop. destruct (Z_le_gt_dec (p + n) (Z.of_nat (length l))).
  - f_equal. lia.
  - by rewrite !take_ge by lia.
Qed.

Lemma verify_step_spec fd d f total fl st w E :
  flash_ok f -> verify_at fd d f total fl st w ->
  xwp (verify_step fd st) E (fun r w' =>
    match r with
    | inl st' => verify_at fd d f total fl st' w' /\ (Z.to_nat (fst st') < Z.to_nat (fst st))%nat
    | inr r => r = Some (slice (f_data f) 0 total) /\ v_flash (view_of (w_os w')) = fl
    end) w.
Proof using L.
  intros Hok (pos & Hat & Hrel & Hfl & Hpos & Hsize & Htot & Hh). destruct st as [size hashed]. cbn [fst snd] in *.
  pose proof (fo_length f Hok) as Hl. unfold verify_step. set (len := if size >? 256 then 256 else size).
  assert (0 <= len <= size /\ (size = 0 \/ 0 < len)) as [Hlen Hlen'].
  { unfold len. destruct (Z.gtb_spec size 256); lia. }
  apply xwp_bind, xwp_sys. intros r k Hread.
  pose proof (law_read_flash fd len _ d f pos r k Hat Hok (proj1 Hlen) Hread) as Hr.
  destruct r as [e|bytes]; [destruct Hr; congruence|]. destruct Hr as [Hb Hv].
  assert (v_flash (view_of k) = fl) as Hfl' by (by rewrite Hv).
  destruct (Z.eqb_spec (Z.of_nat (length bytes)) 0) as [Hz|Hnz].
  - apply xwp_ret. split; [|done]. rewrite Hh. f_equal.
    destruct (Z_lt_le_dec pos (f_size f)) as [Hlt|Hge].
    + destruct Hlen' as [->|Hl0]; [by rewrite <- Htot|]. rewrite Hb in Hz. unfold slice in Hz.
      rewrite length_take, length_drop in Hz. lia.
    + unfold slice. change (Z.to_nat 0) with O. rewrite !drop_0, !take_ge by lia. done.
  - assert (len > 0 /\ pos < f_size f) as [Hl0 Hlt].
    { split.
      - destruct Hlen'; [|lia]. subst size. rewrite Hb in Hnz. unfold slice in Hnz. rewrite length_take in Hnz. lia.
      - destruct (Z_lt_le_dec pos (f_size f)); [done|]. rewrite Hb, slice_past_end in Hnz by lia. done. }
    assert (Z.of_nat (length bytes) <= len /\ pos + Z.of_nat (length bytes) <= f_size f) as [Hbl Hbs].
    { rewrite Hb. unfold slice. rewrite length_take, length_drop. lia. }
    assert (hashed ++ bytes = slice (f_data f) 0 (pos + Z.of_nat (length bytes))) as Hh'.
    { rewrite Hh, Hb. apply slice_extend; lia. }
    assert (verify_at fd d f total fl (size - Z.of_nat (length bytes), hashed ++ bytes) (mk_world (w_tool w) k)) as Hinv.
    { exists (pos + Z.of_nat (length bytes)). cbn [w_os fst snd]. split_and!; try done; try lia.
      - rewrite Hv. by eapply flash_at_set_pos.
      - by rewrite Hv. }
    apply xwp_ret. destruct (Z.gtb_spec (size - Z.of_nat (length bytes)) 0) as [Hmore|Hdone].
    + split; [done|]. cbn [fst]. lia.
    + split; [|done]. rewrite Hh'. do 2 f_equal. lia.
Qed.

Lemma verify_loop_spec fuel fd d f total w E :
  flash_ok f -> flash_at (view_of (w_os w)) fd d f 0 -> v_reliable (view_of (w_os w)) = true -> 0 <= total ->
  (Z.to_nat total < fuel)%nat ->
  xwp (xloop fuel (verify_step fd) (total, [])) E (fun r w' =>
    r = Some (slice (f_data f) 0 total) /\ v_flash (view_of (w_os w')) = v_flash (view_of (w_os w))) w.
Proof using L.
  intros Hok Hat Hrel Ht Hfuel. set (fl := v_flash (view_of (w_os w))).
  apply (xwp_loop (verify_at fd d f total fl) (fun st _ => Z.to_nat (fst st))); [|
    |cbn [fst]; lia].
  - intros st w' Hst. by apply verify_step_spec.
  - pose proof (fo_size f Hok). exists 0. cbn [fst snd]. split_and!; try done; lia.
Qed.
End verify.

(** * The recovery flag *)

(** The flag as the boot loader reads it. *)
Definition recover_flag `{Arch} (f : flash) : Z := cpu_field (f_data f) 0 4.

Section recoverflag.
Context `{A : Arch} `{!ArchLaws A} {K : Type} `{L : OsLaws K}.
Implicit Types (w : world K).

Lemma recover_magic_range active : 0 <= recover_magic active < 2 ^ 32.
Proof. by destruct active. Qed.

Lemma cpu_field_0 buf n len : 0 <= len <= n -> cpu_field (slice buf 0 n) 0 len = cpu_field buf 0 len.
Proof. intros. unfold cpu_field, be_field, le_field. by rewrite slice_slice by lia. Qed.

(** The flag after it has been stored. *)
Lemma recover_flag_stored f active :
  4 <= Z.of_nat (length (f_data f)) ->
  let data := blit (f_data f) 0 (cpu_bytes 4 (recover_magic active)) in
  recover_flag (set_data data f) = recover_magic active /\ same_outside (f_data f) data 0 4.
Proof using.
  intros Hl data. assert (length (cpu_bytes 4 (recover_magic active)) = 4%nat) as H4 by apply length_cpu_bytes. split.
  - unfold recover_flag. rewrite (cpu_field_bytes _ 0 4 (recover_magic active) 4); [|apply slice_blit_len; lia|done].
    apply Z.mod_small. apply recover_magic_range.
  - pose proof (blit_outside (f_data f) 0 (cpu_bytes 4 (recover_magic active))) as Ho. rewrite H4 in Ho. apply Ho. lia.
Qed.

Lemma slice_blit_prefix (b : list Z) src n :
  Z.of_nat (length src) <= n -> n <= Z.of_nat (length b) -> slice (blit b 0 src) 0 n = blit (slice b 0 n) 0 src.
Proof.
  intros Hs Hn. unfold blit, slice. change (Z.to_nat 0) with O. rewrite !take_0, !drop_0. cbn [app Nat.add].
  rewrite take_app_ge by lia. f_equal. by rewrite skipn_firstn_comm.
Qed.

(** Erasing the first block and writing it back with the flag changed. *)
Lemma set_flag_spec fd d f active args w E :
  device_at fd d f true w -> 4 <= f_eb f -> f_eb f <= Z.of_nat (length args) ->
  slice args 0 (f_eb f) = slice (f_data f) 0 (f_eb f) ->
  xwp (let! ret := sys (mem_erase fd 0 (f_eb f)) in
       if ret <? 0 then do! sys_ (sys_close fd) in xret ret
       else
         let! args := store args 0 (cpu_bytes 4 (recover_magic active)) in
         let! bytes := load args 0 (f_eb f) in
         let! ret := sys (sys_pwrite fd bytes 0) in
         do! sys_ sys_sync in
         do! sys_ (sys_close fd) in
         xret (i32 ret)) E
    (fun r w' => 0 <= r /\ v_flash (view_of (w_os w')) !! d =
       Some (set_data (blit (f_data f) 0 (cpu_bytes 4 (recover_magic active))) f)) w.
Proof using L.
  intros Hd Heb Hl Hargs. pose proof (da_ok _ _ _ _ _ Hd) as Hok. pose proof (fo_length f Hok).
  pose proof (eb_le_size f Hok). pose proof (fo_small f Hok).
  assert (length (cpu_bytes 4 (recover_magic active)) = 4%nat) as H4 by apply length_cpu_bytes.
  set (mb := cpu_bytes 4 (recover_magic active)) in *.
  apply xwp_bind. eapply mem_erase_spec; [exact Hd|lia|lia|apply Z.divide_0_r|apply Z.divide_refl|lia|].
  intros r w1 Hr Hd1 _. destruct (Z.ltb_spec r 0); [lia|].
  apply xwp_bind, xwp_store; [lia|lia|]. apply xwp_bind, xwp_load; [lia|lia|rewrite length_blit; lia|].
  rewrite slice_blit_prefix, Hargs by lia.
  assert (Z.of_nat (length (slice (f_data f) 0 (f_eb f))) = f_eb f) as Hsl by (apply length_slice; lia).
  assert (Z.of_nat (length (blit (slice (f_data f) 0 (f_eb f)) 0 mb)) = f_eb f) as Hbl by (rewrite length_blit; lia).
  apply xwp_bind. eapply pwrite_erased_spec; [exact Hd1| |lia|change (f_size (set_data _ f)) with (f_size f); lia| |].
  - apply blit_bytes; [apply slice_bytes, Hok|apply cpu_bytes_range].
  - rewrite Hbl. cbn [set_data f_data]. apply slice_blit_ff; lia.
  - intros w2 Hd2 _. cbn [set_data f_data] in Hd2.
    assert (length (replicate (Z.to_nat (f_eb f)) 0xff) = Z.to_nat (f_eb f)) as Hrl by apply length_replicate.
    rewrite blit_blit in Hd2 by lia. rewrite blit_in_slice in Hd2 by lia.
    do 5 tool_step. rewrite Hbl, i32_small by lia. split; [lia|]. cbn [w_os].
    rewrite law_close, law_sync. destruct (da_at _ _ _ _ _ Hd2) as [p [_ Hf]]. exact Hf.
Qed.
End recoverflag.
