(* ===== verification/ToolKeepSpec.v ===== *)
(** Programs that change no flash device: the checks before anything is written, and the
    commands that only read. *)

From stdpp Require Import base list numbers strings gmap.
From Stdlib Require Import ZArith Lia Ascii.
From S2P Require Import Prelude Platform ToolOs ToolCrc ToolFix ToolTag ToolFlags ToolJffs2 ToolMtd ToolOsSpec.
Local Open Scope Z_scope.
Local Open Scope cprog_scope.

Create HintDb keeps.

(** However a run of [m] ends, by returning or by an exit, every device is as it was. *)
Definition keeps_flash {K A} `{OsView K} (m : X K A) : Prop :=
  forall w r w', m w = Ret r w' -> v_flash (view_of (w_os w')) = v_flash (view_of (w_os w)).

(** A run of a sequence: the first part exits, or the second part runs after it. *)
Lemma xbind_run {K A B} (m : X K A) (k : A -> X K B) w r w' :
  xbind m k w = Ret r w' ->
  (exists c, m w = Ret (inl c) w' /\ r = inl c) \/ (exists a w1, m w = Ret (inr a) w1 /\ k a w1 = Ret r w').
Proof.
  unfold xbind, bind. destruct (m w) as [[c|a] w1| |]; intros E; try done; [left|right; by eauto].
  injection E as <- <-. eauto.
Qed.

Section rules.
Context `{A : Arch} `{!ArchLaws A} {K : Type} `{L : OsLaws K}.

Lemma keeps_ret {B} (a : B) : keeps_flash (K := K) (xret a).
Proof. intros w r w' E. by injection E as <- <-. Qed.

Lemma keeps_exit {B} c : keeps_flash (K := K) (A := B) (exit c).
Proof. intros w r w' E. by injection E as <- <-. Qed.

Lemma keeps_fault {B} : keeps_flash (K := K) (A := B) xfault.
Proof. done. Qed.

Lemma keeps_get {B} (f : tool -> B) : keeps_flash (K := K) (get f).
Proof. intros w r w' E. by injection E as <- <-. Qed.

Lemma keeps_put f : keeps_flash (K := K) (put f).
Proof. intros w r w' E. by injection E as <- <-. Qed.

Lemma keeps_bind {B C} (m : X K B) (k : B -> X K C) :
  keeps_flash m -> (forall a, keeps_flash (k a)) -> keeps_flash (xbind m k).
Proof.
  intros Hm Hk w r w' [(c & E & _)|(a & w1 & E & E')]%xbind_run; [by eapply Hm|].
  etransitivity; [by eapply Hk|by eapply Hm].
Qed.

Lemma keeps_sys {B} (f : K -> B * K) :
  (forall k r k', f k = (r, k') -> v_flash (view_of k') = v_flash (view_of k)) -> keeps_flash (sys f).
Proof. intros Hf w r w'. unfold sys. destruct (f (w_os w)) as [a k] eqn:E. intros E'. injection E' as <- <-. by eapply Hf. Qed.

Lemma keeps_store b off src : keeps_flash (K := K) (store b off src).
Proof. unfold store. destruct (in_bounds _ _ _); [apply keeps_ret|apply keeps_fault]. Qed.

Lemma keeps_load b off len : keeps_flash (K := K) (load b off len).
Proof. unfold load. destruct (in_bounds _ _ _); [apply keeps_ret|apply keeps_fault]. Qed.

Lemma keeps_deref {B} (p : option B) : keeps_flash (K := K) (deref p).
Proof. destruct p; [apply keeps_ret|apply keeps_fault]. Qed.

Lemma keeps_loop {R S} fuel (body : R -> X K (R + S)) l :
  (forall l, keeps_flash (body l)) -> keeps_flash (xloop fuel body l).
Proof.
  intros Hb. revert l. induction fuel as [|fuel IH]; intros l w r w'; [done|].
  unfold xloop in *. cbn [loop]. unfold bind at 1 2. destruct (body l w) as [[c|[l'|s]] w1| |] eqn:E; try done; cbn.
  - intros E'. injection E' as <- <-. by eapply Hb.
  - intros E'. etransitivity; [by eapply IH|by eapply Hb].
  - intros E'. injection E' as <- <-. by eapply Hb.
Qed.

(** A computation on values leaves the state as it is. *)
Lemma keeps_pure {B} (m : M (world K) B) : within eq m -> keeps_flash (pure m).
Proof.
  intros Hm w r w'. unfold pure, bind. destruct (m w) as [a w1| |] eqn:E; try done.
  intros E'. injection E' as <- <-. by rewrite <- (Hm _ _ _ E).
Qed.

Lemma within_crc32 {S} val l n : within (S := S) eq (crc32 val l n).
Proof.
  unfold crc32. generalize (Z.to_nat (i32 n)). intros k. revert val l.
  induction k as [|k IH]; intros val [|b l]; cbn [crc32_loop]; unfold crc32_round; within.
Qed.

Lemma keeps_crc32 val l n : keeps_flash (K := K) (pure (crc32 val l n)).
Proof. apply keeps_pure, within_crc32. Qed.

Lemma keeps_open path rw : keeps_flash (sys (sys_open path rw)).
Proof using L. apply keeps_sys. intros k r k' E. destruct (law_open _ _ _ _ _ E) as [[_ ->]|(_ & _ & h & -> & _)]; done. Qed.

Lemma keeps_close fd : keeps_flash (sys_ (sys_close fd)).
Proof using L. apply keeps_sys. intros k r k' E. injection E as <- <-. by rewrite law_close. Qed.

Lemma keeps_sync : keeps_flash (sys_ sys_sync).
Proof using L. apply keeps_sys. intros k r k' E. injection E as <- <-. by rewrite law_sync. Qed.

Lemma keeps_reboot : keeps_flash (sys_ sys_reboot).
Proof using L. apply keeps_sys. intros k r k' E. injection E as <- <-. apply law_reboot. Qed.

Lemma keeps_proc_mtd : keeps_flash (sys (fun k => (proc_mtd k, k))).
Proof. apply keeps_sys. intros k r k' E. by injection E as <- <-. Qed.

Lemma keeps_getinfo fd : keeps_flash (sys (mem_getinfo fd)).
Proof using L. apply keeps_sys. intros k r k' E. by destruct (law_getinfo _ _ _ _ E) as [-> _]. Qed.

Lemma keeps_read fd n : keeps_flash (sys (sys_read fd n)).
Proof using L. apply keeps_sys. intros. by eapply law_read. Qed.

Lemma keeps_unlock fd s l : keeps_flash (sys (mem_unlock fd s l)).
Proof using L. apply keeps_sys. intros k r k' E. by rewrite (law_unlock _ _ _ _ _ _ E). Qed.

Lemma keeps_malloc n : keeps_flash (sys (sys_malloc (size_t n))).
Proof using L ArchLaws0. apply keeps_sys. intros k r k' E. by destruct (law_malloc _ _ _ _ (size_t_range _) E) as [-> _]. Qed.

Lemma keeps_stat path : keeps_flash (sys (sys_stat path)).
Proof using L. apply keeps_sys. intros k r k' E. by rewrite (law_stat _ _ _ _ E). Qed.

Lemma keeps_md5sum path : keeps_flash (sys (md5sum_file path)).
Proof using L. apply keeps_sys. intros k r k' E. by rewrite (law_md5sum _ _ _ _ E). Qed.
End rules.

#[export] Hint Resolve keeps_crc32 keeps_ret keeps_exit keeps_fault keeps_get keeps_put keeps_store keeps_load keeps_deref : keeps.
#[export] Hint Resolve keeps_open keeps_close keeps_sync keeps_proc_mtd keeps_getinfo keeps_read keeps_unlock : keeps.
#[export] Hint Resolve keeps_malloc keeps_stat keeps_md5sum keeps_reboot : keeps.

(** Follows the control flow of a program; the calls are in the database. *)
Ltac keeps :=
  repeat first
    [ solve [eauto 3 with keeps typeclass_instances]
    | match goal with
      | |- keeps_flash (xbind _ _) => apply keeps_bind
      | |- keeps_flash (xloop _ _ _) => apply keeps_loop
      | |- keeps_flash (if ?b then _ else _) => destruct b
      | |- keeps_flash (match ?x with _ => _ end) => destruct x
      | |- keeps_flash (let '_ := ?x in _) => destruct x
      | |- forall _, _ => intros ?
      end ].

Section checks.
Context `{A : Arch} `{!ArchLaws A} {K : Type} `{L : OsLaws K} (tg : target).

Lemma mtd_open_keeps mtd block : keeps_flash (mtd_open mtd block).
Proof using L. unfold mtd_open. keeps. Qed.
Hint Resolve mtd_open_keeps : keeps.

Lemma mtd_check_open_keeps mtd : keeps_flash (mtd_check_open mtd).
Proof using L. unfold mtd_check_open. keeps. Qed.
Hint Resolve mtd_check_open_keeps : keeps.

Lemma mtd_unlock_keeps mtd : keeps_flash (mtd_unlock mtd).
Proof using L. unfold mtd_unlock. generalize (devices mtd). intros names. induction names; cbn [unlock_devices]; unfold get_mtdsize; keeps. Qed.

Lemma mtd_check_keeps mtd : keeps_flash (mtd_check mtd).
Proof using L ArchLaws0.
  unfold mtd_check. generalize (devices mtd). intros names.
  induction names; cbn [check_devices]; unfold iget, iput, get_erasesize; keeps.
Qed.

Lemma trx_check_keeps o imagefd mtd : keeps_flash (linked_trx_check o imagefd mtd).
Proof using L ArchLaws0.
  destruct o; cbn [linked_trx_check].
  - unfold ToolFix.trx_check, get_trxmagic, get_mtdsize. keeps.
  - unfold trx_check, strntoul, get_mtdsize, crc32buf. keeps.
Qed.
Hint Resolve trx_check_keeps : keeps.

Lemma image_check_keeps imagefd mtd : keeps_flash (image_check tg imagefd mtd).
Proof using L ArchLaws0. unfold image_check, read_magic_step, iget, oget, iput. keeps. Qed.

Lemma mtd_verify_keeps fuel mtd file : keeps_flash (mtd_verify fuel mtd file).
Proof using L. unfold mtd_verify, verify_step. keeps. Qed.

Lemma main_options_keeps a opts : keeps_flash (K := K) (main_options a opts).
Proof. 
  revert a. induction opts as [|[ch arg] opts IH]; intros a; cbn [main_options]; [keeps|].
  apply keeps_bind; [|done]. destruct a. unfold main_option, number, usage. keeps.
Qed.

Hint Resolve mtd_unlock_keeps mtd_check_keeps image_check_keeps mtd_verify_keeps main_options_keeps : keeps.

Lemma main_command_keeps force argv : keeps_flash (main_command tg force argv).
Proof using L ArchLaws0. unfold main_command, usage. keeps. Qed.

(** The commands that only read. *)
Lemma run_reading_keeps fuel a cmd device unlocked :
  match cmd with CMD_VERIFY _ | CMD_UNLOCK => True | _ => False end ->
  keeps_flash (run_command tg fuel a cmd device unlocked).
Proof using L. intros Hc. destruct cmd; try done; cbn [run_command]; keeps. Qed.

(** Only the option [-e] adds a device to erase. *)
Lemma main_option_erase a ch arg w a' w' :
  ch <> "e"%char -> main_option (K := K) a ch arg w = Ret (inr a') w' -> a_erase a' = a_erase a.
Proof.
  intros Hch. destruct a. unfold main_option, number, usage.
  repeat match goal with
    | |- context [Ascii.eqb ch ?c] => destruct (Ascii.eqb_spec ch c) as [->|]
    | |- context [strtoul ?s] => destruct (strtoul s) as [? []]
    end; intros E; try done; by injection E as <- <-.
Qed.

Lemma main_options_erase opts a w a' w' :
  Forall (fun o => fst o <> "e"%char) opts -> main_options (K := K) a opts w = Ret (inr a') w' -> a_erase a' = a_erase a.
Proof.
  intros Ho. revert a w. induction Ho as [|[ch arg] opts Hch Ho IH]; intros a w; cbn [main_options].
  - intros E. by injection E as <- <-.
  - intros [(c & _ & E)|(a1 & w1 & E1 & E2)]%xbind_run; [done|].
    rewrite (IH _ _ E2). by eapply main_option_erase.
Qed.
End checks.
