(* ===== verification/ToolTagSpec.v ===== *)
(** Repairing an image tag: the tag covers the kernel only afterwards, and its checksum is
    right. *)

From stdpp Require Import base list numbers strings gmap.
From Stdlib Require Import ZArith Lia.
From S2P Require Import Prelude Platform Bytes CStrings ToolOs ToolCrc ToolFix ToolOsSpec ToolWriteSpec ToolFixSpec ToolTrxSpec ToolTag.
Local Open Scope Z_scope.
Local Open Scope cprog_scope.

Section reference.
Context `{Arch}.

(** The decimal number in a field of a tag, and the checksum a tag should have. *)
Definition tag_number (t : list Z) (o : Z) : Z := u32 (strtoul10 (until_zero (slice t o IMAGE_LEN))).
Definition tag_crc (t : list Z) : Z := foldl crc_byte CRC_START (slice t 0 tag_header_crc).
Definition tag_valid (t : list Z) : Prop :=
  tag_number t tag_cfe_length = 0 /\ cpu_field t tag_header_crc 4 = tag_crc t.

(** [t'] is [t] without a root file system. *)
Record tag_shrunk (t t' : list Z) : Prop := {
  ts_length : length t' = length t;
  ts_bytes : Forall is_byte t';
  ts_crc : cpu_field t' tag_header_crc 4 = tag_crc t';
  ts_root : tag_number t' tag_root_length = 0;
  ts_total : tag_number t' tag_total_length = tag_number t tag_kernel_length;
  ts_image : slice t' tag_image_crc 4 = slice t tag_kernel_crc 4;
  ts_fskernel : slice t' tag_fskernel_crc 4 = slice t tag_kernel_crc 4;
  ts_rootfs : cpu_field t' tag_rootfs_crc 4 = CRC_START;
  ts_other o l : 0 <= o -> 0 <= l ->
    o + l <= 62 \/ (72 <= o /\ o + l <= 106) \/ (108 <= o /\ o + l <= 196) \/
    (200 <= o /\ o + l <= 216) \/ (224 <= o /\ o + l <= 236) \/ 240 <= o ->
    slice t' o l = slice t o l
}.
End reference.

Lemma until_zero_le l : (length (until_zero l) <= length l)%nat.
Proof. induction l as [|b l IH]; [done|]. cbn. destruct (b =? 0); cbn; lia. Qed.

Lemma until_zero_app_zeros s n : 0 ∉ s -> until_zero (s ++ replicate n 0) = s.
Proof.
  intros Hs. induction s as [|b s IH]; cbn; [by destruct n|].
  rewrite not_elem_of_cons in Hs. destruct Hs as [Hb Hs]. destruct (Z.eqb_spec b 0); [congruence|].
  by rewrite IH.
Qed.

Lemma until_zero_no_zero l : 0 ∉ until_zero l.
Proof.
  induction l as [|b l IH]; cbn; [apply not_elem_of_nil|]. destruct (Z.eqb_spec b 0); [apply not_elem_of_nil|].
  rewrite not_elem_of_cons. split; congruence.
Qed.

Lemma until_zero_strncpy n l : (length l <= n)%nat -> until_zero (strncpy_bytes n l) = until_zero l.
Proof.
  intros Hl. unfold strncpy_bytes. pose proof (until_zero_le l). rewrite take_ge by lia.
  apply until_zero_app_zeros, until_zero_no_zero.
Qed.

Lemma length_strncpy n l : length (strncpy_bytes n l) = n.
Proof. unfold strncpy_bytes. rewrite length_app, length_replicate, length_take. lia. Qed.

Lemma strncpy_bytes_range n l : Forall is_byte l -> Forall is_byte (strncpy_bytes n l).
Proof.
  intros Hl. apply Forall_app_2; [|by apply Forall_replicate].
  apply Forall_take. induction Hl as [|b l Hb _ IH]; cbn; [constructor|].
  destruct (b =? 0); by constructor.
Qed.

Section tag.
Context `{A : Arch} `{!ArchLaws A} {K : Type} `{L : OsLaws K}.
Implicit Types (w : world K).

(** Writing a field of a tag. *)
Lemma put_field (t src : list Z) o n :
  length t = 240%nat -> Forall is_byte t -> Z.of_nat (length src) = n -> Forall is_byte src -> 0 <= o -> o + n <= 240 ->
  exists t', t' = blit t o src /\ length t' = 240%nat /\ Forall is_byte t' /\ slice t' o n = src /\
    forall a l, 0 <= a -> 0 <= l -> a + l <= o \/ o + n <= a -> slice t' a l = slice t a l.
Proof.
  intros Hl Hb Hn Hs Ho Hin. exists (blit t o src). split_and!; [done| | | |].
  - rewrite length_blit by lia. done.
  - by apply blit_bytes.
  - rewrite <- Hn. apply slice_blit_eq; lia.
  - intros a l Ha Hl0 [Hc|Hc]; [apply slice_blit_before|apply slice_blit_after]; lia.
Qed.

Lemma length_field (t : list Z) o n : length t = 240%nat -> 0 <= o -> 0 <= n -> o + n <= 240 -> Z.of_nat (length (slice t o n)) = n.
Proof. intros. apply length_slice; lia. Qed.

Lemma field_short (t : list Z) o : Z.of_nat (length (slice t o IMAGE_LEN)) < 2 ^ 30.
Proof. unfold IMAGE_LEN. pose proof (length_slice_le t o 10). lia. Qed.

Lemma tag_number_0 : u32 (strtoul10 (until_zero [48])) = 0.
Proof using ArchLaws0.
  pose proof (long_bits_32 : 32 <= long_bits). change (strtoul10 _) with (Z.min 0 (2 ^ long_bits - 1)).
  rewrite Z.min_l; [done|]. assert (2 ^ 32 <= 2 ^ long_bits) by (apply Z.pow_le_mono_r; lia). lia.
Qed.

Lemma shrink_spec t w E (Q : list Z -> world K -> Prop) :
  length t = 240%nat -> Forall is_byte t -> (forall t', tag_shrunk t t' -> Q t' w) -> xwp (shrink_tag t) E Q w.
Proof using ArchLaws0.
  intros Hl Hb HQ. unfold shrink_tag, tag_kernel_length, tag_kernel_crc, tag_header_crc, IMAGE_LEN.
  destruct (put_field t [48; 0] tag_root_length 2) as (t1 & <- & L1 & B1 & F1 & K1); [done..| |done|done|].
  { repeat constructor; discriminate. }
  destruct (put_field t1 (strncpy_bytes 10 (slice t1 128 10)) tag_total_length 10)
    as (t2 & <- & L2 & B2 & F2 & K2); [done|done| | |done|done|].
  { by rewrite length_strncpy. } { by apply strncpy_bytes_range, slice_bytes. }
  destruct (put_field t2 (slice t2 224 4) tag_image_crc 4) as (t3 & <- & L3 & B3 & F3 & K3);
    [done|done|by apply length_field|by apply slice_bytes|done|done|].
  destruct (put_field t3 (slice t3 224 4) tag_fskernel_crc 4) as (t4 & <- & L4 & B4 & F4 & K4);
    [done|done|by apply length_field|by apply slice_bytes|done|done|].
  destruct (put_field t4 (cpu_bytes 4 CRC_START) tag_rootfs_crc 4) as (t5 & <- & L5 & B5 & F5 & K5);
    [done|done|by rewrite length_cpu_bytes|by apply cpu_bytes_range|done|done|].
  apply xwp_bind. eapply wp_intro; [unfold pure, bind; rewrite crc32_spec by (done || lia); reflexivity|].
  cbn beta iota. apply xwp_ret. set (crc := foldl crc_byte CRC_START (slice t5 0 236)).
  assert (0 <= crc < 2 ^ 32) as Hcrc by (by apply crc_bytes_range).
  destruct (put_field t5 (cpu_bytes 4 crc) 236 4) as (t6 & <- & L6 & B6 & F6 & K6);
    [done|done|by rewrite length_cpu_bytes|by apply cpu_bytes_range|done|done|].
  unfold tag_root_length, tag_total_length, tag_image_crc, tag_fskernel_crc, tag_rootfs_crc in *.
  apply HQ. split; try done; unfold tag_crc, tag_number, IMAGE_LEN, tag_header_crc, tag_root_length, tag_total_length,
    tag_kernel_length, tag_image_crc, tag_kernel_crc, tag_fskernel_crc, tag_rootfs_crc.
  - congruence.
  - rewrite K6 by lia. rewrite (cpu_field_bytes t6 236 4 crc 4) by done. by apply Z.mod_small.
  - rewrite K6, K5, K4, K3, K2 by lia.
    replace (slice t1 106 10) with ([48; 0] ++ slice t1 108 8); [exact tag_number_0|].
    rewrite <- F1. unfold slice. change (Z.to_nat 10) with (2 + 8)%nat.
    rewrite <- take_take_drop, drop_drop. done.
  - rewrite K6, K5, K4, K3, F2 by lia. rewrite until_zero_strncpy, K1 by (rewrite ?K1 by lia; pose proof (length_slice_le t 128 10); lia). done.
  - rewrite K6, K5, K4, F3, K2, K1 by lia. done.
  - rewrite K6, K5, F4, K3, K2, K1 by lia. done.
  - rewrite (cpu_field_bytes t6 220 4 CRC_START 4); [done| |done]. by rewrite K6, F5 by lia.
  - intros o l Ho Hl0 Hc. rewrite K6, K5, K4, K3, K2, K1 by lia. done.
Qed.

(** * The steps of [mtd_fixtrx] on working hardware *)

Lemma strntoul_spec fd d f field w E (Q : Z -> world K -> Prop) :
  device_at fd d f true w -> Z.of_nat (length field) < 2 ^ 30 ->
  (forall w', device_at fd d f true w' -> w_tool w' = w_tool w -> Q (u32 (strtoul10 (until_zero field))) w') ->
  xwp (strntoul field) E Q w.
Proof using L ArchLaws0.
  intros Hd Hlen HQ. unfold strntoul. rewrite size_t_small by lia. apply xwp_bind, malloc_spec; [lia| |].
  - intros k b Hv _ _. apply xwp_ret, HQ; [by eapply device_at_view|done].
  - intros k Hv Hbig. pose proof (Hbig (da_rel _ _ _ _ _ Hd)). lia.
Qed.

(** The checksum of less than a read buffer. *)
Lemma compute_crc32_spec fuel fd d f o n w E (Q : Z -> world K -> Prop) :
  device_at fd d f true w -> fd <> 0 -> (0 < fuel)%nat -> 0 <= o -> 0 < n < 1024 -> o + n <= f_size f ->
  (forall w', device_at fd d f true w' -> w_tool w' = w_tool w ->
     Q (foldl crc_byte CRC_START (slice (f_data f) o n)) w') ->
  xwp (compute_crc32 fuel CRC_START o n fd) E Q w.
Proof using L.
  intros Hd Hfd Hfuel Ho Hn Hin HQ. unfold compute_crc32. apply xwp_bind. destruct fuel as [|fuel]; [lia|].
  unfold xloop. cbn [loop]. unfold crc_step at 1. destruct (Z.eqb_spec fd 0); [done|]. cbn [negb andb].
  destruct (Z.leb_spec 1024 n); [lia|]. apply wp_bind. apply wp_bind. apply wp_ret. apply wp_ret. apply wp_ret.
  destruct (Z.ltb_spec 0 n); [|lia]. cbn [andb]. apply xwp_bind.
  unfold pread_crc. pose proof Hd as [_ [p Hat] Hok Hrel]. pose proof (fo_length f Hok).
  apply xwp_bind, xwp_sys. intros r k Hr.
  destruct (law_pread fd n o _ d f p r k Hat Hok ltac:(lia) Ho Hr) as [Hv Hres].
  destruct r as [e|bytes]; [specialize (Hres Hrel); lia|]. subst bytes.
  assert (Z.of_nat (length (slice (f_data f) o n)) = n) as Hl by (apply length_slice; lia). rewrite Hl.
  apply xwp_bind. eapply wp_intro.
  { unfold pure, bind. rewrite crc32_spec; [reflexivity|done|apply slice_bytes, Hok|lia|lia]. }
  cbn beta iota. do 2 apply xwp_ret. rewrite slice_slice, Z.add_0_r by lia.
  apply HQ; [by eapply device_at_view|done].
Qed.

(** What [mtd_fixtrx] does with the tag at [o] of the first block. *)
Definition tag_outcome (d : string) (f : flash) (o : Z) w : Prop :=
  let t := slice (f_data f) o tag_used in
  if tag_number t tag_root_length =? 0 then v_flash (view_of (w_os w)) !! d = Some f
  else exists t', tag_shrunk t t' /\ v_flash (view_of (w_os w)) !! d = Some (set_data (blit (f_data f) o t') f).

(** The repair, once the tag has been checked. *)
Lemma fix_tag_finish fd d f o w (E : Z -> world K -> Prop) :
  device_at fd d f true w -> 0 <= o -> o + tag_used <= f_eb f ->
  let t := slice (f_data f) o tag_used in
  xwp (let! rootfslen := strntoul (slice t tag_root_length IMAGE_LEN) in
       if rootfslen =? 0 then do! sys_ (sys_close fd) in xret 0
       else
         let! tag := shrink_tag t in
         do! rewrite_block fd (blit (slice (f_data f) 0 (f_eb f)) o tag) 0 in
         do! sys_ (sys_close fd) in
         do! sys_ sys_sync in
         xret 0) E (fun r w' => r = 0 /\ tag_outcome d f o w') w.
Proof using L ArchLaws0.
  intros Hd Ho Hin t. pose proof (da_ok _ _ _ _ _ Hd) as Hok. pose proof (eb_le_size f Hok).
  pose proof (fo_length f Hok). pose proof (fo_eb f Hok). assert (tag_used = 240) as Hu by done.
  assert (length t = 240%nat) as Hl by (apply Nat2Z.inj; unfold t; rewrite length_slice; lia).
  assert (Forall is_byte t) as Hb by (apply slice_bytes, Hok).
  apply xwp_bind. eapply (strntoul_spec fd d f); [exact Hd|apply field_short|].
  clear Hd. intros w2 Hd _. unfold tag_outcome. cbv zeta. fold t.
  change (u32 _) with (tag_number t tag_root_length). destruct (Z.eqb_spec (tag_number t tag_root_length) 0).
  - do 2 xwp_step. apply xwp_ret. cbn [w_os]. rewrite law_close.
    split; [done|]. by destruct (da_at _ _ _ _ _ Hd) as [p [_ Hf]].
  - apply xwp_bind, shrink_spec; [done|done|]. intros t' Ht. pose proof (ts_length _ _ Ht).
    assert (Z.of_nat (length (slice (f_data f) 0 (f_eb f))) = f_eb f) as Hsl by (apply length_slice; lia).
    apply xwp_bind. eapply rewrite_block_spec; [exact Hd| | |lia|apply Z.divide_0_r|lia|by intros ? []|].
    + rewrite length_blit; lia.
    + apply blit_bytes; [apply slice_bytes, Hok|apply Ht].
    + intros w' Hd' _. apply close_sync_spec. intros w3 Hv. split; [done|]. exists t'. split; [done|].
      rewrite Hv. destruct (da_at _ _ _ _ _ Hd') as [p [_ Hf]]. rewrite blit_in_slice in Hf by lia. exact Hf.
Qed.

(** C38: [mtd_fixtrx] for image tags on working hardware, called by a process that has not
    looked at another device: without a tag whose checksum is right and whose boot loader
    length is zero it exits with 1 and changes nothing; with a tag that has no root file
    system it returns 0 and changes nothing; otherwise it returns 0 and the tag on the device
    covers the kernel only: root length zero, total length that of the kernel, image
    checksums that of the kernel, a right checksum of its own, every other byte of the device
    as before. *)
Theorem fixtag_repairs fuel mtd o data_size (w w1 : world K) fd d f :
  mtd_check_open mtd w = Ret (inr fd) w1 -> 0 < fd -> device_at fd d f true w1 ->
  erasesize (t_dev (w_tool w)) = 0 -> 0 <= o < 2 ^ 31 -> o + tag_used <= f_eb f -> (0 < fuel)%nat ->
  xwp (mtd_fixtrx fuel mtd o data_size)
    (fun c w' => c = 1 /\ ~ tag_valid (slice (f_data f) o tag_used) /\ v_flash (view_of (w_os w')) !! d = Some f)
    (fun r w' => r = 0 /\ tag_valid (slice (f_data f) o tag_used) /\ tag_outcome d f o w') w.
Proof using L ArchLaws0.
  intros Hopen Hfd Hd Heb0 Ho Hin Hfuel. set (t := slice (f_data f) o tag_used).
  pose proof (da_ok _ _ _ _ _ Hd) as Hok. pose proof (eb_le_size f Hok).
  pose proof (fo_length f Hok). pose proof (fo_eb f Hok). pose proof (fo_small f Hok). assert (tag_used = 240) as Hu by done.
  assert (forall w', device_at fd d f true w' -> v_flash (view_of (w_os w')) !! d = Some f) as Hsame.
  { intros w' Hd'. by destruct (da_at _ _ _ _ _ Hd') as [p [_ Hf]]. }
  unfold mtd_fixtrx. apply xwp_bind, xwp_get. rewrite Heb0.
  assert (block_start o 0 = 0) as -> by (unfold block_start; change (Z.lnot (0 - 1)) with 0; rewrite (size_t_small 0) by lia; apply Z.land_0_r).
  rewrite Z.sub_0_r, size_t_small by lia.
  apply xwp_bind. eapply wp_intro; [exact Hopen|]. cbn beta iota. destruct (Z.ltb_spec fd 0); [lia|].
  apply xwp_bind. eapply erasesize_spec; [exact Hd|]. apply xwp_bind. eapply mtdsize_spec; [exact Hd|].
  rewrite !size_t_small by lia. destruct (Z.gtb_spec (0 + f_eb f) (f_size f)); [lia|].
  apply xwp_bind. eapply read_first_block_spec; [exact Hd|lia|lia|]. clear Hd. intros w2 Hd _. split; [done|].
  assert (Z.of_nat (length (slice (f_data f) 0 (f_eb f))) = f_eb f) as Hbl by (apply length_slice; lia).
  apply xwp_bind, xwp_load; [lia|lia|lia|].
  rewrite (slice_slice (f_data f) 0 (f_eb f) o tag_used), (Z.add_0_l o) by lia. fold t.
  apply xwp_bind. eapply (strntoul_spec fd d f); [exact Hd|apply field_short|].
  clear Hd. intros w3 Hd _. change (u32 _) with (tag_number t tag_cfe_length).
  destruct (Z.eqb_spec (tag_number t tag_cfe_length) 0) as [Hcfe|Hcfe]; cbn [negb].
  2: { apply xwp_exit. split_and!; [done| |by apply Hsame]. by intros [Hv _]. }
  apply xwp_bind. unfold tag_header_crc at 1.
  eapply (compute_crc32_spec fuel fd d f o 236); [exact Hd|lia|done|lia|lia|lia|].
  clear Hd. intros w4 Hd _.
  assert (foldl crc_byte CRC_START (slice (f_data f) o 236) = tag_crc t) as ->.
  { unfold tag_crc, t, tag_used, tag_header_crc. by rewrite slice_slice, Z.add_0_r by lia. }
  destruct (Z.eqb_spec (tag_crc t) (cpu_field t tag_header_crc 4)) as [Hcrc|Hcrc]; cbn [negb].
  2: { apply xwp_exit. split_and!; [done| |by apply Hsame]. by intros [_ Hv]. }
  eapply xwp_call; [eapply (fix_tag_finish fd d f o); [exact Hd|lia|exact Hin]|].
  intros r w' [-> Hout]. split_and!; [done|split; done|done].
Qed.
End tag.
