(* ===== verification/ToolFisSpec.v ===== *)
(** The FIS directory after an update: the new entries take the place of the old ones and
    divide their flash area. *)

From stdpp Require Import base list numbers strings.
From Stdlib Require Import ZArith Lia.
From S2P Require Import Prelude Platform Bytes CStrings ToolOs ToolFix ToolFis.
Local Open Scope Z_scope.
Local Open Scope cprog_scope.

Section spec.
Context `{A : Arch} `{!ArchLaws A} {K : Type} `{OS : Os K}.
Implicit Types (w : world K) (new old : list fis_part).

Definition part_ok (p : fis_part) : Prop :=
  length (fp_name p) = 16%nat /\ 0 <= fp_size p < 2 ^ 32 /\ 0 <= fp_length p < 2 ^ 32 /\
  0 <= fp_loadaddr p < 2 ^ 32 /\ 0 <= fp_crc p < 2 ^ 32.

Lemma length_entry p o s : part_ok p -> length (fis_entry p o s) = 256%nat.
Proof.
  intros (Hn & _). unfold fis_entry. rewrite !length_app, !length_cpu_bytes, length_replicate, length_take, Hn. done.
Qed.

Lemma length_entries new o s :
  Forall part_ok new -> Z.of_nat (length (fis_entries new o s)) = sizeof_fis_image_desc * Z.of_nat (length new).
Proof.
  intros Hn. revert o s. induction Hn as [|p new Hp _ IH]; intros o s; [done|].
  cbn [fis_entries length]. rewrite length_app, length_entry by done. unfold sizeof_fis_image_desc in *.
  rewrite Nat2Z.inj_add, IH. lia.
Qed.

(** The fields of a new entry. *)
Lemma entry_fields p o s rest :
  part_ok p -> 0 <= o < 2 ^ 32 -> 0 <= s < 2 ^ 32 ->
  let e := fis_entry p o s ++ rest in
  let n := if 0 <? fp_size p then fp_size p else s in
  take 16 e = fp_name p /\ cpu_field e 16 4 = o /\ cpu_field e 20 4 = fp_loadaddr p /\ cpu_field e 24 4 = n /\
  cpu_field e 28 4 = fp_loadaddr p /\ cpu_field e 32 4 = (if 0 <? fp_length p then fp_length p else n) /\
  cpu_field e 248 4 = 0 /\ cpu_field e 252 4 = fp_crc p.
Proof.
  intros (Hn & Hsz & Hln & Hla & Hcrc) Ho Hs e n. unfold fis_name_len in *.
  assert (0 <= n < 2 ^ 32) as Hn' by (unfold n; destruct (0 <? fp_size p); lia).
  set (l := if 0 <? fp_length p then fp_length p else n).
  assert (0 <= l < 2 ^ 32) as Hl' by (unfold l; destruct (0 <? fp_length p); lia).
  unfold e, fis_entry, fis_name_len. fold n l. rewrite (take_ge (fp_name p)) by lia. rewrite <- !app_assoc.
  split; [by rewrite take_app_length'|].
  split_and!; repeat (rewrite cpu_field_tail by (rewrite ?Hn, ?length_cpu_bytes, ?length_replicate; lia);
    rewrite ?Hn, ?length_cpu_bytes, ?length_replicate; cbn -[cpu_field cpu_bytes replicate]);
    by apply cpu_field_head.
Qed.

(** Entry [k] of the new entries: where it starts, and how much is left for it. *)
Fixpoint part_start new (o s : Z) (k : nat) : Z * Z :=
  match k, new with
  | S k, p :: new =>
      let n := if 0 <? fp_size p then fp_size p else s in
      part_start new (u32 (o + n)) (u32 (s - n)) k
  | _, _ => (o, s)
  end.

Lemma entries_at new o s k p :
  Forall part_ok new -> new !! k = Some p ->
  exists l r, fis_entries new o s = l ++ fis_entry p (part_start new o s k).1 (part_start new o s k).2 ++ r /\
    Z.of_nat (length l) = sizeof_fis_image_desc * Z.of_nat k.
Proof.
  intros Hn. revert o s k. induction Hn as [|q new Hq Hn IH]; intros o s k Hk; [done|].
  destruct k as [|k]; cbn in Hk.
  - injection Hk as ->. exists [], (fis_entries new (u32 (o + (if 0 <? fp_size p then fp_size p else s)))
      (u32 (s - (if 0 <? fp_size p then fp_size p else s)))). split; [done|]. cbn. lia.
  - cbn [fis_entries part_start]. set (n := if 0 <? fp_size q then fp_size q else s).
    destruct (IH (u32 (o + n)) (u32 (s - n)) k Hk) as (l & r & -> & Hl).
    exists (fis_entry q o s ++ l), r. rewrite <- app_assoc. split; [done|].
    rewrite length_app, length_entry by done. unfold sizeof_fis_image_desc in *. lia.
Qed.

(** * Moving the rest *)

(** Room is made for more entries: the block up to [first], a gap, and the entries behind
    [last] as far as they fit. *)
Definition moved (m : list Z) (first last n_new : Z) : list Z :=
  slice m 0 ((first + n_new) * sizeof_fis_image_desc) ++
  slice m ((last + 1) * sizeof_fis_image_desc) (Z.of_nat (length m) - (first + n_new) * sizeof_fis_image_desc).

Lemma move_rest_grow m first last n_new E (Q : list Z -> world K -> Prop) w :
  0 <= first <= last -> last + 1 <= first + n_new ->
  (first + n_new) * sizeof_fis_image_desc <= Z.of_nat (length m) < 2 ^ 31 ->
  Q (moved m first last n_new) w -> xwp (move_rest m first last n_new) E Q w.
Proof using ArchLaws0.
  unfold sizeof_fis_image_desc. intros Hf Hn Hl HQ. unfold move_rest, moved, sizeof_fis_image_desc in *.
  destruct (Z.eqb_spec (first + n_new) (last + 1)) as [E1|Hne].
  - apply xwp_ret. rewrite <- E1 in HQ. unfold slice in HQ. change (Z.to_nat 0) with O in HQ.
    rewrite drop_0, (take_ge (drop _ _)), take_drop in HQ by (rewrite length_drop; lia). done.
  - rewrite Z.max_l by lia. rewrite size_t_small by lia. apply xwp_bind, xwp_load; [lia|lia|lia|].
    set (r := slice m ((last + 1) * 256) _) in *.
    assert (Z.of_nat (length r) = Z.of_nat (length m) - (first + n_new) * 256) as Hr by (apply length_slice; lia).
    apply xwp_bind, xwp_store; [lia|lia|]. destruct (Z.ltb_spec (first + n_new) (last + 1)); [lia|]. apply xwp_ret.
    unfold blit. rewrite drop_ge, app_nil_r by lia. unfold slice in HQ at 1. by rewrite drop_0 in HQ.
Qed.

(** With fewer entries than before the tool runs over the end of the block. *)
Lemma move_rest_shrink m first last n_new w :
  0 <= first -> 0 <= n_new -> first + n_new < last + 1 ->
  (last + 1) * sizeof_fis_image_desc <= Z.of_nat (length m) < 2 ^ 31 ->
  move_rest m first last n_new w = Fault.
Proof using ArchLaws0.
  unfold sizeof_fis_image_desc. intros Hf Hn Hlt Hl. unfold move_rest, sizeof_fis_image_desc.
  destruct (Z.eqb_spec (first + n_new) (last + 1)); [lia|]. rewrite Z.max_r by lia.
  rewrite size_t_small by lia. unfold xbind at 1, bind at 1, load. rewrite in_bounds_true by lia. cbn [xret ret].
  set (r := slice m _ _).
  assert (Z.of_nat (length r) = Z.of_nat (length m) - (last + 1) * 256) as Hr by (apply length_slice; lia).
  unfold xbind at 1, bind at 1, store at 1. rewrite in_bounds_true by lia. cbn [xret ret].
  destruct (Z.ltb_spec (first + n_new) (last + 1)); [|lia]. unfold store.
  set (len := Z.of_nat (length m)) in *. set (tmp := len - (last + 1 - (first + n_new)) * 256).
  assert (in_bounds (blit m ((first + n_new) * 256) r) tmp
    (Z.of_nat (length (replicate (Z.to_nat (size_t (tmp - len))) 255))) = false) as ->; [|done].
  rewrite length_replicate, Z2Nat.id by apply size_t_range.
  unfold in_bounds. rewrite length_blit by lia. fold len. apply andb_false_iff. right. apply Z.leb_gt.
  unfold size_t. pose proof (long_bits_32 : 32 <= long_bits).
  assert (2 ^ 32 <= 2 ^ long_bits) by (apply Z.pow_le_mono_r; lia).
  rewrite <- (Z.mod_add _ 1) by lia. rewrite Z.mod_small by (unfold tmp; lia). unfold tmp. lia.
Qed.

(** * Updating the table *)

Lemma length_table n m i : (length (table_entries n m i) <= n)%nat.
Proof. revert i. induction n as [|n IH]; intros i; [done|]. cbn. destruct (entry_end _); cbn; [lia|]. specialize (IH (i + 1)). lia. Qed.

Lemma filter_seq_ends (P : nat -> bool) s n first :
  head (List.filter P (seq s n)) = Some first ->
  (s <= first <= List.last (List.filter P (seq s n)) 0)%nat /\ (List.last (List.filter P (seq s n)) 0 < s + n)%nat.
Proof.
  revert s first. induction n as [|n IH]; intros s first; [done|]. cbn [seq List.filter].
  destruct (P s); [|intros H; specialize (IH (S s) first H); lia].
  intros [= <-]. destruct (List.filter P (seq (S s) n)) as [|x l] eqn:E; [cbn; lia|].
  specialize (IH (S s) x). rewrite E in IH. destruct (IH eq_refl) as [H1 H2].
  change (List.last (s :: x :: l) 0%nat) with (List.last (x :: l) 0%nat). lia.
Qed.

(** The places of the old entries. *)
Definition old_range (old : list fis_part) (m : list Z) (eb : Z) : option (nat * nat) :=
  let pos := old_positions old (table m eb) in
  first ← head pos; Some (first, List.last pos 0%nat).

Lemma old_range_bounds old m eb first last :
  old_range old m eb = Some (first, last) -> 0 <= eb ->
  (first <= last)%nat /\ (Z.of_nat last + 1) * sizeof_fis_image_desc <= eb.
Proof.
  unfold old_range. intros E Heb. destruct (head _) as [x|] eqn:Eh; [|done]. injection E as <- <-.
  apply filter_seq_ends in Eh. fold (old_positions old (table m eb)) in Eh.
  pose proof (length_table (Z.to_nat (eb / sizeof_fis_image_desc)) m 0) as Ht. fold (table m eb) in Ht.
  unfold sizeof_fis_image_desc in *. pose proof (Z.div_mod eb 256 ltac:(lia)). pose proof (Z.mod_pos_bound eb 256 ltac:(lia)).
  pose proof (Z.div_pos eb 256 Heb ltac:(lia)). lia.
Qed.

(** The flash area of the old entries: its start, and its size up to the next entry. *)
Definition old_area (m : list Z) (eb : Z) (first last : nat) : Z * Z :=
  let t := table m eb in
  let base i := entry_base (entry_at m (Z.of_nat i)) in
  let lo := Z.min (base first) (base last) in
  (lo, u32 (next_base (Z.max (base first) (base last)) t (max_base t) - lo)).

(** The block with the new entries. *)
Definition remapped (m : list Z) (eb : Z) (first last : nat) new : list Z :=
  let '(lo, size) := old_area m eb first last in
  blit (moved m (Z.of_nat first) (Z.of_nat last) (Z.of_nat (length new))) (Z.of_nat first * sizeof_fis_image_desc)
    (fis_entries new lo size).

Lemma length_moved m first last n :
  0 <= first <= last -> 0 <= n -> last + 1 <= first + n ->
  (first + n) * sizeof_fis_image_desc <= Z.of_nat (length m) -> length (moved m first last n) = length m.
Proof.
  unfold moved, sizeof_fis_image_desc. intros. apply Nat2Z.inj. rewrite length_app, Nat2Z.inj_add, !length_slice by lia. lia.
Qed.

Definition fis_ends (f : fis) (m : list Z) (k : K) : K :=
  let k := sys_msync (fis_fd f) m k in if 0 <=? fis_fd f then sys_close (fis_fd f) k else k.

Lemma fis_remap_spec f f1 old new w w1 m first last :
  fis_open f w = Ret (inr f1) w1 -> fis_desc f1 = Some m -> fis_erasesize f1 = Z.of_nat (length m) ->
  Z.of_nat (length m) < 2 ^ 31 -> old_range old m (fis_erasesize f1) = Some (first, last) ->
  Forall part_ok new -> (last + 1 <= first + length new)%nat ->
  Z.of_nat (first + length new) * sizeof_fis_image_desc <= Z.of_nat (length m) ->
  fis_remap f old new w = Ret (inr (0, mk_fis (-1) None (fis_erasesize f1)))
    (mk_world (w_tool w1) (fis_ends f1 (remapped m (fis_erasesize f1) first last new) (w_os w1))).
Proof using ArchLaws0.
  intros Hopen Hdesc Heb Hl Hr Hnew Hgrow Hroom.
  destruct (old_range_bounds _ _ _ _ _ Hr ltac:(lia)) as [Hfl Hlast].
  unfold fis_remap. unfold xbind at 1, bind at 1. rewrite Hopen, Hdesc.
  unfold old_range in Hr. destruct (head _) as [x|]; [|done]. cbn in Hr. injection Hr as -> <-.
  set (last := List.last _ 0%nat) in *. unfold sizeof_fis_image_desc in *.
  assert (forall (Q : list Z -> world K -> Prop), Q (moved m (Z.of_nat first) (Z.of_nat last) (Z.of_nat (length new))) w1 ->
    xwp (move_rest m (Z.of_nat first) (Z.of_nat last) (Z.of_nat (length new))) (fun _ _ => False) Q w1) as Hmove.
  { intros Q HQ. apply move_rest_grow; [lia|lia|unfold sizeof_fis_image_desc; lia|done]. }
  specialize (Hmove (fun m' w' => m' = moved m (Z.of_nat first) (Z.of_nat last) (Z.of_nat (length new)) /\ w' = w1) (conj eq_refl eq_refl)).
  apply xwp_inv in Hmove as (w' & [(c & _ & [])|(m' & Em & -> & ->)]).
  unfold xbind at 1, bind at 1. rewrite Em. unfold xbind at 1, bind at 1, store.
  rewrite length_entries by done. unfold sizeof_fis_image_desc.
  rewrite in_bounds_true by (rewrite ?length_moved by (unfold sizeof_fis_image_desc; lia); lia).
  cbn [xret ret]. unfold remapped, old_area. unfold fis_ends, fis_close.
  cbv [xbind bind sys_ sys xret ret]. cbn [w_tool w_os]. unfold sizeof_fis_image_desc.
  destruct (0 <=? fis_fd f1); reflexivity.
Qed.

(** Fewer new entries than old ones: the tool writes outside the block. *)
Lemma fis_remap_shrink f f1 old new w w1 m first last :
  fis_open f w = Ret (inr f1) w1 -> fis_desc f1 = Some m -> fis_erasesize f1 = Z.of_nat (length m) ->
  Z.of_nat (length m) < 2 ^ 31 -> old_range old m (fis_erasesize f1) = Some (first, last) ->
  (first + length new < last + 1)%nat -> fis_remap f old new w = Fault.
Proof using ArchLaws0.
  intros Hopen Hdesc Heb Hl Hr Hlt.
  destruct (old_range_bounds _ _ _ _ _ Hr ltac:(lia)) as [Hfl Hlast].
  unfold fis_remap. unfold xbind at 1, bind at 1. rewrite Hopen, Hdesc.
  unfold old_range in Hr. destruct (head _) as [x|]; [|done]. cbn in Hr. injection Hr as -> <-.
  set (last := List.last _ 0%nat) in *.
  unfold xbind at 1, bind at 1. rewrite move_rest_shrink; [done|lia|lia|lia|lia].
Qed.
End spec.
