(* ===== verification/ToolMtdFisSpec.v ===== *)
(** The flash tool with [FIS_SUPPORT]: without the option [-F] it does what it does without
    the support, and with the option it writes the same bytes and measures the partitions of
    the image it writes. *)

From stdpp Require Import base list numbers strings gmap.
From Stdlib Require Import ZArith Lia Ascii.
From S2P Require Import Prelude Platform Bytes CStrings ToolCrc ToolOs ToolFix ToolFis ToolFlags ToolJffs2 ToolMtd ToolMtdFis ToolOsSpec ToolWriteSpec.
Local Open Scope Z_scope.
Local Open Scope cprog_scope.

(** * Programs that do the same

    [agree P m m']: from every world, both programs end in the same way and leave the same
    world, with results in [P]. *)
Section agree.
Context {K : Type}.
Implicit Types (w : world K).

Definition agree {A B} (P : A -> B -> Prop) (m : X K A) (m' : X K B) : Prop := forall w,
  match m w, m' w with
  | Ret (inl c) w1, Ret (inl c') w2 => c = c' /\ w1 = w2
  | Ret (inr a) w1, Ret (inr b) w2 => P a b /\ w1 = w2
  | Fault, Fault | Diverge, Diverge => True
  | _, _ => False
  end.

Lemma agree_refl {A} (m : X K A) : agree eq m m.
Proof. intros w. destruct (m w) as [[c|a] w1| |]; done. Qed.

Lemma agree_ret {A B} (P : A -> B -> Prop) a b : P a b -> agree P (xret a) (xret b).
Proof. done. Qed.

Lemma agree_bind {A B A' B'} (P : A -> B -> Prop) (Q : A' -> B' -> Prop) m m' k k' :
  agree P m m' -> (forall a b, P a b -> agree Q (k a) (k' b)) -> agree Q (xbind m k) (xbind m' k').
Proof.
  intros Hm Hk w. specialize (Hm w). unfold xbind, bind.
  destruct (m w) as [[c|a] w1| |], (m' w) as [[c'|b] w2| |]; try done.
  destruct Hm as [HP ->]. exact (Hk a b HP w2).
Qed.

Lemma agree_seq {A A' B'} (Q : A' -> B' -> Prop) (m : X K A) k k' :
  (forall a, agree Q (k a) (k' a)) -> agree Q (xbind m k) (xbind m k').
Proof. intros Hk. eapply agree_bind; [apply agree_refl|]. by intros a ? <-. Qed.

Lemma agree_ret_l {A A' B'} (Q : A' -> B' -> Prop) (a : A) k (m' : X K B') :
  agree Q (k a) m' -> agree Q (xbind (xret a) k) m'.
Proof. done. Qed.

(** Loops whose rounds agree, for states in [I]. *)
Definition next_rel {L L' R R'} (I : L -> L' -> Prop) (Q : R -> R' -> Prop) (r : L + R) (r' : L' + R') : Prop :=
  match r, r' with
  | inl l, inl l' => I l l'
  | inr r, inr r' => Q r r'
  | _, _ => False
  end.

Lemma agree_loop {L L' R R'} (I : L -> L' -> Prop) (Q : R -> R' -> Prop) body body' fuel :
  (forall l l', I l l' -> agree (next_rel I Q) (body l) (body' l')) ->
  forall l l', I l l' -> agree Q (xloop fuel body l) (xloop fuel body' l').
Proof.
  intros Hb. induction fuel as [|fuel IH]; intros l l' HI w; [done|].
  unfold xloop in *. cbn [loop]. unfold bind. specialize (Hb l l' HI w).
  destruct (body l w) as [[c|[l1|r]] w1| |], (body' l' w) as [[c'|[l1'|r']] w2| |]; try done;
    destruct Hb as [? ->]; try done. by apply IH.
Qed.

Lemma agree_eq {A} (m m' : X K A) w : agree eq m m' -> m w = m' w.
Proof.
  intros H. specialize (H w). destruct (m w) as [[c|a] w1| |], (m' w) as [[c'|b] w2| |]; try done;
    by destruct H as [-> ->].
Qed.
End agree.

(** * Without the option *)

Section without.
Context `{Arch} {K : Type} `{Os K} (tg : target).

(** The state of the loop without FIS. *)
Definition plain (l : wstate * Z * option fis_write) (st : wstate) : Prop := l.2 = None /\ l.1.1 = st.

Lemma plain_write_block raw st :
  agree plain (fis_write_block raw None st) (write_block st).
Proof.
  intros w. unfold fis_write_block, write_block, xbind, iget, get, bind. cbn.
  destruct (buf (t_img (w_tool w))) as [b|] eqn:Eb; [|done]. cbn. rewrite Eb. cbn.
  destruct (load _ _ _ w) as [[c|bs] w1| |]; try done. unfold sys.
  destruct (sys_write _ _ _) as [r k]. by destruct (r <? _).
Qed.

Lemma plain_erase_and_write fuel part_offset raw st :
  agree plain (fis_erase_and_write tg fuel part_offset raw None st) (erase_and_write tg fuel part_offset st).
Proof.
  apply agree_seq. intros [|]; [apply plain_write_block|]. apply agree_seq. intros [e sb|e sb]; [apply plain_write_block|].
  unfold agree. intros w. unfold xbind, bind. by destruct (write_next_device tg part_offset e sb st w) as [[c|s] w1| |].
Qed.

Lemma plain_write_round fuel imagefd part_offset l st :
  plain l st ->
  agree (next_rel plain (fun r st => r = (st, None)))
    (fis_write_round tg fuel imagefd part_offset l) (write_round tg fuel imagefd part_offset st).
Proof.
  destruct l as [[st' raw] fw]. intros [Hfw Hst]. cbn in Hfw, Hst. subst.
  unfold fis_write_round, write_round. apply agree_seq. intros []. apply agree_seq. intros len.
  destruct (len =? 0); [by apply agree_ret|]. apply agree_seq. intros []. apply agree_seq. intros len'.
  destruct (ws_skip st >? 0); [apply agree_seq; intros []; by apply agree_ret|].
  apply agree_seq. intros [st'|]; [by apply agree_ret|].
  eapply agree_bind; [apply plain_erase_and_write|]. intros l s Hp. by apply agree_ret.
Qed.

Lemma plain_mtd_write fuel imagefd mtd part_offset :
  agree eq (fis_mtd_write tg fuel imagefd mtd None part_offset) (mtd_write tg fuel imagefd mtd part_offset).
Proof.
  apply agree_ret_l. unfold mtd_write.
  destruct (devices mtd) as [|name next]; [by intros w|].
  apply agree_seq. intros fd. eapply agree_bind.
  - apply (agree_loop plain (fun r st => r = (st, None))); [by apply plain_write_round|done].
  - intros ? st ->. apply agree_seq. intros []. apply agree_refl.
Qed.
End without.

(** * Measuring *)

Section measure.
Context `{A : Arch} `{!ArchLaws A}.
Implicit Types (new parts : list fis_part) (segs : list (list Z)) (bytes chunk : list Z).

(** What a partition that received the bytes [s] is measured as. *)
Definition measured_part (p : fis_part) (s : list Z) : fis_part :=
  mk_fis_part (fp_name p) (fp_loadaddr p) (fp_size p) (u32 (Z.of_nat (length s))) (foldl crc_byte 0 s).

(** The bytes are split into consecutive segments, one for each partition; a partition with a
    size gets no more than that, or a single block of at most [eb] bytes; the last one of the
    array takes the rest. *)
Record measured (new : list fis_part) (eb : nat) (parts : list fis_part) (cur : nat) (bytes : list Z) (segs : list (list Z))
    : Prop := {
  ms_parts : parts = zip_with measured_part new segs;
  ms_length : length segs = MAX_ARGS;
  ms_cur : (cur < MAX_ARGS)%nat;
  ms_bytes : concat segs = bytes;
  ms_later k s : (cur < k)%nat -> segs !! k = Some s -> s = [];
  ms_bound k p s : (k < MAX_ARGS - 1)%nat -> new !! k = Some p -> segs !! k = Some s -> fp_size p <> 0 ->
    Z.of_nat (length s) <= Z.max (fp_size p) (Z.of_nat eb)
}.

Lemma concat_nil segs k : (forall i s, (k < i)%nat -> segs !! i = Some s -> s = []) -> concat (drop (S k) segs) = [].
Proof.
  intros H. assert (forall l, (forall s, s ∈ l -> s = []) -> concat l = ([] : list Z)) as Hn.
  { induction l as [|x l IH]; intros Hl; [done|]. cbn. rewrite (Hl x), IH; [done| |by left].
    intros s Hs. apply Hl. by right. }
  apply Hn. intros s (i & Hi)%list_elem_of_lookup. rewrite lookup_drop in Hi.
  eapply (H (S k + i)%nat); [lia|done].
Qed.

Lemma concat_extend segs k s chunk :
  segs !! k = Some s -> (forall i s, (k < i)%nat -> segs !! i = Some s -> s = []) ->
  concat (<[k := s ++ chunk]> segs) = concat segs ++ chunk.
Proof.
  intros Hk Hl. pose proof (lookup_lt_Some _ _ _ Hk). rewrite insert_take_drop by done.
  rewrite <- (take_drop_middle segs k s Hk) at 3. rewrite !concat_app, !concat_cons.
  by rewrite (concat_nil segs k Hl), !app_nil_r, app_assoc.
Qed.

Lemma zip_with_insert new segs k p s :
  new !! k = Some p -> zip_with measured_part new (<[k := s]> segs) =
  (if decide (k < length segs)%nat then <[k := measured_part p s]> (zip_with measured_part new segs) else zip_with measured_part new segs).
Proof.
  revert segs k. induction new as [|q new IH]; intros segs k Hk; [done|]. destruct segs as [|t segs]; [by destruct k|].
  destruct k as [|k]; cbn in Hk.
  - by injection Hk as ->.
  - cbn. rewrite IH by done. by repeat case_decide; try lia.
Qed.

(** The partition a block goes to has received nothing yet, or it has room for it. *)
Lemma next_part_spec new eb parts cur bytes segs n :
  measured new eb parts cur bytes segs -> length new = MAX_ARGS -> 0 <= n ->
  Z.of_nat (length bytes) + n < 2 ^ 32 ->
  let k := next_part parts cur n in
  exists p s, (cur <= k < MAX_ARGS)%nat /\ new !! k = Some p /\ segs !! k = Some s /\
    parts !! k = Some (measured_part p s) /\
    (forall j t, (k < j)%nat -> segs !! j = Some t -> t = []) /\
    ((k < MAX_ARGS - 1)%nat -> fp_size p <> 0 -> s = [] \/ Z.of_nat (length s) + n <= fp_size p).
Proof.
  intros [Hp Hl Hc Hb Hlater _] Hnew Hn Hsmall k.
  assert (forall j, (j < MAX_ARGS)%nat -> exists p s, new !! j = Some p /\ segs !! j = Some s /\
    parts !! j = Some (measured_part p s)) as Hat.
  { intros j Hj. destruct (lookup_lt_is_Some_2 new j ltac:(lia)) as [p E1].
    destruct (lookup_lt_is_Some_2 segs j ltac:(lia)) as [s E2]. exists p, s. split_and!; [done|done|].
    by rewrite Hp, lookup_zip_with, E1, E2. }
  destruct (Hat cur Hc) as (p & s & E1 & E2 & E3).
  assert (Z.of_nat (length s) <= Z.of_nat (length bytes)) as Hs.
  { rewrite <- Hb, <- (take_drop_middle segs cur s E2), concat_app, concat_cons, !length_app. lia. }
  assert (k = if negb (fp_size p =? 0) && (cur <? MAX_ARGS - 1)%nat && (u32 (Z.of_nat (length s) + n) >? fp_size p)
    then S cur else cur) as ->.
  { unfold k, next_part. rewrite E3. cbn [fp_size fp_length measured_part]. unfold u32. by rewrite Zplus_mod_idemp_l. }
  destruct (negb _ && _ && _) eqn:Ec.
  - apply andb_true_iff in Ec as [[_ Hlt%Nat.ltb_lt]%andb_true_iff _].
    destruct (Hat (S cur) ltac:(lia)) as (p' & s' & F1 & F2 & F3). exists p', s'.
    split_and!; [lia|lia|done|done|done| |].
    + intros j t Hj. apply Hlater. lia.
    + intros _ _. left. eapply Hlater; [|exact F2]. lia.
  - exists p, s. split_and!; [lia|done|done|done|done|done|]. intros Hk Hz. right.
    apply andb_false_iff in Ec as [[Ec|Ec]%andb_false_iff|Ec].
    + apply negb_false_iff, Z.eqb_eq in Ec. done.
    + apply Nat.ltb_ge in Ec. lia.
    + rewrite u32_small in Ec by lia. lia.
Qed.

(** One more block. *)
Lemma count_block_spec {K} new eb parts cur bytes segs b chunk E (w : world K) :
  measured new eb parts cur bytes segs -> length new = MAX_ARGS ->
  slice b 0 (Z.of_nat (length chunk)) = chunk -> (length chunk <= length b)%nat -> (length chunk <= eb)%nat ->
  Forall is_byte b -> Z.of_nat (length bytes + length chunk) < 2 ^ 31 ->
  xwp (count_block b (Z.of_nat (length chunk)) parts cur) E (fun '(parts', cur') w' =>
    w' = w /\ exists segs', measured new eb parts' cur' (bytes ++ chunk) segs') w.
Proof using A.
  intros Hm Hnew Hch Hlb Heb Hby Hsmall.
  destruct (next_part_spec _ _ _ _ _ _ (Z.of_nat (length chunk)) Hm Hnew ltac:(lia) ltac:(lia))
    as (p & s & Hk & E1 & E2 & E3 & Hlater & Hroom).
  unfold count_block. set (k := next_part _ _ _) in *. rewrite E3. unfold deref. do 2 tool_step.
  apply xwp_bind. unfold xwp, pure. apply wp_bind. cbn [fp_crc fp_length fp_name fp_loadaddr fp_size measured_part].
  unfold wp. rewrite crc32_spec by (done || lia || (apply crc_bytes_range; lia)). rewrite Hch.
  split; [done|]. exists (<[k := s ++ chunk]> segs). destruct Hm as [Hp Hl Hc Hb Hlat Hbd]. split.
  - rewrite (zip_with_insert new segs k p) by done. rewrite decide_True by lia. rewrite <- Hp. f_equal.
    unfold measured_part. rewrite foldl_app, length_app. f_equal. unfold u32. rewrite Zplus_mod_idemp_l. f_equal. lia.
  - by rewrite length_insert.
  - lia.
  - rewrite (concat_extend segs k s chunk E2 Hlater). by rewrite Hb.
  - intros j t Hj Ht. rewrite list_lookup_insert_ne in Ht by lia. by apply (Hlater j).
  - intros j q t Hj Hq Ht Hz. destruct (decide (j = k)) as [->|Hne].
    + rewrite list_lookup_insert_eq in Ht by lia. injection Ht as <-. rewrite E1 in Hq. injection Hq as <-.
      rewrite length_app. destruct (Hroom Hj Hz) as [->|?]; cbn [length]; lia.
    + rewrite list_lookup_insert_ne in Ht by done. by eapply Hbd.
Qed.

(** Nothing has been measured yet. *)
Lemma measured_start new eb :
  length new = MAX_ARGS -> Forall (fun p => fp_length p = 0 /\ fp_crc p = 0) new ->
  measured new eb new 0 [] (replicate MAX_ARGS []).
Proof.
  intros Hl Hz. split.
  - apply list_eq. intros i. rewrite lookup_zip_with. destruct (new !! i) as [p|] eqn:Ei; [|done]. cbn [mbind option_bind].
    rewrite lookup_replicate_2 by (apply lookup_lt_Some in Ei; lia). cbn [mbind option_bind].
    eapply Forall_lookup_1 in Ei; [|exact Hz]. destruct p as [n la sz len crc]; cbn in *. by destruct Ei as [-> ->].
  - by rewrite length_replicate.
  - unfold MAX_ARGS. lia.
  - done.
  - intros k s _ [-> _]%lookup_replicate_1. done.
  - intros k p s _ _ [-> _]%lookup_replicate_1 _. cbn. lia.
Qed.
End measure.

(** The command line without [-F]. *)
Section main.
Context `{Arch} {K : Type} `{Os K} (tg : target).

Lemma plain_options opts : Forall (fun o => o.1 <> "F"%char) opts ->
  forall a, agree (fun r a => r = (a, None)) (fis_main_options (K := K) a None opts) (main_options a opts).
Proof.
  induction 1 as [|[ch optarg] opts Hf Hopts IH]; intros a; [by apply agree_ret|]. cbn [fis_main_options main_options].
  cbn in Hf. destruct (Ascii.eqb_spec ch "F"); [done|]. apply agree_seq, IH.
Qed.

Lemma plain_run fuel a cmd device unlocked :
  agree eq (fis_run_command tg fuel a None cmd device unlocked) (run_command tg fuel a cmd device unlocked).
Proof.
  destruct cmd; try apply agree_refl. cbn [fis_run_command run_command]. apply agree_seq. intros [].
  eapply agree_bind; [apply plain_mtd_write|]. intros x y <-. by apply agree_ret.
Qed.

Lemma plain_main fuel opts argv : Forall (fun o => o.1 <> "F"%char) opts ->
  agree eq (fis_main tg fuel opts argv) (main tg fuel opts argv).
Proof.
  intros Ho. eapply agree_bind; [by apply plain_options|]. intros ? a ->.
  apply agree_seq. intros [cmd device]. apply agree_seq. intros []. apply agree_seq. intros unlocked.
  eapply agree_bind; [apply plain_run|]. intros ? ? ->. apply agree_refl.
Qed.
End main.

(** * The loop *)

Section loop.
Context `{A : Arch} `{!ArchLaws A} {K : Type} `{L : OsLaws K} (tg : target).
Context (fd imagefd : Z) (d : string) (f : flash) (img : list Z) (rel : bool) (opts : options).
Context (Hfds : imagefd <> fd) (Hok : flash_ok f).
Context (Hopts : no_erase opts = false /\ jffs2file opts = None /\ tpl_uboot_args_part opts = None).
Context (old new : list fis_part) (n_new : nat) (fs : fis) (Hnew : length new = MAX_ARGS).
Implicit Types (w : world K).

Abbreviation write_head := (head (K := K) fd imagefd d f img rel opts).
Abbreviation sys_at := (sys_at (K := K) fd d f rel opts).
Abbreviation buffer_at := (buffer_at (K := K) imagefd f).
Abbreviation write_exit := (write_exit (K := K) d f img rel).

(** What has been written has been measured. *)
Definition fis_at (rem : list Z) (fw : option fis_write) : Prop :=
  exists parts cur bytes segs, fw = Some (mk_fis_write old parts n_new (Some cur) fs) /\
    img = bytes ++ rem /\ measured new (f_ebn f) parts cur bytes segs.

Lemma pad_block_head rem :
  slice (pad_block (f_ebn f) rem) 0 (Z.of_nat (length (take (f_ebn f) rem))) = take (f_ebn f) rem.
Proof. unfold pad_block, slice. rewrite drop_0, Nat2Z.id. apply take_app_length. Qed.

Lemma fis_write_block_spec name rem m k f' sb w fw :
  written f img k f' rem -> rem <> [] -> (k < f_blocks f)%nat -> Z.of_nat k * f_eb f ∉ f_bad f ->
  sys_at (set_data (blit (f_data f') (Z.of_nat (k * f_ebn f)) (replicate (f_ebn f) 0xff)) f')
    (Z.of_nat k * f_eb f) w ->
  buffer_at rem m w -> Forall is_byte rem -> fis_at rem fw ->
  let ws := room (f_ebn f) (take k (bad_flags f)) in
  Z.of_nat (S k) * f_eb f - sb = ws + f_eb f -> Z.of_nat (length img) < 2 ^ 31 ->
  xwp (fis_write_block (Z.of_nat (length (take (f_ebn f) rem))) fw
         (mk_wstate name [] fd ws (Z.of_nat (S k) * f_eb f) 0 0 sb false)) write_exit
    (fun '(st', raw, fw') w' => raw = 0 /\ fis_at (drop (f_ebn f) rem) fw' /\
       exists f2, write_head name (S k) f2 (drop (f_ebn f) rem) m st' w') w.
Proof using Hfds Hok L ArchLaws0 Hnew.
  intros Hw Hne Hk Hgood Hs Hb Hby (parts & cur & bytes & segs & -> & Himg & Hm) ws Hsb Hsmall.
  pose proof (length_pad_block (f_ebn f) rem) as Hyl.
  assert (Forall is_byte (pad_block (f_ebn f) rem)) as Hyb.
  { apply Forall_app_2; [by apply Forall_take|]. by apply Forall_replicate. }
  unfold fis_write_block. do 2 tool_step. rewrite (ia_buf _ _ _ _ _ _ _ Hb). unfold deref. do 3 tool_step.
  eapply xwp_call; [by eapply write_block_spec|]. intros st' w1 Hhead. apply xwp_bind. cbn [fis_count fw_cur fw_new].
  pose proof (pad_block_head rem) as Hph. set (chunk := take (f_ebn f) rem) in *.
  assert (length chunk <= f_ebn f)%nat by (unfold chunk; rewrite length_take; lia).
  assert (rem = chunk ++ drop (f_ebn f) rem) as Erem by (symmetry; apply take_drop).
  apply xwp_bind. eapply xwp_call; [apply (count_block_spec new (f_ebn f) parts cur bytes segs _ chunk); try done; try lia|].
  { rewrite Himg, Erem, !length_app in Hsmall. lia. }
  intros [parts' cur'] w2 (-> & segs' & Hm'). do 2 tool_step. split; [done|]. split; [|done].
  exists parts', cur', (bytes ++ chunk), segs'. split_and!; [done| |done]. rewrite <- app_assoc, <- Erem. done.
Qed.

Definition fis_head name k f' rem m (l : wstate * Z * option fis_write) w : Prop :=
  l.1.2 = 0 /\ fis_at rem l.2 /\ write_head name k f' rem m l.1.1 w.

(** One round: the image has ended, or its next block has been written and measured. *)
Lemma fis_write_round_spec fuel name k f' rem m l w :
  fis_head name k f' rem m l w -> (Z.to_nat (f_size f) + m < fuel)%nat -> Z.of_nat (length img) < 2 ^ 31 ->
  xwp (fis_write_round tg fuel imagefd 0 l) write_exit (fun r w' =>
    match r with
    | inl l' => (exists k' f2 rem', fis_head name k' f2 rem' m l' w') /\
        (Z.to_nat (f_size f - ws_w l'.1.1) < Z.to_nat (f_size f - ws_w l.1.1))%nat
    | inr (st', fw) => fis_at [] fw /\ write_head name k f' [] m st' w'
    end) w.
Proof using Hfds Hopts Hok L ArchLaws0 Hnew.
  destruct l as [[st raw] fw]. intros (Hraw & Hfis & Hh) Hfuel Hsmall. cbn [fst snd] in *. subst raw.
  destruct Hh as (Hw & Hs & (b & bl & rest & Hi & <-) & sb & -> & Hsb).
  pose proof (fo_eb f Hok). pose proof (eb_le_size f Hok). pose proof (f_ebn_eb f Hok) as Hebn. unfold fis_write_round.
  pose proof (wr_k _ _ _ _ _ Hw) as Hk. pose proof (block_offset_bound f Hok k Hk) as Hoff.
  apply xwp_bind. eapply xwp_call; [apply (fill_buffer_spec fd imagefd d f rel opts Hfds Hok fuel f' _ b bl rest m w _ Hs Hi); lia|].
  clear Hi. intros [] w1 (Hs1 & b1 & bl1 & rest1 & Hi & Hleft & Hend). rewrite <- Hleft in *. clear Hleft.
  do 2 tool_step. rewrite (ia_len _ _ _ _ _ _ _ Hi). pose proof (ia_range _ _ _ _ _ _ _ Hi) as Hrange.
  pose proof (ia_size _ _ _ _ _ _ _ Hi) as Hbsz. change (0 =? 0) with true. cbn match.
  assert (bl1 = Z.of_nat (length (take (f_ebn f) (image_left b1 bl1 rest1)))) as Hrawlen.
  { unfold image_left. rewrite length_take, length_app, length_take. destruct Hend as [->| ->]; cbn [length]; lia. }
  destruct (Z.eqb_spec bl1 0) as [Hz|Hbl].
  { assert (image_left b1 bl1 rest1 = []) as Hnil.
    { destruct Hend as [?| ->]; [lia|]. unfold image_left. by rewrite Hz. }
    rewrite Hnil in *. apply xwp_ret. split; [done|]. split; [exact Hw|]. split; [done|].
    split; [by exists b1, bl1, rest1|]. by exists sb. }
  assert (image_left b1 bl1 rest1 <> []) as Hne.
  { intros Hnil. rewrite Hnil in Hrawlen. by rewrite take_nil in Hrawlen. }
  apply xwp_bind. eapply xwp_call; [by eapply pad_buffer_spec|]. intros [] w2 (Hs2 & Hb2).
  pose proof (image_left_bytes _ _ _ _ _ _ _ Hi) as Hby. fold (buffer_at (image_left b1 bl1 rest1) m w2) in Hb2.
  clear Hi. revert Hw Hfis Hby Hne Hb2 Hrawlen. generalize (image_left b1 bl1 rest1) as rm. intros rm Hw Hfis Hby Hne Hb2 ->.
  do 2 tool_step. cbn [ws_skip]. change (0 >? 0) with false.
  apply xwp_bind, (jffs2_branch_spec opts Hopts); [by destruct Hs2|]. apply xwp_bind. unfold fis_erase_and_write.
  do 2 tool_step. rewrite (sa_opt _ _ _ _ _ _ _ _ Hs2). destruct Hopts as (-> & _ & _).
  apply xwp_bind. cbn [ws_fd ws_w ws_e ws_skip_bad].
  eapply xwp_call; [apply (erase_ahead_spec fd imagefd d f img rel opts Hfds Hok fuel rm); [|exact Hb2|lia|lia]|].
  { exists k, f'. split_and!; [done|done|done|]. by left. }
  intros [e sb'|e sb'] w3 Hpost; cbn [erase_post] in Hpost.
  2: { apply xwp_bind. unfold write_next_device. cbn [ws_next]. by apply xwp_exit. }
  destruct Hpost as (Hb3 & k2 & f2 & f3 & Hw2 & Hk2 & Hgood & Hws & -> & Hsb2 & Hs3 & ->).
  rewrite Hws in *. eapply xwp_call; [by eapply fis_write_block_spec|].
  intros [[st' raw'] fw'] w4 (-> & Hfis' & f4 & Hhead). apply xwp_ret.
  split; [by exists (S k2), f4, (drop (f_ebn f) rm)|].
  destruct Hhead as (_ & _ & _ & sb3 & -> & _). cbn [ws_w fst]. pose proof (block_end f Hok k2 Hk2).
  pose proof (room_take_bound f Hok (S k2) ltac:(lia)).
  unfold room in *. rewrite take_S_bad_flags, bool_decide_false in * by done. lia.
Qed.

Lemma fis_write_loop_spec fuel name m l w :
  (exists k f' rem, fis_head name k f' rem m l w) -> (Z.to_nat (f_size f) + m < fuel)%nat ->
  Z.of_nat (length img) < 2 ^ 31 ->
  xwp (xloop fuel (fis_write_round tg fuel imagefd 0) l) write_exit
    (fun '(st', fw) w' => fis_at [] fw /\ exists k f', write_head name k f' [] m st' w') w.
Proof using Hfds Hopts Hok L ArchLaws0 Hnew.
  intros Hh Hfuel Hsmall.
  apply (xwp_loop (fun l w => exists k f' rem, fis_head name k f' rem m l w)
    (fun l _ => Z.to_nat (f_size f - ws_w l.1.1))); [|done|].
  - clear l w Hh. intros l w (k & f' & rem & Hh). eapply xwp_call; [by apply (fis_write_round_spec fuel name k f' rem m)|].
    intros [l'|[st' fw]] w'; [done|]. intros [Hf Hh']. split; [done|]. by exists k, f'.
  - destruct Hh as (k & f' & rem & _ & _ & _ & _ & _ & sb & -> & _). cbn [ws_w].
    assert (0 <= room (f_ebn f) (take k (bad_flags f))) by apply Nat2Z.is_nonneg. lia.
Qed.
End loop.

(** C40: with [-F], [mtd_write] writes the image as it does without, and measures the
    partitions.  For one device, without a part offset and the options [-n], [-j] and [-t], and a working description ([new] with counters at zero), the
    loop leaves the image on the good blocks in order, and the bytes of the image are cut into
    one segment for each partition, in order, so that the length and the checksum of the
    partition are those of its segment; a partition with a size gets no more than that many
    bytes, or one erase block, unless it is the last of the array. *)
Theorem fis_write_measures `{A : Arch} `{!ArchLaws A} {K : Type} `{L : OsLaws K}
    (tg : target) fuel imagefd name (w w1 : world K) fd d f b bl rest m old new n_new fs :
  mtd_check_open name w = Ret (inr fd) w1 -> 0 <= fd ->
  t_dev (w_tool w1) = dev_vars f -> flash_at (view_of (w_os w1)) fd d f 0 -> flash_ok f ->
  no_erase (t_opt (w_tool w1)) = false -> jffs2file (t_opt (w_tool w1)) = None ->
  tpl_uboot_args_part (t_opt (w_tool w1)) = None ->
  imagefd <> fd -> image_at imagefd f b bl rest m w1 -> image_left b bl rest <> [] ->
  (Z.to_nat (f_size f) + m < fuel)%nat -> length new = MAX_ARGS ->
  Forall (fun p => fp_length p = 0 /\ fp_crc p = 0) new ->
  let img := image_left b bl rest in
  Z.of_nat (length img) < 2 ^ 31 ->
  xwp (let! fd := write_resume tg name 0 in
       xloop fuel (fis_write_round tg fuel imagefd 0)
         (mk_wstate name [] fd 0 0 0 0 0 false, 0, Some (mk_fis_write old new n_new (Some O) fs)))
    (write_exit d f img (v_reliable (view_of (w_os w1))))
    (fun '(st, fw) w' =>
       v_flash (view_of (w_os w')) !! d = Some (set_data (place (f_ebn f) (bad_flags f) (f_data f) img) f) /\
       exists parts cur segs, fw = Some (mk_fis_write old parts n_new (Some cur) fs) /\
         measured new (f_ebn f) parts cur img segs) w.
Proof.
  intros Hopen Hfd Hvars Hat Hok He Hj Ht Hne Hi Himg Hfuel Hnew Hzero img Hsmall.
  apply xwp_bind. unfold write_resume. apply xwp_bind. eapply wp_intro; [exact Hopen|]. cbn beta iota.
  destruct (Z.ltb_spec fd 0); [lia|]. change (0 >? 0) with false. do 4 tool_step. rewrite Ht. tool_step.
  eapply xwp_call.
  - apply (fis_write_loop_spec tg fd imagefd d f img (v_reliable (view_of (w_os w1))) (t_opt (w_tool w1)) Hne Hok
      (conj He (conj Hj Ht)) old new n_new fs Hnew fuel name m); [|exact Hfuel|exact Hsmall].
    exists O, f, img. split; [done|]. split.
    + exists new, O, [], (replicate MAX_ARGS []). split_and!; [done|done|by apply measured_start].
    + split; [by apply written_start|]. split; [by split|]. split; [by exists b, bl, rest|].
      exists 0. unfold room, good_blocks. rewrite take_0. cbn [filter list_filter length]. rewrite Nat.mul_0_r. done.
  - intros [st fw] w2 [(parts & cur & bytes & segs & -> & Eb & Hm) (k & f' & Hw & Hs & _)].
    split; [rewrite <- (written_done _ _ _ _ Hw); apply Hs|]. rewrite app_nil_r in Eb. subst bytes.
    by exists parts, cur, segs.
Qed.

(** A command line without [-F]: the tool built with [FIS_SUPPORT] behaves, in every world,
    as the one built without. *)
Theorem fis_main_without_option `{Arch} {K : Type} `{Os K} (tg : target) fuel opts argv (w : world K) :
  Forall (fun o => o.1 <> "F"%char) opts -> fis_main tg fuel opts argv w = main tg fuel opts argv w.
Proof. intros Ho. by apply agree_eq, plain_main. Qed.
