(* ===== verification/ToolJffs2Spec.v ===== *)
(** JFFS2 nodes: what the tool writes can be read back, by the file system and by the tool. *)

From stdpp Require Import base list numbers strings.
From Stdlib Require Import ZArith Lia Ascii.
From S2P Require Import Prelude Platform Bytes ToolOs ToolCrc ToolFix ToolJffs2 ToolOsSpec ToolFixSpec.
Local Open Scope Z_scope.
Local Open Scope cprog_scope.

Section nodes.
Context `{A : Arch}.

(** * Reading nodes

    A reader that checks the magic, the type, the length and all checksums. *)
Definition node_crc (l : list Z) : Z := foldl crc_byte 0 l.

Definition decode_header (nodetype : Z) (b : list Z) : bool :=
  (cpu_field b 0 2 =? NODE_MAGIC) && (cpu_field b 2 2 =? nodetype) && (cpu_field b 8 4 =? node_crc (slice b 0 8)).

Record dirent := mk_dirent { de_pino : Z; de_version : Z; de_ino : Z; de_type : Z; de_name : list Z }.

Definition decode_dirent (b : list Z) : option dirent :=
  let nsize := le_val (slice b 28 1) in
  if decode_header JFFS2_NODETYPE_DIRENT b && (cpu_field b 4 4 =? sizeof_raw_dirent + nsize)
     && (cpu_field b 32 4 =? node_crc (slice b 0 32)) && (cpu_field b 36 4 =? node_crc (slice b 40 nsize))
  then Some (mk_dirent (cpu_field b 12 4) (cpu_field b 16 4) (cpu_field b 20 4) (le_val (slice b 29 1)) (slice b 40 nsize))
  else None.

(** An inode with its data, which follow the structure; neither is compressed. *)
Definition decode_inode (b : list Z) : option (raw_inode * list Z) :=
  let dsize := cpu_field b 52 4 in
  if decode_header JFFS2_NODETYPE_INODE b && (cpu_field b 4 4 =? sizeof_raw_inode + dsize)
     && (cpu_field b 48 4 =? dsize) && (le_val (slice b 56 1) =? 0)
     && (cpu_field b 64 4 =? node_crc (slice b 0 60)) && (cpu_field b 60 4 =? node_crc (slice b 68 dsize))
  then Some (mk_raw_inode (cpu_field b 12 4) (cpu_field b 16 4) (cpu_field b 20 4) (cpu_field b 28 4)
               (cpu_field b 32 4) (cpu_field b 36 4) (cpu_field b 40 4) (cpu_field b 44 4) dsize, slice b 68 dsize)
  else None.

(** * Checksums of nodes *)

Lemma crc_run {K} l (w : world K) :
  Forall is_byte l -> Z.of_nat (length l) < 2 ^ 31 ->
  pure (crc32 0 l (Z.of_nat (length l))) w = Ret (inr (node_crc l)) w.
Proof.
  intros Hl Hn. unfold pure, bind. rewrite crc32_spec by (done || lia).
  unfold slice. change (Z.to_nat 0) with O. by rewrite drop_0, Nat2Z.id, firstn_all.
Qed.

Lemma node_crc_range l : 0 <= node_crc l < 256 ^ 4.
Proof. apply crc_bytes_range. done. Qed.
End nodes.

(** Walks to a field of a concatenation. *)
Ltac node_field :=
  repeat first
    [ rewrite cpu_field_head by (done || lia || apply node_crc_range)
    | rewrite cpu_field_tail by (rewrite ?length_app, ?length_cpu_bytes; cbn [length]; lia);
      rewrite ?length_app, ?length_cpu_bytes; cbn [length Z.sub Z.add Z.opp Z.of_nat Z.pos_sub Pos.of_succ_nat] ].

Ltac node_slice :=
  repeat (rewrite slice_app_r by (rewrite ?length_cpu_bytes; cbn [length]; lia);
    rewrite ?length_cpu_bytes; cbn [length Z.sub Z.add Z.opp Z.of_nat Z.pos_sub Pos.of_succ_nat]).

Section written.
Context `{A : Arch} {K : Type}.

(** * The bytes of the nodes *)

Definition node_header_bytes (nodetype totlen : Z) : list Z :=
  let h := cpu_bytes 2 NODE_MAGIC ++ cpu_bytes 2 nodetype ++ cpu_bytes 4 totlen in
  h ++ cpu_bytes 4 (node_crc h).

Definition dirent_head (d : dirent) : list Z :=
  let n := Z.of_nat (length (de_name d)) in
  node_header_bytes JFFS2_NODETYPE_DIRENT (sizeof_raw_dirent + n) ++ cpu_bytes 4 (de_pino d) ++ cpu_bytes 4 (de_version d)
    ++ cpu_bytes 4 (de_ino d) ++ cpu_bytes 4 0 ++ [n; de_type d; 0; 0].
Definition dirent_bytes (d : dirent) : list Z :=
  dirent_head d ++ cpu_bytes 4 (node_crc (dirent_head d)) ++ cpu_bytes 4 (node_crc (de_name d)) ++ de_name d.

(** A directory entry whose fields fit. *)
Record dirent_ok (d : dirent) : Prop := {
  dok_pino : 0 <= de_pino d < 2 ^ 32;
  dok_version : 0 <= de_version d < 2 ^ 32;
  dok_ino : 0 <= de_ino d < 2 ^ 32;
  dok_type : is_byte (de_type d);
  dok_name : Forall is_byte (de_name d);
  dok_nsize : Z.of_nat (length (de_name d)) < 256
}.

Lemma length_node_header t n : length (node_header_bytes t n) = 12%nat.
Proof. unfold node_header_bytes. by rewrite !length_app, !length_cpu_bytes. Qed.

Lemma node_header_range t n : Forall is_byte (node_header_bytes t n).
Proof. unfold node_header_bytes. repeat apply Forall_app_2; apply cpu_bytes_range. Qed.

Lemma length_dirent_head d : length (dirent_head d) = 32%nat.
Proof. unfold dirent_head. by rewrite !length_app, length_node_header, !length_cpu_bytes. Qed.

Lemma length_dirent_bytes d : Z.of_nat (length (dirent_bytes d)) = sizeof_raw_dirent + Z.of_nat (length (de_name d)).
Proof.
  unfold dirent_bytes, sizeof_raw_dirent. rewrite !length_app, length_dirent_head, !length_cpu_bytes. lia.
Qed.

Lemma dirent_head_range d : dirent_ok d -> Forall is_byte (dirent_head d).
Proof.
  intros Hd. unfold dirent_head. apply Forall_app_2; [apply node_header_range|].
  repeat apply Forall_app_2; try apply cpu_bytes_range.
  repeat apply Forall_cons_2; try done; [|by apply Hd]. pose proof (dok_nsize d Hd). unfold is_byte. lia.
Qed.

Lemma node_header_run t n (w : world K) : node_header t n w = Ret (inr (node_header_bytes t n)) w.
Proof.
  unfold node_header, xbind, bind. set (h := cpu_bytes 2 NODE_MAGIC ++ cpu_bytes 2 t ++ cpu_bytes 4 n).
  assert (length h = 8%nat) as Hl by (unfold h; by rewrite !length_app, !length_cpu_bytes).
  change 8 with (Z.of_nat 8). rewrite <- Hl. rewrite crc_run; [done| |lia].
  unfold h. repeat apply Forall_app_2; apply cpu_bytes_range.
Qed.

Lemma dirent_node_run d (w : world K) :
  dirent_ok d -> dirent_node (de_name d) (de_type d) (de_pino d) (de_ino d) (de_version d) w = Ret (inr (dirent_bytes d)) w.
Proof.
  intros Hd. pose proof (dok_nsize d Hd). unfold dirent_node, xbind, bind.
  rewrite crc_run by (apply Hd || lia). rewrite node_header_run.
  unfold sizeof_raw_dirent. rewrite u32_small by lia. assert (u8 (Z.of_nat (length (de_name d))) = Z.of_nat (length (de_name d))) as ->
    by (unfold u8; apply Z.mod_small; lia).
  change (node_header_bytes _ _ ++ _) with (dirent_head d). change 32 with (Z.of_nat 32).
  rewrite <- (length_dirent_head d). rewrite crc_run; [done|by apply dirent_head_range|]. rewrite length_dirent_head. lia.
Qed.

Lemma decode_node_header t n rest :
  0 <= t < 2 ^ 16 -> decode_header t (node_header_bytes t n ++ rest) = true.
Proof.
  intros Ht. unfold decode_header, node_header_bytes.
  set (h := cpu_bytes 2 NODE_MAGIC ++ cpu_bytes 2 t ++ cpu_bytes 4 n).
  assert (length h = 8%nat) as Hl by (unfold h; by rewrite !length_app, !length_cpu_bytes).
  rewrite <- (app_assoc h). rewrite (slice_head h) by lia. rewrite (cpu_field_tail h _ 8) by lia. rewrite Hl.
  rewrite cpu_field_head by (done || apply node_crc_range). unfold h. rewrite <- !app_assoc. node_field.
  by rewrite !Z.eqb_refl.
Qed.

Lemma header_totlen t n rest : 0 <= n < 2 ^ 32 -> cpu_field (node_header_bytes t n ++ rest) 4 4 = n.
Proof. intros Hn. unfold node_header_bytes. rewrite <- !app_assoc. by node_field. Qed.

Lemma dirent_bytes_sizes d rest :
  slice (dirent_head d ++ rest) 28 1 = [Z.of_nat (length (de_name d))] /\ slice (dirent_head d ++ rest) 29 1 = [de_type d].
Proof. unfold dirent_head, node_header_bytes. rewrite <- !app_assoc. split; by node_slice. Qed.

(** A directory entry can be read back. *)
Lemma decode_dirent_bytes d rest : dirent_ok d -> decode_dirent (dirent_bytes d ++ rest) = Some d.
Proof.
  intros Hd. pose proof (dok_nsize d Hd) as Hn. destruct Hd as [Hp Hv Hi Ht Hb _]. set (n := Z.of_nat (length (de_name d))) in *.
  unfold decode_dirent, dirent_bytes. rewrite <- !app_assoc.
  set (tail := cpu_bytes 4 (node_crc (dirent_head d)) ++ cpu_bytes 4 (node_crc (de_name d)) ++ de_name d ++ rest).
  rewrite (slice_head (dirent_head d)) by (by rewrite length_dirent_head).
  pose proof (length_dirent_head d) as Hh.
  destruct (dirent_bytes_sizes d tail) as [-> ->]. fold n.
  assert (slice (dirent_head d ++ tail) 40 n = de_name d) as Hname.
  { unfold tail. rewrite (slice_app_r (dirent_head d)), Hh by lia. node_slice. by apply slice_head. }
  cbn [le_val]. rewrite !Z.mul_0_r, !Z.add_0_r, Hname.
  assert (cpu_field (dirent_head d ++ tail) 32 4 = node_crc (dirent_head d)
    /\ cpu_field (dirent_head d ++ tail) 36 4 = node_crc (de_name d)) as [-> ->].
  { unfold tail. rewrite !(cpu_field_tail (dirent_head d)), Hh by lia. split; by node_field. }
  assert (cpu_field (dirent_head d ++ tail) 12 4 = de_pino d /\ cpu_field (dirent_head d ++ tail) 16 4 = de_version d
    /\ cpu_field (dirent_head d ++ tail) 20 4 = de_ino d) as (-> & -> & ->).
  { unfold dirent_head, node_header_bytes. rewrite <- !app_assoc. split_and!; by node_field. }
  rewrite !Z.eqb_refl. clear Hh Hname. unfold dirent_head. fold n. rewrite <- !app_assoc.
  rewrite decode_node_header, header_totlen, Z.eqb_refl by (unfold sizeof_raw_dirent; done || lia). by destruct d.
Qed.

(** * Inodes *)

Definition inode_head (ri : raw_inode) : list Z :=
  node_header_bytes JFFS2_NODETYPE_INODE (sizeof_raw_inode + ri_dsize ri)
    ++ cpu_bytes 4 (ri_ino ri) ++ cpu_bytes 4 (ri_version ri) ++ cpu_bytes 4 (ri_mode ri)
    ++ cpu_bytes 2 0 ++ cpu_bytes 2 0 ++ cpu_bytes 4 (ri_isize ri)
    ++ cpu_bytes 4 (ri_atime ri) ++ cpu_bytes 4 (ri_mtime ri) ++ cpu_bytes 4 (ri_ctime ri)
    ++ cpu_bytes 4 (ri_offset ri) ++ cpu_bytes 4 (ri_dsize ri) ++ cpu_bytes 4 (ri_dsize ri)
    ++ [0; 0] ++ cpu_bytes 2 0.
Definition inode_bytes (ri : raw_inode) (data_crc : Z) : list Z :=
  inode_head ri ++ cpu_bytes 4 data_crc ++ cpu_bytes 4 (node_crc (inode_head ri)).

Record inode_ok (ri : raw_inode) : Prop := {
  iok_fields : Forall (fun v => 0 <= v < 2 ^ 32)
    [ri_ino ri; ri_version ri; ri_mode ri; ri_isize ri; ri_atime ri; ri_mtime ri; ri_ctime ri; ri_offset ri];
  iok_dsize : 0 <= ri_dsize ri <= 4096
}.

Lemma length_inode_head ri : length (inode_head ri) = 60%nat.
Proof. unfold inode_head. by rewrite !length_app, length_node_header, !length_cpu_bytes. Qed.

Lemma inode_head_range ri : Forall is_byte (inode_head ri).
Proof.
  unfold inode_head. apply Forall_app_2; [apply node_header_range|].
  repeat apply Forall_app_2; try apply cpu_bytes_range. by repeat apply Forall_cons_2.
Qed.

Lemma inode_node_run ri crc (w : world K) :
  inode_ok ri -> inode_node ri crc w = Ret (inr (inode_bytes ri crc)) w.
Proof.
  intros [_ Hs]. unfold inode_node, xbind, bind. rewrite node_header_run.
  unfold sizeof_raw_inode. rewrite u32_small by lia.
  change (node_header_bytes _ _ ++ _) with (inode_head ri). change 60 with (Z.of_nat 60).
  rewrite <- (length_inode_head ri). rewrite crc_run; [done|apply inode_head_range|]. rewrite length_inode_head. lia.
Qed.

(** An inode can be read back with the data behind it. *)
Lemma decode_inode_bytes ri data rest :
  inode_ok ri -> Forall is_byte data -> Z.of_nat (length data) = ri_dsize ri ->
  decode_inode (inode_bytes ri (node_crc data) ++ data ++ rest) = Some (ri, data).
Proof.
  intros [Hf Hs] Hb Hl. repeat match goal with Hx : Forall _ (_ :: _) |- _ => apply Forall_cons_1 in Hx as [? Hx] end.
  unfold decode_inode, inode_bytes. rewrite <- !app_assoc. pose proof (length_inode_head ri) as Hh.
  set (tail := cpu_bytes 4 (node_crc data) ++ cpu_bytes 4 (node_crc (inode_head ri)) ++ data ++ rest).
  rewrite (slice_head (inode_head ri)) by lia.
  assert (cpu_field (inode_head ri ++ tail) 60 4 = node_crc data
    /\ cpu_field (inode_head ri ++ tail) 64 4 = node_crc (inode_head ri)) as [-> ->].
  { unfold tail. rewrite !(cpu_field_tail (inode_head ri)), Hh by lia. split; by node_field. }
  assert (Forall (fun '(o, v) => cpu_field (inode_head ri ++ tail) o 4 = v)
    [(12, ri_ino ri); (16, ri_version ri); (20, ri_mode ri); (28, ri_isize ri); (32, ri_atime ri); (36, ri_mtime ri);
     (40, ri_ctime ri); (44, ri_offset ri); (48, ri_dsize ri); (52, ri_dsize ri)]) as Hfield.
  { unfold inode_head, node_header_bytes. rewrite <- !app_assoc. repeat apply Forall_cons_2; try by node_field. }
  repeat match goal with Hx : Forall _ (_ :: _) |- _ => apply Forall_cons_1 in Hx as [E Hx]; try rewrite !E; clear E end.
  assert (slice (inode_head ri ++ tail) 68 (ri_dsize ri) = data) as ->.
  { unfold tail. rewrite (slice_app_r (inode_head ri)), Hh by lia. node_slice. by apply slice_head. }
  assert (slice (inode_head ri ++ tail) 56 1 = [0]) as ->.
  { unfold inode_head, node_header_bytes. rewrite <- !app_assoc. by node_slice. }
  rewrite !Z.eqb_refl. clear Hh Hfield. unfold inode_head. rewrite <- !app_assoc.
  rewrite decode_node_header, header_totlen, Z.eqb_refl by (unfold sizeof_raw_inode; done || lia). by destruct ri.
Qed.

(** * The tool's own parser *)

Lemma strncmp_same (name : list Z) rest (w : world K) : strncmp_eq (length name) (name ++ rest) name w = Ret (inr true) w.
Proof.
  induction name as [|c name IH]; [done|]. cbn [strncmp_eq length app]. rewrite Z.eqb_refl. cbn [negb].
  by destruct (c =? 0).
Qed.

Lemma str_bytes_range s : Forall is_byte (str_bytes s).
Proof.
  apply Forall_forall. intros x (c & -> & _)%list_elem_of_fmap. pose proof (nat_ascii_bounded c). unfold is_byte. lia.
Qed.

Lemma length_str_bytes s : length (str_bytes s) = String.length s.
Proof.
  unfold str_bytes. rewrite length_fmap. induction s; cbn; [done|]. by f_equal.
Qed.

(** What the reader has found in a directory entry. *)
Lemma decode_dirent_fields b d : decode_dirent b = Some d ->
  cpu_field b 0 2 = NODE_MAGIC /\ cpu_field b 2 2 = JFFS2_NODETYPE_DIRENT /\
  cpu_field b 4 4 = sizeof_raw_dirent + le_val (slice b 28 1) /\
  cpu_field b 12 4 = de_pino d /\ cpu_field b 16 4 = de_version d /\ cpu_field b 20 4 = de_ino d /\
  slice b 40 (le_val (slice b 28 1)) = de_name d.
Proof.
  unfold decode_dirent, decode_header. destruct (_ && _) eqn:E; [|done]. intros Ed. injection Ed as <-.
  repeat apply andb_true_iff in E as [E ?]. repeat match goal with Hx : (_ =? _) = true |- _ => apply Z.eqb_eq in Hx end.
  cbn [de_pino de_version de_ino de_name]. done.
Qed.

Lemma cpu_field_of_slice (b : list Z) ofs n o l :
  0 <= ofs -> 0 <= o -> 0 <= l -> o + l <= n -> cpu_field (slice b ofs n) o l = cpu_field (drop (Z.to_nat ofs) b) o l.
Proof.
  intros. unfold cpu_field, be_field, le_field. rewrite slice_slice by lia.
  assert (slice b (ofs + o) l = slice (drop (Z.to_nat ofs) b) o l) as ->; [|done].
  unfold slice. rewrite drop_drop. do 2 f_equal. lia.
Qed.

Lemma PAD_id x : 0 <= x -> x + 3 < 2 ^ 32 -> x <= PAD x < x + 4.
Proof.
  intros Hx Hs. unfold PAD. rewrite u32_small by lia.
  assert (Z.land (x + 3) 0xfffffffc = (x + 3) - (x + 3) mod 4) as ->; [|pose proof (Z.mod_pos_bound (x + 3) 4); lia].
  assert (Z.land (x + 3) 0xfffffffc = Z.ldiff (x + 3) (Z.ones 2)) as ->.
  { apply Z.bits_inj'. intros i Hi. rewrite Z.land_spec, Z.ldiff_spec, Z.testbit_ones_nonneg by lia.
    destruct (Z_lt_le_dec i 32) as [Hi32|Hi32].
    - f_equal. assert (i = 0 \/ i = 1 \/ 2 <= i) as [->|[->|H2]] by lia; [done..|].
      destruct (Z.ltb_spec i 2); [lia|]. change 0xfffffffc with (Z.shiftl (Z.ones 30) 2).
      rewrite Z.shiftl_spec, Z.testbit_ones_nonneg by lia. cbn [negb]. apply Z.ltb_lt. lia.
    - rewrite (Z.bits_above_log2 (x + 3)); [done|lia|].
      apply Z.log2_lt_pow2; [lia|]. assert (2 ^ 32 <= 2 ^ i) by (apply Z.pow_le_mono_r; lia). lia. }
  rewrite Z.ldiff_ones_r, Z.shiftl_mul_pow2, Z.shiftr_div_pow2 by lia.
  pose proof (Z.div_mod (x + 3) 4 ltac:(lia)). change (2 ^ 2) with 4. lia.
Qed.

(** The parser at a directory entry with the name it looks for, in the root directory. *)
Lemma parse_dirent_spec b dir ofs d rest e (w : world K) E (Q : Z + unit -> world K -> Prop) :
  drop (Z.to_nat ofs) b = dirent_bytes d ++ rest -> dirent_ok d -> erasesize (t_dev (w_tool w)) = e ->
  0 <= ofs -> ofs < e < 2 ^ 31 -> dir <> EmptyString -> de_pino d = 1 -> de_name d = str_bytes dir ->
  de_ino d < 2 ^ 31 -> de_version d < 2 ^ 31 ->
  0 <= last_ino (t_jffs2 (w_tool w)) < 2 ^ 31 -> 0 <= last_version (t_jffs2 (w_tool w)) < 2 ^ 31 ->
  (forall w', w_os w' = w_os w -> target_ino (t_jffs2 (w_tool w')) = de_ino d ->
     last_ino (t_jffs2 (w_tool w')) = Z.max (last_ino (t_jffs2 (w_tool w))) (de_ino d) ->
     last_version (t_jffs2 (w_tool w')) = Z.max (last_version (t_jffs2 (w_tool w))) (de_version d) ->
     Q (inl (ofs + PAD (sizeof_raw_dirent + Z.of_nat (length (de_name d))))) w') ->
  xwp (parse_node b dir ofs) E Q w.
Proof.
  intros Hdrop Hd He Hofs Hin Hdir Hpino Hname Hino Hver Hli Hlv HQ. pose proof (dok_nsize d Hd) as Hn.
  destruct (decode_dirent_fields _ _ (decode_dirent_bytes d rest Hd)) as (F0 & F2 & F4 & F12 & F16 & F20 & Fn).
  assert (slice (dirent_bytes d ++ rest) 28 1 = [Z.of_nat (length (de_name d))]) as Hns.
  { unfold dirent_bytes. rewrite <- app_assoc. apply dirent_bytes_sizes. }
  rewrite Hns in *. cbn [le_val] in *. rewrite Z.mul_0_r, Z.add_0_r in *.
  assert (Z.of_nat (length b) >= ofs + 40 + Z.of_nat (length (de_name d))) as Hlen.
  { assert (length (drop (Z.to_nat ofs) b) = length (dirent_bytes d ++ rest)) as Hl by by rewrite Hdrop.
    pose proof (length_dirent_bytes d) as Hb. unfold sizeof_raw_dirent in Hb. rewrite length_drop, length_app in Hl. lia. }
  unfold parse_node. apply xwp_bind, xwp_get. rewrite He, u32_small by lia. destruct (Z.geb_spec ofs e); [lia|].
  apply xwp_bind, xwp_load; [lia|lia|lia|]. rewrite cpu_field_of_slice, Hdrop, F0 by lia. cbn [negb Z.eqb]. rewrite Z.eqb_refl. cbn [negb].
  apply xwp_bind, xwp_load; [lia|lia|lia|]. rewrite !cpu_field_of_slice, Hdrop, F2, F4, Z.eqb_refl by lia. cbn [negb].
  apply xwp_bind, xwp_load; [lia|lia|lia|]. rewrite !cpu_field_of_slice, Hdrop, F12, F16, F20, Hpino by lia.
  rewrite (proj2 (String.eqb_neq dir EmptyString) Hdir), Z.eqb_refl. cbn [negb andb].
  apply xwp_bind, xwp_bind, xwp_load; [lia|lia|lia|].
  assert (slice b (ofs + 28) 1 = [Z.of_nat (length (de_name d))]) as ->.
  { rewrite <- Hns, <- Hdrop. unfold slice. rewrite drop_drop. do 2 f_equal. lia. }
  cbn [le_val]. rewrite Z.mul_0_r, Z.add_0_r, Nat2Z.id.
  assert (drop (Z.to_nat (ofs + sizeof_raw_dirent)) b = str_bytes dir ++ rest) as ->.
  { unfold sizeof_raw_dirent. replace (Z.to_nat (ofs + 40)) with (Z.to_nat ofs + 40)%nat by lia.
    rewrite <- drop_drop, Hdrop, <- Hname. unfold dirent_bytes. rewrite <- !app_assoc, !(app_assoc _ _ (de_name d ++ rest)).
    apply drop_app_length'. by rewrite !length_app, length_dirent_head, !length_cpu_bytes. }
  rewrite Hname. eapply wp_intro; [apply strncmp_same|]. cbn beta iota. rewrite <- Hname.
  destruct Hd as [_ Hv Hi _ _ _]. do 3 (apply xwp_bind, xwp_put). apply xwp_ret. rewrite !i32_small by lia.
  pose proof (PAD_id (sizeof_raw_dirent + Z.of_nat (length (de_name d)))) as Hpad. unfold sizeof_raw_dirent in *.
  rewrite u32_small by lia. destruct w as [[dev img opt [li lv jb jo ofd mo ti]] os].
  cbn -[u32 PAD Z.ltb Z.max] in Hli, Hlv |- *.
  apply HQ; cbn -[u32 Z.ltb Z.max]; [done|..]; rewrite (u32_small li) by lia; destruct (Z.ltb_spec li (de_ino d)); cbn -[u32 Z.ltb Z.max];
    rewrite (u32_small lv) by lia; destruct (Z.ltb_spec lv (de_version d)); cbn -[Z.max]; lia.
Qed.
End written.
