(* ===== verification/ToolSim.v ===== *)
(** A concrete machine for the flash tool: flash devices, files and open files, with the
    failures of erasing and writing that a scenario asks for.  It satisfies the laws of the
    system calls. *)

From stdpp Require Import base list numbers strings gmap.
From Stdlib Require Import ZArith Lia.
From S2P Require Import Prelude Platform CStrings ToolOs ToolMd5 ToolOsSpec.
Local Open Scope Z_scope.

Record machine := mk_machine {
  m_view : view;
  m_paths : gmap string vfd;       (* what opening a path gives, at the start of the file *)
  m_mtd_lines : list string;       (* [/proc/mtd] *)
  m_erase_fails : list Z;          (* offsets of the blocks that cannot be erased *)
  m_write_fails : list Z;          (* offsets at which a write fails *)
  m_out : list Z                   (* bytes written to other files *)
}.

#[export] Instance machine_view : OsView machine := m_view.

Definition with_view (v : view) (m : machine) : machine :=
  mk_machine v (m_paths m) (m_mtd_lines m) (m_erase_fails m) (m_write_fails m) (m_out m).

(** A file descriptor that is not in use. *)
Definition free_fd (v : view) : Z := map_fold (fun fd _ n => Z.max (fd + 1) n) 3 (v_fds v).

Definition lookup_flash (v : view) (fd : Z) : option (string * flash * Z) :=
  match v_fds v !! fd with
  | Some (FdFlash d p) => match v_flash v !! d with Some f => Some (d, f, p) | None => None end
  | _ => None
  end.

Definition sim_open (path : string) (m : machine) : Z * machine :=
  let v := m_view m in
  match m_paths m !! path with
  | Some (FdFlash d _) =>
      match v_flash v !! d with
      | Some _ => (free_fd v, with_view (set_fds (<[free_fd v := FdFlash d 0]> (v_fds v)) v) m)
      | None => (-1, m)
      end
  | Some h => (free_fd v, with_view (set_fds (<[free_fd v := h]> (v_fds v)) v) m)
  | None => (-1, m)
  end.

Definition sim_read (fd n : Z) (m : machine) : (Z + list Z) * machine :=
  let v := m_view m in
  match v_fds v !! fd with
  | Some (FdStream rest i) =>
      match i with
      | S i => (inl EINTR, with_view (set_fds (<[fd := FdStream rest i]> (v_fds v)) v) m)
      | O => (inr (take (Z.to_nat n) rest),
              with_view (set_fds (<[fd := FdStream (drop (Z.to_nat n) rest) 0]> (v_fds v)) v) m)
      end
  | Some (FdFlash d p) =>
      match v_flash v !! d with
      | Some f =>
          let bytes := slice (f_data f) p n in
          (inr bytes, with_view (set_pos fd d (p + Z.of_nat (length bytes)) v) m)
      | None => (inl EIO, m)
      end
  | _ => (inl EIO, m)
  end.

(** Storing bytes on a device: whether it is done, and the device after it. *)
Definition sim_program (m : machine) (f : flash) (p : Z) (bytes : list Z) : bool * flash :=
  if negb (v_reliable (m_view m)) && bool_decide (p ∈ m_write_fails m) then (false, f)
  else if p + Z.of_nat (length bytes) <=? f_size f then (true, set_data (blit (f_data f) p bytes) f)
  else (false, f).

Definition sim_write (fd : Z) (bytes : list Z) (m : machine) : Z * machine :=
  match lookup_flash (m_view m) fd with
  | Some (d, f, p) =>
      let '(ok, f') := sim_program m f p bytes in
      let n := Z.of_nat (length bytes) in
      (if ok then n else -1,
       with_view (set_pos fd d (if ok then p + n else p) (set_flash d f' (m_view m))) m)
  | None => (Z.of_nat (length bytes),
             mk_machine (m_view m) (m_paths m) (m_mtd_lines m) (m_erase_fails m) (m_write_fails m) (m_out m ++ bytes))
  end.

Definition sim_pread (fd n off : Z) (m : machine) : (Z + list Z) * machine :=
  match lookup_flash (m_view m) fd with
  | Some (d, f, p) => (inr (slice (f_data f) off n), m)
  | None => (inl EIO, m)
  end.

Definition sim_pwrite (fd : Z) (bytes : list Z) (off : Z) (m : machine) : Z * machine :=
  match lookup_flash (m_view m) fd with
  | Some (d, f, p) =>
      let '(ok, f') := sim_program m f off bytes in
      (if ok then Z.of_nat (length bytes) else -1, with_view (set_flash d f' (m_view m)) m)
  | None => (-1, m)
  end.

Definition sim_getinfo (fd : Z) (m : machine) : option mtd_info_user * machine :=
  (match lookup_flash (m_view m) fd with Some (_, f, _) => Some (f_info f) | None => None end, m).

Definition sim_getbadblock (fd o : Z) (m : machine) : Z * machine :=
  (match lookup_flash (m_view m) fd with
   | Some (_, f, _) =>
       if (0 <=? o) && (o <? f_size f) then if bool_decide (o ∈ f_bad f) then 1 else 0 else -1
   | None => -1
   end, m).

Definition sim_erase (fd s l : Z) (m : machine) : Z * machine :=
  match lookup_flash (m_view m) fd with
  | Some (d, f, _) =>
      let bad := negb (v_reliable (m_view m)) && bool_decide (s ∈ m_erase_fails m) in
      if negb bad && (s mod f_eb f =? 0) && (l mod f_eb f =? 0) && (s + l <=? f_size f)
      then (0, with_view (set_flash d (set_data (blit (f_data f) s (replicate (Z.to_nat l) 0xff)) f) (m_view m)) m)
      else (-1, with_view (set_flash d f (m_view m)) m)
  | None => (-1, m)
  end.

(** The bytes of a file that opening its path would give. *)
Definition sim_file (path : string) (m : machine) : option (list Z) :=
  match m_paths m !! path with Some (FdStream l _) => Some l | _ => None end.

#[export] Instance machine_os : Os machine := {|
  proc_mtd m := Some (m_mtd_lines m);
  sys_open path _ := sim_open path;
  sys_close fd m := with_view (set_fds (delete fd (v_fds (m_view m))) (m_view m)) m;
  sys_stat path m :=
    (match sim_file path m with Some l => Some (mk_stat 0x81a4 (Z.of_nat (length l)) 0 0 0) | None => None end, m);
  sys_lseek fd off wh m :=
    match lookup_flash (m_view m) fd with
    | Some (d, f, p) =>
        let t := match wh with SEEK_SET => off | SEEK_CUR => p + off end in
        if (0 <=? t) && (t <=? f_size f) then with_view (set_pos fd d t (m_view m)) m else m
    | None => m
    end;
  sys_read := sim_read;
  sys_write := sim_write;
  sys_pread := sim_pread;
  sys_pwrite := sim_pwrite;
  mem_getinfo := sim_getinfo;
  mem_getbadblock := sim_getbadblock;
  mem_unlock _ _ _ m := (0, m);
  mem_erase := sim_erase;
  sys_mmap fd n m :=
    (match lookup_flash (m_view m) fd with Some (_, f, _) => Some (take (Z.to_nat n) (f_data f)) | None => None end, m);
  sys_msync fd b m :=
    match lookup_flash (m_view m) fd with
    | Some (d, f, _) => with_view (set_flash d (set_data (blit (f_data f) 0 b) f) (m_view m)) m
    | None => m
    end;
  sys_malloc n m := (if n <? 2 ^ 31 then Some (replicate (Z.to_nat n) 0) else None, m);
  stack_bytes n _ := replicate (Z.to_nat n) 0;
  sys_sync m := m;
  sys_reboot m := m;
  md5sum_file path m := (md5_ref <$> sim_file path m, m);
  md5_bytes := md5_ref;
  strtoul s := (scan_digits s 0, false)
|}.

(** * The laws *)

Lemma free_fd_fresh v : v_fds v !! free_fd v = None.
Proof.
  unfold free_fd.
  assert (forall fd h, v_fds v !! fd = Some h -> fd < map_fold (fun fd (_ : vfd) n => Z.max (fd + 1) n) 3 (v_fds v)) as Hlt.
  { apply (map_fold_weak_ind (fun n (m : gmap Z vfd) => forall fd h, m !! fd = Some h -> fd < n)).
    - intros fd h. by rewrite lookup_empty.
    - intros i x m r Hi IH fd h [[<- <-]|[Hne Hm]]%lookup_insert_Some; [lia|].
      specialize (IH fd h Hm). lia. }
  destruct (v_fds v !! _) as [h|] eqn:E; [|done]. apply Hlt in E. lia.
Qed.

Lemma free_fd_nonneg v : 0 <= free_fd v.
Proof.
  unfold free_fd. apply (map_fold_weak_ind (fun n (_ : gmap Z vfd) => 0 <= n)); [lia|]. intros. lia.
Qed.

Lemma lookup_flash_at v fd d f p : flash_at v fd d f p <-> lookup_flash v fd = Some (d, f, p).
Proof.
  unfold flash_at, lookup_flash. split.
  - by intros [-> ->].
  - intros H. destruct (v_fds v !! fd) as [[d' p'| |]|]; try done.
    destruct (v_flash v !! d') as [f'|] eqn:E; [|done]. by injection H as <- <- <-.
Qed.

Lemma set_flash_same v fd d f p : flash_at v fd d f p -> set_flash d f v = v.
Proof. intros [_ Hd]. unfold set_flash. rewrite insert_id by done. by destruct v. Qed.

Lemma sim_program_spec m f p bytes ok f' :
  flash_ok f -> 0 <= p -> sim_program m f p bytes = (ok, f') ->
  programmed f p bytes f' ok /\
  (ok = false -> v_reliable (m_view m) = true -> f_size f < p + Z.of_nat (length bytes)).
Proof.
  intros Hok Hp. unfold sim_program. pose proof (fo_length f Hok).
  assert (programmed f p bytes f false) as Hkeep.
  { exists (f_data f). split; [by destruct f|]. by split_and!. }
  destruct (negb _ && _) eqn:Hf.
  { intros E. injection E as <- <-. split; [done|]. intros _ Hr. by rewrite Hr in Hf. }
  destruct (Z.leb_spec (p + Z.of_nat (length bytes)) (f_size f)); intros E; injection E as <- <-.
  - split; [|done]. exists (blit (f_data f) p bytes). split_and!; [done| | |done].
    + intros Hd Hb. unfold blit. repeat apply Forall_app_2; [by apply Forall_take|done|by apply Forall_drop].
    + split; [apply length_blit; lia|]. intros i Hi Hout. unfold blit.
      destruct Hout.
      * rewrite lookup_app_l by (rewrite length_take; lia). apply lookup_take_lt. lia.
      * rewrite app_assoc, lookup_app_r by (rewrite length_app, length_take; lia).
        rewrite lookup_drop. f_equal. rewrite length_app, length_take. lia.
  - split; [done|]. intros. lia.
Qed.

Lemma sim_erase_spec fd s l m d f p r m' :
  flash_at (m_view m) fd d f p -> flash_ok f -> 0 <= s -> 0 <= l -> sim_erase fd s l m = (r, m') ->
  exists f', m_view m' = set_flash d f' (m_view m) /\ erased f s l f' (0 <=? r) /\
    (0 <= r -> s + l <= f_size f) /\
    (r < 0 -> v_reliable (m_view m) = true -> (f_eb f | s) -> (f_eb f | l) -> f_size f < s + l).
Proof.
  intros Hat Hok Hs Hl. unfold sim_erase. rewrite (proj1 (lookup_flash_at _ _ _ _ _) Hat).
  pose proof (fo_length f Hok). pose proof (fo_eb f Hok).
  destruct (_ && _ && _ && _) eqn:Hc; intros E; injection E as <- <-; cbn [m_view with_view].
  - apply andb_true_iff in Hc as [_ Hin%Z.leb_le].
    exists (set_data (blit (f_data f) s (replicate (Z.to_nat l) 0xff)) f). split_and!; [done| |lia|lia].
    assert (Z.of_nat (length (replicate (Z.to_nat l) 0xff)) = l) as Hrl by (rewrite length_replicate; lia).
    destruct (sim_program_spec (with_view (mk_view ∅ ∅ true) m) f s (replicate (Z.to_nat l) 0xff) true
      (set_data (blit (f_data f) s (replicate (Z.to_nat l) 0xff)) f) Hok Hs) as [(b & Eb & Hb & Hsame & _) _].
    { unfold sim_program. cbn. rewrite Hrl. by rewrite (proj2 (Z.leb_le _ _) Hin). }
    exists b. injection Eb as <-. rewrite Hrl in Hsame. split_and!; [done| |done|done].
    intros Hd. apply Hb; [done|]. by apply Forall_replicate.
  - exists f. split_and!; [done| |lia|].
    + exists (f_data f). split_and!; [by destruct f|done|done|done].
    + intros _ Hr [a ->] [b ->]. rewrite Hr in Hc. cbn [negb andb] in Hc. rewrite !Z.mod_mul in Hc by lia.
      cbn in Hc. apply Z.leb_gt in Hc. lia.
Qed.

Lemma sim_read_spec fd n m rest i r m' :
  v_fds (m_view m) !! fd = Some (FdStream rest i) -> 0 < n -> sim_read fd n m = (r, m') ->
  exists rest' i', m_view m' = set_fds (<[fd := FdStream rest' i']> (v_fds (m_view m))) (m_view m) /\
  match r with
  | inl e => (e = EINTR \/ e = EAGAIN) /\ rest' = rest /\ (i' < i)%nat
  | inr bytes => rest = bytes ++ rest' /\ Z.of_nat (length bytes) <= n /\ (i' <= i)%nat /\ (bytes = [] -> rest = [])
  end.
Proof.
  intros Hfd Hn. unfold sim_read. rewrite Hfd. destruct i as [|i]; intros E; injection E as <- <-.
  - exists (drop (Z.to_nat n) rest), O. split_and!; [done|by rewrite take_drop| |done|].
    + rewrite length_take. lia.
    + destruct rest; [done|]. by destruct (Z.to_nat n) eqn:?; [lia|].
  - exists rest, i. split_and!; [done|by left|done|lia].
Qed.

#[export] Instance machine_laws : OsLaws machine.
Proof.
  split; unfold view_of, machine_view.
  - intros path w k r k'. cbn. unfold sim_open.
    destruct (m_paths k !! path) as [[d p|rest i|]|] eqn:Ep; [destruct (v_flash (m_view k) !! d) eqn:Ed|..];
      intros E; injection E as <- <-; try (left; split; [lia|done]);
      right; (split; [apply free_fd_nonneg|]); (split; [apply free_fd_fresh|]); eexists; split; try done; by rewrite Ed.
  - done.
  - intros fd k r k'. cbn. unfold sim_getinfo. intros E. injection E as <- <-. split_and!; [done| |].
    + intros info. destruct (lookup_flash (m_view k) fd) as [[[d f] p]|] eqn:El; [|done].
      intros E. injection E as <-. exists d, f, p. split; [by apply lookup_flash_at|done].
    + intros d f p Hat%lookup_flash_at _. by rewrite Hat.
  - intros fd off wh k d f p Hat Ht. cbn. rewrite (proj1 (lookup_flash_at _ _ _ _ _) Hat).
    rewrite (proj2 (Z.leb_le _ _)), (proj2 (Z.leb_le _ _)) by apply Ht. done.
  - intros. by eapply sim_read_spec.
  - intros fd n k d f p r k' Hat _ Hn. cbn. unfold sim_read. destruct Hat as [-> ->].
    intros E. by injection E as <- <-.
  - intros fd n k r k'. cbn. unfold sim_read.
    destruct (v_fds (m_view k) !! fd) as [[d p|rest [|i]|]|]; [destruct (v_flash (m_view k) !! d)|..];
      intros E; by injection E as <- <-.
  - intros fd bytes k d f p r k' Hat Hok Hp. cbn. unfold sim_write.
    rewrite (proj1 (lookup_flash_at _ _ _ _ _) Hat).
    destruct (sim_program k f p bytes) as [ok f'] eqn:Epr. intros E. injection E as <- <-.
    destruct (sim_program_spec _ _ _ _ _ _ Hok Hp Epr) as [Hpr Hrel].
    split; [destruct ok; lia|]. exists f', (if ok then p + Z.of_nat (length bytes) else p).
    destruct ok; [rewrite Z.eqb_refl|]; (split_and!; [done| |lia|]).
    + done.
    + lia.
    + destruct (Z.eqb_spec (-1) (Z.of_nat (length bytes))); [lia|done].
    + intros _ Hr. by apply Hrel.
  - intros fd n off k d f p r k' Hat _ Hn Ho. cbn. unfold sim_pread.
    rewrite (proj1 (lookup_flash_at _ _ _ _ _) Hat). intros E. by injection E as <- <-.
  - intros fd bytes off k d f p r k' Hat Hok Ho. cbn. unfold sim_pwrite.
    rewrite (proj1 (lookup_flash_at _ _ _ _ _) Hat).
    destruct (sim_program k f off bytes) as [ok f'] eqn:Epr. intros E. injection E as <- <-.
    destruct (sim_program_spec _ _ _ _ _ _ Hok Ho Epr) as [Hpr Hrel].
    split; [destruct ok; lia|]. exists f'.
    destruct ok; [rewrite Z.eqb_refl|]; (split_and!; [done| |]).
    + done.
    + lia.
    + destruct (Z.eqb_spec (-1) (Z.of_nat (length bytes))); [lia|done].
    + intros _ Hr. by apply Hrel.
  - intros fd o k d f p r k' Hat. cbn. unfold sim_getbadblock.
    rewrite (proj1 (lookup_flash_at _ _ _ _ _) Hat). intros E. injection E as <- <-.
    destruct (Z.leb_spec 0 o), (Z.ltb_spec o (f_size f)); cbn [andb]; repeat case_bool_decide;
      split_and!; try done; intros; lia.
  - intros fd s l k r k' E. by injection E as <- <-.
  - intros. by eapply sim_erase_spec.
  - intros n k r k' Hn. cbn. destruct (Z.ltb_spec n (2 ^ 31)); intros E; injection E as <- <-; (split_and!; [done| |]); try done.
    intros b E. injection E as <-. split; [rewrite length_replicate; lia|by apply Forall_replicate].
  - intros n k. cbn. split; [apply length_replicate|by apply Forall_replicate].
  - done.
  - done.
  - intros path k r k' E. by injection E as <- <-.
  - intros path k r k' E. by injection E as <- <-.
Qed.
