(* ===== verification/ToolTheorems.v ===== *)
(** What the flash tool guarantees. *)

From stdpp Require Import base list numbers strings gmap.
From Stdlib Require Import ZArith Lia Ascii.
From S2P Require Import Prelude Platform Bytes ToolOs ToolCrc ToolMd5 ToolMd5Spec.
From S2P Require Import ToolFix ToolFlags ToolJffs2 ToolMtd ToolOsSpec ToolWriteSpec ToolFixSpec ToolFlagsSpec ToolTrxSpec ToolCmdSpec ToolKeepSpec ToolJffs2Spec.
Local Open Scope Z_scope.
Local Open Scope cprog_scope.

(** C5: [mtd_write] puts an image where it belongs.  [mtd] names one device, [f] with fd
    [fd] once it is open; the image is what [buf] holds already and what [imagefd] delivers,
    in pieces of any size and with interruptions.  If the tool returns, the device holds
    exactly the reference placement (without a part offset and the options [-n], [-j], [-t]): the image on the good blocks in order, padded to a whole
    block with ones, and everything else as it was.  If it exits, the code is 1 and the bad
    blocks have not been touched; on hardware without failures that happens only when the
    image does not fit. *)
Theorem mtd_write_stores `{A : Arch} `{!ArchLaws A} {K : Type} `{L : OsLaws K}
    (tg : target) fuel imagefd mtd (w w1 : world K) fd d f b bl rest m :
  devices mtd = [mtd] -> mtd_check_open mtd w = Ret (inr fd) w1 -> 0 <= fd ->
  t_dev (w_tool w1) = dev_vars f -> flash_at (view_of (w_os w1)) fd d f 0 -> flash_ok f ->
  no_erase (t_opt (w_tool w1)) = false -> jffs2file (t_opt (w_tool w1)) = None ->
  tpl_uboot_args_part (t_opt (w_tool w1)) = None ->
  imagefd <> fd -> image_at imagefd f b bl rest m w1 -> image_left b bl rest <> [] ->
  (Z.to_nat (f_size f) + m < fuel)%nat ->
  let img := image_left b bl rest in
  xwp (mtd_write tg fuel imagefd mtd 0)
    (write_exit d f img (v_reliable (view_of (w_os w1))))
    (fun r w' => r = 0 /\ Z.of_nat (length img) <= room (f_ebn f) (bad_flags f) /\
       v_flash (view_of (w_os w')) !! d =
         Some (set_data (place (f_ebn f) (bad_flags f) (f_data f) img) f)) w.
Proof.
  intros Hdev Hopen Hfd Hvars Hat Hok He Hj Ht Hne Hi Himg Hfuel img. unfold mtd_write. rewrite Hdev.
  apply xwp_bind. unfold write_resume. apply xwp_bind. eapply wp_intro; [exact Hopen|]. cbn beta iota.
  destruct (Z.ltb_spec fd 0); [lia|]. change (0 >? 0) with false. do 4 tool_step. rewrite Ht. tool_step. apply xwp_bind.
  eapply xwp_call.
  - apply (write_loop_spec tg fd imagefd d f img (v_reliable (view_of (w_os w1))) (t_opt (w_tool w1)) Hne Hok
      (conj He (conj Hj Ht)) fuel mtd m); [|done|exact Hfuel].
    exists O, f, img. split; [by apply written_start|]. split; [by split|]. split; [by exists b, bl, rest|].
    exists 0. unfold room, good_blocks. rewrite take_0. cbn [filter list_filter length]. rewrite Nat.mul_0_r. done.
  - intros st w2 (k & f' & Hw & Hs & _ & sb & -> & _). unfold write_fixup. cbn [ws_replaced ws_fd].
    do 6 tool_step. cbn [w_tool w_os]. rewrite (sa_opt _ _ _ _ _ _ _ _ Hs), Ht. tool_step. split; [done|].
    split; [|cbn [w_os]; rewrite law_close; cbn [set_fds v_flash]; rewrite <- (written_done _ _ _ _ Hw); apply Hs].
    etransitivity; [by apply Hw|]. apply room_bound. apply Hw.
Qed.

(** C22: [mtd_fixseama], [mtd_fixwrg] and [mtd_fixwrgg] on a header at the start of a device.
    If the command returns on hardware without failures, the digest in the header is the MD5
    digest of the header fields and the data it covers, provided that data lies in the device;
    a header that was right already is left alone, so a second run does nothing.  In all
    cases only the first erase block can have changed; the tool exits (with code 1) if the
    header is not of the format or covers no data, or if the hardware fails. *)
Theorem fix_header_repairs `{A : Arch} `{!ArchLaws A} {K : Type} `{L : OsLaws K}
    (fmt : md5_header) `{!HeaderLaws fmt} mtd data_size (w w1 : world K) fd d f rel :
  mtd_check_open mtd w = Ret (inr fd) w1 -> 0 <= fd -> device_at fd d f rel w1 ->
  mh_sizeof fmt <= f_eb f -> 0 <= data_size < 2 ^ 32 ->
  data_start fmt (header_at fmt (f_data f)) <= f_size f ->
  xwp (fix_header fmt mtd 0 data_size)
    (fun c w' => c = 1 /\ changed_inside d f 0 (f_eb f) w' /\ (rel = true -> ~ header_ok fmt (f_data f)))
    (fun r w' => r = 0 /\ header_ok fmt (f_data f) /\
       repaired fmt d f rel (data_length fmt (header_at fmt (f_data f)) (f_size f) data_size) w') w.
Proof.
  intros Hopen Hfd Hd Hsz Hds Hstart. set (h := header_at fmt (f_data f)) in *.
  pose proof (da_ok _ _ _ _ _ Hd) as Hok. pose proof (fo_eb f Hok). pose proof (fo_small f Hok).
  pose proof (eb_le_size f Hok). pose proof (fo_length f Hok) as Hfl.
  pose proof (hl_sizeof (fmt := fmt)). pose proof (hl_magic (fmt := fmt)).
  assert (Forall is_byte h) as Hhb by (apply slice_bytes, Hok).
  pose proof (hl_extra h Hhb). pose proof (hl_size h Hhb). unfold data_start in Hstart.
  unfold fix_header. apply xwp_bind, xwp_get. rewrite block_start_0.
  assert (size_t (0 - 0) = 0) as -> by (apply size_t_small; lia).
  apply xwp_bind. eapply wp_intro; [exact Hopen|]. cbn beta iota. destruct (Z.ltb_spec fd 0); [lia|].
  apply xwp_bind. eapply erasesize_spec; [exact Hd|]. apply xwp_bind. eapply mtdsize_spec; [exact Hd|].
  rewrite !size_t_small by lia. destruct (Z.gtb_spec (0 + f_eb f) (f_size f)); [lia|].
  apply xwp_bind. eapply read_first_block_spec; [exact Hd|lia|lia|]. clear Hd. intros w2 Hd _.
  split; [intros Hr; split_and!; [done|by eapply changed_nothing|done]|].
  assert (Z.of_nat (length (slice (f_data f) 0 (f_eb f))) = f_eb f) as Hbl by (apply length_slice; lia).
  apply xwp_bind, xwp_load; [lia|lia|lia|]. rewrite Z.add_0_l, slice_slice, Z.add_0_l by lia.
  destruct (mh_magic fmt _) eqn:Em; cbn [negb].
  2: { apply xwp_exit. split_and!; [done|by eapply changed_nothing|]. intros _ [Hm _]. congruence. }
  apply xwp_bind, xwp_load; [lia|lia|lia|]. rewrite slice_slice, Z.add_0_l by lia.
  change (slice (f_data f) 0 (mh_sizeof fmt)) with h.
  destruct (Z.eqb_spec (mh_size fmt h) 0) as [Hz|Hz].
  { apply xwp_exit. split_and!; [done|by eapply changed_nothing|]. by intros _ [_ Hm]. }
  rewrite (size_t_small (mh_sizeof fmt + _)), (size_t_small (f_size f - _)) by lia.
  set (n := data_length fmt h (f_size f) data_size).
  match goal with |- context [if ?x >? ?y then ?y else ?x] =>
    replace (if x >? y then y else x) with n by (unfold n, data_length, data_start; destruct (Z.gtb_spec x y); lia) end.
  assert (0 <= n < 2 ^ 32) as Hn by (unfold n, data_length, data_start; destruct (data_size =? 0); lia).
  apply xwp_bind. change (mh_sizeof fmt + mh_extra fmt h) with (data_start fmt h).
  eapply (fix_md5_spec fmt); [exact Hd|done|done|]. clear Hd. intros w3 r Hd _ Hr.
  eapply xwp_call; [eapply (fix_header_finish fmt); [exact Hd|done|exact Hn|exact Hr|]|].
  - intros w' Hrel Hc. by split_and!.
  - intros res w' [-> Hrep]. split_and!; [done|split; [exact Em|exact Hz]|exact Hrep].
Qed.

(** [mtd_resetbc] makes the boot loader find a boot count of zero.  On working hardware,
    with a log that is erased behind its last record, the command returns [-2] and changes
    nothing if the log contains a record of another kind; otherwise it returns 0 and the last
    record of the log counts zero.  A log that says zero already is left alone, a full one is
    erased first. *)
Theorem resetbc_counts_zero `{A : Arch} `{!ArchLaws A} {K : Type} `{L : OsLaws K}
    mtd (w w1 : world K) fd d f :
  mtd_check_open mtd w = Ret (inr fd) w1 -> device_at fd d f true w1 -> log_ok f ->
  (0 < log_size f)%nat -> (forall j c, boot_log f = Some (j, c) -> log_free f j) ->
  xwp (mtd_resetbc mtd) (fun _ _ => False) (fun r w' => exists f',
    v_flash (view_of (w_os w')) !! d = Some f' /\
    match boot_count f with
    | None => r = -2 /\ f' = f
    | Some c => r = 0 /\ boot_count f' = Some 0 /\ (c = 0 -> f' = f)
    end) w.
Proof.
  intros Hopen Hd Hl Hpos Hfree. pose proof (lo_flash f Hl) as Hok. pose proof (log_inc_range f Hl).
  pose proof (log_size_bound f Hl). pose proof (fo_small f Hok). pose proof (fo_size f Hok). pose proof (fo_eb f Hok).
  unfold mtd_resetbc. apply xwp_bind. eapply wp_intro; [exact Hopen|]. cbn beta iota.
  apply xwp_bind, xwp_sys. intros info k Hi. destruct (law_getinfo _ _ _ _ Hi) as (Hv & _ & Hr).
  destruct (da_at _ _ _ _ _ Hd) as [p Hat]. rewrite (Hr d f p Hat (da_rel _ _ _ _ _ Hd)).
  eapply device_at_view in Hd; [|exact Hv|reflexivity]. fold (log_inc f). clear Hat Hr Hi Hv Hopen.
  change (info_size (f_info f)) with (f_size f).
  assert (0 <= f_size f / log_inc f < 2 ^ 31) as Hdiv.
  { split; [apply Z.div_pos; lia|]. apply Z.div_lt_upper_bound; nia. }
  rewrite i32_small, u32_small by lia. fold (log_size f). apply xwp_bind.
  eapply bc_scan_spec; [exact Hd|done|apply length_replicate|lia|lia|]. intros w2 page Hd2 _ Hpl.
  fold (boot_log f). unfold boot_count at 1. destruct (boot_log f) as [[j c]|] eqn:Elog; cbn [fmap option_fmap option_map snd].
  2: { do 3 tool_step. destruct (da_at _ _ _ _ _ Hd2) as [q [_ Hf]]. exists f. cbn [w_os]. by rewrite law_close. }
  pose proof (log_scan_range _ _ _ _ _ _ _ Elog) as Hrange. specialize (Hfree j c eq_refl).
  assert (Z.of_nat (log_size f) = f_size f / log_inc f) as Hn by (unfold log_size; lia).
  destruct (Z.eqb_spec c 0) as [->|Hc].
  { do 3 tool_step. destruct (da_at _ _ _ _ _ Hd2) as [q [_ Hf]]. exists f. cbn [w_os]. rewrite law_close.
    split; [done|]. split_and!; [done| |done]. unfold boot_count. by rewrite Elog. }
  rewrite <- Hn in *. apply xwp_bind. eapply xwp_call; [by eapply make_room_spec|].
  intros r w3 (Hr & f1 & c1 & Hd3 & Hl1 & Hinfo & Hi & Hlog1 & Hfree1).
  destruct (Z.ltb_spec r 0); [lia|].
  assert (log_inc f1 = log_inc f /\ log_size f1 = log_size f) as [Einc Esz]
    by (unfold log_size, log_inc, f_size; rewrite Hinfo; done).
  rewrite <- Einc. eapply append_record_spec; [exact Hd3|done|done|exact Hlog1|by rewrite Esz|done|].
  intros r' w4 f' Hr' Hd4 Hcount. destruct (Z.ltb_spec r' 0); [lia|].
  do 5 tool_step. destruct (da_at _ _ _ _ _ Hd4) as [q [_ Hf]]. exists f'. cbn [w_os].
  by rewrite law_close, law_sync.
Qed.

(** C23: [mtd_fixtrx] repairs the header at [o].  If the command returns, the header has the
    magic, its length and checksum fields describe the data on the good blocks of the range
    asked for, nothing but these two fields has changed, and a header that was right already
    is left alone.  If it exits (with code 1) only the erase block of the header can have
    changed, and on hardware without failures that happens only when the range is not in the
    device or there is no magic. *)
Theorem fixtrx_repairs `{A : Arch} `{!ArchLaws A} {K : Type} `{L : OsLaws K}
    fuel mtd o data_size e (w w1 : world K) fd d f rel :
  mtd_check_open mtd w = Ret (inr fd) w1 -> 0 <= fd -> device_at fd d f rel w1 ->
  f_eb f = 2 ^ e -> 0 <= e -> 0 <= o -> 0 <= data_size -> o + data_size < 2 ^ 31 ->
  o mod f_eb f + 12 <= f_eb f ->
  let n := if data_size =? 0 then f_eb f - 12 else data_size + 16 in
  let magic_ok := trx_magic_at f o = opt_trxmagic (t_opt (w_tool w1)) in
  (Z.to_nat n < fuel)%nat ->
  xwp (mtd_fixtrx fuel mtd o data_size)
    (fun c w' => c = 1 /\ changed_inside d f (o / f_eb f * f_eb f) (f_eb f) w' /\
       (rel = true -> f_size f < o + 12 + n \/ ~ magic_ok))
    (fun r w' => r = 0 /\ o + 12 + n <= f_size f /\ magic_ok /\ trx_post d f o n w') w.
Proof.
  intros Hopen Hfd Hd Heb He Ho Hds Hsum Hhdr n magic_ok Hfuel. pose proof (da_ok _ _ _ _ _ Hd) as Hok.
  pose proof (fo_eb f Hok) as Heb0. pose proof (fo_small f Hok). pose proof (eb_le_size f Hok). pose proof (fo_length f Hok).
  assert (o = o / f_eb f * f_eb f + o mod f_eb f) as Hdm by (rewrite Z.mul_comm; apply Z.div_mod; lia).
  set (bo := o / f_eb f * f_eb f) in *.
  pose proof (Z.mod_pos_bound o (f_eb f) Heb0). assert (0 <= o / f_eb f) by (apply Z.div_pos; lia).
  assert (0 <= n < 2 ^ 31 + 16 /\ o + 12 + n < 2 ^ 32) as [Hn Hend] by (unfold n; destruct (Z.eqb_spec data_size 0); lia).
  unfold mtd_fixtrx. apply xwp_bind. eapply wp_intro; [exact Hopen|]. cbn beta iota. destruct (Z.ltb_spec fd 0); [lia|].
  apply xwp_bind. eapply erasesize_spec; [exact Hd|]. apply xwp_bind. eapply mtdsize_spec; [exact Hd|].
  unfold TRX_CRC32_DATA_OFFSET, TRX_CRC32_DATA_SIZE.
  match goal with |- context [if negb (data_size =? 0) then ?x else ?y] =>
    replace (if negb (data_size =? 0) then x else y) with n
      by (unfold n; destruct (Z.eqb_spec data_size 0); cbn [negb]; rewrite size_t_small by lia; done) end.
  assert (block_start o (f_eb f) = bo) as -> by (unfold bo; rewrite Heb; apply block_start_spec; lia).
  rewrite (size_t_small (o + 12)), !size_t_small by lia. destruct (Z.gtb_spec (o + 12 + n) (f_size f)) as [Hbig|Hfit].
  { apply xwp_exit. split_and!; [done|by eapply changed_nothing|by left]. }
  assert (bo + f_eb f <= f_size f) as Hblock.
  { destruct (fo_blocks f Hok) as [q Hq]. assert (o / f_eb f < q) by nia. nia. }
  apply xwp_bind. eapply read_first_block_spec; [exact Hd|lia|lia|]. clear Hd. intros w2 Hd Ht2.
  split; [intros Hr; split_and!; [done|by eapply changed_nothing|done]|].
  assert (Z.of_nat (length (slice (f_data f) bo (f_eb f))) = f_eb f) as Hsl by (apply length_slice; lia).
  apply xwp_bind, xwp_load; [lia|lia|lia|]. rewrite slice_slice by lia. replace (bo + (o - bo)) with o by lia.
  apply xwp_bind, xwp_get. rewrite Ht2. fold (trx_magic_at f o).
  destruct (Z.eqb_spec (trx_magic_at f o) (opt_trxmagic (t_opt (w_tool w1)))) as [Em|Em]; cbn [negb].
  2: { apply xwp_exit. split_and!; [done|by eapply changed_nothing|by right]. }
  eapply xwp_call; [eapply (fix_trx_header_spec fuel fd d f rel e bo o n);
    [exact Hd|done|done|lia|by exists (o / f_eb f)|lia|lia|lia|lia|lia|done|]|].
  - intros w' Hr Hc. by split_and!.
  - intros r w' [-> Hp]. split_and!; [done|lia|done|done].
Qed.

(** C24: [mtd_erase] erases a device and touches no bad block.  It comes to an end; if it
    returns on hardware without failures every good block is erased; it exits only when the
    hardware fails.  The bad blocks keep their contents in all cases. *)
Theorem mtd_erase_good_blocks `{A : Arch} {K : Type} `{L : OsLaws K}
    fuel mtd (w w1 : world K) fd d f rel :
  mtd_check_open mtd w = Ret (inr fd) w1 -> 0 <= fd -> device_at fd d f rel w1 -> (f_blocks f < fuel)%nat ->
  xwp (mtd_erase fuel mtd) (erase_exit d f rel) (fun r w' => r = 0 /\ exists f',
    v_flash (view_of (w_os w')) !! d = Some f' /\ f_info f' = f_info f /\ bad_kept f f' /\
    (rel = true -> forall j, 0 <= j < Z.of_nat (f_blocks f) -> j * f_eb f ∉ f_bad f ->
       slice (f_data f') (j * f_eb f) (f_eb f) = replicate (f_ebn f) 0xff)) w.
Proof.
  intros Hopen Hfd Hd Hfuel. unfold mtd_erase. apply xwp_bind. eapply wp_intro; [exact Hopen|].
  cbn beta iota. destruct (Z.ltb_spec fd 0); [lia|]. apply xwp_bind.
  eapply xwp_call; [by apply erase_loop_spec|]. intros _ w' (f' & Hd' & Hu). do 3 tool_step.
  split; [done|]. exists f'. cbn [w_os]. rewrite law_close. destruct (da_at _ _ _ _ _ Hd') as [p [_ Hf]].
  split_and!; [exact Hf|by rewrite (eu_flash _ _ _ _ Hu)|apply Hu|apply Hu].
Qed.

(** [mtd_verify] compares digests of the right bytes.  On working hardware it reads the
    device from the start, for as many bytes as the file has (or to the end of a shorter
    device), comes to an end, writes nothing, and returns 0 exactly if the digest of these
    bytes is that of the file. *)
Theorem mtd_verify_digest `{A : Arch} {K : Type} `{L : OsLaws K}
    fuel mtd file (w w1 : world K) s k1 f_md5 k2 fd d f :
  sys_stat file (w_os w) = (Some s, k1) -> md5sum_file file k1 = (Some f_md5, k2) ->
  mtd_check_open mtd (mk_world (w_tool w) k2) = Ret (inr fd) w1 -> 0 <= fd ->
  flash_at (view_of (w_os w1)) fd d f 0 -> flash_ok f -> v_reliable (view_of (w_os w1)) = true ->
  0 <= st_size s -> (Z.to_nat (st_size s) < fuel)%nat ->
  xwp (mtd_verify fuel mtd file) (fun _ _ => False) (fun r w' =>
    r = (if bool_decide (f_md5 = md5_bytes (slice (f_data f) 0 (st_size s))) then 0 else 1) /\
    v_flash (view_of (w_os w')) = v_flash (view_of (w_os w1))) w.
Proof.
  intros Hs Hm Hopen Hfd Hat Hok Hrel Hst Hfuel. unfold mtd_verify.
  apply xwp_bind, xwp_sys. intros s' k Es. rewrite Hs in Es. injection Es as <- <-.
  apply xwp_bind, xwp_sys. cbn [w_os w_tool]. intros m' k Em. rewrite Hm in Em. injection Em as <- <-.
  apply xwp_bind. eapply wp_intro; [exact Hopen|]. cbn beta iota. destruct (Z.ltb_spec fd 0); [lia|].
  apply xwp_bind. eapply xwp_call; [by eapply verify_loop_spec|]. intros r w' [-> Hv]. do 3 tool_step.
  split; [done|]. cbn [w_os]. by rewrite law_close.
Qed.

(** [mtd_tpl_recoverflag_write] sets the flag that the boot loader reads, and nothing
    else on the device changes; if the flag is right already the device is left alone.  The
    memory it gets has the size of an erase block of the device opened before, so that this
    must not be smaller than one of the partition with the flag. *)
Theorem recoverflag_sets_flag `{A : Arch} `{!ArchLaws A} {K : Type} `{L : OsLaws K}
    mtd active (w w1 : world K) b k1 fd d f :
  let old := size_t (erasesize (t_dev (w_tool w))) in
  sys_malloc old (w_os w) = (Some b, k1) -> mtd_check_open mtd (mk_world (w_tool w) k1) = Ret (inr fd) w1 ->
  0 <= fd -> device_at fd d f true w1 -> 4 <= f_eb f <= old ->
  xwp (mtd_tpl_recoverflag_write mtd active) (fun _ _ => False) (fun r w' => 0 <= r /\ exists f',
    v_flash (view_of (w_os w')) !! d = Some f' /\ recover_flag f' = recover_magic active /\
    same_outside (f_data f) (f_data f') 0 4 /\ (recover_flag f = recover_magic active -> f' = f)) w.
Proof.
  intros old Hmal Hopen Hfd Hd [Heb Hold]. pose proof (da_ok _ _ _ _ _ Hd) as Hok. pose proof (fo_length f Hok).
  pose proof (eb_le_size f Hok). pose proof (fo_small f Hok).
  destruct (law_malloc old _ _ _ (size_t_range _) Hmal) as (_ & Hb & _). destruct (Hb b eq_refl) as [Hbl _].
  unfold mtd_tpl_recoverflag_write. apply xwp_bind, xwp_get. fold old.
  apply xwp_bind, xwp_sys. intros r k E. rewrite Hmal in E. injection E as <- <-.
  apply xwp_bind. eapply wp_intro; [exact Hopen|]. cbn beta iota. destruct (Z.ltb_spec fd 0); [lia|].
  apply xwp_bind. eapply (erasesize_spec fd d f); [exact Hd|]. rewrite size_t_small, u32_small by lia.
  apply xwp_bind. eapply pread_unchecked_spec; [exact Hd|lia|lia|lia|lia|]. clear Hd. intros w2 Hd _.
  assert (Z.of_nat (length (slice (f_data f) 0 (f_eb f))) = f_eb f) as Hsl by (apply length_slice; lia).
  set (args := blit b 0 (slice (f_data f) 0 (f_eb f))).
  assert (Z.of_nat (length args) = old) as Hal by (unfold args; rewrite length_blit; lia).
  assert (slice args 0 (f_eb f) = slice (f_data f) 0 (f_eb f)) as Hargs by (apply slice_blit_len; lia).
  apply xwp_bind, xwp_load; [lia|lia|lia|].
  assert (cpu_field (slice args 0 4) 0 4 = recover_flag f) as ->.
  { rewrite cpu_field_0 by lia. unfold recover_flag. rewrite <- (cpu_field_0 args (f_eb f)), Hargs by lia. apply cpu_field_0. lia. }
  destruct (Z.eqb_spec (recover_magic active) (recover_flag f)) as [Efl|Hne].
  - do 3 tool_step. split; [done|]. exists f. cbn [w_os]. rewrite law_close.
    destruct (da_at _ _ _ _ _ Hd) as [p [_ Hf]]. by split_and!.
  - eapply xwp_call; [apply set_flag_spec; [exact Hd|lia|lia|exact Hargs]|]. intros r w' [Hr Hf]. split; [done|].
    destruct (recover_flag_stored f active) as [Hfl Hs]; [lia|]. eexists. split_and!; [exact Hf|exact Hfl|exact Hs|].
    intros Heq. by rewrite Heq in Hne.
Qed.

(** C21: the table-driven [crc32] computes the CRC-32 of the shift register, for every start
    value and every buffer whose length an [int] can hold. *)
Theorem crc32_table_driven {S : Type} val l len (s : S) :
  0 <= val < 2 ^ 32 -> Forall is_byte l -> 0 <= len < 2 ^ 31 -> len <= Z.of_nat (length l) ->
  crc32 val l len s = Ret (foldl crc_byte val (slice l 0 len)) s.
Proof. apply crc32_spec. Qed.

(** C20: [MD5_Init], any sequence of [MD5_Update]s and [MD5_Final] compute the digest of the
    concatenation of the pieces as RFC 1321 defines it, whatever the context held before. *)
Theorem md5_streaming ctx chunks :
  length (md_in ctx) = 64%nat -> Forall is_byte (md_in ctx) ->
  Forall (fun l => Forall is_byte l /\ Z.of_nat (length l) < 2 ^ 32) chunks ->
  fst (MD5_Final (foldl MD5_Update (MD5_Init ctx) chunks)) = md5_ref (concat chunks).
Proof. apply md5_stream_ref. Qed.

(** C25: [mtd write] checks before it writes.  However a run of [main] with the command
    [write] ends, either it has exited with every device as it was; or the devices could be
    opened and the image has passed [image_check] or the option [-f] was given, and until then
    every device was as it was. *)
Theorem write_checked_first `{A : Arch} `{!ArchLaws A} {K : Type} `{L : OsLaws K}
    (tg : target) fuel opts file device (w w' : world K) r :
  main tg fuel opts ["write"%string; file; device] w = Ret r w' ->
  (exists c, r = inl c /\ v_flash (view_of (w_os w')) = v_flash (view_of (w_os w))) \/
  (exists a w0 imagefd w1 n1 w2 n2 w3,
     main_options (mk_main_args false false [] 0 0 0 0) opts w = Ret (inr a) w0 /\
     mtd_check device w1 = Ret (inr n1) w2 /\ n1 <> 0 /\
     image_check tg imagefd device w2 = Ret (inr n2) w3 /\ (n2 <> 0 \/ a_force a = true) /\
     v_flash (view_of (w_os w3)) = v_flash (view_of (w_os w))).
Proof.
  unfold main. intros [(c & E & ->)|(a & w0 & E0 & E)]%xbind_run; [left; exists c; split; [done|by eapply main_options_keeps]|].
  pose proof (main_options_keeps _ _ _ _ _ E0) as H0.
  apply xbind_run in E as [(c & E & ->)|([cmd dev] & w3 & E3 & _)].
  { left. exists c. split; [done|]. rewrite <- H0. by eapply main_command_keeps. }
  pose proof (main_command_keeps _ _ _ _ _ _ E3) as H3. rewrite H0 in H3.
  cbn [main_command String.eqb Ascii.eqb Bool.eqb] in E3.
  apply xbind_run in E3 as [(c & _ & ?)|(imagefd & w1 & _ & E1)]; [done|].
  apply xbind_run in E1 as [(c & _ & ?)|(n1 & w2 & E1 & E2)]; [done|].
  destruct (Z.eqb_spec n1 0); [done|].
  apply xbind_run in E2 as [(c & _ & ?)|(n2 & w4 & E2 & E4)]; [done|].
  right. exists a, w0, imagefd, w1, n1, w2, n2, w3. destruct (Z.eqb_spec n2 0), (a_force a) eqn:Ef; cbn [negb andb] in E4;
    try done; injection E4 as <- <- <-; split_and!; auto.
Qed.

(** [mtd verify] and [mtd unlock] without the option [-e] write to no device, however the
    run ends. *)
Theorem main_reads_only `{A : Arch} `{!ArchLaws A} {K : Type} `{L : OsLaws K}
    (tg : target) fuel opts argv file device (w w' : world K) r :
  argv = ["verify"%string; file; device] \/ argv = ["unlock"%string; device] ->
  Forall (fun o => fst o <> "e"%char) opts -> main tg fuel opts argv w = Ret r w' ->
  v_flash (view_of (w_os w')) = v_flash (view_of (w_os w)).
Proof.
  intros Hargv Hopts. unfold main. intros [(c & E & ->)|(a & w0 & E0 & E)]%xbind_run; [by eapply main_options_keeps|].
  rewrite <- (main_options_keeps _ _ _ _ _ E0).
  pose proof (main_options_erase _ _ _ _ _ Hopts E0) as He. cbn [a_erase] in He.
  assert (exists cmd, main_command tg (a_force a) argv = xret (cmd, device) /\
    match cmd with CMD_VERIFY _ | CMD_UNLOCK => True | _ => False end) as (cmd & Ec & Hcmd).
  { destruct Hargv as [-> | ->]; by eexists. }
  rewrite Ec, He in E. revert E. cbn [erase_devices]. clear He Ec E0. revert w0 r w'.
  change (keeps_flash (do! sys_ sys_sync in
    do! run_command tg fuel a cmd device false in
    do! sys_ sys_sync in do! (if a_boot a then sys_ sys_reboot else xret tt) in xret 0)).
  pose proof (run_reading_keeps tg fuel a cmd device false Hcmd) as Hrun. keeps.
Qed.

(** The JFFS2 nodes the tool builds can be read back.  A directory entry, and an inode
    with its data behind it, are accepted by a reader that checks the magic, the type, the
    length and all three checksums, and the reader gets every field, the name and the data. *)
Theorem jffs2_nodes_roundtrip `{A : Arch} {K : Type} (d : dirent) (ri : raw_inode) (data rest : list Z) (w : world K) :
  dirent_ok d -> inode_ok ri -> Forall is_byte data -> Z.of_nat (length data) = ri_dsize ri ->
  (exists node, dirent_node (de_name d) (de_type d) (de_pino d) (de_ino d) (de_version d) w = Ret (inr node) w /\
     decode_dirent (node ++ rest) = Some d) /\
  (exists crc node, pure (crc32 0 data (Z.of_nat (length data))) w = Ret (inr crc) w /\
     inode_node ri crc w = Ret (inr node) w /\ decode_inode (node ++ data ++ rest) = Some (ri, data)).
Proof.
  intros Hd Hi Hb Hl. split.
  - exists (dirent_bytes d). split; [by apply dirent_node_run|by apply decode_dirent_bytes].
  - exists (node_crc data), (inode_bytes ri (node_crc data)).
    split_and!; [|by apply inode_node_run|by apply decode_inode_bytes].
    apply crc_run; [done|]. pose proof (iok_dsize ri Hi). lia.
Qed.

(** a directory the tool has made is found again.  At the directory entry that
    [add_dirent] builds for a directory [dir] of the root, [mtd_parse_jffs2data] for that name
    sets [target_ino] to its inode, goes on behind it, and the inode and version numbers given
    out later are larger than its own. *)
Theorem directory_found `{A : Arch} {K : Type} b dir ofs ino version node rest (w0 w : world K) E :
  dir <> EmptyString -> (String.length dir < 216)%nat -> 0 <= ino < 2 ^ 31 -> 0 <= version < 2 ^ 31 ->
  dirent_node (str_bytes dir) DT_DIR 1 ino version w0 = Ret (inr node) w0 ->
  drop (Z.to_nat ofs) b = node ++ rest -> 0 <= ofs -> ofs < erasesize (t_dev (w_tool w)) < 2 ^ 31 ->
  0 <= last_ino (t_jffs2 (w_tool w)) < 2 ^ 31 -> 0 <= last_version (t_jffs2 (w_tool w)) < 2 ^ 31 ->
  xwp (parse_node b dir ofs) E (fun r w' =>
    r = inl (ofs + PAD (Z.of_nat (length node))) /\
    target_ino (t_jffs2 (w_tool w')) = ino /\ ino <= last_ino (t_jffs2 (w_tool w')) /\
    version <= last_version (t_jffs2 (w_tool w'))) w.
Proof.
  intros Hdir Hlen Hino Hver Hnode Hdrop Hofs He Hli Hlv. set (d := mk_dirent 1 version ino DT_DIR (str_bytes dir)).
  assert (dirent_ok d) as Hd.
  { split; cbn; try lia; [done|apply str_bytes_range|]. rewrite length_str_bytes. lia. }
  pose proof (dirent_node_run d w0 Hd) as Hrun. unfold d in Hrun at 1 2 3 4 5. cbn [de_name de_type de_pino de_ino de_version] in Hrun.
  rewrite Hnode in Hrun. injection Hrun as ->.
  eapply (parse_dirent_spec b dir ofs d rest); [exact Hdrop|done|reflexivity|done|done|done|done|done|cbn; lia|cbn; lia|done|done|].
  intros w' _ Ht Hi' Hv'. rewrite length_dirent_bytes. split_and!; [done|exact Ht|rewrite Hi'; cbn; lia|rewrite Hv'; cbn; lia].
Qed.
