(* ===== verification/ToolWitness.v ===== *)
(** Runs of the flash tool on a small machine: the hypotheses of the theorems can be met, and
    what the tool does in the cases where the code does not do what it means to. *)

From stdpp Require Import base list numbers strings gmap.
From Stdlib Require Import ZArith Lia Ascii.
From S2P Require Import Prelude Platform Bytes ToolOs ToolCrc ToolMd5 ToolMd5Spec.
From S2P Require Import ToolFix ToolTag ToolFlags ToolJffs2 ToolMtd ToolOsSpec ToolWriteSpec ToolFixSpec ToolFlagsSpec ToolTrxSpec ToolCmdSpec ToolKeepSpec ToolJffs2Spec.
From S2P Require Import ToolSim ToolTheorems.
Local Open Scope Z_scope.
Local Open Scope cprog_scope.

Local Existing Instance aarch64.

(** * The machine *)

(** A NAND device of 64 bytes with two erase blocks of 32 bytes, or four of 16. *)
Definition nand (eb : Z) (data bad : list Z) : flash := mk_flash (mk_mtd_info_user MTD_NANDFLASH 64 eb 1) data bad.

Lemma nand_ok eb data bad :
  eb = 16 \/ eb = 32 -> length data = 64%nat -> forallb (fun b => (0 <=? b) && (b <? 256)) data = true -> flash_ok (nand eb data bad).
Proof.
  intros Heb Hl Hb. split; cbn; try lia.
  - apply Forall_forall. intros x Hx%list_elem_of_In. apply (proj1 (forallb_forall _ _) Hb) in Hx.
    unfold is_byte. lia.
  - destruct Heb as [-> | ->]; [by exists 4|by exists 2].
Qed.

(** The device is [fw], an image is [img]; file descriptor 0 is the image too. *)
Definition image_bytes : list Z := seqZ 100 16.
Definition sim (f : flash) : machine :=
  mk_machine (mk_view {["mtd0"%string := f]} {[0 := FdStream image_bytes 1]} true)
    {["fw"%string := FdFlash "mtd0" 0; "img"%string := FdStream image_bytes 0]} [] [] [] [].

Definition tool0 : tool :=
  mk_tool (mk_devinfo 0 16 0) (mk_image (Some (replicate 16 7)) 4 MTD_IMAGE_FORMAT_UNKNOWN)
    (mk_options false None "" 0 TRX_MAGIC None) (mk_jffs2 0 0 None 0 0 0 0).
Definition start (f : flash) : world machine := mk_world tool0 (sim f).

(** The machine after the device has been opened. *)
Definition opened (w : world machine) : world machine :=
  match mtd_check_open "fw" w with Ret _ w1 => w1 | _ => w end.

Definition all_files : target := mk_target (Some trx_o) true true true true true false.

Ltac run := vm_compute; reflexivity.

(** A block with every number from [a] on. *)
Definition counting (a : Z) : list Z := seqZ a 64.

Definition write_flash : flash := nand 16 (counting 0) [16].

Definition write_image : list Z := image_left (replicate 16 7) 4 image_bytes.

Lemma mtd_write_stores_witness :
  xwp (mtd_write all_files 100 0 "fw" 0)
    (write_exit "mtd0" write_flash write_image (v_reliable (view_of (w_os (opened (start write_flash))))))
    (fun r w' => r = 0 /\ Z.of_nat (length write_image) <= room (f_ebn write_flash) (bad_flags write_flash) /\
       v_flash (view_of (w_os w')) !! "mtd0"%string =
         Some (set_data (place (f_ebn write_flash) (bad_flags write_flash) (f_data write_flash) write_image) write_flash))
    (start write_flash).
Proof.
  pose proof (mtd_write_stores all_files 100 0 "fw" (start write_flash) (opened (start write_flash)) 3 "mtd0" write_flash
    (replicate 16 7) 4 image_bytes 1) as Hstores. cbv zeta in Hstores. apply Hstores; clear Hstores.
  - run.
  - run.
  - lia.
  - run.
  - by split; run.
  - apply nand_ok; [by left|run|run].
  - run.
  - run.
  - run.
  - lia.
  - split; [run|run|exists 1%nat; split; [run|lia]|run|by split|].
    apply Forall_app_2; [apply Forall_take; by apply Forall_replicate|]. repeat constructor; lia.
  - discriminate.
  - change (Z.to_nat (f_size write_flash)) with 64%nat. lia.
Defined.

(** A device at hand: [device_at] after opening. *)
Lemma opened_device f :
  flash_ok f -> opened (start f) = mk_world (set_dev (dev_vars f) tool0)
    (with_view (mk_view {["mtd0"%string := f]} {[0 := FdStream image_bytes 1; 3 := FdFlash "mtd0" 0]} true) (sim f)) ->
  device_at 3 "mtd0" f true (opened (start f)).
Proof.
  intros Hok ->. split; [done|exists 0; by split|done|done].
Qed.

(** ** Headers *)

(** A SEAMA header with four bytes of data and a wrong digest. *)
Definition seama_flash : flash :=
  nand 32 ([0x5e; 0xa3; 0xa4; 0x17; 0; 0; 0; 0; 0; 0; 0; 4] ++ replicate 16 0 ++ seqZ 1 36) [].

Lemma fix_header_repairs_witness :
  xwp (fix_header seama_entity_header "fw" 0 0)
    (fun c w' => c = 1 /\ changed_inside "mtd0" seama_flash 0 (f_eb seama_flash) w' /\
       (true = true -> ~ header_ok seama_entity_header (f_data seama_flash)))
    (fun r w' => r = 0 /\ header_ok seama_entity_header (f_data seama_flash) /\
       repaired seama_entity_header "mtd0" seama_flash true
         (data_length seama_entity_header (header_at seama_entity_header (f_data seama_flash)) (f_size seama_flash) 0) w')
    (start seama_flash).
Proof.
  apply (fix_header_repairs seama_entity_header "fw" 0 (start seama_flash) (opened (start seama_flash)) 3 "mtd0" seama_flash true).
  - run.
  - lia.
  - apply opened_device; [apply nand_ok; [by right|run|run]|run].
  - done.
  - lia.
  - done.
Defined.

(** A boot counter log with one record that counts three. *)
Definition log_flash : flash :=
  nand 32 (cpu_bytes 4 BOOTCOUNT_MAGIC ++ cpu_bytes 4 3 ++ cpu_bytes 4 BOOTCOUNT_MAGIC ++ replicate 52 0xff) [].

Lemma resetbc_counts_zero_witness :
  xwp (mtd_resetbc "fw") (fun _ _ => False) (fun r w' => exists f',
    v_flash (view_of (w_os w')) !! "mtd0"%string = Some f' /\
    match boot_count log_flash with
    | None => r = -2 /\ f' = log_flash
    | Some c => r = 0 /\ boot_count f' = Some 0 /\ (c = 0 -> f' = log_flash)
    end) (start log_flash).
Proof.
  assert (flash_ok log_flash) as Hok by (apply nand_ok; [by right|run|run]).
  apply (resetbc_counts_zero "fw" (start log_flash) (opened (start log_flash)) 3 "mtd0" log_flash).
  - run.
  - apply opened_device; [done|run].
  - by split.
  - apply Nat.ltb_lt. run.
  - intros j c E. assert (j = 1) as -> by (vm_compute in E; congruence).
    intros j Hj. change (Z.of_nat (log_size log_flash)) with 4 in Hj.
    assert (j = 1 \/ j = 2 \/ j = 3) as [->|[->| ->]] by lia; vm_compute; repeat constructor.
Defined.

(** A TRX header with wrong fields; the second block is bad. *)
Definition trx_flash : flash := nand 32 ([0x48; 0x44; 0x52; 0x30] ++ seqZ 1 60) [32].

Lemma fixtrx_repairs_witness :
  xwp (ToolFix.mtd_fixtrx 100 "fw" 0 30)
    (fun c w' => c = 1 /\ changed_inside "mtd0" trx_flash (0 / f_eb trx_flash * f_eb trx_flash) (f_eb trx_flash) w' /\
       (true = true -> f_size trx_flash < 0 + 12 + 46 \/
          trx_magic_at trx_flash 0 <> opt_trxmagic (t_opt (w_tool (opened (start trx_flash))))))
    (fun r w' => r = 0 /\ 0 + 12 + 46 <= f_size trx_flash /\
       trx_magic_at trx_flash 0 = opt_trxmagic (t_opt (w_tool (opened (start trx_flash)))) /\
       trx_post "mtd0" trx_flash 0 46 w')
    (start trx_flash).
Proof.
  assert (flash_ok trx_flash) as Hok by (apply nand_ok; [by right|run|run]).
  pose proof (fixtrx_repairs 100 "fw" 0 30 5 (start trx_flash) (opened (start trx_flash)) 3 "mtd0" trx_flash true) as Hfix.
  cbv zeta in Hfix. apply Hfix; clear Hfix; try lia.
  - run.
  - apply opened_device; [done|run].
  - done.
  - done.
  - apply Nat.ltb_lt. run.
Defined.

(** ** Erasing, verifying, flags *)

Lemma mtd_erase_good_blocks_witness :
  xwp (mtd_erase 10 "fw") (erase_exit "mtd0" write_flash true) (fun r w' => r = 0 /\ exists f',
    v_flash (view_of (w_os w')) !! "mtd0"%string = Some f' /\ f_info f' = f_info write_flash /\ bad_kept write_flash f' /\
    (true = true -> forall j, 0 <= j < Z.of_nat (f_blocks write_flash) -> j * f_eb write_flash ∉ f_bad write_flash ->
       slice (f_data f') (j * f_eb write_flash) (f_eb write_flash) = replicate (f_ebn write_flash) 0xff))
    (start write_flash).
Proof.
  apply (mtd_erase_good_blocks 10 "fw" (start write_flash) (opened (start write_flash)) 3 "mtd0" write_flash true).
  - run.
  - lia.
  - apply opened_device; [apply nand_ok; [by left|run|run]|run].
  - apply Nat.ltb_lt. run.
Defined.

(** The device starts with the bytes of the file. *)
Definition verify_flash : flash := nand 16 (counting 100) [].

Definition file_stat : stat := mk_stat 0x81a4 16 0 0 0.

Lemma mtd_verify_digest_witness :
  xwp (mtd_verify 20 "fw" "img") (fun _ _ => False) (fun r w' =>
    r = (if bool_decide (md5_ref image_bytes = md5_bytes (slice (f_data verify_flash) 0 (st_size file_stat))) then 0 else 1) /\
    v_flash (view_of (w_os w')) = v_flash (view_of (w_os (opened (start verify_flash))))) (start verify_flash).
Proof.
  apply (mtd_verify_digest 20 "fw" "img" (start verify_flash) (opened (start verify_flash)) file_stat
    (sim verify_flash) (md5_ref image_bytes) (sim verify_flash) 3 "mtd0" verify_flash).
  - reflexivity.
  - reflexivity.
  - run.
  - lia.
  - by split; run.
  - apply nand_ok; [by left|run|run].
  - run.
  - done.
  - apply Nat.ltb_lt. run.
Defined.

Lemma recoverflag_sets_flag_witness :
  xwp (mtd_tpl_recoverflag_write "fw" true) (fun _ _ => False) (fun r w' => 0 <= r /\ exists f',
    v_flash (view_of (w_os w')) !! "mtd0"%string = Some f' /\ recover_flag f' = recover_magic true /\
    same_outside (f_data verify_flash) (f_data f') 0 4 /\ (recover_flag verify_flash = recover_magic true -> f' = verify_flash))
    (start verify_flash).
Proof.
  apply (recoverflag_sets_flag "fw" true (start verify_flash) (opened (start verify_flash)) (replicate 16 0)
    (sim verify_flash) 3 "mtd0" verify_flash).
  - run.
  - run.
  - lia.
  - apply opened_device; [apply nand_ok; [by left|run|run]|run].
  - by split.
Defined.

Lemma crc32_table_driven_witness :
  crc32 0xffffffff [1; 2; 3; 4] 3 tt = Ret (foldl crc_byte 0xffffffff (slice [1; 2; 3; 4] 0 3)) tt.
Proof. apply (crc32_table_driven 0xffffffff [1; 2; 3; 4] 3 tt); [lia|repeat constructor; lia|lia|cbn; lia]. Defined.

Definition md5_ctx0 : MD5_CTX := mk_MD5_CTX 1 2 (mk_md5_buf 3 4 5 6) (replicate 64 9) [].

Lemma md5_streaming_witness :
  fst (MD5_Final (foldl MD5_Update (MD5_Init md5_ctx0) [[97]; [98; 99]; replicate 70 100])) =
    md5_ref (concat [[97]; [98; 99]; replicate 70 100]).
Proof.
  apply (md5_streaming md5_ctx0 [[97]; [98; 99]; replicate 70 100]).
  - run.
  - by apply Forall_replicate.
  - repeat constructor; try (cbn; lia); by apply Forall_replicate.
Defined.

(** ** The command line *)

(** What a run of [main] ends with. *)
Definition main_result (opts : list (ascii * string)) (argv : list string) (f : flash) : Z + Z :=
  match main all_files 100 opts argv (start f) with Ret r _ => r | _ => inl (-1) end.
Definition main_world (opts : list (ascii * string)) (argv : list string) (f : flash) : world machine :=
  match main all_files 100 opts argv (start f) with Ret _ w => w | _ => start f end.

Lemma write_checked_first_witness :
  let argv := ["write"; "img"; "fw"]%string in
  (exists c, main_result [] argv write_flash = inl c /\
     v_flash (view_of (w_os (main_world [] argv write_flash))) = v_flash (view_of (w_os (start write_flash)))) \/
  (exists a w0 imagefd w1 n1 w2 n2 w3,
     main_options (mk_main_args false false [] 0 0 0 0) [] (start write_flash) = Ret (inr a) w0 /\
     mtd_check "fw" w1 = Ret (inr n1) w2 /\ n1 <> 0 /\
     image_check all_files imagefd "fw" w2 = Ret (inr n2) w3 /\ (n2 <> 0 \/ a_force a = true) /\
     v_flash (view_of (w_os w3)) = v_flash (view_of (w_os (start write_flash)))).
Proof.
  apply (write_checked_first all_files 100 [] "img" "fw" (start write_flash)
    (main_world [] ["write"; "img"; "fw"]%string write_flash) (main_result [] ["write"; "img"; "fw"]%string write_flash)).
  run.
Defined.

Lemma main_reads_only_witness :
  let argv := ["verify"; "img"; "fw"]%string in
  v_flash (view_of (w_os (main_world [("q"%char, ""%string)] argv verify_flash))) =
    v_flash (view_of (w_os (start verify_flash))).
Proof.
  apply (main_reads_only all_files 100 [("q"%char, ""%string)] ["verify"; "img"; "fw"]%string "img" "fw" (start verify_flash)
    (main_world [("q"%char, ""%string)] ["verify"; "img"; "fw"]%string verify_flash)
    (main_result [("q"%char, ""%string)] ["verify"; "img"; "fw"]%string verify_flash)).
  - by left.
  - by repeat constructor.
  - run.
Defined.

(** ** JFFS2 nodes *)

Definition some_dirent : dirent := mk_dirent 1 7 12 DT_DIR (str_bytes "etc").
Definition some_inode : raw_inode := mk_raw_inode 12 8 0x81a4 3 1 2 3 0 3.

Lemma some_dirent_ok : dirent_ok some_dirent.
Proof. split; cbn; try lia; [done|repeat constructor; lia]. Qed.

Lemma jffs2_nodes_roundtrip_witness :
  (exists node, dirent_node (str_bytes "etc") DT_DIR 1 12 7 (start write_flash) = Ret (inr node) (start write_flash) /\
     decode_dirent (node ++ [0]) = Some some_dirent) /\
  (exists crc node, pure (crc32 0 [1; 2; 3] 3) (start write_flash) = Ret (inr crc) (start write_flash) /\
     inode_node some_inode crc (start write_flash) = Ret (inr node) (start write_flash) /\
     decode_inode (node ++ [1; 2; 3] ++ [0]) = Some (some_inode, [1; 2; 3])).
Proof.
  apply (jffs2_nodes_roundtrip some_dirent some_inode [1; 2; 3] [0] (start write_flash)).
  - apply some_dirent_ok.
  - split; [repeat constructor; cbn; lia|cbn; lia].
  - repeat constructor; lia.
  - done.
Defined.

(** A buffer with a directory entry behind four other bytes. *)
Definition dir_buffer : list Z := [0; 0; 0; 0] ++ dirent_bytes some_dirent ++ [0xff].
Definition dir_world : world machine :=
  mk_world (set_dev (mk_devinfo 64 64 0) tool0) (sim write_flash).

Lemma directory_found_witness :
  xwp (parse_node dir_buffer "etc" 4) (fun _ _ => False) (fun r w' =>
    r = inl (4 + PAD (Z.of_nat (length (dirent_bytes some_dirent)))) /\
    target_ino (t_jffs2 (w_tool w')) = 12 /\ 12 <= last_ino (t_jffs2 (w_tool w')) /\
    7 <= last_version (t_jffs2 (w_tool w'))) dir_world.
Proof.
  apply (directory_found dir_buffer "etc" 4 12 7 (dirent_bytes some_dirent) [0xff] (start write_flash) dir_world); try (cbn; lia).
  - done.
  - run.
  - run.
Defined.
