(* ===== verification/ToolFisTheorems.v ===== *)
(** What an update of the FIS directory leaves in the table. *)

From stdpp Require Import base list numbers strings gmap.
From Stdlib Require Import ZArith Lia Ascii.
From S2P Require Import Prelude Platform Bytes CStrings ToolOs ToolFix ToolFis ToolFisSpec ToolOsSpec ToolFixSpec ToolTrxSpec ToolTag ToolTagSpec ToolMd5 ToolSim ToolMtd ToolMtdFis ToolMtdFisSpec ToolWriteSpec ToolWitness.
Local Open Scope Z_scope.
Local Open Scope cprog_scope.

(** An entry that describes a partition at [base] with [size] bytes. *)
Definition describes `{Arch} (e : list Z) (p : fis_part) (base size : Z) : Prop :=
  entry_name e = fp_name p /\ entry_base e = base /\ entry_size e = size /\
  cpu_field e 20 4 = fp_loadaddr p /\ cpu_field e 28 4 = fp_loadaddr p /\
  cpu_field e 32 4 = (if 0 <? fp_length p then fp_length p else size) /\
  cpu_field e 248 4 = 0 /\ cpu_field e 252 4 = fp_crc p.

Section content.
Context `{A : Arch} `{!ArchLaws A}.
Implicit Types (old new : list fis_part) (m : list Z).

(** The size a new entry gets. *)
Definition part_size (p : fis_part) (left : Z) : Z := if 0 <? fp_size p then fp_size p else left.

(** The sizes asked for, and that only the last one may be left open ([fis_validate]). *)
Definition total (new : list fis_part) : Z := foldr (fun p n => fp_size p + n) 0 new.
Definition sized (new : list fis_part) : Prop := Forall (fun p => 0 < fp_size p) (take (length new - 1) new).

(** The place of an entry, when all in front of it have sizes. *)
Lemma part_start_total new o s k p :
  sized new -> new !! k = Some p -> 0 <= o < 2 ^ 32 -> 0 <= s < 2 ^ 32 ->
  part_start new o s k = (u32 (o + total (take k new)), u32 (s - total (take k new))).
Proof.
  unfold sized. revert o s k. induction new as [|q new IH]; intros o s k Hs Hk Ho Hsz; [done|]. destruct k as [|k].
  { cbn. by rewrite Z.add_0_r, Z.sub_0_r, !u32_small by lia. }
  cbn in Hk. destruct new as [|q' new]; [done|]. change (Forall (fun p => 0 < fp_size p) (q :: take (length new) (q' :: new))) in Hs.
  apply Forall_cons in Hs as [Hq Hs]. change (total (take (S k) (q :: q' :: new))) with (fp_size q + total (take k (q' :: new))).
  change (part_start (q :: q' :: new) o s (S k)) with
    (let n := if 0 <? fp_size q then fp_size q else s in part_start (q' :: new) (u32 (o + n)) (u32 (s - n)) k).
  rewrite (proj2 (Z.ltb_lt 0 (fp_size q)) Hq). cbv zeta. rewrite (IH _ _ k); [|cbn [length Nat.sub]; by rewrite Nat.sub_0_r|done|apply u32_range|apply u32_range].
  unfold u32. rewrite Zplus_mod_idemp_l, Zminus_mod_idemp_l. do 2 f_equal; lia.
Qed.

Lemma total_app l1 l2 : total (l1 ++ l2) = total l1 + total l2.
Proof. unfold total. induction l1 as [|p l1 IH]; cbn; lia. Qed.

Lemma total_nonneg new : Forall part_ok new -> 0 <= total new.
Proof. unfold total. induction 1 as [|p new (_ & ? & _) _ IH]; cbn; lia. Qed.

Lemma total_take new k p : Forall part_ok new -> new !! k = Some p ->
  0 <= total (take k new) /\ total (take k new) + fp_size p <= total new.
Proof.
  intros Hn Hk. split; [by apply total_nonneg, Forall_take|]. rewrite <- (take_drop_middle new k p Hk) at 2.
  rewrite total_app. pose proof (total_nonneg (drop (S k) new) ltac:(by apply Forall_drop)) as H.
  unfold total in *. cbn. lia.
Qed.

(** * What the table says

    The entries of a block: they follow each other up to one whose name starts with 0 or 0xff,
    or to the end of the block. *)
Definition live (e : list Z) : Prop := exists b rest, e = b :: rest /\ b <> 0 /\ b <> 0xff.
Record fis_table (m : list Z) (t : list (list Z)) : Prop := {
  ft_entry i e : t !! i = Some e -> e = slice m (Z.of_nat i * 256) 256 /\ live e;
  ft_room : Z.of_nat (length t) * 256 <= Z.of_nat (length m);
  ft_end : Z.of_nat (length m) < (Z.of_nat (length t) + 1) * 256 \/ ~ live (slice m (Z.of_nat (length t) * 256) 256)
}.

(** An entry with the name of one of some partitions: names end at a zero or after 16 bytes. *)
Definition named (old : list fis_part) (e : list Z) : Prop :=
  exists p, p ∈ old /\ until_zero (take 16 e) = until_zero (take 16 (fp_name p)).

(** The first and the last of these entries. *)
Record old_span (old : list fis_part) (t : list (list Z)) (first last : nat) : Prop := {
  os_first : exists e, t !! first = Some e /\ named old e;
  os_last : exists e, t !! last = Some e /\ named old e;
  os_all i e : t !! i = Some e -> named old e -> (first <= i <= last)%nat
}.

(** Where the flash area ends behind the base [top]: at the lowest base above, or at [top]
    itself if there is none. *)
Definition area_end (t : list (list Z)) (top hi : Z) : Prop :=
  (exists e, e ∈ t /\ top < entry_base e /\ hi = entry_base e /\ forall e', e' ∈ t -> top < entry_base e' -> hi <= entry_base e') \/
  (hi = top /\ forall e', e' ∈ t -> entry_base e' <= top).

Lemma entry_end_live e : entry_end e = true <-> ~ live e.
Proof.
  unfold live. destruct e as [|b rest]; cbn; [split; [intros _ (? & ? & ? & _); done|done]|].
  destruct (Z.eqb_spec b 0), (Z.eqb_spec b 0xff); cbn; split; try done; try (intros _ (x & y & [= <- <-] & ? & ?); done).
  intros H. destruct H. by exists b, rest.
Qed.

Lemma table_entries_spec m n t : forall i,
  (forall k e, t !! k = Some e -> e = entry_at m (i + Z.of_nat k) /\ entry_end e = false) -> (length t <= n)%nat ->
  (length t = n \/ entry_end (entry_at m (i + Z.of_nat (length t))) = true) -> table_entries n m i = t.
Proof.
  revert t. induction n as [|n IH]; intros t i Ht Hl Hend; [by destruct t; cbn in Hl; [|lia]|]. cbn [table_entries].
  destruct t as [|e t].
  - destruct Hend as [?|Hend]; [done|]. cbn in Hend. rewrite Z.add_0_r in Hend. by rewrite Hend.
  - destruct (Ht 0%nat e eq_refl) as [E He]. rewrite Z.add_0_r in E. rewrite <- E, He. f_equal. apply IH.
    + intros k e' Hk. replace (i + 1 + Z.of_nat k) with (i + Z.of_nat (S k)) by lia. by apply Ht.
    + cbn in Hl. lia.
    + cbn [length] in Hend. destruct Hend as [|Hend]; [left; lia|right].
      by replace (i + 1 + Z.of_nat (length t)) with (i + Z.of_nat (S (length t))) by lia.
Qed.

Lemma fis_table_eq m t : fis_table m t -> table m (Z.of_nat (length m)) = t.
Proof.
  intros [He Hr Hend]. unfold table, sizeof_fis_image_desc. apply table_entries_spec.
  - intros k e Hk. destruct (He k e Hk) as [-> Hl]. split; [done|]. apply not_true_is_false. by rewrite entry_end_live; auto.
  - apply Nat2Z.inj_le. rewrite Z2Nat.id by (apply Z.div_pos; lia). apply Z.div_le_lower_bound; lia.
  - destruct Hend as [Hend|Hend]; [left|right; by apply entry_end_live]. apply Nat2Z.inj. rewrite Z2Nat.id by (apply Z.div_pos; lia).
    apply Z.div_unique with (Z.of_nat (length m) - Z.of_nat (length t) * 256); lia.
Qed.

(** The first and the last element that passes. *)
Lemma filter_seq_first (P : nat -> bool) s n first :
  (s <= first < s + n)%nat -> P first = true -> (forall i, (s <= i < first)%nat -> P i = false) ->
  hd_error (List.filter P (seq s n)) = Some first.
Proof.
  revert s. induction n as [|n IH]; intros s Hf HP Hb; [lia|]. cbn [seq List.filter].
  destruct (decide (s = first)) as [->|]; [by rewrite HP|]. rewrite (Hb s) by lia. apply IH; [lia|done|]. intros i Hi. apply Hb. lia.
Qed.

Lemma filter_seq_last (P : nat -> bool) s n last :
  (s <= last < s + n)%nat -> P last = true -> (forall i, (last < i < s + n)%nat -> P i = false) ->
  List.last (List.filter P (seq s n)) 0%nat = last.
Proof.
  revert s. induction n as [|n IH]; intros s Hf HP Hb; [lia|]. cbn [seq List.filter].
  destruct (decide (s = last)) as [->|Hne].
  - rewrite HP. assert (List.filter P (seq (S last) n) = []) as ->; [|done].
    assert (forall k j, (last < j)%nat -> (j + k <= last + S n)%nat -> List.filter P (seq j k) = []) as H.
    { induction k as [|k IHk]; intros j Hj Hjk; [done|]. cbn. rewrite (Hb j) by lia. apply IHk; lia. }
    apply H; lia.
  - assert (List.last (List.filter P (seq (S s) n)) 0%nat = last) as E by (apply IH; [lia|done|]; intros i Hi; apply Hb; lia).
    destruct (P s); [|done]. destruct (List.filter P (seq (S s) n)) as [|x l] eqn:El; [|exact E].
    assert (last ∈ List.filter P (seq (S s) n)) as Hin.
    { apply list_elem_of_In, filter_In. split; [|done]. apply in_seq. lia. }
    rewrite El in Hin. by apply not_elem_of_nil in Hin.
Qed.

Lemma is_old_named old e : is_old old e = true <-> named old e.
Proof.
  unfold is_old, named, name_eq, name_key, entry_name, fis_name_len. rewrite existsb_exists. split.
  - intros (p & Hp & E%bool_decide_eq_true). exists p. rewrite take_take in E. by rewrite list_elem_of_In.
  - intros (p & Hp & E). exists p. rewrite <- list_elem_of_In. split; [done|]. apply bool_decide_eq_true. by rewrite take_take.
Qed.

Lemma old_span_range old m t eb first last :
  table m eb = t -> old_span old t first last -> old_range old m eb = Some (first, last).
Proof.
  intros Ht [(e1 & H1 & N1) (e2 & H2 & N2) Hall]. unfold old_range. rewrite Ht. unfold old_positions.
  apply lookup_lt_Some in H1 as L1. apply lookup_lt_Some in H2 as L2.
  assert (forall i e, t !! i = Some e -> is_old old e = true -> (first <= i <= last)%nat) as Hall'
    by (intros i e Hi Ho; apply (Hall i e Hi), is_old_named, Ho).
  assert (forall i e, t !! i = Some e -> ~ (first <= i <= last)%nat -> is_old old e = false) as Hout
    by (intros i e Hi Hn; apply not_true_is_false; intros Ho; by apply Hn, (Hall' i e)).
  pose proof (Hall _ _ H1 N1). pose proof (Hall _ _ H2 N2). apply is_old_named in N1, N2.
  rewrite (filter_seq_first _ 0 (length t) first), (filter_seq_last _ 0 (length t) last); [done|lia|by rewrite H2| |lia|by rewrite H1|];
    intros i Hi; destruct (t !! i) as [e|] eqn:E; try done; apply (Hout i e E); lia.
Qed.

(** The two passes that look for the end of the area. *)
Lemma max_base_spec t :
  (forall e, e ∈ t -> entry_base e <= max_base t) /\ (max_base t = 0 \/ exists e, e ∈ t /\ max_base t = entry_base e).
Proof.
  unfold max_base. assert (forall o, o <= foldl (fun o e => if o <? entry_base e then entry_base e else o) o t /\
    (forall e, e ∈ t -> entry_base e <= foldl (fun o e => if o <? entry_base e then entry_base e else o) o t) /\
    (foldl (fun o e => if o <? entry_base e then entry_base e else o) o t = o \/
     exists e, e ∈ t /\ foldl (fun o e => if o <? entry_base e then entry_base e else o) o t = entry_base e)) as H; [|apply (H 0)].
  induction t as [|x t IH]; intros o; cbn [foldl].
  { split; [lia|]. split; [intros e He; by apply not_elem_of_nil in He|auto]. }
  destruct (IH (if o <? entry_base x then entry_base x else o)) as (H1 & H2 & H3). set (r := foldl _ _ t) in *.
  destruct (Z.ltb_spec o (entry_base x)); (split; [lia|]); split.
  - intros e [->|He]%elem_of_cons; [lia|auto].
  - apply or_intror. destruct H3 as [->|(e & He & ->)]; [exists x|exists e]; rewrite elem_of_cons; auto.
  - intros e [->|He]%elem_of_cons; [lia|auto].
  - destruct H3 as [->|(e & He & ->)]; [auto|]. apply or_intror. exists e. rewrite elem_of_cons. auto.
Qed.

Lemma next_base_spec lo t : forall o,
  next_base lo t o <= o /\ (forall e, e ∈ t -> lo < entry_base e -> next_base lo t o <= entry_base e) /\
  (next_base lo t o = o \/ exists e, e ∈ t /\ lo < entry_base e /\ next_base lo t o = entry_base e).
Proof.
  unfold next_base. induction t as [|x t IH]; intros o; cbn [foldl].
  { split; [lia|]. split; [intros e He; by apply not_elem_of_nil in He|auto]. }
  destruct (IH (if (lo <? entry_base x) && (entry_base x <? o) then entry_base x else o)) as (H1 & H2 & H3).
  set (r := foldl _ _ t) in *. destruct (Z.ltb_spec lo (entry_base x)), (Z.ltb_spec (entry_base x) o); cbn [andb] in *; (split; [lia|]); split.
  all: try (intros e [->|He]%elem_of_cons Hlt; [lia|auto]).
  all: destruct H3 as [->|(e & He & Hlt & ->)]; [|apply or_intror; exists e; rewrite elem_of_cons; auto]; auto.
  apply or_intror. exists x. rewrite elem_of_cons. auto.
Qed.

Lemma area_end_eq t top hi : area_end t top hi -> (exists e, e ∈ t /\ entry_base e = top) -> 0 <= top ->
  next_base top t (max_base t) = hi.
Proof.
  intros Ha (e0 & He0 & E0) Htop. destruct (max_base_spec t) as [M1 M2]. destruct (next_base_spec top t (max_base t)) as (N1 & N2 & N3).
  pose proof (M1 e0 He0) as M0. destruct Ha as [(e & He & Hlt & -> & Hleast)|[-> Hnone]].
  - pose proof (N2 e He Hlt). pose proof (M1 e He). destruct N3 as [N3|(e' & He' & Hlt' & N3)].
    + destruct M2 as [M2|(e' & He' & M2)]; [lia|]. specialize (Hleast e' He'). lia.
    + specialize (Hleast e' He' Hlt'). lia.
  - destruct N3 as [N3|(e' & He' & Hlt' & _)]; [|specialize (Hnone e' He'); lia].
    destruct M2 as [M2|(e' & He' & M2)]; [lia|]. specialize (Hnone e' He'). lia.
Qed.

Lemma part_start_range new o s k :
  0 <= o < 2 ^ 32 -> 0 <= s < 2 ^ 32 ->
  0 <= (part_start new o s k).1 < 2 ^ 32 /\ 0 <= (part_start new o s k).2 < 2 ^ 32.
Proof.
  revert o s k. induction new as [|q new IH]; intros o s [|k] Ho Hs; try done. cbn [part_start].
  apply IH; apply u32_range.
Qed.

Lemma entry_describes p o s :
  part_ok p -> 0 <= o < 2 ^ 32 -> 0 <= s < 2 ^ 32 -> describes (fis_entry p o s) p o (part_size p s).
Proof.
  intros Hp Ho Hs. pose proof (entry_fields p o s [] Hp Ho Hs) as Hf. cbv zeta in Hf. rewrite app_nil_r in Hf.
  destruct Hf as (F1 & F2 & F3 & F4 & F5 & F6 & F7 & F8). by split_and!.
Qed.

Lemma old_area_range m eb first last :
  Forall is_byte m -> 0 <= (old_area m eb first last).1 < 2 ^ 32 /\ 0 <= (old_area m eb first last).2 < 2 ^ 32.
Proof.
  intros Hm. unfold old_area. split; [|apply u32_range]. cbn [fst].
  assert (forall i, 0 <= entry_base (entry_at m i) < 2 ^ 32) as Hb.
  { intros i. apply (cpu_field_range (entry_at m i) 16 4); [by apply slice_bytes|lia]. }
  pose proof (Hb (Z.of_nat first)). pose proof (Hb (Z.of_nat last)). lia.
Qed.

(** The entries of the updated block. *)
Lemma remapped_entries m eb first last new :
  Forall is_byte m -> Forall part_ok new -> (first <= last)%nat -> (last + 1 <= first + length new)%nat ->
  Z.of_nat (first + length new) * sizeof_fis_image_desc <= Z.of_nat (length m) ->
  let m' := remapped m eb first last new in
  let '(lo, size) := old_area m eb first last in
  length m' = length m /\
  (forall i, (i < first)%nat -> entry_at m' (Z.of_nat i) = entry_at m (Z.of_nat i)) /\
  (forall k p, new !! k = Some p ->
     entry_at m' (Z.of_nat (first + k)) = fis_entry p (part_start new lo size k).1 (part_start new lo size k).2) /\
  (forall i, 0 <= i -> (Z.of_nat (first + length new) + i + 1) * sizeof_fis_image_desc <= Z.of_nat (length m) ->
     entry_at m' (Z.of_nat (first + length new) + i) = entry_at m (Z.of_nat last + 1 + i)).
Proof.
  intros Hm Hnew Hfl Hgrow Hroom m'. unfold m', remapped. destruct (old_area m eb first last) as [lo size] eqn:Ea.
  unfold sizeof_fis_image_desc in *.
  assert (length (moved m (Z.of_nat first) (Z.of_nat last) (Z.of_nat (length new))) = length m) as Hml.
  { apply length_moved; unfold sizeof_fis_image_desc; lia. }
  pose proof (length_entries new lo size Hnew) as Hel. unfold sizeof_fis_image_desc in Hel.
  set (mv := moved _ _ _ _) in *. unfold entry_at, sizeof_fis_image_desc. split_and!.
  - rewrite length_blit by lia. done.
  - intros i Hi. rewrite slice_blit_before by lia. unfold mv, moved, sizeof_fis_image_desc.
    rewrite slice_app_l by (rewrite ?length_slice by lia; lia). rewrite slice_slice by lia. done.
  - intros k p Hk. destruct (entries_at new lo size k p Hnew Hk) as (l & r & E & Hlk).
    unfold sizeof_fis_image_desc in Hlk. apply lookup_lt_Some in Hk as Hkl.
    assert (part_ok p) as Hp by (by eapply Forall_lookup_1).
    replace (Z.of_nat (first + k) * 256) with (Z.of_nat first * 256 + Z.of_nat (length l)) by lia.
    rewrite slice_in_blit by lia. rewrite E, slice_app_r, Z.sub_diag by lia.
    apply slice_head. by rewrite length_entry.
  - intros i Hi Hin. rewrite slice_blit_after by lia. unfold mv, moved, sizeof_fis_image_desc.
    assert (Z.of_nat (length (slice m 0 ((Z.of_nat first + Z.of_nat (length new)) * 256)))
      = (Z.of_nat first + Z.of_nat (length new)) * 256) as Hs by (apply length_slice; lia).
    rewrite slice_app_r by lia. rewrite Hs, slice_slice by lia. f_equal. lia.
Qed.

(** C39: [fis_remap] replaces the entries of the old partitions.  The directory [m] can be
    opened and has the entries [t]; [first] and [last] are the first and the last with an old
    name, at the bases [entry_base ea] and [entry_base eb]; the flash area goes from the lower
    base to [hi], the lowest base of an entry above both, or the higher base itself if there is
    none.  With at least as many new partitions as places from [first] to [last], room for them
    in the block, and sizes for all but the last one, [fis_remap] returns 0 and writes back a
    block in which the entries in front of [first] are unchanged, the new entries follow with
    the names, addresses, lengths and checksums that were asked for, and then the entries behind
    [last], in order.  Each new entry starts where the one in front of it ends, the first one at
    the start of the area, and an open size is what is left of the area (in 32 bits); when the
    sizes fit into the area, all entries lie inside it and one with an open size fills it. *)
Theorem fis_remap_replaces {K} `{Os K} f f1 old new (w w1 : world K) m t first last ea eb hi :
  fis_open f w = Ret (inr f1) w1 -> fis_desc f1 = Some m -> fis_erasesize f1 = Z.of_nat (length m) ->
  Forall is_byte m -> Z.of_nat (length m) < 2 ^ 31 ->
  fis_table m t -> old_span old t first last -> t !! first = Some ea -> t !! last = Some eb ->
  area_end t (Z.max (entry_base ea) (entry_base eb)) hi ->
  Forall part_ok new -> sized new -> (last + 1 <= first + length new)%nat ->
  Z.of_nat (first + length new) * 256 <= Z.of_nat (length m) ->
  exists m' w',
    fis_remap f old new w = Ret (inr (0, mk_fis (-1) None (fis_erasesize f1))) w' /\
    w_os w' = fis_ends f1 m' (w_os w1) /\
    length m' = length m /\
    (forall i, (i < first)%nat -> entry_at m' (Z.of_nat i) = entry_at m (Z.of_nat i)) /\
    (forall i, 0 <= i -> (Z.of_nat (first + length new) + i + 1) * 256 <= Z.of_nat (length m) ->
       entry_at m' (Z.of_nat (first + length new) + i) = entry_at m (Z.of_nat last + 1 + i)) /\
    let lo := Z.min (entry_base ea) (entry_base eb) in
    forall k p, new !! k = Some p ->
      let base := lo + total (take k new) in
      let size := if 0 <? fp_size p then fp_size p else hi - base in
      describes (entry_at m' (Z.of_nat (first + k))) p (u32 base) (u32 size) /\
      (lo + total new <= hi -> u32 base = base /\ u32 size = size /\ base + size <= hi).
Proof.
  intros Hopen Hdesc Heb Hm Hl Ht Hspan Hea Hebl Harea Hnew Hsized Hgrow Hroom.
  pose proof (fis_table_eq m t Ht) as Et. rewrite <- Heb in Et. pose proof (old_span_range old m t _ first last Et Hspan) as Hr.
  destruct (old_range_bounds _ _ _ _ _ Hr ltac:(lia)) as [Hfl _]. destruct (ft_entry _ _ Ht _ _ Hea) as [Ea _], (ft_entry _ _ Ht _ _ Hebl) as [Eb _].
  assert (forall e, e ∈ t -> 0 <= entry_base e < 2 ^ 32) as Hbase.
  { intros e [i He]%list_elem_of_lookup. destruct (ft_entry _ _ Ht _ _ He) as [-> _].
    apply (cpu_field_range _ 16 4); [by apply slice_bytes|lia]. }
  apply list_elem_of_lookup_2 in Hea as Iea, Hebl as Ieb. pose proof (Hbase ea Iea). pose proof (Hbase eb Ieb).
  assert (old_area m (fis_erasesize f1) first last = (Z.min (entry_base ea) (entry_base eb), u32 (hi - Z.min (entry_base ea) (entry_base eb)))) as Eo.
  { unfold old_area. rewrite Et. unfold entry_at, sizeof_fis_image_desc. rewrite <- Ea, <- Eb. f_equal. do 2 f_equal.
    apply area_end_eq; [done| |lia]. destruct (Z.max_spec (entry_base ea) (entry_base eb)) as [[_ ->]|[_ ->]]; eauto. }
  assert (0 <= hi < 2 ^ 32) as Hhi by (destruct Harea as [(e & He & _ & -> & _)|[-> _]]; [by apply Hbase|lia]).
  eexists _, _. split; [by apply (fis_remap_spec f f1 old new w w1 m first last)|]. split; [done|].
  pose proof (remapped_entries m (fis_erasesize f1) first last new Hm Hnew Hfl Hgrow Hroom) as He. cbv zeta in He. rewrite Eo in He.
  destruct He as (E1 & E2 & E3 & E4). split; [done|]. split; [done|]. split; [done|]. intros lo k p Hk base size. fold lo in E3.
  assert (part_ok p) as Hp by (by eapply Forall_lookup_1). destruct (total_take new k p Hnew Hk) as [T0 T1].
  rewrite (E3 k p Hk), (part_start_total new lo _ k p Hsized Hk) by (apply u32_range || lia). cbn [fst snd]. split.
  - pose proof (entry_describes p (u32 base) (u32 (hi - base)) Hp (u32_range _) (u32_range _)) as Hd.
    replace (u32 (u32 (hi - lo) - total (take k new))) with (u32 (hi - base))
      by (unfold u32, base; rewrite Zminus_mod_idemp_l; f_equal; lia).
    assert (u32 size = part_size p (u32 (hi - base))) as ->; [|exact Hd].
    unfold size, part_size. destruct (0 <? fp_size p); [|done]. apply u32_small. apply Hp.
  - intros Hfit. destruct Hp as (_ & Hps & _). unfold size, base. destruct (Z.ltb_spec 0 (fp_size p)); rewrite !u32_small by lia; lia.
Qed.
End content.

(** * Runs *)

#[local] Existing Instance aarch64.

(** ** A device that starts with an image tag *)

Definition tag_fields : list Z :=
  replicate 84 0 ++ ascii_bytes "0" ++ replicate 21 0 ++ ascii_bytes "1000" ++ replicate 18 0 ++
  ascii_bytes "2000" ++ replicate 64 0 ++ replicate 40 7.
Definition tag_data : list Z :=
  tag_fields ++ cpu_bytes 4 (foldl crc_byte CRC_START tag_fields) ++ replicate 784 0xff.
Definition tag_flash : flash := mk_flash (mk_mtd_info_user 3 1024 512 1) tag_data [].
Definition tag_tool : tool :=
  mk_tool (mk_devinfo 0 0 0) (mk_image None 0 MTD_IMAGE_FORMAT_UNKNOWN)
    (mk_options false None "" 0 ToolMtd.TRX_MAGIC None) (mk_jffs2 0 0 None 0 0 0 0).
Definition tag_start : world machine := mk_world tag_tool (sim tag_flash).

Lemma fixtag_repairs_witness :
  xwp (ToolTag.mtd_fixtrx 1 "fw" 0 0)
    (fun c w' => c = 1 /\ ~ tag_valid (slice (f_data tag_flash) 0 tag_used) /\ v_flash (view_of (w_os w')) !! "mtd0"%string = Some tag_flash)
    (fun r w' => r = 0 /\ tag_valid (slice (f_data tag_flash) 0 tag_used) /\ tag_outcome "mtd0" tag_flash 0 w')
    tag_start.
Proof.
  apply (fixtag_repairs 1 "fw" 0 0 tag_start (opened tag_start) 3 "mtd0" tag_flash).
  - run.
  - lia.
  - split; [run|exists 0; by split| |run]. split; cbn; try lia; [ |exists 2; run|by right].
    apply Forall_forall. intros x Hx%list_elem_of_In.
    assert (forallb (fun b => (0 <=? b) && (b <? 256)) tag_data = true) as Hb by run.
    apply (proj1 (forallb_forall _ _) Hb) in Hx. unfold is_byte. lia.
  - run.
  - lia.
  - vm_compute. discriminate.
  - lia.
Defined.

(** It was to be repaired: its root length is not zero. *)
Example tag_needs_repair :
  tag_number (slice (f_data tag_flash) 0 tag_used) tag_root_length = 1000 /\
  match ToolTag.mtd_fixtrx 1 "fw" 0 0 tag_start with
  | Ret (inr 0) w => bool_decide (f_data <$> v_flash (view_of (w_os w)) !! "mtd0"%string = Some tag_data) = false
  | _ => False
  end.
Proof. vm_compute. done. Qed.

(** ** A FIS directory *)

Definition name16 (s : string) : list Z := ascii_bytes s ++ replicate (16 - length (ascii_bytes s)) 0.
Definition part (s : string) (size : Z) : fis_part := mk_fis_part (name16 s) 0x80000000 size 0 7.
Definition fis_block : list Z :=
  fis_entry (part "RedBoot" 0x30000) 0 0 ++ fis_entry (part "linux" 0x70000) 0x30000 0 ++
  fis_entry (part "FIS directory" 0x10000) 0xf0000 0 ++ replicate 1024 0xff.
Definition fis_flash : flash := mk_flash (mk_mtd_info_user 3 1792 1792 1) fis_block [].
Definition fis_sim : machine :=
  mk_machine (mk_view {["mtd0"%string := fis_flash]} ∅ true) {["FIS directory"%string := FdFlash "mtd0" 0]} [] [] [] [].
Definition fis_world : world machine := mk_world tag_tool fis_sim.
Definition fis_opened : fis * world machine :=
  match fis_open fis_init fis_world with Ret (inr f) w => (f, w) | _ => (fis_init, fis_world) end.
Definition fis_old : list fis_part := [part "linux" 0].
Definition fis_new : list fis_part := [part "kernel" 0x20000; part "rootfs" 0].

Definition fis_linux : list Z := slice fis_block 256 256.
Definition fis_entries_old : list (list Z) := (fun i => entry_at fis_block i) <$> [0; 1; 2].

Lemma fis_remap_replaces_witness :
  exists m' w',
    fis_remap fis_init fis_old fis_new fis_world = Ret (inr (0, mk_fis (-1) None 1792)) w' /\
    w_os w' = fis_ends fis_opened.1 m' (w_os fis_opened.2) /\
    length m' = length fis_block /\
    (forall i, (i < 1)%nat -> entry_at m' (Z.of_nat i) = entry_at fis_block (Z.of_nat i)) /\
    (forall i, 0 <= i -> (Z.of_nat (1 + length fis_new) + i + 1) * 256 <= Z.of_nat (length fis_block) ->
       entry_at m' (Z.of_nat (1 + length fis_new) + i) = entry_at fis_block (Z.of_nat 1 + 1 + i)) /\
    let lo := Z.min (entry_base fis_linux) (entry_base fis_linux) in
    forall k p, fis_new !! k = Some p ->
      let base := lo + total (take k fis_new) in
      let size := if 0 <? fp_size p then fp_size p else 0xf0000 - base in
      describes (entry_at m' (Z.of_nat (1 + k))) p (u32 base) (u32 size) /\
      (lo + total fis_new <= 0xf0000 -> u32 base = base /\ u32 size = size /\ base + size <= 0xf0000).
Proof.
  apply (fis_remap_replaces fis_init fis_opened.1 fis_old fis_new fis_world fis_opened.2 fis_block
    fis_entries_old 1%nat 1%nat fis_linux fis_linux 0xf0000).
  - run.
  - run.
  - run.
  - apply Forall_forall. intros x Hx%list_elem_of_In.
    assert (forallb (fun b => (0 <=? b) && (b <? 256)) fis_block = true) as Hb by run.
    apply (proj1 (forallb_forall _ _) Hb) in Hx. unfold is_byte. lia.
  - run.
  - split.
    + intros i e He. destruct i as [|[|[|i]]]; [| | |done]; injection He as <-; (split; [run|]); eexists _, _; (split; [run|lia]).
    + vm_compute. discriminate.
    + apply or_intror. intros (b & rest & E & H). vm_compute in E. injection E as <- _. lia.
  - split.
    + exists fis_linux. split; [run|]. exists (part "linux" 0). split; [apply list_elem_of_singleton; done|run].
    + exists fis_linux. split; [run|]. exists (part "linux" 0). split; [apply list_elem_of_singleton; done|run].
    + intros i e He (p & Hp%list_elem_of_singleton & E). subst p.
      destruct i as [|[|[|i]]]; [|lia| |done]; injection He as <-; vm_compute in E; discriminate E.
  - run.
  - run.
  - apply or_introl. exists (slice fis_block 512 256). split_and!; [by apply (list_elem_of_lookup_2 _ 2%nat)|run|run|].
    intros e' [i He]%list_elem_of_lookup. destruct i as [|[|[|i]]]; [| | |done]; injection He as <-; vm_compute; intros; congruence.
  - repeat constructor; (discriminate || reflexivity).
  - repeat constructor.
  - cbn. lia.
  - vm_compute. discriminate.
Defined.

(** The sizes fit into the area. *)
Example fis_remap_fits : Z.min (entry_base fis_linux) (entry_base fis_linux) + total fis_new = 0x50000 /\ 0x50000 <= 0xf0000.
Proof. vm_compute. split; [done|discriminate]. Qed.

(** The area of the old partition is divided: 0x20000 bytes and the rest up to the FIS
    directory. *)
Example fis_area : old_area fis_block 1792 1 1 = (0x30000, 0xc0000).
Proof. vm_compute. reflexivity. Qed.

(** One partition in the place of two: the tool writes outside the block. *)
Example fis_remap_overruns :
  fis_remap fis_init [part "RedBoot" 0; part "linux" 0] [part "all" 0] fis_world = Fault.
Proof.
  apply (fis_remap_shrink fis_init fis_opened.1 _ _ fis_world fis_opened.2 fis_block 0%nat 1%nat); try (run || (cbn; lia)).
Qed.

(** ** Writing an image of two partitions *)

Definition two_parts : list fis_part := [part "kernel" 16; part "rootfs" 0].
Definition write_parts : list fis_part :=
  ((fun p => mk_fis_part (fp_name p) (fp_loadaddr p) (fp_size p) 0 0) <$> two_parts) ++ replicate 6 zero_part.

Lemma fis_write_measures_witness :
  xwp (let! fd := write_resume all_files "fw" 0 in
       xloop 100 (fis_write_round all_files 100 0 0)
         (mk_wstate "fw" [] fd 0 0 0 0 0 false, 0, Some (mk_fis_write [] write_parts 2 (Some O) fis_init)))
    (write_exit "mtd0" write_flash write_image (v_reliable (view_of (w_os (opened (start write_flash))))))
    (fun '(st, fw) w' =>
       v_flash (view_of (w_os w')) !! "mtd0"%string =
         Some (set_data (place (f_ebn write_flash) (bad_flags write_flash) (f_data write_flash) write_image) write_flash) /\
       exists parts cur segs, fw = Some (mk_fis_write [] parts 2 (Some cur) fis_init) /\
         measured write_parts (f_ebn write_flash) parts cur write_image segs)
    (start write_flash).
Proof.
  pose proof (fis_write_measures all_files 100 0 "fw" (start write_flash) (opened (start write_flash)) 3 "mtd0" write_flash
    (replicate 16 7) 4 image_bytes 1 [] write_parts 2 fis_init) as Hm. cbv zeta in Hm. apply Hm; clear Hm.
  - run.
  - lia.
  - run.
  - by split; run.
  - apply nand_ok; [by left|run|run].
  - run.
  - run.
  - run.
  - lia.
  - split; [run|run|exists 1%nat; split; [run|lia]|run|by split|].
    apply Forall_app_2; [apply Forall_take; by apply Forall_replicate|]. repeat constructor; lia.
  - discriminate.
  - change (Z.to_nat (f_size write_flash)) with 64%nat. lia.
  - run.
  - repeat constructor; done.
  - run.
Defined.

(** The first partition gets the first block, the second one the rest of the image. *)
Example two_parts_measured :
  match xloop 100 (fis_write_round all_files 100 0 0)
      (mk_wstate "fw" [] 3 0 0 0 0 0 false, 0, Some (mk_fis_write [] write_parts 2 (Some O) fis_init))
      (opened (start write_flash)) with
  | Ret (inr (_, Some fw)) _ => fp_length <$> take 2 (fw_new fw)
  | _ => []
  end = [16; 4].
Proof. vm_compute. reflexivity. Qed.

(** Parsing the option [-F]. *)
Example layout_parsed :
  tokens ","%char "kernel:0x100000:0x80060000,rootfs" = ["kernel:0x100000:0x80060000"; "rootfs"]%string /\
  match new_part (K := machine) "kernel:0x100000:80060000" (start write_flash) with
  | Ret (inr p) _ => Some (name_key (fp_name p), fp_size p, fp_loadaddr p)
  | _ => None
  end = Some (ascii_bytes "kernel", 0x100000, 0x80060000).
Proof. vm_compute. done. Qed.
