(* ===== verification/Bcm4908.v ===== *)
(** The tool for images of Broadcom BCM4908 boards,
    [src/package/utils/bcm4908img/src/bcm4908img.c]: it builds such an image from files,
    checks it, takes it apart, and renames files in its JFFS2 boot file system, the one the
    kernel's parser for Broadcom whole flash images reads. *)

From stdpp Require Import base list numbers strings gmap.
From Stdlib Require Import ZArith Lia.
From S2P Require Import Prelude Platform CStrings.
Local Open Scope Z_scope.
Local Open Scope cprog_scope.

Module Bcm.

Definition EACCES : Z := 13.
Definition EPROTO : Z := 71.

Definition WFI_VERSION : Z := 0x00005732.
Definition WFI_NAND128_FLASH : Z := 3.
Definition WFI_FLAG_SUPPORTS_BTRM : Z := 0x2.
Definition UBI_EC_HDR_MAGIC : Z := 0x55424923.
Definition JFFS2_MAGIC_BITMASK : Z := 0x1985.
Definition JFFS2_NODETYPE_DIRENT : Z := 0xe001.

(** Sizes of [struct bcm4908img_tail], [struct linksys_tail], [struct jffs2_unknown_node] and
    [struct jffs2_raw_dirent]. *)
Definition sizeof_tail : Z := 20.
Definition sizeof_linksys_tail : Z := 256.
Definition sizeof_unknown_node : Z := 12.
Definition sizeof_raw_dirent : Z := 40.

(** * CRC32 *)

Definition crc32_tbl : list Z := [
  0x00000000; 0x77073096; 0xee0e612c; 0x990951ba; 0x076dc419; 0x706af48f; 0xe963a535; 0x9e6495a3;
  0x0edb8832; 0x79dcb8a4; 0xe0d5e91e; 0x97d2d988; 0x09b64c2b; 0x7eb17cbd; 0xe7b82d07; 0x90bf1d91;
  0x1db71064; 0x6ab020f2; 0xf3b97148; 0x84be41de; 0x1adad47d; 0x6ddde4eb; 0xf4d4b551; 0x83d385c7;
  0x136c9856; 0x646ba8c0; 0xfd62f97a; 0x8a65c9ec; 0x14015c4f; 0x63066cd9; 0xfa0f3d63; 0x8d080df5;
  0x3b6e20c8; 0x4c69105e; 0xd56041e4; 0xa2677172; 0x3c03e4d1; 0x4b04d447; 0xd20d85fd; 0xa50ab56b;
  0x35b5a8fa; 0x42b2986c; 0xdbbbc9d6; 0xacbcf940; 0x32d86ce3; 0x45df5c75; 0xdcd60dcf; 0xabd13d59;
  0x26d930ac; 0x51de003a; 0xc8d75180; 0xbfd06116; 0x21b4f4b5; 0x56b3c423; 0xcfba9599; 0xb8bda50f;
  0x2802b89e; 0x5f058808; 0xc60cd9b2; 0xb10be924; 0x2f6f7c87; 0x58684c11; 0xc1611dab; 0xb6662d3d;
  0x76dc4190; 0x01db7106; 0x98d220bc; 0xefd5102a; 0x71b18589; 0x06b6b51f; 0x9fbfe4a5; 0xe8b8d433;
  0x7807c9a2; 0x0f00f934; 0x9609a88e; 0xe10e9818; 0x7f6a0dbb; 0x086d3d2d; 0x91646c97; 0xe6635c01;
  0x6b6b51f4; 0x1c6c6162; 0x856530d8; 0xf262004e; 0x6c0695ed; 0x1b01a57b; 0x8208f4c1; 0xf50fc457;
  0x65b0d9c6; 0x12b7e950; 0x8bbeb8ea; 0xfcb9887c; 0x62dd1ddf; 0x15da2d49; 0x8cd37cf3; 0xfbd44c65;
  0x4db26158; 0x3ab551ce; 0xa3bc0074; 0xd4bb30e2; 0x4adfa541; 0x3dd895d7; 0xa4d1c46d; 0xd3d6f4fb;
  0x4369e96a; 0x346ed9fc; 0xad678846; 0xda60b8d0; 0x44042d73; 0x33031de5; 0xaa0a4c5f; 0xdd0d7cc9;
  0x5005713c; 0x270241aa; 0xbe0b1010; 0xc90c2086; 0x5768b525; 0x206f85b3; 0xb966d409; 0xce61e49f;
  0x5edef90e; 0x29d9c998; 0xb0d09822; 0xc7d7a8b4; 0x59b33d17; 0x2eb40d81; 0xb7bd5c3b; 0xc0ba6cad;
  0xedb88320; 0x9abfb3b6; 0x03b6e20c; 0x74b1d29a; 0xead54739; 0x9dd277af; 0x04db2615; 0x73dc1683;
  0xe3630b12; 0x94643b84; 0x0d6d6a3e; 0x7a6a5aa8; 0xe40ecf0b; 0x9309ff9d; 0x0a00ae27; 0x7d079eb1;
  0xf00f9344; 0x8708a3d2; 0x1e01f268; 0x6906c2fe; 0xf762575d; 0x806567cb; 0x196c3671; 0x6e6b06e7;
  0xfed41b76; 0x89d32be0; 0x10da7a5a; 0x67dd4acc; 0xf9b9df6f; 0x8ebeeff9; 0x17b7be43; 0x60b08ed5;
  0xd6d6a3e8; 0xa1d1937e; 0x38d8c2c4; 0x4fdff252; 0xd1bb67f1; 0xa6bc5767; 0x3fb506dd; 0x48b2364b;
  0xd80d2bda; 0xaf0a1b4c; 0x36034af6; 0x41047a60; 0xdf60efc3; 0xa867df55; 0x316e8eef; 0x4669be79;
  0xcb61b38c; 0xbc66831a; 0x256fd2a0; 0x5268e236; 0xcc0c7795; 0xbb0b4703; 0x220216b9; 0x5505262f;
  0xc5ba3bbe; 0xb2bd0b28; 0x2bb45a92; 0x5cb36a04; 0xc2d7ffa7; 0xb5d0cf31; 0x2cd99e8b; 0x5bdeae1d;
  0x9b64c2b0; 0xec63f226; 0x756aa39c; 0x026d930a; 0x9c0906a9; 0xeb0e363f; 0x72076785; 0x05005713;
  0x95bf4a82; 0xe2b87a14; 0x7bb12bae; 0x0cb61b38; 0x92d28e9b; 0xe5d5be0d; 0x7cdcefb7; 0x0bdbdf21;
  0x86d3d2d4; 0xf1d4e242; 0x68ddb3f8; 0x1fda836e; 0x81be16cd; 0xf6b9265b; 0x6fb077e1; 0x18b74777;
  0x88085ae6; 0xff0f6a70; 0x66063bca; 0x11010b5c; 0x8f659eff; 0xf862ae69; 0x616bffd3; 0x166ccf45;
  0xa00ae278; 0xd70dd2ee; 0x4e048354; 0x3903b3c2; 0xa7672661; 0xd06016f7; 0x4969474d; 0x3e6e77db;
  0xaed16a4a; 0xd9d65adc; 0x40df0b66; 0x37d83bf0; 0xa9bcae53; 0xdebb9ec5; 0x47b2cf7f; 0x30b5ffe9;
  0xbdbdf21c; 0xcabac28a; 0x53b39330; 0x24b4a3a6; 0xbad03605; 0xcdd70693; 0x54de5729; 0x23d967bf;
  0xb3667a2e; 0xc4614ab8; 0x5d681b02; 0x2a6f2b94; 0xb40bbe37; 0xc30c8ea1; 0x5a05df1b; 0x2d02ef8d].

(** [bcm4908img_crc32(crc, buf, len)]. *)
Fixpoint bcm4908img_crc32 {S} (crc : Z) (buf : list Z) (len : nat) : M S Z :=
  match len with
  | O => ret crc
  | Datatypes.S len =>
      match buf with
      | [] => fault
      | b :: buf =>
          let* t := arr_get crc32_tbl (Z.land (Z.lxor crc b) 0xff) in
          bcm4908img_crc32 (Z.lxor t (Z.shiftr crc 8)) buf len
      end
  end.

(** * The C library

    Files are byte strings under their names; a stream has a position and a mode.  A call
    that can fail takes the next entry of [bw_faults]: an error number, or [None] for success;
    when there is none left everything works.  A read or write that fails delivers part of
    the data: the entry is the number of bytes. *)
Record bcm_world := mk_bcm_world {
  bw_files : gmap (list Z) (list Z);
  bw_stdout : list Z;
  bw_faults : list (option Z)
}.

Record FILE := mk_FILE { fp_path : list Z; fp_pos : Z; fp_writable : bool }.

Inductive open_mode := ModeR | ModeRPlus | ModeWPlus.

Abbreviation prog := (M bcm_world).

Definition next_fault : prog (option Z) := fun w =>
  match bw_faults w with
  | [] => Ret None w
  | f :: fs => Ret f (mk_bcm_world (bw_files w) (bw_stdout w) fs)
  end.

Definition set_file (path content : list Z) : prog unit :=
  modify (fun w => mk_bcm_world (<[path := content]> (bw_files w)) (bw_stdout w) (bw_faults w)).
Definition print (text : list Z) : prog unit :=
  modify (fun w => mk_bcm_world (bw_files w) (bw_stdout w ++ text) (bw_faults w)).

Definition contents (fp : FILE) : prog (list Z) := gets (fun w => default [] (bw_files w !! fp_path fp)).

Definition fopen (path : list Z) (mode : open_mode) : prog (option FILE) :=
  let* f := next_fault in
  match f with
  | Some _ => ret None
  | None =>
      match mode with
      | ModeWPlus => do* set_file path [] in ret (Some (mk_FILE path 0 true))
      | _ =>
          let* file := gets (fun w => bw_files w !! path) in
          match file with
          | Some _ => ret (Some (mk_FILE path 0 (if mode is ModeRPlus then true else false)))
          | None => ret None
          end
      end
  end.

Definition advance (fp : FILE) (n : Z) : FILE := mk_FILE (fp_path fp) (fp_pos fp + n) (fp_writable fp).

(** [fread(buf, 1, n, fp)]: the bytes read. *)
Definition fread (fp : FILE) (n : Z) : prog (list Z * FILE) :=
  let* f := next_fault in
  let* c := contents fp in
  let data := slice c (fp_pos fp) n in
  let got := match f with Some k => take (Z.to_nat k) data | None => data end in
  ret (got, advance fp (Z.of_nat (length got))).

(** The contents after writing at a position, with zeros in between. *)
Definition file_put (c : list Z) (pos : Z) (data : list Z) : list Z :=
  let n := Z.to_nat pos in
  take n (c ++ replicate (n - length c) 0) ++ data ++ drop (n + length data) c.

(** [fwrite(data, 1, length data, fp)]: the number of bytes written. *)
Definition fwrite (fp : FILE) (data : list Z) : prog (Z * FILE) :=
  let* f := next_fault in
  if negb (fp_writable fp) then ret (0, fp)
  else
    let put := match f with Some k => take (Z.to_nat k) data | None => data end in
    let* c := contents fp in
    do* set_file (fp_path fp) (file_put c (fp_pos fp) put) in
    ret (Z.of_nat (length put), advance fp (Z.of_nat (length put))).

(** [fseek]: an error number, or 0. *)
Definition fseek_to (fp : FILE) (pos : Z) : prog (Z * FILE) :=
  let* f := next_fault in
  match f with
  | Some e => ret (e, fp)
  | None => if pos <? 0 then ret (EINVAL, fp) else ret (0, mk_FILE (fp_path fp) pos (fp_writable fp))
  end.
Definition fseek_set (fp : FILE) (off : Z) : prog (Z * FILE) := fseek_to fp off.
Definition fseek_end (fp : FILE) (off : Z) : prog (Z * FILE) :=
  let* c := contents fp in fseek_to fp (Z.of_nat (length c) + off).

(** [fstat]: an error number, or the size. *)
Definition fstat_size (fp : FILE) : prog (Z + Z) :=
  let* f := next_fault in
  match f with
  | Some e => ret (inl e)
  | None => let* c := contents fp in ret (inr (Z.of_nat (length c)))
  end.

(** What the standard input is: [stdin] is a regular file opened for reading. *)
Inductive stdin_kind :=
| StdinTty
| StdinUnknown
| StdinPipe
| StdinFile (path : list Z).

(** [%zu] and [%zx]. *)
Fixpoint print_digits (fuel : nat) (base v : Z) (acc : list Z) : list Z :=
  match fuel with
  | O => acc
  | Datatypes.S fuel =>
      let d := v mod base in
      let acc := (if d <? 10 then 48 + d else 87 + d) :: acc in
      if v / base =? 0 then acc else print_digits fuel base (v / base) acc
  end.
Definition print_dec (v : Z) : list Z := print_digits 64 10 v [].
Definition print_hex (v : Z) : list Z := print_digits 64 16 v [].
(** [%08x]. *)
Fixpoint print_hex8 (n : nat) (v : Z) : list Z :=
  match n with
  | O => []
  | Datatypes.S n => print_hex8 n (v / 16) ++ [if v mod 16 <? 10 then 48 + v mod 16 else 87 + v mod 16]
  end.

Section bcm4908img.
Context `{Arch} (stdin : stdin_kind).

(** [strtol(s, NULL, 0)]. *)
Definition strtol0 (s : list Z) : Z :=
  let max := 2 ^ (long_bits - 1) - 1 in
  match skip_white s with
  | 45 :: s => Z.max (- read_number s) (- max - 1)
  | 43 :: s => Z.min (read_number s) max
  | s => Z.min (read_number s) max
  end.

(** * Helpers *)

Definition bcm4908img_open (pathname : option (list Z)) (mode : open_mode) : prog (option FILE) :=
  match pathname with
  | Some path => fopen path mode
  | None =>
      match stdin with
      | StdinFile path => ret (Some (mk_FILE path 0 false))
      | _ => ret None
      end
  end.

Record bcm4908img_info := mk_info {
  cferom_offset : Z;
  bootfs_offset : Z;
  padding_offset : Z;
  rootfs_offset : Z;
  tail_offset : Z;
  info_crc32 : Z;
  info_tail : list Z
}.

(** The loop that computes the checksum: the variables [length] and [crc32], and the stream. *)
Definition crc_step (st : Z * Z * FILE) : prog (Z * Z * FILE + Z * Z * FILE) :=
  let '(length_, crc, fp) := st in
  if length_ =? 0 then ret (inr st)
  else
    let* (bytes, fp) := fread fp (Z.min 1024 length_) in
    match bytes with
    | [] => ret (inr (length_, crc, fp))
    | _ =>
        let* crc := bcm4908img_crc32 crc bytes (length bytes) in
        ret (inl (length_ - Z.of_nat (length bytes), crc, fp))
    end.
Definition crc_loop (length_ : Z) (fp : FILE) : prog (Z * Z * FILE) :=
  loop (Datatypes.S (Z.to_nat length_)) crc_step (length_, 0xffffffff, fp).

(** [bcm4908img_calc_crc32(fp, info)]: the result and the checksum. *)
Definition bcm4908img_calc_crc32 (fp : FILE) (info : bcm4908img_info) : prog (Z * Z * FILE) :=
  let* (_, fp) := fseek_set fp (ssize_t (cferom_offset info)) in
  let* (missing_, crc, fp) := crc_loop (size_t (tail_offset info - cferom_offset info)) fp in
  ret (if missing_ =? 0 then 0 else - EIO, crc, fp).

(** * Existing firmware parser *)

Definition CHK_MAGIC : Z := 0x2a23245e.
Definition LINKSYS_MAGIC : list Z := ascii_bytes ".LINKSYS.".

Definition bcm4908img_is_all_ff (buf : list Z) : bool := forallb (fun b => b =? 0xff) buf.

(** The search for the boot file system. *)
Definition bootfs_step (tail : Z) (st : Z * FILE) : prog (Z * FILE + (Z + Z) * FILE) :=
  let '(o, fp) := st in
  if o <? tail then
    let* (e, fp) := fseek_set fp (ssize_t o) in
    if negb (e =? 0) then ret (inr (inl (- e), fp))
    else
      let* (bytes, fp) := fread fp 2 in
      if negb (Z.of_nat (length bytes) =? 2) then ret (inr (inl (- EIO), fp))
      else if be_field bytes 0 2 =? 0x8519 then ret (inr (inr o, fp))
      else ret (inl (size_t (o + 0x20000), fp))
  else ret (inr (inl (- EPROTO), fp)).

(** The search for the root file system; [pad] is [info->padding_offset]. *)
Definition rootfs_step (tail : Z) (st : Z * Z * FILE) : prog (Z * Z * FILE + (Z + Z * Z) * FILE) :=
  let '(o, pad, fp) := st in
  if o <? tail then
    let* (e, fp) := fseek_set fp (ssize_t o) in
    if negb (e =? 0) then ret (inr (inl (- e), fp))
    else
      let length_ := if pad =? 0 then 256 else 4 in
      let* (bytes, fp) := fread fp length_ in
      if negb (Z.of_nat (length bytes) =? length_) then ret (inr (inl (- EIO), fp))
      else
        let pad := if (pad =? 0) && bcm4908img_is_all_ff bytes then o else pad in
        if be_field bytes 0 4 =? UBI_EC_HDR_MAGIC then ret (inr (inr (o, pad), fp))
        else ret (inl (size_t (o + 0x20000), pad, fp))
  else ret (inr (inl (- EPROTO), fp)).

Definition block_rounds (tail : Z) : nat := Datatypes.S (Datatypes.S (Z.to_nat (tail / 0x20000))).

(** From the offsets on: [cferom] and [tail] are known. *)
Definition parse_offsets (fp : FILE) (cferom tail : Z) : prog ((Z + bcm4908img_info) * FILE) :=
  let* (r, fp) := loop (block_rounds tail) (bootfs_step tail) (cferom, fp) in
  match r with
  | inl err => ret (inl err, fp)
  | inr bootfs =>
      let* (r, fp) := loop (block_rounds tail) (rootfs_step tail) (bootfs, 0, fp) in
      match r with
      | inl err => ret (inl err, fp)
      | inr (rootfs, padding) =>
          (* CRC32 *)
          let* (_, fp) := fseek_set fp (ssize_t cferom) in
          let* (missing_, crc, fp) := crc_loop (size_t (tail - cferom)) fp in
          if negb (missing_ =? 0) then ret (inl (- EIO), fp)
          else
            (* Tail *)
            let* (tl, fp) := fread fp sizeof_tail in
            if negb (Z.of_nat (length tl) =? sizeof_tail) then ret (inl (- EIO), fp)
            else if negb (crc =? le_field tl 0 4) then ret (inl (- EPROTO), fp)
            else ret (inr (mk_info cferom bootfs padding rootfs tail crc tl), fp)
      end
  end.

Definition bcm4908img_parse (fp : FILE) : prog ((Z + bcm4908img_info) * FILE) :=
  let* st := fstat_size fp in
  match st with
  | inl e => ret (inl (- e), fp)
  | inr file_size =>
      let tail := size_t (file_size - sizeof_tail) in
      (* Vendor formats *)
      let* (_, fp) := fseek_set fp 0 in
      let* (buf, fp) := fread fp 1024 in
      if negb (Z.of_nat (length buf) =? 1024) then ret (inl (- EIO), fp)
      else
        let cferom := if be_field buf 0 4 =? CHK_MAGIC then be_field buf 4 4 else 0 in
        let* (_, fp) := fseek_end fp (- 1024) in
        let* (buf, fp) := fread fp 1024 in
        if negb (Z.of_nat (length buf) =? 1024) then ret (inl (- EIO), fp)
        else
          let tail := if bool_decide (slice buf (1024 - sizeof_linksys_tail) 9 = LINKSYS_MAGIC)
                      then size_t (tail - sizeof_linksys_tail) else tail in
          parse_offsets fp cferom tail
  end.

(** * Info *)

Definition hex_line (name : list Z) (v : Z) : list Z := name ++ [9; 48; 120] ++ print_hex v ++ [10].

Definition bcm4908img_info_cmd (pathname : option (list Z)) : prog Z :=
  let* fp := bcm4908img_open pathname ModeR in
  match fp with
  | None => ret (- EACCES)
  | Some fp =>
      let* (r, _) := bcm4908img_parse fp in
      match r with
      | inl err => ret err
      | inr info =>
          do* print (if bootfs_offset info =? cferom_offset info then []
                     else ascii_bytes "cferom offset:" ++ [9] ++ print_dec (cferom_offset info) ++ [10]) in
          do* print (hex_line (ascii_bytes "bootfs offset:") (bootfs_offset info)) in
          do* print (if padding_offset info =? 0 then []
                     else hex_line (ascii_bytes "padding offset:") (padding_offset info)) in
          do* print (hex_line (ascii_bytes "rootfs offset:") (rootfs_offset info)) in
          do* print (ascii_bytes "Checksum:" ++ [9; 48; 120] ++ print_hex8 8 (info_crc32 info) ++ [10]) in
          ret 0
      end
  end.

(** * Create *)

(** The loop state: [length], [crc32] and the two streams. *)
Definition append_step (st : Z * Z * FILE * FILE) : prog (Z * Z * FILE * FILE + Z * Z * FILE) :=
  let '(length_, crc, img, in_) := st in
  let* (bytes, in_) := fread in_ 1024 in
  match bytes with
  | [] => ret (inr (length_, crc, img))
  | _ =>
      let* (n, img) := fwrite img bytes in
      if negb (n =? Z.of_nat (length bytes)) then ret (inr (- EIO, crc, img))
      else
        let* crc := bcm4908img_crc32 crc bytes (length bytes) in
        ret (inl (ssize_t (length_ + n), crc, img, in_))
  end.

(** [bcm4908img_create_append_file(trx, in_path, &crc32)]: the result and the checksum.  The
    number of rounds is at most the size of the file. *)
Definition bcm4908img_create_append_file (img : FILE) (in_path : list Z) (crc : Z) : prog (Z * Z * FILE) :=
  let* in_ := fopen in_path ModeR in
  match in_ with
  | None => ret (- EACCES, crc, img)
  | Some in_ =>
      let* c := contents in_ in
      loop (Datatypes.S (Datatypes.S (length c))) append_step (0, crc, img, in_)
  end.

Definition bcm4908img_create_append_zeros (img : FILE) (length_ : Z) : prog (Z * FILE) :=
  let* f := next_fault in
  match f with
  | Some _ => ret (- ENOMEM, img)
  | None =>
      let* (n, img) := fwrite img (replicate (Z.to_nat length_) 0) in
      ret (if n =? length_ then ssize_t length_ else - EIO, img)
  end.

Definition bcm4908img_create_align (img : FILE) (cur_offset alignment : Z) : prog (Z * FILE) :=
  if negb (Z.land cur_offset (size_t (alignment - 1)) =? 0) then
    if alignment =? 0 then fault
    else bcm4908img_create_append_zeros img (size_t (alignment - cur_offset mod alignment))
  else ret (0, img).

(** The options of [create]. *)
Inductive create_option :=
| OptFile (path : list Z)
| OptAlign (arg : list Z)
| OptUntil (arg : list Z).

(** One option; the checksum does not cover the zeros that are appended. *)
Definition create_option_step (o : create_option) (st : Z * Z * FILE) : prog (Z * Z * FILE) :=
  let '(cur_offset, crc, fp) := st in
  match o with
  | OptFile path =>
      let* (bytes, crc, fp) := bcm4908img_create_append_file fp path crc in
      ret (if bytes <? 0 then cur_offset else size_t (cur_offset + bytes), crc, fp)
  | OptAlign arg =>
      let* (bytes, fp) := bcm4908img_create_align fp cur_offset (size_t (strtol0 arg)) in
      ret (if bytes <? 0 then cur_offset else size_t (cur_offset + bytes), crc, fp)
  | OptUntil arg =>
      let bytes := ssize_t (strtol0 arg - cur_offset) in
      if bytes <? 0 then ret (cur_offset, crc, fp)
      else
        let* (bytes, fp) := bcm4908img_create_append_zeros fp bytes in
        ret (if bytes <? 0 then cur_offset else size_t (cur_offset + bytes), crc, fp)
  end.

Fixpoint create_options (opts : list create_option) (st : Z * Z * FILE) : prog (Z * Z * FILE) :=
  match opts with
  | [] => ret st
  | o :: opts => let* st := create_option_step o st in create_options opts st
  end.

Definition tail_bytes (crc : Z) : list Z :=
  le_bytes 4 crc ++ le_bytes 4 WFI_VERSION ++ le_bytes 4 0x4908 ++ le_bytes 4 WFI_NAND128_FLASH ++
  le_bytes 4 WFI_FLAG_SUPPORTS_BTRM.

(** [pathname] is missing if there are fewer than three arguments. *)
Definition bcm4908img_create (pathname : option (list Z)) (opts : list create_option) : prog Z :=
  match pathname with
  | None => ret (- EINVAL)
  | Some path =>
      let* fp := fopen path ModeWPlus in
      match fp with
      | None => ret (- EACCES)
      | Some fp =>
          let* (_, crc, fp) := create_options opts (0, 0xffffffff, fp) in
          let* (n, _) := fwrite fp (tail_bytes crc) in
          ret (if n =? sizeof_tail then 0 else - EIO)
      end
  end.

(** * Extract *)

Definition copy_step (st : Z * FILE) : prog (Z * FILE + Z) :=
  let '(length_, fp) := st in
  if length_ =? 0 then ret (inr 0)
  else
    let* (bytes, fp) := fread fp (Z.min 1024 length_) in
    match bytes with
    | [] => ret (inr length_)
    | _ => do* print bytes in ret (inl (length_ - Z.of_nat (length bytes), fp))
    end.

(** Offset and length of the part that is asked for, or an error. *)
Definition part_range (info : bcm4908img_info) (type : option (list Z)) : Z + Z * Z :=
  match type with
  | None => inl (- EINVAL)
  | Some type =>
      if decide (type = ascii_bytes "cferom") then
        let length_ := size_t (bootfs_offset info - cferom_offset info) in
        if length_ =? 0 then inl (- ENOENT) else inr (cferom_offset info, length_)
      else if decide (type = ascii_bytes "bootfs") then
        inr (bootfs_offset info,
          size_t ((if padding_offset info =? 0 then rootfs_offset info else padding_offset info) - bootfs_offset info))
      else if decide (type = ascii_bytes "rootfs") then
        inr (rootfs_offset info, size_t (tail_offset info - rootfs_offset info))
      else if decide (type = ascii_bytes "firmware") then
        inr (bootfs_offset info, size_t (tail_offset info - bootfs_offset info))
      else inl (- EINVAL)
  end.

(** What is extracted goes to the standard output, which is not checked for errors. *)
Definition bcm4908img_extract (pathname type : option (list Z)) : prog Z :=
  let* fp := bcm4908img_open pathname ModeR in
  match fp with
  | None => ret (- EACCES)
  | Some fp =>
      let* (r, fp) := bcm4908img_parse fp in
      match r with
      | inl err => ret err
      | inr info =>
          match part_range info type with
          | inl err => ret err
          | inr (offset, length_) =>
              if length_ =? 0 then ret (- EINVAL)
              else
                let* (_, fp) := fseek_set fp (ssize_t offset) in
                let* missing_ := loop (Datatypes.S (Z.to_nat length_)) copy_step (length_, fp) in
                ret (if missing_ =? 0 then 0 else - EIO)
          end
      end
  end.

(** * bootfs *)

Definition FILENAME_MAX : Z := 4096.

(** The offset of the next node: [totlen] is rounded up in 32 bits. *)
Definition next_node (o totlen : Z) : Z := size_t (o + Z.land (u32 (totlen + 3)) (Z.lnot 3)).

(** What a round of the two loops over the nodes reads: the end of the nodes, an error, a node
    that is skipped, or a directory entry with its name; then the stream. *)
Inductive node_read :=
| NodeEnd
| NodeError (err : Z)
| NodeSkip (totlen : Z)
| NodeLong (totlen : Z)
| NodeDirent (totlen nsize : Z) (name : list Z).

(** [room] is [sizeof(name)]. *)
Definition read_node (fp : FILE) (o room : Z) : prog (node_read * FILE) :=
  let* (e, fp) := fseek_set fp (ssize_t o) in
  if negb (e =? 0) then ret (NodeError (- e), fp)
  else
    let* (node, fp) := fread fp sizeof_unknown_node in
    if negb (Z.of_nat (length node) =? sizeof_unknown_node) then ret (NodeError (- EIO), fp)
    else if negb (cpu_field node 0 2 =? JFFS2_MAGIC_BITMASK) then ret (NodeEnd, fp)
    else
      let totlen := cpu_field node 4 4 in
      if negb (cpu_field node 2 2 =? JFFS2_NODETYPE_DIRENT) then ret (NodeSkip totlen, fp)
      else
        let* (rest, fp) := fread fp (sizeof_raw_dirent - sizeof_unknown_node) in
        if negb (sizeof_unknown_node + Z.of_nat (length rest) =? sizeof_raw_dirent) then ret (NodeError (- EIO), fp)
        else
          let nsize := le_field (node ++ rest) 28 1 in
          if room <? nsize + 1 then ret (NodeLong totlen, fp)
          else
            let* (name, fp) := fread fp nsize in
            if negb (Z.of_nat (length name) =? nsize) then ret (NodeError (- EIO), fp)
            else ret (NodeDirent totlen nsize name, fp).

(** One round of [bcm4908img_bootfs_ls]; the state is [offset], [err] and the stream. *)
Definition ls_step (st : Z * Z * FILE) : prog (Z * Z * FILE + Z) :=
  let '(o, err, fp) := st in
  let* (r, fp) := read_node fp o (FILENAME_MAX + 1) in
  match r with
  | NodeEnd => ret (inr err)
  | NodeError err => ret (inr err)
  | NodeSkip totlen => ret (inl (next_node o totlen, err, fp))
  | NodeLong totlen => ret (inl (next_node o totlen, - ENOMEM, fp))
  | NodeDirent totlen _ name => do* print (until_zero name ++ [10]) in ret (inl (next_node o totlen, err, fp))
  end.
Definition bcm4908img_bootfs_ls (fuel : nat) (fp : FILE) (info : bcm4908img_info) : prog Z :=
  loop fuel ls_step (bootfs_offset info, 0, fp).

(** The renaming of the entry at [o] with a name of [nsize] bytes; [newname] is followed by a
    zero in memory. *)
Definition mv_entry (fp : FILE) (info : bcm4908img_info) (o nsize : Z) (newname : list Z) : prog Z :=
  let* (e, fp) := fseek_set fp (ssize_t (size_t (o + 36))) in
  if negb (e =? 0) then ret (- e)
  else
    let name := newname ++ [0] in
    let* crc := bcm4908img_crc32 0 name (Z.to_nat nsize) in
    let* (n, fp) := fwrite fp (cpu_bytes 4 crc) in
    if negb (n =? 4) then ret (- EIO)
    else
      let* (e, fp) := fseek_set fp (ssize_t (size_t (o + 40))) in
      if negb (e =? 0) then ret (- e)
      else
        let* (n, fp) := fwrite fp (take (Z.to_nat nsize) name) in
        if negb (n =? nsize) then ret (- EIO)
        else
          (* Calculate new BCM4908 image checksum *)
          let* (err, crc, fp) := bcm4908img_calc_crc32 fp info in
          if negb (err =? 0) then ret err
          else
            let tl := le_bytes 4 crc ++ drop 4 (info_tail info) in
            let* (e, fp) := fseek_end fp (- sizeof_tail) in
            if negb (e =? 0) then ret (- e)
            else
              let* (n, fp) := fwrite fp tl in
              if negb (n =? sizeof_tail) then ret (- EIO)
              else ret 0.

(** One round of [bcm4908img_bootfs_mv]. *)
Definition mv_step (info : bcm4908img_info) (oldname newname : list Z) (st : Z * FILE) : prog (Z * FILE + Z) :=
  let '(o, fp) := st in
  let* (r, fp) := read_node fp o FILENAME_MAX in
  match r with
  | NodeEnd => ret (inr (- ENOENT))
  | NodeError err => ret (inr err)
  | NodeSkip totlen | NodeLong totlen => ret (inl (next_node o totlen, fp))
  | NodeDirent totlen nsize name =>
      if decide (until_zero name = oldname) then
        let* r := mv_entry fp info o nsize newname in
        do* (if r =? 0 then
               print (ascii_bytes "Successfully renamed " ++ oldname ++ ascii_bytes " to the " ++ newname ++ [10])
             else ret tt) in
        ret (inr r)
      else ret (inl (next_node o totlen, fp))
  end.

(** [args] are the arguments behind the command. *)
Definition bcm4908img_bootfs_mv (fuel : nat) (fp : FILE) (info : bcm4908img_info) (args : list (list Z)) : prog Z :=
  match args with
  | oldname :: newname :: _ =>
      if negb (Z.of_nat (length newname) =? Z.of_nat (length oldname)) then ret (- EINVAL)
      else loop fuel (mv_step info oldname newname) (bootfs_offset info, fp)
  | _ => ret (- EINVAL)
  end.

Definition bcm4908img_bootfs (fuel : nat) (pathname : option (list Z)) (args : list (list Z)) : prog Z :=
  match args with
  | [] => ret (- EINVAL)
  | cmd :: args =>
      let mode := if decide (cmd = ascii_bytes "mv") then ModeRPlus else ModeR in
      let* fp := bcm4908img_open pathname mode in
      match fp with
      | None => ret (- EACCES)
      | Some fp =>
          let* (r, fp) := bcm4908img_parse fp in
          match r with
          | inl err => ret err
          | inr info =>
              if decide (cmd = ascii_bytes "ls") then bcm4908img_bootfs_ls fuel fp info
              else if decide (cmd = ascii_bytes "mv") then bcm4908img_bootfs_mv fuel fp info args
              else ret (- EINVAL)
          end
      end
  end.

(** * Start *)

(** The command line, as [getopt] takes it apart. *)
Inductive command :=
| CmdInfo (i : option (list Z))
| CmdCreate (path : option (list Z)) (opts : list create_option)
| CmdExtract (i t : option (list Z))
| CmdBootfs (i : option (list Z)) (args : list (list Z))
| CmdOther.

(** The result of [main]; otherwise a help text is printed. *)
Definition main (fuel : nat) (c : command) : prog Z :=
  match c with
  | CmdInfo i => bcm4908img_info_cmd i
  | CmdCreate path opts => bcm4908img_create path opts
  | CmdExtract i t => bcm4908img_extract i t
  | CmdBootfs i args => bcm4908img_bootfs fuel i args
  | CmdOther => ret 0
  end.
End bcm4908img.
End Bcm.
