(* ===== verification/Bcm4908Spec.v ===== *)
(** What the tool for BCM4908 images guarantees: which images it accepts, that an image built
    from files can be taken apart again, and what renaming a file changes. *)

From stdpp Require Import base list numbers strings gmap.
From Stdlib Require Import ZArith Lia.
From S2P Require Import Prelude Platform Bytes CStrings ToolCrc Bcm4908.
Import Bcm.
Local Open Scope Z_scope.
Local Open Scope cprog_scope.

(** * The checksum *)

Lemma crc32_tbl_table : crc32_tbl = crc32_table.
Proof. reflexivity. Qed.

(** The checksum of bytes, as a shift register computes it. *)
Definition crc_of (crc : Z) (l : list Z) : Z := foldl crc_byte crc l.

Lemma bcm_crc32_spec {S} l : forall crc (s : S),
  0 <= crc < 2 ^ 32 -> Forall is_byte l -> bcm4908img_crc32 crc l (length l) s = Ret (crc_of crc l) s.
Proof.
  induction l as [|b l IH]; intros crc s Hc Hl; [done|]. apply Forall_cons in Hl as [Hb Hl].
  cbn [length bcm4908img_crc32]. pose proof (crc32_round_spec crc b s ltac:(lia) Hb) as E.
  unfold crc32_round, bind in E. rewrite <- crc32_tbl_table in E. unfold bind.
  destruct (arr_get crc32_tbl (Z.land (Z.lxor crc b) 0xff) s) as [t s'| |]; try done.
  unfold ret in E. injection E as -> ->. rewrite IH; [done|by apply crc_byte_range|done].
Qed.

Lemma bcm_crc32_take {S} l n crc (s : S) :
  0 <= crc < 2 ^ 32 -> Forall is_byte l -> (n <= length l)%nat -> bcm4908img_crc32 crc l n s = Ret (crc_of crc (take n l)) s.
Proof.
  intros Hc Hl Hn. rewrite <- (bcm_crc32_spec (take n l)) by (done || by apply Forall_take).
  rewrite length_take, Nat.min_l by lia. revert crc n Hc Hn. induction Hl as [|b l Hb Hl IH]; intros crc n Hc Hn.
  - destruct n; done.
  - destruct n as [|n]; [done|]. cbn [bcm4908img_crc32 take length] in *. unfold bind.
    pose proof (crc32_round_spec crc b s ltac:(lia) Hb) as E. unfold crc32_round, bind in E. rewrite <- crc32_tbl_table in E.
    destruct (arr_get crc32_tbl (Z.land (Z.lxor crc b) 0xff) s) as [t s'| |]; try done.
    unfold ret in E. injection E as -> ->. apply IH; [by apply crc_byte_range|lia].
Qed.

Lemma crc_of_range l crc : 0 <= crc < 2 ^ 32 -> 0 <= crc_of crc l < 2 ^ 32.
Proof. apply crc_bytes_range. Qed.

Lemma crc_of_app crc l1 l2 : crc_of crc (l1 ++ l2) = crc_of (crc_of crc l1) l2.
Proof. apply foldl_app. Qed.

(** A range in two parts. *)
Lemma slice_parts (b : list Z) o n k : 0 <= o -> 0 <= k <= n -> slice b o n = slice b o k ++ slice b (o + k) (n - k).
Proof.
  intros Ho Hk. unfold slice. rewrite <- (take_drop (Z.to_nat k) (take (Z.to_nat n) (drop (Z.to_nat o) b))).
  rewrite take_take, skipn_firstn_comm, drop_drop. repeat f_equal; lia.
Qed.

(** * Streams when nothing fails *)

Definition calm (w : bcm_world) : Prop := bw_faults w = [].

(** The stream at another position. *)
Definition at_pos (fp : FILE) (p : Z) : FILE := mk_FILE (fp_path fp) p (fp_writable fp).

(** The world with other contents of the file of a stream. *)
Definition with_file (w : bcm_world) (path c : list Z) : bcm_world :=
  mk_bcm_world (<[path := c]> (bw_files w)) (bw_stdout w) (bw_faults w).
Definition printed (w : bcm_world) (text : list Z) : bcm_world :=
  mk_bcm_world (bw_files w) (bw_stdout w ++ text) (bw_faults w).

Lemma next_fault_calm w : calm w -> next_fault w = Ret None w.
Proof. unfold calm, next_fault. by intros ->. Qed.

Lemma contents_eq fp w c : bw_files w !! fp_path fp = Some c -> contents fp w = Ret c w.
Proof. unfold contents, gets. by intros ->. Qed.

Lemma fread_calm fp n w c : calm w -> bw_files w !! fp_path fp = Some c ->
  fread fp n w = Ret (slice c (fp_pos fp) n, at_pos fp (fp_pos fp + Z.of_nat (length (slice c (fp_pos fp) n)))) w.
Proof. intros Hw Hc. unfold fread, bind. rewrite next_fault_calm by done. by rewrite (contents_eq fp w c). Qed.

Lemma fseek_set_calm fp off w : calm w -> 0 <= off -> fseek_set fp off w = Ret (0, at_pos fp off) w.
Proof.
  intros Hw Hoff. unfold fseek_set, fseek_to, bind. rewrite next_fault_calm by done.
  by destruct (Z.ltb_spec off 0); [lia|].
Qed.

Lemma fseek_end_calm fp off w c : calm w -> bw_files w !! fp_path fp = Some c -> 0 <= Z.of_nat (length c) + off ->
  fseek_end fp off w = Ret (0, at_pos fp (Z.of_nat (length c) + off)) w.
Proof. intros Hw Hc Hoff. unfold fseek_end, bind. rewrite (contents_eq fp w c) by done. by apply fseek_set_calm. Qed.

Lemma fstat_calm fp w c : calm w -> bw_files w !! fp_path fp = Some c -> fstat_size fp w = Ret (inr (Z.of_nat (length c))) w.
Proof. intros Hw Hc. unfold fstat_size, bind. rewrite next_fault_calm by done. by rewrite (contents_eq fp w c). Qed.

Lemma file_put_blit c pos data : 0 <= pos <= Z.of_nat (length c) -> file_put c pos data = blit c pos data.
Proof.
  intros Hp. unfold file_put, blit. replace (Z.to_nat pos - length c)%nat with O by lia. by rewrite app_nil_r.
Qed.

Lemma fwrite_calm fp data w c : calm w -> fp_writable fp = true -> bw_files w !! fp_path fp = Some c ->
  0 <= fp_pos fp <= Z.of_nat (length c) ->
  fwrite fp data w = Ret (Z.of_nat (length data), at_pos fp (fp_pos fp + Z.of_nat (length data)))
    (with_file w (fp_path fp) (blit c (fp_pos fp) data)).
Proof.
  intros Hw Hwr Hc Hp. unfold fwrite, bind. rewrite next_fault_calm, Hwr by done. cbn [negb].
  rewrite (contents_eq fp w c) by done. cbn. by rewrite file_put_blit.
Qed.

(** * Images *)

(** The start of the data the checksum covers, and the place of the tail, in front of the one
    that Linksys adds. *)
Definition cferom_of (c : list Z) : Z := if be_field c 0 4 =? CHK_MAGIC then be_field c 4 4 else 0.
Definition linksys (c : list Z) : Prop := slice c (Z.of_nat (length c) - sizeof_linksys_tail) 9 = LINKSYS_MAGIC.
Definition tail_of (c : list Z) : Z :=
  let t := Z.of_nat (length c) - sizeof_tail in if bool_decide (linksys c) then t - sizeof_linksys_tail else t.

Definition jffs2_at (c : list Z) (o : Z) : Prop := be_field c o 2 = 0x8519.
Definition ubi_at (c : list Z) (o : Z) : Prop := be_field c o 4 = UBI_EC_HDR_MAGIC.
Definition erased_at (c : list Z) (o : Z) : Prop := bcm4908img_is_all_ff (slice c o 256) = true.

(** The first offset with a property, in steps of an erase block. *)
Definition first_block (P : Z -> Prop) (a o : Z) : Prop :=
  exists k, 0 <= k /\ o = a + k * 0x20000 /\ P o /\ forall j, 0 <= j < k -> ~ P (a + j * 0x20000).

(** An image: the boot file system is at the first block that starts like JFFS2, the root file
    system at the first one behind it that starts like UBI, and the checksum is right. *)
Record image_ok (c : list Z) (i : bcm4908img_info) : Prop := {
  im_cferom : cferom_offset i = cferom_of c;
  im_tail : tail_offset i = tail_of c;
  im_bootfs : first_block (jffs2_at c) (cferom_offset i) (bootfs_offset i);
  im_rootfs : first_block (ubi_at c) (bootfs_offset i) (rootfs_offset i);
  im_inside : rootfs_offset i < tail_offset i;
  im_padding : padding_offset i = 0 /\ (forall o, first_block (erased_at c) (bootfs_offset i) o -> rootfs_offset i < o) \/
    first_block (erased_at c) (bootfs_offset i) (padding_offset i) /\ padding_offset i <= rootfs_offset i;
  im_crc : info_crc32 i = crc_of 0xffffffff (slice c (cferom_offset i) (tail_offset i - cferom_offset i));
  im_valid : info_crc32 i = le_field c (tail_offset i) 4;
  im_bytes : info_tail i = slice c (tail_offset i) sizeof_tail
}.

Lemma first_block_unique P a o o' : first_block P a o -> first_block P a o' -> o = o'.
Proof.
  intros (k & ? & -> & Hk & Hlt) (k' & ? & -> & Hk' & Hlt').
  destruct (Z.lt_trichotomy k k') as [|[->|]]; [|done|].
  - exfalso. by apply (Hlt' k).
  - exfalso. by apply (Hlt k').
Qed.

Lemma first_block_le P a o : first_block P a o -> a <= o.
Proof. intros (k & ? & -> & _). lia. Qed.

Lemma tail_of_range c : 1024 <= Z.of_nat (length c) ->
  0 <= tail_of c /\ tail_of c + sizeof_tail <= Z.of_nat (length c).
Proof. intros. unfold tail_of, sizeof_tail, sizeof_linksys_tail. case_bool_decide; lia. Qed.

Section spec.
Context `{A : Arch} `{!ArchLaws A}.

(** The checksum of a range of a file. *)
Lemma crc_loop_spec fp n w c :
  calm w -> bw_files w !! fp_path fp = Some c -> Forall is_byte c -> 0 <= n -> 0 <= fp_pos fp ->
  fp_pos fp + n <= Z.of_nat (length c) ->
  crc_loop n fp w = Ret (0, crc_of 0xffffffff (slice c (fp_pos fp) n), at_pos fp (fp_pos fp + n)) w.
Proof.
  intros Hw Hc Hb Hn Hp Hlen. unfold crc_loop.
  assert (forall fuel p k crc, 0 <= crc < 2 ^ 32 -> 0 <= p -> 0 <= k -> p + k <= Z.of_nat (length c) -> (Z.to_nat k < fuel)%nat ->
    loop fuel crc_step (k, crc, at_pos fp p) w = Ret (0, crc_of crc (slice c p k), at_pos fp (p + k)) w) as Hloop.
  { induction fuel as [|fuel IH]; intros p k crc Hcrc Hp' Hk Hpk Hfuel; [lia|]. cbn [loop]. unfold bind at 1, crc_step.
    destruct (Z.eqb_spec k 0) as [->|Hk0].
    { unfold ret. cbn. rewrite Z.add_0_r. done. }
    unfold bind. rewrite (fread_calm (at_pos fp p) _ w c) by done. cbn [fp_pos at_pos].
    pose proof (length_slice c p (Z.min 1024 k) ltac:(lia) ltac:(lia) ltac:(lia)) as Hl.
    destruct (slice c p (Z.min 1024 k)) as [|x bytes] eqn:Es; [cbn in Hl; lia|].
    assert (Forall is_byte (slice c p (Z.min 1024 k))) as Hby by by apply slice_bytes.
    rewrite Es in Hby. rewrite bcm_crc32_spec by done. unfold ret. rewrite Hl. rewrite <- Es in *.
    change (at_pos (at_pos fp p) (p + Z.min 1024 k)) with (at_pos fp (p + Z.min 1024 k)).
    rewrite IH by (try lia; by apply crc_of_range). rewrite <- crc_of_app.
    replace (p + Z.min 1024 k + (k - Z.min 1024 k)) with (p + k) by lia.
    by rewrite <- (slice_parts c p k (Z.min 1024 k)) by lia. }
  destruct fp as [path p wr]. cbn [fp_pos fp_path] in *. apply (Hloop _ p n); lia.
Qed.

(** A file the tool works on. *)
Record open_file (w : bcm_world) (path c : list Z) : Prop := {
  of_calm : calm w;
  of_file : bw_files w !! path = Some c;
  of_bytes : Forall is_byte c;
  of_size : Z.of_nat (length c) < 2 ^ 31
}.

Lemma block_fuel tail o : 0 <= o -> 0 <= tail -> (Z.to_nat (tail / 0x20000 + 1 - o / 0x20000) < block_rounds tail)%nat.
Proof.
  intros. unfold block_rounds. pose proof (Z.div_pos tail 0x20000). pose proof (Z.div_pos o 0x20000). lia.
Qed.

Lemma block_next tail o : 0 <= o < tail ->
  (Z.to_nat (tail / 0x20000 + 1 - (o + 0x20000) / 0x20000) < Z.to_nat (tail / 0x20000 + 1 - o / 0x20000))%nat.
Proof.
  intros. replace (o + 0x20000) with (o + 1 * 0x20000) by lia. rewrite Z.div_add by lia.
  pose proof (Z.div_le_mono o tail 0x20000). lia.
Qed.

Lemma off_small o : 0 <= o < 2 ^ 31 -> ssize_t o = o /\ size_t (o + 0x20000) = o + 0x20000.
Proof using ArchLaws0. intros. split; [apply ssize_t_small; lia|apply size_t_small; lia]. Qed.

(** Blocks without the property up to [o]. *)
Definition none_before (P : Z -> Prop) (a o : Z) : Prop :=
  exists k, 0 <= k /\ o = a + k * 0x20000 /\ forall j, 0 <= j < k -> ~ P (a + j * 0x20000).

Lemma none_before_start P a : none_before P a a.
Proof. exists 0. split; [lia|]. split; [lia|]. intros; lia. Qed.

Lemma none_before_next P a o : none_before P a o -> ~ P o -> none_before P a (o + 0x20000).
Proof.
  intros (k & ? & -> & Hlt) Hn. exists (k + 1). split; [lia|]. split; [lia|]. intros j Hj.
  destruct (decide (j = k)) as [->|]; [done|apply Hlt; lia].
Qed.

Lemma none_before_first P a o o' : none_before P a o -> first_block P a o' -> o <= o'.
Proof.
  intros (k & ? & -> & Hlt) (k' & ? & -> & Hk' & _). destruct (Z_lt_le_dec k' k); [exfalso; by apply (Hlt k')|lia].
Qed.

Lemma none_before_here P a o : none_before P a o -> P o -> first_block P a o.
Proof. intros (k & ? & -> & Hlt) Hp. by exists k. Qed.

Lemma bootfs_search w fp c cferom tail :
  open_file w (fp_path fp) c -> 0 <= cferom -> 0 <= tail -> tail + 20 <= Z.of_nat (length c) ->
  wp (loop (block_rounds tail) (bootfs_step tail) (cferom, fp)) (fun '(r, fp') w' => w' = w /\
    (exists p, fp' = at_pos fp p) /\
    match r with
    | inr o => first_block (jffs2_at c) cferom o /\ o < tail
    | inl err => err < 0 /\ forall o, first_block (jffs2_at c) cferom o -> tail <= o
    end) w.
Proof using ArchLaws0.
  intros [Hw Hc Hb Hs] H0 Ht Hlen.
  apply (wp_loop (fun '(o, fp') w' => w' = w /\ (exists p, fp' = at_pos fp p) /\ none_before (jffs2_at c) cferom o /\ 0 <= o)
    (fun '(o, _) _ => Z.to_nat (tail / 0x20000 + 1 - o / 0x20000))).
  2: { split; [done|]. split; [by exists (fp_pos fp); destruct fp|]. split; [apply none_before_start|done]. }
  2: { by apply block_fuel. }
  intros [o fp'] w' (-> & (p & ->) & Hnone & Ho). unfold bootfs_step. destruct (Z.ltb_spec o tail) as [Hlt|Hge].
  2: { apply wp_ret. split; [done|]. split; [by exists p|]. split; [done|]. intros o' Hf. pose proof (none_before_first _ _ _ _ Hnone Hf). lia. }
  destruct (off_small o) as [-> En]; [lia|]. apply wp_bind. eapply wp_intro; [apply fseek_set_calm; [done|lia]|].
  change (negb (0 =? 0)) with false. cbn iota. apply wp_bind. eapply wp_intro; [by apply (fread_calm _ _ w c)|].
  cbn [fp_pos at_pos]. rewrite (length_slice c o 2) by lia. cbn [Z.eqb negb Pos.eqb].
  assert (be_field (slice c o 2) 0 2 = be_field c o 2) as ->.
  { unfold be_field. rewrite slice_slice by lia. by rewrite Z.add_0_r. }
  destruct (Z.eqb_spec (be_field c o 2) 0x8519) as [Hj|Hj]; apply wp_ret.
  - split; [done|]. split; [by exists (o + 2)|]. split; [by apply none_before_here|done].
  - rewrite En. split; [|by apply block_next]. split; [done|]. split; [by exists (o + 2)|]. split; [by apply none_before_next|lia].
Qed.

(** A block that is erased does not start like JFFS2. *)
Lemma erased_field c o : 0 <= o -> o + 256 <= Z.of_nat (length c) -> erased_at c o -> be_field c o 2 = 0xffff.
Proof.
  intros Ho Hl He. unfold erased_at, bcm4908img_is_all_ff in He.
  assert (slice c o 2 = [255; 255]) as E; [|unfold be_field; by rewrite E].
  rewrite (slice_parts c o 256 2) in He by lia. rewrite forallb_app in He. apply andb_true_iff in He as [He _].
  pose proof (length_slice c o 2 ltac:(lia) ltac:(lia) ltac:(lia)) as H2.
  destruct (slice c o 2) as [|x [|y [|]]]; cbn in H2; try lia. cbn in He.
  apply andb_true_iff in He as [->%Z.eqb_eq [->%Z.eqb_eq _]%andb_true_iff]. done.
Qed.

(** What has been seen of the padding in front of the block at [o]. *)
Definition padding_seen (c : list Z) (boot o pad : Z) : Prop :=
  pad = 0 /\ none_before (erased_at c) boot o \/ pad <> 0 /\ first_block (erased_at c) boot pad /\ pad < o.

Lemma padding_step c boot o pad :
  0 <= boot -> jffs2_at c boot -> none_before (ubi_at c) boot o -> (pad = 0 -> o + 256 <= Z.of_nat (length c)) ->
  padding_seen c boot o pad ->
  let pad' := if (pad =? 0) && bcm4908img_is_all_ff (slice c o (if pad =? 0 then 256 else 4)) then o else pad in
  padding_seen c boot (o + 0x20000) pad' /\
  (pad' = 0 /\ (forall o', first_block (erased_at c) boot o' -> o < o') \/ first_block (erased_at c) boot pad' /\ pad' <= o).
Proof.
  intros Hboot Hj Hnone Hlen [[-> Hpad]|(Hp0 & Hpad & Hlt)].
  - assert (boot <= o) as Hbo by (destruct Hnone as (k & ? & -> & _); lia).
    specialize (Hlen eq_refl). cbn [Z.eqb andb]. destruct (bcm4908img_is_all_ff (slice c o 256)) eqn:Ef; cbn [andb].
    + assert (o <> 0).
      { intros ->. assert (boot = 0) as -> by lia. pose proof (erased_field c 0 ltac:(lia) Hlen Ef) as E.
        unfold jffs2_at in Hj. rewrite E in Hj. discriminate Hj. }
      assert (first_block (erased_at c) boot o) as Hf by by apply none_before_here. split; [right|right]; (split; [done|]); [|lia].
      split; [done|lia].
    + assert (none_before (erased_at c) boot (o + 0x20000)) as Hn.
      { apply none_before_next; [done|]. unfold erased_at. by rewrite Ef. }
      split; left; (split; [done|]); [done|]. intros o' Ho'. pose proof (none_before_first _ _ _ _ Hn Ho'). lia.
  - rewrite (proj2 (Z.eqb_neq pad 0) Hp0). cbn [andb]. split; right; [split; [done|split; [done|lia]]|split; [done|lia]].
Qed.

Lemma rootfs_search w fp c boot tail :
  open_file w (fp_path fp) c -> 0 <= boot -> jffs2_at c boot -> 0 <= tail -> tail + 20 <= Z.of_nat (length c) ->
  wp (loop (block_rounds tail) (rootfs_step tail) (boot, 0, fp)) (fun '(r, fp') w' => w' = w /\
    (exists p, fp' = at_pos fp p) /\
    match r with
    | inr (o, pad) => first_block (ubi_at c) boot o /\ o < tail /\
        (pad = 0 /\ (forall o', first_block (erased_at c) boot o' -> o < o') \/
         first_block (erased_at c) boot pad /\ pad <= o)
    | inl err => err < 0 /\ forall o, first_block (ubi_at c) boot o -> o < tail -> Z.of_nat (length c) < o + 256
    end) w.
Proof using ArchLaws0.
  intros [Hw Hc Hb Hs] H0 Hj Ht Hlen.
  apply (wp_loop (fun '(o, pad, fp') w' => w' = w /\ (exists p, fp' = at_pos fp p) /\ none_before (ubi_at c) boot o /\ 0 <= o /\
      padding_seen c boot o pad)
    (fun '(o, _, _) _ => Z.to_nat (tail / 0x20000 + 1 - o / 0x20000))).
  2: { split; [done|]. split; [by exists (fp_pos fp); destruct fp|]. split; [apply none_before_start|]. split; [done|].
       left. split; [done|apply none_before_start]. }
  2: { by apply block_fuel. }
  intros [[o pad] fp'] w' (-> & (p & ->) & Hnone & Ho & Hpad). unfold rootfs_step. destruct (Z.ltb_spec o tail) as [Hlt|Hge].
  2: { apply wp_ret. split; [done|]. split; [by exists p|]. split; [done|]. intros o' Hf ?. pose proof (none_before_first _ _ _ _ Hnone Hf). lia. }
  destruct (off_small o) as [-> En]; [lia|]. apply wp_bind. eapply wp_intro; [apply fseek_set_calm; [done|lia]|].
  change (negb (0 =? 0)) with false. cbn iota. apply wp_bind. eapply wp_intro; [by apply (fread_calm _ _ w c)|].
  cbn [fp_pos at_pos]. set (n := if pad =? 0 then 256 else 4) in *. assert (4 <= n <= 256) as Hn by (unfold n; destruct (pad =? 0); lia).
  destruct (Z.eqb_spec (Z.of_nat (length (slice c o n))) n) as [El|El]; cbn [negb].
  2: { apply wp_ret. split; [done|]. split; [by eexists|]. split; [done|]. intros o' Hf Ho'. pose proof (none_before_first _ _ _ _ Hnone Hf).
       destruct (Z_lt_le_dec (Z.of_nat (length c)) (o + n)); [lia|]. exfalso. apply El. apply length_slice; lia. }
  assert (be_field (slice c o n) 0 4 = be_field c o 4) as ->.
  { unfold be_field. rewrite slice_slice by lia. by rewrite Z.add_0_r. }
  assert (pad = 0 -> o + 256 <= Z.of_nat (length c)) as H256.
  { intros E0. unfold n in *. rewrite E0 in *. cbn in El. unfold slice in El. rewrite length_take, length_drop in El. lia. }
  destruct (padding_step c boot o pad H0 Hj Hnone H256 Hpad) as [Hpad1 Hpad2]. fold n in Hpad1, Hpad2.
  destruct (Z.eqb_spec (be_field c o 4) UBI_EC_HDR_MAGIC) as [Hu|Hu]; apply wp_ret.
  - split; [done|]. split; [by eexists|]. split; [by apply none_before_here|]. split; [done|exact Hpad2].
  - rewrite En. split; [|by apply block_next]. split; [done|]. split; [by eexists|]. split; [by apply none_before_next|].
    split; [lia|done].
Qed.

(** From the offsets on. *)
Lemma parse_offsets_spec w fp c cferom tail :
  open_file w (fp_path fp) c -> 0 <= cferom -> cferom = cferom_of c -> tail = tail_of c -> 1024 <= Z.of_nat (length c) ->
  wp (parse_offsets fp cferom tail) (fun '(r, fp') w' => w' = w /\ (exists p, fp' = at_pos fp p) /\
    match r with
    | inr info => image_ok c info
    | inl err => err < 0 /\ forall info, image_ok c info -> Z.of_nat (length c) < rootfs_offset info + 256
    end) w.
Proof using ArchLaws0.
  intros Hof H0 Hcf Htl Hlen. pose proof (tail_of_range c Hlen) as [Ht0 Ht1]. unfold sizeof_tail in Ht1. rewrite <- Htl in Ht0, Ht1.
  destruct Hof as [Hw Hc Hb Hs]. assert (open_file w (fp_path fp) c) as Hof by done. unfold parse_offsets.
  apply wp_bind. wp_call bootfs_search; [exact Hof|done|done|lia|]. intros [r fp1] w' (-> & (p1 & ->) & Hr).
  destruct r as [err|boot].
  { apply wp_ret. split; [done|]. split; [by eexists|]. destruct Hr as [Herr Hr]. split; [done|]. intros i Hi. exfalso. pose proof (im_bootfs _ _ Hi) as Hb1.
    rewrite (im_cferom _ _ Hi), <- Hcf in Hb1. specialize (Hr _ Hb1). pose proof (first_block_le _ _ _ (im_rootfs _ _ Hi)).
    pose proof (im_inside _ _ Hi) as H2. rewrite (im_tail _ _ Hi), <- Htl in H2. lia. }
  destruct Hr as [Hboot Hbt]. pose proof (first_block_le _ _ _ Hboot) as Hcb.
  assert (jffs2_at c boot) as Hj by (destruct Hboot as (k & _ & -> & ? & _); done).
  apply wp_bind. wp_call (rootfs_search w (at_pos fp p1) c boot tail); [exact Hof|lia|done|lia|lia|].
  intros [r fp2] w' (-> & (p2 & ->) & Hr). destruct r as [err|[root pad]].
  { apply wp_ret. split; [done|]. split; [by eexists|]. destruct Hr as [Herr Hr]. split; [done|]. intros i Hi. pose proof (im_bootfs _ _ Hi) as Hb1.
    rewrite (im_cferom _ _ Hi), <- Hcf in Hb1. pose proof (first_block_unique _ _ _ _ Hboot Hb1) as E.
    pose proof (im_rootfs _ _ Hi) as Hr1. rewrite <- E in Hr1. pose proof (im_inside _ _ Hi) as H2. rewrite (im_tail _ _ Hi), <- Htl in H2.
    by apply Hr. }
  destruct Hr as (Hroot & Hrt & Hpad). pose proof (first_block_le _ _ _ Hroot) as Hbr.
  rewrite ssize_t_small by lia. apply wp_bind. eapply wp_intro; [apply fseek_set_calm; [done|lia]|].
  rewrite size_t_small by lia. apply wp_bind. eapply wp_intro; [apply (crc_loop_spec _ _ w c); try done; cbn; lia|].
  cbn beta iota. change (negb (0 =? 0)) with false. cbn iota. cbn [fp_pos at_pos].
  apply wp_bind. eapply wp_intro; [by apply (fread_calm _ _ w c)|]. cbn [fp_pos at_pos]. unfold sizeof_tail.
  replace (cferom + (tail - cferom)) with tail by lia. rewrite (length_slice c tail 20) by lia. rewrite Z.eqb_refl. cbn [negb].
  assert (le_field (slice c tail 20) 0 4 = le_field c tail 4) as ->.
  { unfold le_field. rewrite slice_slice by lia. by rewrite Z.add_0_r. }
  destruct (Z.eqb_spec (crc_of 0xffffffff (slice c cferom (tail - cferom))) (le_field c tail 4)) as [Ecrc|Ecrc]; cbn [negb]; apply wp_ret.
  - split; [done|]. split; [by eexists|]. split; cbn; done.
  - split; [done|]. split; [by eexists|]. split; [done|]. intros i Hi. exfalso. apply Ecrc. pose proof (im_crc _ _ Hi) as H1.
    rewrite (im_valid _ _ Hi), (im_cferom _ _ Hi), (im_tail _ _ Hi), <- Hcf, <- Htl in H1. done.
Qed.

(** The parser accepts images only, and all images with room behind the start of the root file
    system; it changes nothing. *)
Lemma parse_image w fp c :
  open_file w (fp_path fp) c ->
  wp (bcm4908img_parse fp) (fun '(r, fp') w' => w' = w /\ (exists p, fp' = at_pos fp p) /\
    match r with
    | inr info => 1024 <= Z.of_nat (length c) /\ image_ok c info
    | inl err => err < 0 /\ (1024 <= Z.of_nat (length c) -> forall info, image_ok c info -> Z.of_nat (length c) < rootfs_offset info + 256)
    end) w.
Proof using ArchLaws0.
  intros [Hw Hc Hb Hs]. assert (open_file w (fp_path fp) c) as Hof by done. unfold bcm4908img_parse.
  apply wp_bind. eapply wp_intro; [by apply (fstat_calm _ w c)|]. cbn beta iota.
  apply wp_bind. eapply wp_intro; [by apply fseek_set_calm|]. cbn beta iota.
  apply wp_bind. eapply wp_intro; [by apply (fread_calm _ _ w c)|]. cbn [fp_pos at_pos].
  destruct (Z.eqb_spec (Z.of_nat (length (slice c 0 1024))) 1024) as [El|El]; cbn [negb].
  2: { apply wp_ret. split; [done|]. split; [by eexists|]. split; [done|]. intros Hl. exfalso. apply El. apply length_slice; lia. }
  assert (1024 <= Z.of_nat (length c)) as Hlen by (unfold slice in El; rewrite length_take, length_drop in El; lia).
  assert (forall o n, 0 <= o -> 0 <= n -> o + n <= 1024 -> be_field (slice c 0 1024) o n = be_field c o n) as Hf.
  { intros. unfold be_field. by rewrite slice_slice by lia. }
  rewrite !Hf by lia. change (if be_field c 0 4 =? CHK_MAGIC then be_field c 4 4 else 0) with (cferom_of c).
  apply wp_bind. eapply wp_intro; [apply (fseek_end_calm _ _ w c); [done|done|lia]|]. cbn beta iota.
  apply wp_bind. eapply wp_intro; [by apply (fread_calm _ _ w c)|]. cbn [fp_pos at_pos].
  rewrite (length_slice c (Z.of_nat (length c) + -1024) 1024) by lia. rewrite Z.eqb_refl. cbn [negb].
  rewrite slice_slice by (unfold sizeof_linksys_tail; lia).
  replace (Z.of_nat (length c) + -1024 + (1024 - sizeof_linksys_tail)) with (Z.of_nat (length c) - sizeof_linksys_tail) by lia.
  fold (linksys c). eapply wp_mono; [apply (parse_offsets_spec w _ c (cferom_of c)); [exact Hof| |done| |done]|].
  - unfold cferom_of. destruct (_ =? _); [|done]. apply (be_field_range c 4 4 Hb). lia.
  - unfold tail_of, sizeof_tail, sizeof_linksys_tail. rewrite (size_t_small (Z.of_nat (length c) - 20)) by lia.
    case_bool_decide; [|done]. apply size_t_small. lia.
  - intros [r fp'] w' (-> & (q & ->) & Hr). split; [done|]. split; [by eexists|]. destruct r; [|by split]. destruct Hr. by split.
Qed.

Lemma image_ok_unique c i i' : image_ok c i -> image_ok c i' -> i = i'.
Proof.
  intros H H'. assert (cferom_offset i = cferom_offset i') as E1 by (rewrite (im_cferom _ _ H), (im_cferom _ _ H'); done).
  assert (tail_offset i = tail_offset i') as E2 by (rewrite (im_tail _ _ H), (im_tail _ _ H'); done).
  assert (bootfs_offset i = bootfs_offset i') as E3.
  { eapply first_block_unique; [exact (im_bootfs _ _ H)|]. rewrite E1. exact (im_bootfs _ _ H'). }
  assert (rootfs_offset i = rootfs_offset i') as E4.
  { eapply first_block_unique; [exact (im_rootfs _ _ H)|]. rewrite E3. exact (im_rootfs _ _ H'). }
  assert (padding_offset i = padding_offset i') as E5.
  { pose proof (im_padding _ _ H) as P1. pose proof (im_padding _ _ H') as P2. rewrite E3, E4 in P1.
    destruct P1 as [[-> N1]|[F1 L1]], P2 as [[-> N2]|[F2 L2]]; [done| | |by eapply first_block_unique].
    - specialize (N1 _ F2). lia.
    - specialize (N2 _ F1). lia. }
  pose proof (im_valid _ _ H). pose proof (im_valid _ _ H'). pose proof (im_bytes _ _ H). pose proof (im_bytes _ _ H').
  destruct i, i'; cbn in *. congruence.
Qed.

(** * Extracting *)

Lemma printed_app w a b : printed (printed w a) b = printed w (a ++ b).
Proof. unfold printed. cbn. by rewrite app_assoc. Qed.

Lemma copy_loop_spec c fp : Forall is_byte c -> forall fuel p k w,
  calm w -> bw_files w !! fp_path fp = Some c -> 0 <= p -> 0 <= k -> p + k <= Z.of_nat (length c) -> (Z.to_nat k < fuel)%nat ->
  loop fuel copy_step (k, at_pos fp p) w = Ret 0 (printed w (slice c p k)).
Proof.
  intros Hb. induction fuel as [|fuel IH]; intros p k w Hw Hc Hp Hk Hpk Hfuel; [lia|]. cbn [loop]. unfold bind at 1, copy_step.
  destruct (Z.eqb_spec k 0) as [->|Hk0].
  { unfold ret, printed, slice. cbn. rewrite app_nil_r. by destruct w. }
  unfold bind. rewrite (fread_calm (at_pos fp p) _ w c) by done. cbn [fp_pos at_pos].
  pose proof (length_slice c p (Z.min 1024 k) ltac:(lia) ltac:(lia) ltac:(lia)) as Hl.
  destruct (slice c p (Z.min 1024 k)) as [|x bytes] eqn:Es; [cbn in Hl; lia|].
  unfold print, modify, ret. rewrite Hl, <- Es.
  change (at_pos (at_pos fp p) (p + Z.min 1024 k)) with (at_pos fp (p + Z.min 1024 k)).
  fold (printed w (slice c p (Z.min 1024 k))). rewrite IH by (done || lia).
  by rewrite printed_app, <- slice_parts by lia.
Qed.

Lemma extract_part stdin path type w c i o n :
  open_file w path c -> 1024 <= Z.of_nat (length c) -> image_ok c i -> rootfs_offset i + 256 <= Z.of_nat (length c) ->
  part_range i (Some type) = inr (o, n) -> 0 <= o -> 0 < n -> o + n <= Z.of_nat (length c) ->
  wp (bcm4908img_extract stdin (Some path) (Some type)) (fun r w' => r = 0 /\ w' = printed w (slice c o n)) w.
Proof using ArchLaws0.
  intros [Hw Hc Hb Hs] Hlen Hi Hroom Hpart Ho Hn Hin. assert (open_file w path c) as Hof by done.
  unfold bcm4908img_extract, bcm4908img_open, fopen. apply wp_bind, wp_bind. eapply wp_intro; [by apply next_fault_calm|].
  cbn beta iota. apply wp_bind, wp_gets. rewrite Hc. apply wp_ret. cbn beta iota.
  apply wp_bind. wp_call (parse_image w (mk_FILE path 0 false) c); [exact Hof|]. intros [r fp'] w' (-> & (p & ->) & Hr).
  destruct r as [err|i']; [destruct Hr as [_ Hr]; specialize (Hr Hlen i Hi); lia|].
  destruct Hr as [_ Hi']. rewrite (image_ok_unique c i' i Hi' Hi), Hpart. rewrite (proj2 (Z.eqb_neq n 0)) by lia.
  rewrite ssize_t_small by lia. apply wp_bind. eapply wp_intro; [by apply fseek_set_calm|]. cbn beta iota.
  apply wp_bind. eapply wp_intro; [apply (copy_loop_spec c); (done || lia)|]. cbn beta iota. by apply wp_ret.
Qed.

(** * Creating *)

(** What an option appends behind [cur] bytes, and what of it the checksum covers. *)
Definition option_data (files : gmap (list Z) (list Z)) (cur : Z) (o : create_option) : list Z * list Z :=
  match o with
  | OptFile path => let c := default [] (files !! path) in (c, c)
  | OptAlign arg => (replicate (Z.to_nat ((- cur) mod strtol0 arg)) 0, [])
  | OptUntil arg => (replicate (Z.to_nat (strtol0 arg - cur)) 0, [])
  end.
Fixpoint built (files : gmap (list Z) (list Z)) (cur : Z) (opts : list create_option) : list Z * list Z :=
  match opts with
  | [] => ([], [])
  | o :: opts =>
      let '(d, v) := option_data files cur o in
      let '(ds, vs) := built files (cur + Z.of_nat (length d)) opts in
      (d ++ ds, v ++ vs)
  end.

(** Inputs are other files, alignments are powers of two, and offsets are in range. *)
Definition option_ok (files : gmap (list Z) (list Z)) (path : list Z) (o : create_option) : Prop :=
  match o with
  | OptFile p => p <> path /\ forall c, files !! p = Some c -> Forall is_byte c
  | OptAlign arg => exists k, 0 <= k <= 30 /\ strtol0 arg = 2 ^ k
  | OptUntil arg => 0 <= strtol0 arg < 2 ^ 31
  end.

Lemma blit_end (pre data : list Z) : blit pre (Z.of_nat (length pre)) data = pre ++ data.
Proof. unfold blit. rewrite Nat2Z.id, take_ge, drop_ge by lia. by rewrite app_nil_r. Qed.

Lemma with_file_twice w path a b : with_file (with_file w path a) path b = with_file w path b.
Proof. unfold with_file. cbn. by rewrite insert_insert_eq. Qed.

Lemma with_file_same w path c : bw_files w !! path = Some c -> with_file w path c = w.
Proof. intros H. unfold with_file. rewrite insert_id by done. by destruct w. Qed.

Lemma fwrite_end img w pre data : calm w -> fp_writable img = true -> bw_files w !! fp_path img = Some pre ->
  fp_pos img = Z.of_nat (length pre) ->
  fwrite img data w = Ret (Z.of_nat (length data), at_pos img (Z.of_nat (length (pre ++ data))))
    (with_file w (fp_path img) (pre ++ data)).
Proof.
  intros Hw Hwr Hc Hp. rewrite (fwrite_calm img data w pre) by (done || lia). rewrite Hp, blit_end.
  do 2 f_equal. rewrite length_app. f_equal. lia.
Qed.

(** Copying a file to the end of the image. *)
Lemma append_loop_spec img inp c : Forall is_byte c -> inp <> fp_path img -> fp_writable img = true ->
  forall fuel q pre crc w, calm w -> bw_files w !! fp_path img = Some pre -> bw_files w !! inp = Some c ->
  Z.of_nat (length c) < 2 ^ 31 -> 0 <= crc < 2 ^ 32 -> (q <= length c)%nat -> (length c - q < fuel)%nat ->
  loop fuel append_step (Z.of_nat q, crc, at_pos img (Z.of_nat (length pre)), mk_FILE inp (Z.of_nat q) false) w =
  Ret (Z.of_nat (length c), crc_of crc (drop q c), at_pos img (Z.of_nat (length (pre ++ drop q c))))
    (with_file w (fp_path img) (pre ++ drop q c)).
Proof using ArchLaws0.
  intros Hb Hne Hwr. induction fuel as [|fuel IH]; intros q pre crc w Hw Himg Hin Hs Hcrc Hq Hfuel; [lia|].
  cbn [loop]. unfold bind at 1, append_step. unfold bind at 1. rewrite (fread_calm _ 1024 w c) by done. cbn [fp_pos].
  assert (slice c (Z.of_nat q) 1024 = take 1024 (drop q c)) as Esl by (unfold slice; by rewrite Nat2Z.id).
  rewrite Esl. destruct (take 1024 (drop q c)) as [|x bytes] eqn:Et.
  { assert (length (take 1024 (drop q c)) = 0%nat) as H0 by (by rewrite Et). rewrite length_take, length_drop in H0.
    rewrite drop_ge by lia. rewrite app_nil_r. unfold ret. rewrite with_file_same by done. do 4 f_equal. lia. }
  rewrite <- Et. assert (length (take 1024 (drop q c)) = Nat.min 1024 (length c - q))%nat as Hl by (by rewrite length_take, length_drop).
  assert (0 < length (take 1024 (drop q c)))%nat as Hpos by (rewrite Et; cbn; lia). set (d := take 1024 (drop q c)) in *.
  unfold bind. rewrite (fwrite_end (at_pos img (Z.of_nat (length pre))) w pre d) by done. rewrite Z.eqb_refl. cbn [negb].
  rewrite bcm_crc32_spec by (done || by apply Forall_take, Forall_drop). unfold ret.
  rewrite ssize_t_small by lia. rewrite <- Nat2Z.inj_add.
  change (at_pos (at_pos img (Z.of_nat (length pre))) (Z.of_nat (length (pre ++ d)))) with (at_pos img (Z.of_nat (length (pre ++ d)))).
  change (at_pos (mk_FILE inp (Z.of_nat q) false) (Z.of_nat q + Z.of_nat (length d))) with (mk_FILE inp (Z.of_nat q + Z.of_nat (length d)) false).
  cbn [at_pos fp_path].
  rewrite (IH (q + length d)%nat (pre ++ d)); [|done|by apply lookup_insert_eq|by cbn; rewrite lookup_insert_ne|done|by apply crc_of_range|lia|lia].
  rewrite with_file_twice, <- crc_of_app, <- app_assoc.
  assert (d ++ drop (q + length d) c = drop q c) as ->; [|done].
  unfold d. rewrite <- (take_drop 1024 (drop q c)) at 3. f_equal. rewrite drop_drop.
  destruct (decide (1024 <= length c - q)%nat); [f_equal; fold d; lia|]. rewrite !drop_ge by (fold d; lia). done.
Qed.

(** The stream of an image that is being written. *)
Definition image_fp (path pre : list Z) : FILE := mk_FILE path (Z.of_nat (length pre)) true.

Lemma append_file_spec w path p pre crc :
  calm w -> bw_files w !! path = Some pre -> p <> path -> (forall c, bw_files w !! p = Some c -> Forall is_byte c) ->
  Z.of_nat (length (pre ++ default [] (bw_files w !! p))) < 2 ^ 31 -> 0 <= crc < 2 ^ 32 ->
  bcm4908img_create_append_file (image_fp path pre) p crc w =
  match bw_files w !! p with
  | None => Ret (- EACCES, crc, image_fp path pre) w
  | Some c => Ret (Z.of_nat (length c), crc_of crc c, image_fp path (pre ++ c)) (with_file w path (pre ++ c))
  end.
Proof using ArchLaws0.
  intros Hw Hpath Hne Hb Hs Hcrc. unfold bcm4908img_create_append_file, fopen. unfold bind at 1 2.
  rewrite next_fault_calm by done. unfold bind at 1, gets at 1. destruct (bw_files w !! p) as [c|] eqn:Hp; [|done].
  unfold ret. unfold bind. rewrite (contents_eq _ w c) by done. rewrite length_app in Hs. cbn [default from_option id] in Hs.
  pose proof (append_loop_spec (image_fp path pre) p c (Hb c eq_refl) Hne eq_refl (Datatypes.S (Datatypes.S (length c))) 0%nat pre crc w
    Hw Hpath Hp ltac:(lia) Hcrc ltac:(lia) ltac:(lia)) as E.
  rewrite drop_0 in E. exact E.
Qed.

Lemma append_zeros_spec w path pre n :
  calm w -> bw_files w !! path = Some pre -> 0 <= n < 2 ^ 31 ->
  bcm4908img_create_append_zeros (image_fp path pre) n w =
  Ret (n, image_fp path (pre ++ replicate (Z.to_nat n) 0)) (with_file w path (pre ++ replicate (Z.to_nat n) 0)).
Proof using ArchLaws0.
  intros Hw Hpath Hn. unfold bcm4908img_create_append_zeros. unfold bind at 1. rewrite next_fault_calm by done.
  unfold bind. rewrite (fwrite_end (image_fp path pre) w pre) by done. unfold ret.
  rewrite length_replicate, Z2Nat.id, Z.eqb_refl, ssize_t_small by lia. done.
Qed.

Lemma align_spec w path pre k :
  calm w -> bw_files w !! path = Some pre -> 0 <= k <= 30 -> Z.of_nat (length pre) < 2 ^ 31 ->
  let n := (- Z.of_nat (length pre)) mod 2 ^ k in
  bcm4908img_create_align (image_fp path pre) (Z.of_nat (length pre)) (2 ^ k) w =
  Ret (n, image_fp path (pre ++ replicate (Z.to_nat n) 0)) (with_file w path (pre ++ replicate (Z.to_nat n) 0)).
Proof using ArchLaws0.
  intros Hw Hpath Hk Hlen n. assert (0 < 2 ^ k <= 2 ^ 30) as H2 by (split; [lia|apply Z.pow_le_mono_r; lia]).
  unfold bcm4908img_create_align. rewrite size_t_small by lia.
  replace (2 ^ k - 1) with (Z.ones k) by (rewrite Z.ones_equiv; lia). rewrite Z.land_ones by lia.
  pose proof (Z.mod_pos_bound (Z.of_nat (length pre)) (2 ^ k) ltac:(lia)) as Hm.
  destruct (Z.eqb_spec (Z.of_nat (length pre) mod 2 ^ k) 0) as [E|E]; cbn [negb].
  - assert (n = 0) as -> by (unfold n; by apply Z_mod_zero_opp_full). cbn. rewrite app_nil_r. by rewrite with_file_same.
  - rewrite (proj2 (Z.eqb_neq (2 ^ k) 0)) by lia. rewrite size_t_small by lia.
    replace (2 ^ k - Z.of_nat (length pre) mod 2 ^ k) with n by (unfold n; rewrite Z_mod_nz_opp_full by done; lia).
    apply append_zeros_spec; [done|done|]. unfold n. pose proof (Z.mod_pos_bound (- Z.of_nat (length pre)) (2 ^ k) ltac:(lia)). lia.
Qed.

(** One option. *)
Lemma create_option_spec w path o pre crc :
  calm w -> bw_files w !! path = Some pre -> option_ok (bw_files w) path o -> 0 <= crc < 2 ^ 32 ->
  let '(d, v) := option_data (bw_files w) (Z.of_nat (length pre)) o in
  Z.of_nat (length (pre ++ d)) < 2 ^ 31 ->
  create_option_step o (Z.of_nat (length pre), crc, image_fp path pre) w =
  Ret (Z.of_nat (length (pre ++ d)), crc_of crc v, image_fp path (pre ++ d)) (with_file w path (pre ++ d)).
Proof using ArchLaws0.
  intros Hw Hpath Hok Hcrc. destruct o as [p|arg|arg]; cbn [option_data option_ok] in *.
  - destruct Hok as [Hne Hb]. intros Hs. cbn [create_option_step]. unfold bind. rewrite append_file_spec by done.
    destruct (bw_files w !! p) as [c|]; cbn [default from_option id] in *; unfold ret.
    + rewrite (proj2 (Z.ltb_ge (Z.of_nat (length c)) 0)) by lia. rewrite length_app in *. rewrite size_t_small by lia. by rewrite Nat2Z.inj_add.
    + rewrite app_nil_r, with_file_same by done. done.
  - destruct Hok as (k & Hk & E). rewrite E. intros Hs. cbn [create_option_step]. unfold bind. rewrite E.
    assert (0 < 2 ^ k <= 2 ^ 30) as H2 by (split; [lia|apply Z.pow_le_mono_r; lia]).
    rewrite (size_t_small (2 ^ k)) by lia. rewrite length_app in Hs. rewrite align_spec by (done || lia). unfold ret.
    pose proof (Z.mod_pos_bound (- Z.of_nat (length pre)) (2 ^ k) ltac:(lia)) as Hm. set (n := (- Z.of_nat (length pre)) mod 2 ^ k) in *.
    rewrite (proj2 (Z.ltb_ge n 0)) by lia. rewrite length_app, length_replicate in *. rewrite size_t_small by lia.
    do 3 f_equal. lia.
  - intros Hs. rewrite length_app, length_replicate in Hs. cbn [create_option_step]. rewrite ssize_t_small by lia.
    destruct (Z.ltb_spec (strtol0 arg - Z.of_nat (length pre)) 0) as [Hlt|Hge].
    + unfold ret. replace (Z.to_nat (strtol0 arg - Z.of_nat (length pre))) with O by lia. cbn [replicate].
      by rewrite app_nil_r, with_file_same.
    + unfold bind. rewrite append_zeros_spec by (done || lia). unfold ret. rewrite (proj2 (Z.ltb_ge _ 0)) by lia.
      rewrite length_app, length_replicate, size_t_small by lia. do 3 f_equal. lia.
Qed.

Lemma option_data_frame files path c cur o :
  option_ok files path o -> option_data (<[path := c]> files) cur o = option_data files cur o.
Proof using. destruct o as [p| |]; cbn; [|done..]. intros [Hne _]. by rewrite lookup_insert_ne. Qed.

Lemma option_ok_frame files path c o : option_ok files path o -> option_ok (<[path := c]> files) path o.
Proof using. destruct o as [p| |]; cbn; [|done..]. intros [Hne Hb]. split; [done|]. by rewrite lookup_insert_ne. Qed.

Lemma built_frame files path c opts : forall cur,
  Forall (option_ok files path) opts -> built (<[path := c]> files) cur opts = built files cur opts.
Proof using.
  induction opts as [|o opts IH]; intros cur Hok; [done|]. apply Forall_cons in Hok as [Ho Hok]. cbn.
  rewrite option_data_frame by done. destruct (option_data files cur o) as [d v]. by rewrite IH.
Qed.

Lemma create_options_spec path opts : forall w pre crc,
  calm w -> bw_files w !! path = Some pre -> Forall (option_ok (bw_files w) path) opts -> 0 <= crc < 2 ^ 32 ->
  let '(d, v) := built (bw_files w) (Z.of_nat (length pre)) opts in
  Z.of_nat (length (pre ++ d)) < 2 ^ 31 ->
  create_options opts (Z.of_nat (length pre), crc, image_fp path pre) w =
  Ret (Z.of_nat (length (pre ++ d)), crc_of crc v, image_fp path (pre ++ d)) (with_file w path (pre ++ d)).
Proof using ArchLaws0.
  induction opts as [|o opts IH]; intros w pre crc Hw Hpath Hok Hcrc; cbn [built create_options].
  { intros _. rewrite app_nil_r. by rewrite with_file_same. }
  apply Forall_cons in Hok as [Ho Hok]. pose proof (create_option_spec w path o pre crc Hw Hpath Ho Hcrc) as Hstep.
  destruct (option_data (bw_files w) (Z.of_nat (length pre)) o) as [d v].
  specialize (IH (with_file w path (pre ++ d)) (pre ++ d) (crc_of crc v) Hw ltac:(by apply lookup_insert_eq)
    ltac:(eapply Forall_impl; [exact Hok|intros; by apply option_ok_frame]) ltac:(by apply crc_of_range)).
  cbn [with_file bw_files] in IH. rewrite built_frame in IH by done.
  replace (Z.of_nat (length pre) + Z.of_nat (length d)) with (Z.of_nat (length (pre ++ d))) by (rewrite length_app; lia).
  destruct (built (bw_files w) (Z.of_nat (length (pre ++ d))) opts) as [ds vs]. rewrite app_assoc. intros Hs.
  unfold bind. rewrite Hstep by (rewrite !length_app in Hs; rewrite length_app; lia). rewrite IH by done.
  rewrite with_file_twice, crc_of_app. done.
Qed.

Lemma tail_bytes_length crc : length (tail_bytes crc) = 20%nat.
Proof using. reflexivity. Qed.

(** An image that is built: the data of the options, and the tail with the checksum of what is
    covered. *)
Lemma create_image w path opts d v :
  calm w -> Forall (option_ok (bw_files w) path) opts -> built (bw_files w) 0 opts = (d, v) ->
  Z.of_nat (length d) < 2 ^ 31 ->
  bcm4908img_create (Some path) opts w = Ret 0 (with_file w path (d ++ tail_bytes (crc_of 0xffffffff v))).
Proof using ArchLaws0.
  intros Hw Hok Hb Hs. unfold bcm4908img_create, fopen. unfold bind at 1 2. rewrite next_fault_calm by done.
  unfold bind at 1, set_file, modify, ret at 1. fold (with_file w path []).
  pose proof (create_options_spec path opts (with_file w path []) [] 0xffffffff Hw ltac:(by apply lookup_insert_eq)
    ltac:(eapply Forall_impl; [exact Hok|intros; by apply option_ok_frame]) ltac:(lia)) as E.
  cbn [with_file bw_files length] in E. rewrite built_frame in E by done. change (Z.of_nat 0) with 0 in E. rewrite Hb in E.
  cbn [app] in E. specialize (E Hs). unfold bind. fold (with_file w path []) in E. unfold image_fp in E at 1. cbn [length] in E.
  change (Z.of_nat 0) with 0 in E. rewrite E. rewrite with_file_twice.
  rewrite (fwrite_end (image_fp path d) (with_file w path d) d) by (done || apply lookup_insert_eq).
  rewrite tail_bytes_length. cbn [image_fp fp_path]. by rewrite with_file_twice.
Qed.

Lemma option_bytes files path cur o : option_ok files path o -> Forall is_byte (option_data files cur o).1.
Proof using.
  destruct o as [p|arg|arg]; cbn.
  - intros [_ Hb]. destruct (files !! p) as [c|]; [by apply Hb|constructor].
  - intros _. by apply Forall_replicate.
  - intros _. by apply Forall_replicate.
Qed.

Lemma built_bytes files path opts : forall cur, Forall (option_ok files path) opts -> Forall is_byte (built files cur opts).1.
Proof using.
  induction opts as [|o opts IH]; intros cur Hok; [constructor|]. apply Forall_cons in Hok as [Ho Hok]. cbn.
  pose proof (option_bytes files path cur o Ho) as Hd. destruct (option_data files cur o) as [d v]. cbn in Hd.
  specialize (IH (cur + Z.of_nat (length d)) Hok). destruct (built files _ opts) as [ds vs]. cbn in *. by apply Forall_app_2.
Qed.

Lemma tail_bytes_bytes crc : Forall is_byte (tail_bytes crc).
Proof using. unfold tail_bytes. repeat apply Forall_app_2; apply le_bytes_range. Qed.

(** Contents that make an image: no vendor's header, a boot file system, a root file system. *)
Record image_data (d : list Z) (boot root : Z) : Prop := {
  id_size : 1004 <= Z.of_nat (length d);
  id_plain : be_field d 0 4 <> CHK_MAGIC;
  id_no_linksys : slice d (Z.of_nat (length d) - 236) 9 <> LINKSYS_MAGIC;
  id_bootfs : first_block (jffs2_at d) 0 boot;
  id_rootfs : first_block (ubi_at d) boot root;
  id_room : root + 256 <= Z.of_nat (length d)
}.

Lemma first_block_ext (P Q : Z -> Prop) a o : (forall o', a <= o' <= o -> P o' <-> Q o') -> first_block P a o -> first_block Q a o.
Proof using.
  intros Hpq (k & Hk & -> & Hp & Hlt). exists k. split; [done|]. split; [done|]. split.
  - apply Hpq; [lia|done].
  - intros j Hj Hq. apply (Hlt j Hj). apply Hpq; [lia|done].
Qed.

Lemma padding_exists c boot root : first_block (ubi_at c) boot root ->
  exists pad, pad = 0 /\ (forall o, first_block (erased_at c) boot o -> root < o) \/ first_block (erased_at c) boot pad /\ pad <= root.
Proof using.
  intros (k & Hk & -> & _).
  assert (forall n : nat, none_before (erased_at c) boot (boot + Z.of_nat n * 0x20000) \/
    exists pad, first_block (erased_at c) boot pad /\ pad < boot + Z.of_nat n * 0x20000) as Hn.
  { induction n as [|n [IH|(pad & IH & Hlt)]].
    - left. rewrite Z.add_0_r. apply none_before_start.
    - replace (boot + Z.of_nat (Datatypes.S n) * 0x20000) with (boot + Z.of_nat n * 0x20000 + 0x20000) by lia.
      destruct (bcm4908img_is_all_ff (slice c (boot + Z.of_nat n * 0x20000) 256)) eqn:E.
      + right. exists (boot + Z.of_nat n * 0x20000). split; [by apply none_before_here|lia].
      + left. apply none_before_next; [done|]. unfold erased_at. by rewrite E.
    - right. exists pad. split; [done|lia]. }
  destruct (Hn (Datatypes.S (Z.to_nat k))) as [H|(pad & H & Hlt)].
  - exists 0. left. split; [done|]. intros o Ho. pose proof (none_before_first _ _ _ _ H Ho). lia.
  - exists pad. right. split; [done|]. destruct H as (k' & ? & -> & _). lia.
Qed.

Section image.
Context (d : list Z) (boot root crc : Z) (Hd : image_data d boot root) (Hcrc : 0 <= crc < 2 ^ 32).
Local Abbreviation img := (d ++ tail_bytes crc).

Lemma img_length : Z.of_nat (length img) = Z.of_nat (length d) + 20.
Proof using. rewrite length_app, tail_bytes_length. lia. Qed.

Lemma img_field o n : 0 <= o -> 0 <= n -> o + n <= Z.of_nat (length d) -> be_field img o n = be_field d o n.
Proof using. intros. unfold be_field. by rewrite slice_app_l. Qed.

Lemma img_cferom : cferom_of img = 0.
Proof using Hd.
  unfold cferom_of. pose proof (id_size _ _ _ Hd). rewrite img_field by lia.
  destruct (Z.eqb_spec (be_field d 0 4) CHK_MAGIC) as [E|]; [|done]. by destruct (id_plain _ _ _ Hd).
Qed.

Lemma img_tail : tail_of img = Z.of_nat (length d).
Proof using Hd.
  unfold tail_of. pose proof (id_size _ _ _ Hd). rewrite bool_decide_eq_false_2.
  - rewrite img_length. unfold sizeof_tail. lia.
  - unfold linksys, sizeof_linksys_tail. rewrite img_length. rewrite slice_app_l by lia.
    replace (Z.of_nat (length d) + 20 - 256) with (Z.of_nat (length d) - 236) by lia. apply (id_no_linksys _ _ _ Hd).
Qed.

Lemma img_crc : le_field img (Z.of_nat (length d)) 4 = crc.
Proof using Hcrc.
  rewrite le_field_skip by lia. rewrite Z.sub_diag. unfold tail_bytes. rewrite le_field_here by done.
  apply Z.mod_small. lia.
Qed.

Lemma img_bootfs : first_block (jffs2_at img) 0 boot.
Proof using Hd.
  pose proof (first_block_le _ _ _ (id_rootfs _ _ _ Hd)). pose proof (id_room _ _ _ Hd).
  eapply first_block_ext; [|apply (id_bootfs _ _ _ Hd)]. intros o' Ho'. unfold jffs2_at. by rewrite img_field by lia.
Qed.

Lemma img_rootfs : first_block (ubi_at img) boot root.
Proof using Hd.
  pose proof (first_block_le _ _ _ (id_bootfs _ _ _ Hd)). pose proof (id_room _ _ _ Hd).
  eapply first_block_ext; [|apply (id_rootfs _ _ _ Hd)]. intros o' Ho'. unfold ubi_at. by rewrite img_field by lia.
Qed.

Lemma img_slice : slice img 0 (Z.of_nat (length d)) = d.
Proof using. rewrite slice_head; done. Qed.

(** With the right checksum this is an image. *)
Lemma img_ok : crc = crc_of 0xffffffff d -> exists pad, image_ok img (mk_info 0 boot pad root (Z.of_nat (length d)) crc (tail_bytes crc)).
Proof using Hd Hcrc.
  intros E. destruct (padding_exists img boot root img_rootfs) as [pad Hpad]. exists pad.
  pose proof (id_room _ _ _ Hd).
  split; cbn [cferom_offset bootfs_offset padding_offset rootfs_offset tail_offset info_crc32 info_tail].
  - by rewrite img_cferom.
  - by rewrite img_tail.
  - apply img_bootfs.
  - apply img_rootfs.
  - lia.
  - exact Hpad.
  - by rewrite Z.sub_0_r, img_slice.
  - by rewrite img_crc.
  - rewrite slice_app_r by lia. rewrite Z.sub_diag. symmetry. apply take_ge. by rewrite tail_bytes_length.
Qed.

(** With another one it is not. *)
Lemma img_bad i : crc <> crc_of 0xffffffff d -> ~ image_ok img i.
Proof using Hd Hcrc.
  intros Hne Hi. apply Hne. pose proof (im_crc _ _ Hi) as H. rewrite (im_valid _ _ Hi) in H.
  rewrite (im_cferom _ _ Hi), (im_tail _ _ Hi), img_cferom, img_tail, img_crc, Z.sub_0_r, img_slice in H. done.
Qed.
End image.

Lemma extract_refused stdin path type w c :
  open_file w path c -> (forall i, ~ image_ok c i) ->
  wp (bcm4908img_extract stdin (Some path) type) (fun r w' => r < 0 /\ w' = w) w.
Proof using ArchLaws0.
  intros [Hw Hc Hb Hs] Hno. assert (open_file w path c) as Hof by done.
  unfold bcm4908img_extract, bcm4908img_open, fopen. apply wp_bind, wp_bind. eapply wp_intro; [by apply next_fault_calm|].
  cbn beta iota. apply wp_bind, wp_gets. rewrite Hc. apply wp_ret. cbn beta iota.
  apply wp_bind. wp_call (parse_image w (mk_FILE path 0 false) c); [exact Hof|]. intros [r fp'] w' (-> & (p & ->) & Hr).
  destruct r as [err|i]; [|destruct Hr as [_ Hr]; by destruct (Hno i)]. destruct Hr as [Herr _]; by apply wp_ret.
Qed.

(** * An image that is built can be taken apart *)

(** The tool builds an image from files and paddings, and then extracts a part of it. *)
Definition create_extract (stdin : stdin_kind) (path : list Z) (opts : list create_option) (type : list Z) : prog (Z * Z) :=
  let* r := main stdin 0 (CmdCreate (Some path) opts) in
  let* r' := main stdin 0 (CmdExtract (Some path) (Some type)) in
  ret (r, r').

(** C14: creating an image succeeds and writes the files and paddings followed by the tail;
    extracting the root file system or the firmware from it then prints exactly that part of
    the contents if the checksum over the bytes the options covered is the one over all of
    them, as when only files were given, and is refused without output otherwise, as padding
    is left out of the checksum when the image is created but not when it is read. *)
Theorem create_then_extract stdin path opts w d v boot root type o :
  calm w -> Forall (option_ok (bw_files w) path) opts -> built (bw_files w) 0 opts = (d, v) ->
  Z.of_nat (length d) + 20 < 2 ^ 31 -> image_data d boot root ->
  type = ascii_bytes "rootfs" /\ o = root \/ type = ascii_bytes "firmware" /\ o = boot ->
  wp (create_extract stdin path opts type) (fun '(r, r') w' =>
    r = 0 /\ bw_files w' = <[path := d ++ tail_bytes (crc_of 0xffffffff v)]> (bw_files w) /\
    (crc_of 0xffffffff v = crc_of 0xffffffff d /\ r' = 0 /\ bw_stdout w' = bw_stdout w ++ drop (Z.to_nat o) d \/
     crc_of 0xffffffff v <> crc_of 0xffffffff d /\ r' < 0 /\ bw_stdout w' = bw_stdout w)) w.
Proof using ArchLaws0.
  intros Hw Hok Hb Hs Hd Htype. unfold create_extract. cbn [main]. apply wp_bind.
  eapply wp_intro; [apply (create_image w path opts d v); (done || lia)|]. set (crc := crc_of 0xffffffff v) in *.
  assert (0 <= crc < 2 ^ 32) as Hcrc by (apply crc_of_range; lia).
  assert (open_file (with_file w path (d ++ tail_bytes crc)) path (d ++ tail_bytes crc)) as Hof.
  { split; [done|apply lookup_insert_eq| |by rewrite img_length].
    apply Forall_app_2; [|apply tail_bytes_bytes]. pose proof (built_bytes (bw_files w) path opts 0 Hok) as H. by rewrite Hb in H. }
  pose proof (first_block_le _ _ _ (id_rootfs _ _ _ Hd)) as Hbr. pose proof (first_block_le _ _ _ (id_bootfs _ _ _ Hd)) as Hb0.
  pose proof (id_room _ _ _ Hd) as Hroom. pose proof (id_size _ _ _ Hd) as Hsize. apply wp_bind.
  destruct (decide (crc = crc_of 0xffffffff d)) as [E|E].
  - destruct (img_ok d boot root crc Hd Hcrc E) as [pad Hi]. set (n := Z.of_nat (length d) - o).
    assert (0 <= o /\ 0 < n) as [Ho Hn] by (unfold n; destruct Htype as [[_ ->]|[_ ->]]; lia).
    assert (part_range (mk_info 0 boot pad root (Z.of_nat (length d)) crc (tail_bytes crc)) (Some type) = inr (o, n)) as Hpart.
    { destruct Htype as [[-> ->]|[-> ->]]; unfold part_range, n; cbn [rootfs_offset bootfs_offset tail_offset];
        repeat (rewrite decide_False by done); rewrite decide_True by done; rewrite size_t_small by lia; done. }
    pose proof (img_length d crc) as Hl. eapply wp_mono; [apply (extract_part stdin path type _ _ _ o n Hof ltac:(lia) Hi); (done || cbn [rootfs_offset]; subst n; lia)|].
    intros r' w' [-> ->]. apply wp_ret. split; [done|]. split; [done|]. apply or_introl. split; [done|]. split; [done|].
    cbn. f_equal. rewrite slice_app_l by (unfold n; lia). unfold slice, n. apply take_ge. rewrite length_drop. lia.
  - eapply wp_mono; [apply (extract_refused stdin path (Some type) _ _ Hof); intros i; by apply (img_bad d boot root crc Hd Hcrc)|].
    intros r' w' [Hr ->]. apply wp_ret. split; [done|]. split; [done|]. by auto.
Qed.
End spec.

(** * Renaming *)

Section rename.
Context `{A : Arch} `{!ArchLaws A}.

(** A directory entry with a name; the walk over the nodes up to it. *)
Definition node_head (c : list Z) (o : Z) : Prop :=
  0 <= o /\ o + 12 <= Z.of_nat (length c) /\ cpu_field c o 2 = JFFS2_MAGIC_BITMASK.
Definition dirent_at (c : list Z) (o : Z) (name : list Z) : Prop :=
  node_head c o /\ cpu_field c (o + 2) 2 = JFFS2_NODETYPE_DIRENT /\
  le_field c (o + 28) 1 = Z.of_nat (length name) /\ o + 40 + Z.of_nat (length name) <= Z.of_nat (length c) /\
  slice c (o + 40) (Z.of_nat (length name)) = name.
Inductive passes (c old : list Z) : nat -> Z -> Z -> Prop :=
| passes_here o : passes c old 0 o o
| passes_node n o o' : node_head c o -> cpu_field c (o + 2) 2 <> JFFS2_NODETYPE_DIRENT ->
    passes c old n (next_node o (cpu_field c (o + 4) 4)) o' -> passes c old (Datatypes.S n) o o'
| passes_dirent n o o' name : dirent_at c o name -> until_zero name <> old ->
    passes c old n (next_node o (cpu_field c (o + 4) 4)) o' -> passes c old (Datatypes.S n) o o'.

Lemma node_field c o k n : 0 <= o -> 0 <= k -> 0 <= n -> k + n <= 12 -> cpu_field (slice c o 12) k n = cpu_field c (o + k) n.
Proof using. intros. by rewrite cpu_field_slice by lia. Qed.

Lemma read_skip w fp p c o room :
  open_file w (fp_path fp) c -> node_head c o -> cpu_field c (o + 2) 2 <> JFFS2_NODETYPE_DIRENT ->
  read_node (at_pos fp p) o room w = Ret (NodeSkip (cpu_field c (o + 4) 4), at_pos fp (o + 12)) w.
Proof using ArchLaws0.
  intros [Hw Hc Hb Hs] (Ho & Hl & Hm) Hk. unfold read_node. rewrite ssize_t_small by lia. unfold bind at 1.
  rewrite fseek_set_calm by done. cbn [Z.eqb negb]. unfold bind at 1. rewrite (fread_calm _ _ w c) by done.
  cbn [fp_pos at_pos]. unfold sizeof_unknown_node. rewrite (length_slice c o 12) by lia. cbn [Z.eqb negb Pos.eqb].
  rewrite !node_field by lia. rewrite Z.add_0_r, Hm, Z.eqb_refl. cbn [negb].
  by rewrite (proj2 (Z.eqb_neq _ _) Hk).
Qed.

Lemma read_dirent w fp p c o room name :
  open_file w (fp_path fp) c -> dirent_at c o name -> 4096 <= room ->
  read_node (at_pos fp p) o room w =
  Ret (NodeDirent (cpu_field c (o + 4) 4) (Z.of_nat (length name)) name, at_pos fp (o + 40 + Z.of_nat (length name))) w.
Proof using ArchLaws0.
  intros [Hw Hc Hb Hs] ((Ho & Hl & Hm) & Hk & Hn & Hin & Hname) Hroom. unfold read_node. rewrite ssize_t_small by lia. unfold bind at 1.
  rewrite fseek_set_calm by done. cbn [Z.eqb negb]. unfold bind at 1. rewrite (fread_calm _ _ w c) by done.
  cbn [fp_pos at_pos]. unfold sizeof_unknown_node, sizeof_raw_dirent. rewrite (length_slice c o 12) by lia. cbn [Z.eqb negb Pos.eqb].
  rewrite !node_field by lia. rewrite Z.add_0_r, Hm, Hk, !Z.eqb_refl. cbn [negb]. unfold bind at 1.
  rewrite (fread_calm _ _ w c) by done. cbn [fp_pos at_pos].
  change (40 - 12) with 28. rewrite (length_slice c (o + 12) 28) by lia.
  change (negb (12 + 28 =? 40)) with false. cbn iota.
  assert (slice c o 12 ++ slice c (o + 12) 28 = slice c o 40) as -> by (symmetry; by apply (slice_parts c o 40 12); lia).
  assert (le_field (slice c o 40) 28 1 = Z.of_nat (length name)) as ->.
  { unfold le_field. rewrite slice_slice by lia. exact Hn. }
  pose proof (le_field_range c (o + 28) 1 Hb ltac:(lia)) as Hr. rewrite Hn in Hr.
  destruct (Z.ltb_spec room (Z.of_nat (length name) + 1)); [lia|]. unfold bind.
  rewrite (fread_calm _ _ w c) by done. cbn [fp_pos at_pos]. replace (o + 12 + 28) with (o + 40) by lia.
  rewrite Hname, Z.eqb_refl. done.
Qed.

(** The contents with a new name and its checksum in the directory entry at [o]; and with the
    new checksum of the image in the last bytes of the file. *)
Definition renamed (c : list Z) (o : Z) (new : list Z) : list Z :=
  blit (blit c (o + 36) (cpu_bytes 4 (crc_of 0 new))) (o + 40) new.
Definition resealed (c : list Z) (i : bcm4908img_info) (o : Z) (new : list Z) : list Z :=
  let c' := renamed c o new in
  let crc := crc_of 0xffffffff (slice c' (cferom_offset i) (tail_offset i - cferom_offset i)) in
  blit c' (Z.of_nat (length c) - sizeof_tail) (le_bytes 4 crc ++ drop 4 (info_tail i)).

Lemma renamed_length c o new : 0 <= o -> o + 40 + Z.of_nat (length new) <= Z.of_nat (length c) -> length (renamed c o new) = length c.
Proof using.
  intros. unfold renamed. rewrite length_blit; rewrite ?length_blit; rewrite ?length_cpu_bytes; lia.
Qed.

Lemma renamed_bytes c o new : Forall is_byte c -> Forall is_byte new -> Forall is_byte (renamed c o new).
Proof using. intros. unfold renamed. apply blit_bytes; [apply blit_bytes|]; [done|apply cpu_bytes_range|done]. Qed.
Lemma until_zero_full l : (length (until_zero l) = length l)%nat -> until_zero l = l.
Proof using.
  induction l as [|b l IH]; [done|]. cbn. destruct (b =? 0); cbn; [done|]. intros [= E]. by rewrite IH.
Qed.

Lemma calc_crc32_spec w fp c i : open_file w (fp_path fp) c -> 0 <= cferom_offset i <= tail_offset i -> tail_offset i <= Z.of_nat (length c) ->
  bcm4908img_calc_crc32 fp i w =
  Ret (0, crc_of 0xffffffff (slice c (cferom_offset i) (tail_offset i - cferom_offset i)), at_pos fp (tail_offset i)) w.
Proof using ArchLaws0.
  intros [Hw Hc Hb Hs] Ho Hl. unfold bcm4908img_calc_crc32. unfold bind at 1. rewrite ssize_t_small, fseek_set_calm by (done || lia).
  unfold bind. rewrite size_t_small by lia. rewrite (crc_loop_spec _ _ w c) by (done || cbn; lia). cbn [Z.eqb fp_pos at_pos]. unfold ret.
  replace (cferom_offset i + (tail_offset i - cferom_offset i)) with (tail_offset i) by lia. done.
Qed.

Lemma mv_entry_spec w fp c i o new :
  open_file w (fp_path fp) c -> fp_writable fp = true -> Forall is_byte new -> 0 <= o ->
  o + 40 + Z.of_nat (length new) <= Z.of_nat (length c) -> 20 <= Z.of_nat (length c) ->
  0 <= cferom_offset i <= tail_offset i -> tail_offset i <= Z.of_nat (length c) -> length (info_tail i) = 20%nat ->
  mv_entry fp i o (Z.of_nat (length new)) new w = Ret 0 (with_file w (fp_path fp) (resealed c i o new)).
Proof using ArchLaws0.
  intros [Hw Hc Hb Hs] Hwr Hnew Ho Hl H20 Hcf Htl Hit. unfold mv_entry. rewrite (size_t_small (o + 36)), (size_t_small (o + 40)) by lia.
  rewrite !ssize_t_small by lia. unfold bind at 1. rewrite fseek_set_calm by (done || lia). cbn [Z.eqb negb]. unfold bind at 1.
  assert (Forall is_byte (new ++ [0])) as Hz by (apply Forall_app_2; [done|]; apply Forall_singleton; unfold is_byte; lia).
  rewrite bcm_crc32_take by (done || rewrite ?length_app; lia).
  rewrite Nat2Z.id, take_app_length. unfold bind at 1.
  rewrite (fwrite_calm (at_pos fp (o + 36)) _ w c) by (done || cbn; lia). rewrite length_cpu_bytes. change (negb (Z.of_nat 4 =? 4)) with false. cbn [fp_path fp_pos at_pos]. cbn iota.
  set (c1 := blit c (o + 36) (cpu_bytes 4 (crc_of 0 new))).
  assert (length c1 = length c) as L1 by (unfold c1; rewrite length_blit; rewrite ?length_cpu_bytes; lia).
  unfold bind at 1. rewrite fseek_set_calm by (done || lia). cbn [Z.eqb negb]. unfold bind at 1.
  rewrite (fwrite_calm (at_pos _ (o + 40)) new (with_file w (fp_path fp) c1) c1) by (done || apply lookup_insert_eq || cbn; lia).
  rewrite Z.eqb_refl. cbn [negb fp_path fp_pos at_pos]. rewrite with_file_twice. fold (renamed c o new).
  assert (length (renamed c o new) = length c) as L2 by by apply renamed_length.
  unfold bind at 1. rewrite (calc_crc32_spec _ _ (renamed c o new)).
  2: { split; [done|apply lookup_insert_eq|by apply renamed_bytes|lia]. }
  2-3: lia.
  cbn [Z.eqb negb]. unfold bind at 1.
  rewrite (fseek_end_calm _ _ _ (renamed c o new)) by (done || apply lookup_insert_eq || (unfold sizeof_tail; lia)).
  cbn [Z.eqb negb]. unfold bind at 1.
  rewrite (fwrite_calm _ _ _ (renamed c o new)) by (done || apply lookup_insert_eq || (cbn [fp_pos at_pos]; unfold sizeof_tail; lia)).
  rewrite length_app, length_le_bytes, length_drop, Hit. cbn [fp_path fp_pos at_pos]. rewrite with_file_twice, L2. done.
Qed.
Lemma mv_loop_spec w fp c i old new : open_file w (fp_path fp) c -> fp_writable fp = true -> Forall is_byte new ->
  length new = length old -> until_zero old = old -> 20 <= Z.of_nat (length c) ->
  0 <= cferom_offset i <= tail_offset i -> tail_offset i <= Z.of_nat (length c) -> length (info_tail i) = 20%nat ->
  forall n o o', passes c old n o o' -> dirent_at c o' old -> forall fuel p, (n < fuel)%nat ->
  wp (loop fuel (mv_step i old new) (o, at_pos fp p)) (fun r w' => r = 0 /\ bw_files w' = <[fp_path fp := resealed c i o' new]> (bw_files w)) w.
Proof using ArchLaws0.
  intros Hof Hwr Hnew Hlen Hz H20 Hcf Htl Hit n o o' Hp Hd.
  induction Hp as [o|n o o' Hh Hk Hp IH|n o o' name Hh Hne Hp IH]; intros [|fuel] p Hfuel; try lia; cbn [loop]; apply wp_bind;
    unfold mv_step at 1; apply wp_bind.
  - eapply wp_intro; [apply (read_dirent w fp p c o _ old Hof Hd); reflexivity|]. cbn beta iota. rewrite decide_True by done.
    destruct Hd as ((Ho & _) & _ & _ & Hin & _). rewrite <- Hlen in Hin |- *. apply wp_bind.
    eapply wp_intro; [by apply (mv_entry_spec w (at_pos fp (o + 40 + Z.of_nat (length new))) c i o new)|].
    change (0 =? 0) with true. cbn iota. apply wp_bind. eapply wp_intro; [reflexivity|]. apply wp_ret. by apply wp_ret.
  - eapply wp_intro; [by apply (read_skip w fp p c o _ Hof)|]. cbn beta iota. apply wp_ret. apply (IH Hd); lia.
  - eapply wp_intro; [apply (read_dirent w fp p c o _ name Hof Hh); reflexivity|]. cbn beta iota. rewrite decide_False by done.
    apply wp_ret. apply (IH Hd); lia.
Qed.

(** What renaming changes in the file. *)
Section resealed.
Context (c : list Z) (i : bcm4908img_info) (o : Z) (new : list Z).
Context (Ho : 0 <= o) (Hin : o + 40 + Z.of_nat (length new) <= Z.of_nat (length c) - 20).
Context (Hit : length (info_tail i) = 20%nat).
Local Abbreviation c' := (resealed c i o new).

Lemma resealed_front p k : 0 <= p -> 0 <= k -> p + k <= Z.of_nat (length c) - 20 -> slice c' p k = slice (renamed c o new) p k.
Proof using Ho Hin Hit.
  intros. unfold resealed, sizeof_tail. apply slice_blit_before; try lia.
  rewrite length_app, length_le_bytes, length_drop, Hit, renamed_length by lia. lia.
Qed.

Lemma renamed_other p k : 0 <= p -> 0 <= k -> p + k <= o + 36 \/ o + 40 + Z.of_nat (length new) <= p ->
  slice (renamed c o new) p k = slice c p k.
Proof using Ho Hin Hit.
  intros Hp Hk Hor. unfold renamed. assert (length (blit c (o + 36) (cpu_bytes 4 (crc_of 0 new))) = length c) as L.
  { rewrite length_blit; rewrite ?length_cpu_bytes; lia. }
  destruct Hor; [rewrite !slice_blit_before|rewrite !slice_blit_after]; rewrite ?L, ?length_cpu_bytes; (done || lia).
Qed.

Lemma renamed_name : slice (renamed c o new) (o + 40) (Z.of_nat (length new)) = new.
Proof using Ho Hin Hit. unfold renamed. apply slice_blit_eq; [lia|]. rewrite length_blit; rewrite ?length_cpu_bytes; lia. Qed.

Lemma renamed_crc : slice (renamed c o new) (o + 36) 4 = cpu_bytes 4 (crc_of 0 new).
Proof using Ho Hin Hit.
  unfold renamed. rewrite slice_blit_before; [|lia..|rewrite length_blit; rewrite ?length_cpu_bytes; lia].
  apply slice_blit_len; [lia|lia|by rewrite length_cpu_bytes].
Qed.

Lemma resealed_length : length c' = length c.
Proof using Ho Hin Hit.
  unfold resealed, sizeof_tail. rewrite length_blit; rewrite ?renamed_length by lia; [done|lia|].
  rewrite length_app, length_le_bytes, length_drop, Hit. lia.
Qed.

Lemma resealed_dirent old : dirent_at c o old -> length new = length old -> dirent_at c' o new.
Proof using Ho Hin Hit.
  intros ((_ & Hl & Hm) & Hk & Hn & _ & _) Hlen. unfold dirent_at, node_head. rewrite resealed_length.
  assert (forall p k, o <= p -> 0 <= k -> p + k <= o + 36 -> slice c' p k = slice c p k) as Hs.
  { intros. rewrite resealed_front by lia. apply renamed_other; lia. }
  unfold cpu_field, be_field, le_field in *. rewrite !Hs by lia. rewrite Hlen.
  split; [done|]. split; [done|]. split; [done|]. split; [lia|].
  rewrite resealed_front by lia. rewrite <- Hlen. apply renamed_name.
Qed.

Lemma resealed_checksum : 0 <= cferom_offset i <= tail_offset i -> tail_offset i <= Z.of_nat (length c) - 20 ->
  le_field c' (Z.of_nat (length c) - 20) 4 = crc_of 0xffffffff (slice c' (cferom_offset i) (tail_offset i - cferom_offset i)).
Proof using Ho Hin Hit.
  intros Hcf Htl. rewrite resealed_front by lia. unfold resealed at 1, sizeof_tail.
  set (crc := crc_of _ _). unfold le_field.
  assert (length (le_bytes 4 crc ++ drop 4 (info_tail i)) = 20)%nat as L by (by rewrite length_app, length_le_bytes, length_drop, Hit).
  assert (Z.of_nat (length c) - 20 + 20 <= Z.of_nat (length (renamed c o new))) as Hl by (rewrite renamed_length by lia; lia).
  rewrite <- (Z.add_0_r (Z.of_nat (length c) - 20)) at 2. rewrite <- (slice_slice _ _ 20) by lia.
  rewrite slice_blit_len by (rewrite ?L; lia). fold (le_field (le_bytes 4 crc ++ drop 4 (info_tail i)) 0 4).
  rewrite le_field_here by done. apply Z.mod_small. pose proof (crc_of_range (slice (renamed c o new) (cferom_offset i) (tail_offset i - cferom_offset i)) 0xffffffff). subst crc. lia.
Qed.
End resealed.
(** C15: renaming a file of the boot file system walks over the nodes to the first directory
    entry with that name and succeeds; the file then differs in the name of that entry and its
    checksum, both new, and in the last twenty bytes; for an image without the extra tail of
    Linksys the checksum in them is the one over the changed contents, so that the image stays
    valid, while with that tail the image's own checksum is still the old one. *)
Theorem mv_renames stdin fuel path old new w c i n o :
  open_file w path c -> 1024 <= Z.of_nat (length c) -> image_ok c i -> rootfs_offset i + 256 <= Z.of_nat (length c) ->
  Forall is_byte new -> length new = length old -> until_zero old = old ->
  passes c old n (bootfs_offset i) o -> dirent_at c o old -> o + 40 + Z.of_nat (length old) <= tail_offset i -> (n < fuel)%nat ->
  wp (main stdin fuel (CmdBootfs (Some path) [ascii_bytes "mv"; old; new])) (fun r w' =>
    let c' := resealed c i o new in
    let crc := crc_of 0xffffffff (slice c' (cferom_offset i) (tail_offset i - cferom_offset i)) in
    r = 0 /\ bw_files w' = <[path := c']> (bw_files w) /\
    dirent_at c' o new /\ cpu_field c' (o + 36) 4 = crc_of 0 new /\
    (forall p k, 0 <= p -> 0 <= k -> p + k <= Z.of_nat (length c) - 20 ->
      p + k <= o + 36 \/ o + 40 + Z.of_nat (length new) <= p -> slice c' p k = slice c p k) /\
    le_field c' (tail_offset i) 4 = (if decide (linksys c) then info_crc32 i else crc)) w.
Proof using ArchLaws0.
  intros Hof Hlen Hi Hroom Hnew Hl Hz Hp Hd Hin Hfuel. pose proof (tail_of_range c Hlen) as [Ht0 Ht1]. unfold sizeof_tail in Ht1.
  rewrite <- (im_tail _ _ Hi) in Ht0, Ht1. pose proof (first_block_le _ _ _ (im_bootfs _ _ Hi)). pose proof (first_block_le _ _ _ (im_rootfs _ _ Hi)).
  pose proof (im_inside _ _ Hi). assert (length (info_tail i) = 20%nat) as Hit.
  { rewrite (im_bytes _ _ Hi). apply Nat2Z.inj. unfold sizeof_tail. rewrite length_slice by lia. done. }
  assert (0 <= cferom_offset i) as Hcf0.
  { rewrite (im_cferom _ _ Hi). unfold cferom_of. destruct (_ =? _); [|done]. apply (be_field_range c 4 4 (of_bytes _ _ _ Hof)). lia. }
  assert (0 <= o) as Ho by apply Hd. cbn [main]. unfold bcm4908img_bootfs. rewrite decide_True by done.
  unfold bcm4908img_open, fopen. apply wp_bind, wp_bind. eapply wp_intro; [apply next_fault_calm, Hof|].
  cbn beta iota. apply wp_bind, wp_gets. rewrite (of_file _ _ _ Hof). apply wp_ret. cbn beta iota.
  apply wp_bind. wp_call (parse_image w (mk_FILE path 0 true) c); [exact Hof|]. intros [r fp'] w' (-> & (p & ->) & Hr).
  destruct r as [err|i']; [destruct Hr as [_ Hr]; specialize (Hr Hlen i Hi); lia|].
  destruct Hr as [_ Hi']. rewrite (image_ok_unique c i' i Hi' Hi). rewrite decide_False by done. rewrite decide_True by done.
  unfold bcm4908img_bootfs_mv. rewrite Hl, Z.eqb_refl. cbn [negb].
  eapply wp_mono; [apply (mv_loop_spec w (mk_FILE path 0 true) c i old new Hof eq_refl Hnew Hl Hz ltac:(lia) ltac:(lia) ltac:(lia) Hit n _ o Hp Hd fuel p Hfuel)|].
  rewrite <- Hl in Hin |- *. assert (o + 40 + Z.of_nat (length new) <= Z.of_nat (length c) - 20) as Hin' by lia.
  intros r w' [-> Hw']. split; [done|]. split; [exact Hw'|]. split; [by apply (resealed_dirent c i o new Ho Hin' Hit old)|].
  split; [|split].
  - rewrite (cpu_field_bytes _ _ _ (crc_of 0 new) 4); [|rewrite resealed_front by (done || lia); by apply (renamed_crc c i o new)|done].
    apply Z.mod_small. pose proof (crc_of_range new 0). lia.
  - intros q k Hq Hk Hqk Hor. rewrite resealed_front by (done || lia). by apply (renamed_other c i o new).
  - destruct (decide (linksys c)) as [Hlk|Hlk].
    + assert (tail_offset i = Z.of_nat (length c) - 276) as Et.
      { rewrite (im_tail _ _ Hi). unfold tail_of. rewrite bool_decide_eq_true_2 by done. unfold sizeof_tail, sizeof_linksys_tail. lia. }
      unfold le_field. rewrite resealed_front by (done || lia). rewrite (renamed_other c i o new) by (done || lia).
      symmetry. apply (im_valid _ _ Hi).
    + assert (tail_offset i = Z.of_nat (length c) - 20) as Et.
      { rewrite (im_tail _ _ Hi). unfold tail_of. rewrite bool_decide_eq_false_2 by done. done. }
      rewrite Et at 1. apply resealed_checksum; (done || lia).
Qed.
End rename.

(** * Inputs that satisfy the hypotheses *)

(** A directory entry of the file [a], and the rest of the boot file system. *)
Definition demo_dirent : list Z :=
  [0x85; 0x19; 0x01; 0xe0; 44; 0; 0; 0; 0; 0; 0; 0; 0; 0; 0; 0; 0; 0; 0; 0; 0; 0; 0; 0; 0; 0; 0; 0; 1; 0; 0; 0; 0; 0; 0; 0;
   0; 0; 0; 0; 97; 0; 0; 0].
Definition demo_boot : list Z := demo_dirent ++ replicate (Z.to_nat 131028) 0.
Definition demo_root : list Z := [0x55; 0x42; 0x49; 0x23] ++ replicate (Z.to_nat 1000) 0.
Definition demo_world : bcm_world := mk_bcm_world {[ascii_bytes "b" := demo_boot; ascii_bytes "r" := demo_root]} [] [].
Definition demo_options : list create_option := [OptFile (ascii_bytes "b"); OptFile (ascii_bytes "r")].

Lemma demo_boot_length : Z.of_nat (length demo_boot) = 131072.
Proof. unfold demo_boot. rewrite length_app, length_replicate. change (length demo_dirent) with 44%nat. lia. Qed.
Lemma demo_root_length : Z.of_nat (length demo_root) = 1004.
Proof. unfold demo_root. rewrite length_app, length_replicate. cbn [length]. lia. Qed.

Lemma demo_slice rest o n : 0 <= o -> 0 <= n -> o + n <= 44 -> slice (demo_boot ++ rest) o n = slice demo_dirent o n.
Proof. intros. unfold demo_boot. rewrite <- app_assoc, slice_app_l by (change (length demo_dirent) with 44%nat; lia). done. Qed.

Lemma demo_start rest n : 0 <= n <= 44 -> be_field (demo_boot ++ rest) 0 n = be_field demo_dirent 0 n.
Proof. intros. unfold be_field. by rewrite demo_slice by lia. Qed.

Lemma demo_data : image_data (demo_boot ++ demo_root) 0 131072.
Proof.
  assert (Z.of_nat (length (demo_boot ++ demo_root)) = 132076) as Hl.
  { rewrite length_app, Nat2Z.inj_add, demo_boot_length, demo_root_length. done. }
  pose proof demo_boot_length as Hb. split; try lia.
  - rewrite demo_start by lia. done.
  - rewrite Hl. rewrite slice_app_r by lia. rewrite Hb. unfold demo_root. rewrite slice_app_r by (cbn [length]; lia).
    unfold slice. intros E. apply (f_equal head) in E. destruct (drop _ _) as [|x l] eqn:Ed; [done|].
    cbn in E. injection E as ->. assert (46 ∈ replicate (Z.to_nat 1000) 0) as Hin.
    { rewrite <- (take_drop (Z.to_nat (132076 - 236 - 131072 - Z.of_nat (length [85; 66; 73; 35])))). rewrite Ed.
      apply elem_of_app, or_intror, elem_of_cons. by apply or_introl. }
    apply elem_of_replicate in Hin as [? _]. done.
  - exists 0. split; [done|]. split; [done|]. split; [|lia]. unfold jffs2_at. by rewrite demo_start by lia.
  - exists 1. split; [done|]. split; [done|]. split.
    + unfold ubi_at, be_field. rewrite slice_app_r by lia. by rewrite Hb.
    + intros j Hj. replace j with 0 by lia. unfold ubi_at. by rewrite demo_start by lia.
Qed.

Lemma demo_bytes : Forall is_byte demo_boot /\ Forall is_byte demo_root.
Proof. split; unfold demo_boot, demo_root; (apply Forall_app_2; [|by apply Forall_replicate]);
  unfold demo_dirent; (repeat (apply Forall_cons_2; [unfold is_byte; lia|]); apply Forall_nil_2). Qed.

Lemma demo_files : bw_files demo_world !! ascii_bytes "b" = Some demo_boot /\ bw_files demo_world !! ascii_bytes "r" = Some demo_root.
Proof.
  unfold demo_world. cbn [bw_files]. split; [apply lookup_insert_eq|].
  rewrite lookup_insert_ne by done. apply lookup_insert_eq.
Qed.

Lemma demo_options_ok : Forall (option_ok (A := aarch64) (bw_files demo_world) (ascii_bytes "i")) demo_options.
Proof.
  destruct demo_bytes as [B1 B2], demo_files as [E1 E2]. unfold demo_options.
  apply Forall_cons_2; [|apply Forall_cons_2; [|apply Forall_nil_2]]; (split; [discriminate|intros c Hc]).
  - rewrite E1 in Hc. injection Hc as <-. exact B1.
  - rewrite E2 in Hc. injection Hc as <-. exact B2.
Qed.

Lemma demo_built : built (A := aarch64) (bw_files demo_world) 0 demo_options = (demo_boot ++ demo_root, demo_boot ++ demo_root).
Proof.
  destruct demo_files as [E1 E2]. unfold demo_options, built, option_data. rewrite E1, E2. cbn [default from_option id]. by rewrite app_nil_r.
Qed.

Lemma create_then_extract_witness :
  exists w', create_extract (A := aarch64) StdinTty (ascii_bytes "i") demo_options (ascii_bytes "rootfs") demo_world = Ret (0, 0) w' /\
    bw_stdout w' = demo_root.
Proof.
  pose proof (create_then_extract (A := aarch64) (ArchLaws0 := aarch64_laws) StdinTty (ascii_bytes "i") demo_options demo_world
    _ _ 0 131072 (ascii_bytes "rootfs") 131072 eq_refl demo_options_ok demo_built
    ltac:(rewrite length_app, Nat2Z.inj_add, demo_boot_length, demo_root_length; lia) demo_data ltac:(by apply or_introl)) as H.
  apply wp_inv in H as ([r r'] & w' & Em & H). destruct H as (-> & _ & [(_ & -> & E)|(E & _)]); [|destruct (E eq_refl)].
  exists w'. split; [exact Em|]. rewrite E. cbn [bw_stdout demo_world app]. apply drop_app_length'.
  pose proof demo_boot_length. lia.
Defined.

(** The image with these contents. *)
Definition demo_image : list Z := (demo_boot ++ demo_root) ++ tail_bytes (crc_of 0xffffffff (demo_boot ++ demo_root)).

Lemma demo_image_ok : exists pad, image_ok demo_image
  (mk_info 0 0 pad 131072 132076 (crc_of 0xffffffff (demo_boot ++ demo_root)) (tail_bytes (crc_of 0xffffffff (demo_boot ++ demo_root)))).
Proof.
  pose proof (img_ok (demo_boot ++ demo_root) 0 131072 (crc_of 0xffffffff (demo_boot ++ demo_root)) demo_data ltac:(apply crc_of_range; lia) eq_refl) as [pad H].
  exists pad. rewrite length_app, Nat2Z.inj_add, demo_boot_length, demo_root_length in H. exact H.
Qed.

Lemma demo_image_length : Z.of_nat (length demo_image) = 132096.
Proof.
  unfold demo_image. rewrite length_app, tail_bytes_length, length_app, !Nat2Z.inj_add, demo_boot_length, demo_root_length. done.
Qed.

Lemma demo_open : open_file (mk_bcm_world {[ascii_bytes "i" := demo_image]} [] []) (ascii_bytes "i") demo_image.
Proof.
  destruct demo_bytes. pose proof demo_image_length. split; [reflexivity|apply lookup_singleton_eq| |lia].
  apply Forall_app_2; [by apply Forall_app_2|apply tail_bytes_bytes].
Qed.

Lemma demo_dirent_at : dirent_at (A := aarch64) demo_image 0 [97].
Proof.
  pose proof demo_image_length as Hl. unfold dirent_at, node_head, cpu_field, le_field. rewrite Hl. cbn [big_endian aarch64].
  unfold demo_image. rewrite <- app_assoc. rewrite !demo_slice by (cbn [length]; lia). repeat split; (done || lia).
Qed.

Lemma mv_renames_witness : exists w',
  main (H := aarch64) StdinTty 1 (CmdBootfs (Some (ascii_bytes "i")) [ascii_bytes "mv"; [97]; [98]])
    (mk_bcm_world {[ascii_bytes "i" := demo_image]} [] []) = Ret 0 w' /\
  exists c', bw_files w' !! ascii_bytes "i" = Some c' /\ dirent_at (A := aarch64) c' 0 [98].
Proof.
  destruct demo_image_ok as [pad Hi]. pose proof demo_image_length as Hl.
  pose proof (mv_renames (A := aarch64) (ArchLaws0 := aarch64_laws) StdinTty 1 (ascii_bytes "i") [97] [98] _ demo_image _ 0%nat 0
    demo_open ltac:(lia) Hi ltac:(rewrite Hl; cbn [rootfs_offset]; lia) ltac:(apply Forall_singleton; unfold is_byte; lia) eq_refl eq_refl
    ltac:(apply passes_here) demo_dirent_at ltac:(cbn [tail_offset length]; lia) ltac:(lia)) as H.
  apply wp_inv in H as (r & w' & Em & H). destruct H as (-> & E & Hd & _).
  exists w'. split; [exact Em|]. eexists. split; [|exact Hd]. rewrite E. apply lookup_insert_eq.
Defined.
